(* ===== verification/_CoqProject ===== *)
-Q . S2P
Prelude.v
GoStrings.v
GoSort.v
Types.v
ClientErrors.v
Locks.v
RuleScan.v
SecurityLists.v
SecurityListManager.v
NetworkSecurityGroups.v
Annotations.v
Provider.v
Names.v
Diff.v
Actions.v
Spec.v
IpVersions.v
SpecFacts.v
LoadBalancer.v
LoadBalancerFacts.v
Handlers.v
HandlersFacts.v
HandlersMemory.v
ClientCalls.v
LbServiceClient.v
LbServiceFacts.v
NlbServiceClient.v
NlbServiceFacts.v
GoNet.v
CsiUtil.v
CsiUtilFacts.v
StorageClient.v
BlockVolume.v
BlockParameters.v
BlockVolumeFacts.v
AttachmentFacts.v
StorageMemory.v
FileStorageClient.v
FileStorage.v
FileStorageFacts.v
FileStorageMemory.v
NetworkingClient.v
ComputeClient.v
NetworkingFacts.v
Instances.v
InstancesFacts.v
NodeControllers.v
NodeControllersFacts.v
CloudMemory.v
LustreClient.v
Lustre.v
LustreFacts.v
LustreMemory.v
Host.v
LustreNet.v
NodeServices.v
NodeServicesFacts.v
NodeMemory.v
GoRegexp.v
Disk.v
BlockNode.v
DiskFacts.v
BlockNodeFacts.v
BlockNodeMemory.v
Config.v
Startup.v
ConfigFacts.v
StartupMemory.v
Flexvolume.v
FlexvolumeFacts.v
FlexDriverFacts.v
FlexMemory.v
Provisioner.v
ProvisionerFacts.v
ProvisionerMemory.v
CsiDriver.v
