(* ===== verification/Prelude.v ===== *)
(** * The OCI cloud controller manager

    This library models oci-cloud-controller-manager: the controller that turns a
    Kubernetes service of type LoadBalancer into an OCI load balancer or network load
    balancer with the security rules it needs, what it answers about nodes and their
    instances, the clients of the OCI services with their construction from a configuration,
    the CSI controllers and node services of block volumes and file systems, and the older
    Flexvolume driver and volume provisioner.  The sources are Go files under
    src/pkg/cloudprovider/providers/oci/ unless another directory is named.

    ** The program and the files that model it

    For a service the controller reads annotations and builds a specification
    ([LBSpec]), compares it with the load balancer that exists, and performs the
    differences as actions: create, update or delete a backend set, a listener or a
    rule set.  Around every action it opens or closes ports in security lists, or it
    reconciles the rules of network security groups.  Handlers for one service are
    kept apart by a lock.  The handlers call the clients of src/pkg/oci/client, which
    add rate limits, caches, paging and polling to the calls of the SDK.  The same
    clients serve the requests about nodes, the two controllers of nodes and the CSI
    controllers.  The node services run on every node and mount what the controllers have
    made; for block volumes they first log in to the device.  The provisioner and the
    Flexvolume driver do the work of the CSI controller and the node service on clusters
    without them.

    The language and its library:
    - Prelude: errors and outcomes ([outcome]: a value, an error or a panic), the
      monad [M] of calls to services over a state of the world, loops, the order of
      Go maps ([MapRange]), 32-bit integers, sorted string sets; shared lemmas.
    - GoStrings: the functions of strings and strconv that the code uses; GoNet: the
      addresses and blocks of package net; GoRegexp: regular expressions, which are parsed
      and matched as package regexp does, and path.Join.
    - GoSort: sort.SliceStable as the Go library computes it (insertion sort on
      blocks of 20, then in-place merges) and sort.Slice on short slices.
    - Types: the generic load balancer types (src/pkg/oci/client/
      generic_load_balancer_types.go) and the fields the code reads of Kubernetes
      services and nodes and of OCI networking types.

    Load balancers:
    - Locks: [loadBalancerLocks] (util.go) and the interleavings of the handlers.
    - RuleScan: the loop that keeps, claims or drops the rules of a security list,
      with its invariants; SecurityLists: the rule computations of
      load_balancer_security_lists.go; SecurityListManager: its managers, over a
      networking service with laws.
    - NetworkSecurityGroups: load_balancer_network_security_group.go.
    - Annotations: the getters of load_balancer_spec.go; Provider: subnets, nodes
      and status (load_balancer.go); Names: names of listeners, backend sets, load
      balancers and groups (load_balancer_util.go).
    - Diff: the comparisons of load_balancer_util.go; Actions: the order of the
      actions.
    - Spec: ports, backends, backend sets, listeners and [NewLBSpec]; IpVersions: the
      IP versions of load_balancer.go; SpecFacts: properties of the specification.
    - LoadBalancer: [updateLoadBalancer] and the functions that perform actions
      (load_balancer.go); LoadBalancerFacts: the configuration a load balancer
      reaches.
    - Handlers: the handlers of load_balancer.go as a whole; HandlersFacts: what they
      achieve; HandlersMemory: services in memory, on which they run.

    Clients (src/pkg/oci/client):
    - ClientErrors: errors.go; ClientCalls: limits, pages and polling, shared by all.
    - LbServiceClient and LbServiceFacts: load_balancer.go; NlbServiceClient and
      NlbServiceFacts: network_load_balancer.go.
    - NetworkingClient, ComputeClient: networking.go, compute.go; NetworkingFacts.
    - StorageClient: block_storage.go, volume_attachment.go, identity.go;
      FileStorageClient: file_storage.go; LustreClient: lustre.go.

    Nodes:
    - Instances, InstancesFacts: instances.go and zones.go.
    - NodeControllers, NodeControllersFacts: node_info_controller.go and
      tagging_controller.go.
    - CloudMemory: compute, networking and an API server in memory.

    Volumes (src/pkg/csi/driver, src/pkg/csi-util):
    - CsiUtil, CsiUtilFacts: utils.go.
    - BlockVolume: bv_controller.go; BlockParameters: its parameters and contexts;
      BlockVolumeFacts: creation and expansion; AttachmentFacts: publication;
      StorageMemory: block storage in memory.
    - FileStorage: fss_controller.go; FileStorageFacts; FileStorageMemory.
    - Lustre: lustre_controller.go, lustre_params.go and csi_recovery.go, with the
      handles that lustre_lnet_helper.go checks; LustreFacts; LustreMemory.
    - Host: the host of a node and mount_helper.go of src/pkg/util/disk; LustreNet: the
      rest of lustre_lnet_helper.go; NodeServices: fss_node.go and lustre_node.go, with
      the state of a node driver (driver.go); NodeServicesFacts; NodeMemory: a node in
      memory.
    - Disk, DiskFacts: the handlers of iSCSI, multipath and paravirtualized devices
      (src/pkg/util/disk); BlockNode: bv_node.go over them; BlockNodeFacts; BlockNodeMemory:
      a node with block devices in memory.
    - CsiDriver: the choice, construction and start of a CSI driver (driver.go) and
      identity.go.
    - Flexvolume: src/pkg/flexvolume; FlexvolumeFacts: call-outs and options;
      FlexDriverFacts: the driver of block volumes; FlexMemory.
    - Provisioner: src/pkg/volume/provisioner; ProvisionerFacts; ProvisionerMemory.

    Configuration and start-up:
    - Config: config/config.go, config/config_validate.go and the metadata of the instance
      (src/pkg/oci/instance/metadata).
    - Startup: ccm.go, client.go and client_factory.go of src/pkg/oci/client.
    - ConfigFacts: properties of both; StartupMemory: an environment in memory.

    ** How the code is translated

    A definition has the name of the Go function it models; helpers model the body
    of a loop or a branch.  A function that returns (T, error) has the type
    [outcome T]; a nil dereference or an index out of range is [Panic].  A method
    that calls services has the type [M W T]: it threads the state of the world and
    keeps the effects of the calls made before an error.  A Go map is a [gmap]; a
    loop over a map visits [range site m], any enumeration, so a theorem holds for
    every order.  Pointers to scalars and structs are [option]; nil and empty
    slices are distinguished only where the code does (the IPv6 blocks of a subnet,
    system tags, rule sets).  Go int is 64 bits wide and the numbers involved are
    ports, bandwidths and counters, kept as [Z]; conversions to int32 wrap ([int32]),
    and sizes of volumes are 64-bit integers that wrap ([int64]).  A configuration
    that the code changes in place is part of the state.  A slice whose spare room may
    be overwritten asks the class [SliceRoom].  Log messages and metrics are left out.

    Code that is not part of the program is a class: the SDK ([LbSdk], [NlbSdk],
    [NetworkSdk], [ComputeSdk], [StorageSdk], [FssSdk], [LustreSdk]), the rate limits and the ticks
    of a deadline ([Limits]), the caches and queues of the Kubernetes library ([Store],
    [WorkQueue]), its API ([KubeClient], [NodePatcher]), the host of a node with its
    mounts, files, commands and semaphores ([Host], [LnetHost]) and its block devices, the
    files and credentials a process starts with ([ConfigEnvironment], [SdkClients]),
    quantities and the choice of zones by Kubernetes, and JSON and YAML decoding.  A
    component that uses another asks for a class too ([SecurityListClient],
    [NsgClient], [LbClient], [SubnetClient]); the clients are instances of these.
    What the code relies on is a class of laws with an instance in memory, on which the
    witnesses run.

    ** What the theorems show

    - Security lists (SecurityLists, SecurityListManager): the new rules serve every
      desired CIDR exactly once, keep the rules of others and of ports in use, drop
      the rest, and a second pass changes nothing; after [Update] the lists of all
      subnets are open for the service.
    - Network security groups: after reconciling, the rules of a service in every
      group are the generated ones and the rules of other services are untouched;
      the generated rules open the ports; batches are complete and at most 25.
    - Annotations, Names, Provider: ranges and defaults of settings, which
      combinations are refused, which subnets are chosen, names that are bounded and
      do not collide, and when a suspicious list of nodes stops an update.
    - Diff, Actions: the actions, performed in any order, lead to the desired
      resources, there are none exactly when nothing has to change, and their order
      respects the references between listeners, backend sets and rule sets.
    - Spec, IpVersions, SpecFacts: listeners refer to existing backend sets, ports
      and backend sets agree, backends are the nodes, chosen IP versions can be
      served; the two cases where a listener has no backend set are singled out.
    - LoadBalancerFacts, HandlersFacts: a successful update or [EnsureLoadBalancer]
      leaves the configuration that the specification asks for (the abstract state is
      [LbView], the refinement [lb_step]); deletion removes the load balancer and the
      group that is managed for it; locks are released on every path, and a load
      balancer that is being changed is left alone.
    - LbServiceFacts, NlbServiceFacts, NetworkingFacts: the clients satisfy the laws
      that the controller is verified for; conversions of what is sent and read back
      agree; waiting ends, and listings are complete; the cache of subnets holds only
      what the service answered.
    - InstancesFacts: when a node's instance is taken for gone, which instance a node
      name stands for, which addresses a node has.
    - NodeControllersFacts: a processed node has its labels, and its instance the
      required tags; a second pass changes nothing.
    - BlockVolumeFacts, AttachmentFacts, FileStorageFacts: creation of a volume is
      idempotent, publication keeps a volume on one node unless it is shareable,
      deletion removes what was created and nothing else, volumes only grow.
    - LustreFacts: creation is idempotent, deletion removes the file system of the
      handle, handles survive the round trip, derived names are valid.
    - NodeServicesFacts: a staged or published file system is mounted, nothing is
      mounted over a published one, unmounting frees the path and never removes the
      contents of a volume, and locks and semaphores are given back on every path.
    - DiskFacts, BlockNodeFacts: a staged block volume is mounted from its device, a failed
      staging logs out again, unstaging frees the path and the target, publication binds
      and unpublication unbinds, an expansion answers the size that a device has after it
      was rescanned, and the path of a device names the device it was made from.
    - FlexvolumeFacts, FlexDriverFacts: the driver never reports a volume attached to two
      instances, a device that is mounted and unmounted leaves no session, and every
      call-out is answered by its method.
    - ProvisionerFacts: a claim gets one volume, which is made in the availability domain of
      its zone; what was provisioned is recognised and deleted, nothing else is; the two
      plugins discharge the interface the provisioner is proved against.
    - ConfigFacts: which of several settings wins, when a registered provider is ready, and
      that a client of a service account signs with the credentials of that account only.
    - CsiDriver: a process serves the requests of the driver whose name it was given.
    - CsiUtilFacts, BlockParameters: sizes, handles and contexts that survive the
      round trip.
    - Locks: in every interleaving at most one handler works on a service.

    ** Bounds and fuel

    [split_batches] has the length of the list as fuel, and every turn takes 25
    elements; [batches_correct] shows that nothing is lost.  The passes of
    [SliceStable] have fuel that covers the doubling of the block size.  The order of
    actions is proved for up to 20 actions on backend sets and listeners, where the
    library uses one insertion sort: the comparison function of the code is not a
    strict weak order, and beyond one block the result depends on the merges.  That
    no action is lost is proved for every number.  [Slice] is exact for up to 12
    security lists of a subnet, the limit of its insertion sort.

    Listings have fuel for their pages: the code reads until a page has no successor,
    and the theorems say that fuel for the number of pages is enough ([pages] in
    ClientCalls); two listings by name that never ask for the next page are shown not to
    end.  Polling ends when the ticks of the deadline are used up ([poll_ticks]); that
    many turns are enough.  A patch of a node is tried four times, as the library does.

    ** What is not modelled

    Informers and the goroutines and loops that Kubernetes libraries run (Initialize in
    ccm.go, Run of the controllers and of the provisioner, the gRPC server); metrics,
    logging and the flags of the commands; the detection of the operating system, which
    nothing calls; mocks and fakes of tests.  The mounts of a node change only by its own
    requests in the model: other processes of the host are not part of it.  A mount that
    binds is several commands of the host, and may fail after the first of them; a mount
    that is asked to remount makes no new one ([mount_step]). *)
From stdpp Require Import base tactics list gmap sets strings sorting.

Declare Scope go_scope.
Delimit Scope go_scope with go.

(** ** Errors and outcomes *)

(** A Go [error].  [Errorf] is [errors.New], [errors.Errorf] and [fmt.Errorf]
    (format string and rendered arguments); [Wrap] is [errors.Wrap]/[Wrapf];
    [ServiceError] is an error answered by an OCI service with its HTTP status,
    code and message; [NotFoundErr] is the client's sentinel [errNotFound];
    [DeadlineExceeded] and [WaitTimeout] are [context.DeadlineExceeded] and
    [wait.ErrWaitTimeout]; [StatusError] is [status.Errorf] of gRPC with its code, and
    [KubeNotFound] an error of the Kubernetes API with reason NotFound. *)
Inductive error :=
| Errorf (format : string) (args : list string)
| Wrap (cause : error) (format : string) (args : list string)
| ServiceError (status : Z) (code : string) (message : string)
| NotFoundErr
| DeadlineExceeded
| WaitTimeout
| StatusError (code format : string) (args : list string)
| KubeNotFound (message : string).

(** What a Go function that returns [(T, error)] can do: return, return an
    error, or panic (a nil dereference or an index out of range). *)
Inductive outcome (A : Type) :=
| Ret (a : A)
| Err (e : error)
| Panic.
Arguments Ret {_} _.
Arguments Err {_} _.
Arguments Panic {_}.

Global Instance outcome_ret : MRet outcome := λ A a, Ret a.
Global Instance outcome_bind : MBind outcome := λ A B f o,
  match o with Ret a => f a | Err e => Err e | Panic => Panic end.
Global Instance outcome_fmap : FMap outcome := λ A B f o,
  match o with Ret a => Ret (f a) | Err e => Err e | Panic => Panic end.

(** [*p] for a pointer [p]: a nil pointer panics. *)
Definition deref {A} (p : option A) : outcome A :=
  match p with Some a => Ret a | None => Panic end.

(** [s[i]] for a slice: an index out of range panics. *)
Definition index {A} (s : list A) (i : nat) : outcome A := deref (s !! i).

(** [errors.Wrap] on the error of a call. *)
Definition wrap_err {A} (o : outcome A) (format : string) (args : list string) : outcome A :=
  match o with Err e => Err (Wrap e format args) | _ => o end.

(** [errors.Cause]: the error below every [Wrap]. *)
Fixpoint error_cause (e : error) : error :=
  match e with Wrap e' _ _ => error_cause e' | _ => e end.

Definition is_ret {A} (o : outcome A) : bool :=
  match o with Ret _ => true | _ => false end.

(** ** Computations over the state of the outside world *)

(** A computation that calls services: it threads the state [W] of the world,
    which keeps the effects of the calls made before an error or a panic. *)
Definition M (W A : Type) : Type := W → outcome A * W.

Global Instance M_ret {W} : MRet (M W) := λ A a w, (Ret a, w).
Global Instance M_bind {W} : MBind (M W) := λ A B f c w,
  match c w with
  | (Ret a, w') => f a w'
  | (Err e, w') => (Err e, w')
  | (Panic, w') => (Panic, w')
  end.

Definition lift {W A} (o : outcome A) : M W A := λ w, (o, w).
Definition fail {W A} (e : error) : M W A := λ w, (Err e, w).

(** [errors.Wrap] on the error of a computation. *)
Definition wrapM {W A} (c : M W A) (format : string) (args : list string) : M W A :=
  λ w, let '(o, w') := c w in (wrap_err o format args, w').

(** A call whose error the caller inspects itself. *)
Definition try {W A} (c : M W A) : M W (error + A) := λ w,
  match c w with
  | (Ret a, w') => (Ret (inr a), w')
  | (Err e, w') => (Ret (inl e), w')
  | (Panic, w') => (Panic, w')
  end.

(** A call whose error is reported as another one. *)
Definition report {W A} (c : M W A) (f : error → M W A) : M W A :=
  r ← try c; match r with inl err => f err | inr a => mret a end.

(** [for _, x := range l { body }] with early return on error. *)
Fixpoint forM {W A} (l : list A) (body : A → M W ()) : M W () :=
  match l with
  | [] => mret ()
  | x :: l' => _ ← body x; forM l' body
  end.

(** The same loop threading a local accumulator. *)
Fixpoint foldM {W A B} (body : B → A → M W B) (b : B) (l : list A) : M W B :=
  match l with
  | [] => mret b
  | x :: l' => b' ← body b x; foldM body b' l'
  end.

(** ** Ranging over a map *)

(** Go visits the entries of a map in an unspecified order, fresh at every
    [range] statement.  [range site m] is the order in which the statement
    labelled [site] visits [m]; the only law is that every entry is visited
    exactly once, so a theorem over [MapRange] holds for every order.
    [set_order site l] is the order in which [UnsortedList] answers the elements
    [l] of a set. *)
Class MapRange := {
  range : nat → ∀ {A}, gmap string A → list (string * A);
  range_perm : ∀ site A (m : gmap string A), range site m ≡ₚ map_to_list m;
  set_order : nat → ∀ {A}, list A → list A;
  set_order_perm : ∀ site A (l : list A), set_order site l ≡ₚ l;
}.

(** The order [map_to_list] enumerates, to run the definitions. *)
Definition list_range : MapRange := {|
  range := λ _ A m, map_to_list m;
  range_perm := λ _ A m, reflexivity (map_to_list m);
  set_order := λ _ A l, l;
  set_order_perm := λ _ A l, reflexivity l;
|}.

(** ** Integers and sets *)

(** [int32(z)]. *)
Definition int32 (z : Z) : Z := (z + 2 ^ 31) `mod` 2 ^ 32 - 2 ^ 31.

(** [sets.String.List()]: the elements in increasing byte order. *)
Definition sets_List (s : gset string) : list string :=
  merge_sort String.le (elements s).

(** [pointer.StringDeref(p, "")] and the package's [toString]. *)
Definition string_or_empty (p : option string) : string := default "" p.

(** ** Lemmas *)

Create HintDb oci discriminated.

(** Reduce a bind whose computation is known. *)
Ltac simplify_outcome :=
  repeat match goal with
  | H : Ret _ = Ret _ |- _ => apply (inj Ret) in H; try subst
  | H : Err _ = Ret _ |- _ => discriminate H
  | H : Panic = Ret _ |- _ => discriminate H
  | H : Ret _ = Err _ |- _ => discriminate H
  | H : Ret _ = Panic |- _ => discriminate H
  | H : Panic = Err _ |- _ => discriminate H
  | H : (_, _) = (_, _) |- _ => apply pair_equal_spec in H as [? ?]; try subst
  end.

Global Instance Ret_inj {A} : Inj (=) (=) (@Ret A).
Proof. by intros ?? [=]. Qed.
Global Instance Err_inj {A} : Inj (=) (=) (@Err A).
Proof. by intros ?? [=]. Qed.

Lemma bind_Ret_inv {A B} (o : outcome A) (f : A → outcome B) b :
  o ≫= f = Ret b ↔ ∃ a, o = Ret a ∧ f a = Ret b.
Proof. destruct o; naive_solver. Qed.

Lemma bind_Panic_inv {A B} (o : outcome A) (f : A → outcome B) :
  o ≫= f = Panic ↔ o = Panic ∨ ∃ a, o = Ret a ∧ f a = Panic.
Proof. destruct o; naive_solver. Qed.

Lemma mapM_app_Ret {A B} (f : A → outcome B) l1 l2 r :
  mapM f (l1 ++ l2) = Ret r → ∃ r1 r2, mapM f l1 = Ret r1 ∧ mapM f l2 = Ret r2 ∧ r = r1 ++ r2.
Proof.
  revert r. induction l1 as [|x l1 IH]; intros r Hr; simpl in Hr; [by exists [], r|].
  apply bind_Ret_inv in Hr as (y & Hy & Hr). apply bind_Ret_inv in Hr as (ys & Hys & Hr). injection Hr as <-.
  apply IH in Hys as (r1 & r2 & H1 & H2 & ->). exists (y :: r1), r2. simpl. by rewrite Hy, H1.
Qed.

Definition ret_value {A} (o : outcome A) : option A := match o with Ret a => Some a | _ => None end.

Lemma M_bind_Ret_inv {W A B} (c : M W A) (f : A → M W B) w b w' :
  (c ≫= f) w = (Ret b, w') ↔ ∃ a w1, c w = (Ret a, w1) ∧ f a w1 = (Ret b, w').
Proof.
  unfold mbind, M_bind. destruct (c w) as [[] ?]; naive_solver.
Qed.

Lemma M_bind_cases {W A B} (c : M W A) (f : A → M W B) w o w' :
  (c ≫= f) w = (o, w') →
  (∃ a w1, c w = (Ret a, w1) ∧ f a w1 = (o, w')) ∨ (∃ o1, c w = (o1, w') ∧ is_ret o = false).
Proof. unfold mbind, M_bind. destruct (c w) as [[a|e|] w1]; [by eauto|..]; intros [= <- <-]; right; eauto. Qed.

Lemma report_Ret {W A} (c : M W A) f w a w' :
  report c f w = (Ret a, w') → c w = (Ret a, w') ∨ ∃ e w1, c w = (Err e, w1) ∧ f e w1 = (Ret a, w').
Proof.
  intros (r & w1 & Ht & Hr)%M_bind_Ret_inv. unfold try in Ht. destruct (c w) as [[b|e|] w2] eqn:E; [..|done];
    injection Ht as <- <-; [injection Hr as <- <-; by left|right; eauto].
Qed.

Lemma report_Err {W A} (c : M W A) f w e w1 : c w = (Err e, w1) → report c f w = f e w1.
Proof. intros E. unfold report, mbind, M_bind, try. by rewrite E. Qed.

Lemma report_done {W A} (c : M W A) f w a w1 : c w = (Ret a, w1) → report c f w = (Ret a, w1).
Proof. intros E. unfold report, mbind, M_bind, try. by rewrite E. Qed.

Lemma report_world {W A} (c : M W A) f w : (∀ e w, (f e w).2 = w) → (report c f w).2 = (c w).2.
Proof. intros Hf. unfold report, mbind, M_bind, try. destruct (c w) as [[a|e|] w1]; [done|apply Hf|done]. Qed.

Lemma report_Panic {W A} (c : M W A) f w w1 : c w = (Panic, w1) → report c f w = (Panic, w1).
Proof. intros E. unfold report, mbind, M_bind, try. by rewrite E. Qed.

(** A call whose error is only reported as another one. *)
Lemma report_fails_Ret {W A} (c : M W A) f w a w' :
  (∀ e w w' a, f e w ≠ (Ret a, w')) → report c f w = (Ret a, w') → c w = (Ret a, w').
Proof. intros Hf [Hr|(e & w1 & _ & Hr)]%report_Ret; [done|]. by apply Hf in Hr. Qed.

Lemma M_bind_Err {W A B} (c : M W A) (f : A → M W B) w e w' :
  (c ≫= f) w = (Err e, w') → c w = (Err e, w') ∨ ∃ a w1, c w = (Ret a, w1) ∧ f a w1 = (Err e, w').
Proof. unfold mbind, M_bind. destruct (c w) as [[a|e'|] w1]; [by eauto|..]; intros [= <- <-]; by left. Qed.

Lemma lift_Ret_inv {W A} (o : outcome A) (w : W) a w' : lift o w = (Ret a, w') → o = Ret a ∧ w' = w.
Proof. by intros [= -> ->]. Qed.

Lemma wrapM_Ret_inv {W A} (c : M W A) f args w a w' :
  wrapM c f args w = (Ret a, w') ↔ c w = (Ret a, w').
Proof. unfold wrapM. destruct (c w) as [[] ?]; naive_solver. Qed.

Lemma forM_app {W A} (l1 l2 : list A) (body : A → M W ()) w :
  forM (l1 ++ l2) body w = (_ ← forM l1 body; forM l2 body) w.
Proof.
  revert w. induction l1 as [|x l1 IH]; intros w; [done|].
  simpl. unfold mbind, M_bind in *. destruct (body x w) as [[] ?]; auto.
Qed.

(** An invariant of the body is an invariant of the loop. *)
Lemma forM_invariant {W A} (I : W → Prop) (l : list A) (body : A → M W ()) w w' o :
  (∀ x w o w', x ∈ l → I w → body x w = (o, w') → I w') →
  I w → forM l body w = (o, w') → I w'.
Proof.
  revert w. induction l as [|x l IH]; intros w Hb HI; simpl; [by intros [= <- <-]|].
  assert (∀ o1 w1, body x w = (o1, w1) → I w1) as Hx.
  { intros. eapply (Hb x w); [by left|done|done]. }
  unfold mbind, M_bind. destruct (body x w) as [[[]| |] w1] eqn:E; intros Hr;
    simplify_eq; [|by eauto..].
  eapply IH; [|by eapply Hx|exact Hr]. intros; eapply Hb; [by right|done..].
Qed.

(** What every successful body keeps, a successful loop keeps. *)
Lemma forM_keeps {W A} (I : W → Prop) (l : list A) (body : A → M W ()) w w' :
  (∀ x w w', x ∈ l → I w → body x w = (Ret (), w') → I w') →
  I w → forM l body w = (Ret (), w') → I w'.
Proof.
  revert w. induction l as [|x l IH]; intros w Hb HI Hr; simpl in Hr; [by injection Hr as <-|].
  apply M_bind_Ret_inv in Hr as ([] & w1 & Hx & Hr).
  eapply IH; [|eapply (Hb x w); [by left|done..]|done].
  intros; eapply Hb; [by right|done..].
Qed.

(** A successful loop establishes, for every element, what its body
    establishes, provided later bodies keep it. *)
Lemma forM_establishes {W A} (P : A → W → Prop) (l : list A) (body : A → M W ()) w w' :
  (∀ x w w', x ∈ l → body x w = (Ret (), w') → P x w') →
  (∀ x y w w', x ∈ l → y ∈ l → P x w → body y w = (Ret (), w') → P x w') →
  forM l body w = (Ret (), w') → ∀ x, x ∈ l → P x w'.
Proof.
  intros Hest Hkeep. revert w. induction l as [|y l IH]; intros w Hr x Hx; [set_solver|].
  simpl in Hr. apply M_bind_Ret_inv in Hr as ([] & w1 & Hy & Hr).
  apply elem_of_cons in Hx as [->|Hx].
  - eapply (forM_keeps (P y)); [|by eapply Hest; [left|]|exact Hr].
    intros z ????. eapply Hkeep; [by left|by right|done..].
  - eapply IH; [| |done|done].
    + intros; eapply Hest; [by right|done].
    + intros; eapply Hkeep; [by right|by right|done..].
Qed.

(** ** What a computation keeps *)

(** Every outcome of [c] relates the states before and after by [R]. *)
Definition frames {W A} (R : W → W → Prop) (c : M W A) : Prop := ∀ w o w', c w = (o, w') → R w w'.

Section frames.
Context {W : Type} (R : W → W → Prop) `{!PreOrder R}.

Lemma frames_lift {A} (o : outcome A) : frames R (lift o).
Proof. by intros w o' w' [= <- <-]. Qed.

Lemma frames_bind {A B} (c : M W A) (f : A → M W B) :
  frames R c → (∀ a, frames R (f a)) → frames R (c ≫= f).
Proof.
  intros Hc Hf w o w' Hr. unfold mbind, M_bind in Hr. destruct (c w) as [[a| |] w1] eqn:E.
  - trans w1; [by eapply Hc|by eapply Hf].
  - injection Hr as <- <-. by eapply Hc.
  - injection Hr as <- <-. by eapply Hc.
Qed.

Lemma frames_wrapM {A} (c : M W A) f args : frames R c → frames R (wrapM c f args).
Proof.
  intros Hc w o w' Hr. unfold wrapM in Hr. destruct (c w) as [o1 w1] eqn:E.
  injection Hr as <- <-. by eapply Hc.
Qed.

Lemma frames_try {A} (c : M W A) : frames R c → frames R (try c).
Proof.
  intros Hc w o w' Hr. unfold try in Hr. destruct (c w) as [[] w1] eqn:E;
    injection Hr as <- <-; by eapply Hc.
Qed.

Lemma frames_forM {A} (l : list A) (body : A → M W ()) :
  (∀ a, frames R (body a)) → frames R (forM l body).
Proof. intros Hb. induction l; simpl; [apply (frames_lift (Ret ()))|by apply frames_bind]. Qed.

Lemma frames_foldM {A B} (body : B → A → M W B) l b :
  (∀ b a, frames R (body b a)) → frames R (foldM body b l).
Proof.
  intros Hb. revert b. induction l; intros b; simpl; [apply (frames_lift (Ret b))|by apply frames_bind].
Qed.

Lemma frames_mapM {A B} (body : A → M W B) l : (∀ a, frames R (body a)) → frames R (mapM body l).
Proof.
  intros Hb. induction l; simpl; [apply (frames_lift (Ret []))|].
  apply frames_bind; [done|]. intros b. apply frames_bind; [done|]. intros bs. apply (frames_lift (Ret _)).
Qed.

Lemma frames_weaken {A} (R' : W → W → Prop) (c : M W A) : (∀ w w', R w w' → R' w w') → frames R c → frames R' c.
Proof. intros H Hc w o w' Hr. by eapply H, Hc. Qed.

Lemma frames_report {A} (c : M W A) f : frames R c → (∀ e, frames R (f e)) → frames R (report c f).
Proof.
  intros Hc Hf. unfold report. apply frames_bind; [by apply frames_try|]. intros [e|a]; [done|].
  apply (frames_lift (Ret a)).
Qed.

Lemma frames_fail {A} e : frames R (@fail W A e).
Proof. apply (frames_lift (Err e)). Qed.
End frames.

(** Split a computation into its calls. *)
Ltac frames_step :=
  match goal with
  | |- frames _ (_ ≫= _) => apply frames_bind; [apply _| |intros]
  | |- frames _ (wrapM _ _ _) => apply frames_wrapM
  | |- frames _ (try _) => apply frames_try
  | |- frames _ (forM _ _) => apply frames_forM; [apply _|intros]
  | |- frames _ (foldM _ _ _) => apply frames_foldM; [apply _|intros]
  | |- frames _ (mapM _ _) => apply frames_mapM; [apply _|intros]
  | |- frames _ (lift _) => apply frames_lift; apply _
  | |- frames _ (mret ?a) => apply (frames_lift _ (Ret a))
  | |- frames _ (fail ?e) => apply (frames_lift _ (Err e))
  | |- frames _ (match ?x with _ => _ end) => destruct x
  | |- frames _ (let '_ := ?x in _) => destruct x
  end.
Ltac frames := repeat (frames_step; cbv beta zeta).

Lemma elem_of_range `{MapRange} site {A} (m : gmap string A) k v :
  (k, v) ∈ range site m ↔ m !! k = Some v.
Proof. rewrite range_perm. apply elem_of_map_to_list. Qed.

Lemma NoDup_range `{MapRange} site {A} (m : gmap string A) : NoDup (range site m).*1.
Proof. rewrite range_perm. apply NoDup_fst_map_to_list. Qed.

Lemma elem_of_sets_List s x : x ∈ sets_List s ↔ x ∈ s.
Proof. unfold sets_List. rewrite merge_sort_Permutation. apply elem_of_elements. Qed.

Lemma NoDup_sets_List s : NoDup (sets_List s).
Proof. unfold sets_List. rewrite merge_sort_Permutation. apply NoDup_elements. Qed.

Lemma Sorted_sets_List s : Sorted String.le (sets_List s).
Proof. apply (Sorted_merge_sort String.le). Qed.

Lemma sets_List_empty : sets_List ∅ = [].
Proof. done. Qed.

Lemma sets_List_nil_inv s : sets_List s = [] → s = ∅.
Proof.
  intros E. apply set_eq. intros x. rewrite <-elem_of_sets_List, E. set_solver.
Qed.

Lemma int32_id z : (- 2 ^ 31 ≤ z < 2 ^ 31)%Z → int32 z = z.
Proof. intros ?. unfold int32. rewrite Z.mod_small; lia. Qed.

Lemma int32_bounds z : (- 2 ^ 31 ≤ int32 z < 2 ^ 31)%Z.
Proof. unfold int32. pose proof (Z.mod_pos_bound (z + 2 ^ 31) (2 ^ 32)). lia. Qed.

Lemma filter_none {A} (P : A → Prop) `{∀ x, Decision (P x)} l :
  Forall (λ x, ¬ P x) l → filter P l = [].
Proof. induction 1; [done|]. by rewrite filter_cons_False. Qed.

Lemma filter_all {A} (P : A → Prop) `{∀ x, Decision (P x)} l :
  Forall P l → filter P l = l.
Proof. induction 1 as [|x l Hx Hl IH]; [done|]. by rewrite filter_cons_True, IH. Qed.

Lemma filter_ext_elem {A} (P Q : A → Prop) `{∀ x, Decision (P x), ∀ x, Decision (Q x)} (l : list A) :
  (∀ x, x ∈ l → (P x ↔ Q x)) → filter P l = filter Q l.
Proof.
  induction l as [|x l IH]; intros E; [done|]. rewrite !filter_cons, IH by set_solver.
  rewrite (decide_ext (P x) (Q x)) by (apply E; by left). done.
Qed.

#[export] Hint Resolve NoDup_sets_List Sorted_sets_List NoDup_range : oci.
#[export] Hint Resolve int32_bounds : oci.
