(* ===== verification/GoStrings.v ===== *)
(** * Go strings

    The functions of Go's [strings], [strconv], [fmt] and [regexp] packages the
    sources call, on byte strings.  Case conversion is Go's on ASCII and on the
    two non-ASCII letters whose lower case is ASCII (the Kelvin sign and the
    dotted capital I), which is what decides a comparison with an ASCII
    constant; every other non-ASCII byte is left as it is. *)
From stdpp Require Import base tactics list gmap sets strings pretty.
From Stdlib Require Import Ascii.
From S2P Require Import Prelude.

(** [strings.Split(s, sep)] for a one-byte separator: never an empty slice. *)
Fixpoint split_on (sep : ascii) (s : string) : list string :=
  match s with
  | EmptyString => [""]
  | String c s' =>
      if decide (c = sep) then "" :: split_on sep s'
      else match split_on sep s' with
           | f :: fs => String c f :: fs
           | [] => [String c ""]
           end
  end.

(** [strings.Join(l, sep)]. *)
Fixpoint join (sep : string) (l : list string) : string :=
  match l with
  | [] => ""
  | [x] => x
  | x :: l' => x +:+ sep +:+ join sep l'
  end.

Definition lower_ascii (c : ascii) : ascii :=
  let n := nat_of_ascii c in
  if decide (65 ≤ n ≤ 90) then ascii_of_nat (n + 32) else c.

(** [strings.ToLower]. *)
Fixpoint ToLower (s : string) : string :=
  match s with
  | String "196" (String "176" s') => String "i" (ToLower s')
  | String "226" (String "132" (String "170" s')) => String "k" (ToLower s')
  | String c s' => String (lower_ascii c) (ToLower s')
  | EmptyString => ""
  end.

Definition upper_ascii (c : ascii) : ascii :=
  let n := nat_of_ascii c in
  if decide (97 ≤ n ≤ 122) then ascii_of_nat (n - 32) else c.

(** [strings.ToUpper] (dotless i and long s have an ASCII upper case). *)
Fixpoint ToUpper (s : string) : string :=
  match s with
  | String "196" (String "177" s') => String "I" (ToUpper s')
  | String "197" (String "191" s') => String "S" (ToUpper s')
  | String c s' => String (upper_ascii c) (ToUpper s')
  | EmptyString => ""
  end.

(** The representative of a string under simple case folding: the Kelvin sign
    folds with [k] and the long s with [s]. *)
Fixpoint fold_case (s : string) : string :=
  match s with
  | String "197" (String "191" s') => String "s" (fold_case s')
  | String "226" (String "132" (String "170" s')) => String "k" (fold_case s')
  | String c s' => String (lower_ascii c) (fold_case s')
  | EmptyString => ""
  end.

(** [strings.EqualFold]. *)
Definition EqualFold (a b : string) : bool := bool_decide (fold_case a = fold_case b).

(** [strings.HasPrefix] and [strings.TrimPrefix]. *)
Fixpoint strip_prefix (p s : string) : option string :=
  match p, s with
  | EmptyString, _ => Some s
  | String a p', String b s' => if decide (a = b) then strip_prefix p' s' else None
  | String _ _, EmptyString => None
  end.
Definition HasPrefix (s p : string) : bool := bool_decide (is_Some (strip_prefix p s)).
Definition TrimPrefix (s p : string) : string := default s (strip_prefix p s).

(** [strings.HasSuffix] and [strings.TrimSuffix]. *)
Definition strip_suffix (p s : string) : option string :=
  String.rev <$> strip_prefix (String.rev p) (String.rev s).
Definition HasSuffix (s p : string) : bool := bool_decide (is_Some (strip_suffix p s)).
Definition TrimSuffix (s p : string) : string := default s (strip_suffix p s).

(** [strings.Contains]. *)
Fixpoint Contains (s sub : string) : bool :=
  HasPrefix s sub ||
  match s with EmptyString => false | String _ s' => Contains s' sub end.

(** Keep the bytes that satisfy [p]: [strings.ReplaceAll(s, " ", "")] and
    [ReplaceAllString] of a negated byte class. *)
Fixpoint filter_string (p : ascii → bool) (s : string) : string :=
  match s with
  | EmptyString => ""
  | String c s' => if p c then String c (filter_string p s') else filter_string p s'
  end.
Definition remove_spaces : string → string :=
  filter_string (λ c, negb (bool_decide (c = " "%char))).
Definition is_alphanumeric (c : ascii) : bool :=
  let n := nat_of_ascii c in
  bool_decide (48 ≤ n ≤ 57) || bool_decide (65 ≤ n ≤ 90) || bool_decide (97 ≤ n ≤ 122).

(** [strings.TrimSpace], on the ASCII white space. *)
Fixpoint trim_left (s : string) : string :=
  match s with
  | String c s' => if Ascii.is_space c then trim_left s' else s
  | EmptyString => ""
  end.
Definition TrimSpace (s : string) : string :=
  String.rev (trim_left (String.rev (trim_left s))).

(** [s[:n]] for [n <= len(s)]. *)
Definition truncate (n : nat) (s : string) : string := String.substring 0 n s.

(** [strconv.Itoa] and the verb [%d]. *)
Definition Itoa (z : Z) : string := pretty z.

Definition digit (c : ascii) : option Z := Z.of_nat <$> Ascii.is_nat c.

Fixpoint digits (acc : Z) (s : string) : option Z :=
  match s with
  | EmptyString => Some acc
  | String c s' => d ← digit c; digits (acc * 10 + d)%Z s'
  end.

(** [strings.Index] and [strings.LastIndex] of a byte. *)
Fixpoint Index (s : string) (c : ascii) : option nat :=
  match s with
  | EmptyString => None
  | String d s' => if decide (d = c) then Some 0 else S <$> Index s' c
  end.
Fixpoint LastIndex (s : string) (c : ascii) : option nat :=
  match s with
  | EmptyString => None
  | String d s' => match LastIndex s' c with
                   | Some i => Some (S i)
                   | None => if decide (d = c) then Some 0 else None
                   end
  end.

(** [strconv.ParseInt(s, 10, 64)] and [strconv.Atoi]: [None] is any error. *)
Definition Atoi (s : string) : option Z :=
  match s with
  | EmptyString => None
  | String c s' =>
      if decide (c = "-"%char) then
        v ← (if decide (s' = "") then None else digits 0 s');
        if decide (v ≤ 2 ^ 63)%Z then Some (- v)%Z else None
      else
        let t := if decide (c = "+"%char) then s' else s in
        v ← (if decide (t = "") then None else digits 0 t);
        if decide (v < 2 ^ 63)%Z then Some v else None
  end.

(** [strconv.ParseBool]. *)
Definition ParseBool (s : string) : option bool :=
  if decide (s ∈ ["1"; "t"; "T"; "TRUE"; "true"; "True"]) then Some true
  else if decide (s ∈ ["0"; "f"; "F"; "FALSE"; "false"; "False"]) then Some false
  else None.

(** The byte [c] occurs in [s]. *)
Fixpoint has_byte (c : ascii) (s : string) : bool :=
  match s with
  | EmptyString => false
  | String d s' => bool_decide (d = c) || has_byte c s'
  end.

(** [strings.ReplaceAll] of one byte by another. *)
Fixpoint replace_byte (old new : ascii) (s : string) : string :=
  match s with
  | EmptyString => ""
  | String c s' => String (if decide (c = old) then new else c) (replace_byte old new s')
  end.

(** ** Lemmas *)

Lemma split_on_nonempty sep s : split_on sep s ≠ [].
Proof. destruct s; simpl; [done|]. repeat case_match; done. Qed.

Lemma join_cons sep x l : l ≠ [] → join sep (x :: l) = x +:+ sep +:+ join sep l.
Proof. by destruct l. Qed.

(** Joining the fields gives the string back. *)
Lemma join_split sep s : join (String sep "") (split_on sep s) = s.
Proof.
  induction s as [|c s IH]; [done|]. simpl.
  pose proof (split_on_nonempty sep s).
  destruct (decide (c = sep)) as [->|Hne].
  - rewrite join_cons by done. by rewrite IH.
  - destruct (split_on sep s) as [|f fs]; [done|].
    destruct fs; simpl in *; by rewrite <-IH.
Qed.

Lemma split_on_no_byte sep s : has_byte sep s = false → split_on sep s = [s].
Proof.
  induction s as [|c s IH]; [done|]. simpl. intros [Hc Hs]%orb_false_iff.
  rewrite decide_False by (by case_bool_decide). by rewrite IH.
Qed.

Lemma split_on_app sep s t :
  has_byte sep s = false →
  split_on sep (s +:+ String sep t) = s :: split_on sep t.
Proof.
  induction s as [|c s IH]; simpl.
  - intros _. by rewrite decide_True.
  - intros [Hc Hs]%orb_false_iff. rewrite decide_False by (by case_bool_decide).
    rewrite IH by done. done.
Qed.

(** Fields that do not hold the separator survive the round trip. *)
Lemma split_join sep l :
  l ≠ [] → Forall (λ s, has_byte sep s = false) l →
  split_on sep (join (String sep "") l) = l.
Proof.
  intros Hne Hl. induction Hl as [|x l Hx Hl IH]; [done|].
  destruct l as [|y l]; [by apply split_on_no_byte|].
  rewrite join_cons by done.
  change (String sep "" +:+ join (String sep "") (y :: l))
    with (String sep (join (String sep "") (y :: l))).
  rewrite split_on_app by done. by rewrite IH.
Qed.

Lemma EqualFold_refl a : EqualFold a a = true.
Proof. by apply bool_decide_eq_true. Qed.
Lemma EqualFold_sym a b : EqualFold a b = EqualFold b a.
Proof. apply bool_decide_ext. naive_solver. Qed.
Lemma EqualFold_trans a b c :
  EqualFold a b = true → EqualFold b c = true → EqualFold a c = true.
Proof. unfold EqualFold. rewrite !bool_decide_eq_true. congruence. Qed.

Lemma strip_prefix_app p s : strip_prefix p (p +:+ s) = Some s.
Proof. induction p; [done|]. simpl. by rewrite decide_True. Qed.

Lemma strip_prefix_Some p s t : strip_prefix p s = Some t → s = p +:+ t.
Proof.
  revert s. induction p as [|a p IH]; intros [|b s]; simpl; try (by intros [= <-]).
  case_decide; [|done]. subst. intros ->%IH. done.
Qed.

Lemma HasPrefix_app p s : HasPrefix (p +:+ s) p = true.
Proof. unfold HasPrefix. rewrite strip_prefix_app. done. Qed.

Lemma TrimPrefix_app p s : TrimPrefix (p +:+ s) p = s.
Proof. unfold TrimPrefix. by rewrite strip_prefix_app. Qed.

Lemma length_truncate n s : String.length (truncate n s) ≤ n.
Proof.
  unfold truncate. revert n. induction s as [|c s IH]; intros [|n]; simpl; [lia..|].
  specialize (IH n). lia.
Qed.

Lemma digit_pretty_char x : (x < 10)%N → digit (pretty_N_char x) = Some (Z.of_N x).
Proof.
  intros. assert (x = 0 ∨ x = 1 ∨ x = 2 ∨ x = 3 ∨ x = 4 ∨ x = 5 ∨ x = 6
    ∨ x = 7 ∨ x = 8 ∨ x = 9)%N as Hx by lia.
  by destruct_or! Hx; subst.
Qed.

Lemma is_nat_pretty_char x : (x < 10)%N → Ascii.is_nat (pretty_N_char x) ≠ None.
Proof. intros Hx E. apply digit_pretty_char in Hx. unfold digit in Hx. by rewrite E in Hx. Qed.

Lemma digits_pretty_go x s : digits 0 (pretty_N_go x s) = digits (Z.of_N x) s.
Proof.
  revert s. induction (N.lt_wf_0 x) as [x _ IH]; intros s.
  assert (x = 0 ∨ 0 < x)%N as [->|?] by lia; [done|].
  rewrite pretty_N_go_step, IH by (done || by apply N.div_lt).
  simpl. rewrite digit_pretty_char by (by apply N.mod_lt). simpl. f_equal.
  rewrite <-N2Z.inj_mul with (m := 10%N), <-N2Z.inj_add. f_equal.
  pose proof (N.div_mod x 10). lia.
Qed.

(** The decimal rendering of a natural number starts with a digit. *)
Lemma pretty_N_go_head x c s :
  Ascii.is_nat c ≠ None →
  ∃ d t, pretty_N_go x (String c s) = String d t ∧ Ascii.is_nat d ≠ None.
Proof.
  revert c s. induction (N.lt_wf_0 x) as [x _ IH]; intros c s Hc.
  assert (x = 0 ∨ 0 < x)%N as [->|?] by lia; [eauto|].
  rewrite pretty_N_go_step by done. apply IH; [by apply N.div_lt|].
  apply is_nat_pretty_char, N.mod_lt; lia.
Qed.

Lemma pretty_N_digits (x : N) :
  ∃ d t, pretty x = String d t ∧ Ascii.is_nat d ≠ None ∧ digits 0 (pretty x) = Some (Z.of_N x).
Proof.
  unfold pretty, pretty_N. case_decide as Hx; [subst; by eexists _, _|].
  rewrite digits_pretty_go. rewrite pretty_N_go_step by lia.
  destruct (pretty_N_go_head (x `div` 10) (pretty_N_char (x `mod` 10)) "") as (d & t & -> & ?);
    [|by eexists _, _].
  apply is_nat_pretty_char, N.mod_lt; lia.
Qed.

Lemma Atoi_unsigned d t v :
  Ascii.is_nat d ≠ None → digits 0 (String d t) = Some v → (v < 2 ^ 63)%Z →
  Atoi (String d t) = Some v.
Proof.
  intros Hd Hv Hb. unfold Atoi. cbv zeta.
  destruct (decide (d = "-"%char)); [by subst|].
  destruct (decide (d = "+"%char)); [by subst|].
  destruct (decide (String d t = "")); [done|]. rewrite Hv. simpl. by rewrite decide_True.
Qed.

(** Printing a 64-bit integer and parsing it gives it back. *)
Lemma Atoi_Itoa z : (- 2 ^ 63 ≤ z < 2 ^ 63)%Z → Atoi (Itoa z) = Some z.
Proof.
  intros Hz. unfold Itoa. destruct z as [|p|p]; [done|..].
  - destruct (pretty_N_digits (Npos p)) as (d & t & E & Hd & Hv).
    change (pretty (Z.pos p)) with (pretty (Npos p)). rewrite E in *.
    apply Atoi_unsigned; [done|done|lia].
  - change (pretty (Z.neg p)) with ("-" +:+ pretty (Npos p)).
    destruct (pretty_N_digits (Npos p)) as (d & t & E & Hd & Hv). rewrite E in *.
    change ("-" +:+ String d t) with (String "-" (String d t)). unfold Atoi.
    rewrite decide_True by done. rewrite decide_False by done. rewrite Hv. simpl.
    rewrite decide_True by lia. by f_equal.
Qed.

Global Instance Itoa_inj : Inj (=) (=) Itoa := pretty_Z_inj.

Lemma digits_no_byte c s acc v :
  Ascii.is_nat c = None → digits acc s = Some v → has_byte c s = false.
Proof.
  intros Hc. revert acc. induction s as [|d s IH]; intros acc; [done|]. simpl.
  destruct (digit d) eqn:Hd; [|done]. simpl. intros Hs.
  apply orb_false_iff. split; [|by eauto].
  apply bool_decide_eq_false. intros ->. unfold digit in Hd. by rewrite Hc in Hd.
Qed.

(** A non-negative number prints without a dash. *)
Lemma Itoa_no_dash z : (0 ≤ z)%Z → has_byte "-" (Itoa z) = false.
Proof.
  intros Hz. unfold Itoa. destruct z as [|p|p]; [done| |lia].
  change (pretty (Z.pos p)) with (pretty (Npos p)).
  destruct (pretty_N_digits (Npos p)) as (d & t & E & Hd & Hv).
  by eapply digits_no_byte.
Qed.

Lemma Itoa_digits z : (0 ≤ z)%Z → digits 0 (Itoa z) = Some z.
Proof.
  intros Hz. unfold Itoa. destruct z as [|p|p]; [done| |lia].
  change (pretty (Z.pos p)) with (pretty (Npos p)).
  by destruct (pretty_N_digits (Npos p)) as (d & t & E & Hd & Hv).
Qed.

(** No rendering of an integer holds a byte that is neither a digit nor a dash. *)
Lemma Itoa_no_byte c z : Ascii.is_nat c = None → c ≠ "-"%char → has_byte c (Itoa z) = false.
Proof.
  intros Hc Hd. destruct z as [|p|p].
  - unfold Itoa. simpl. rewrite orb_false_r. apply bool_decide_eq_false. intros <-. done.
  - by eapply digits_no_byte, Itoa_digits.
  - change (Itoa (Z.neg p)) with (String "-" (Itoa (Z.pos p))). simpl.
    apply orb_false_iff. split; [apply bool_decide_eq_false; congruence|].
    eapply (digits_no_byte c (Itoa (Z.pos p)) 0); [done|]. by apply Itoa_digits.
Qed.

Lemma digits_alphanumeric acc s v : digits acc s = Some v → filter_string is_alphanumeric s = s.
Proof.
  revert acc. induction s as [|c s IH]; intros acc; [done|]. simpl.
  destruct (digit c) as [d|] eqn:Hd; [|done]. simpl. intros Hs%IH.
  assert (is_alphanumeric c = true) as ->; [|by rewrite Hs].
  clear -Hd. destruct c as [[] [] [] [] [] [] [] []]; vm_compute in Hd |- *; done.
Qed.

Lemma length_append a b : String.length (a +:+ b) = String.length a + String.length b.
Proof. induction a; simpl; [done|]. by f_equal. Qed.

Lemma append_assoc a b c : a +:+ b +:+ c = (a +:+ b) +:+ c.
Proof. induction a as [|x a IH]; [done|]. exact (f_equal (String x) IH). Qed.

Lemma has_byte_app c a b : has_byte c (a +:+ b) = has_byte c a || has_byte c b.
Proof. induction a as [|d a IH]; [done|]. simpl. by rewrite IH, orb_assoc. Qed.

Lemma has_byte_rev c s : has_byte c (String.rev s) = has_byte c s.
Proof.
  assert (∀ acc, has_byte c (String.rev_app s acc) = has_byte c s || has_byte c acc) as H.
  { induction s as [|d s IH]; intros acc; [done|]. simpl. rewrite IH. simpl.
    by destruct (has_byte c s), (bool_decide (d = c)). }
  unfold String.rev. rewrite H. by rewrite orb_false_r.
Qed.

(** A suffix that ends in a byte the string does not hold is no suffix. *)
Lemma HasSuffix_no_byte c p s :
  has_byte c p = true → has_byte c s = false → HasSuffix s p = false.
Proof.
  intros Hp Hs. unfold HasSuffix, strip_suffix. apply bool_decide_eq_false.
  destruct (strip_prefix _ _) as [t|] eqn:E; simpl; [|by intros [? ?]].
  apply strip_prefix_Some in E. intros _.
  pose proof (has_byte_rev c s) as H. rewrite E, has_byte_app, has_byte_rev, Hp, Hs in H. done.
Qed.

(** Splitting at the last occurrence of a byte is unambiguous. *)
Lemma app_last_byte_inj c a b s t :
  has_byte c s = false → has_byte c t = false →
  a +:+ String c s = b +:+ String c t → a = b ∧ s = t.
Proof.
  intros Hs Ht. revert b. induction a as [|x a IH]; intros [|y b]; simpl; intros E.
  - by injection E as <-.
  - injection E as -> E. subst s. rewrite has_byte_app in Hs. simpl in Hs.
    rewrite bool_decide_eq_true_2, orb_true_r in Hs by done. done.
  - injection E as <- E. subst t. rewrite has_byte_app in Ht. simpl in Ht.
    rewrite bool_decide_eq_true_2, orb_true_r in Ht by done. done.
  - injection E as <- E. by destruct (IH b E) as [-> ->].
Qed.

Lemma append_nil_r s : s +:+ "" = s.
Proof. induction s as [|c s IH]; [done|]. exact (f_equal (String c) IH). Qed.

Lemma HasPrefix_refl s : HasPrefix s s = true.
Proof. rewrite <-(append_nil_r s) at 1. apply HasPrefix_app. Qed.

Lemma Contains_suffix a s : Contains (a +:+ s) s = true.
Proof.
  induction a as [|c a IH].
  - change ("" +:+ s) with s. destruct s; [done|]. cbn [Contains]. by rewrite HasPrefix_refl.
  - change (String c a +:+ s) with (String c (a +:+ s)). cbn [Contains]. by rewrite IH, orb_true_r.
Qed.

(** A string that lacks a byte of [sub] does not contain [sub]. *)
Lemma Contains_no_byte c s sub :
  has_byte c sub = true → has_byte c s = false → Contains s sub = false.
Proof.
  intros Hsub. assert (∀ t, has_byte c t = false → HasPrefix t sub = false) as Hp.
  { intros t Ht. apply bool_decide_eq_false. intros [u Hu%strip_prefix_Some].
    rewrite Hu, has_byte_app, Hsub in Ht. done. }
  induction s as [|d s IH]; intros Hs; cbn [Contains]; rewrite Hp by done; [done|].
  simpl in *. apply orb_false_iff in Hs as [_ Hs]. by apply IH.
Qed.

#[export] Hint Resolve split_on_nonempty EqualFold_refl length_truncate : oci.

Lemma fold_case_cases c s :
  (∃ s', c = "197"%char ∧ s = String "191" s' ∧ fold_case (String c s) = String "s" (fold_case s')) ∨
  (∃ s', c = "226"%char ∧ s = String "132" (String "170" s') ∧
     fold_case (String c s) = String "k" (fold_case s')) ∨
  fold_case (String c s) = String (lower_ascii c) (fold_case s).
Proof.
  destruct (decide (c = "197"%char)) as [->|H1].
  - destruct s as [|d s]; [by right; right|]. destruct (decide (d = "191"%char)) as [->|H2]; [left; by eauto|].
    right; right. destruct d as [[] [] [] [] [] [] [] []]; try done.
  - destruct (decide (c = "226"%char)) as [->|H2].
    + destruct s as [|d [|e s]]; [by right; right|by right; right; destruct d as [[] [] [] [] [] [] [] []]|].
      destruct (decide (d = "132"%char)) as [->|H3].
      * destruct (decide (e = "170"%char)) as [->|H4]; [right; left; by eauto|].
        right; right. by destruct e as [[] [] [] [] [] [] [] []].
      * right; right. by destruct d as [[] [] [] [] [] [] [] []].
    + right; right. by destruct c as [[] [] [] [] [] [] [] []].
Qed.

(** Folding the case of a string does not hide a dash. *)
Lemma fold_case_no_dash s : has_byte "-" (fold_case s) = false → has_byte "-" s = false.
Proof.
  remember (String.length s) as n eqn:Hn. revert s Hn.
  induction (lt_wf n) as [n _ IH]. intros s -> H.
  assert (∀ s', String.length s' < String.length s → has_byte "-" (fold_case s') = false →
    has_byte "-" s' = false) as IH' by (intros s' Hs'; by eapply IH).
  clear IH. destruct s as [|c s]; [done|].
  destruct (fold_case_cases c s) as [(s' & -> & -> & E)|[(s' & -> & -> & E)|E]]; rewrite E in H; simpl in H |- *.
  - apply IH'; simpl; [lia|done].
  - apply IH'; simpl; [lia|done].
  - apply orb_false_iff in H as [Hc Hs]. rewrite (IH' s); [|simpl; lia|done]. rewrite orb_false_r.
    apply bool_decide_eq_false in Hc. apply bool_decide_eq_false. by intros ->.
Qed.
