(* ===== verification/GoSort.v ===== *)
(** * Go's [sort.SliceStable] and [sort.Slice]

    [sort.SliceStable] sorts blocks of 20 elements by insertion and merges the
    sorted blocks in place with SymMerge; the algorithm is modelled as it is
    because the sources pass it comparison functions that are not strict weak
    orders, for which only the algorithm says what happens.  [sort.Slice] sorts
    slices of at most 12 elements by insertion, and the sources only call it on
    such slices (a subnet has at most five security lists). *)
From stdpp Require Import base tactics list sorting.
From S2P Require Import Prelude.

Section sort.
Context {A : Type} (less : A → A → bool).

(** The inner loop of insertion sort: [x] moves left while it is less than its
    left neighbour; the sorted prefix is kept in reverse. *)
Fixpoint insert_left (x : A) (rprefix : list A) : list A :=
  match rprefix with
  | [] => [x]
  | y :: r => if less x y then y :: insert_left x r else x :: rprefix
  end.

Definition insertionSort (l : list A) : list A :=
  reverse (foldl (λ rprefix x, insert_left x rprefix) [] l).

(** Binary search on [[i, j)] for the first index where [p] fails. *)
Fixpoint search (fuel : nat) (p : nat → bool) (i j : nat) : nat :=
  match fuel with
  | 0 => i
  | S fuel' =>
      if decide (i < j) then
        let h := (i + j) / 2 in
        if p h then search fuel' p (S h) j else search fuel' p i h
      else i
  end.

Definition less_at (l : list A) (i j : nat) : bool :=
  match l !! i, l !! j with Some a, Some b => less a b | _, _ => false end.

(** [symMerge(data, 0, m, len(l))] on the slice [l], whose halves [[0, m)] and
    [[m, len)] are sorted. *)
Fixpoint symMerge (fuel : nat) (l : list A) (m : nat) : list A :=
  match fuel with
  | 0 => l
  | S fuel' =>
      let b := length l in
      if decide (m = 1) then
        let i := search b (λ h, less_at l h 0) m b in
        take (i - 1) (drop 1 l) ++ take 1 l ++ drop i l
      else if decide (b - m = 1) then
        let i := search b (λ h, negb (less_at l m h)) 0 m in
        take i l ++ drop m l ++ take (m - i) (drop i l)
      else
        let mid := b / 2 in
        let n := mid + m in
        let '(start0, r) := if decide (mid < m) then (n - b, mid) else (0, m) in
        let start := search b (λ c, negb (less_at l (n - 1 - c) c)) start0 r in
        let end_ := n - start in
        let l1 := if decide (start < m ∧ m < end_)
                  then take start l ++ take (end_ - m) (drop m l)
                         ++ take (m - start) (drop start l) ++ drop end_ l
                  else l in
        let lo := take mid l1 in
        let hi := drop mid l1 in
        (if decide (0 < start ∧ start < mid) then symMerge fuel' lo start else lo)
        ++ (if decide (mid < end_ ∧ end_ < b) then symMerge fuel' hi (end_ - mid) else hi)
  end.

(** Sort each block of [size] elements by insertion. *)
Fixpoint sortBlocks (fuel size : nat) (l : list A) : list A :=
  match fuel with
  | 0 => insertionSort l
  | S fuel' =>
      if decide (size ≤ length l)
      then insertionSort (take size l) ++ sortBlocks fuel' size (drop size l)
      else insertionSort l
  end.

(** Merge neighbouring sorted blocks of [size] elements, once. *)
Fixpoint mergePass (fuel size : nat) (l : list A) : list A :=
  match fuel with
  | 0 => l
  | S fuel' =>
      if decide (2 * size ≤ length l)
      then symMerge (2 * size) (take (2 * size) l) size
             ++ mergePass fuel' size (drop (2 * size) l)
      else if decide (size < length l) then symMerge (length l) l size else l
  end.

Fixpoint mergePasses (fuel size : nat) (l : list A) : list A :=
  match fuel with
  | 0 => l
  | S fuel' =>
      if decide (size < length l)
      then mergePasses fuel' (2 * size) (mergePass (length l) size l) else l
  end.

Definition SliceStable (l : list A) : list A :=
  mergePasses (length l) 20 (sortBlocks (length l) 20 l).

Definition Slice : list A → list A := insertionSort.

(** ** Lemmas *)

Lemma insert_left_Permutation x r : insert_left x r ≡ₚ x :: r.
Proof.
  induction r as [|y r IH]; simpl; [done|]. case_match; [|done].
  rewrite IH. apply Permutation_swap.
Qed.

Lemma foldl_insert_Permutation r l :
  foldl (λ r x, insert_left x r) r l ≡ₚ l ++ r.
Proof.
  revert r. induction l as [|x l IH]; intros r; simpl; [done|].
  rewrite IH, insert_left_Permutation. by rewrite Permutation_middle.
Qed.

Lemma insertionSort_Permutation l : insertionSort l ≡ₚ l.
Proof.
  unfold insertionSort. rewrite reverse_Permutation, foldl_insert_Permutation.
  by rewrite app_nil_r.
Qed.

Lemma sortBlocks_Permutation fuel size l : sortBlocks fuel size l ≡ₚ l.
Proof.
  revert l. induction fuel as [|fuel IH]; intros l; simpl; [apply insertionSort_Permutation|].
  case_decide; [|apply insertionSort_Permutation].
  rewrite insertionSort_Permutation, IH. by rewrite take_drop.
Qed.

(** Rotating a slice permutes it. *)
Lemma rotate_Permutation (l : list A) i m j :
  i ≤ m → m ≤ j →
  take i l ++ take (j - m) (drop m l) ++ take (m - i) (drop i l) ++ drop j l ≡ₚ l.
Proof.
  intros Him Hmj.
  rewrite <-(take_drop i l) at 5. apply Permutation_app; [done|].
  rewrite <-(take_drop (m - i) (drop i l)) at 2.
  rewrite drop_drop, (Permutation_app_comm (take (j - m) _)), <-app_assoc.
  replace (i + (m - i)) with m by lia. apply Permutation_app; [done|].
  rewrite <-(take_drop (j - m) (drop m l)) at 2. rewrite drop_drop.
  replace (m + (j - m)) with j by lia. apply Permutation_app_comm.
Qed.

Lemma search_bounds fuel p i j : i ≤ j → i ≤ search fuel p i j ≤ j.
Proof.
  revert i j. induction fuel as [|fuel IH]; intros i j Hij; cbn [search]; [lia|].
  case_decide; [|lia]. cbv zeta.
  pose proof (Nat.div_mod_eq (i + j) 2). pose proof (Nat.mod_upper_bound (i + j) 2).
  set (h := (i + j) / 2) in *.
  destruct (p h); [specialize (IH (S h) j)|specialize (IH i h)]; lia.
Qed.

Lemma symMerge_Permutation fuel l m : 0 < m → m < length l → symMerge fuel l m ≡ₚ l.
Proof.
  revert l m. induction fuel as [|fuel IH]; intros l m H0 Hm; [done|]. cbn [symMerge].
  case_decide as Hm1; [|case_decide as Hbm].
  - subst m. set (i := search _ _ _ _).
    assert (1 ≤ i ≤ length l) as Hi by (apply search_bounds; lia).
    pose proof (rotate_Permutation l 0 1 i) as Hr. simpl in Hr.
    rewrite drop_0 in Hr. by apply Hr; lia.
  - set (i := search _ _ _ _). assert (0 ≤ i ≤ m) as Hi by (apply search_bounds; lia).
    pose proof (rotate_Permutation l i m (length l)) as Hr.
    rewrite drop_all, app_nil_r, (take_ge (drop m l)) in Hr by (rewrite length_drop; lia).
    apply Hr; lia.
  - destruct (if decide (length l / 2 < m) then _ else _) as [s0 r] eqn:Hs.
    assert (length l / 2 ≤ length l) as Hhalf by (apply Nat.Div0.div_le_upper_bound; lia).
    assert (s0 ≤ r ∧ r ≤ m ∧ r ≤ length l / 2) as (Hsr & Hrm & Hr2)
      by (case_decide; simplify_eq; lia).
    clear Hs. set (start := search _ _ _ _).
    assert (s0 ≤ start ≤ r) as Hst by (apply search_bounds; lia).
    set (l1 := if decide (start < m ∧ _) then _ else l).
    assert (l1 ≡ₚ l) as Hl1.
    { unfold l1. case_decide; [|done]. apply rotate_Permutation; lia. }
    clearbody l1. pose proof (Permutation_length Hl1) as Hlen.
    etrans; [|exact Hl1]. trans (take (length l / 2) l1 ++ drop (length l / 2) l1); [|by rewrite take_drop].
    apply Permutation_app; case_decide; try reflexivity; apply IH;
      rewrite ?length_take, ?length_drop; lia.
Qed.

Lemma mergePass_Permutation fuel size l : 0 < size → mergePass fuel size l ≡ₚ l.
Proof.
  intros Hs. revert l. induction fuel as [|fuel IH]; intros l; [done|]. cbn [mergePass].
  case_decide; [|case_decide; [|done]].
  - rewrite symMerge_Permutation, IH, take_drop; rewrite ?length_take; done || lia.
  - by apply symMerge_Permutation.
Qed.

Lemma mergePasses_Permutation fuel size l : 0 < size → mergePasses fuel size l ≡ₚ l.
Proof.
  revert size l. induction fuel as [|fuel IH]; intros size l Hs; [done|]. cbn [mergePasses].
  case_decide; [|done]. rewrite IH by lia. by apply mergePass_Permutation.
Qed.

Lemma SliceStable_Permutation l : SliceStable l ≡ₚ l.
Proof.
  unfold SliceStable. rewrite mergePasses_Permutation by lia. apply sortBlocks_Permutation.
Qed.

(** Up to 20 elements [SliceStable] is insertion sort. *)
Lemma SliceStable_short l : length l ≤ 20 → SliceStable l = insertionSort l.
Proof.
  intros Hl. unfold SliceStable.
  assert (sortBlocks (length l) 20 l = insertionSort l) as Hb.
  { destruct (decide (length l = 20)) as [E|].
    - rewrite E at 1. cbn [sortBlocks]. rewrite decide_True by lia.
      rewrite take_ge, drop_ge by lia. cbn [sortBlocks].
      rewrite decide_False by (simpl; lia). cbn. by rewrite app_nil_r.
    - destruct (length l) eqn:E; cbn [sortBlocks]; [done|].
      by rewrite decide_False by lia. }
  rewrite Hb. pose proof (Permutation_length (insertionSort_Permutation l)) as E.
  destruct (length l) eqn:E'; [done|]. cbn [mergePasses]. by rewrite decide_False by lia.
Qed.

(** Insertion sort orders a list whenever a comparison that fails says so:
    [R] is any total preorder that [less] refines. *)
Lemma insert_left_Sorted (R : relation A) `{!Transitive R} x r :
  (∀ a b, less a b = true → R a b) → (∀ a b, less a b = false → R b a) →
  StronglySorted (flip R) r → StronglySorted (flip R) (insert_left x r).
Proof.
  intros Ht Hf. induction 1 as [|y r Hr IH Hy]; simpl; [by repeat constructor|].
  destruct (less x y) eqn:E.
  - constructor; [done|]. rewrite Forall_forall. intros z.
    rewrite insert_left_Permutation. intros [->|Hz]%elem_of_cons; [by apply Ht|].
    rewrite Forall_forall in Hy. by apply Hy.
  - apply Hf in E. constructor; [by constructor|].
    constructor; [done|]. eapply Forall_impl; [done|]. simpl. intros z ?. by trans y.
Qed.

End sort.

Section sorted.
Context {A : Type} (less : A → A → bool).

Lemma StronglySorted_reverse (R : relation A) l :
  StronglySorted (flip R) l → StronglySorted R (reverse l).
Proof.
  induction 1 as [|x l Hl IH Hx]; [constructor|]. rewrite reverse_cons.
  apply StronglySorted_app_2; [|done|by repeat constructor].
  intros a b Ha ->%list_elem_of_singleton. rewrite Forall_forall in Hx.
  apply Hx. by apply elem_of_reverse.
Qed.

Lemma insertionSort_Sorted (R : relation A) `{!Transitive R} l :
  (∀ a b, less a b = true → R a b) → (∀ a b, less a b = false → R b a) →
  StronglySorted R (insertionSort less l).
Proof.
  intros Ht Hf. unfold insertionSort. apply StronglySorted_reverse.
  assert (∀ r, StronglySorted (flip R) r →
    StronglySorted (flip R) (foldl (λ r x, insert_left less x r) r l)) as H.
  { induction l as [|x l IH]; intros r Hr; [done|]. simpl. apply IH.
    by apply insert_left_Sorted. }
  apply H. constructor.
Qed.

End sorted.
