(* ===== verification/Types.v ===== *)
(** * Data of the load balancer controller

    The generic load balancer types of [pkg/oci/client], the parts of the
    Kubernetes and OCI SDK objects the controller reads, and the controller's
    own records.  A Go pointer is an [option]; a field the SDK documents as
    mandatory is a plain value.  A slice is a [list], except where the code
    distinguishes a nil slice from an empty one ([option (list _)]). *)
From stdpp Require Import base tactics list gmap sets strings.
From S2P Require Import Prelude GoStrings.

(** ** pkg/oci/client/generic_load_balancer_types.go *)

(** [GenericIpVersion] is a string type with these constants. *)
Definition GenericIPv4 : string := "IPv4".
Definition GenericIPv6 : string := "IPv6".
Definition GenericIPv4AndIPv6 : string := "IPv4_AND_IPv6".

Record GenericSessionPersistenceConfiguration := {
  sp_CookieName : option string;
  sp_DisableFallback : option bool;
}.

Record GenericHealthChecker := {
  hc_Protocol : string;
  hc_IsForcePlainText : option bool;
  hc_Port : option Z;
  hc_UrlPath : option string;
  hc_Retries : option Z;
  hc_TimeoutInMillis : option Z;
  hc_IntervalInMillis : option Z;
  hc_ResponseBodyRegex : option string;
  hc_ReturnCode : option Z;
}.

Record GenericBackend := {
  be_Port : option Z;
  be_Name : option string;
  be_IpAddress : option string;
  be_TargetId : option string;
  be_Weight : option Z;
  be_Backup : option bool;
  be_Drain : option bool;
  be_Offline : option bool;
  be_MaxConnections : option Z;
}.

Record GenericSslConfigurationDetails := {
  ssl_VerifyDepth : option Z;
  ssl_VerifyPeerCertificate : option bool;
  ssl_HasSessionResumption : option bool;
  ssl_TrustedCertificateAuthorityIds : option (list string);
  ssl_CertificateIds : option (list string);
  ssl_CertificateName : option string;
  ssl_Protocols : option (list string);
  ssl_CipherSuiteName : option string;
  ssl_ServerOrderPreference : string;
}.

Record GenericBackendSetDetails := {
  bs_Name : option string;
  bs_HealthChecker : option GenericHealthChecker;
  bs_Policy : option string;
  bs_Backends : list GenericBackend;
  bs_SessionPersistenceConfiguration : option GenericSessionPersistenceConfiguration;
  bs_SslConfiguration : option GenericSslConfigurationDetails;
  bs_IsPreserveSource : option bool;
  bs_IpVersion : option string;
}.

Record GenericConnectionConfiguration := {
  cc_IdleTimeout : option Z;
  cc_BackendTcpProxyProtocolVersion : option Z;
  cc_BackendTcpProxyProtocolOptions : list string;
}.

Record GenericListener := {
  ln_Name : option string;
  ln_DefaultBackendSetName : option string;
  ln_Port : option Z;
  ln_Protocol : option string;
  ln_HostnameNames : list string;
  ln_PathRouteSetName : option string;
  ln_SslConfiguration : option GenericSslConfigurationDetails;
  ln_ConnectionConfiguration : option GenericConnectionConfiguration;
  ln_RoutingPolicyName : option string;
  ln_RuleSetNames : list string;
  ln_IpVersion : option string;
  ln_IsPpv2Enabled : option bool;
}.

Record GenericShapeDetails := {
  sd_MinimumBandwidthInMbps : option Z;
  sd_MaximumBandwidthInMbps : option Z;
}.

Record GenericCertificate := {
  cert_CertificateName : option string;
  cert_Passphrase : option string;
  cert_PrivateKey : option string;
  cert_PublicCertificate : option string;
  cert_CaCertificate : option string;
}.

Record GenericIpAddress := {
  ip_IpAddress : option string;
  ip_IsPublic : option bool;
  ip_ReservedIp : option (option string);  (** the OCID inside [GenericReservedIp] *)
}.

Record GenericWorkRequest := {
  wr_Id : option string;
  wr_LoadBalancerId : option string;
  wr_Type : option string;
  wr_LifecycleState : option string;
  wr_Message : option string;
  wr_CompartmentId : option string;
  wr_OperationType : string;
  wr_Status : string;
}.

(** A reserved IP is the OCID inside [GenericReservedIp]. *)
Record GenericCreateLoadBalancerDetails {RS : Type} := {
  cld_CompartmentId : option string;
  cld_DisplayName : option string;
  cld_ShapeName : option string;
  cld_SubnetIds : list string;
  cld_ShapeDetails : option GenericShapeDetails;
  cld_IsPrivate : option bool;
  cld_IsPreserveSourceDestination : option bool;
  cld_ReservedIps : list (option string);
  cld_Listeners : gmap string GenericListener;
  cld_BackendSets : gmap string GenericBackendSetDetails;
  cld_NetworkSecurityGroupIds : list string;
  cld_FreeformTags : gmap string string;
  cld_DefinedTags : gmap string (gmap string string);
  cld_IpVersion : option string;
  cld_Certificates : gmap string GenericCertificate;
  cld_RuleSets : option (gmap string RS);
  cld_AssignedPrivateIpv4 : option string;
  cld_AssignedIpv6 : option string;
}.
Arguments GenericCreateLoadBalancerDetails : clear implicits.

(** [RS] is the SDK's [loadbalancer.RuleSetDetails]. *)
Record GenericLoadBalancer {RS : Type} := {
  lb_Id : option string;
  lb_CompartmentId : option string;
  lb_DisplayName : option string;
  lb_LifecycleState : option string;
  lb_ShapeName : option string;
  lb_IpAddresses : list GenericIpAddress;
  lb_ShapeDetails : option GenericShapeDetails;
  lb_IsPrivate : option bool;
  lb_SubnetIds : list string;
  lb_NetworkSecurityGroupIds : option (list string);  (** nil or a slice *)
  lb_Listeners : gmap string GenericListener;
  lb_Certificates : gmap string GenericCertificate;
  lb_BackendSets : gmap string GenericBackendSetDetails;
  lb_RuleSets : gmap string RS;
  lb_IpVersion : option string;
  lb_FreeformTags : gmap string string;
  lb_DefinedTags : gmap string (gmap string string);
  lb_SystemTags : option (gmap string (gmap string string));
}.
Arguments GenericLoadBalancer : clear implicits.

(** ** Kubernetes objects *)

Record ServicePort := {
  port_Protocol : string;
  port_Port : Z;       (** int32 *)
  port_NodePort : Z;   (** int32 *)
}.

Record Service := {
  svc_Namespace : string;
  svc_Name : string;
  svc_UID : string;
  svc_Annotations : gmap string string;
  svc_DeletionTimestamp : option Z;
  svc_Type : string;
  svc_Ports : list ServicePort;
  svc_SessionAffinity : string;
  svc_ExternalTrafficPolicy : string;
  svc_HealthCheckNodePort : Z;   (** int32 *)
  svc_LoadBalancerIP : string;
  svc_IPFamilies : list string;
  svc_IPFamilyPolicy : option string;
}.

Record NodeAddress := {
  addr_Type : string;
  addr_Address : string;
}.

Record NodeCondition := {
  cond_Type : string;
  cond_Status : string;
}.

Record Node := {
  node_Name : string;
  node_Labels : gmap string string;
  node_Annotations : gmap string string;
  node_ProviderID : string;
  node_Addresses : list NodeAddress;
  node_Conditions : list NodeCondition;
}.

(** [client.IpAddresses]. *)
Record IpAddresses := {
  V4 : string;
  V6 : string;
}.

Definition ServiceTypeLoadBalancer : string := "LoadBalancer".
Definition ServiceExternalTrafficPolicyCluster : string := "Cluster".
Definition ServiceExternalTrafficPolicyLocal : string := "Local".
Definition IPFamilyPolicySingleStack : string := "SingleStack".
Definition IPFamilyPolicyPreferDualStack : string := "PreferDualStack".
Definition IPFamilyPolicyRequireDualStack : string := "RequireDualStack".

(** ** OCI networking objects *)

Record PortRange := {
  pr_Min : Z;
  pr_Max : Z;
}.

(** [core.TcpOptions] and [core.UdpOptions] have the same fields. *)
Record TcpOptions := {
  tcp_DestinationPortRange : option PortRange;
  tcp_SourcePortRange : option PortRange;
}.

Record IcmpOptions := {
  icmp_Type : Z;
  icmp_Code : option Z;
}.

Record IngressSecurityRule := {
  ir_Protocol : string;
  ir_Source : string;
  ir_SourceType : string;
  ir_IcmpOptions : option IcmpOptions;
  ir_IsStateless : option bool;
  ir_TcpOptions : option TcpOptions;
  ir_UdpOptions : option TcpOptions;
  ir_Description : option string;
}.

Record EgressSecurityRule := {
  er_Destination : string;
  er_Protocol : string;
  er_DestinationType : string;
  er_IcmpOptions : option IcmpOptions;
  er_IsStateless : option bool;
  er_TcpOptions : option TcpOptions;
  er_UdpOptions : option TcpOptions;
  er_Description : option string;
}.

Record SecurityList := {
  sl_Id : string;
  sl_IngressSecurityRules : list IngressSecurityRule;
  sl_EgressSecurityRules : list EgressSecurityRule;
  sl_TimeCreated : Z;
}.

Record Subnet := {
  subnet_Id : string;
  subnet_CidrBlock : option string;
  subnet_Ipv6CidrBlock : option string;
  subnet_Ipv6CidrBlocks : option (list string);
  subnet_SecurityListIds : list string;
}.

(** [core.SecurityRule], a rule of a network security group. *)
Record SecurityRule := {
  nr_Direction : string;
  nr_Protocol : option string;
  nr_Description : option string;
  nr_Destination : option string;
  nr_DestinationType : string;
  nr_IcmpOptions : option IcmpOptions;
  nr_Id : option string;
  nr_IsStateless : option bool;
  nr_IsValid : option bool;
  nr_Source : option string;
  nr_SourceType : string;
  nr_TcpOptions : option TcpOptions;
  nr_UdpOptions : option TcpOptions;
}.

(** ** Records of the controller *)

(** load_balancer_security_lists.go, [portSpec]. *)
Record portSpec := {
  ListenerPort : Z;
  BackendPort : Z;
  HealthCheckerPort : Z;
}.

(** load_balancer_network_security_group.go, [securityRuleComponents]. *)
Record securityRuleComponents := {
  sc_frontendNsgOcid : string;
  sc_backendNsgOcids : list string;
  sc_ports : gmap string portSpec;
  sc_sourceCIDRs : list string;
  sc_isPreserveSource : bool;
  sc_serviceUid : string;
  sc_lbSubnets : list Subnet;
  sc_backendSubnets : list Subnet;
  sc_actualPorts : option portSpec;
  sc_desiredPorts : portSpec;
  sc_ipFamilies : list string;
}.

(** load_balancer_util.go, [ActionType]; [OtherAction] is any other string. *)
Inductive ActionType :=
| Create
| Update
| Delete
| OtherAction (s : string).

(** ** Constants *)

Definition LB : string := "lb".
Definition NLB : string := "nlb".
Definition NSG : string := "NSG".
Definition IPv4 : string := GenericIPv4.
Definition IPv6 : string := GenericIPv6.
Definition IPv4AndIPv6 : string := "IPv4_AND_IPv6".
Definition ProtocolTCP : Z := 6.
Definition ManagementModeAll : string := "All".
Definition ManagementModeFrontend : string := "Frontend".
Definition ManagementModeNone : string := "None".
Definition RuleManagementModeNsg : string := "NSG".
Definition RuleManagementModeSlAll : string := "SL-All".
Definition RuleManagementModeSlFrontend : string := "SL-Frontend".
Definition lbNodesHealthCheckPort : Z := 10256.

(** The zero [portSpec]. *)
Definition portSpec_zero : portSpec :=
  {| ListenerPort := 0; BackendPort := 0; HealthCheckerPort := 0 |}.

(** load_balancer_util.go, [toBool], [toString], [toInt] and [toInt64]. *)
Definition toBool (b : option bool) : bool := default false b.
Definition toString (s : option string) : string := default "" s.
Definition toInt (i : option Z) : Z := default 0%Z i.
Definition toInt64 (i : option Z) : Z := default 0%Z i.

(** load_balancer_util.go, [contains]. *)
Fixpoint contains (s : list string) (e : string) : bool :=
  match s with
  | [] => false
  | a :: s' => if decide (a = e) then true else contains s' e
  end.

(** ** Decidable equality: [reflect.DeepEqual] on these types *)

Global Instance GenericSessionPersistenceConfiguration_eq_dec :
  EqDecision GenericSessionPersistenceConfiguration.
Proof. solve_decision. Defined.
Global Instance GenericHealthChecker_eq_dec : EqDecision GenericHealthChecker.
Proof. solve_decision. Defined.
Global Instance GenericBackend_eq_dec : EqDecision GenericBackend.
Proof. solve_decision. Defined.
Global Instance GenericSslConfigurationDetails_eq_dec : EqDecision GenericSslConfigurationDetails.
Proof. solve_decision. Defined.
Global Instance GenericBackendSetDetails_eq_dec : EqDecision GenericBackendSetDetails.
Proof. solve_decision. Defined.
Global Instance GenericConnectionConfiguration_eq_dec : EqDecision GenericConnectionConfiguration.
Proof. solve_decision. Defined.
Global Instance GenericListener_eq_dec : EqDecision GenericListener.
Proof. solve_decision. Defined.
Global Instance PortRange_eq_dec : EqDecision PortRange.
Proof. solve_decision. Defined.
Global Instance TcpOptions_eq_dec : EqDecision TcpOptions.
Proof. solve_decision. Defined.
Global Instance IcmpOptions_eq_dec : EqDecision IcmpOptions.
Proof. solve_decision. Defined.
Global Instance IngressSecurityRule_eq_dec : EqDecision IngressSecurityRule.
Proof. solve_decision. Defined.
Global Instance EgressSecurityRule_eq_dec : EqDecision EgressSecurityRule.
Proof. solve_decision. Defined.
Global Instance SecurityRule_eq_dec : EqDecision SecurityRule.
Proof. solve_decision. Defined.
Global Instance portSpec_eq_dec : EqDecision portSpec.
Proof. solve_decision. Defined.
Global Instance ActionType_eq_dec : EqDecision ActionType.
Proof. solve_decision. Defined.
Global Instance IpAddresses_eq_dec : EqDecision IpAddresses.
Proof. solve_decision. Defined.
Global Instance ServicePort_eq_dec : EqDecision ServicePort.
Proof. solve_decision. Defined.

(** ** Lemmas *)

Lemma contains_spec s e : contains s e = true ↔ e ∈ s.
Proof.
  induction s as [|a s IH]; simpl; [set_solver|]. case_decide; set_solver.
Qed.

Lemma contains_false s e : contains s e = false ↔ e ∉ s.
Proof. rewrite <-not_true_iff_false, contains_spec. done. Qed.
