(* ===== verification/ClientErrors.v ===== *)
(** * Errors of the OCI clients

    The classification of errors in src/pkg/oci/client/errors.go, on which the
    handlers decide whether a resource is missing and whether a request is worth
    repeating, and the error types of src/pkg/util/commons.go. *)
From stdpp Require Import base tactics list gmap sets strings.
From Stdlib Require Import Ascii.
From S2P Require Import Prelude GoStrings.

Definition HTTP400RelatedResourceNotAuthorizedOrNotFoundCode : string := "RelatedResourceNotAuthorizedOrNotFound".
Definition HTTP401NotAuthenticatedCode : string := "NotAuthenticated".
Definition HTTP404NotAuthorizedOrNotFoundCode : string := "NotAuthorizedOrNotFound".
Definition HTTP409IncorrectStateCode : string := "IncorrectState".
Definition HTTP409NotAuthorizedOrResourceAlreadyExistsCode : string := "NotAuthorizedOrResourceAlreadyExists".
Definition HTTP429TooManyRequestsCode : string := "TooManyRequests".
Definition HTTP500InternalServerErrorCode : string := "InternalServerError".

Global Instance error_eq_dec : EqDecision error.
Proof. solve_decision. Defined.

(** A nil error is [None]. *)
Definition IsNotFound (err : option error) : bool :=
  match error_cause <$> err with
  | Some NotFoundErr => true
  | Some (ServiceError status _ _) => bool_decide (status = 404%Z)
  | _ => false
  end.

Definition isRetryableServiceError (status : Z) (code : string) : bool :=
  bool_decide ((status = 400%Z ∧ code = HTTP400RelatedResourceNotAuthorizedOrNotFoundCode) ∨
               (status = 401%Z ∧ code = HTTP401NotAuthenticatedCode) ∨
               (status = 404%Z ∧ code = HTTP404NotAuthorizedOrNotFoundCode) ∨
               (status = 409%Z ∧ code = HTTP409IncorrectStateCode) ∨
               (status = 409%Z ∧ code = HTTP409NotAuthorizedOrResourceAlreadyExistsCode) ∨
               (status = 429%Z ∧ code = HTTP429TooManyRequestsCode) ∨
               (status = 500%Z ∧ code = HTTP500InternalServerErrorCode)).

(** [errors.Is] and [errors.Cause] both reach the error below the wraps. *)
Definition IsRetryable (err : option error) : bool :=
  match error_cause <$> err with
  | Some DeadlineExceeded => true
  | Some (ServiceError status code _) => isRetryableServiceError status code
  | _ => false
  end.

Definition RateLimitError (isWrite : bool) (opName : string) : error :=
  Errorf "rate limited(%s) for operation: %s" [if isWrite then "write" else "read"; opName].

(** The rest of [s] after the first occurrence of [sub]. *)
Fixpoint after (s sub : string) : option string :=
  match strip_prefix sub s with
  | Some rest => Some rest
  | None => match s with EmptyString => None | String _ s' => after s' sub end
  end.

(** [regexSystemTagNotFoundNotAuthorised]: within one line, as a dot does not
    match a newline. *)
Definition system_tag_message (message : string) : bool :=
  existsb (λ line, match after line "tag namespace" with
                   | Some rest => Contains rest "orcl-containerengine"
                   | None => false
                   end) (split_on "010" message).

Definition IsSystemTagNotFoundOrNotAuthorisedError (err : option error) : bool :=
  match error_cause <$> err with
  | Some (ServiceError status code message) =>
      if decide (status = 400%Z ∧ code = HTTP400RelatedResourceNotAuthorizedOrNotFoundCode)
      then system_tag_message message else false
  | _ => false
  end.

(** ** src/pkg/util/commons.go *)

Definition Err429 : string := "429".
Definition Err4XX : string := "4XX".
Definition Err5XX : string := "5XX".
Definition ErrValidation : string := "VALIDATION_ERROR".
Definition ErrLimitExceeded : string := "LIMIT_EXCEEDED".
Definition ErrCtxTimeout : string := "CTX_TIMEOUT".
Definition Success : string := "SUCCESS".

Definition is_blank (c : ascii) : bool :=
  bool_decide (c ∈ [" "; "009"; "010"; "012"; "013"]%char).

Fixpoint drop_blanks (s : string) : string :=
  match s with
  | String c s' => if is_blank c then drop_blanks s' else s
  | EmptyString => ""
  end.

Fixpoint take_digits (s : string) : string :=
  match s with
  | String c s' => if decide (is_Some (digit c)) then String c (take_digits s') else ""
  | EmptyString => ""
  end.

(** The group of the leftmost match of [(?i)http status code:\s*(\d+)], in a text
    whose case is folded. *)
Fixpoint status_match (s : string) : option string :=
  let next := match s with EmptyString => None | String _ s' => status_match s' end in
  match strip_prefix "http status code:" s with
  | Some rest =>
      let status := take_digits (drop_blanks rest) in
      if decide (status = "") then next else Some status
  | None => next
  end.

(** [Error] is the text of an error, for the errors of services as the SDK
    renders it. *)
Definition GetError (Error : error → string) (err : option error) : string :=
  match error_cause <$> err with
  | None => ""
  | Some err =>
      let cause := Error err in
      if decide (cause = "") then ""
      else if decide (err = WaitTimeout) then ErrCtxTimeout
      else match status_match (fold_case cause) ≫= Atoi with
           | Some status =>
               if decide (500 ≤ status)%Z then Err5XX
               else if decide (400 ≤ status)%Z then
                 if Contains cause "LimitExceeded" then ErrLimitExceeded
                 else if decide (status = 429%Z) then Err429 else Err4XX
               else ErrValidation
           | None => ErrValidation
           end
  end.

Definition GetMetricDimensionForComponent (err component : string) : string :=
  if decide (err = "" ∨ component = "") then "" else component +:+ "_" +:+ err.

Definition GetHttpStatusCode (err : option error) : Z :=
  match error_cause <$> err with
  | None => 200
  | Some (ServiceError status _ _) => status
  | Some _ => 555
  end.

(** ** Lemmas *)

Lemma error_cause_idem e : error_cause (error_cause e) = error_cause e.
Proof. by induction e. Qed.

(** Wrapping an error does not change how it is classified. *)
Lemma IsNotFound_Wrap e f args : IsNotFound (Some (Wrap e f args)) = IsNotFound (Some e).
Proof. done. Qed.

Lemma after_Some s sub rest : after s sub = Some rest → ∃ pre, s = pre +:+ sub +:+ rest.
Proof.
  revert rest. induction s as [|c s IH]; intros rest; simpl.
  - destruct (strip_prefix sub "") as [r|] eqn:E; [|done].
    intros [= <-]. exists "". by apply strip_prefix_Some in E.
  - destruct (strip_prefix sub (String c s)) as [r|] eqn:E.
    + intros [= <-]. exists "". by apply strip_prefix_Some in E.
    + intros (pre & ->)%IH. by exists (String c pre).
Qed.
