(* ===== verification/Locks.v ===== *)
(** * Locks on services (util.go) and the handlers that take them

    [EnsureLoadBalancer], [UpdateLoadBalancer] and [EnsureLoadBalancerDeleted] run
    concurrently for many services.  Each begins with [TryAcquire] on its service
    and defers [Release]; the mutex of [loadBalancerLocks] makes both atomic.  The
    step relation [lock_step] interleaves any number of handlers. *)
From stdpp Require Import base tactics list gmap sets strings relations.
From Stdlib Require Import Ascii.
From S2P Require Import Prelude GoStrings Types.

(** The names that are locked. *)
Definition loadBalancerLocks : Type := gset string.

Definition NewLoadBalancerLocks : loadBalancerLocks := ∅.

Definition TryAcquire (locks : loadBalancerLocks) (lbname : string) : bool * loadBalancerLocks :=
  if decide (lbname ∈ locks) then (false, locks) else (true, {[lbname]} ∪ locks).

Definition Release (locks : loadBalancerLocks) (lbname : string) : loadBalancerLocks :=
  locks ∖ {[lbname]}.

(** [fmt.Sprintf("%s/%s", service.Namespace, service.Name)]. *)
Definition lock_name (svc : Service) : string := svc_Namespace svc +:+ "/" +:+ svc_Name svc.

Definition LbOperationAlreadyExists : error :=
  Errorf "An operation for the service is already in progress." [].

(** A handler that has been called: it works on the load balancer, it was refused
    with [LbOperationAlreadyExists], or it has returned. *)
Inductive phase := Working | Refused | Returned.

Record lock_state := {
  held : loadBalancerLocks;
  handlers : gmap nat (Service * phase);
}.

Definition lock_init : lock_state := {| held := NewLoadBalancerLocks; handlers := ∅ |}.

(** A call tries to take the lock; a working handler that returns, with or without
    an error, releases it. *)
Inductive lock_step : lock_state → lock_state → Prop :=
| step_call st h svc ok locks :
    handlers st !! h = None → TryAcquire (held st) (lock_name svc) = (ok, locks) →
    lock_step st {| held := locks;
                    handlers := <[h := (svc, if ok then Working else Refused)]> (handlers st) |}
| step_return st h svc :
    handlers st !! h = Some (svc, Working) →
    lock_step st {| held := Release (held st) (lock_name svc);
                    handlers := <[h := (svc, Returned)]> (handlers st) |}.

Definition working (st : lock_state) (h : nat) (name : string) : Prop :=
  ∃ svc, handlers st !! h = Some (svc, Working) ∧ lock_name svc = name.

(** A name is held exactly by one working handler. *)
Definition locks_inv (st : lock_state) : Prop :=
  (∀ name, name ∈ held st ↔ ∃ h, working st h name) ∧
  (∀ h1 h2 name, working st h1 name → working st h2 name → h1 = h2).

Lemma working_insert st locks h svc p h' name :
  working {| held := locks; handlers := <[h := (svc, p)]> (handlers st) |} h' name ↔
  (h' = h ∧ p = Working ∧ lock_name svc = name) ∨ (h' ≠ h ∧ working st h' name).
Proof.
  unfold working. simpl. destruct (decide (h' = h)) as [->|Hne].
  - rewrite lookup_insert_eq. split; [|naive_solver]. intros (svc' & [= <- <-] & ?). by left.
  - rewrite lookup_insert_ne by done. naive_solver.
Qed.

Lemma lock_step_inv st st' : lock_step st st' → locks_inv st → locks_inv st'.
Proof.
  intros Hs [Hheld Hone]. destruct Hs as [st h svc ok locks Hh Ht|st h svc Hh].
  - assert (∀ name, ¬ working st h name) as Hnw by (intros name (? & ? & _); congruence).
    unfold TryAcquire in Ht. case_decide as Hin; injection Ht as <- <-; split; simpl.
    + intros name. rewrite Hheld. setoid_rewrite working_insert.
      split; [intros [h' Hw]; exists h'; right; split; [by intros ->; apply Hnw in Hw|done]|].
      intros (h' & [(_ & ? & _)|[_ ?]]); [done|by eauto].
    + intros h1 h2 name. rewrite !working_insert. naive_solver.
    + intros name. rewrite elem_of_union, elem_of_singleton, Hheld. setoid_rewrite working_insert. split.
      * intros [->|[h' Hw]]; [by eauto|]. exists h'. right. split; [by intros ->; apply Hnw in Hw|done].
      * intros (h' & [(_ & _ & <-)|[_ ?]]); [by left|by eauto].
    + assert (∀ h', ¬ working st h' (lock_name svc)) as Hfree by (intros h' Hw; apply Hin, Hheld; eauto).
      intros h1 h2 name. rewrite !working_insert.
      intros [(-> & _ & <-)|[? H1]] [(-> & _ & Hn)|[? H2]]; [done|by apply Hfree in H2| |by eauto].
      subst name. by apply Hfree in H1.
  - assert (working st h (lock_name svc)) as Hw by by exists svc.
    split; simpl.
    + intros name. unfold Release. rewrite elem_of_difference, elem_of_singleton, Hheld.
      setoid_rewrite working_insert. split.
      * intros [[h' Hw'] Hne]. exists h'. right. split; [|done]. intros ->.
        destruct Hw' as (s2 & E2 & <-). congruence.
      * intros (h' & [(_ & ? & _)|[Hne Hw']]); [done|]. split; [by eauto|]. intros ->.
        by apply Hne, (Hone _ _ (lock_name svc)).
    + intros h1 h2 name. rewrite !working_insert. naive_solver.
Qed.

Lemma locks_inv_reachable st : rtc lock_step lock_init st → locks_inv st.
Proof.
  intros Hr. assert (locks_inv lock_init) as HI.
  { split; simpl; [|by intros h1 h2 name (? & ? & _)]. intros name. split; [set_solver|].
    by intros (h & ? & ? & _). }
  revert HI. induction Hr as [|st1 st2 st3 Hs _ IH]; [done|]. intros HI. by eapply IH, lock_step_inv.
Qed.

(** Services of different namespaces or names have different locks. *)
Lemma lock_name_inj svc1 svc2 :
  has_byte "/"%char (svc_Name svc1) = false → has_byte "/"%char (svc_Name svc2) = false →
  lock_name svc1 = lock_name svc2 →
  svc_Namespace svc1 = svc_Namespace svc2 ∧ svc_Name svc1 = svc_Name svc2.
Proof. intros H1 H2 E. unfold lock_name in E. by apply app_last_byte_inj in E. Qed.

(** C12: in every interleaving, at most one handler works on a
    service at a time; a call is refused exactly when another handler works on the
    service (names have no slash); and when no handler works, no lock is held. *)
Theorem locks_mutual_exclusion st :
  rtc lock_step lock_init st →
  (∀ h1 h2 svc1 svc2, handlers st !! h1 = Some (svc1, Working) → handlers st !! h2 = Some (svc2, Working) →
     svc_Namespace svc1 = svc_Namespace svc2 → svc_Name svc1 = svc_Name svc2 → h1 = h2) ∧
  (∀ svc, has_byte "/"%char (svc_Name svc) = false →
     (∀ h svc' p, handlers st !! h = Some (svc', p) → has_byte "/"%char (svc_Name svc') = false) →
     (TryAcquire (held st) (lock_name svc)).1 = false ↔
     ∃ h svc', handlers st !! h = Some (svc', Working) ∧
       svc_Namespace svc' = svc_Namespace svc ∧ svc_Name svc' = svc_Name svc) ∧
  ((∀ h svc, handlers st !! h ≠ Some (svc, Working)) → held st = NewLoadBalancerLocks).
Proof.
  intros [Hheld Hone]%locks_inv_reachable. split_and!.
  - intros h1 h2 svc1 svc2 H1 H2 En Em. apply (Hone _ _ (lock_name svc1)); [by exists svc1|].
    exists svc2. split; [done|]. unfold lock_name. by rewrite En, Em.
  - intros svc Hs Hall. unfold TryAcquire. case_decide as Hin; simpl; (split; [try done; intros _|try done]).
    + apply Hheld in Hin as (h & svc' & Hw & En). exists h, svc'. split; [done|].
      apply lock_name_inj; [by eapply Hall|done..].
    + intros (h & svc' & Hw & En & Em). exfalso. apply Hin, Hheld. exists h, svc'. split; [done|].
      unfold lock_name. by rewrite En, Em.
  - intros Hno. apply set_eq. intros name. rewrite Hheld. split; [|set_solver].
    intros (h & svc & Hw & _). by destruct (Hno h svc).
Qed.

(** ** The property at a concrete input *)

Definition lock_svc (name : string) : Service := {|
  svc_Namespace := "default"; svc_Name := name; svc_UID := ""; svc_Annotations := ∅;
  svc_DeletionTimestamp := None; svc_Type := ServiceTypeLoadBalancer; svc_Ports := [];
  svc_SessionAffinity := ""; svc_ExternalTrafficPolicy := ""; svc_HealthCheckNodePort := 0;
  svc_LoadBalancerIP := ""; svc_IPFamilies := []; svc_IPFamilyPolicy := None |}.

(** Two calls for a service and one for another: the second is refused. *)
Definition example_handlers : lock_state := {|
  held := {["default/b"]} ∪ ({["default/a"]} ∪ ∅);
  handlers := <[3 := (lock_svc "b", Working)]> (<[2 := (lock_svc "a", Refused)]> {[1 := (lock_svc "a", Working)]}) |}.

Lemma locks_mutual_exclusion_witness :
  rtc lock_step lock_init example_handlers ∧
  ((TryAcquire (held example_handlers) "default/a").1 = false ↔
   ∃ h svc', handlers example_handlers !! h = Some (svc', Working) ∧
     svc_Namespace svc' = "default" ∧ svc_Name svc' = "a").
Proof.
  assert (rtc lock_step lock_init example_handlers) as Hr.
  { eapply rtc_l; [apply (step_call _ 1 (lock_svc "a")); [done|by vm_compute]|].
    eapply rtc_l; [apply (step_call _ 2 (lock_svc "a")); [by vm_compute|by vm_compute]|].
    eapply rtc_l; [apply (step_call _ 3 (lock_svc "b")); [by vm_compute|by vm_compute]|].
    by vm_compute. }
  split; [exact Hr|].
  refine (proj1 (proj2 (locks_mutual_exclusion example_handlers Hr)) (lock_svc "a") eq_refl _).
  intros h svc p. simpl. rewrite !lookup_insert_Some, lookup_singleton_Some.
  by intros [[_ [= <- _]]|[_ [[_ [= <- _]]|[_ [_ [= <- _]]]]]].
Defined.
