(* ===== verification/RuleScan.v ===== *)
(** * The rule reconciliation loop

    The loops of load_balancer_security_lists.go walk over the existing rules
    with a set of wanted targets: a rule that serves a wanted target is kept and
    the target is struck off, other rules of the port are kept only while the
    port is in use, and what is left wanted at the end gets new rules.  [scan]
    is the loop driver used by the translations; [claim_body] is the abstract
    loop body they all implement, over any type [K] of targets, and the lemmas
    below are what the loop promises. *)
From stdpp Require Import base tactics list gmap sets.
From S2P Require Import Prelude.

(** [for _, rule := range rules { ... }] with [append] to keep a rule. *)
Fixpoint scan {R S} (body : S → R → bool * S) (s : S) (rules : list R) : list R * S :=
  match rules with
  | [] => ([], s)
  | rule :: rules' =>
      let '(keep, s1) := body s rule in
      let '(kept, s2) := scan body s1 rules' in
      (if keep then rule :: kept else kept, s2)
  end.

Section claim.
Context {R K : Type} `{Countable K}.

(** [old r]: the rule belongs to a port given up; [targets r]: the targets the
    rule can serve, none if it is not a rule of the service's ports; [inuse r]:
    whether a rule that serves no wanted target stays. *)
Context (old : R → bool) (targets : R → list K) (inuse : R → bool).

Definition claim_body (D : gset K) (r : R) : bool * gset K :=
  if old r then (false, D)
  else match targets r with
       | [] => (true, D)
       | ks => match filter (λ k, k ∈ D) ks with
               | k :: _ => (true, D ∖ {[k]})
               | [] => (inuse r, D)
               end
       end.

Definition foreign (r : R) : Prop := old r = false ∧ targets r = [].
Global Instance foreign_dec r : Decision (foreign r).
Proof. apply _. Defined.

(** ** What the loop promises *)

Lemma scan_app {S} (body : S → R → bool * S) s l1 l2 :
  scan body s (l1 ++ l2) =
    let '(k1, s1) := scan body s l1 in
    let '(k2, s2) := scan body s1 l2 in (k1 ++ k2, s2).
Proof.
  revert s. induction l1 as [|r l1 IH]; intros s; simpl; [by destruct (scan body s l2)|].
  destruct (body s r) as [b s1]. rewrite IH.
  destruct (scan body s1 l1) as [k1 s2], (scan body s2 l2), b; done.
Qed.

Lemma scan_sublist {S} (body : S → R → bool * S) s l : (scan body s l).1 `sublist_of` l.
Proof.
  revert s. induction l as [|r l IH]; intros s; simpl; [constructor|].
  destruct (body s r) as [b s1]. specialize (IH s1).
  destruct (scan body s1 l) as [k s2], b; simpl in *; by constructor.
Qed.

(** One turn of the loop, by cases. *)
Inductive claim_step (D : gset K) (r : R) : bool → gset K → Prop :=
| claim_old : old r = true → claim_step D r false D
| claim_foreign : foreign r → claim_step D r true D
| claim_serves k : old r = false → k ∈ targets r → k ∈ D →
    claim_step D r true (D ∖ {[k]})
| claim_unwanted : old r = false → targets r ≠ [] → (∀ k, k ∈ targets r → k ∉ D) →
    claim_step D r (inuse r) D.

Lemma claim_body_step D r b D' : claim_body D r = (b, D') → claim_step D r b D'.
Proof.
  unfold claim_body. destruct (old r) eqn:Ho; [intros [= <- <-]; by constructor|].
  destruct (targets r) as [|k0 ks] eqn:Ht; [intros [= <- <-]; by constructor|].
  destruct (filter _ _) as [|k fs] eqn:Hf.
  - intros [= <- <-]. apply claim_unwanted; [done|by rewrite Ht|].
    intros k Hk HkD. rewrite Ht in Hk.
    assert (k ∈ filter (λ k, k ∈ D) (k0 :: ks)) as Hin by by apply list_elem_of_filter.
    rewrite Hf in Hin. set_solver.
  - intros [= <- <-].
    assert (k ∈ filter (λ k, k ∈ D) (k0 :: ks)) as [??]%list_elem_of_filter
      by (rewrite Hf; by left).
    apply claim_serves; [done| |done]. by rewrite Ht.
Qed.

Lemma scan_cons_inv {S} (body : S → R → bool * S) s r l kept s' :
  scan body s (r :: l) = (kept, s') →
  ∃ b s1 k1, body s r = (b, s1) ∧ scan body s1 l = (k1, s') ∧
    kept = if b then r :: k1 else k1.
Proof.
  simpl. destruct (body s r) as [b s1], (scan body s1 l) as [k1 s2] eqn:E.
  intros [= <- <-]. eauto 10.
Qed.

(** Induction over a run of the loop. *)
Ltac scan_induction l :=
  let r := fresh "r" in let IH := fresh "IH" in
  induction l as [|r l IH]; intros D kept D' Hs;
  [injection Hs as <- <-|
   apply scan_cons_inv in Hs as (b & D1 & k1 & Hb%claim_body_step & Hs & ->);
   specialize (IH _ _ _ Hs)].

(** Targets are only ever struck off, and only by a rule that is kept. *)
Lemma claim_covers D l kept D' :
  scan claim_body D l = (kept, D') →
  D' ⊆ D ∧ ∀ k, k ∈ D → k ∈ D' ∨ ∃ r, r ∈ kept ∧ k ∈ targets r.
Proof.
  revert D kept D'. scan_induction l; [set_solver|].
  destruct IH as [Hsub Hcov]. split; [destruct Hb; set_solver|].
  intros k Hk. destruct (decide (k ∈ D1)) as [Hk1|Hk1].
  - destruct (Hcov k Hk1) as [?|(r' & ? & ?)]; [by left|]. right. exists r'.
    destruct b; set_solver.
  - right. exists r. destruct Hb; try done.
    destruct (decide (k = k0)) as [->|Hne]; [split; [by left|done]|].
    destruct Hk1. apply elem_of_difference. by rewrite elem_of_singleton.
Qed.

(** Rules of other ports are kept, in their order. *)
Lemma claim_foreign_kept D l kept D' :
  scan claim_body D l = (kept, D') → filter foreign kept = filter foreign l.
Proof.
  revert D kept D'. scan_induction l; [done|].
  rewrite (filter_cons _ r l). destruct Hb as [Ho|Hf|k Ho Hk ?|Ho Hk ?].
  - rewrite decide_False; [done|]. intros [? ?]. congruence.
  - rewrite decide_True by done. rewrite filter_cons_True by done. by f_equal.
  - rewrite decide_False; [|intros [? E]; rewrite E in Hk; set_solver].
    rewrite filter_cons_False; [done|]. intros [? E]; rewrite E in Hk; set_solver.
  - rewrite decide_False by (by intros [??]).
    destruct (inuse r); [|done]. rewrite filter_cons_False; [done|]. by intros [??].
Qed.

(** Rules of a port given up are gone. *)
Lemma claim_old_gone D l kept D' :
  scan claim_body D l = (kept, D') → Forall (λ r, old r = false) kept.
Proof.
  revert D kept D'. scan_induction l; [done|].
  destruct Hb as [Ho|[Ho ?]|k Ho ? ?|Ho ? ?]; try destruct (inuse r); by try constructor.
Qed.

(** A rule of the port that stays serves a wanted target or is in use. *)
Lemma claim_no_excess D l kept D' :
  scan claim_body D l = (kept, D') →
  ∀ r, r ∈ kept → foreign r ∨ (∃ k, k ∈ targets r ∧ k ∈ D) ∨ inuse r = true.
Proof.
  revert D kept D'. scan_induction l; [set_solver|]. intros r' Hr'.
  destruct Hb as [Ho|Hf|k Ho Hk ?|Ho ? ?].
  - by apply IH.
  - apply elem_of_cons in Hr' as [->|?]; [by left|by apply IH].
  - apply elem_of_cons in Hr' as [->|Hr']; [by eauto|].
    destruct (IH r' Hr') as [?|[(k' & ? & ?)|?]]; [by auto| |by auto].
    right; left. exists k'. set_solver.
  - destruct (inuse r) eqn:Hu; [|by apply IH].
    apply elem_of_cons in Hr' as [->|?]; [by auto|by apply IH].
Qed.

(** A rule of the port in use is never removed. *)
Lemma claim_inuse_kept D l kept D' :
  scan claim_body D l = (kept, D') →
  ∀ r, r ∈ l → old r = false → inuse r = true → r ∈ kept.
Proof.
  revert D kept D'. scan_induction l; [set_solver|]. intros r' Hr' Ho' Hu'.
  apply elem_of_cons in Hr' as [->|Hr'].
  - destruct Hb; [congruence|by left|by left|]. rewrite Hu'. by left.
  - specialize (IH r' Hr' Ho' Hu'). destruct b; [by right|done].
Qed.

(** Without use by others, the rules of the port that stay and the targets
    left over split the wanted targets among them: each target once. *)
Lemma claim_exact D l kept D' :
  scan claim_body D l = (kept, D') →
  Forall (λ r, inuse r = false ∧ length (targets r) ≤ 1) l →
  (kept ≫= targets) ++ elements D' ≡ₚ elements D.
Proof.
  intros Hs Hl. revert D kept D' Hs. induction Hl as [|r l [Hu Ht] Hl IH]; intros D kept D' Hs.
  { injection Hs as <- <-. done. }
  apply scan_cons_inv in Hs as (b & D1 & k1 & Hb%claim_body_step & Hs & ->).
  specialize (IH _ _ _ Hs). destruct Hb as [Ho|[Ho E]|k Ho Hk HkD|Ho ? ?].
  - done.
  - csimpl. by rewrite E.
  - assert (targets r = [k]) as E by (destruct (targets r) as [|? []]; simpl in *; set_solver by lia).
    csimpl. rewrite E. simpl. rewrite IH.
    rewrite <-elements_union_singleton by set_solver.
    by rewrite <-union_difference_singleton_L.
  - by rewrite Hu.
Qed.

(** Walking over the kept rules again changes nothing. *)
Lemma claim_again D l kept D' :
  scan claim_body D l = (kept, D') →
  scan claim_body D kept = (kept, D').
Proof.
  revert D kept D'. induction l as [|r l IH]; intros D kept D' Hs; [by injection Hs as <- <-|].
  apply scan_cons_inv in Hs as (b & D1 & k1 & Hb & Hs & ->). apply IH in Hs.
  destruct b.
  - simpl. by rewrite Hb, Hs.
  - apply claim_body_step in Hb. inversion Hb; by subst.
Qed.

(** New rules for distinct wanted targets strike them all off. *)
Lemma claim_new (mk : K → R) (ks : list K) (D : gset K) :
  (∀ k, old (mk k) = false) → (∀ k, targets (mk k) = [k]) →
  NoDup ks → (∀ k, k ∈ ks ↔ k ∈ D) →
  scan claim_body D (mk <$> ks) = (mk <$> ks, ∅).
Proof.
  intros Ho Ht. revert D. induction ks as [|k ks IH]; intros D Hnd Hin.
  { simpl. f_equal. apply set_eq. set_solver. }
  apply NoDup_cons in Hnd as [Hk Hnd]. csimpl. unfold claim_body at 1.
  rewrite Ho, Ht, filter_cons_True by set_solver.
  rewrite (IH (D ∖ {[k]})); [done|done|]. set_solver.
Qed.

End claim.

(** Two loop bodies related step by step give the same rules. *)
Lemma scan_simulation {R S1 S2} (Rel : S1 → S2 → Prop)
    (body1 : S1 → R → bool * S1) (body2 : S2 → R → bool * S2) l s1 s2 kept s1' :
  (∀ s1 s2 r b s1', r ∈ l → Rel s1 s2 → body1 s1 r = (b, s1') →
     ∃ s2', body2 s2 r = (b, s2') ∧ Rel s1' s2') →
  Rel s1 s2 → scan body1 s1 l = (kept, s1') →
  ∃ s2', scan body2 s2 l = (kept, s2') ∧ Rel s1' s2'.
Proof.
  revert s1 s2 kept. induction l as [|r l IH]; intros s1 s2 kept Hsim Hrel Hs.
  { injection Hs as <- <-. eauto. }
  apply scan_cons_inv in Hs as (b & t1 & k1 & Hb & Hs & ->).
  destruct (Hsim s1 s2 r b t1) as (t2 & Hb2 & Hrel2); [by left|done..|].
  destruct (IH t1 t2 k1) as (s2' & Hs2 & Hrel'); [|done..|].
  { intros; eapply Hsim; [by right|done..]. }
  exists s2'. simpl. by rewrite Hb2, Hs2.
Qed.
