(* ===== verification/SecurityLists.v ===== *)
(** * Security list rules (load_balancer_security_lists.go)

    The pure functions that compute the new ingress and egress rules of a
    security list.  The three loops share the driver [scan]: a loop body looks
    at a rule and the set of CIDRs still without a rule, and says whether the
    rule is kept and which CIDRs remain. *)
From stdpp Require Import base tactics list gmap sets strings sorting.
From S2P Require Import Prelude GoStrings GoSort Types RuleScan.

(** [serviceLister.List(labels.Everything())]: the services or an error. *)
Definition lister : Type := error + list Service.

(** ** Rules made by the controller *)

Definition makeEgressSecurityRule (cidrBlock : string) (port : Z) : EgressSecurityRule := {|
  er_Destination := cidrBlock;
  er_Protocol := Itoa ProtocolTCP;
  er_DestinationType := "";
  er_IcmpOptions := None;
  er_IsStateless := Some false;
  er_TcpOptions := Some {|
    tcp_DestinationPortRange := Some {| pr_Min := port; pr_Max := port |};
    tcp_SourcePortRange := None |};
  er_UdpOptions := None;
  er_Description := None;
|}.

Definition makeIngressSecurityRule (cidrBlock : string) (port : Z) : IngressSecurityRule := {|
  ir_Protocol := Itoa ProtocolTCP;
  ir_Source := cidrBlock;
  ir_SourceType := "";
  ir_IcmpOptions := None;
  ir_IsStateless := Some false;
  ir_TcpOptions := Some {|
    tcp_DestinationPortRange := Some {| pr_Min := port; pr_Max := port |};
    tcp_SourcePortRange := None |};
  ir_UdpOptions := None;
  ir_Description := None;
|}.

(** ** Ports in use by other services *)

(** The service is considered: not being deleted and of type LoadBalancer. *)
Definition live_lb_service (s : Service) : bool :=
  bool_decide (svc_DeletionTimestamp s = None) &&
  bool_decide (svc_Type s = ServiceTypeLoadBalancer).

Definition portInUse (serviceLister : lister) (port : Z) : error + bool :=
  match serviceLister with
  | inl err => inl err
  | inr serviceList =>
      inr (existsb (λ service, live_lb_service service &&
                     existsb (λ p, bool_decide (port_Port p = port)) (svc_Ports service))
             serviceList)
  end.

Definition healthCheckPortInUse (serviceLister : lister) (port : Z) : error + bool :=
  match serviceLister with
  | inl err => inl err
  | inr serviceList =>
      inr (existsb (λ service, live_lb_service service &&
             (if decide (svc_ExternalTrafficPolicy service = ServiceExternalTrafficPolicyCluster)
              then bool_decide (port = lbNodesHealthCheckPort)
              else if decide (svc_ExternalTrafficPolicy service = ServiceExternalTrafficPolicyLocal)
              then bool_decide (port = svc_HealthCheckNodePort service)
              else false))
             serviceList)
  end.

(** An error of the lister counts as "in use" in all three loops. *)
Definition keep_in_use (inUse : error + bool) : bool :=
  match inUse with inl _ => true | inr b => b end.

(** ** The CIDRs of a list of subnets *)

Definition subnet_cidrs (ipFamilies : list string) (subnet : Subnet) : gset string :=
  (if contains ipFamilies IPv4
   then from_option (λ c, {[c]}) ∅ (subnet_CidrBlock subnet) else ∅)
  ∪ (if contains ipFamilies IPv6
     then from_option list_to_set ∅ (subnet_Ipv6CidrBlocks subnet) else ∅).

Definition subnets_cidrs (ipFamilies : list string) (subnets : list Subnet) : gset string :=
  foldl (λ s subnet, s ∪ subnet_cidrs ipFamilies subnet) ∅ subnets.

(** ** Load balancer ingress *)

(** The rule is a TCP rule to exactly the port [port], from any source port. *)
Definition tcp_applies (tcp : option TcpOptions) (port : Z) : bool :=
  match tcp with
  | Some {| tcp_DestinationPortRange := Some r; tcp_SourcePortRange := None |} =>
      negb (negb (bool_decide (pr_Min r = port)) || negb (bool_decide (pr_Max r = port)))
  | _ => false
  end.

Definition lb_ingress_body (port : Z) (serviceLister : lister)
    (desired : gset string) (rule : IngressSecurityRule) : bool * gset string :=
  if negb (tcp_applies (ir_TcpOptions rule) port) then (true, desired)
  else if decide (ir_Source rule ∈ desired) then (true, desired ∖ {[ir_Source rule]})
  else (keep_in_use (portInUse serviceLister (int32 port)), desired).

Definition getLoadBalancerIngressRules (rules : list IngressSecurityRule)
    (sourceCIDRs : list string) (port : Z) (serviceLister : lister) : list IngressSecurityRule :=
  let '(ingressRules, desired) :=
    scan (lb_ingress_body port serviceLister) (list_to_set sourceCIDRs) rules in
  if decide (desired = ∅) then ingressRules
  else ingressRules ++ ((λ cidr, makeIngressSecurityRule cidr port) <$> sets_List desired).

(** ** Load balancer egress *)

(** A rule to exactly the old port, which is not the desired one any more. *)
Definition tcp_old_port (tcp : option TcpOptions) (actualPort desiredPort : Z) : bool :=
  match tcp with
  | Some {| tcp_DestinationPortRange := Some r |} =>
      bool_decide (pr_Min r = pr_Max r)
      && bool_decide (pr_Min r ≠ desiredPort) && bool_decide (pr_Max r ≠ desiredPort)
      && bool_decide (pr_Min r = actualPort) && bool_decide (pr_Max r = actualPort)
  | _ => false
  end.

Definition lb_egress_body (actualPort desiredPort : Z) (serviceLister : lister)
    (nodeCIDRs : gset string) (rule : EgressSecurityRule) : bool * gset string :=
  if tcp_old_port (er_TcpOptions rule) actualPort desiredPort then (false, nodeCIDRs)
  else if negb (tcp_applies (er_TcpOptions rule) desiredPort) then (true, nodeCIDRs)
  else if decide (er_Destination rule ∈ nodeCIDRs)
  then (true, nodeCIDRs ∖ {[er_Destination rule]})
  else (keep_in_use (healthCheckPortInUse serviceLister (int32 desiredPort)), nodeCIDRs).

Definition getLoadBalancerEgressRules (rules : list EgressSecurityRule)
    (nodeSubnets : list Subnet) (actualPort desiredPort : Z) (serviceLister : lister)
    (ipFamilies : list string) : list EgressSecurityRule :=
  let '(egressRules, nodeCIDRs) :=
    scan (lb_egress_body actualPort desiredPort serviceLister)
      (subnets_cidrs ipFamilies nodeSubnets) rules in
  if decide (nodeCIDRs = ∅) then egressRules
  else egressRules ++ ((λ cidr, makeEgressSecurityRule cidr desiredPort) <$> sets_List nodeCIDRs).

(** ** Node ingress *)

Definition portRangeMatchesSpec (r : PortRange) (ports : option portSpec) : bool :=
  match ports with
  | None => false
  | Some ports =>
      (bool_decide (pr_Min r = BackendPort ports) && bool_decide (pr_Max r = BackendPort ports))
      || (bool_decide (pr_Min r = HealthCheckerPort ports)
          && bool_decide (pr_Max r = HealthCheckerPort ports))
  end.

(** A single-port rule to one of the old ports and none of the desired ones. *)
Definition node_old_port (tcp : option TcpOptions)
    (currentBackEndPort currentHealthCheckPort : Z) (desiredPorts : portSpec) : bool :=
  match tcp with
  | Some {| tcp_DestinationPortRange := Some r |} =>
      bool_decide (pr_Min r = pr_Max r)
      && bool_decide (pr_Min r ≠ BackendPort desiredPorts)
      && bool_decide (pr_Max r ≠ BackendPort desiredPorts)
      && bool_decide (pr_Min r ≠ HealthCheckerPort desiredPorts)
      && bool_decide (pr_Max r ≠ HealthCheckerPort desiredPorts)
      && (bool_decide (pr_Min r = currentBackEndPort)
          || bool_decide (pr_Min r = currentHealthCheckPort))
  | _ => false
  end.

Definition node_ingress_body (actualPorts : option portSpec) (desiredPorts : portSpec)
    (serviceLister : lister) (desired : gset string * gset string)
    (rule : IngressSecurityRule) : bool * (gset string * gset string) :=
  let '(desiredBackend, desiredHealthChecker) := desired in
  let currentBackEndPort := from_option BackendPort 0%Z actualPorts in
  let currentHealthCheckPort := from_option HealthCheckerPort 0%Z actualPorts in
  if node_old_port (ir_TcpOptions rule) currentBackEndPort currentHealthCheckPort desiredPorts
  then (false, desired)
  else match ir_TcpOptions rule with
  | Some {| tcp_DestinationPortRange := Some r; tcp_SourcePortRange := None |} =>
      if negb (portRangeMatchesSpec r (Some desiredPorts) || portRangeMatchesSpec r actualPorts)
      then (true, desired)
      else if decide (pr_Max r = BackendPort desiredPorts ∧ ir_Source rule ∈ desiredBackend)
      then (true, (desiredBackend ∖ {[ir_Source rule]}, desiredHealthChecker))
      else if decide (pr_Max r = HealthCheckerPort desiredPorts
                      ∧ ir_Source rule ∈ desiredHealthChecker)
      then (true, (desiredBackend, desiredHealthChecker ∖ {[ir_Source rule]}))
      else if decide (pr_Max r = HealthCheckerPort desiredPorts)
      then (keep_in_use (healthCheckPortInUse serviceLister
                           (int32 (HealthCheckerPort desiredPorts))), desired)
      else (false, desired)
  | _ => (true, desired)
  end.

Definition getNodeIngressRules (rules : list IngressSecurityRule) (lbSubnets : list Subnet)
    (actualPorts : option portSpec) (desiredPorts : portSpec) (serviceLister : lister)
    (sourceCIDRs : list string) (isPreserveSource : bool) (ipFamilies : list string)
    : list IngressSecurityRule :=
  let desiredHealthChecker := subnets_cidrs ipFamilies lbSubnets in
  let desiredBackend := desiredHealthChecker
    ∪ (if isPreserveSource then list_to_set sourceCIDRs else ∅) in
  let '(ingressRules, (desiredBackend', desiredHealthChecker')) :=
    scan (node_ingress_body actualPorts desiredPorts serviceLister)
      (desiredBackend, desiredHealthChecker) rules in
  if decide (desiredBackend' = ∅ ∧ desiredHealthChecker' = ∅) then ingressRules
  else
    ingressRules
    ++ (if decide (BackendPort desiredPorts = 0%Z) then []
        else (λ cidr, makeIngressSecurityRule cidr (BackendPort desiredPorts))
               <$> sets_List desiredBackend')
    ++ (if decide (HealthCheckerPort desiredPorts = 0%Z) then []
        else (λ cidr, makeIngressSecurityRule cidr (HealthCheckerPort desiredPorts))
               <$> sets_List desiredHealthChecker').

(** ** Change detection *)

Definition securityListRulesChanged (securityList : SecurityList)
    (ingressRules : list IngressSecurityRule) (egressRules : list EgressSecurityRule) : bool :=
  if decide (length ingressRules ≠ length (sl_IngressSecurityRules securityList)
             ∨ length egressRules ≠ length (sl_EgressSecurityRules securityList))
  then true
  else if negb (forallb (λ rule, existsb (λ existingRule, bool_decide (existingRule = rule))
                                   (sl_IngressSecurityRules securityList)) ingressRules)
  then true
  else if negb (forallb (λ rule, existsb (λ existingRule, bool_decide (existingRule = rule))
                                   (sl_EgressSecurityRules securityList)) egressRules)
  then true
  else false.

(** ** Reading a rule list *)

(** The sources admitted on TCP port [port], one entry per rule. *)
Definition sources_on (port : Z) (rules : list IngressSecurityRule) : list string :=
  ir_Source <$> filter (λ r, tcp_applies (ir_TcpOptions r) port = true) rules.

(** The destinations allowed on TCP port [port], one entry per rule. *)
Definition destinations_on (port : Z) (rules : list EgressSecurityRule) : list string :=
  er_Destination <$> filter (λ r, tcp_applies (er_TcpOptions r) port = true) rules.

(** The targets a rule can serve, for the abstract loop. *)
Definition ingress_targets (port : Z) (r : IngressSecurityRule) : list string :=
  if tcp_applies (ir_TcpOptions r) port then [ir_Source r] else [].
Definition egress_targets (port : Z) (r : EgressSecurityRule) : list string :=
  if tcp_applies (er_TcpOptions r) port then [er_Destination r] else [].
Definition node_targets (ports : portSpec) (r : IngressSecurityRule) : list (bool * string) :=
  (if tcp_applies (ir_TcpOptions r) (BackendPort ports) then [(true, ir_Source r)] else [])
  ++ (if tcp_applies (ir_TcpOptions r) (HealthCheckerPort ports) then [(false, ir_Source r)] else []).

(** ** Lemmas *)

Lemma tcp_applies_spec tcp port :
  tcp_applies tcp port = true ↔
  ∃ t, tcp = Some t ∧ tcp_SourcePortRange t = None ∧
    tcp_DestinationPortRange t = Some {| pr_Min := port; pr_Max := port |}.
Proof.
  unfold tcp_applies. split.
  - destruct tcp as [[[[mn mx]|] [|]]|]; try done. simpl. intros E.
    repeat case_bool_decide; try done; subst. eauto.
  - intros ([d s] & -> & Hs & Hd). simpl in *. subst. simpl.
    by rewrite !bool_decide_eq_true_2.
Qed.

Lemma tcp_applies_inj tcp p q :
  tcp_applies tcp p = true → tcp_applies tcp q = true → p = q.
Proof.
  rewrite !tcp_applies_spec. intros (t & -> & _ & E) (t' & [= <-] & _ & E'). congruence.
Qed.

Lemma tcp_applies_single p q :
  tcp_applies (Some {| tcp_DestinationPortRange := Some {| pr_Min := p; pr_Max := p |};
                       tcp_SourcePortRange := None |}) q = bool_decide (p = q).
Proof. simpl. by repeat case_bool_decide. Qed.

Lemma sources_on_bind port rules : sources_on port rules = rules ≫= ingress_targets port.
Proof.
  unfold sources_on. induction rules as [|r rules IH]; csimpl; [done|].
  rewrite filter_cons, <-IH. unfold ingress_targets. by destruct (tcp_applies _ _).
Qed.

Lemma destinations_on_bind port rules : destinations_on port rules = rules ≫= egress_targets port.
Proof.
  unfold destinations_on. induction rules as [|r rules IH]; csimpl; [done|].
  rewrite filter_cons, <-IH. unfold egress_targets. by destruct (tcp_applies _ _).
Qed.

(** The ingress loop is the abstract loop. *)
Lemma lb_ingress_body_claim port L D r :
  lb_ingress_body port L D r =
  claim_body (λ _, false) (ingress_targets port)
    (λ _, keep_in_use (portInUse L (int32 port))) D r.
Proof.
  unfold lb_ingress_body, claim_body, ingress_targets.
  destruct (tcp_applies _ _); simpl; [|done]. rewrite filter_cons. by case_decide.
Qed.

(** The egress loop is the abstract loop. *)
Lemma lb_egress_body_claim actual desired L D r :
  lb_egress_body actual desired L D r =
  claim_body (λ r, tcp_old_port (er_TcpOptions r) actual desired) (egress_targets desired)
    (λ _, keep_in_use (healthCheckPortInUse L (int32 desired))) D r.
Proof.
  unfold lb_egress_body, claim_body, egress_targets. destruct (tcp_old_port _ _ _); [done|].
  destruct (tcp_applies _ _); simpl; [|done]. rewrite filter_cons. by case_decide.
Qed.

Lemma scan_ext {R S} (b1 b2 : S → R → bool * S) s l :
  (∀ s r, b1 s r = b2 s r) → scan b1 s l = scan b2 s l.
Proof.
  intros E. revert s. induction l as [|r l IH]; intros s; simpl; [done|].
  rewrite E. destruct (b2 s r). by rewrite IH.
Qed.

(** The result of the ingress computation: the kept rules and the new ones. *)
Lemma getLoadBalancerIngressRules_eq rules cidrs port L :
  ∃ kept D',
    scan (claim_body (λ _, false) (ingress_targets port)
            (λ _, keep_in_use (portInUse L (int32 port)))) (list_to_set cidrs) rules = (kept, D') ∧
    getLoadBalancerIngressRules rules cidrs port L
    = kept ++ ((λ cidr, makeIngressSecurityRule cidr port) <$> sets_List D').
Proof.
  unfold getLoadBalancerIngressRules.
  rewrite (scan_ext _ _ _ _ (lb_ingress_body_claim port L)).
  destruct (scan _ _ _) as [kept D']. eexists _, _. split; [done|].
  case_decide; [subst|done]. by rewrite sets_List_empty, app_nil_r.
Qed.

Lemma getLoadBalancerEgressRules_eq rules subnets actual desired L fams :
  ∃ kept D',
    scan (claim_body (λ r, tcp_old_port (er_TcpOptions r) actual desired) (egress_targets desired)
            (λ _, keep_in_use (healthCheckPortInUse L (int32 desired))))
      (subnets_cidrs fams subnets) rules = (kept, D') ∧
    getLoadBalancerEgressRules rules subnets actual desired L fams
    = kept ++ ((λ cidr, makeEgressSecurityRule cidr desired) <$> sets_List D').
Proof.
  unfold getLoadBalancerEgressRules.
  rewrite (scan_ext _ _ _ _ (lb_egress_body_claim actual desired L)).
  destruct (scan _ _ _) as [kept D']. eexists _, _. split; [done|].
  case_decide; [subst|done]. by rewrite sets_List_empty, app_nil_r.
Qed.

Lemma ingress_targets_new port cidr :
  ingress_targets port (makeIngressSecurityRule cidr port) = [cidr].
Proof.
  unfold ingress_targets, makeIngressSecurityRule. cbn [ir_TcpOptions ir_Source].
  rewrite tcp_applies_single. by rewrite bool_decide_eq_true_2.
Qed.

Lemma egress_targets_new port cidr :
  egress_targets port (makeEgressSecurityRule cidr port) = [cidr].
Proof.
  unfold egress_targets, makeEgressSecurityRule. cbn [er_TcpOptions er_Destination].
  rewrite tcp_applies_single. by rewrite bool_decide_eq_true_2.
Qed.

Lemma egress_new_not_old actual desired cidr :
  tcp_old_port (er_TcpOptions (makeEgressSecurityRule cidr desired)) actual desired = false.
Proof. simpl. by repeat case_bool_decide. Qed.

Lemma bind_new {R} (targets : R → list string) (mk : string → R) l :
  (∀ c, targets (mk c) = [c]) → (mk <$> l) ≫= targets = l.
Proof. intros E. induction l as [|c l IH]; csimpl; [done|]. by rewrite E, IH. Qed.

Lemma sets_List_elements s : sets_List s ≡ₚ elements s.
Proof. apply merge_sort_Permutation. Qed.

Lemma ingress_targets_length port r : length (ingress_targets port r) ≤ 1.
Proof. unfold ingress_targets. case_match; simpl; lia. Qed.
Lemma egress_targets_length port r : length (egress_targets port r) ≤ 1.
Proof. unfold egress_targets. case_match; simpl; lia. Qed.

Lemma elem_of_subnets_cidrs fams subnets c :
  c ∈ subnets_cidrs fams subnets ↔ ∃ s, s ∈ subnets ∧ c ∈ subnet_cidrs fams s.
Proof.
  unfold subnets_cidrs.
  assert (∀ acc, c ∈ foldl (λ s subnet, s ∪ subnet_cidrs fams subnet) acc subnets ↔
    c ∈ acc ∨ ∃ s, s ∈ subnets ∧ c ∈ subnet_cidrs fams s) as Hg.
  { induction subnets as [|s subnets IH]; intros acc; simpl; [set_solver|].
    rewrite IH. set_solver. }
  rewrite Hg. set_solver.
Qed.

(** ** Load balancer ingress *)

Section lb_ingress.
Context (rules : list IngressSecurityRule) (cidrs : list string) (port : Z) (L : lister).

Lemma lb_ingress_covers :
  ∀ cidr, cidr ∈ cidrs →
    cidr ∈ sources_on port (getLoadBalancerIngressRules rules cidrs port L).
Proof.
  intros cidr Hc. rewrite sources_on_bind.
  destruct (getLoadBalancerIngressRules_eq rules cidrs port L) as (kept & D' & Hs & ->).
  apply claim_covers in Hs as [_ Hcov]. rewrite bind_app, elem_of_app.
  destruct (Hcov cidr) as [HD|(r & Hr & Hk)]; [by apply elem_of_list_to_set|..].
  - right. rewrite bind_new by apply ingress_targets_new. by apply elem_of_sets_List.
  - left. apply list_elem_of_bind. eauto.
Qed.

Lemma lb_ingress_exact :
  portInUse L (int32 port) = inr false →
  sources_on port (getLoadBalancerIngressRules rules cidrs port L)
    ≡ₚ elements (list_to_set cidrs : gset string).
Proof.
  intros Hu. rewrite sources_on_bind.
  destruct (getLoadBalancerIngressRules_eq rules cidrs port L) as (kept & D' & Hs & ->).
  rewrite Hu in Hs. rewrite bind_app, bind_new by apply ingress_targets_new.
  rewrite sets_List_elements. eapply claim_exact; [exact Hs|].
  apply Forall_true. intros r. split; [done|]. apply ingress_targets_length.
Qed.

Lemma lb_ingress_frame :
  filter (λ r, tcp_applies (ir_TcpOptions r) port = false)
    (getLoadBalancerIngressRules rules cidrs port L)
  = filter (λ r, tcp_applies (ir_TcpOptions r) port = false) rules.
Proof.
  destruct (getLoadBalancerIngressRules_eq rules cidrs port L) as (kept & D' & Hs & ->).
  apply claim_foreign_kept in Hs. rewrite filter_app.
  rewrite (filter_none _ (_ <$> sets_List D')), app_nil_r.
  - assert (∀ r, tcp_applies (ir_TcpOptions r) port = false ↔
      foreign (λ _, false) (ingress_targets port) r) as Hf.
    { intros r. unfold foreign, ingress_targets. destruct (tcp_applies _ _); naive_solver. }
    by rewrite !(list_filter_iff _ _ _ Hf).
  - apply Forall_fmap, Forall_true. intros c. cbn [compose makeIngressSecurityRule ir_TcpOptions].
    unfold compose. cbn [makeIngressSecurityRule ir_TcpOptions].
    by rewrite tcp_applies_single, bool_decide_eq_true_2.
Qed.

Lemma lb_ingress_in_use :
  keep_in_use (portInUse L (int32 port)) = true →
  ∃ new, getLoadBalancerIngressRules rules cidrs port L = rules ++ new.
Proof.
  intros Hu.
  destruct (getLoadBalancerIngressRules_eq rules cidrs port L) as (kept & D' & Hs & ->).
  rewrite Hu in Hs. eexists. f_equal. clear -Hs. revert Hs.
  generalize (list_to_set cidrs : gset string). revert kept.
  induction rules as [|r rs IH]; intros kept D Hs; [by injection Hs as <- _|].
  apply scan_cons_inv in Hs as (b & D1 & k1 & Hb%claim_body_step & Hs & ->).
  apply IH in Hs as ->. by inversion Hb.
Qed.

(** The ingress rules of a listener port.  Every source range of the
    service is admitted; when no live service uses the port, the rules of that
    port admit exactly the wanted ranges, each by one rule, so stale ranges are
    revoked and duplicates removed; a port in use, or whose use cannot be
    determined, loses no rule; and the rules that are not TCP rules to exactly
    that port are left alone, in place. *)
Lemma lb_ingress_correct :
  (∀ cidr, cidr ∈ cidrs →
     cidr ∈ sources_on port (getLoadBalancerIngressRules rules cidrs port L)) ∧
  (portInUse L (int32 port) = inr false →
     sources_on port (getLoadBalancerIngressRules rules cidrs port L)
       ≡ₚ elements (list_to_set cidrs : gset string)) ∧
  (keep_in_use (portInUse L (int32 port)) = true →
     ∃ new, getLoadBalancerIngressRules rules cidrs port L = rules ++ new) ∧
  filter (λ r, tcp_applies (ir_TcpOptions r) port = false)
    (getLoadBalancerIngressRules rules cidrs port L)
  = filter (λ r, tcp_applies (ir_TcpOptions r) port = false) rules.
Proof.
  auto using lb_ingress_covers, lb_ingress_exact, lb_ingress_in_use, lb_ingress_frame.
Qed.

(** A second pass over the ingress rules finds every source served and adds, keeps
    and removes nothing else. *)
Lemma lb_ingress_again :
  getLoadBalancerIngressRules (getLoadBalancerIngressRules rules cidrs port L) cidrs port L
  = getLoadBalancerIngressRules rules cidrs port L.
Proof.
  destruct (getLoadBalancerIngressRules_eq rules cidrs port L) as (kept & D' & Hs & E).
  rewrite E. clear E.
  destruct (getLoadBalancerIngressRules_eq
    (kept ++ ((λ c, makeIngressSecurityRule c port) <$> sets_List D')) cidrs port L)
    as (kept2 & D2 & Hs2 & ->).
  rewrite scan_app, (claim_again _ _ _ _ _ _ _ Hs) in Hs2.
  rewrite claim_new in Hs2 by eauto using ingress_targets_new, NoDup_sets_List, elem_of_sets_List.
  injection Hs2 as <- <-. by rewrite sets_List_empty, app_nil_r.
Qed.

End lb_ingress.

(** ** Load balancer egress *)

Section lb_egress.
Context (rules : list EgressSecurityRule) (subnets : list Subnet).
Context (actual desired : Z) (L : lister) (fams : list string).

Abbreviation result := (getLoadBalancerEgressRules rules subnets actual desired L fams).

Lemma lb_egress_covers cidr :
  cidr ∈ subnets_cidrs fams subnets → cidr ∈ destinations_on desired result.
Proof.
  intros Hc. rewrite destinations_on_bind.
  destruct (getLoadBalancerEgressRules_eq rules subnets actual desired L fams)
    as (kept & D' & Hs & ->).
  apply claim_covers in Hs as [_ Hcov]. rewrite bind_app, elem_of_app.
  destruct (Hcov cidr Hc) as [HD|(r & Hr & Hk)].
  - right. rewrite bind_new by apply egress_targets_new. by apply elem_of_sets_List.
  - left. apply list_elem_of_bind. eauto.
Qed.

Lemma lb_egress_exact :
  healthCheckPortInUse L (int32 desired) = inr false →
  destinations_on desired result ≡ₚ elements (subnets_cidrs fams subnets).
Proof.
  intros Hu. rewrite destinations_on_bind.
  destruct (getLoadBalancerEgressRules_eq rules subnets actual desired L fams)
    as (kept & D' & Hs & ->).
  rewrite Hu in Hs. rewrite bind_app, bind_new by apply egress_targets_new.
  rewrite sets_List_elements. eapply claim_exact; [exact Hs|].
  apply Forall_true. intros r. split; [done|]. apply egress_targets_length.
Qed.

Lemma lb_egress_old_gone :
  actual ≠ desired →
  Forall (λ r, tcp_applies (er_TcpOptions r) actual = false) result.
Proof.
  intros Hne.
  destruct (getLoadBalancerEgressRules_eq rules subnets actual desired L fams)
    as (kept & D' & Hs & ->).
  apply claim_old_gone in Hs. apply Forall_app. split.
  - eapply Forall_impl; [exact Hs|]. intros r Ho. cbv beta in Ho. apply not_true_iff_false.
    intros (t & Et & _ & Ed)%tcp_applies_spec. rewrite Et in Ho. destruct t as [d s].
    simpl in *. subst d. simpl in Ho. by rewrite !bool_decide_eq_true_2 in Ho.
  - apply Forall_fmap, Forall_true. intros c. unfold compose.
    cbn [makeEgressSecurityRule er_TcpOptions].
    by rewrite tcp_applies_single, bool_decide_eq_false_2.
Qed.

Lemma lb_egress_frame :
  filter (λ r, tcp_old_port (er_TcpOptions r) actual desired = false
               ∧ tcp_applies (er_TcpOptions r) desired = false) result
  = filter (λ r, tcp_old_port (er_TcpOptions r) actual desired = false
                 ∧ tcp_applies (er_TcpOptions r) desired = false) rules.
Proof.
  destruct (getLoadBalancerEgressRules_eq rules subnets actual desired L fams)
    as (kept & D' & Hs & ->).
  apply claim_foreign_kept in Hs. rewrite filter_app.
  rewrite (filter_none _ (_ <$> sets_List D')), app_nil_r.
  - assert (∀ r, (tcp_old_port (er_TcpOptions r) actual desired = false
        ∧ tcp_applies (er_TcpOptions r) desired = false) ↔
      foreign (λ r, tcp_old_port (er_TcpOptions r) actual desired) (egress_targets desired) r) as Hf.
    { intros r. unfold foreign, egress_targets. destruct (tcp_applies _ _); naive_solver. }
    by rewrite !(list_filter_iff _ _ _ Hf).
  - apply Forall_fmap, Forall_true. intros c [_ E]. revert E.
    cbn [makeEgressSecurityRule er_TcpOptions].
    by rewrite tcp_applies_single, bool_decide_eq_true_2.
Qed.

(** The egress rules of a load balancer subnet for a port (backend or
    health check): every node CIDR is reachable; when no live service needs the
    port the destinations are exactly the node CIDRs, each by one rule; when
    the port moved, no rule to exactly the old port remains; and every other
    rule is kept in place. *)
Lemma lb_egress_correct :
  (∀ cidr, cidr ∈ subnets_cidrs fams subnets → cidr ∈ destinations_on desired result) ∧
  (healthCheckPortInUse L (int32 desired) = inr false →
     destinations_on desired result ≡ₚ elements (subnets_cidrs fams subnets)) ∧
  (actual ≠ desired → Forall (λ r, tcp_applies (er_TcpOptions r) actual = false) result) ∧
  filter (λ r, tcp_old_port (er_TcpOptions r) actual desired = false
               ∧ tcp_applies (er_TcpOptions r) desired = false) result
  = filter (λ r, tcp_old_port (er_TcpOptions r) actual desired = false
                 ∧ tcp_applies (er_TcpOptions r) desired = false) rules.
Proof.
  auto using lb_egress_covers, lb_egress_exact, lb_egress_old_gone, lb_egress_frame.
Qed.

(** The same for the egress rules. *)
Lemma lb_egress_again :
  getLoadBalancerEgressRules result subnets actual desired L fams = result.
Proof.
  destruct (getLoadBalancerEgressRules_eq rules subnets actual desired L fams)
    as (kept & D' & Hs & E).
  rewrite E. clear E.
  destruct (getLoadBalancerEgressRules_eq
    (kept ++ ((λ c, makeEgressSecurityRule c desired) <$> sets_List D'))
    subnets actual desired L fams) as (kept2 & D2 & Hs2 & ->).
  rewrite scan_app, (claim_again _ _ _ _ _ _ _ Hs) in Hs2.
  rewrite claim_new in Hs2
    by eauto using egress_targets_new, egress_new_not_old, NoDup_sets_List, elem_of_sets_List.
  injection Hs2 as <- <-. by rewrite sets_List_empty, app_nil_r.
Qed.

End lb_egress.

(** Reconciling the rules of a load balancer twice is
    reconciling them once: a second pass over the ingress rules of a listener, or
    over the egress rules of a port, finds every address served and changes nothing. *)
Lemma lb_rules_idempotent L :
  (∀ rules cidrs port,
     let once := getLoadBalancerIngressRules rules cidrs port L in
     getLoadBalancerIngressRules once cidrs port L = once) ∧
  (∀ rules subnets actual desired fams,
     let once := getLoadBalancerEgressRules rules subnets actual desired L fams in
     getLoadBalancerEgressRules once subnets actual desired L fams = once).
Proof. split; intros; [apply lb_ingress_again|apply lb_egress_again]. Qed.

(** The two egress passes of [updateLoadBalancerRules] do not undo each other:
    the backend port stays open unless it was the old health check port. *)
Lemma lb_egress_second_pass rules subnets aB dB aH dH L fams :
  dB = dH ∨ dB ≠ aH →
  ∀ cidr, cidr ∈ subnets_cidrs fams subnets →
    cidr ∈ destinations_on dB
      (getLoadBalancerEgressRules
         (getLoadBalancerEgressRules rules subnets aB dB L fams) subnets aH dH L fams).
Proof.
  intros Hp cidr Hc. destruct (decide (dB = dH)) as [<-|Hne]; [by apply lb_egress_covers|].
  pose proof (lb_egress_covers rules subnets aB dB L fams cidr Hc) as H1.
  set (rs := getLoadBalancerEgressRules rules subnets aB dB L fams) in *.
  apply list_elem_of_fmap in H1 as (r & -> & [Ha Hr]%list_elem_of_filter).
  apply list_elem_of_fmap. exists r. split; [done|]. apply list_elem_of_filter. split; [done|].
  assert (tcp_applies (er_TcpOptions r) dH = false) as HdH.
  { apply not_true_iff_false. intros E. by pose proof (tcp_applies_inj _ _ _ Ha E). }
  assert (tcp_old_port (er_TcpOptions r) aH dH = false) as Hold.
  { apply tcp_applies_spec in Ha as ([d s] & -> & _ & Hd). simpl in *. subst d. simpl.
    destruct Hp; [done|]. by repeat case_bool_decide. }
  assert (r ∈ filter (λ r, tcp_old_port (er_TcpOptions r) aH dH = false
    ∧ tcp_applies (er_TcpOptions r) dH = false) rs) as Hin by by apply list_elem_of_filter.
  rewrite <-(lb_egress_frame rs subnets aH dH L fams) in Hin.
  by apply list_elem_of_filter in Hin as [_ ?].
Qed.

(** ** Node ingress *)

(** The two sets of the loop as one set of tagged CIDRs. *)
Definition tagged (s : gset string * gset string) (D : gset (bool * string)) : Prop :=
  ∀ c, ((true, c) ∈ D ↔ c ∈ s.1) ∧ ((false, c) ∈ D ↔ c ∈ s.2).

Definition node_old (actualPorts : option portSpec) (desiredPorts : portSpec)
    (r : IngressSecurityRule) : bool :=
  node_old_port (ir_TcpOptions r) (from_option BackendPort 0%Z actualPorts)
    (from_option HealthCheckerPort 0%Z actualPorts) desiredPorts.

(** A rule to the health check port that serves no CIDR stays while the port is
    in use; a rule to the backend port does not. *)
Definition node_inuse (desiredPorts : portSpec) (L : lister) (r : IngressSecurityRule) : bool :=
  tcp_applies (ir_TcpOptions r) (HealthCheckerPort desiredPorts)
  && keep_in_use (healthCheckPortInUse L (int32 (HealthCheckerPort desiredPorts))).

(** A rule that matches the ports and is not a leftover is a rule of one of the
    desired ports. *)
Lemma node_relevant actual desired r rg :
  ir_TcpOptions r = Some {| tcp_DestinationPortRange := Some rg; tcp_SourcePortRange := None |} →
  node_old actual desired r = false →
  portRangeMatchesSpec rg (Some desired) || portRangeMatchesSpec rg actual = true →
  portRangeMatchesSpec rg (Some desired) = true.
Proof.
  unfold node_old. intros Ht. rewrite Ht. destruct rg as [mn mx]. simpl.
  intros Ho [Hm|Hm]%orb_true_iff; [done|]. destruct actual as [a|]; [|done]. simpl in *.
  assert (mn = mx ∧ (mx = BackendPort a ∨ mx = HealthCheckerPort a)) as [-> Hmx].
  { by apply orb_true_iff in Hm as [[<-%bool_decide_eq_true <-%bool_decide_eq_true]%andb_true_iff
      |[<-%bool_decide_eq_true <-%bool_decide_eq_true]%andb_true_iff]; auto. }
  apply not_false_iff_true. rewrite !andb_diag. intros [HB HH]%orb_false_iff.
  apply bool_decide_eq_false in HB, HH.
  rewrite !(bool_decide_eq_true_2 (mx ≠ _)), (bool_decide_eq_true_2 (mx = mx)) in Ho by done.
  simpl in Ho. apply orb_false_iff in Ho as [?%bool_decide_eq_false ?%bool_decide_eq_false]. tauto.
Qed.

Lemma tcp_applies_range rg p :
  tcp_applies (Some {| tcp_DestinationPortRange := Some rg; tcp_SourcePortRange := None |}) p
  = bool_decide (pr_Min rg = p) && bool_decide (pr_Max rg = p).
Proof. simpl. by repeat case_bool_decide. Qed.

Lemma portRangeMatchesSpec_applies rg ports :
  portRangeMatchesSpec rg (Some ports) =
  let t := Some {| tcp_DestinationPortRange := Some rg; tcp_SourcePortRange := None |} in
  tcp_applies t (BackendPort ports) || tcp_applies t (HealthCheckerPort ports).
Proof. cbv zeta. by rewrite !tcp_applies_range. Qed.

(** For a rule of the desired ports the upper bound tells which port it is. *)
Lemma portRangeMatchesSpec_max rg ports p :
  portRangeMatchesSpec rg (Some ports) = true →
  p = BackendPort ports ∨ p = HealthCheckerPort ports →
  tcp_applies (Some {| tcp_DestinationPortRange := Some rg; tcp_SourcePortRange := None |}) p
  = bool_decide (pr_Max rg = p).
Proof.
  rewrite tcp_applies_range. simpl. intros Hm Hp.
  repeat case_bool_decide; try done; exfalso; destruct Hp; subst; try congruence; done.
Qed.

(** Striking a CIDR off one of the two sets strikes off its tagged copy. *)
Lemma tagged_delete dB dH D c :
  tagged (dB, dH) D →
  tagged (dB ∖ {[c]}, dH) (D ∖ {[(true, c)]}) ∧ tagged (dB, dH ∖ {[c]}) (D ∖ {[(false, c)]}).
Proof. intros Hrel. split; intros c'; destruct (Hrel c'); set_solver. Qed.

(** The branches of the loop for a rule of the desired ports. *)
Lemma node_body_cases dB dH D r mx ports L b s' :
  tagged (dB, dH) D →
  mx = BackendPort ports ∨ mx = HealthCheckerPort ports →
  (if decide (mx = BackendPort ports ∧ ir_Source r ∈ dB)
   then (true, (dB ∖ {[ir_Source r]}, dH))
   else if decide (mx = HealthCheckerPort ports ∧ ir_Source r ∈ dH)
   then (true, (dB, dH ∖ {[ir_Source r]}))
   else if decide (mx = HealthCheckerPort ports)
   then (keep_in_use (healthCheckPortInUse L (int32 (HealthCheckerPort ports))), (dB, dH))
   else (false, (dB, dH))) = (b, s') →
  ∃ D',
    match (if bool_decide (mx = BackendPort ports) then [(true, ir_Source r)] else [])
          ++ (if bool_decide (mx = HealthCheckerPort ports) then [(false, ir_Source r)] else [])
    with
    | [] => (true, D)
    | ks => match filter (λ k, k ∈ D) ks with
            | k :: _ => (true, D ∖ {[k]})
            | [] => (bool_decide (mx = HealthCheckerPort ports)
                     && keep_in_use (healthCheckPortInUse L (int32 (HealthCheckerPort ports))), D)
            end
    end = (b, D') ∧ tagged s' D'.
Proof.
  intros Hrel Hmx. pose proof (tagged_delete _ _ _ (ir_Source r) Hrel) as [HdB HdH].
  destruct (Hrel (ir_Source r)) as [HB HH]. simpl in HB, HH.
  destruct (decide (mx = BackendPort ports)) as [EB|EB];
    [rewrite (bool_decide_eq_true_2 (mx = BackendPort ports)) by done
    |rewrite (bool_decide_eq_false_2 (mx = BackendPort ports)) by done];
  (destruct (decide (mx = HealthCheckerPort ports)) as [EH|EH];
    [rewrite (bool_decide_eq_true_2 (mx = HealthCheckerPort ports)) by done
    |rewrite (bool_decide_eq_false_2 (mx = HealthCheckerPort ports)) by done]);
  [| | |destruct Hmx; contradiction]; simpl app; cbv beta iota; rewrite ?filter_cons, ?filter_nil.
  all: repeat case_decide; try tauto; intros [= <- <-]; eauto.
Qed.

Lemma node_body_sim actual desired L s D r b s' :
  tagged s D →
  node_ingress_body actual desired L s r = (b, s') →
  ∃ D', claim_body (node_old actual desired) (node_targets desired) (node_inuse desired L) D r
        = (b, D') ∧ tagged s' D'.
Proof.
  intros Hrel. destruct s as [dB dH]. unfold node_ingress_body, claim_body.
  destruct (node_old actual desired r) eqn:Ho; pose proof Ho as Ho'; unfold node_old in Ho'; rewrite Ho'.
  { intros [= <- <-]. eauto. }
  unfold node_targets, node_inuse.
  destruct (ir_TcpOptions r) as [[[rg|] [|]]|] eqn:Ht; try (intros [= <- <-]; by eauto).
  destruct (portRangeMatchesSpec rg (Some desired) || portRangeMatchesSpec rg actual) eqn:Hm.
  2:{ apply orb_false_iff in Hm as [Hm _]. intros [= <- <-].
      rewrite portRangeMatchesSpec_applies in Hm. apply orb_false_iff in Hm as [-> ->]. eauto. }
  eapply node_relevant in Hm; [|exact Ht|exact Ho].
  rewrite !(portRangeMatchesSpec_max _ _ _ Hm) by auto.
  simpl negb. cbv iota. apply (node_body_cases dB dH D r _ _ L); [done|]. simpl in Hm.
  by apply orb_true_iff in Hm as [[_ ?%bool_decide_eq_true]%andb_true_iff
    |[_ ?%bool_decide_eq_true]%andb_true_iff]; auto.
Qed.

Lemma getNodeIngressRules_eq rules lbSubnets actual desired L cidrs preserve fams :
  ∃ kept D D' dB' dH',
    tagged (subnets_cidrs fams lbSubnets ∪ (if preserve : bool then list_to_set cidrs else ∅),
            subnets_cidrs fams lbSubnets) D ∧
    scan (claim_body (node_old actual desired) (node_targets desired) (node_inuse desired L))
      D rules = (kept, D') ∧
    tagged (dB', dH') D' ∧
    getNodeIngressRules rules lbSubnets actual desired L cidrs preserve fams
    = kept
      ++ (if decide (BackendPort desired = 0%Z) then []
          else (λ cidr, makeIngressSecurityRule cidr (BackendPort desired)) <$> sets_List dB')
      ++ (if decide (HealthCheckerPort desired = 0%Z) then []
          else (λ cidr, makeIngressSecurityRule cidr (HealthCheckerPort desired)) <$> sets_List dH').
Proof.
  unfold getNodeIngressRules. cbv zeta.
  set (s := (subnets_cidrs fams lbSubnets ∪ (if preserve then list_to_set cidrs else ∅),
             subnets_cidrs fams lbSubnets)).
  destruct (scan _ s rules) as [kept [dB' dH']] eqn:Hs.
  pose (D := list_to_set (((true,.) <$> elements s.1) ++ ((false,.) <$> elements s.2))
             : gset (bool * string)).
  assert (tagged s D) as Ht.
  { intros c. unfold D. split; set_solver. }
  destruct (scan_simulation tagged (node_ingress_body actual desired L)
    (claim_body (node_old actual desired) (node_targets desired) (node_inuse desired L))
    rules s D kept (dB', dH')) as (D' & Hs' & Ht'); [|done|done|].
  { intros s1 s2 r b s1' _. apply node_body_sim. }
  exists kept, D, D', dB', dH'. split_and!; [done|done|done|].
  case_decide as E; [|done]. destruct E as [-> ->]. rewrite sets_List_empty. simpl.
  by repeat case_decide; rewrite ?app_nil_r.
Qed.

Lemma node_targets_elem desired r (tag : bool) c :
  (tag, c) ∈ node_targets desired r ↔
  ir_Source r = c ∧ tcp_applies (ir_TcpOptions r)
    (if tag then BackendPort desired else HealthCheckerPort desired) = true.
Proof.
  unfold node_targets. rewrite elem_of_app.
  destruct tag, (tcp_applies _ (BackendPort desired)), (tcp_applies _ (HealthCheckerPort desired));
    set_solver.
Qed.

Lemma elem_of_sources_on port rules c :
  c ∈ sources_on port rules ↔
  ∃ r, r ∈ rules ∧ tcp_applies (ir_TcpOptions r) port = true ∧ ir_Source r = c.
Proof.
  unfold sources_on. rewrite list_elem_of_fmap. setoid_rewrite list_elem_of_filter. naive_solver.
Qed.

Lemma sources_on_app port l1 l2 :
  sources_on port (l1 ++ l2) = sources_on port l1 ++ sources_on port l2.
Proof. unfold sources_on. by rewrite filter_app, fmap_app. Qed.

Lemma sources_on_new port l :
  sources_on port ((λ cidr, makeIngressSecurityRule cidr port) <$> l) = l.
Proof. rewrite sources_on_bind. apply bind_new, ingress_targets_new. Qed.

Section node_ingress.
Context (rules : list IngressSecurityRule) (lbSubnets : list Subnet).
Context (actual : option portSpec) (desired : portSpec) (L : lister).
Context (cidrs : list string) (preserve : bool) (fams : list string).

Abbreviation result :=
  (getNodeIngressRules rules lbSubnets actual desired L cidrs preserve fams).

Lemma node_ingress_covers :
  (BackendPort desired ≠ 0%Z → ∀ c,
     c ∈ subnets_cidrs fams lbSubnets ∨ preserve = true ∧ c ∈ cidrs →
     c ∈ sources_on (BackendPort desired) result) ∧
  (HealthCheckerPort desired ≠ 0%Z → ∀ c,
     c ∈ subnets_cidrs fams lbSubnets → c ∈ sources_on (HealthCheckerPort desired) result).
Proof.
  destruct (getNodeIngressRules_eq rules lbSubnets actual desired L cidrs preserve fams)
    as (kept & D & D' & dB' & dH' & HD & Hs & HD' & ->).
  apply claim_covers in Hs as [_ Hcov].
  split; intros Hp c Hc; rewrite !sources_on_app, !elem_of_app;
    [rewrite (decide_False (P := BackendPort desired = 0%Z)) by done
    |rewrite (decide_False (P := HealthCheckerPort desired = 0%Z)) by done].
  - destruct (Hcov (true, c)) as [HcD|(r & Hr & Hk)].
    { apply HD. destruct Hc as [?|[-> ?]]; set_solver. }
    + right; left. rewrite sources_on_new. by apply elem_of_sets_List, HD'.
    + left. apply node_targets_elem in Hk as [??]. apply elem_of_sources_on. eauto.
  - destruct (Hcov (false, c)) as [HcD|(r & Hr & Hk)]; [by apply HD| |].
    + right; right. rewrite sources_on_new. by apply elem_of_sets_List, HD'.
    + left. apply node_targets_elem in Hk as [??]. apply elem_of_sources_on. eauto.
Qed.

Lemma node_ingress_backend_exact :
  BackendPort desired ≠ HealthCheckerPort desired →
  ∀ c, c ∈ sources_on (BackendPort desired) result →
    c ∈ subnets_cidrs fams lbSubnets ∨ preserve = true ∧ c ∈ cidrs.
Proof.
  intros Hne c.
  destruct (getNodeIngressRules_eq rules lbSubnets actual desired L cidrs preserve fams)
    as (kept & D & D' & dB' & dH' & HD & Hs & HD' & ->).
  pose proof (claim_covers _ _ _ _ _ _ _ Hs) as [Hsub _].
  assert (∀ c, (true, c) ∈ D → c ∈ subnets_cidrs fams lbSubnets ∨ preserve = true ∧ c ∈ cidrs) as Hin.
  { intros c' ?%HD. destruct preserve; set_solver. }
  rewrite !sources_on_app, !elem_of_app. intros [Hc|[Hc|Hc]].
  - apply elem_of_sources_on in Hc as (r & Hr & Ha & <-).
    assert (tcp_applies (ir_TcpOptions r) (HealthCheckerPort desired) = false) as HaH.
    { apply not_true_iff_false. intros E. by pose proof (tcp_applies_inj _ _ _ Ha E). }
    destruct (claim_no_excess _ _ _ _ _ _ _ Hs r Hr) as [[_ Ht]|[([tag c'] & Ht & Hd)|Hu]].
    + unfold node_targets in Ht. by rewrite Ha in Ht.
    + apply node_targets_elem in Ht as [<- Ht]. destruct tag; [by apply Hin|congruence].
    + unfold node_inuse in Hu. by rewrite HaH in Hu.
  - destruct (decide (BackendPort desired = 0%Z)); [set_solver|].
    rewrite sources_on_new, elem_of_sets_List in Hc. by apply Hin, Hsub, HD'.
  - exfalso. apply elem_of_sources_on in Hc as (r & Hr & Ha & _).
    destruct (decide _); [set_solver|].
    apply list_elem_of_fmap in Hr as (c' & -> & _). revert Ha.
    cbn [makeIngressSecurityRule ir_TcpOptions]. rewrite tcp_applies_single.
    by intros ?%bool_decide_eq_true.
Qed.

(** Rules to other ports stay, in order. *)
Lemma node_ingress_frame :
  filter (foreign (node_old actual desired) (node_targets desired)) result
  = filter (foreign (node_old actual desired) (node_targets desired)) rules.
Proof.
  destruct (getNodeIngressRules_eq rules lbSubnets actual desired L cidrs preserve fams)
    as (kept & D & D' & dB' & dH' & HD & Hs & HD' & ->).
  apply claim_foreign_kept in Hs. rewrite !filter_app, Hs.
  assert (∀ p l, p = BackendPort desired ∨ p = HealthCheckerPort desired →
    filter (foreign (node_old actual desired) (node_targets desired))
      ((λ c, makeIngressSecurityRule c p) <$> l) = []) as Hnew.
  { intros p l Hp. apply filter_none, Forall_fmap, Forall_true. intros c [_ Ht]. revert Ht.
    unfold node_targets. cbn [makeIngressSecurityRule ir_TcpOptions ir_Source].
    rewrite !tcp_applies_single. destruct Hp as [<-|<-].
    - by rewrite bool_decide_eq_true_2.
    - rewrite (bool_decide_eq_true_2 (p = p)) by done. by case_bool_decide. }
  repeat case_decide; rewrite ?Hnew by auto; by rewrite ?filter_nil, ?app_nil_r.
Qed.

(** The ingress rules of a node subnet.  The nodes accept what the load
    balancer sends: on the backend port from every load balancer CIDR and, when
    source addresses are preserved, from every source range; on the health check
    port from every load balancer CIDR; both whatever rules were there, also
    when the two ports coincide.  When they differ, nothing else is accepted on
    the backend port, so rules of ranges that went away are revoked.  Rules
    about other ports stay in place. *)
Lemma node_ingress_correct :
  (BackendPort desired ≠ 0%Z → ∀ c,
     c ∈ subnets_cidrs fams lbSubnets ∨ preserve = true ∧ c ∈ cidrs →
     c ∈ sources_on (BackendPort desired) result) ∧
  (HealthCheckerPort desired ≠ 0%Z → ∀ c,
     c ∈ subnets_cidrs fams lbSubnets → c ∈ sources_on (HealthCheckerPort desired) result) ∧
  (BackendPort desired ≠ HealthCheckerPort desired →
     ∀ c, c ∈ sources_on (BackendPort desired) result →
       c ∈ subnets_cidrs fams lbSubnets ∨ preserve = true ∧ c ∈ cidrs) ∧
  filter (foreign (node_old actual desired) (node_targets desired)) result
  = filter (foreign (node_old actual desired) (node_targets desired)) rules.
Proof.
  destruct node_ingress_covers. auto using node_ingress_backend_exact, node_ingress_frame.
Qed.

(** When the backend or health check port moved, no rule to exactly the
    old port remains, whatever its source.  This holds for every [L]: the use of
    the old port by other services is not consulted. *)
Lemma node_ingress_old_ports_closed :
  ∀ a p, actual = Some a → p = BackendPort a ∨ p = HealthCheckerPort a →
    p ≠ BackendPort desired → p ≠ HealthCheckerPort desired →
    sources_on p result = [].
Proof.
  intros a p Ea Hp HpB HpH.
  destruct (getNodeIngressRules_eq rules lbSubnets actual desired L cidrs preserve fams)
    as (kept & D & D' & dB' & dH' & HD & Hs & HD' & ->).
  apply claim_old_gone in Hs. unfold sources_on.
  rewrite filter_none; [done|]. rewrite !Forall_app. split_and!.
  - eapply Forall_impl; [exact Hs|]. intros r Ho (t & Et & _ & Ed)%tcp_applies_spec.
    revert Ho. unfold node_old. rewrite Et, Ea. destruct t as [d s]. simpl in *. subst d. simpl.
    destruct Hp; by repeat case_bool_decide.
  - case_decide; [done|]. apply Forall_fmap, Forall_true. intros c. unfold compose.
    cbn [makeIngressSecurityRule ir_TcpOptions].
    rewrite tcp_applies_single. by intros ?%bool_decide_eq_true.
  - case_decide; [done|]. apply Forall_fmap, Forall_true. intros c. unfold compose.
    cbn [makeIngressSecurityRule ir_TcpOptions].
    rewrite tcp_applies_single. by intros ?%bool_decide_eq_true.
Qed.

(** A rule to the health check port survives while some live service still
    uses that port for its health checks, even if this service does not want its
    source any more. *)
Lemma node_ingress_health_check_shared :
  healthCheckPortInUse L (int32 (HealthCheckerPort desired)) = inr true →
  ∀ r, r ∈ rules → tcp_applies (ir_TcpOptions r) (HealthCheckerPort desired) = true → r ∈ result.
Proof.
  intros Hu r Hr Ha.
  destruct (getNodeIngressRules_eq rules lbSubnets actual desired L cidrs preserve fams)
    as (kept & D & D' & dB' & dH' & HD & Hs & HD' & ->).
  apply elem_of_app. left. eapply claim_inuse_kept; [exact Hs|done|..].
  - unfold node_old. apply tcp_applies_spec in Ha as ([d s] & -> & _ & Hd). simpl in *. subst d.
    simpl. repeat case_bool_decide; done.
  - unfold node_inuse. by rewrite Ha, Hu.
Qed.

End node_ingress.

(** ** Change detection *)

Lemma existsb_eq {A} `{EqDecision A} (l : list A) (x : A) :
  existsb (λ y, bool_decide (y = x)) l = true ↔ x ∈ l.
Proof.
  rewrite existsb_exists. setoid_rewrite bool_decide_eq_true.
  setoid_rewrite <-list_elem_of_In. naive_solver.
Qed.

Lemma forallb_subset {A} `{EqDecision A} (l l' : list A) :
  forallb (λ x, existsb (λ y, bool_decide (y = x)) l') l = true ↔ l ⊆ l'.
Proof.
  rewrite forallb_forall. setoid_rewrite existsb_eq. setoid_rewrite <-list_elem_of_In. done.
Qed.

Lemma securityListRulesChanged_false sl ing eg :
  securityListRulesChanged sl ing eg = false ↔
  (length ing = length (sl_IngressSecurityRules sl) ∧ ing ⊆ sl_IngressSecurityRules sl) ∧
  (length eg = length (sl_EgressSecurityRules sl) ∧ eg ⊆ sl_EgressSecurityRules sl).
Proof.
  unfold securityListRulesChanged. case_decide as Hlen; [naive_solver|].
  destruct (forallb _ ing) eqn:E1; [apply forallb_subset in E1|
    apply not_true_iff_false in E1; rewrite forallb_subset in E1]; simpl; [|naive_solver].
  destruct (forallb _ eg) eqn:E2; [apply forallb_subset in E2|
    apply not_true_iff_false in E2; rewrite forallb_subset in E2]; simpl; [|naive_solver].
  split; [|done]. intros _. split; split; try done;
    apply dec_stable; intros ?; apply Hlen; auto.
Qed.

(** C40: for rule lists without duplicates, the controller skips the update
    exactly when the list on the server already holds the same rules, in
    whatever order. *)
Theorem securityListRulesChanged_correct sl ing eg :
  NoDup ing → NoDup eg →
  securityListRulesChanged sl ing eg = false ↔
    ing ≡ₚ sl_IngressSecurityRules sl ∧ eg ≡ₚ sl_EgressSecurityRules sl.
Proof.
  intros Hi He. rewrite securityListRulesChanged_false.
  assert (∀ A (l l' : list A), NoDup l → length l = length l' ∧ l ⊆ l' ↔ l ≡ₚ l') as Hp.
  { intros A l l' Hl. split.
    - intros [Hlen Hsub]. apply submseteq_length_Permutation; [by apply NoDup_submseteq|lia].
    - intros E. split; [by apply Permutation_length|]. intros x Hx. by rewrite <-E. }
  by rewrite !Hp.
Qed.

(** ** The properties at concrete inputs *)

Definition example_ports (backend health : Z) : portSpec :=
  {| ListenerPort := 80; BackendPort := backend; HealthCheckerPort := health |}.

Definition example_service (policy : string) (healthPort : Z) : Service := {|
  svc_Namespace := "default"; svc_Name := "other"; svc_UID := "uid-2"; svc_Annotations := ∅;
  svc_DeletionTimestamp := None; svc_Type := ServiceTypeLoadBalancer;
  svc_Ports := [{| port_Protocol := "TCP"; port_Port := 443; port_NodePort := 30443 |}];
  svc_SessionAffinity := "None"; svc_ExternalTrafficPolicy := policy;
  svc_HealthCheckNodePort := healthPort; svc_LoadBalancerIP := "";
  svc_IPFamilies := [IPv4]; svc_IPFamilyPolicy := None |}.

(** A service moves from the shared health check port 10256 to its own: the
    rule of the shared port goes although another service still needs it. *)
Lemma node_ingress_old_ports_closed_witness :
  healthCheckPortInUse (inr [example_service "Cluster" 0]) 10256 = inr true ∧
  sources_on 10256 (getNodeIngressRules [makeIngressSecurityRule "10.0.0.0/24" 10256] []
    (Some (example_ports 30080 10256)) (example_ports 30080 31000)
    (inr [example_service "Cluster" 0]) [] false [IPv4]) = [].
Proof.
  split; [by vm_compute|].
  by apply (node_ingress_old_ports_closed _ _ _ _ _ _ _ _ (example_ports 30080 10256)); auto.
Defined.

Lemma node_ingress_health_check_shared_witness :
  makeIngressSecurityRule "10.0.9.0/24" 10256 ∈
    getNodeIngressRules [makeIngressSecurityRule "10.0.9.0/24" 10256] []
      None (example_ports 30080 10256) (inr [example_service "Cluster" 0]) [] false [IPv4].
Proof.
  apply node_ingress_health_check_shared; [by vm_compute|by left|by vm_compute].
Defined.

Lemma securityListRulesChanged_correct_witness :
  let r := makeIngressSecurityRule "10.0.9.0/24" in
  securityListRulesChanged
    {| sl_Id := "sl"; sl_IngressSecurityRules := [r 80%Z; r 443%Z];
       sl_EgressSecurityRules := []; sl_TimeCreated := 0 |} [r 443%Z; r 80%Z] [] = false.
Proof.
  apply securityListRulesChanged_correct; [..|split; [constructor|done]].
  - apply (bool_decide_unpack _). by vm_compute.
  - constructor.
Defined.
