(* ===== verification/SecurityListManager.v ===== *)
(** * Security list managers (load_balancer_security_lists.go)

    The managers that read security lists from the networking service, compute
    the new rules and write them back.  The networking service is the class
    [SecurityListClient] over a state [W] of the world; [SecurityListLaws]
    states what the managers rely on: a read answers the current list and
    changes no list, a successful write replaces the rules of that list only. *)
From stdpp Require Import base tactics list gmap sets strings.
From S2P Require Import Prelude GoStrings GoSort Types RuleScan SecurityLists.

(** The networking calls, as the interface [client.NetworkingInterface] has
    them: [GetSecurityList] answers the list and its etag. *)
Class SecurityListClient (W : Type) := {
  GetSecurityList : string → M W (SecurityList * option string);
  UpdateSecurityList :
    string → string → list IngressSecurityRule → list EgressSecurityRule → M W ();
}.

(** The state of [baseSecurityListManager]. *)
Record baseSecurityListManager := {
  mgr_securityLists : gmap string string;
  mgr_serviceLister : lister;
}.

(** The implementations of the interface [securityListManager]. *)
Inductive securityListManager :=
| defaultSecurityListManager (s : baseSecurityListManager)
| frontendSecurityListManager (s : baseSecurityListManager)
| securityListManagerNOOP.

Definition newSecurityListManager (serviceLister : lister)
    (securityLists : option (gmap string string)) (mode : string) : securityListManager :=
  let baseMgr := {| mgr_securityLists := default ∅ securityLists;
                    mgr_serviceLister := serviceLister |} in
  if decide (mode = ManagementModeFrontend) then frontendSecurityListManager baseMgr
  else if decide (mode = ManagementModeNone) then securityListManagerNOOP
  else if decide (mode = RuleManagementModeNsg) then securityListManagerNOOP
  else defaultSecurityListManager baseMgr.

Section manager.
Context {W : Type} `{!SecurityListClient W}.

(** [responses[i].TimeCreated.Before(responses[j].TimeCreated.Time)]. *)
Definition created_before (a b : SecurityList * option string) : bool :=
  bool_decide (sl_TimeCreated a.1 < sl_TimeCreated b.1)%Z.

Definition getSecurityList (s : baseSecurityListManager) (subnet : Subnet)
    : M W (SecurityList * string) :=
  if decide (length (subnet_SecurityListIds subnet) < 1)
  then fail (Errorf "no security lists" [])
  else
    let oldest :=
      responses ← mapM GetSecurityList (subnet_SecurityListIds subnet);
      '(sl, etag) ← lift (index (Slice created_before responses) 0);
      etag ← lift (deref etag);
      mret (sl, etag) in
    match mgr_securityLists s !! subnet_Id subnet with
    | Some id =>
        if decide (id ∈ subnet_SecurityListIds subnet) then
          '(sl, etag) ← GetSecurityList id;
          etag ← lift (deref etag);
          mret (sl, etag)
        else oldest
    | None => oldest
    end.

Definition updateBackendRules (s : baseSecurityListManager) (lbSubnets nodeSubnets : list Subnet)
    (actualPorts : option portSpec) (desiredPorts : portSpec) (sourceCIDRs : list string)
    (isPreserveSource : bool) (ipFamilies : list string) : M W () :=
  forM nodeSubnets (λ subnet,
    '(secList, etag) ← wrapM (getSecurityList s subnet)
       "get security list for subnet %q" [subnet_Id subnet];
    let ingressRules := getNodeIngressRules (sl_IngressSecurityRules secList) lbSubnets
      actualPorts desiredPorts (mgr_serviceLister s) sourceCIDRs isPreserveSource ipFamilies in
    if negb (securityListRulesChanged secList ingressRules (sl_EgressSecurityRules secList))
    then mret ()
    else wrapM (UpdateSecurityList (sl_Id secList) etag ingressRules
                  (sl_EgressSecurityRules secList))
           "update security list rules %q for subnet %q" [sl_Id secList; subnet_Id subnet]).

(** The new egress rules of a load balancer subnet: first for the backend
    port, then for the health check port (0 denotes a nil port). *)
Definition lb_egress_rules (s : baseSecurityListManager) (secList : SecurityList)
    (nodeSubnets : list Subnet) (actualPorts : option portSpec) (desiredPorts : portSpec)
    (ipFamilies : list string) : list EgressSecurityRule :=
  let currentBackEndPort := from_option BackendPort 0%Z actualPorts in
  let currentHealthCheck := from_option HealthCheckerPort 0%Z actualPorts in
  let lbEgressRules := getLoadBalancerEgressRules (sl_EgressSecurityRules secList) nodeSubnets
    currentBackEndPort (BackendPort desiredPorts) (mgr_serviceLister s) ipFamilies in
  getLoadBalancerEgressRules lbEgressRules nodeSubnets
    currentHealthCheck (HealthCheckerPort desiredPorts) (mgr_serviceLister s) ipFamilies.

Definition lb_ingress_rules (s : baseSecurityListManager) (secList : SecurityList)
    (sourceCIDRs : list string) (desiredPorts : portSpec) : list IngressSecurityRule :=
  if decide (ListenerPort desiredPorts ≠ 0%Z)
  then getLoadBalancerIngressRules (sl_IngressSecurityRules secList) sourceCIDRs
         (ListenerPort desiredPorts) (mgr_serviceLister s)
  else sl_IngressSecurityRules secList.

Definition updateLoadBalancerRules (s : baseSecurityListManager)
    (lbSubnets nodeSubnets : list Subnet) (sourceCIDRs : list string)
    (actualPorts : option portSpec) (desiredPorts : portSpec) (ipFamilies : list string) : M W () :=
  forM lbSubnets (λ lbSubnet,
    '(secList, etag) ← wrapM (getSecurityList s lbSubnet)
       "get lb security list for subnet %q" [subnet_Id lbSubnet];
    let lbEgressRules := lb_egress_rules s secList nodeSubnets actualPorts desiredPorts ipFamilies in
    let lbIngressRules := lb_ingress_rules s secList sourceCIDRs desiredPorts in
    if negb (securityListRulesChanged secList lbIngressRules lbEgressRules)
    then mret ()
    else wrapM (UpdateSecurityList (sl_Id secList) etag lbIngressRules lbEgressRules)
           "update lb security list rules %q for subnet %q" [sl_Id secList; subnet_Id lbSubnet]).

(** The method [Update] of the three managers. *)
Definition manager_Update (m : securityListManager) (sc : securityRuleComponents) : M W () :=
  match m with
  | defaultSecurityListManager s =>
      _ ← updateLoadBalancerRules s (sc_lbSubnets sc) (sc_backendSubnets sc) (sc_sourceCIDRs sc)
            (sc_actualPorts sc) (sc_desiredPorts sc) (sc_ipFamilies sc);
      updateBackendRules s (sc_lbSubnets sc) (sc_backendSubnets sc) (sc_actualPorts sc)
        (sc_desiredPorts sc) (sc_sourceCIDRs sc) (sc_isPreserveSource sc) (sc_ipFamilies sc)
  | frontendSecurityListManager s =>
      updateLoadBalancerRules s (sc_lbSubnets sc) [] (sc_sourceCIDRs sc)
        (sc_actualPorts sc) (sc_desiredPorts sc) (sc_ipFamilies sc)
  | securityListManagerNOOP => mret ()
  end.

(** The method [Delete] of the three managers. *)
Definition manager_Delete (m : securityListManager) (sc : securityRuleComponents) : M W () :=
  match m with
  | defaultSecurityListManager s =>
      _ ← updateLoadBalancerRules s (sc_lbSubnets sc) [] []
            (Some (sc_desiredPorts sc)) (sc_desiredPorts sc) (sc_ipFamilies sc);
      updateBackendRules s [] (sc_backendSubnets sc) (Some (sc_desiredPorts sc))
        (sc_desiredPorts sc) [] (sc_isPreserveSource sc) (sc_ipFamilies sc)
  | frontendSecurityListManager s =>
      updateLoadBalancerRules s (sc_lbSubnets sc) [] []
        (Some (sc_desiredPorts sc)) (sc_desiredPorts sc) (sc_ipFamilies sc)
  | securityListManagerNOOP => mret ()
  end.

End manager.

(** ** What the managers rely on *)

Definition with_rules (sl : SecurityList) (ing : list IngressSecurityRule)
    (eg : list EgressSecurityRule) : SecurityList :=
  {| sl_Id := sl_Id sl; sl_IngressSecurityRules := ing; sl_EgressSecurityRules := eg;
     sl_TimeCreated := sl_TimeCreated sl |}.

(** [seclist w id] is the security list [id] in the state [w]. *)
Class SecurityListLaws (W : Type) `{!SecurityListClient W} := {
  seclist : W → string → option SecurityList;
  seclist_id : ∀ w id sl, seclist w id = Some sl → sl_Id sl = id;
  GetSecurityList_law : ∀ id w sl etag w',
    GetSecurityList id w = (Ret (sl, etag), w') →
    seclist w id = Some sl ∧ ∀ id', seclist w' id' = seclist w id';
  UpdateSecurityList_law : ∀ id etag ing eg w w',
    UpdateSecurityList id etag ing eg w = (Ret (), w') →
    ∃ sl, seclist w id = Some sl ∧
      ∀ id', seclist w' id' = if decide (id' = id) then Some (with_rules sl ing eg)
                              else seclist w id';
}.

(** The list the manager of a subnet works on, as a function of the lists: the
    one configured for the subnet if it is attached, else the oldest. *)
Definition managed_list (s : baseSecurityListManager) (subnet : Subnet)
    (view : string → option SecurityList) : option SecurityList :=
  let oldest := sls ← mapM view (subnet_SecurityListIds subnet);
    head (Slice (λ a b, bool_decide (sl_TimeCreated a < sl_TimeCreated b)%Z) sls) in
  match mgr_securityLists s !! subnet_Id subnet with
  | Some id => if decide (id ∈ subnet_SecurityListIds subnet) then view id else oldest
  | None => oldest
  end.

(** ** Lemmas *)

Lemma insert_left_fmap {A B} (f : A → B) lessA lessB x l :
  (∀ a b, lessA a b = lessB (f a) (f b)) →
  f <$> insert_left lessA x l = insert_left lessB (f x) (f <$> l).
Proof.
  intros E. induction l as [|y l IH]; csimpl; [done|]. rewrite <-E.
  case_match; csimpl; by rewrite ?IH.
Qed.

Lemma Slice_fmap {A B} (f : A → B) lessA lessB l :
  (∀ a b, lessA a b = lessB (f a) (f b)) →
  f <$> Slice lessA l = Slice lessB (f <$> l).
Proof.
  intros E. unfold Slice, insertionSort. rewrite fmap_reverse. f_equal.
  assert (∀ r, f <$> foldl (λ r x, insert_left lessA x r) r l
    = foldl (λ r x, insert_left lessB x r) (f <$> r) (f <$> l)) as H; [|apply H].
  induction l as [|x l IH]; intros r; csimpl; [done|].
  by rewrite IH, (insert_left_fmap f lessA lessB).
Qed.

Section laws.
Context {W : Type} `{!SecurityListClient W, !SecurityListLaws W}.
Implicit Types w : W.

Lemma mapM_GetSecurityList ids w rs w' :
  mapM GetSecurityList ids w = (Ret rs, w') →
  mapM (seclist w) ids = Some rs.*1 ∧ ∀ id, seclist w' id = seclist w id.
Proof.
  revert w rs w'. induction ids as [|id ids IH]; intros w rs w' Hr; csimpl in *.
  { by injection Hr as <- <-. }
  apply M_bind_Ret_inv in Hr as ([sl etag] & w1 & [H1 Hv1]%GetSecurityList_law & Hr).
  apply M_bind_Ret_inv in Hr as (rs1 & w2 & [H2 Hv2]%IH & Hr). injection Hr as <- <-.
  split; [|intros; by rewrite Hv2]. rewrite H1. csimpl.
  rewrite (mapM_ext _ (seclist w1)) by (intros; symmetry; apply Hv1). by rewrite H2.
Qed.

Lemma getSecurityList_spec s subnet w sl etag w' :
  getSecurityList s subnet w = (Ret (sl, etag), w') →
  managed_list s subnet (seclist w) = Some sl ∧ ∀ id, seclist w' id = seclist w id.
Proof.
  unfold getSecurityList, managed_list. case_decide; [done|].
  assert (∀ (r : SecurityList * string) w', (responses ← mapM GetSecurityList (subnet_SecurityListIds subnet);
      '(sl, etag) ← lift (index (Slice created_before responses) 0);
      etag ← lift (deref etag); mret (sl, etag)) w = (Ret r, w') →
    (sls ← mapM (seclist w) (subnet_SecurityListIds subnet);
     head (Slice (λ a b, bool_decide (sl_TimeCreated a < sl_TimeCreated b)%Z) sls)) = Some r.1
    ∧ ∀ id, seclist w' id = seclist w id) as Hold.
  { clear. intros r w' Hr.
    apply M_bind_Ret_inv in Hr as (rs & w1 & [Hm Hv]%mapM_GetSecurityList & Hr). rewrite Hm. csimpl.
    apply M_bind_Ret_inv in Hr as ([sl1 e1] & w2 & Hi & Hr). unfold lift in Hi.
    injection Hi as Hi <-. apply M_bind_Ret_inv in Hr as (e2 & w3 & He & Hr).
    injection He as _ <-. injection Hr as <- <-. split; [|done]. simpl.
    rewrite <-(Slice_fmap fst created_before) by done. unfold index in Hi.
    destruct (Slice created_before rs) as [|[??] ?]; simpl in *; [done|]. by injection Hi as <- _. }
  destruct (mgr_securityLists s !! _) as [id|]; [case_decide|]; intros Hr;
    try (apply Hold in Hr; exact Hr).
  apply M_bind_Ret_inv in Hr as ([sl1 e1] & w1 & [Hg Hv]%GetSecurityList_law & Hr).
  apply M_bind_Ret_inv in Hr as (e2 & w2 & He & Hr). injection He as _ <-.
  by injection Hr as <- <- <-.
Qed.

Lemma managed_list_view s subnet (view : string → option SecurityList) sl :
  (∀ id sl, view id = Some sl → sl_Id sl = id) →
  managed_list s subnet view = Some sl → view (sl_Id sl) = Some sl.
Proof.
  intros Hid. unfold managed_list.
  assert (∀ sl, (sls ← mapM view (subnet_SecurityListIds subnet);
     head (Slice (λ a b, bool_decide (sl_TimeCreated a < sl_TimeCreated b)%Z) sls)) = Some sl →
     view (sl_Id sl) = Some sl) as Hold.
  { clear sl. intros sl. destruct (mapM view _) as [sls|] eqn:Hm; [|done]. csimpl. intros Hh.
    assert (sl ∈ sls) as Hin.
    { rewrite <-(insertionSort_Permutation (λ a b, bool_decide (sl_TimeCreated a < sl_TimeCreated b)%Z) sls).
      unfold Slice in Hh. destruct (insertionSort _ sls); [done|]. injection Hh as ->. by left. }
    apply mapM_Some in Hm. apply list_elem_of_lookup in Hin as [i Hi].
    destruct (Forall2_lookup_r _ _ _ _ _ Hm Hi) as (id & _ & Hv). by rewrite (Hid _ _ Hv). }
  destruct (mgr_securityLists s !! _) as [id|]; [case_decide|]; [|by auto..].
  intros Hv. by rewrite (Hid _ _ Hv).
Qed.

Lemma mapM_view_fmap {A B C} (f : B → C) (view : A → option B) (view' : A → option C) ids :
  (∀ id, view' id = f <$> view id) → mapM view' ids = fmap f <$> mapM view ids.
Proof.
  intros Hv. induction ids as [|id ids IH]; [done|]. simpl. rewrite Hv, IH.
  destruct (view id); [|done]. by destruct (mapM view ids).
Qed.

(** Rewriting rules keeps the choice of the list. *)
Lemma managed_list_fmap s subnet (view view' : string → option SecurityList) f :
  (∀ id, view' id = f <$> view id) → (∀ sl, sl_TimeCreated (f sl) = sl_TimeCreated sl) →
  managed_list s subnet view' = f <$> managed_list s subnet view.
Proof.
  intros Hv Hf. unfold managed_list.
  assert (mapM view' (subnet_SecurityListIds subnet)
    = fmap f <$> mapM view (subnet_SecurityListIds subnet)) as Hm by by apply mapM_view_fmap.
  rewrite Hm. set (less := λ a b : SecurityList, _).
  assert (∀ sls, head (Slice less (f <$> sls)) = f <$> head (Slice less sls)) as Hh.
  { intros sls. rewrite <-(Slice_fmap f less less).
    - by destruct (Slice less sls).
    - intros a b. unfold less. by rewrite !Hf. }
  destruct (mapM view _) as [sls|]; csimpl;
    (destruct (mgr_securityLists s !! _) as [id|]; [case_decide|]); by rewrite ?Hh, ?Hv.
Qed.

(** The loop body shared by the two update loops. *)
Definition reconcile_body (s : baseSecurityListManager)
    (newIng : SecurityList → list IngressSecurityRule)
    (newEg : SecurityList → list EgressSecurityRule)
    (get_msg upd_msg : string) (subnet : Subnet) : M W () :=
  '(secList, etag) ← wrapM (getSecurityList s subnet) get_msg [subnet_Id subnet];
  if negb (securityListRulesChanged secList (newIng secList) (newEg secList)) then mret ()
  else wrapM (UpdateSecurityList (sl_Id secList) etag (newIng secList) (newEg secList))
         upd_msg [sl_Id secList; subnet_Id subnet].

(** A successful turn replaces one list by one that holds the new rules. *)
Lemma reconcile_body_spec s newIng newEg m1 m2 subnet w w' :
  reconcile_body s newIng newEg m1 m2 subnet w = (Ret (), w') →
  ∃ sl f, managed_list s subnet (seclist w) = Some sl ∧
    (∀ id, seclist w' id = f <$> seclist w id) ∧
    (∀ sl', sl_TimeCreated (f sl') = sl_TimeCreated sl') ∧
    (∀ sl', sl_Id sl' ≠ sl_Id sl → f sl' = sl') ∧
    newIng sl ⊆ sl_IngressSecurityRules (f sl) ∧ newEg sl ⊆ sl_EgressSecurityRules (f sl).
Proof.
  intros Hr. apply M_bind_Ret_inv in Hr as ([sl etag] & w1 & Hg & Hr).
  apply wrapM_Ret_inv, getSecurityList_spec in Hg as [Hm Hv]. exists sl.
  destruct (securityListRulesChanged _ _ _) eqn:Hc; simpl in Hr.
  - apply wrapM_Ret_inv, UpdateSecurityList_law in Hr as (sl0 & Hs0 & Hu).
    exists (λ sl', if decide (sl_Id sl' = sl_Id sl)
                   then with_rules sl' (newIng sl) (newEg sl) else sl').
    rewrite decide_True by done. split_and!; try done.
    + intros id. rewrite Hu, Hv in *. case_decide as Hid.
      * subst id. rewrite Hs0. simpl. by rewrite decide_True by (by apply (seclist_id w)).
      * destruct (seclist w id) as [sl'|] eqn:E; [|done]. simpl.
        rewrite (seclist_id _ _ _ E). by rewrite decide_False.
    + intros. by case_decide.
    + intros. by rewrite decide_False.
  - injection Hr as <-. exists id. apply securityListRulesChanged_false in Hc as [[_ ?] [_ ?]].
    split_and!; try done. intros id. rewrite Hv. by destruct (seclist w id).
Qed.

(** A successful loop leaves every subnet's list holding the new rules. *)
Lemma reconcile_loop s newIng newEg m1 m2 subnets w w' (Cov : SecurityList → Prop) :
  (∀ sl sl', newIng sl ⊆ sl_IngressSecurityRules sl' → newEg sl ⊆ sl_EgressSecurityRules sl' →
     Cov sl') →
  forM subnets (reconcile_body s newIng newEg m1 m2) w = (Ret (), w') →
  ∀ x, x ∈ subnets → ∃ sl, managed_list s x (seclist w') = Some sl ∧ Cov sl.
Proof.
  intros HCov. apply (forM_establishes (λ x w, ∃ sl, managed_list s x (seclist w) = Some sl ∧ Cov sl)).
  - clear w w'. intros x w w' _ (sl & f & Hm & Hv & Ht & _ & Hi & He)%reconcile_body_spec.
    exists (f sl). rewrite (managed_list_fmap _ _ _ _ _ Hv Ht), Hm. eauto.
  - clear w w'. intros x y w w' _ _ (sl0 & Hm0 & Hc0)
      (sl & f & Hm & Hv & Ht & Hne & Hi & He)%reconcile_body_spec.
    exists (f sl0). rewrite (managed_list_fmap _ _ _ _ _ Hv Ht), Hm0. split; [done|].
    destruct (decide (sl_Id sl0 = sl_Id sl)) as [Hid|Hid]; [|by rewrite Hne].
    apply (managed_list_view _ _ _ _ (seclist_id w)) in Hm, Hm0.
    assert (sl0 = sl) as -> by congruence. eauto.
Qed.


(** ** What a successful update establishes *)

Lemma sources_on_mono port l l' : l ⊆ l' → sources_on port l ⊆ sources_on port l'.
Proof. intros Hl c. rewrite !elem_of_sources_on. naive_solver. Qed.

Lemma destinations_on_mono port l l' : l ⊆ l' → destinations_on port l ⊆ destinations_on port l'.
Proof.
  intros Hl c. unfold destinations_on. rewrite !list_elem_of_fmap.
  setoid_rewrite list_elem_of_filter. naive_solver.
Qed.

(** The load balancer side of a security list lets the service's traffic in and
    the traffic to the nodes out. *)
Definition lb_list_open (sc : securityRuleComponents) (nodeSubnets : list Subnet)
    (sl : SecurityList) : Prop :=
  let ports := sc_desiredPorts sc in
  (ListenerPort ports ≠ 0%Z →
     sc_sourceCIDRs sc ⊆ sources_on (ListenerPort ports) (sl_IngressSecurityRules sl)) ∧
  ∀ c, c ∈ subnets_cidrs (sc_ipFamilies sc) nodeSubnets →
    c ∈ destinations_on (BackendPort ports) (sl_EgressSecurityRules sl) ∧
    c ∈ destinations_on (HealthCheckerPort ports) (sl_EgressSecurityRules sl).

(** The node side of a security list lets the load balancer's traffic in. *)
Definition node_list_open (sc : securityRuleComponents) (sl : SecurityList) : Prop :=
  let ports := sc_desiredPorts sc in
  (BackendPort ports ≠ 0%Z → ∀ c,
     c ∈ subnets_cidrs (sc_ipFamilies sc) (sc_lbSubnets sc)
       ∨ sc_isPreserveSource sc = true ∧ c ∈ sc_sourceCIDRs sc →
     c ∈ sources_on (BackendPort ports) (sl_IngressSecurityRules sl)) ∧
  (HealthCheckerPort ports ≠ 0%Z → ∀ c,
     c ∈ subnets_cidrs (sc_ipFamilies sc) (sc_lbSubnets sc) →
     c ∈ sources_on (HealthCheckerPort ports) (sl_IngressSecurityRules sl)).

(** The backend port is not the health check port the service is leaving, which
    the second egress pass closes. *)
Definition ports_disjoint (actual : option portSpec) (desired : portSpec) : Prop :=
  BackendPort desired = HealthCheckerPort desired ∨
  BackendPort desired ≠ from_option HealthCheckerPort 0%Z actual.

Lemma updateLoadBalancerRules_open s sc nodeSubnets w w' :
  ports_disjoint (sc_actualPorts sc) (sc_desiredPorts sc) →
  updateLoadBalancerRules s (sc_lbSubnets sc) nodeSubnets (sc_sourceCIDRs sc)
    (sc_actualPorts sc) (sc_desiredPorts sc) (sc_ipFamilies sc) w = (Ret (), w') →
  ∀ x, x ∈ sc_lbSubnets sc →
    ∃ sl, managed_list s x (seclist w') = Some sl ∧ lb_list_open sc nodeSubnets sl.
Proof.
  intros Hp. apply (reconcile_loop s
    (λ sl, lb_ingress_rules s sl (sc_sourceCIDRs sc) (sc_desiredPorts sc))
    (λ sl, lb_egress_rules s sl nodeSubnets (sc_actualPorts sc) (sc_desiredPorts sc) (sc_ipFamilies sc))).
  intros sl sl' Hi He. split.
  - intros Hl c Hc. eapply sources_on_mono; [exact Hi|]. unfold lb_ingress_rules.
    rewrite decide_True by done. by apply lb_ingress_covers.
  - intros c Hc. split; (eapply destinations_on_mono; [exact He|]); unfold lb_egress_rules.
    + by apply lb_egress_second_pass.
    + by apply lb_egress_covers.
Qed.

Lemma updateBackendRules_open s sc w w' :
  updateBackendRules s (sc_lbSubnets sc) (sc_backendSubnets sc) (sc_actualPorts sc)
    (sc_desiredPorts sc) (sc_sourceCIDRs sc) (sc_isPreserveSource sc) (sc_ipFamilies sc) w
  = (Ret (), w') →
  ∀ x, x ∈ sc_backendSubnets sc →
    ∃ sl, managed_list s x (seclist w') = Some sl ∧ node_list_open sc sl.
Proof.
  apply (reconcile_loop s
    (λ sl, getNodeIngressRules (sl_IngressSecurityRules sl) (sc_lbSubnets sc) (sc_actualPorts sc)
       (sc_desiredPorts sc) (mgr_serviceLister s) (sc_sourceCIDRs sc) (sc_isPreserveSource sc)
       (sc_ipFamilies sc)) sl_EgressSecurityRules).
  intros sl sl' Hi _.
  destruct (node_ingress_covers (sl_IngressSecurityRules sl) (sc_lbSubnets sc) (sc_actualPorts sc)
       (sc_desiredPorts sc) (mgr_serviceLister s) (sc_sourceCIDRs sc) (sc_isPreserveSource sc)
       (sc_ipFamilies sc)) as [HB HH].
  split; intros Hp c Hc; (eapply sources_on_mono; [exact Hi|]); auto.
Qed.


(** A loop keeps what every turn's new rules imply. *)
Lemma reconcile_loop_keeps s newIng newEg m1 m2 subnets w w' (Cov : SecurityList → Prop) x :
  (∀ sl sl', Cov sl → newIng sl ⊆ sl_IngressSecurityRules sl' →
     newEg sl ⊆ sl_EgressSecurityRules sl' → Cov sl') →
  (∃ sl, managed_list s x (seclist w) = Some sl ∧ Cov sl) →
  forM subnets (reconcile_body s newIng newEg m1 m2) w = (Ret (), w') →
  ∃ sl, managed_list s x (seclist w') = Some sl ∧ Cov sl.
Proof.
  intros HCov. apply (forM_keeps (λ w, ∃ sl, managed_list s x (seclist w) = Some sl ∧ Cov sl)).
  clear w w'. intros y w w' _ (sl0 & Hm0 & Hc0)
    (sl & f & Hm & Hv & Ht & Hne & Hi & He)%reconcile_body_spec.
  exists (f sl0). rewrite (managed_list_fmap _ _ _ _ _ Hv Ht), Hm0. split; [done|].
  destruct (decide (sl_Id sl0 = sl_Id sl)) as [Hid|Hid]; [|by rewrite Hne].
  apply (managed_list_view _ _ _ _ (seclist_id w)) in Hm, Hm0.
  assert (sl0 = sl) as -> by congruence. eauto.
Qed.

(** The listener port is none of the ports of the nodes, present or past. *)
Definition listener_port_apart (actual : option portSpec) (desired : portSpec) : Prop :=
  ListenerPort desired ≠ BackendPort desired ∧ ListenerPort desired ≠ HealthCheckerPort desired ∧
  ListenerPort desired ≠ from_option BackendPort 0%Z actual ∧
  ListenerPort desired ≠ from_option HealthCheckerPort 0%Z actual.

Lemma listener_rule_foreign actual desired r :
  listener_port_apart actual desired →
  tcp_applies (ir_TcpOptions r) (ListenerPort desired) = true →
  foreign (node_old actual desired) (node_targets desired) r.
Proof.
  intros (HB & HH & HaB & HaH) Ha. split.
  - unfold node_old. apply tcp_applies_spec in Ha as ([d sp] & -> & _ & Hd).
    simpl in *. subst d. simpl. by repeat case_bool_decide.
  - unfold node_targets.
    assert (∀ p, ListenerPort desired ≠ p → tcp_applies (ir_TcpOptions r) p = false) as Hn.
    { intros p Hne. apply not_true_iff_false. intros E. by pose proof (tcp_applies_inj _ _ _ Ha E). }
    by rewrite !Hn.
Qed.

Lemma updateBackendRules_keeps s sc nodeSubnets w w' x :
  listener_port_apart (sc_actualPorts sc) (sc_desiredPorts sc) →
  (∃ sl, managed_list s x (seclist w) = Some sl ∧ lb_list_open sc nodeSubnets sl) →
  updateBackendRules s (sc_lbSubnets sc) (sc_backendSubnets sc) (sc_actualPorts sc)
    (sc_desiredPorts sc) (sc_sourceCIDRs sc) (sc_isPreserveSource sc) (sc_ipFamilies sc) w
  = (Ret (), w') →
  ∃ sl, managed_list s x (seclist w') = Some sl ∧ lb_list_open sc nodeSubnets sl.
Proof.
  intros Hap. apply (reconcile_loop_keeps s
    (λ sl, getNodeIngressRules (sl_IngressSecurityRules sl) (sc_lbSubnets sc) (sc_actualPorts sc)
       (sc_desiredPorts sc) (mgr_serviceLister s) (sc_sourceCIDRs sc) (sc_isPreserveSource sc)
       (sc_ipFamilies sc)) sl_EgressSecurityRules).
  intros sl sl' [Hin Hout] Hi He. split.
  - intros Hl c (r & Hr & Ha & <-)%(Hin Hl)%elem_of_sources_on.
    apply elem_of_sources_on. exists r. split_and!; [|done..]. apply Hi.
    pose proof (listener_rule_foreign _ _ r Hap Ha) as Hf.
    assert (r ∈ filter (foreign (node_old (sc_actualPorts sc) (sc_desiredPorts sc))
      (node_targets (sc_desiredPorts sc))) (sl_IngressSecurityRules sl)) as Hr'
      by by apply list_elem_of_filter.
    rewrite <-(node_ingress_frame _ (sc_lbSubnets sc) (sc_actualPorts sc)
       (sc_desiredPorts sc) (mgr_serviceLister s) (sc_sourceCIDRs sc) (sc_isPreserveSource sc)
       (sc_ipFamilies sc)) in Hr'.
    by apply list_elem_of_filter in Hr' as [_ ?].
  - intros c Hc. destruct (Hout c Hc). split; by eapply destinations_on_mono.
Qed.

(** C3: a successful [Update] of the default manager leaves
    every security list it manages open for the service: the lists of the load
    balancer subnets admit the source ranges on the listener port and let
    traffic out to every node CIDR on the backend and health check ports; the
    lists of the node subnets admit the load balancer on both ports.  This holds
    also when load balancer and nodes share lists, provided the listener port is
    none of the node ports and the backend port is not the old health check
    port.  The frontend manager establishes the first part without nodes. *)
Theorem manager_Update_opens m sc w w' :
  ports_disjoint (sc_actualPorts sc) (sc_desiredPorts sc) →
  listener_port_apart (sc_actualPorts sc) (sc_desiredPorts sc) →
  manager_Update m sc w = (Ret (), w') →
  match m with
  | defaultSecurityListManager s =>
      (∀ x, x ∈ sc_lbSubnets sc → ∃ sl, managed_list s x (seclist w') = Some sl
         ∧ lb_list_open sc (sc_backendSubnets sc) sl) ∧
      (∀ x, x ∈ sc_backendSubnets sc → ∃ sl, managed_list s x (seclist w') = Some sl
         ∧ node_list_open sc sl)
  | frontendSecurityListManager s =>
      ∀ x, x ∈ sc_lbSubnets sc → ∃ sl, managed_list s x (seclist w') = Some sl
         ∧ lb_list_open sc [] sl
  | securityListManagerNOOP => w' = w
  end.
Proof.
  intros Hd Ha Hr. destruct m as [s|s|]; simpl in Hr.
  - apply M_bind_Ret_inv in Hr as ([] & w1 & H1 & H2). split.
    + intros x Hx. eapply updateBackendRules_keeps; [done| |exact H2].
      by eapply updateLoadBalancerRules_open.
    + by eapply updateBackendRules_open.
  - by eapply updateLoadBalancerRules_open.
  - by injection Hr.
Qed.

End laws.

(** ** A networking service in memory *)

Definition memory_lookup (w : gmap string SecurityList) (id : string) : option SecurityList :=
  sl ← w !! id; if decide (sl_Id sl = id) then Some sl else None.

Global Instance memory_client : SecurityListClient (gmap string SecurityList) := {|
  GetSecurityList id w :=
    (match memory_lookup w id with Some sl => Ret (sl, Some "etag") | None => Err NotFoundErr end, w);
  UpdateSecurityList id _ ing eg w :=
    match memory_lookup w id with
    | Some sl => (Ret (), <[id := with_rules sl ing eg]> w)
    | None => (Err NotFoundErr, w)
    end;
|}.

Global Program Instance memory_laws : SecurityListLaws (gmap string SecurityList) := {|
  seclist := memory_lookup;
|}.
Next Obligation.
  intros w id sl. unfold memory_lookup. destruct (w !! id); simpl; [|done].
  case_decide; [|done]. by intros [= <-].
Qed.
Next Obligation.
  intros id w sl etag w'. simpl. destruct (memory_lookup w id) as [sl0|] eqn:E; [|done].
  by intros [= -> <- <-].
Qed.
Next Obligation.
  intros id etag ing eg w w'. simpl. destruct (memory_lookup w id) as [sl|] eqn:E; [|done].
  intros [= <-]. exists sl. split; [done|]. intros id'. unfold memory_lookup in *.
  case_decide as Hid.
  - subst id'. rewrite lookup_insert_eq. destruct (w !! id) as [sl0|]; simpl in *; [|done].
    case_decide as H0; [|done]. injection E as ->. simpl. by rewrite decide_True.
  - by rewrite lookup_insert_ne.
Qed.

Definition example_subnet (id cidr list_id : string) : Subnet :=
  {| subnet_Id := id; subnet_CidrBlock := Some cidr; subnet_Ipv6CidrBlock := None;
     subnet_Ipv6CidrBlocks := None; subnet_SecurityListIds := [list_id] |}.

Definition example_components : securityRuleComponents := {|
  sc_frontendNsgOcid := ""; sc_backendNsgOcids := []; sc_ports := ∅;
  sc_sourceCIDRs := ["0.0.0.0/0"]; sc_isPreserveSource := false; sc_serviceUid := "uid";
  sc_lbSubnets := [example_subnet "lb" "10.0.0.0/24" "sl-lb"];
  sc_backendSubnets := [example_subnet "nodes" "10.0.1.0/24" "sl-nodes"];
  sc_actualPorts := None;
  sc_desiredPorts := {| ListenerPort := 80; BackendPort := 30080; HealthCheckerPort := 10256 |};
  sc_ipFamilies := [IPv4] |}.

Definition example_world : gmap string SecurityList :=
  <["sl-lb" := {| sl_Id := "sl-lb"; sl_IngressSecurityRules := []; sl_EgressSecurityRules := [];
                  sl_TimeCreated := 1 |}]>
  {["sl-nodes" := {| sl_Id := "sl-nodes"; sl_IngressSecurityRules := [];
                     sl_EgressSecurityRules := []; sl_TimeCreated := 1 |}]}.

Definition example_manager : baseSecurityListManager :=
  {| mgr_securityLists := ∅; mgr_serviceLister := inr [] |}.

Lemma manager_Update_opens_witness :
  let w' := (manager_Update (defaultSecurityListManager example_manager) example_components
               example_world).2 in
  ∃ sl, managed_list example_manager (example_subnet "lb" "10.0.0.0/24" "sl-lb") (seclist w')
        = Some sl ∧ lb_list_open example_components (sc_backendSubnets example_components) sl.
Proof.
  intros w'.
  refine (proj1 (manager_Update_opens (defaultSecurityListManager example_manager)
    example_components example_world w' _ _ _) _ _).
  - right. by vm_compute.
  - unfold listener_port_apart. simpl. lia.
  - by vm_compute.
  - by left.
Defined.
