(* ===== verification/NetworkSecurityGroups.v ===== *)
(** * Network security groups (load_balancer_network_security_group.go)

    The rules the controller generates for the frontend and backend network
    security groups of a service, their comparison with the rules that exist,
    and the calls that bring a group up to date.  Rules of a service are those
    whose description is the service's UID. *)
From stdpp Require Import base tactics list gmap sets strings.
From S2P Require Import Prelude GoStrings Types.

Definition SecurityRuleDirectionIngress : string := "INGRESS".
Definition SecurityRuleDirectionEgress : string := "EGRESS".
Definition SecurityRuleSourceTypeCidrBlock : string := "CIDR_BLOCK".
Definition SecurityRuleSourceTypeNetworkSecurityGroup : string := "NETWORK_SECURITY_GROUP".

(** [core.AddSecurityRuleDetails]. *)
Record AddSecurityRuleDetails := {
  ar_Direction : string;
  ar_Protocol : option string;
  ar_Description : option string;
  ar_Destination : option string;
  ar_DestinationType : string;
  ar_IcmpOptions : option IcmpOptions;
  ar_IsStateless : option bool;
  ar_Source : option string;
  ar_SourceType : string;
  ar_TcpOptions : option TcpOptions;
  ar_UdpOptions : option TcpOptions;
}.

(** ** Generated rules *)

Definition makeNsgSecurityRule (direction source serviceUid : string) (port : Z)
    (sourceType : string) : SecurityRule :=
  let egress := bool_decide (direction = SecurityRuleDirectionEgress) in {|
  nr_Direction := if egress then SecurityRuleDirectionEgress else SecurityRuleDirectionIngress;
  nr_Protocol := Some (Itoa ProtocolTCP);
  nr_Description := Some serviceUid;
  nr_Destination := if egress then Some source else None;
  nr_DestinationType := if egress then sourceType else "";
  nr_IcmpOptions := None;
  nr_Id := None;
  nr_IsStateless := Some false;
  nr_IsValid := None;
  nr_Source := if egress then None else Some source;
  nr_SourceType := if egress then "" else sourceType;
  nr_TcpOptions := Some {|
    tcp_DestinationPortRange := Some {| pr_Min := port; pr_Max := port |};
    tcp_SourcePortRange := None |};
  nr_UdpOptions := None;
|}.

(** The loop over the ports of the two generators that emit the health check
    rules only for the first port that has one ([healthCheckPortFound]). *)
Fixpoint generate_for_ports (rules : Z → list SecurityRule) (healthCheckPortFound : bool)
    (ports : list portSpec) : list SecurityRule :=
  match ports with
  | [] => []
  | port :: ports' =>
      let hc := negb healthCheckPortFound && bool_decide (HealthCheckerPort port ≠ 0%Z) in
      (if decide (BackendPort port ≠ 0%Z) then rules (BackendPort port) else [])
      ++ (if hc then rules (HealthCheckerPort port) else [])
      ++ generate_for_ports rules (healthCheckPortFound || hc) ports'
  end.

Section generate.
Context `{MapRange}.

(** [site] labels the [range] statements of this call. *)
Definition generateNsgBackendIngressRules (site : nat) (ports : gmap string portSpec)
    (sourceCIDRs : list string) (isPreserveSource : bool) (frontendNsgId serviceUid : string)
    : list SecurityRule :=
  (if isPreserveSource then
     (range site ports).*2 ≫= λ port,
       if decide (BackendPort port ≠ 0%Z) then
         (λ sourceCIDR, makeNsgSecurityRule SecurityRuleDirectionIngress sourceCIDR serviceUid
            (BackendPort port) SecurityRuleSourceTypeCidrBlock) <$> sourceCIDRs
       else []
   else [])
  ++ generate_for_ports
       (λ port, [makeNsgSecurityRule SecurityRuleDirectionIngress frontendNsgId serviceUid port
                   SecurityRuleSourceTypeNetworkSecurityGroup])
       false (range (S site) ports).*2.

Definition generateNsgLoadBalancerIngressRules (site : nat) (sourceCIDRs : list string)
    (ports : gmap string portSpec) (serviceUid : string) : list SecurityRule :=
  if decide (length sourceCIDRs = 0) then []
  else (range site ports).*2 ≫= λ port,
    if decide (ListenerPort port ≠ 0%Z) then
      (λ cidr, makeNsgSecurityRule SecurityRuleDirectionIngress cidr serviceUid
         (ListenerPort port) SecurityRuleSourceTypeCidrBlock) <$> sourceCIDRs
    else [].

Definition generateNsgLoadBalancerEgressRules (site : nat) (ports : gmap string portSpec)
    (backendNsgIds : list string) (serviceUid : string) : list SecurityRule :=
  if decide (length backendNsgIds = 0) then []
  else generate_for_ports
         (λ port, (λ backendNsgId, makeNsgSecurityRule SecurityRuleDirectionEgress backendNsgId
                     serviceUid port SecurityRuleSourceTypeNetworkSecurityGroup) <$> backendNsgIds)
         false (range site ports).*2.

End generate.

(** ** Comparing rules *)

(** The body of the loop of [findSecurityRule]. *)
Definition rule_matches (existingRule rule : SecurityRule) : bool :=
  EqualFold (string_or_empty (nr_Description existingRule)) (string_or_empty (nr_Description rule))
  && EqualFold (string_or_empty (nr_Protocol existingRule)) (string_or_empty (nr_Protocol rule))
  && EqualFold (string_or_empty (nr_Source existingRule)) (string_or_empty (nr_Source rule))
  && bool_decide (nr_SourceType existingRule = nr_SourceType rule)
  && EqualFold (string_or_empty (nr_Destination existingRule)) (string_or_empty (nr_Destination rule))
  && bool_decide (nr_DestinationType existingRule = nr_DestinationType rule)
  && bool_decide (nr_TcpOptions existingRule = nr_TcpOptions rule)
  && EqualFold (nr_Direction existingRule) (nr_Direction rule).

Definition findSecurityRule (rules : list SecurityRule) (rule : SecurityRule) : bool :=
  existsb (λ existingRule, rule_matches existingRule rule) rules.

(** The rules to add and the ids of the rules to remove; an existing rule
    without an id panics when it is to be removed. *)
Definition reconcileSecurityRules (generatedSecurityRules existingSecurityRules : list SecurityRule)
    : outcome (list SecurityRule * list string) :=
  removeRules ← mapM (λ r, deref (nr_Id r))
    (filter (λ r, findSecurityRule generatedSecurityRules r = false) existingSecurityRules);
  mret (filter (λ r, findSecurityRule existingSecurityRules r = false) generatedSecurityRules,
        removeRules).

Definition rule_of_service (serviceUid : string) (rule : SecurityRule) : Prop :=
  nr_Description rule = Some serviceUid.
Global Instance rule_of_service_dec uid r : Decision (rule_of_service uid r) :=
  decide (nr_Description r = Some uid).

Definition filterSecurityRulesForService (rules : list SecurityRule) (serviceUid : string)
    : list SecurityRule := filter (rule_of_service serviceUid) rules.

Definition filterSecurityRulesIdsForService (rules : list SecurityRule) (serviceUid : string)
    : outcome (list string) :=
  mapM (λ r, deref (nr_Id r)) (filter (rule_of_service serviceUid) rules).

(** ** Batches *)

Definition batchSize : nat := 25.

(** [for batchSize < len(rules) { ... }]: every turn consumes [batchSize] rules,
    so the length of the list is enough fuel. *)
Fixpoint split_batches {A} (fuel : nat) (rules : list A) : list (list A) :=
  match fuel with
  | O => [rules]
  | S fuel' =>
      if decide (batchSize < length rules)
      then take batchSize rules :: split_batches fuel' (drop batchSize rules)
      else [rules]
  end.

Definition splitRulesIntoBatches (rules : list SecurityRule) : list (list SecurityRule) :=
  split_batches (length rules) rules.
Definition splitRuleIdsIntoBatches (rules : list string) : list (list string) :=
  split_batches (length rules) rules.

Definition rule_details (r : SecurityRule) : AddSecurityRuleDetails := {|
  ar_Direction := nr_Direction r; ar_Protocol := nr_Protocol r;
  ar_Description := nr_Description r; ar_Destination := nr_Destination r;
  ar_DestinationType := nr_DestinationType r; ar_IcmpOptions := nr_IcmpOptions r;
  ar_IsStateless := nr_IsStateless r; ar_Source := nr_Source r;
  ar_SourceType := nr_SourceType r; ar_TcpOptions := nr_TcpOptions r;
  ar_UdpOptions := nr_UdpOptions r |}.

Definition securityRuleToAddSecurityRuleDetails (securityRules : list SecurityRule)
    : list AddSecurityRuleDetails := rule_details <$> securityRules.

(** ** Calls to the networking service *)

(** [core.NetworkSecurityGroup], the fields the code reads; the tags may be nil. *)
Record NetworkSecurityGroup := {
  nsg_Id : option string;
  nsg_FreeformTags : option (gmap string string);
}.

(** [GetNetworkSecurityGroup] answers the group and its etag. *)
Class NsgClient (W : Type) := {
  GetNetworkSecurityGroup : string → M W (NetworkSecurityGroup * option string);
  ListNetworkSecurityGroupSecurityRules : string → string → M W (list SecurityRule);
  AddNetworkSecurityGroupSecurityRules : string → list AddSecurityRuleDetails → M W ();
  RemoveNetworkSecurityGroupSecurityRules : string → list string → M W ();
}.

Section calls.
Context {W : Type} `{!NsgClient W, !MapRange}.

Definition getNsg (id : string) : M W NetworkSecurityGroup :=
  if decide (id = "") then fail (Errorf "invalid; empty nsg id provided" [])
  else '(response, _) ← wrapM (GetNetworkSecurityGroup id) "failed to get nsg with id %s" [id];
       mret response.

(** [*nsg.Id] of the group that [getNsg] answers. *)
Definition getNsgId (id : string) : M W string := nsg ← getNsg id; lift (deref (nsg_Id nsg)).

Definition listNsgRules (id direction : string) : M W (list SecurityRule) :=
  if decide (id = "") then fail (Errorf "invalid; empty nsg id provided" [])
  else wrapM (ListNetworkSecurityGroupSecurityRules id direction)
         "failed to list Security Rules for nsg: %s" [id].

Definition addNetworkSecurityGroupSecurityRules (nsgId : string) (rules : list SecurityRule) : M W () :=
  forM (splitRulesIntoBatches rules) (λ batch,
    wrapM (AddNetworkSecurityGroupSecurityRules nsgId (securityRuleToAddSecurityRuleDetails batch))
      "failed to add security rules for nsg: %s" [nsgId]).

Definition removeNetworkSecurityGroupSecurityRules (nsgId : string) (ids : list string) : M W () :=
  forM (splitRuleIdsIntoBatches ids) (λ batch,
    wrapM (RemoveNetworkSecurityGroupSecurityRules nsgId batch)
      "failed to remove security rules for nsg: %s" [nsgId]).

(** [if len(add) > 0 { add }; if len(remove) > 0 { remove }]. *)
Definition apply_rule_changes (nsgId : string) (addRules : list SecurityRule)
    (removeRules : list string) : M W () :=
  _ ← (if decide (0 < length addRules)
       then addNetworkSecurityGroupSecurityRules nsgId addRules else mret ());
  if decide (0 < length removeRules)
  then removeNetworkSecurityGroupSecurityRules nsgId removeRules else mret ().

(** The turn of the loop over the backend groups; [i] is the index of the turn,
    whose two [range] statements are labelled by [backend_site i]. *)
Definition backend_site (i : nat) : nat := 2 + 2 * i.

Definition reconcile_backend_nsg (lbservice : securityRuleComponents) (i : nat) (nsg : string)
    : M W () :=
  _ ← getNsg nsg;
  existingBackendIngressSecurityRules ← listNsgRules nsg SecurityRuleDirectionIngress;
  let generatedBackendIngressRules :=
    generateNsgBackendIngressRules (backend_site i) (sc_ports lbservice) (sc_sourceCIDRs lbservice)
      (sc_isPreserveSource lbservice) (sc_frontendNsgOcid lbservice) (sc_serviceUid lbservice) in
  '(addBackendIngressRules, removeBackendIngressRules) ←
    lift (reconcileSecurityRules generatedBackendIngressRules
      (filterSecurityRulesForService existingBackendIngressSecurityRules (sc_serviceUid lbservice)));
  apply_rule_changes nsg addBackendIngressRules removeBackendIngressRules.

Definition reconcileSecurityGroup (lbservice : securityRuleComponents) : M W () :=
  frontendNsg ← getNsgId (sc_frontendNsgOcid lbservice);
  existingLbIngressSecurityRules ← listNsgRules frontendNsg SecurityRuleDirectionIngress;
  let generatedLbIngressRules :=
    generateNsgLoadBalancerIngressRules 0 (sc_sourceCIDRs lbservice) (sc_ports lbservice)
      (sc_serviceUid lbservice) in
  '(addLbIngressRules, removeLbIngressRules) ←
    lift (reconcileSecurityRules generatedLbIngressRules
      (filterSecurityRulesForService existingLbIngressSecurityRules (sc_serviceUid lbservice)));
  existingLbEgressSecurityRules ← listNsgRules frontendNsg SecurityRuleDirectionEgress;
  let generatedLbEgressSecurityRules :=
    generateNsgLoadBalancerEgressRules 1 (sc_ports lbservice) (sc_backendNsgOcids lbservice)
      (sc_serviceUid lbservice) in
  '(addLbEgressRules, removeLbEgressRules) ←
    lift (reconcileSecurityRules generatedLbEgressSecurityRules
      (filterSecurityRulesForService existingLbEgressSecurityRules (sc_serviceUid lbservice)));
  _ ← apply_rule_changes frontendNsg (addLbIngressRules ++ addLbEgressRules)
        (removeLbIngressRules ++ removeLbEgressRules);
  forM (imap pair (sc_backendNsgOcids lbservice)) (λ '(i, nsg),
    reconcile_backend_nsg lbservice i nsg).

Definition removeBackendSecurityGroupRules (lbservice : securityRuleComponents) : M W () :=
  forM (sc_backendNsgOcids lbservice) (λ backendNsg,
    nsg ← getNsgId backendNsg;
    existingBackendIngressSecurityRules ← listNsgRules nsg SecurityRuleDirectionIngress;
    deleteNsgIngressBackendRules ←
      lift (filterSecurityRulesIdsForService existingBackendIngressSecurityRules
              (sc_serviceUid lbservice));
    if decide (0 < length deleteNsgIngressBackendRules)
    then removeNetworkSecurityGroupSecurityRules nsg deleteNsgIngressBackendRules
    else mret ()).

End calls.

(** ** What the calls promise *)

(** [nsg_rules w id] are the rules of group [id] in the state [w].  Rules on the
    server have unique ids; added rules carry the given details under fresh ids;
    removal removes exactly the rules with the given ids.  The order of the
    rules of a group is not specified. *)
Class NsgLaws (W : Type) `{!NsgClient W} := {
  nsg_rules : W → string → list SecurityRule;
  nsg_ids : ∀ w id, Forall (λ r, is_Some (nr_Id r)) (nsg_rules w id) ∧
                    NoDup (nr_Id <$> nsg_rules w id);
  GetNsg_law : ∀ id w g etag w', GetNetworkSecurityGroup id w = (Ret (g, etag), w') →
    nsg_Id g = Some id ∧ ∀ i, nsg_rules w' i = nsg_rules w i;
  ListNsg_law : ∀ id dir w rs w', ListNetworkSecurityGroupSecurityRules id dir w = (Ret rs, w') →
    rs = filter (λ r, nr_Direction r = dir) (nsg_rules w id) ∧
    ∀ i, nsg_rules w' i = nsg_rules w i;
  AddNsg_law : ∀ id ds w w', AddNetworkSecurityGroupSecurityRules id ds w = (Ret (), w') →
    (∃ new, rule_details <$> new = ds ∧ nsg_rules w' id ≡ₚ nsg_rules w id ++ new) ∧
    ∀ i, i ≠ id → nsg_rules w' i = nsg_rules w i;
  RemoveNsg_law : ∀ id ids w w', RemoveNetworkSecurityGroupSecurityRules id ids w = (Ret (), w') →
    nsg_rules w' id ≡ₚ filter (λ r, nr_Id r ∉ Some <$> ids) (nsg_rules w id) ∧
    ∀ i, i ≠ id → nsg_rules w' i = nsg_rules w i;
}.

(** The rules of a service in one direction. *)
Definition service_rules (uid dir : string) (rules : list SecurityRule) : list SecurityRule :=
  filterSecurityRulesForService (filter (λ r, nr_Direction r = dir) rules) uid.

(** Abstract specification: the existing rules and the generated rules are the
    same up to the comparison of [findSecurityRule]. *)
Definition rules_agree (gen existing : list SecurityRule) : Prop :=
  (∀ r, r ∈ existing → findSecurityRule gen r = true) ∧
  (∀ g, g ∈ gen → findSecurityRule existing g = true).

Global Instance filter_of_service_proper uid dir : Proper ((≡ₚ) ==> (≡ₚ)) (service_rules uid dir).
Proof.
  intros l l' E. unfold service_rules, filterSecurityRulesForService. by rewrite E.
Qed.

Global Instance rules_agree_proper gen : Proper ((≡ₚ) ==> iff) (rules_agree gen).
Proof.
  assert (∀ l l' g, l ≡ₚ l' → findSecurityRule l g = true → findSecurityRule l' g = true) as Hf.
  { intros l l' g E. unfold findSecurityRule. rewrite !existsb_exists.
    setoid_rewrite <-list_elem_of_In. by setoid_rewrite E. }
  assert (∀ l l', l ≡ₚ l' → rules_agree gen l → rules_agree gen l') as Ha.
  { intros l l' E [H1 H2]. split; [|by eauto]. intros r. rewrite <-E. apply H1. }
  intros l l' E. split; apply Ha; [done|by symmetry].
Qed.

(** ** Lemmas: comparison *)

(** The fields compared, with the strings that are compared ignoring case folded. *)
Definition rule_key (r : SecurityRule) :=
  (fold_case (string_or_empty (nr_Description r)), fold_case (string_or_empty (nr_Protocol r)),
   fold_case (string_or_empty (nr_Source r)), nr_SourceType r,
   fold_case (string_or_empty (nr_Destination r)), nr_DestinationType r,
   nr_TcpOptions r, fold_case (nr_Direction r)).

Lemma rule_matches_key a b : rule_matches a b = true ↔ rule_key a = rule_key b.
Proof.
  unfold rule_matches, rule_key, EqualFold. rewrite !andb_true_iff, !bool_decide_eq_true.
  rewrite !pair_equal_spec. tauto.
Qed.

(** The comparison looks only at what [AddSecurityRuleDetails] carries. *)
Lemma rule_details_key a b : rule_details a = rule_details b → rule_key a = rule_key b.
Proof. intros [=]. unfold rule_key. congruence. Qed.

Lemma findSecurityRule_true rules r :
  findSecurityRule rules r = true ↔ ∃ e, e ∈ rules ∧ rule_key e = rule_key r.
Proof.
  unfold findSecurityRule. rewrite existsb_exists. setoid_rewrite <-list_elem_of_In.
  by setoid_rewrite rule_matches_key.
Qed.

Lemma findSecurityRule_refl rules r : r ∈ rules → findSecurityRule rules r = true.
Proof. intros. apply findSecurityRule_true. eauto. Qed.

(** ** Lemmas: batches *)

Lemma split_batches_concat {A} fuel (l : list A) : concat (split_batches fuel l) = l.
Proof.
  revert l. induction fuel as [|fuel IH]; intros l; simpl; [apply app_nil_r|].
  case_decide; cbn [concat]; [|apply app_nil_r]. by rewrite IH, take_drop.
Qed.

Lemma split_batches_bounds {A} fuel (l : list A) :
  length l ≤ fuel → Forall (λ b, length b ≤ batchSize) (split_batches fuel l).
Proof.
  revert l. induction fuel as [|fuel IH]; intros l Hl; simpl.
  { apply Forall_singleton. unfold batchSize. lia. }
  case_decide; [|apply Forall_singleton; lia].
  constructor; [rewrite length_take; lia|]. apply IH. rewrite length_drop. unfold batchSize. lia.
Qed.

Lemma split_batches_nonempty {A} fuel (l : list A) :
  l ≠ [] → Forall (λ b, b ≠ []) (split_batches fuel l).
Proof.
  revert l. induction fuel as [|fuel IH]; intros l Hl; simpl; [by apply Forall_singleton|].
  case_decide as Hlt; [|by apply Forall_singleton]. unfold batchSize in *.
  constructor; [destruct l; simpl in *; [lia|done]|].
  apply IH. intros E%(f_equal length). rewrite length_drop in E. simpl in E. lia.
Qed.

(** ** Lemmas: computing the changes *)

Lemma mapM_deref_ids (l : list SecurityRule) ids :
  mapM (λ r, deref (nr_Id r)) l = Ret ids → Some <$> ids = nr_Id <$> l.
Proof.
  revert ids. induction l as [|r l IH]; intros ids Hm; simpl in Hm; [by injection Hm as <-|].
  apply bind_Ret_inv in Hm as (i & Hi & Hm). apply bind_Ret_inv in Hm as (ids' & His%IH & Hm).
  injection Hm as <-. destruct (nr_Id r) eqn:E; [|done]. injection Hi as ->.
  csimpl. by rewrite E, His.
Qed.

Lemma mapM_deref_total (l : list SecurityRule) :
  Forall (λ r, is_Some (nr_Id r)) l → ∃ ids, mapM (λ r, deref (nr_Id r)) l = Ret ids.
Proof.
  induction 1 as [|r l [i Hi] _ [ids IH]]; simpl; [by eexists|]. rewrite Hi. simpl.
  rewrite IH. by eexists.
Qed.

Lemma reconcileSecurityRules_spec gen ex add rem :
  reconcileSecurityRules gen ex = Ret (add, rem) →
  add = filter (λ r, findSecurityRule ex r = false) gen ∧
  Some <$> rem = nr_Id <$> filter (λ r, findSecurityRule gen r = false) ex.
Proof.
  intros Hr. apply bind_Ret_inv in Hr as (ids & Hm%mapM_deref_ids & Hr). by injection Hr as <- <-.
Qed.

(** Ids identify rules. *)
Lemma removed_by_id (l sub : list SecurityRule) r :
  NoDup (nr_Id <$> l) → sub ⊆ l → r ∈ l → nr_Id r ∈ nr_Id <$> sub ↔ r ∈ sub.
Proof.
  intros Hnd Hsub Hr. rewrite list_elem_of_fmap. split; [|eauto].
  intros (r' & Hid & Hr'). assert (r = r') as ->; [|done].
  apply list_elem_of_lookup in Hr as [i Hi].
  pose proof (Hsub _ Hr') as [j Hj]%list_elem_of_lookup.
  assert (i = j) as ->; [|congruence].
  eapply NoDup_lookup; [exact Hnd|..]; rewrite list_lookup_fmap; [by rewrite Hi|].
  rewrite Hj. simpl. by rewrite Hid.
Qed.

Lemma list_cons_eq_inv {A} (x y : A) l l' : x :: l = y :: l' → x = y ∧ l = l'.
Proof. by intros [= -> ->]. Qed.

Lemma service_rules_app uid dir l1 l2 :
  service_rules uid dir (l1 ++ l2) = service_rules uid dir l1 ++ service_rules uid dir l2.
Proof. unfold service_rules, filterSecurityRulesForService. by rewrite !filter_app. Qed.

Lemma elem_of_service_rules uid dir l r :
  r ∈ service_rules uid dir l ↔ rule_of_service uid r ∧ nr_Direction r = dir ∧ r ∈ l.
Proof.
  unfold service_rules, filterSecurityRulesForService. by rewrite !list_elem_of_filter.
Qed.

(** Membership in a service and a direction is part of the details. *)
Lemma service_rules_details uid dir l1 l2 :
  rule_details <$> l1 = rule_details <$> l2 →
  rule_details <$> service_rules uid dir l1 = rule_details <$> service_rules uid dir l2.
Proof.
  revert l2. induction l1 as [|a l1 IH]; intros [|b l2] E; try done.
  rewrite !fmap_cons in E. apply list_cons_eq_inv in E as [E1 E%IH].
  change (a :: l1) with ([a] ++ l1). change (b :: l2) with ([b] ++ l2).
  rewrite !service_rules_app, !fmap_app, E. f_equal.
  unfold service_rules, filterSecurityRulesForService, rule_of_service.
  pose proof (f_equal ar_Direction E1) as Ed. pose proof (f_equal ar_Description E1) as Eu.
  simpl in Ed, Eu. rewrite !filter_cons, !filter_nil. rewrite Ed.
  case_decide; [|done]. rewrite !filter_cons, !filter_nil.
  rewrite (decide_ext _ (nr_Description b = Some uid)) by (by rewrite Eu).
  case_decide; [|done]. csimpl. by rewrite E1.
Qed.

(** What the changes computed for one direction establish. *)
Lemma changes_agree uid dir gen ex new (sub : list SecurityRule) :
  (∀ r, r ∈ service_rules uid dir ex → (r ∈ sub ↔ findSecurityRule gen r = false)) →
  rule_details <$> service_rules uid dir new
  = rule_details <$> filter (λ g, findSecurityRule (service_rules uid dir ex) g = false) gen →
  rules_agree gen (service_rules uid dir (filter (λ r, r ∉ sub) ex ++ new)).
Proof.
  intros Hsub Hnew.
  assert (∀ r, r ∈ service_rules uid dir (filter (λ r, r ∉ sub) ex ++ new) ↔
    r ∈ service_rules uid dir ex ∧ findSecurityRule gen r = true ∨ r ∈ service_rules uid dir new) as Hel.
  { intros r. rewrite service_rules_app, elem_of_app.
    rewrite (elem_of_service_rules _ _ (filter _ _)), list_elem_of_filter.
    specialize (Hsub r). rewrite (elem_of_service_rules _ _ ex) in *.
    destruct (findSecurityRule gen r); naive_solver. }
  split.
  - intros r [[_ ?]|Hr]%Hel; [done|]. apply (list_elem_of_fmap_2 rule_details) in Hr.
    rewrite Hnew in Hr. apply list_elem_of_fmap in Hr as (g & Hd & [_ Hg]%list_elem_of_filter).
    apply findSecurityRule_true. exists g. split; [done|]. symmetry. by apply rule_details_key.
  - intros g Hg. apply findSecurityRule_true.
    destruct (findSecurityRule (service_rules uid dir ex) g) eqn:E.
    + apply findSecurityRule_true in E as (e & He & Hk). exists e. split; [|done].
      apply Hel. left. split; [done|]. apply findSecurityRule_true. eauto.
    + assert (rule_details g ∈ rule_details <$> service_rules uid dir new) as Hin.
      { rewrite Hnew. apply list_elem_of_fmap_2, list_elem_of_filter. done. }
      apply list_elem_of_fmap in Hin as (n & Hd & Hn). exists n.
      split; [by apply Hel; right|]. by apply rule_details_key.
Qed.

(** A list of generated rules: all of the service and in one direction. *)
Definition generated_for (uid dir : string) (gen : list SecurityRule) : Prop :=
  Forall (λ r, rule_of_service uid r ∧ nr_Direction r = dir) gen.

Lemma service_rules_generated uid dir gen :
  generated_for uid dir gen → service_rules uid dir gen = gen.
Proof.
  intros Hg. unfold service_rules, filterSecurityRulesForService. rewrite !filter_all; [done|..].
  all: rewrite ?filter_all; (eapply Forall_impl; [exact Hg|naive_solver]).
Qed.

Lemma service_rules_other uid dir dir' gen :
  generated_for uid dir' gen → dir ≠ dir' → service_rules uid dir gen = [].
Proof.
  intros Hg Hne. unfold service_rules. rewrite filter_none; [done|].
  eapply Forall_impl; [exact Hg|]. intros r [_ <-] ?. congruence.
Qed.

Lemma generated_for_filter uid dir (P : SecurityRule → Prop) `{∀ r, Decision (P r)} gen :
  generated_for uid dir gen → generated_for uid dir (filter P gen).
Proof.
  unfold generated_for. rewrite !Forall_forall.
  intros Hg r [_ Hr]%list_elem_of_filter. auto.
Qed.

Section effects.
Context {W : Type} `{!NsgClient W, !NsgLaws W}.
Implicit Types w : W.

Lemma getNsg_spec id w g w' :
  getNsg id w = (Ret g, w') → nsg_Id g = Some id ∧ ∀ i, nsg_rules w' i = nsg_rules w i.
Proof.
  unfold getNsg. case_decide; [done|].
  intros ([g' etag] & w1 & Hg%wrapM_Ret_inv & Hr)%M_bind_Ret_inv. injection Hr as <- <-.
  by eapply GetNsg_law.
Qed.

Lemma getNsgId_spec id w id' w' :
  getNsgId id w = (Ret id', w') → id' = id ∧ ∀ i, nsg_rules w' i = nsg_rules w i.
Proof.
  intros (g & w1 & [Hid Hv]%getNsg_spec & Hr)%M_bind_Ret_inv. rewrite Hid in Hr. by injection Hr as <- <-.
Qed.

Lemma listNsgRules_spec id dir w rs w' :
  listNsgRules id dir w = (Ret rs, w') →
  rs = filter (λ r, nr_Direction r = dir) (nsg_rules w id) ∧ ∀ i, nsg_rules w' i = nsg_rules w i.
Proof.
  unfold listNsgRules. case_decide; [done|]. intros ?%wrapM_Ret_inv. by apply ListNsg_law.
Qed.

Lemma add_batches id bs w w' :
  forM bs (λ batch, wrapM (AddNetworkSecurityGroupSecurityRules id
    (securityRuleToAddSecurityRuleDetails batch)) "failed to add security rules for nsg: %s" [id]) w
  = (Ret (), w') →
  (∃ new, rule_details <$> new = rule_details <$> concat bs ∧
     nsg_rules w' id ≡ₚ nsg_rules w id ++ new) ∧
  ∀ i, i ≠ id → nsg_rules w' i = nsg_rules w i.
Proof.
  revert w. induction bs as [|b bs IH]; intros w Hr; simpl in Hr.
  { injection Hr as <-. split; [|done]. exists []. by rewrite app_nil_r. }
  apply M_bind_Ret_inv in Hr as ([] & w1 & Hb%wrapM_Ret_inv & Hr).
  apply AddNsg_law in Hb as [(n1 & E1 & Hn1) Ho1].
  apply IH in Hr as [(n2 & E2 & Hn2) Ho2]. split.
  - exists (n1 ++ n2). rewrite Hn2, Hn1, app_assoc. split; [|done]. cbn [concat].
    by rewrite !fmap_app, E1, E2.
  - intros i Hi. by rewrite Ho2, Ho1.
Qed.

Lemma remove_batches id bs w w' :
  forM bs (λ batch, wrapM (RemoveNetworkSecurityGroupSecurityRules id batch)
    "failed to remove security rules for nsg: %s" [id]) w = (Ret (), w') →
  nsg_rules w' id ≡ₚ filter (λ r, nr_Id r ∉ Some <$> concat bs) (nsg_rules w id) ∧
  ∀ i, i ≠ id → nsg_rules w' i = nsg_rules w i.
Proof.
  revert w. induction bs as [|b bs IH]; intros w Hr; simpl in Hr.
  { injection Hr as <-. split; [|done]. rewrite filter_all; [done|]. apply Forall_true. set_solver. }
  apply M_bind_Ret_inv in Hr as ([] & w1 & Hb%wrapM_Ret_inv & Hr).
  apply RemoveNsg_law in Hb as [E1 Ho1]. apply IH in Hr as [E2 Ho2]. split.
  - rewrite E2, E1, list_filter_filter. apply reflexive_eq, list_filter_iff. intros r. cbn [concat].
    rewrite fmap_app, elem_of_app. tauto.
  - intros i Hi. by rewrite Ho2, Ho1.
Qed.

Lemma add_spec id add w w' :
  (if decide (0 < length add) then addNetworkSecurityGroupSecurityRules id add else mret ()) w
  = (Ret (), w') →
  (∃ new, rule_details <$> new = rule_details <$> add ∧ nsg_rules w' id ≡ₚ nsg_rules w id ++ new) ∧
  ∀ i, i ≠ id → nsg_rules w' i = nsg_rules w i.
Proof.
  case_decide as Hl; intros Hr.
  - apply add_batches in Hr. unfold splitRulesIntoBatches in Hr. by rewrite split_batches_concat in Hr.
  - injection Hr as <-. destruct add; [|simpl in Hl; lia]. split; [|done]. exists [].
    by rewrite app_nil_r.
Qed.

Lemma remove_spec id ids w w' :
  (if decide (0 < length ids) then removeNetworkSecurityGroupSecurityRules id ids else mret ()) w
  = (Ret (), w') →
  nsg_rules w' id ≡ₚ filter (λ r, nr_Id r ∉ Some <$> ids) (nsg_rules w id) ∧
  ∀ i, i ≠ id → nsg_rules w' i = nsg_rules w i.
Proof.
  case_decide as Hl; intros Hr.
  - apply remove_batches in Hr. unfold splitRuleIdsIntoBatches in Hr.
    by rewrite split_batches_concat in Hr.
  - injection Hr as <-. destruct ids; [|simpl in Hl; lia]. split; [|done].
    rewrite filter_all; [done|]. apply Forall_true. set_solver.
Qed.

(** Applying changes: the removed rules are gone, the new ones are appended, and
    other groups are untouched. *)
Lemma apply_rule_changes_spec id add rem sub w w' :
  Some <$> rem = nr_Id <$> sub → sub ⊆ nsg_rules w id →
  apply_rule_changes id add rem w = (Ret (), w') →
  (∃ new, rule_details <$> new = rule_details <$> add ∧
     nsg_rules w' id ≡ₚ filter (λ r, r ∉ sub) (nsg_rules w id) ++ new) ∧
  ∀ i, i ≠ id → nsg_rules w' i = nsg_rules w i.
Proof.
  intros Hids Hsub Hr. apply M_bind_Ret_inv in Hr as ([] & w1 & Ha%add_spec & Hr%remove_spec).
  destruct Ha as [(new & Hd & Hn) Ho1], Hr as [Hn2 Ho2].
  split; [|intros i Hi; by rewrite Ho2, Ho1]. exists new. split; [done|].
  pose proof (proj2 (nsg_ids w1 id)) as Hnd. rewrite Hn in Hn2, Hnd.
  assert (sub ⊆ nsg_rules w id ++ new) as Hsub' by set_solver.
  rewrite Hn2, Hids, filter_app. apply reflexive_eq. f_equal.
  - apply filter_ext_elem. intros r Hr.
    rewrite (removed_by_id _ _ _ Hnd Hsub'); [done|]. set_solver.
  - apply filter_all, Forall_forall. intros r Hr.
    rewrite (removed_by_id _ _ _ Hnd Hsub') by set_solver. intros Hs%Hsub.
    apply (NoDup_fmap_1 nr_Id), NoDup_app in Hnd as (_ & Hdis & _). by apply (Hdis r).
Qed.

End effects.

(** ** Generated rules *)

Lemma generated_for_make uid dir src port ty :
  dir = SecurityRuleDirectionIngress ∨ dir = SecurityRuleDirectionEgress →
  rule_of_service uid (makeNsgSecurityRule dir src uid port ty) ∧
  nr_Direction (makeNsgSecurityRule dir src uid port ty) = dir.
Proof. by intros [-> | ->]. Qed.

Lemma generate_for_ports_Forall (P : SecurityRule → Prop) rules found ports :
  (∀ p, Forall P (rules p)) → Forall P (generate_for_ports rules found ports).
Proof.
  intros HP. revert found. induction ports as [|p ports IH]; intros found; simpl; [done|].
  rewrite !Forall_app. split_and!; [by case_decide|by case_match|done].
Qed.

Section generated.
Context `{!MapRange}.

Lemma backend_ingress_generated site ports cidrs preserve nsg uid :
  generated_for uid SecurityRuleDirectionIngress
    (generateNsgBackendIngressRules site ports cidrs preserve nsg uid).
Proof.
  apply Forall_app. split.
  - destruct preserve; [|constructor]. apply Forall_bind, Forall_true. intros p. unfold compose.
    case_decide; [|constructor]. apply Forall_fmap, Forall_true. intros c. by apply generated_for_make; left.
  - apply generate_for_ports_Forall. intros p. apply Forall_singleton. by apply generated_for_make; left.
Qed.

Lemma lb_ingress_generated site cidrs ports uid :
  generated_for uid SecurityRuleDirectionIngress
    (generateNsgLoadBalancerIngressRules site cidrs ports uid).
Proof.
  unfold generateNsgLoadBalancerIngressRules. case_decide; [constructor|].
  apply Forall_bind, Forall_true. intros p. unfold compose. case_decide; [|constructor].
  apply Forall_fmap, Forall_true. intros c. by apply generated_for_make; left.
Qed.

Lemma lb_egress_generated site ports nsgs uid :
  generated_for uid SecurityRuleDirectionEgress
    (generateNsgLoadBalancerEgressRules site ports nsgs uid).
Proof.
  unfold generateNsgLoadBalancerEgressRules. case_decide; [constructor|].
  apply generate_for_ports_Forall. intros p. apply Forall_fmap, Forall_true. intros c.
  by apply generated_for_make; right.
Qed.

(** Backend ports are always served; the health check port is served when all
    the ports that have one agree on it. *)
Lemma generate_for_ports_backend rules found ports p :
  p ∈ ports → BackendPort p ≠ 0%Z → rules (BackendPort p) ⊆ generate_for_ports rules found ports.
Proof.
  revert found. induction ports as [|q ports IH]; intros found Hp Hne; [set_solver|]. simpl.
  apply elem_of_cons in Hp as [->|Hp].
  - rewrite decide_True by done. set_solver.
  - specialize (IH (found || (negb found && bool_decide (HealthCheckerPort q ≠ 0%Z))) Hp Hne).
    set_solver.
Qed.

Lemma generate_for_ports_health rules ports h :
  h ≠ 0%Z → (∀ p, p ∈ ports → HealthCheckerPort p = 0%Z ∨ HealthCheckerPort p = h) →
  (∃ p, p ∈ ports ∧ HealthCheckerPort p = h) →
  rules h ⊆ generate_for_ports rules false ports.
Proof.
  intros Hh. induction ports as [|q ports IH]; intros Hall (p & Hp & Ep); [set_solver|]. simpl.
  destruct (Hall q ltac:(by left)) as [Eq|Eq]; rewrite Eq.
  - rewrite bool_decide_eq_false_2 by (intros []; done). simpl.
    assert (rules h ⊆ generate_for_ports rules false ports) by (apply IH; set_solver). set_solver.
  - rewrite bool_decide_eq_true_2 by done. simpl. set_solver.
Qed.

End generated.

(** ** Bringing the groups up to date *)

(** The rules of other services. *)
Definition foreign_rules (uid : string) (rules : list SecurityRule) : list SecurityRule :=
  filter (λ r, ¬ rule_of_service uid r) rules.

Lemma changes_frame uid (ex new sub add : list SecurityRule) :
  Forall (rule_of_service uid) sub → Forall (rule_of_service uid) add →
  rule_details <$> new = rule_details <$> add →
  foreign_rules uid (filter (λ r, r ∉ sub) ex ++ new) = foreign_rules uid ex.
Proof.
  rewrite !Forall_forall. intros Hsub Hadd Hd. unfold foreign_rules. rewrite filter_app.
  rewrite (filter_none _ new), app_nil_r.
  - rewrite list_filter_filter. apply filter_ext_elem. intros r _. naive_solver.
  - apply Forall_forall. intros r Hr%(list_elem_of_fmap_2 rule_details) Hn. apply Hn.
    rewrite Hd in Hr. apply list_elem_of_fmap in Hr as (a & Ha & Hin%Hadd).
    unfold rule_of_service in *. rewrite <-Hin. exact (f_equal ar_Description Ha).
Qed.

Global Instance foreign_rules_proper uid : Proper ((≡ₚ) ==> (≡ₚ)) (foreign_rules uid).
Proof. intros l l' E. unfold foreign_rules. by rewrite E. Qed.

Section reconcile.
Context {W : Type} `{!NsgClient W, !NsgLaws W, !MapRange}.
Implicit Types w : W.
Implicit Types sc : securityRuleComponents.

(** What the controller wants on the three kinds of groups. *)
Definition wanted_lb_ingress sc : list SecurityRule :=
  generateNsgLoadBalancerIngressRules 0 (sc_sourceCIDRs sc) (sc_ports sc) (sc_serviceUid sc).
Definition wanted_lb_egress sc : list SecurityRule :=
  generateNsgLoadBalancerEgressRules 1 (sc_ports sc) (sc_backendNsgOcids sc) (sc_serviceUid sc).
Definition wanted_backend sc (site : nat) : list SecurityRule :=
  generateNsgBackendIngressRules site (sc_ports sc) (sc_sourceCIDRs sc)
    (sc_isPreserveSource sc) (sc_frontendNsgOcid sc) (sc_serviceUid sc).

(** The rules to remove in one direction, as rules. *)
Definition stale (uid dir : string) (gen ex : list SecurityRule) : list SecurityRule :=
  filter (λ r, findSecurityRule gen r = false) (service_rules uid dir ex).

Lemma stale_subset uid dir gen ex : stale uid dir gen ex ⊆ ex.
Proof. intros r [_ (_ & _ & ?)%elem_of_service_rules]%list_elem_of_filter. done. Qed.

Lemma stale_service uid dir gen ex : Forall (rule_of_service uid) (stale uid dir gen ex).
Proof.
  apply Forall_forall. intros r [_ (? & _ & _)%elem_of_service_rules]%list_elem_of_filter. done.
Qed.

Lemma elem_of_stale uid dir gen ex r :
  r ∈ service_rules uid dir ex → r ∈ stale uid dir gen ex ↔ findSecurityRule gen r = false.
Proof. intros. unfold stale. rewrite list_elem_of_filter. tauto. Qed.

Lemma elem_of_stale_other uid dir dir' gen ex r :
  dir ≠ dir' → r ∈ service_rules uid dir ex → r ∉ stale uid dir' gen ex.
Proof.
  intros Hne (_ & <- & _)%elem_of_service_rules [_ (_ & <- & _)%elem_of_service_rules]%list_elem_of_filter.
  done.
Qed.

Lemma generated_service uid dir gen (P : SecurityRule → Prop) `{∀ r, Decision (P r)} :
  generated_for uid dir gen → Forall (rule_of_service uid) (filter P gen).
Proof.
  intros Hg. eapply Forall_impl; [by eapply generated_for_filter|]. by intros r [? _].
Qed.

(** Changes in one direction keep the rules of the other. *)
Lemma changes_other_direction uid dir dir' gen (ex new : list SecurityRule) (P : SecurityRule → Prop) `{∀ r, Decision (P r)} :
  dir ≠ dir' → generated_for uid dir gen → rule_details <$> new = rule_details <$> filter P gen →
  service_rules uid dir' (filter (λ r, r ∉ stale uid dir gen ex) ex ++ new) = service_rules uid dir' ex.
Proof.
  intros Hne Hg Hd. rewrite service_rules_app.
  apply (service_rules_details uid dir') in Hd.
  rewrite (service_rules_other uid dir' dir (filter P gen)) in Hd by (done || by apply generated_for_filter).
  apply fmap_nil_inv in Hd. rewrite Hd, app_nil_r.
  unfold service_rules, filterSecurityRulesForService. rewrite !list_filter_filter. apply filter_ext_elem. intros r Hr.
  split; [naive_solver|]. intros [? ?]. split_and!; [done..|]. apply elem_of_stale_other with (dir := dir'); [done|].
  by apply elem_of_service_rules.
Qed.

(** A turn of the loop over the backend groups. *)
Lemma reconcile_backend_nsg_spec sc i nsg w w' :
  reconcile_backend_nsg sc i nsg w = (Ret (), w') →
  rules_agree (wanted_backend sc (backend_site i))
    (service_rules (sc_serviceUid sc) SecurityRuleDirectionIngress (nsg_rules w' nsg)) ∧
  (∀ id, foreign_rules (sc_serviceUid sc) (nsg_rules w' id)
         ≡ₚ foreign_rules (sc_serviceUid sc) (nsg_rules w id)) ∧
  (∀ id, service_rules (sc_serviceUid sc) SecurityRuleDirectionEgress (nsg_rules w' id)
         ≡ₚ service_rules (sc_serviceUid sc) SecurityRuleDirectionEgress (nsg_rules w id)) ∧
  ∀ id, id ≠ nsg → nsg_rules w' id = nsg_rules w id.
Proof.
  intros Hr. apply M_bind_Ret_inv in Hr as (g & w1 & [_ Hv1]%getNsg_spec & Hr).
  apply M_bind_Ret_inv in Hr as (ex & w2 & [-> Hv2]%listNsgRules_spec & Hr).
  apply M_bind_Ret_inv in Hr as ([add rem] & w3 & Hrec & Hr). injection Hrec as Hrec <-.
  apply reconcileSecurityRules_spec in Hrec as [-> Hrem].
  fold (wanted_backend sc (backend_site i)) in *.
  assert (generated_for (sc_serviceUid sc) SecurityRuleDirectionIngress
    (wanted_backend sc (backend_site i))) as Hg by apply backend_ingress_generated.
  revert Hg Hrem Hr. generalize (wanted_backend sc (backend_site i)) as gen. intros gen Hg Hrem Hr.
  rewrite Hv1 in *.
  fold (service_rules (sc_serviceUid sc) SecurityRuleDirectionIngress (nsg_rules w nsg)) in *.
  apply (apply_rule_changes_spec _ _ _
    (stale (sc_serviceUid sc) SecurityRuleDirectionIngress gen (nsg_rules w nsg))) in Hr
    as [(new & Hd & Hn) Ho]; [|done|rewrite Hv2, Hv1; apply stale_subset].
  rewrite Hv2, Hv1 in Hn.
  split_and!.
  - rewrite Hn. apply changes_agree; [intros; by apply elem_of_stale|].
    rewrite (service_rules_details _ _ _ _ Hd). f_equal.
    by apply service_rules_generated, generated_for_filter.
  - intros id. destruct (decide (id = nsg)) as [->|Hne]; [|by rewrite Ho, Hv2, Hv1].
    rewrite Hn. eapply reflexive_eq, changes_frame; [apply stale_service|by eapply generated_service|exact Hd].
  - intros id. destruct (decide (id = nsg)) as [->|Hne]; [|by rewrite Ho, Hv2, Hv1].
    rewrite Hn. by eapply reflexive_eq, changes_other_direction.
  - intros id Hne. by rewrite Ho, Hv2, Hv1.
Qed.

(** The frontend part: everything before the loop. *)
Lemma frontend_changes_spec sc remI remE w w' :
  let uid := sc_serviceUid sc in
  let ex := nsg_rules w (sc_frontendNsgOcid sc) in
  let I := SecurityRuleDirectionIngress in let E := SecurityRuleDirectionEgress in
  Some <$> remI = nr_Id <$> stale uid I (wanted_lb_ingress sc) ex →
  Some <$> remE = nr_Id <$> stale uid E (wanted_lb_egress sc) ex →
  apply_rule_changes (sc_frontendNsgOcid sc)
    (filter (λ r, findSecurityRule (service_rules uid I ex) r = false) (wanted_lb_ingress sc)
     ++ filter (λ r, findSecurityRule (service_rules uid E ex) r = false) (wanted_lb_egress sc))
    (remI ++ remE) w = (Ret (), w') →
  let ex' := nsg_rules w' (sc_frontendNsgOcid sc) in
  rules_agree (wanted_lb_ingress sc) (service_rules uid I ex') ∧
  rules_agree (wanted_lb_egress sc) (service_rules uid E ex') ∧
  (∀ id, foreign_rules uid (nsg_rules w' id) ≡ₚ foreign_rules uid (nsg_rules w id)) ∧
  ∀ id, id ≠ sc_frontendNsgOcid sc → nsg_rules w' id = nsg_rules w id.
Proof.
  intros uid ex I E HI HE Hr ex'.
  assert (generated_for uid I (wanted_lb_ingress sc)) as HgI by apply lb_ingress_generated.
  assert (generated_for uid E (wanted_lb_egress sc)) as HgE by apply lb_egress_generated.
  pose proof (generated_for_filter _ _ (λ r, findSecurityRule (service_rules uid I ex) r = false)
    _ HgI) as HaI.
  pose proof (generated_for_filter _ _ (λ r, findSecurityRule (service_rules uid E ex) r = false)
    _ HgE) as HaE.
  apply (apply_rule_changes_spec _ _ _ (stale uid I (wanted_lb_ingress sc) ex
    ++ stale uid E (wanted_lb_egress sc) ex)) in Hr as [(new & Hd & Hn) Ho].
  2:{ by rewrite !fmap_app, HI, HE. }
  2:{ apply list_subseteq_app_iff_l. split; apply stale_subset. }
  fold ex ex' in Hn. rewrite Hn. split_and!.
  - apply changes_agree.
    + intros r Hr. rewrite elem_of_app, (elem_of_stale _ _ _ _ _ Hr).
      split; [|by left]. intros [?|Hs]; [done|]. by apply elem_of_stale_other with (dir := I) in Hs.
    + rewrite (service_rules_details _ _ _ _ Hd), service_rules_app. f_equal.
      rewrite (service_rules_generated _ _ _ HaI), (service_rules_other _ I _ _ HaE) by done.
      apply app_nil_r.
  - apply changes_agree.
    + intros r Hr. rewrite elem_of_app, (elem_of_stale _ _ _ _ _ Hr).
      split; [|by right]. intros [Hs|?]; [|done]. by apply elem_of_stale_other with (dir := E) in Hs.
    + rewrite (service_rules_details _ _ _ _ Hd), service_rules_app. f_equal.
      by rewrite (service_rules_generated _ _ _ HaE), (service_rules_other _ E _ _ HaI).
  - intros id. destruct (decide (id = sc_frontendNsgOcid sc)) as [->|Hne]; [|by rewrite Ho].
    fold ex'. rewrite Hn. eapply reflexive_eq, changes_frame; [..|exact Hd]; apply Forall_app; split;
      eauto using stale_service, generated_service.
  - done.
Qed.

Lemma backend_loop_keeps sc (l : list (nat * string)) w w' :
  forM l (λ '(i, nsg), reconcile_backend_nsg sc i nsg) w = (Ret (), w') →
  (∀ id, foreign_rules (sc_serviceUid sc) (nsg_rules w' id)
         ≡ₚ foreign_rules (sc_serviceUid sc) (nsg_rules w id)) ∧
  (∀ id, service_rules (sc_serviceUid sc) SecurityRuleDirectionEgress (nsg_rules w' id)
         ≡ₚ service_rules (sc_serviceUid sc) SecurityRuleDirectionEgress (nsg_rules w id)) ∧
  ∀ id, id ∉ l.*2 → nsg_rules w' id = nsg_rules w id.
Proof.
  set (w0 := w) at 2 3. change w with w0 at 1. intros Hr.
  apply (forM_keeps (λ w', (∀ id, foreign_rules (sc_serviceUid sc) (nsg_rules w' id)
         ≡ₚ foreign_rules (sc_serviceUid sc) (nsg_rules w0 id)) ∧
    (∀ id, service_rules (sc_serviceUid sc) SecurityRuleDirectionEgress (nsg_rules w' id)
         ≡ₚ service_rules (sc_serviceUid sc) SecurityRuleDirectionEgress (nsg_rules w0 id)) ∧
    ∀ id, id ∉ l.*2 → nsg_rules w' id = nsg_rules w0 id)) in Hr; [done| |done].
  intros [i nsg] w1 w2 Hin (Hf & He & Ho) (_ & Hf' & He' & Ho')%reconcile_backend_nsg_spec.
  split_and!; intros id; [by rewrite Hf'|by rewrite He'|]. intros Hid. rewrite Ho'; [by apply Ho|].
  intros ->. apply Hid, list_elem_of_fmap. by exists (i, nsg).
Qed.

Lemma backend_loop_agrees sc (l : list (nat * string)) w w' :
  forM l (λ '(i, nsg), reconcile_backend_nsg sc i nsg) w = (Ret (), w') →
  ∀ x, x ∈ l → ∃ j, rules_agree (wanted_backend sc (backend_site j))
    (service_rules (sc_serviceUid sc) SecurityRuleDirectionIngress (nsg_rules w' x.2)).
Proof.
  apply (forM_establishes (λ x w, ∃ j, rules_agree (wanted_backend sc (backend_site j))
    (service_rules (sc_serviceUid sc) SecurityRuleDirectionIngress (nsg_rules w x.2)))).
  - intros [i nsg] w1 w2 _ (Ha & _)%reconcile_backend_nsg_spec. by exists i.
  - intros [i nsg] [i2 nsg2] w1 w2 _ _ [j Hj] (Ha & _ & _ & Ho)%reconcile_backend_nsg_spec. simpl in *.
    destruct (decide (nsg = nsg2)) as [->|Hne]; [by exists i2|]. exists j. by rewrite Ho.
Qed.

(** C4: A successful reconciliation leaves the
    service's rules on the frontend group equal, up to the comparison of
    [findSecurityRule], to the generated ingress and egress rules, and its
    ingress rules on every backend group equal to the generated backend rules.
    Only if the frontend group is listed as a backend group too, which the
    annotation of a service allows, are its ingress rules the backend rules
    instead, its egress rules still being the generated ones.
    Rules of other services are untouched on every group.  Whatever the rules
    were before, in batches of 25, for every order in which the port map is
    visited. *)
Theorem reconcileSecurityGroup_correct sc w w' :
  reconcileSecurityGroup sc w = (Ret (), w') →
  let uid := sc_serviceUid sc in
  let front := nsg_rules w' (sc_frontendNsgOcid sc) in
  (sc_frontendNsgOcid sc ∉ sc_backendNsgOcids sc →
     rules_agree (wanted_lb_ingress sc) (service_rules uid SecurityRuleDirectionIngress front)) ∧
  rules_agree (wanted_lb_egress sc) (service_rules uid SecurityRuleDirectionEgress front) ∧
  (∀ nsg, nsg ∈ sc_backendNsgOcids sc → ∃ j, rules_agree (wanted_backend sc (backend_site j))
     (service_rules uid SecurityRuleDirectionIngress (nsg_rules w' nsg))) ∧
  (∀ id, foreign_rules uid (nsg_rules w' id) ≡ₚ foreign_rules uid (nsg_rules w id)).
Proof.
  intros Hr uid front.
  apply M_bind_Ret_inv in Hr as (id & w1 & [-> Hv1]%getNsgId_spec & Hr).
  apply M_bind_Ret_inv in Hr as (exI & w2 & [-> Hv2]%listNsgRules_spec & Hr).
  apply M_bind_Ret_inv in Hr as ([addI remI] & w2' & HrI & Hr). injection HrI as HrI <-.
  apply M_bind_Ret_inv in Hr as (exE & w3 & [-> Hv3]%listNsgRules_spec & Hr).
  apply M_bind_Ret_inv in Hr as ([addE remE] & w3' & HrE & Hr). injection HrE as HrE <-.
  apply M_bind_Ret_inv in Hr as ([] & w4 & Hfront & Hloop).
  apply reconcileSecurityRules_spec in HrI as [-> HI], HrE as [-> HE].
  rewrite Hv2 in HE, Hfront.
  assert (∀ i, nsg_rules w3 i = nsg_rules w1 i) as Hv13 by (intros; by rewrite Hv3, Hv2).
  rewrite <-Hv13 in HI, HE, Hfront.
  destruct (frontend_changes_spec sc remI remE w3 w4 HI HE Hfront) as (HaI & HaE & Hf & Ho).
  pose proof (backend_loop_keeps _ _ _ _ Hloop) as (Hf' & He' & Ho').
  assert ((imap pair (sc_backendNsgOcids sc)).*2 = sc_backendNsgOcids sc) as Himap.
  { rewrite fmap_imap. trans (imap (const id) (sc_backendNsgOcids sc)); [by apply imap_ext|].
    by rewrite imap_const, list_fmap_id. }
  rewrite Himap in Ho'. unfold front. split_and!; [intros Hfb; by rewrite (Ho' _ Hfb)|unfold uid; by rewrite He'| |].
  - intros nsg Hnsg. rewrite <-Himap in Hnsg. apply list_elem_of_fmap in Hnsg as (x & -> & Hx).
    by eapply backend_loop_agrees.
  - intros id. unfold uid. by rewrite Hf', Hf, Hv13, Hv1.
Qed.


(** The turn of the cleanup loop. *)
Lemma remove_backend_turn uid backendNsg w w' :
  (nsg ← getNsgId backendNsg;
   existing ← listNsgRules nsg SecurityRuleDirectionIngress;
   ids ← lift (filterSecurityRulesIdsForService existing uid);
   if decide (0 < length ids) then removeNetworkSecurityGroupSecurityRules nsg ids
   else mret ()) w = (Ret (), w') →
  nsg_rules w' backendNsg
  ≡ₚ filter (λ r, r ∉ service_rules uid SecurityRuleDirectionIngress (nsg_rules w backendNsg))
      (nsg_rules w backendNsg) ∧
  ∀ i, i ≠ backendNsg → nsg_rules w' i = nsg_rules w i.
Proof.
  intros Hr. apply M_bind_Ret_inv in Hr as (id & w1 & [-> Hv1]%getNsgId_spec & Hr).
  apply M_bind_Ret_inv in Hr as (ex & w2 & [-> Hv2]%listNsgRules_spec & Hr).
  apply M_bind_Ret_inv in Hr as (ids & w3 & Hids & Hr). injection Hids as Hids <-.
  apply mapM_deref_ids in Hids. apply remove_spec in Hr as [Hn Ho].
  rewrite Hv1 in Hids. split; [|intros i Hi; by rewrite Ho, Hv2, Hv1].
  rewrite Hn, Hids, Hv2, Hv1. apply reflexive_eq, filter_ext_elem. intros r Hr.
  fold (filterSecurityRulesForService (filter (λ r, nr_Direction r = SecurityRuleDirectionIngress)
    (nsg_rules w backendNsg)) uid).
  fold (service_rules uid SecurityRuleDirectionIngress (nsg_rules w backendNsg)).
  rewrite (removed_by_id (nsg_rules w backendNsg)); [done|apply nsg_ids| |done].
  by intros r' (_ & _ & ?)%elem_of_service_rules.
Qed.

(** A successful cleanup leaves no
    ingress rule of the service on any backend group and keeps the rules of
    other services on every group. *)
Lemma removeBackendSecurityGroupRules_correct sc w w' :
  removeBackendSecurityGroupRules sc w = (Ret (), w') →
  (∀ nsg, nsg ∈ sc_backendNsgOcids sc →
     service_rules (sc_serviceUid sc) SecurityRuleDirectionIngress (nsg_rules w' nsg) = []) ∧
  (∀ id, foreign_rules (sc_serviceUid sc) (nsg_rules w' id)
         ≡ₚ foreign_rules (sc_serviceUid sc) (nsg_rules w id)).
Proof.
  intros Hr. split.
  - revert Hr. apply (forM_establishes (λ nsg w, service_rules (sc_serviceUid sc)
      SecurityRuleDirectionIngress (nsg_rules w nsg) = [])).
    + intros x w1 w2 _ [Hx _]%remove_backend_turn. apply elem_of_nil_inv. intros r.
      rewrite elem_of_service_rules, Hx, list_elem_of_filter, elem_of_service_rules. tauto.
    + intros x y w1 w2 _ _ Hx [Hy Ho]%remove_backend_turn.
      destruct (decide (x = y)) as [<-|Hne]; [|by rewrite Ho].
      apply elem_of_nil_inv. intros r. rewrite elem_of_service_rules, Hy, list_elem_of_filter.
      rewrite elem_of_service_rules. tauto.
  - refine (forM_keeps (λ w', ∀ id, foreign_rules (sc_serviceUid sc) (nsg_rules w' id)
         ≡ₚ foreign_rules (sc_serviceUid sc) (nsg_rules w id)) _ _ _ _ _ _ Hr); [|done].
    intros x w1 w2 _ Hf [Hy Ho]%remove_backend_turn id. rewrite <-Hf.
    destruct (decide (id = x)) as [->|Hne]; [|by rewrite Ho].
    rewrite Hy. unfold foreign_rules. rewrite list_filter_filter. apply reflexive_eq, filter_ext_elem.
    intros r _. rewrite elem_of_service_rules. tauto.
Qed.

End reconcile.

(** ** Pure properties *)

(** Nothing is added or removed exactly when
    the rules agree, so reconciling a reconciled group makes no call. *)
Lemma reconcileSecurityRules_fixpoint gen ex :
  reconcileSecurityRules gen ex = Ret ([], []) ↔ rules_agree gen ex.
Proof.
  unfold rules_agree. split.
  - intros [Ha Hr]%reconcileSecurityRules_spec. symmetry in Ha. split.
    + intros r Hin. apply not_false_iff_true. intros E. symmetry in Hr. apply fmap_nil_inv in Hr.
      assert (r ∈ filter (λ r, findSecurityRule gen r = false) ex) as H
        by by apply list_elem_of_filter.
      rewrite Hr in H. set_solver.
    + intros g Hin. apply not_false_iff_true. intros E.
      assert (g ∈ filter (λ r, findSecurityRule ex r = false) gen) as H
        by by apply list_elem_of_filter.
      rewrite Ha in H. set_solver.
  - intros [H1 H2]. unfold reconcileSecurityRules. rewrite !filter_none; [done|..];
      apply Forall_forall; intros r Hin; apply not_false_iff_true; auto.
Qed.

(** The batches sent to the service are the rules in order,
    none longer than 25 and, when there is anything to send, none empty. *)
Lemma batches_correct (rules : list SecurityRule) :
  concat (splitRulesIntoBatches rules) = rules ∧
  Forall (λ b, length b ≤ batchSize) (splitRulesIntoBatches rules) ∧
  (rules ≠ [] → Forall (λ b, b ≠ []) (splitRulesIntoBatches rules)).
Proof.
  split_and!; [apply split_batches_concat|by apply split_batches_bounds|apply split_batches_nonempty].
Qed.

(** The generated rules open the path from the frontend
    group to the backend groups: for every port of the service, both groups get
    the rule of its backend port, and, since all ports share one health check
    port [h], the rule of that port; for every order of the ports. *)
Lemma generated_rules_open `{!MapRange} site1 site2 ports cidrs preserve front backs uid h :
  h ≠ 0%Z → (∀ k p, ports !! k = Some p → HealthCheckerPort p = h) →
  ∀ k p port, ports !! k = Some p → port = BackendPort p ∨ port = h → port ≠ 0%Z →
    makeNsgSecurityRule SecurityRuleDirectionIngress front uid port
      SecurityRuleSourceTypeNetworkSecurityGroup
      ∈ generateNsgBackendIngressRules site1 ports cidrs preserve front uid ∧
    ∀ back, back ∈ backs →
      makeNsgSecurityRule SecurityRuleDirectionEgress back uid port
        SecurityRuleSourceTypeNetworkSecurityGroup
        ∈ generateNsgLoadBalancerEgressRules site2 ports backs uid.
Proof.
  intros Hh Hall k p port Hk Hport Hne.
  assert (∀ site rules, rules port ⊆ generate_for_ports rules false (range site ports).*2) as Hgen.
  { intros site rules.
    assert (p ∈ (range site ports).*2) as Hp.
    { apply list_elem_of_fmap. exists (k, p). by rewrite elem_of_range. }
    destruct Hport as [->| ->]; [by apply generate_for_ports_backend|].
    apply generate_for_ports_health; [done| |by eauto].
    intros q ([k' q'] & -> & Hq%elem_of_range)%list_elem_of_fmap. right. by eapply Hall. }
  split.
  - apply elem_of_app. right. apply Hgen. by left.
  - intros back Hb. unfold generateNsgLoadBalancerEgressRules.
    rewrite decide_False by (destruct backs; set_solver).
    apply Hgen. by apply (list_elem_of_fmap_2 (λ b, makeNsgSecurityRule _ b _ _ _)).
Qed.

(** ** A networking service in memory *)

(** A store of numbered rules; operations fail on a store with clashing numbers. *)
Abbreviation nsg_store := (list (nat * (string * AddSecurityRuleDetails))).

Definition stored_rule (k : nat) (d : AddSecurityRuleDetails) : SecurityRule := {|
  nr_Direction := ar_Direction d; nr_Protocol := ar_Protocol d;
  nr_Description := ar_Description d; nr_Destination := ar_Destination d;
  nr_DestinationType := ar_DestinationType d; nr_IcmpOptions := ar_IcmpOptions d;
  nr_Id := Some (Itoa (Z.of_nat k)); nr_IsStateless := ar_IsStateless d; nr_IsValid := Some true;
  nr_Source := ar_Source d; nr_SourceType := ar_SourceType d;
  nr_TcpOptions := ar_TcpOptions d; nr_UdpOptions := ar_UdpOptions d |}.

Definition store_view (w : nsg_store) (id : string) : list SecurityRule :=
  if decide (NoDup w.*1) then
    (λ '(k, (_, d)), stored_rule k d) <$> filter (λ e, e.2.1 = id) w
  else [].

Definition store_add (id : string) (w : nsg_store) (d : AddSecurityRuleDetails) : nsg_store :=
  w ++ [(S (max_list w.*1), (id, d))].

Global Instance store_client : NsgClient nsg_store := {|
  GetNetworkSecurityGroup id w := (Ret ({| nsg_Id := Some id; nsg_FreeformTags := Some ∅ |}, Some "etag"), w);
  ListNetworkSecurityGroupSecurityRules id dir w :=
    (Ret (filter (λ r, nr_Direction r = dir) (store_view w id)), w);
  AddNetworkSecurityGroupSecurityRules id ds w :=
    if decide (NoDup w.*1) then (Ret (), foldl (store_add id) w ds)
    else (Err NotFoundErr, w);
  RemoveNetworkSecurityGroupSecurityRules id ids w :=
    if decide (NoDup w.*1)
    then (Ret (), filter (λ e, ¬ (e.2.1 = id ∧ Itoa (Z.of_nat e.1) ∈ ids)) w)
    else (Err NotFoundErr, w);
|}.

Lemma store_add_view id w d :
  NoDup w.*1 →
  NoDup (store_add id w d).*1 ∧
  ∀ i, store_view (store_add id w d) i
       = store_view w i ++ (if decide (id = i) then [stored_rule (S (max_list w.*1)) d] else []).
Proof.
  intros Hw. assert (NoDup (store_add id w d).*1) as Hw'.
  { unfold store_add. rewrite fmap_app. apply NoDup_app. split_and!; [done| |apply NoDup_singleton].
    intros k Hk ->%list_elem_of_singleton. apply max_list_elem_of_le in Hk. simpl in Hk. lia. }
  split; [done|]. intros i. unfold store_view. rewrite !decide_True by done.
  unfold store_add. rewrite filter_app, fmap_app. f_equal.
  rewrite filter_cons, filter_nil. simpl. by case_decide.
Qed.

Lemma store_adds_view id ds w :
  NoDup w.*1 →
  NoDup (foldl (store_add id) w ds).*1 ∧
  (∃ new, rule_details <$> new = ds ∧
     store_view (foldl (store_add id) w ds) id = store_view w id ++ new) ∧
  ∀ i, i ≠ id → store_view (foldl (store_add id) w ds) i = store_view w i.
Proof.
  revert w. induction ds as [|d ds IH]; intros w Hw; simpl.
  { split_and!; [done| |done]. exists []. by rewrite app_nil_r. }
  destruct (store_add_view id w d Hw) as [Hw1 Hv1].
  destruct (IH _ Hw1) as (Hw2 & (new & Hd & Hn) & Ho). split_and!; [done|..].
  - exists (stored_rule (S (max_list w.*1)) d :: new). rewrite Hn, Hv1, decide_True by done.
    rewrite <-app_assoc. split; [|done]. rewrite fmap_cons, Hd. by destruct d.
  - intros i Hi. by rewrite Ho, Hv1, decide_False, app_nil_r.
Qed.

Lemma store_ids w id :
  Forall (λ r, is_Some (nr_Id r)) (store_view w id) ∧ NoDup (nr_Id <$> store_view w id).
Proof.
  unfold store_view. case_decide as Hw; [|split; constructor]. split.
  - apply Forall_fmap, Forall_true. intros [k [g d]]. by eexists.
  - rewrite <-list_fmap_compose.
    assert (NoDup (filter (λ e : nat * (string * AddSecurityRuleDetails), e.2.1 = id) w).*1) as Hf.
    { eapply sublist_NoDup; [exact Hw|]. apply fmap_sublist, sublist_filter. }
    rewrite (list_fmap_ext _ ((λ k, Some (Itoa (Z.of_nat k))) ∘ fst)) by (by intros ? [? [? ?]]).
    rewrite list_fmap_compose. apply NoDup_fmap_2; [|done]. intros k1 k2 [= E].
    apply (inj Itoa) in E. lia.
Qed.

Lemma store_remove_view id (ids : list string) w i :
  NoDup w.*1 →
  store_view (filter (λ e, ¬ (e.2.1 = id ∧ Itoa (Z.of_nat e.1) ∈ ids)) w) i
  = filter (λ r, ¬ (id = i ∧ nr_Id r ∈ Some <$> ids)) (store_view w i).
Proof.
  intros Hw. unfold store_view. rewrite (decide_True (P := NoDup w.*1)) by done.
  rewrite decide_True by (eapply sublist_NoDup; [done|apply fmap_sublist, sublist_filter]).
  clear Hw. induction w as [|[k [g d]] w IH]; [done|].
  assert ((¬ (i = id ∧ Itoa (Z.of_nat k) ∈ ids)) ↔
          ¬ (id = i ∧ nr_Id (stored_rule k d) ∈ Some <$> ids)) as E.
  { simpl. rewrite (list_elem_of_fmap Some). naive_solver. }
  destruct (decide (g = i)) as [->|Hg];
    [rewrite (filter_cons_True (λ e, e.2.1 = i) (k, (i, d)) w) by done
    |rewrite (filter_cons_False (λ e, e.2.1 = i) (k, (g, d)) w) by done].
  - rewrite fmap_cons, (filter_cons _ (stored_rule k d)), (filter_cons _ (k, (i, d))).
    cbn [fst snd]. destruct (decide (¬ (i = id ∧ _))) as [Hk|Hk].
    + rewrite (decide_True (P := ¬ (id = i ∧ _))) by by apply E.
      rewrite filter_cons_True, fmap_cons by done. f_equal. exact IH.
    + rewrite (decide_False (P := ¬ (id = i ∧ _))) by (rewrite <-E; exact Hk). exact IH.
  - rewrite (filter_cons _ (k, (g, d))). cbn [fst snd]. destruct (decide (¬ (g = id ∧ _))); [|exact IH].
    rewrite filter_cons_False by done. exact IH.
Qed.

Global Program Instance store_laws : NsgLaws nsg_store := {| nsg_rules := store_view |}.
Next Obligation. apply store_ids. Qed.
Next Obligation. by intros id w g etag w' [= <- <- <-]. Qed.
Next Obligation. by intros id dir w rs w' [= <- <-]. Qed.
Next Obligation.
  intros id ds w w'. simpl. case_decide as Hw; [|done]. intros [= <-].
  destruct (store_adds_view id ds w Hw) as (_ & (new & ? & Hn) & ?). split; [|done].
  exists new. by rewrite Hn.
Qed.
Next Obligation.
  intros id ids w w'. simpl. case_decide as Hw; [|done]. intros [= <-]. split.
  - rewrite store_remove_view by done. apply reflexive_eq, list_filter_iff. naive_solver.
  - intros i Hi. rewrite store_remove_view by done. apply filter_all, Forall_true. naive_solver.
Qed.

(** ** The properties at concrete inputs *)

Definition example_nsg_components : securityRuleComponents := {|
  sc_frontendNsgOcid := "front"; sc_backendNsgOcids := ["back1"; "back2"];
  sc_ports := {["TCP-80" := {| ListenerPort := 80; BackendPort := 30080; HealthCheckerPort := 10256 |}]};
  sc_sourceCIDRs := ["0.0.0.0/0"]; sc_isPreserveSource := true; sc_serviceUid := "uid";
  sc_lbSubnets := []; sc_backendSubnets := []; sc_actualPorts := None;
  sc_desiredPorts := portSpec_zero; sc_ipFamilies := [IPv4] |}.

(** A stale rule of the service and a rule of another one on [back1]. *)
Definition example_nsg_world : nsg_store :=
  let r uid := rule_details (makeNsgSecurityRule SecurityRuleDirectionIngress "front" uid 30000
                 SecurityRuleSourceTypeNetworkSecurityGroup) in
  [(0, ("back1", r "uid")); (1, ("back1", r "other"))].

Lemma reconcileSecurityGroup_correct_witness :
  let _ := list_range in
  let w' := (reconcileSecurityGroup example_nsg_components example_nsg_world).2 in
  rules_agree (wanted_lb_ingress example_nsg_components)
    (service_rules "uid" SecurityRuleDirectionIngress (nsg_rules w' "front")) ∧
  length (service_rules "uid" SecurityRuleDirectionIngress (nsg_rules w' "front")) = 1 ∧
  length (nsg_rules w' "back1") = 4.
Proof.
  intros R w'. split; [|by vm_compute].
  assert (reconcileSecurityGroup example_nsg_components example_nsg_world = (Ret (), w')) as Hrun
    by by vm_compute.
  clearbody w'.
  refine (proj1 (reconcileSecurityGroup_correct example_nsg_components example_nsg_world w' Hrun) _).
  apply (bool_decide_unpack _). by vm_compute.
Defined.

Lemma removeBackendSecurityGroupRules_correct_witness :
  let w' := (removeBackendSecurityGroupRules example_nsg_components example_nsg_world).2 in
  service_rules "uid" SecurityRuleDirectionIngress (nsg_rules w' "back1") = [].
Proof.
  intros w'.
  assert (removeBackendSecurityGroupRules example_nsg_components example_nsg_world = (Ret (), w'))
    as Hrun by by vm_compute.
  clearbody w'.
  refine (proj1 (removeBackendSecurityGroupRules_correct example_nsg_components
    example_nsg_world w' Hrun) "back1" _).
  by left.
Defined.

Lemma generated_rules_open_witness :
  let _ := list_range in
  makeNsgSecurityRule SecurityRuleDirectionIngress "front" "uid" 10256
    SecurityRuleSourceTypeNetworkSecurityGroup
  ∈ generateNsgBackendIngressRules 0 (sc_ports example_nsg_components) [] false "front" "uid".
Proof.
  intros R.
  eapply (generated_rules_open 0 1 _ [] false "front" [] "uid" 10256); [done|..].
  - intros k p Hk. simpl in Hk. by apply lookup_singleton_Some in Hk as [<- <-].
  - apply lookup_singleton_eq.
  - by right.
  - done.
Defined.
