(* ===== verification/Annotations.v ===== *)
(** * Service annotations (load_balancer_spec.go)

    The settings of a load balancer that are read from the annotations and the
    spec of its service: one definition per getter of the source, each with the
    source's defaults, validation and errors.  Parsers of third-party packages
    (JSON, IP addresses, the source ranges of a service) are the operations of
    the class [Parsers]. *)
From stdpp Require Import base tactics list gmap sets strings.
From Stdlib Require Import Ascii.
From S2P Require Import Prelude GoStrings Types.

(** ** Annotation names *)

Definition ServiceAnnotationLoadBalancerInternal : string :=
  "service.beta.kubernetes.io/oci-load-balancer-internal".
Definition ServiceAnnotationLoadBalancerShape : string :=
  "service.beta.kubernetes.io/oci-load-balancer-shape".
Definition ServiceAnnotationLoadBalancerShapeFlexMin : string :=
  "service.beta.kubernetes.io/oci-load-balancer-shape-flex-min".
Definition ServiceAnnotationLoadBalancerShapeFlexMax : string :=
  "service.beta.kubernetes.io/oci-load-balancer-shape-flex-max".
Definition ServiceAnnotationLoadBalancerSubnet1 : string :=
  "service.beta.kubernetes.io/oci-load-balancer-subnet1".
Definition ServiceAnnotationLoadBalancerSubnet2 : string :=
  "service.beta.kubernetes.io/oci-load-balancer-subnet2".
Definition ServiceAnnotationLoadBalancerSSLPorts : string :=
  "service.beta.kubernetes.io/oci-load-balancer-ssl-ports".
Definition ServiceAnnotationLoadBalancerTLSSecret : string :=
  "service.beta.kubernetes.io/oci-load-balancer-tls-secret".
Definition ServiceAnnotationLoadBalancerTLSBackendSetSecret : string :=
  "service.beta.kubernetes.io/oci-load-balancer-tls-backendset-secret".
Definition ServiceAnnotationLoadBalancerConnectionIdleTimeout : string :=
  "service.beta.kubernetes.io/oci-load-balancer-connection-idle-timeout".
Definition ServiceAnnotationLoadBalancerConnectionProxyProtocolVersion : string :=
  "service.beta.kubernetes.io/oci-load-balancer-connection-proxy-protocol-version".
Definition ServiceAnnotationLoadBalancerSecurityListManagementMode : string :=
  "service.beta.kubernetes.io/oci-load-balancer-security-list-management-mode".
Definition ServiceAnnotationLoadBalancerHealthCheckRetries : string :=
  "service.beta.kubernetes.io/oci-load-balancer-health-check-retries".
Definition ServiceAnnotationLoadBalancerHealthCheckInterval : string :=
  "service.beta.kubernetes.io/oci-load-balancer-health-check-interval".
Definition ServiceAnnotationLoadBalancerHealthCheckTimeout : string :=
  "service.beta.kubernetes.io/oci-load-balancer-health-check-timeout".
Definition ServiceAnnotationLoadBalancerBEProtocol : string :=
  "service.beta.kubernetes.io/oci-load-balancer-backend-protocol".
Definition ServiceAnnotationLoadBalancerNetworkSecurityGroups : string :=
  "oci.oraclecloud.com/oci-network-security-groups".
Definition ServiceAnnotationLoadBalancerPolicy : string :=
  "oci.oraclecloud.com/loadbalancer-policy".
Definition ServiceAnnotationLoadBalancerInitialDefinedTagsOverride : string :=
  "oci.oraclecloud.com/initial-defined-tags-override".
Definition ServiceAnnotationLoadBalancerInitialFreeformTagsOverride : string :=
  "oci.oraclecloud.com/initial-freeform-tags-override".
Definition ServiceAnnotationLoadBalancerType : string :=
  "oci.oraclecloud.com/load-balancer-type".
Definition ServiceAnnotationLoadBalancerNodeFilter : string :=
  "oci.oraclecloud.com/node-label-selector".
Definition ServiceAnnotationServiceAccountName : string :=
  "oci.oraclecloud.com/workload-service-account".
Definition ServiceAnnotationLoadBalancerSecurityRuleManagementMode : string :=
  "oci.oraclecloud.com/security-rule-management-mode".
Definition ServiceAnnotationBackendSecurityRuleManagement : string :=
  "oci.oraclecloud.com/oci-backend-network-security-group".
Definition ServiceAnnotationLoadbalancerListenerSSLConfig : string :=
  "oci.oraclecloud.com/oci-load-balancer-listener-ssl-config".
Definition ServiceAnnotationLoadbalancerBackendSetSSLConfig : string :=
  "oci.oraclecloud.com/oci-load-balancer-backendset-ssl-config".
Definition ServiceAnnotationIngressIpMode : string :=
  "oci.oraclecloud.com/ingress-ip-mode".
Definition ServiceAnnotationRuleSets : string :=
  "oci.oraclecloud.com/oci-load-balancer-rule-sets".
Definition ServiceAnnotationNetworkLoadBalancerInternal : string :=
  "oci-network-load-balancer.oraclecloud.com/internal".
Definition ServiceAnnotationNetworkLoadBalancerSubnet : string :=
  "oci-network-load-balancer.oraclecloud.com/subnet".
Definition ServiceAnnotationNetworkLoadBalancerNetworkSecurityGroups : string :=
  "oci-network-load-balancer.oraclecloud.com/oci-network-security-groups".
Definition ServiceAnnotationNetworkLoadBalancerHealthCheckRetries : string :=
  "oci-network-load-balancer.oraclecloud.com/health-check-retries".
Definition ServiceAnnotationNetworkLoadBalancerHealthCheckInterval : string :=
  "oci-network-load-balancer.oraclecloud.com/health-check-interval".
Definition ServiceAnnotationNetworkLoadBalancerHealthCheckTimeout : string :=
  "oci-network-load-balancer.oraclecloud.com/health-check-timeout".
Definition ServiceAnnotationNetworkLoadBalancerBackendPolicy : string :=
  "oci-network-load-balancer.oraclecloud.com/backend-policy".
Definition ServiceAnnotationNetworkLoadBalancerSecurityListManagementMode : string :=
  "oci-network-load-balancer.oraclecloud.com/security-list-management-mode".
Definition ServiceAnnotationNetworkLoadBalancerDefinedTags : string :=
  "oci-network-load-balancer.oraclecloud.com/defined-tags".
Definition ServiceAnnotationNetworkLoadBalancerFreeformTags : string :=
  "oci-network-load-balancer.oraclecloud.com/freeform-tags".
Definition ServiceAnnotationNetworkLoadBalancerInitialDefinedTagsOverride : string :=
  "oci-network-load-balancer.oraclecloud.com/initial-defined-tags-override".
Definition ServiceAnnotationNetworkLoadBalancerInitialFreeformTagsOverride : string :=
  "oci-network-load-balancer.oraclecloud.com/initial-freeform-tags-override".
Definition ServiceAnnotationNetworkLoadBalancerNodeFilter : string :=
  "oci-network-load-balancer.oraclecloud.com/node-label-selector".
Definition ServiceAnnotationNetworkLoadBalancerIsPreserveSource : string :=
  "oci-network-load-balancer.oraclecloud.com/is-preserve-source".
Definition ServiceAnnotationNetworkLoadBalancerIsPpv2Enabled : string :=
  "oci-network-load-balancer.oraclecloud.com/is-ppv2-enabled".
Definition ServiceAnnotationNetworkLoadBalancerExternalIpOnly : string :=
  "oci-network-load-balancer.oraclecloud.com/external-ip-only".
Definition ServiceAnnotationNetworkLoadBalancerAssignedPrivateIpV4 : string :=
  "oci-network-load-balancer.oraclecloud.com/assigned-private-ipv4".
Definition ServiceAnnotationNetworkLoadBalancerAssignedIpV6 : string :=
  "oci-network-load-balancer.oraclecloud.com/assigned-ipv6".

Definition CompartmentIDAnnotation : string := "oci.oraclecloud.com/compartment-id".

(** ** Constants *)

Definition LBHealthCheckIntervalMin : Z := 1000.
Definition LBHealthCheckIntervalMax : Z := 1800000.
Definition NLBHealthCheckIntervalMin : Z := 10000.
Definition NLBHealthCheckIntervalMax : Z := 1800000.
Definition flexible : string := "flexible".
Definition lbDefaultShape : string := "100Mbps".
Definition lbMaximumNetworkSecurityGroupIds : nat := 5.
Definition DefaultLoadBalancerPolicy : string := "ROUND_ROBIN".
Definition DefaultNetworkLoadBalancerPolicy : string := "FIVE_TUPLE".
Definition ProtocolUDP : string := "UDP".
Definition ServiceAffinityNone : string := "None".
Definition defaultLoadBalancerSourceRangesIPv4 : string := "0.0.0.0/0".
Definition defaultLoadBalancerSourceRangesIPv6 : string := "::/0".
Definition OkeSystemTagNamesapce : string := "orcl-containerengine".

(** ** Third-party parsers *)

(** [RS] is the SDK's [loadbalancer.RuleSetDetails].
    [GetLoadBalancerSourceRanges] answers the ranges in the order in which the
    source visits them; the JSON functions answer what was decoded, where a
    [null] leaves the target nil. *)
Class Parsers (RS : Type) := {
  GetLoadBalancerSourceRanges : Service → error + list string;
  ParseIP : string → bool;
  IsIPv4String : string → bool;
  IsIPv6String : string → bool;
  Unmarshal_ssl : string → error + option GenericSslConfigurationDetails;
  Unmarshal_freeform : string → error + gmap string string;
  Unmarshal_defined : string → error + gmap string (gmap string string);
  Decode_rulesets : string → error + option (gmap string RS);
}.

(** A two-valued result as an outcome. *)
Definition of_sum {A} (r : error + A) : outcome A :=
  match r with inl e => Err e | inr a => Ret a end.

(** [svc.Annotations[key]] with and without the [ok] value. *)
Definition annotation (svc : Service) (key : string) : option string := svc_Annotations svc !! key.
Definition annotation_value (svc : Service) (key : string) : string := default "" (annotation svc key).

(** ** Type, mode and protocols *)

Definition getLoadBalancerType (svc : Service) : string :=
  let lbType := ToLower (annotation_value svc ServiceAnnotationLoadBalancerType) in
  if decide (lbType = NLB ∨ lbType = LB) then lbType else LB.

Definition requiresCertificate (svc : Service) : bool :=
  if decide (getLoadBalancerType svc = NLB) then false
  else bool_decide (is_Some (annotation svc ServiceAnnotationLoadBalancerSSLPorts)).

Definition requiresNsgManagement (svc : Service) : bool :=
  bool_decide (ToLower (annotation_value svc
    ServiceAnnotationLoadBalancerSecurityRuleManagementMode) = "nsg").

Definition invalid_annotation (value key : string) : error :=
  Errorf "invalid value: %s provided for annotation: %s" [value; key].

Definition knownSecListModes : list string :=
  [ManagementModeAll; ManagementModeNone; ManagementModeFrontend].

Definition getSecurityListManagementMode (svc : Service) : outcome string :=
  if decide (getLoadBalancerType svc = NLB) then
    match annotation svc ServiceAnnotationNetworkLoadBalancerSecurityListManagementMode with
    | None => Ret ManagementModeNone
    | Some v => if decide (v ∈ knownSecListModes) then Ret v
                else Err (invalid_annotation v
                       ServiceAnnotationNetworkLoadBalancerSecurityListManagementMode)
    end
  else
    match annotation svc ServiceAnnotationLoadBalancerSecurityListManagementMode with
    | None => Ret ManagementModeAll
    | Some v => if decide (v ∈ knownSecListModes) then Ret v else Ret ManagementModeAll
    end.

Record ManagedNetworkSecurityGroup := {
  mn_nsgRuleManagementMode : string;
  mn_frontendNsgId : string;
  mn_backendNsgId : list string;
}.

(** The mode and the managed group; the source returns a mode with an error
    too, which its callers do not use. *)
Definition getRuleManagementMode (svc : Service) : outcome (string * ManagedNetworkSecurityGroup) :=
  let nsg := {| mn_nsgRuleManagementMode := ManagementModeNone; mn_frontendNsgId := "";
                mn_backendNsgId := [] |} in
  match annotation svc ServiceAnnotationLoadBalancerSecurityRuleManagementMode with
  | None => secListMode ← getSecurityListManagementMode svc; mret (secListMode, nsg)
  | Some v =>
      if decide (ToLower v = ToLower RuleManagementModeSlAll) then Ret (ManagementModeAll, nsg)
      else if decide (ToLower v = ToLower RuleManagementModeSlFrontend)
      then Ret (ManagementModeFrontend, nsg)
      else if decide (ToLower v = ToLower RuleManagementModeNsg)
      then Ret (RuleManagementModeNsg,
                {| mn_nsgRuleManagementMode := RuleManagementModeNsg; mn_frontendNsgId := "";
                   mn_backendNsgId := [] |})
      else if decide (v ∉ [RuleManagementModeSlAll; RuleManagementModeSlFrontend;
                            RuleManagementModeNsg; ManagementModeNone])
      then Err (invalid_annotation v ServiceAnnotationLoadBalancerSecurityRuleManagementMode)
      else Ret (ManagementModeNone, nsg)
  end.

(** load_balancer_util.go, [validateProtocols]. *)
Fixpoint validateProtocols (servicePorts : list ServicePort) (lbType secListMgmtMode : string)
    : outcome () :=
  match servicePorts with
  | [] => Ret ()
  | servicePort :: servicePorts' =>
      if decide (port_Protocol servicePort = ProtocolUDP ∧ lbType = LB)
      then Err (Errorf "OCI load balancers do not support UDP" [])
      else if decide (port_Protocol servicePort = ProtocolUDP ∧ lbType = NLB
                      ∧ secListMgmtMode ≠ ManagementModeNone)
      then Err (Errorf "Security list management mode can only be 'None' for UDP protocol" [])
      else validateProtocols servicePorts' lbType secListMgmtMode
  end.

Definition validateService (svc : Service) : outcome () :=
  secListMgmtMode ← getSecurityListManagementMode svc;
  let lbType := getLoadBalancerType svc in
  _ ← validateProtocols (svc_Ports svc) lbType secListMgmtMode;
  if decide (svc_SessionAffinity svc ≠ ServiceAffinityNone)
  then Err (Errorf "OCI only supports SessionAffinity 'None' currently" [])
  else Ret ().

(** ** Network security groups *)

(** util.go, [RemoveDuplicatesFromList] and [DeepEqualLists]. *)
Definition RemoveDuplicatesFromList (l : list string) : list string := sets_List (list_to_set l).
Definition DeepEqualLists (listA listB : list string) : bool :=
  bool_decide ((list_to_set listA : gset string) = list_to_set listB).

(** The loop over the ids of an annotation; [max] is the limit on their number. *)
Fixpoint nsg_ids_loop (max : option nat) (numOfNsgIds : nat) (value key : string)
    (ids : list string) : outcome (list string) :=
  match ids with
  | [] => Ret []
  | nsgOCID :: ids' =>
      let numOfNsgIds := S numOfNsgIds in
      if from_option (λ m, bool_decide (m < numOfNsgIds)) false max
      then Err (Errorf "invalid number of Network Security Groups (Max: 5) provided for annotation: %s" [key])
      else if decide (nsgOCID ≠ "")
      then rest ← nsg_ids_loop max numOfNsgIds value key ids'; mret (nsgOCID :: rest)
      else Err (Errorf "invalid NetworkSecurityGroups OCID: [%s] provided for annotation: %s" [value; key])
  end.

Definition getManagedBackendNSG (svc : Service) : outcome (list string) :=
  let key := ServiceAnnotationBackendSecurityRuleManagement in
  let value := annotation_value svc key in
  if decide (value = "") then Ret []
  else nsg_ids_loop None 0 value key
         (RemoveDuplicatesFromList (split_on ","%char (remove_spaces value))).

Definition getNetworkSecurityGroupIds (svc : Service) : outcome (list string) :=
  let key := if decide (getLoadBalancerType svc = NLB)
             then ServiceAnnotationNetworkLoadBalancerNetworkSecurityGroups
             else ServiceAnnotationLoadBalancerNetworkSecurityGroups in
  let value := annotation_value svc key in
  if decide (value = "") then Ret []
  else nsg_ids_loop (Some lbMaximumNetworkSecurityGroupIds) 0 value key
         (RemoveDuplicatesFromList (split_on ","%char (remove_spaces value))).

(** ** Flags *)

Definition isInternalLB (svc : Service) : outcome bool :=
  let key := if decide (getLoadBalancerType svc = NLB)
             then ServiceAnnotationNetworkLoadBalancerInternal
             else ServiceAnnotationLoadBalancerInternal in
  match annotation svc key with
  | None => Ret false
  | Some v => match ParseBool v with
              | Some internal => Ret internal
              | None => Err (Wrap (Errorf "strconv.ParseBool" [v])
                       "invalid value: %s provided for annotation: %s" [v; key])
              end
  end.

Definition getPreserveSourceAnnotation (svc : Service) : outcome bool :=
  match annotation svc ServiceAnnotationNetworkLoadBalancerIsPreserveSource with
  | Some v => match ParseBool v with
              | Some enable => Ret enable
              | None => Err (Errorf "failed to to parse %s annotation value - %s"
                       [ServiceAnnotationNetworkLoadBalancerIsPreserveSource; v])
              end
  | None => Ret true
  end.

Definition getPreserveSource (svc : Service) : outcome bool :=
  if decide (annotation_value svc ServiceAnnotationLoadBalancerType ≠ NLB) then Ret false
  else if decide (svc_ExternalTrafficPolicy svc = ServiceExternalTrafficPolicyCluster
                  ∧ is_Some (annotation svc ServiceAnnotationNetworkLoadBalancerIsPreserveSource))
  then Err (Errorf "%s annotation cannot be set when externalTrafficPolicy is set to Cluster"
              [ServiceAnnotationNetworkLoadBalancerIsPreserveSource])
  else
    enablePreservation ← getPreserveSourceAnnotation svc;
    mret (bool_decide (svc_ExternalTrafficPolicy svc = ServiceExternalTrafficPolicyLocal)
          && enablePreservation).

Definition isSkipPrivateIP (svc : Service) : outcome bool :=
  match annotation svc ServiceAnnotationNetworkLoadBalancerExternalIpOnly with
  | None => Ret false
  | Some v =>
      if decide (getLoadBalancerType svc ≠ NLB) then Ret false
      else
        internal ← isInternalLB svc;
        if internal : bool then Ret false
        else match ParseBool v with
             | Some skipPrivateIp => Ret skipPrivateIp
             | None => Err (Wrap (Errorf "strconv.ParseBool" [v])
                      "invalid value: %s provided for annotation: %s" [v; ""])
             end
  end.

(** ** Health checks *)

(** The common shape of the three integer annotations. *)
Definition int_annotation (svc : Service) (nlbKey lbKey : string) (dflt : Z)
    (check : Z → outcome Z) : outcome Z :=
  let key := if decide (getLoadBalancerType svc = NLB) then nlbKey else lbKey in
  match annotation svc key with
  | None => Ret dflt
  | Some v => match Atoi v with
              | None => Err (invalid_annotation v key)
              | Some i => check i
              end
  end.

Definition getHealthCheckRetries (svc : Service) : outcome Z :=
  int_annotation svc ServiceAnnotationNetworkLoadBalancerHealthCheckRetries
    ServiceAnnotationLoadBalancerHealthCheckRetries 3 Ret.

Definition getHealthCheckInterval (svc : Service) : outcome Z :=
  let '(lo, hi) := if decide (getLoadBalancerType svc = NLB)
                   then (NLBHealthCheckIntervalMin, NLBHealthCheckIntervalMax)
                   else (LBHealthCheckIntervalMin, LBHealthCheckIntervalMax) in
  int_annotation svc ServiceAnnotationNetworkLoadBalancerHealthCheckInterval
    ServiceAnnotationLoadBalancerHealthCheckInterval 10000
    (λ i, if decide (i < lo ∨ hi < i)%Z
          then Err (Errorf "invalid value for health check interval, should be between %v and %v"
                      [Itoa lo; Itoa hi])
          else Ret i).

Definition getHealthCheckTimeout (svc : Service) : outcome Z :=
  int_annotation svc ServiceAnnotationNetworkLoadBalancerHealthCheckTimeout
    ServiceAnnotationLoadBalancerHealthCheckTimeout 3000 Ret.

(** [helper.GetServiceHealthCheckPathPort] of the cloud provider library: the
    service's own health check port when traffic stays on the local node. *)
Definition GetServiceHealthCheckPathPort (svc : Service) : string * Z :=
  if decide (svc_Type svc = ServiceTypeLoadBalancer
             ∧ svc_ExternalTrafficPolicy svc = ServiceExternalTrafficPolicyLocal
             ∧ svc_HealthCheckNodePort svc ≠ 0%Z)
  then ("/healthz", svc_HealthCheckNodePort svc)
  else ("", 0%Z).

Definition getHealthChecker (svc : Service) : outcome GenericHealthChecker :=
  retries ← getHealthCheckRetries svc;
  intervalInMillis ← getHealthCheckInterval svc;
  timeoutInMillis ← getHealthCheckTimeout svc;
  let isForcePlainText :=
    bool_decide (is_Some (annotation svc ServiceAnnotationLoadBalancerTLSBackendSetSecret)) in
  let '(checkPath, checkPort) := GetServiceHealthCheckPathPort svc in
  let '(path, port) := if decide (checkPath ≠ "") then (checkPath, checkPort)
                       else ("/healthz", lbNodesHealthCheckPort) in
  mret {| hc_Protocol := "HTTP"; hc_IsForcePlainText := Some isForcePlainText;
          hc_Port := Some port; hc_UrlPath := Some path; hc_Retries := Some retries;
          hc_TimeoutInMillis := Some timeoutInMillis;
          hc_IntervalInMillis := Some intervalInMillis;
          hc_ResponseBodyRegex := None; hc_ReturnCode := Some 200%Z |}.

(** ** Shape *)

(** load_balancer_util.go, [parseFlexibleShapeBandwidth]. *)
Definition parseFlexibleShapeBandwidth (shape key : string) : outcome Z :=
  let processedString := filter_string is_alphanumeric shape in
  let processedString :=
    if HasSuffix processedString "Mbps" then TrimSuffix processedString "Mbps"
    else if HasSuffix processedString "mbps" then TrimSuffix processedString "mbps"
    else processedString in
  match Atoi processedString with
  | Some i => Ret i
  | None => Err (Errorf "invalid format for %s annotation : %v" [key; shape])
  end.

Definition getLBShape {RS} (svc : Service) (existingLB : option (GenericLoadBalancer RS))
    : outcome (string * option Z * option Z) :=
  if decide (getLoadBalancerType svc = NLB) then Ret (flexible, None, None)
  else
    '(shape, flexMinS, flexMaxS) ←
      match existingLB with
      | None => mret (lbDefaultShape, "", "")
      | Some lb =>
          shapeName ← deref (lb_ShapeName lb);
          if decide (shapeName = flexible) then
            details ← deref (lb_ShapeDetails lb);
            flexMin ← deref (sd_MinimumBandwidthInMbps details);
            flexMax ← deref (sd_MaximumBandwidthInMbps details);
            mret (flexible, Itoa flexMin, Itoa flexMax)
          else mret (lbDefaultShape, "", "")
      end;
    let shape := default shape (annotation svc ServiceAnnotationLoadBalancerShape) in
    let shape := if decide (ToLower shape = flexible) then flexible else shape in
    if decide (shape ≠ flexible) then Ret (shape, None, None)
    else
      let flexMinS := default flexMinS (annotation svc ServiceAnnotationLoadBalancerShapeFlexMin) in
      let flexMaxS := default flexMaxS (annotation svc ServiceAnnotationLoadBalancerShapeFlexMax) in
      if decide (flexMinS = "" ∨ flexMaxS = "")
      then Err (Errorf "error parsing service annotation: %s=flexible requires %s and %s to be set"
                  [ServiceAnnotationLoadBalancerShape; ServiceAnnotationLoadBalancerShapeFlexMin;
                   ServiceAnnotationLoadBalancerShapeFlexMax])
      else
        flexShapeMinMbps ← parseFlexibleShapeBandwidth flexMinS ServiceAnnotationLoadBalancerShapeFlexMin;
        flexShapeMaxMbps ← parseFlexibleShapeBandwidth flexMaxS ServiceAnnotationLoadBalancerShapeFlexMax;
        let mn := if decide (flexShapeMinMbps < 10)%Z then 10%Z else flexShapeMinMbps in
        let mx := if decide (flexShapeMaxMbps < 10)%Z then 10%Z else flexShapeMaxMbps in
        let mn := if decide (8192 < mn)%Z then 8192%Z else mn in
        let mx := if decide (8192 < mx)%Z then 8192%Z else mx in
        let mx := if decide (mx < mn)%Z then mn else mx in
        Ret (shape, Some mn, Some mx).

(** ** Policy and addresses *)

Definition getLoadBalancerPolicy (svc : Service) : outcome string :=
  let '(key, dflt, known) :=
    if decide (getLoadBalancerType svc = NLB)
    then (ServiceAnnotationNetworkLoadBalancerBackendPolicy, DefaultNetworkLoadBalancerPolicy,
          ["TWO_TUPLE"; "THREE_TUPLE"; "FIVE_TUPLE"])
    else (ServiceAnnotationLoadBalancerPolicy, DefaultLoadBalancerPolicy,
          ["IP_HASH"; "LEAST_CONNECTIONS"; "ROUND_ROBIN"]) in
  match annotation svc key with
  | None => Ret dflt
  | Some v => if decide (v ∈ known) then Ret v
              else Err (Errorf "loadbalancer policy %s is not valid" [v])
  end.

Section parsers.
Context {RS : Type} `{!Parsers RS}.

Definition getLoadBalancerIP (svc : Service) : outcome string :=
  let ipAddress := svc_LoadBalancerIP svc in
  if decide (ipAddress = "") then Ret ""
  else if negb (ParseIP ipAddress)
  then Err (Errorf "invalid value %q provided for LoadBalancerIP" [ipAddress])
  else match isInternalLB svc with
       | Ret true => Err (Errorf "invalid service: cannot create a private load balancer with Reserved IP" [])
       | Ret false => Ret ipAddress
       | Err e => Err e
       | Panic => Panic
       end.

Definition getIpFamilies (svc : Service) : list string := svc_IPFamilies svc.

Definition getIpFamilyPolicy (svc : Service) : string :=
  default IPFamilyPolicySingleStack (svc_IPFamilyPolicy svc).

(** [(requireIPv4, requireIPv6)]. *)
Definition getRequireIpVersions (listenerBackendSetIpVersion : list string) : bool * bool :=
  (contains listenerBackendSetIpVersion IPv4, contains listenerBackendSetIpVersion IPv6).

Definition isServiceDualStack (svc : Service) : bool :=
  match svc_IPFamilyPolicy svc with
  | None => false
  | Some p => bool_decide (p = IPFamilyPolicyRequireDualStack ∨ p = IPFamilyPolicyPreferDualStack)
  end.

(** load_balancer_util.go, [removeAtPosition]: the element at the position is
    replaced by the last one and the slice is shortened. *)
Definition removeAtPosition (slice : list string) (position : nat) : outcome (list string) :=
  _ ← index slice position;
  last ← index slice (length slice - 1);
  mret (take (length slice - 1) (<[position := last]> slice)).

Definition getLoadBalancerSourceRanges (service : Service) : outcome (list string) :=
  sourceCIDRs ← of_sum (GetLoadBalancerSourceRanges service);
  let requireIPv6 := contains (getIpFamilies service) IPv6 in
  if decide (1 < length sourceCIDRs
             ∨ (length sourceCIDRs = 1
                ∧ sourceCIDRs !! 0 ≠ Some defaultLoadBalancerSourceRangesIPv4))
  then Ret sourceCIDRs
  else if requireIPv6 then
    sourceCIDRs ←
      (if negb (isServiceDualStack service)
          && bool_decide (length sourceCIDRs = 1
                          ∧ sourceCIDRs !! 0 = Some defaultLoadBalancerSourceRangesIPv4)
       then removeAtPosition sourceCIDRs 0 else mret sourceCIDRs);
    mret (sourceCIDRs ++ [defaultLoadBalancerSourceRangesIPv6])
  else Ret sourceCIDRs.

Definition getLoadBalancerCompartment (svc : Service) (clusterCompartment : string) : string :=
  default clusterCompartment (annotation svc CompartmentIDAnnotation).

Definition getIngressIpMode (service : Service) : outcome (option string) :=
  match annotation service ServiceAnnotationIngressIpMode with
  | None => Ret None
  | Some ipMode =>
      if decide (ToLower ipMode = "proxy") then Ret (Some "Proxy")
      else if decide (ToLower ipMode = "vip") then Ret (Some "VIP")
      else Err (Errorf "IpMode can only be set as Proxy or VIP" [])
  end.

Definition getRuleSets (svc : Service) : outcome (option (gmap string RS)) :=
  match annotation svc ServiceAnnotationRuleSets with
  | None => Ret None
  | Some v =>
      if decide (getLoadBalancerType svc = NLB)
      then Err (Errorf "invalid annotation %s. Rule Sets are not supported by Network Load Balancer"
                  [ServiceAnnotationRuleSets])
      else of_sum (Decode_rulesets (if decide (v = "") then "{}" else v))
  end.

(** The closure assigns the named result [err], which the return statement reads
    after the two calls. *)
Definition getAssignedPrivateIP (svc : Service) : outcome (option string * option string) :=
  let v4 := annotation svc ServiceAnnotationNetworkLoadBalancerAssignedPrivateIpV4 in
  let v6 := annotation svc ServiceAnnotationNetworkLoadBalancerAssignedIpV6 in
  if decide (getLoadBalancerType svc ≠ NLB ∧ (is_Some v4 ∨ is_Some v6))
  then Err (Errorf "Private IP assignment via annoations %s & %s is supported only in OCI Network Loadbalancer. Set %s to %s"
              [ServiceAnnotationNetworkLoadBalancerAssignedPrivateIpV4;
               ServiceAnnotationNetworkLoadBalancerAssignedIpV6;
               ServiceAnnotationLoadBalancerType; NLB])
  else Ret (v4, v6).

(** ** Tags *)

(** [config.TagConfig]; a nil map and an empty one are not distinguished. *)
Record TagConfig := {
  tag_FreeformTags : gmap string string;
  tag_DefinedTags : gmap string (gmap string string);
}.

(** [config.InitialTags], the parts that are read here. *)
Record InitialTags := {
  it_LoadBalancer : option TagConfig;
  it_Common : option TagConfig;
}.

Definition getLoadBalancerTags (svc : Service) (initialTags : option InitialTags) : outcome TagConfig :=
  let orElse (a b : option string) := match a with Some _ => a | None => b end in
  let '(freeformAnnotation, definedAnnotation) :=
    if decide (getLoadBalancerType svc = NLB) then
      (orElse (annotation svc ServiceAnnotationNetworkLoadBalancerInitialFreeformTagsOverride)
              (annotation svc ServiceAnnotationNetworkLoadBalancerFreeformTags),
       orElse (annotation svc ServiceAnnotationNetworkLoadBalancerInitialDefinedTagsOverride)
              (annotation svc ServiceAnnotationNetworkLoadBalancerDefinedTags))
    else (annotation svc ServiceAnnotationLoadBalancerInitialFreeformTagsOverride,
          annotation svc ServiceAnnotationLoadBalancerInitialDefinedTagsOverride) in
  freeformTags ←
    (if decide (string_or_empty freeformAnnotation ≠ "")
     then wrap_err (of_sum (Unmarshal_freeform (string_or_empty freeformAnnotation)))
            "failed to parse free form tags annotation" []
     else mret ∅);
  definedTags ←
    (if decide (string_or_empty definedAnnotation ≠ "")
     then wrap_err (of_sum (Unmarshal_defined (string_or_empty definedAnnotation)))
            "failed to parse defined tags annotation" []
     else mret ∅);
  if decide (freeformTags ≠ ∅ ∨ definedTags ≠ ∅)
  then Ret {| tag_FreeformTags := freeformTags; tag_DefinedTags := definedTags |}
  else match initialTags ≫= it_LoadBalancer with
       | None => Ret {| tag_FreeformTags := ∅; tag_DefinedTags := ∅ |}
       | Some tags => Ret tags
       end.

(** pkg/util/commons.go: later maps win; a defined-tag namespace is taken whole. *)
Definition mergeFreeFormTags (src dst : gmap string string) : gmap string string := dst ∪ src.
Definition mergeDefinedTags (src dst : gmap string (gmap string string))
    : gmap string (gmap string string) := dst ∪ src.
Definition MergeTagConfig (srcTagConfig dstTagConfig : TagConfig) : TagConfig := {|
  tag_FreeformTags := mergeFreeFormTags (tag_FreeformTags srcTagConfig) (tag_FreeformTags dstTagConfig);
  tag_DefinedTags := mergeDefinedTags (tag_DefinedTags srcTagConfig) (tag_DefinedTags dstTagConfig) |}.

(** util.go: the OKE system tags among the common defined tags. *)
Definition getResourceTrackingSystemTagsFromConfig (initialTags : option InitialTags)
    : option (gmap string (gmap string string)) :=
  common ← (initialTags ≫= it_Common);
  tag ← tag_DefinedTags common !! OkeSystemTagNamesapce;
  Some {[OkeSystemTagNamesapce := tag]}.

End parsers.

(** ** Lemmas *)

Lemma getLoadBalancerType_cases svc :
  getLoadBalancerType svc = LB ∨ getLoadBalancerType svc = NLB.
Proof. unfold getLoadBalancerType. case_decide as H; [|by left]. destruct H; auto. Qed.

Lemma parse_bandwidth_Itoa n key :
  (0 ≤ n < 2 ^ 63)%Z → parseFlexibleShapeBandwidth (Itoa n) key = Ret n.
Proof.
  intros Hn. unfold parseFlexibleShapeBandwidth.
  rewrite (digits_alphanumeric 0 _ n) by (apply Itoa_digits; lia).
  rewrite (HasSuffix_no_byte "M" "Mbps"), (HasSuffix_no_byte "m" "mbps")
    by (done || by apply Itoa_no_byte).
  by rewrite Atoi_Itoa by lia.
Qed.

(** ** Properties *)

(** Whatever the annotations and the existing load balancer,
    a flexible shape of a load balancer has bandwidths within 10 and 8192 Mbps
    with the minimum at most the maximum, and any other shape has none. *)
Lemma getLBShape_bounds {RS} svc (lb : option (GenericLoadBalancer RS)) shape mn mx :
  getLoadBalancerType svc = LB →
  getLBShape svc lb = Ret (shape, mn, mx) →
  (shape = flexible ∧ ∃ lo hi, mn = Some lo ∧ mx = Some hi ∧ (10 ≤ lo ≤ hi ∧ hi ≤ 8192)%Z) ∨
  (shape ≠ flexible ∧ mn = None ∧ mx = None).
Proof.
  intros Ht. unfold getLBShape. rewrite Ht, decide_False by done.
  intros Hr. apply bind_Ret_inv in Hr as ([[s0 mn0] mx0] & _ & Hr).
  match type of Hr with context [decide (?s ≠ flexible)] => set (sh := s) in Hr end.
  destruct (decide (sh ≠ flexible)) as [Hs|Hs]; [by injection Hr as <- <- <-; right|].
  destruct (decide (_ ∨ _)); [done|].
  apply bind_Ret_inv in Hr as (a & _ & Hr). apply bind_Ret_inv in Hr as (b & _ & Hr).
  injection Hr as <- <- <-. left. split; [by apply dec_stable|].
  eexists _, _. split_and!; [done|done|..]; repeat case_decide; lia.
Qed.

(** A load balancer that is already flexible keeps the
    bandwidths configured on it when the service says nothing about its shape:
    they survive being printed and parsed back. *)
Lemma getLBShape_retains {RS} svc (lb : GenericLoadBalancer RS) mn mx :
  getLoadBalancerType svc = LB →
  annotation svc ServiceAnnotationLoadBalancerShape = None →
  annotation svc ServiceAnnotationLoadBalancerShapeFlexMin = None →
  annotation svc ServiceAnnotationLoadBalancerShapeFlexMax = None →
  lb_ShapeName lb = Some flexible →
  lb_ShapeDetails lb = Some {| sd_MinimumBandwidthInMbps := Some mn;
                               sd_MaximumBandwidthInMbps := Some mx |} →
  (10 ≤ mn ≤ mx ∧ mx ≤ 8192)%Z →
  getLBShape svc (Some lb) = Ret (flexible, Some mn, Some mx).
Proof.
  intros Ht H1 H2 H3 Hn Hd Hb. unfold getLBShape. rewrite Ht, decide_False by done.
  rewrite Hn. simpl. rewrite Hd. simpl. rewrite H1, H2, H3. simpl.
  rewrite decide_False.
  - rewrite !parse_bandwidth_Itoa by lia. simpl. repeat case_decide; try lia. done.
  - intros [E|E]; [pose proof (Atoi_Itoa mn) as H|pose proof (Atoi_Itoa mx) as H];
      rewrite E in H; by discriminate H; lia.
Qed.

Lemma int_annotation_Ret svc k1 k2 d check v :
  int_annotation svc k1 k2 d check = Ret v → v = d ∨ ∃ i, check i = Ret v.
Proof.
  unfold int_annotation. destruct (annotation _ _) as [s|]; [|intros [= <-]; by left].
  destruct (Atoi s) as [i|]; [|done]. eauto.
Qed.

(** A health checker that is built has its interval
    within the limits of the load balancer type, checks over HTTP for a 200, and
    uses the service's own port for local traffic and port 10256 otherwise. *)
Lemma getHealthChecker_bounds svc hc :
  getHealthChecker svc = Ret hc →
  (∃ i, hc_IntervalInMillis hc = Some i ∧
     ((if decide (getLoadBalancerType svc = NLB) then NLBHealthCheckIntervalMin
       else LBHealthCheckIntervalMin) ≤ i ≤ 1800000)%Z) ∧
  hc_Protocol hc = "HTTP" ∧ hc_UrlPath hc = Some "/healthz" ∧ hc_ReturnCode hc = Some 200%Z ∧
  hc_Port hc = Some (if decide (svc_Type svc = ServiceTypeLoadBalancer
                        ∧ svc_ExternalTrafficPolicy svc = ServiceExternalTrafficPolicyLocal
                        ∧ svc_HealthCheckNodePort svc ≠ 0%Z)
                     then svc_HealthCheckNodePort svc else lbNodesHealthCheckPort).
Proof.
  intros Hr. apply bind_Ret_inv in Hr as (r & _ & Hr).
  apply bind_Ret_inv in Hr as (i & Hi & Hr). apply bind_Ret_inv in Hr as (t & _ & Hr).
  assert (((if decide (getLoadBalancerType svc = NLB) then NLBHealthCheckIntervalMin
       else LBHealthCheckIntervalMin) ≤ i ≤ 1800000)%Z) as Hb.
  { unfold getHealthCheckInterval in Hi. case_decide;
      apply int_annotation_Ret in Hi as [->|[j Hj]];
      unfold NLBHealthCheckIntervalMin, LBHealthCheckIntervalMin, NLBHealthCheckIntervalMax,
        LBHealthCheckIntervalMax in *; try lia; case_decide; simplify_outcome; lia. }
  unfold GetServiceHealthCheckPathPort in Hr.
  destruct (decide (svc_Type svc = _ ∧ _)); simpl in Hr; injection Hr as <-; simpl;
    split_and!; eauto.
Qed.

Lemma nsg_ids_loop_Ret max n value key ids r :
  nsg_ids_loop max n value key ids = Ret r →
  r = ids ∧ ("" ∉ ids) ∧ from_option (λ m, ids = [] ∨ n + length ids ≤ m) True max.
Proof.
  revert n r. induction ids as [|i ids IH]; intros n r; simpl.
  { intros [= <-]. split_and!; [done|set_solver|]. destruct max; simpl; auto. }
  destruct (from_option _ _ _) eqn:Hm; [done|]. case_decide as Hi; [|done].
  intros Hr. apply bind_Ret_inv in Hr as (r' & (-> & He & Hl)%IH & [= <-]).
  split_and!; [done|set_solver|]. destruct max as [m|]; simpl in *; [|done]. right.
  apply bool_decide_eq_false in Hm. destruct Hl as [->|]; simpl; lia.
Qed.

(** The ids accepted from the annotation are
    exactly its comma-separated fields with spaces removed, without duplicates,
    none empty and at most five; so an annotation with an empty field or too
    many ids is refused. *)
Lemma getNetworkSecurityGroupIds_valid svc ids :
  getNetworkSecurityGroupIds svc = Ret ids →
  NoDup ids ∧ ("" ∉ ids) ∧ length ids ≤ lbMaximumNetworkSecurityGroupIds ∧
  let value := annotation_value svc (if decide (getLoadBalancerType svc = NLB)
                 then ServiceAnnotationNetworkLoadBalancerNetworkSecurityGroups
                 else ServiceAnnotationLoadBalancerNetworkSecurityGroups) in
  ∀ id, id ∈ ids ↔ value ≠ "" ∧ id ∈ split_on ","%char (remove_spaces value).
Proof.
  unfold getNetworkSecurityGroupIds. set (key := if decide (getLoadBalancerType svc = NLB) then _ else _).
  set (value := annotation_value svc key). cbv zeta. case_decide as Hv.
  { intros [= <-]. split_and!; [constructor|set_solver|simpl; lia|]. set_solver. }
  intros (-> & He & Hm)%nsg_ids_loop_Ret. simpl in Hm. unfold RemoveDuplicatesFromList in *.
  split_and!; [apply NoDup_sets_List|done| |].
  - destruct Hm as [->|]; simpl; lia.
  - intros id. rewrite elem_of_sets_List, elem_of_list_to_set. tauto.
Qed.

Lemma getSecurityListManagementMode_known svc mode :
  getSecurityListManagementMode svc = Ret mode → mode ∈ knownSecListModes.
Proof.
  unfold getSecurityListManagementMode, knownSecListModes.
  repeat case_match; intros [= <-]; set_solver.
Qed.

(** A mode that is accepted is All, Frontend,
    None or NSG; it is NSG exactly when the service asks for managed network
    security groups, and then, and only then, the managed group says so. *)
Lemma getRuleManagementMode_correct svc mode nsg :
  getRuleManagementMode svc = Ret (mode, nsg) →
  mode ∈ [ManagementModeAll; ManagementModeFrontend; ManagementModeNone; RuleManagementModeNsg] ∧
  (mode = RuleManagementModeNsg ↔ requiresNsgManagement svc = true) ∧
  (mn_nsgRuleManagementMode nsg = RuleManagementModeNsg ↔ mode = RuleManagementModeNsg) ∧
  mn_frontendNsgId nsg = "" ∧ mn_backendNsgId nsg = [].
Proof.
  unfold getRuleManagementMode, requiresNsgManagement, annotation_value.
  rewrite bool_decide_eq_true.
  destruct (annotation _ _) as [v|]; cbn [from_option].
  - change (ToLower RuleManagementModeNsg) with "nsg".
    repeat case_decide; intros Hr; try discriminate Hr; injection Hr as <- <-;
      split_and!; try done; try set_solver; split; try done;
      unfold id; intros E; rewrite E in *; done.
  - intros Hr. apply bind_Ret_inv in Hr as (m & Hm%getSecurityListManagementMode_known & Hr).
    injection Hr as <- <-.
    unfold knownSecListModes in Hm. split_and!; try done; [set_solver|..]; split; try done;
      intros ->; by repeat (apply elem_of_cons in Hm as [?|Hm]; [done|]); apply elem_of_nil in Hm.
Qed.

(** A valid service has UDP ports only on a network
    load balancer that manages no security lists. *)
Lemma validateService_protocols svc p :
  validateService svc = Ret () → p ∈ svc_Ports svc → port_Protocol p = ProtocolUDP →
  getLoadBalancerType svc = NLB ∧ getSecurityListManagementMode svc = Ret ManagementModeNone.
Proof.
  intros Hr Hp HU. apply bind_Ret_inv in Hr as (mode & Hm & Hr).
  apply bind_Ret_inv in Hr as ([] & Hv & _).
  destruct (getLoadBalancerType_cases svc) as [Ht|Ht]; rewrite Ht in *;
    induction (svc_Ports svc) as [|q ports IH]; simpl in Hv; try set_solver.
  - case_decide as H1; [done|]. case_decide; [done|].
    apply elem_of_cons in Hp as [->|Hp]; [by destruct H1|by apply IH].
  - case_decide; [done|]. case_decide as H2; [done|].
    apply elem_of_cons in Hp as [->|Hp]; [|by apply IH]. split; [done|]. rewrite Hm. f_equal.
    apply dec_stable. intros Hne. by apply H2.
Qed.

Section ranges.
Context {RS : Type} `{!Parsers RS}.

(** Ranges given by the user are kept as
    they are; for the default range, an IPv6-only service admits exactly ::/0, a
    dual-stack one 0.0.0.0/0 and ::/0, and an IPv4 one 0.0.0.0/0. *)
Lemma getLoadBalancerSourceRanges_defaults svc ranges :
  GetLoadBalancerSourceRanges svc = inr ranges → ranges ≠ [] →
  getLoadBalancerSourceRanges svc =
    Ret (if decide (ranges ≠ [defaultLoadBalancerSourceRangesIPv4]) then ranges
         else if negb (contains (svc_IPFamilies svc) IPv6) then [defaultLoadBalancerSourceRangesIPv4]
         else if isServiceDualStack svc
         then [defaultLoadBalancerSourceRangesIPv4; defaultLoadBalancerSourceRangesIPv6]
         else [defaultLoadBalancerSourceRangesIPv6]).
Proof.
  intros Hr Hne. unfold getLoadBalancerSourceRanges, getIpFamilies. rewrite Hr. simpl.
  destruct ranges as [|r [|r2 rs]]; [done| |].
  - destruct (decide (r = defaultLoadBalancerSourceRangesIPv4)) as [->|Hd].
    + rewrite decide_False by (simpl; intros [?|[_ []]]; [lia|done]).
      rewrite (decide_False (P := _ ≠ _)) by naive_solver.
      destruct (contains _ _); simpl; [|done]. by destruct (isServiceDualStack svc).
    + rewrite decide_True by (simpl; right; split; [done|by intros [= ->]]).
      by rewrite decide_True by (by intros [= ->]).
  - rewrite decide_True by (simpl; lia). by rewrite decide_True.
Qed.

End ranges.

(** ** The properties at concrete inputs *)

Definition example_svc (annotations : gmap string string) (ports : list ServicePort) : Service := {|
  svc_Namespace := "default"; svc_Name := "svc"; svc_UID := "uid"; svc_Annotations := annotations;
  svc_DeletionTimestamp := None; svc_Type := ServiceTypeLoadBalancer; svc_Ports := ports;
  svc_SessionAffinity := ServiceAffinityNone;
  svc_ExternalTrafficPolicy := ServiceExternalTrafficPolicyCluster;
  svc_HealthCheckNodePort := 0; svc_LoadBalancerIP := "";
  svc_IPFamilies := [IPv4; IPv6]; svc_IPFamilyPolicy := Some IPFamilyPolicyPreferDualStack |}.

Definition example_port (proto : string) (port nodePort : Z) : ServicePort :=
  {| port_Protocol := proto; port_Port := port; port_NodePort := nodePort |}.

Definition example_lb (shape : string) (mn mx : Z) : GenericLoadBalancer () := {|
  lb_Id := Some "lb"; lb_CompartmentId := None; lb_DisplayName := None; lb_LifecycleState := None;
  lb_ShapeName := Some shape; lb_IpAddresses := [];
  lb_ShapeDetails := Some {| sd_MinimumBandwidthInMbps := Some mn;
                             sd_MaximumBandwidthInMbps := Some mx |};
  lb_IsPrivate := None; lb_SubnetIds := []; lb_NetworkSecurityGroupIds := Some [];
  lb_Listeners := ∅; lb_Certificates := ∅; lb_BackendSets := ∅; lb_RuleSets := ∅;
  lb_IpVersion := None; lb_FreeformTags := ∅; lb_DefinedTags := ∅; lb_SystemTags := None |}.

(** Parsers that accept what the examples use. *)
Definition example_parsers : Parsers () := {|
  GetLoadBalancerSourceRanges _ := inr [defaultLoadBalancerSourceRangesIPv4];
  ParseIP _ := true;
  IsIPv4String s := has_byte "."%char s;
  IsIPv6String s := has_byte ":"%char s;
  Unmarshal_ssl _ := inr None;
  Unmarshal_freeform _ := inr ∅;
  Unmarshal_defined _ := inr ∅;
  Decode_rulesets _ := inr None;
|}.

Lemma getLBShape_bounds_witness :
  let svc := example_svc (<[ServiceAnnotationLoadBalancerShape := "Flexible"]>
    (<[ServiceAnnotationLoadBalancerShapeFlexMin := "9000Mbps"]>
      {[ServiceAnnotationLoadBalancerShapeFlexMax := "20 Mbps"]})) [] in
  getLBShape svc (None : option (GenericLoadBalancer ())) = Ret (flexible, Some 8192%Z, Some 8192%Z) ∧
  (flexible = flexible ∧ ∃ lo hi, Some 8192%Z = Some lo ∧ Some 8192%Z = Some hi
     ∧ (10 ≤ lo ≤ hi ∧ hi ≤ 8192)%Z ∨ (flexible ≠ flexible ∧ Some 8192%Z = None ∧ Some 8192%Z = None)).
Proof.
  intros svc. split; [by vm_compute|].
  destruct (getLBShape_bounds svc (None : option (GenericLoadBalancer ())) flexible
    (Some 8192%Z) (Some 8192%Z)) as [(? & lo & hi & ?)|?]; [by vm_compute..| |naive_solver].
  split; [done|]. exists lo, hi. by left.
Defined.

Lemma getHealthChecker_bounds_witness :
  let svc := example_svc {[ServiceAnnotationLoadBalancerHealthCheckInterval := "5000"]} [] in
  ∃ hc, getHealthChecker svc = Ret hc ∧ hc_Port hc = Some 10256%Z.
Proof.
  intros svc. eexists. split; [by vm_compute|].
  match goal with |- hc_Port ?hc = _ => pose proof (getHealthChecker_bounds svc hc) as H end.
  by destruct H as (_ & _ & _ & _ & H); [by vm_compute|].
Defined.

Lemma getNetworkSecurityGroupIds_valid_witness :
  let svc := example_svc {[ServiceAnnotationLoadBalancerNetworkSecurityGroups := "b, a,b"]} [] in
  getNetworkSecurityGroupIds svc = Ret ["a"; "b"] ∧ NoDup ["a"; "b"].
Proof.
  intros svc. split; [by vm_compute|].
  apply (getNetworkSecurityGroupIds_valid svc). by vm_compute.
Defined.

Lemma getRuleManagementMode_correct_witness :
  let svc := example_svc {[ServiceAnnotationLoadBalancerSecurityRuleManagementMode := "nsg"]} [] in
  ∃ nsg, getRuleManagementMode svc = Ret (RuleManagementModeNsg, nsg) ∧ mn_backendNsgId nsg = [].
Proof.
  intros svc. eexists. split; [by vm_compute|].
  refine (proj2 (proj2 (proj2 (proj2 (getRuleManagementMode_correct svc _ _ _))))).
  by vm_compute.
Defined.

Lemma validateService_protocols_witness :
  let svc := example_svc {[ServiceAnnotationLoadBalancerType := "NLB"]}
    [example_port "TCP" 80 30080; example_port "UDP" 53 30053] in
  getLoadBalancerType svc = NLB ∧ getSecurityListManagementMode svc = Ret ManagementModeNone.
Proof.
  intros svc.
  apply (validateService_protocols svc (example_port "UDP" 53 30053)); [by vm_compute| |done].
  right. by left.
Defined.

