(* ===== verification/Provider.v ===== *)
(** * Decisions of the cloud provider (load_balancer.go)

    Which subnets a load balancer uses, whether the nodes reported to the
    controller can be trusted, and the status published for a service. *)
From stdpp Require Import base tactics list gmap sets strings.
From S2P Require Import Prelude GoStrings Types Annotations.

(** ** Subnets of a load balancer *)

(** [NetworkingInterface.IsRegionalSubnet]. *)
Class RegionalClient (W : Type) := { IsRegionalSubnet : string → M W bool }.

Definition getDefaultLBSubnets (subnet1 subnet2 : string) : list string :=
  if decide (subnet2 ≠ "") then [subnet1; subnet2] else [subnet1].

(** [subnet1] and [subnet2] are those of the configuration. *)
Definition getNetworkLoadbalancerSubnets (subnet1 subnet2 : string) (svc : Service) : outcome (list string) :=
  let subnets := getDefaultLBSubnets subnet1 subnet2 in
  let s := annotation_value svc ServiceAnnotationNetworkLoadBalancerSubnet in
  if decide (s ≠ "") then Ret [s]
  else match subnets with
       | [] => Err (Errorf "a subnet must be specified for a network load balancer to get created" [])
       | first :: _ => if decide (first ≠ "") then Ret [first]
                       else Err (Errorf "a subnet must be specified for a network load balancer" [])
       end.

Section subnets.
Context {W : Type} `{!RegionalClient W}.

(** The steps for the two annotations: [inl] is a subnet that is returned at once. *)
Definition first_subnet (svc : Service) (subnets : list string) : M W (list string + list string) :=
  let s := annotation_value svc ServiceAnnotationLoadBalancerSubnet1 in
  if decide (s ≠ "") then
    let subnets := <[0 := s]> subnets in
    regional ← IsRegionalSubnet s;
    mret (if (regional : bool) then inl (take 1 subnets) else inr subnets)
  else mret (inr subnets).

Definition second_subnet (svc : Service) (subnets : list string) : M W (list string + list string) :=
  let s := annotation_value svc ServiceAnnotationLoadBalancerSubnet2 in
  if decide (s ≠ "") then
    regional ← IsRegionalSubnet s;
    mret (if (regional : bool) then inl (take 1 (<[0 := s]> subnets))
          else if decide (1 < length subnets) then inr (<[1 := s]> subnets)
          else inr (subnets ++ [s]))
  else mret (inr subnets).

Definition getOciLoadBalancerSubnets (subnet1 subnet2 : string) (svc : Service) : M W (list string) :=
  internal ← lift (isInternalLB svc);
  r ← first_subnet svc (getDefaultLBSubnets subnet1 subnet2);
  match r with
  | inl subnets => mret subnets
  | inr subnets =>
      r ← second_subnet svc subnets;
      match r with
      | inl subnets => mret subnets
      | inr subnets =>
          first ← lift (index subnets 0);
          second ← lift (if decide (length subnets = 2) then index subnets 1 else mret "unused");
          if decide (first = "" ∨ second = "")
          then fail (Errorf "a subnet must be specified for creating a load balancer" [])
          else mret (if (internal : bool) then take 1 subnets else subnets)
      end
  end.

Definition getLoadBalancerSubnets (subnet1 subnet2 : string) (svc : Service) : M W (list string) :=
  if decide (getLoadBalancerType svc = NLB) then lift (getNetworkLoadbalancerSubnets subnet1 subnet2 svc)
  else getOciLoadBalancerSubnets subnet1 subnet2 svc.

(** The lists the steps work on. *)
Definition one_or_two (subnets : list string) : Prop := length subnets = 1 ∨ length subnets = 2.

Lemma getDefaultLBSubnets_length subnet1 subnet2 : one_or_two (getDefaultLBSubnets subnet1 subnet2).
Proof. unfold getDefaultLBSubnets, one_or_two. case_decide; auto. Qed.

Lemma take_insert_0 s (subnets : list string) : one_or_two subnets → take 1 (<[0 := s]> subnets) = [s].
Proof. intros [H|H]; by destruct subnets as [|? []]. Qed.

Lemma first_subnet_spec svc subnets w r w' :
  one_or_two subnets → first_subnet svc subnets w = (Ret r, w') →
  match r with
  | inl l => ∃ s, l = [s] ∧ s ≠ ""
  | inr l => one_or_two l
  end.
Proof.
  intros Hl Hr. unfold first_subnet in Hr. case_decide as Hs; [|by injection Hr as <- <-].
  apply M_bind_Ret_inv in Hr as ([] & w1 & _ & Hr); injection Hr as <- <-.
  - rewrite take_insert_0 by done. eauto.
  - unfold one_or_two in *. by rewrite length_insert.
Qed.

Lemma second_subnet_spec svc subnets w r w' :
  one_or_two subnets → second_subnet svc subnets w = (Ret r, w') →
  match r with
  | inl l => ∃ s, l = [s] ∧ s ≠ ""
  | inr l => one_or_two l
  end.
Proof.
  intros Hl Hr. unfold second_subnet in Hr. case_decide as Hs; [|by injection Hr as <- <-].
  apply M_bind_Ret_inv in Hr as ([] & w1 & _ & Hr); injection Hr as <- <-.
  - rewrite take_insert_0 by done. eauto.
  - unfold one_or_two in *. case_decide; rewrite ?length_insert, ?length_app; simpl; lia.
Qed.

(** The final check: no subnet is empty. *)
Lemma checked_subnets l (first second : string) :
  one_or_two l → index l 0 = Ret first → (if decide (length l = 2) then index l 1 else mret "unused") = Ret second →
  ¬ (first = "" ∨ second = "") → "" ∉ l.
Proof.
  intros [Hl|Hl] H0 H1 Hne; destruct l as [|a [|b []]]; try done; simpl in *; injection H0 as ->.
  - set_solver.
  - injection H1 as ->. set_solver.
Qed.

(** The subnets chosen for a load balancer are one
    or two, none of them empty; a network load balancer and an internal load
    balancer have exactly one. *)
Lemma getLoadBalancerSubnets_valid subnet1 subnet2 svc w subnets w' :
  getLoadBalancerSubnets subnet1 subnet2 svc w = (Ret subnets, w') →
  one_or_two subnets ∧ ("" ∉ subnets) ∧
  (getLoadBalancerType svc = NLB ∨ isInternalLB svc = Ret true → length subnets = 1).
Proof.
  intros Hr. unfold getLoadBalancerSubnets in Hr.
  assert (∀ s, subnets = [s] → s ≠ "" → one_or_two subnets ∧ ("" ∉ subnets) ∧
    (getLoadBalancerType svc = NLB ∨ isInternalLB svc = Ret true → length subnets = 1)) as Hone.
  { intros s -> Hs. split_and!; [by left|set_solver|done]. }
  destruct (decide (getLoadBalancerType svc = NLB)) as [Ht|Ht].
  { injection Hr as Hr <-. unfold getNetworkLoadbalancerSubnets, getDefaultLBSubnets in Hr.
    repeat case_decide; try done; injection Hr as <-; by eapply Hone. }
  apply M_bind_Ret_inv in Hr as (internal & w1 & Hi & Hr). injection Hi as Hi <-.
  apply M_bind_Ret_inv in Hr as (r & w2 & H1 & Hr).
  apply first_subnet_spec in H1; [|apply getDefaultLBSubnets_length].
  destruct r as [l|l]; [injection Hr as <- <-; destruct H1 as (s & ? & ?); by eapply Hone|].
  apply M_bind_Ret_inv in Hr as (r & w3 & H2 & Hr). apply second_subnet_spec in H2; [|done].
  destruct r as [l'|l']; [injection Hr as <- <-; destruct H2 as (s & ? & ?); by eapply Hone|].
  apply M_bind_Ret_inv in Hr as (first & w4 & H3 & Hr). injection H3 as H3 <-.
  apply M_bind_Ret_inv in Hr as (second & w5 & H4 & Hr). injection H4 as H4 <-.
  destruct (decide (first = "" ∨ second = "")) as [|Hne]; [done|].
  pose proof (checked_subnets _ _ _ H2 H3 H4 Hne) as Hempty. injection Hr as <- _.
  rewrite Hi. destruct internal; [|split_and!; [done..|naive_solver]].
  destruct l' as [|a l']; [by destruct H2|]. split_and!; [by left|set_solver|done].
Qed.
End subnets.

(** ** Nodes *)

Definition excludeBackendFromLBLabel : string := "node.kubernetes.io/exclude-from-external-load-balancers".
Definition NodeReady : string := "Ready".
Definition ConditionTrue : string := "True".

(** The status of the first condition of type Ready is True. *)
Definition node_ready (node : Node) : bool :=
  match list_find (λ c, cond_Type c = NodeReady) (node_Conditions node) with
  | Some (_, c) => bool_decide (cond_Status c = ConditionTrue)
  | None => false
  end.

Definition node_excluded (node : Node) : bool :=
  bool_decide (is_Some (node_Labels node !! excludeBackendFromLBLabel)).

Fixpoint checkAllBackendNodesNotReady (nodeList : list Node) : bool :=
  match nodeList with
  | [] => true
  | node :: rest =>
      if node_excluded node then checkAllBackendNodesNotReady rest
      else if node_ready node then false
      else checkAllBackendNodesNotReady rest
  end.

(** [nodeLister] answers the nodes of the cluster; the result tells a partition. *)
Definition checkForNetworkPartition (nodeLister : error + list Node) (nodes : list Node) : outcome bool :=
  if decide (length nodes = 0) then
    match nodeLister with
    | inl err => Err err
    | inr nodeList =>
        if decide (length nodeList = 0) then Ret false
        else if checkAllBackendNodesNotReady nodeList then Ret true
        else Err (Errorf "backend node status is inconsistent, will retry" [])
    end
  else Ret false.

(** [selector.Matches] of a parsed selector, which a parse error replaces. *)
Definition filterNodes (selector : error + (gmap string string → bool)) (nodes : list Node)
    : outcome (list Node) :=
  match selector with
  | inl err => Err err
  | inr matches => Ret (filter (λ n, matches (node_Labels n) = true) nodes)
  end.

Lemma checkAllBackendNodesNotReady_spec nodes :
  checkAllBackendNodesNotReady nodes = true ↔
  ∀ n, n ∈ nodes → node_excluded n = false → node_ready n = false.
Proof.
  induction nodes as [|n nodes IH]; simpl.
  { split; [intros _ n Hn; by apply not_elem_of_nil in Hn|done]. }
  setoid_rewrite elem_of_cons. destruct (node_excluded n) eqn:He; [|destruct (node_ready n) eqn:Hn].
  - rewrite IH. split; [|by eauto]. intros H m [->|Hm] Hx; [congruence|auto].
  - split; [done|]. intros H. rewrite (H n) in Hn; [done|by left|done].
  - rewrite IH. split; [|by eauto]. intros H m [->|Hm] Hx; auto.
Qed.

(** Backends are never removed because nodes look
    unready: with an empty list of nodes the update goes on only if the cluster has
    no node, stops quietly if every node that may be a backend is not ready, and is
    retried with an error if some is ready or the nodes cannot be listed. *)
Lemma checkForNetworkPartition_correct lister nodes r :
  checkForNetworkPartition lister nodes = r →
  match r with
  | Ret false => nodes ≠ [] ∨ lister = inr []
  | Ret true => nodes = [] ∧ ∃ all, lister = inr all ∧ all ≠ [] ∧
                  ∀ n, n ∈ all → node_excluded n = false → node_ready n = false
  | Err _ => nodes = [] ∧ ((∃ e, lister = inl e) ∨
               ∃ all n, lister = inr all ∧ n ∈ all ∧ node_excluded n = false ∧ node_ready n = true)
  | Panic => False
  end.
Proof.
  intros <-. unfold checkForNetworkPartition. destruct nodes as [|n0 nodes]; simpl; [|by left].
  destruct lister as [e|all]; [by eauto|]. destruct all as [|n all]; [by right|]. simpl.
  destruct (checkAllBackendNodesNotReady (n :: all)) eqn:E.
  - change (checkAllBackendNodesNotReady (n :: all) = true) in E.
    simpl in E |- *. rewrite E. split; [done|]. exists (n :: all). split_and!; [done..|].
    by apply checkAllBackendNodesNotReady_spec.
  - simpl in E |- *. rewrite E. split; [done|]. right.
    destruct (decide (Exists (λ n, node_excluded n = false ∧ node_ready n = true) (n :: all))) as [Hex|Hno].
    + apply Exists_exists in Hex as (m & ? & ? & ?). by exists (n :: all), m.
    + exfalso. assert (checkAllBackendNodesNotReady (n :: all) = true) as E'; [|simpl in E'; congruence].
      apply checkAllBackendNodesNotReady_spec. intros m Hm He. destruct (node_ready m) eqn:Hr; [|done].
      exfalso. apply Hno, Exists_exists. by exists m.
Qed.

(** ** The status of a service *)

Definition LifecycleStateFailed : string := "FAILED".

(** [v1.LoadBalancerIngress]. *)
Record LoadBalancerIngress := { ing_IP : string; ing_IPMode : option string }.

Definition loadBalancerToStatus {RS} (lb : GenericLoadBalancer RS) (ipMode : option string)
    (skipPrivateIp : bool) : outcome (list LoadBalancerIngress) :=
  if decide (length (lb_IpAddresses lb) = 0) then
    if decide (lb_LifecycleState lb = Some LifecycleStateFailed) then
      _ ← deref (lb_Id lb); mret []
    else
      name ← deref (lb_DisplayName lb);
      Err (Errorf "no ip addresses found for load balancer %q" [name])
  else
    mret (omap (λ ip,
      address ← ip_IpAddress ip;
      if skipPrivateIp && negb (toBool (ip_IsPublic ip)) then None
      else Some {| ing_IP := address; ing_IPMode := ipMode |}) (lb_IpAddresses lb)).

(** The status lists exactly the addresses of the load
    balancer, only the public ones if private addresses are skipped; it is empty
    for a load balancer without addresses only if that failed, and an error
    otherwise. *)
Lemma loadBalancerToStatus_correct {RS} (lb : GenericLoadBalancer RS) mode skip status :
  loadBalancerToStatus lb mode skip = Ret status →
  (∀ i, i ∈ status ↔ ing_IPMode i = mode ∧ ∃ ip, ip ∈ lb_IpAddresses lb ∧
     ip_IpAddress ip = Some (ing_IP i) ∧ (skip = true → ip_IsPublic ip = Some true)) ∧
  (lb_IpAddresses lb = [] → status = [] ∧ lb_LifecycleState lb = Some LifecycleStateFailed).
Proof.
  intros Hr. unfold loadBalancerToStatus in Hr. destruct (decide (length _ = 0)) as [Hl|Hl].
  - apply nil_length_inv in Hl. rewrite Hl. case_decide as Hf.
    + destruct (lb_Id lb); [|done]. injection Hr as <-. split; [|done].
      intros i. split; [set_solver|]. intros (_ & ip & ? & _). set_solver.
    + by destruct (lb_DisplayName lb).
  - injection Hr as <-. split; [|by intros E; rewrite E in Hl]. intros [a m]. rewrite list_elem_of_omap. simpl. split.
    + intros (ip & Hin & Hs). destruct (ip_IpAddress ip) as [address|] eqn:Ea; [|done]. simpl in Hs.
      destruct (skip && _) eqn:Hk; [done|]. injection Hs as <- <-. split; [done|].
      exists ip. split_and!; [done..|]. intros ->. unfold toBool in Hk.
      destruct (ip_IsPublic ip) as [[]|]; done.
    + intros (<- & ip & Hin & Ha & Hp). exists ip. split; [done|]. rewrite Ha. simpl.
      destruct skip; [|done]. by rewrite Hp.
Qed.

(** ** The properties at concrete inputs *)

Definition all_regional : RegionalClient () := {| IsRegionalSubnet _ := mret false |}.

Lemma getLoadBalancerSubnets_valid_witness :
  let _ := all_regional in
  let svc := example_svc {[ServiceAnnotationLoadBalancerSubnet2 := "b"]} [] in
  getLoadBalancerSubnets "a" "" svc () = (Ret ["a"; "b"], ()) ∧ "" ∉ ["a"; "b"].
Proof.
  intros C svc. split; [by vm_compute|].
  refine (proj1 (proj2 (getLoadBalancerSubnets_valid "a" "" svc () ["a"; "b"] () _))). by vm_compute.
Defined.

Definition example_cluster_node (status : string) : Node := {|
  node_Name := "n"; node_Labels := ∅; node_Annotations := ∅; node_ProviderID := "";
  node_Addresses := []; node_Conditions := [{| cond_Type := NodeReady; cond_Status := status |}] |}.

Lemma checkForNetworkPartition_correct_witness :
  checkForNetworkPartition (inr [example_cluster_node "Unknown"]) [] = Ret true ∧
  ∃ all, inr [example_cluster_node "Unknown"] = inr (A := error) all ∧ all ≠ [].
Proof.
  split; [by vm_compute|].
  destruct (checkForNetworkPartition_correct (inr [example_cluster_node "Unknown"]) [] (Ret true))
    as [_ (all & ? & ? & _)]; [by vm_compute|]. by exists all.
Defined.

Lemma loadBalancerToStatus_correct_witness :
  let lb := example_lb flexible 10 100 in
  let lb := {| lb_Id := lb_Id lb; lb_CompartmentId := None; lb_DisplayName := None;
     lb_LifecycleState := Some LifecycleStateFailed; lb_ShapeName := None; lb_IpAddresses := [];
     lb_ShapeDetails := None; lb_IsPrivate := None; lb_SubnetIds := []; lb_NetworkSecurityGroupIds := Some [];
     lb_Listeners := ∅; lb_Certificates := ∅; lb_BackendSets := ∅; lb_RuleSets := ∅ : gmap string ();
     lb_IpVersion := None; lb_FreeformTags := ∅; lb_DefinedTags := ∅; lb_SystemTags := None |} in
  loadBalancerToStatus lb None true = Ret [] ∧ lb_LifecycleState lb = Some LifecycleStateFailed.
Proof.
  intros lb0 lb. split; [done|].
  refine (proj2 (proj2 (loadBalancerToStatus_correct lb None true [] _) _)); done.
Defined.
