(* ===== verification/Names.v ===== *)
(** * Names (load_balancer_util.go and load_balancer_spec.go)

    The names of listeners, backend sets, load balancers and security groups,
    and the small conversions of load_balancer_util.go. *)
From stdpp Require Import base tactics list gmap sets strings.
From Stdlib Require Import Ascii.
From S2P Require Import Prelude GoStrings Types Annotations.

Definition ProtocolTypeMixed : string := "TCP_AND_UDP".

(** [getListenerName] and [getBackendSetName]. *)
Definition getListenerName (protocol : string) (port : Z) : string :=
  protocol +:+ "-" +:+ Itoa port.
Definition getBackendSetName (protocol : string) (port : Z) : string :=
  protocol +:+ "-" +:+ Itoa port.

(** The slice [fields] is never empty; its first field is replaced in place. *)
Definition getSanitizedName (name : string) : string :=
  let fields := split_on "-"%char name in
  let '(fields, name) :=
    if EqualFold (default "" (head fields)) "HTTP"
    then let fields := "TCP" :: tail fields in (fields, join "-" fields)
    else (fields, name) in
  if decide (2 < length fields)
  then if contains fields IPv6 then join "-" (take 3 fields) else join "-" (take 2 fields)
  else name.

(** [prefixEnv] is the value of the environment variable LOAD_BALANCER_PREFIX. *)
Definition GetLoadBalancerName (prefixEnv : string) (service : Service) : string :=
  let name :=
    if decide (getLoadBalancerType service = NLB)
    then svc_Namespace service +:+ "/" +:+ svc_Name service +:+ "/" +:+ svc_UID service
    else
      let prefix := if bool_decide (prefixEnv ≠ "") && negb (HasSuffix prefixEnv "-")
                    then prefixEnv +:+ "-" else prefixEnv in
      prefix +:+ svc_UID service in
  if decide (1024 < String.length name) then truncate 1024 name else name.

Definition generateNsgName (service : Service) : string :=
  let name := svc_Namespace service +:+ "/" +:+ svc_Name service +:+ "/" +:+ svc_UID service
              +:+ "/nsg" in
  if decide (255 < String.length name) then truncate 255 name else name.

Definition getSSLEnabledPorts (svc : Service) : outcome (list Z) :=
  let value := annotation_value svc ServiceAnnotationLoadBalancerSSLPorts in
  if decide (value = "") then Ret []
  else mapM (λ s, match Atoi (TrimSpace s) with
                  | Some port => Ret port
                  | None => Err (Errorf "parse SSL port: %v" [s])
                  end) (split_on ","%char value).

Definition parseSecretString (secretString : string) : string * string :=
  match split_on "/"%char secretString with
  | f0 :: f1 :: _ => (f0, f1)
  | _ => ("", secretString)
  end.

(** [(name, namespace)]. *)
Definition getSecretParts (secretString : string) (service : Service) : outcome (string * string) :=
  if decide (secretString = "") then Ret ("", "")
  else if negb (Contains secretString "/") then Ret (secretString, svc_Namespace service)
  else
    let parts := split_on "/"%char secretString in
    p1 ← index parts 1; p0 ← index parts 0; mret (p1, p0).

(** The metric names of pkg/metrics/constants.go. *)
Definition getMetric (resourceType : string) (metricType : ActionType) : string :=
  let metric (c u d : string) :=
    match metricType with Create => c | Update => u | Delete => d | OtherAction _ => "" end in
  if decide (resourceType = LB) then metric "LB_PROVISION" "LB_UPDATE" "LB_DELETE"
  else if decide (resourceType = NLB) then metric "NLB_PROVISION" "NLB_UPDATE" "NLB_DELETE"
  else if decide (resourceType = NSG) then metric "NSG_PROVISION" "NSG_UPDATE" "NSG_DELETE"
  else "".

Definition hasIpVersionChanged (previousIpVersion currentIpVersion : string) : bool :=
  negb (EqualFold previousIpVersion currentIpVersion).

Definition hasLoadBalancerNetworkSecurityGroupsChanged (actual desired : list string) : bool :=
  negb (DeepEqualLists actual desired).

Definition convertK8sIpFamiliesToOciIpVersion (ipFamily : string) : string :=
  if decide (ipFamily = IPv4) then GenericIPv4
  else if decide (ipFamily = IPv6) then GenericIPv6
  else if decide (ipFamily = IPv4AndIPv6) then GenericIPv4AndIPv6
  else GenericIPv4.

Definition convertOciIpVersionsToOciIpFamilies (ipVersions : list string) : list string :=
  if decide (length ipVersions = 0) then [IPv4]
  else (λ ipVersion,
    if decide (ipVersion = GenericIPv4) then IPv4
    else if decide (ipVersion = GenericIPv6) then IPv6
    else if decide (ipVersion = GenericIPv4AndIPv6) then IPv4AndIPv6
    else IPv4) <$> ipVersions.

(** ** The names the controller makes *)

(** The listener of a protocol, port and IP family. *)
Definition listener_name (protocol : string) (port : Z) (v6 : bool) : string :=
  if v6 then getListenerName protocol port +:+ "-" +:+ IPv6 else getListenerName protocol port.

(** The protocol under which a listener is compared and sorted. *)
Definition sanitized_protocol (protocol : string) : string :=
  if EqualFold protocol "HTTP" then "TCP" else protocol.

(** ** Lemmas *)

Lemma listener_name_join p port v6 :
  listener_name p port v6 = join "-" (p :: Itoa port :: (if v6 then [IPv6] else [])).
Proof.
  unfold listener_name, getListenerName. destruct v6; simpl; [|done]. by rewrite <-!append_assoc.
Qed.

Lemma listener_name_fields p port v6 :
  has_byte "-" p = false → (0 ≤ port)%Z →
  split_on "-"%char (listener_name p port v6) = p :: Itoa port :: (if v6 then [IPv6] else []).
Proof.
  intros Hp Hport. pose proof (Itoa_no_dash port Hport) as Hi.
  rewrite listener_name_join.
  apply split_join; [done|]. destruct v6; repeat constructor; done.
Qed.

Lemma contains_listener_fields p port (v6 : bool) :
  p ≠ IPv6 → contains (p :: Itoa port :: (if v6 then [IPv6] else [])) IPv6 = v6.
Proof.
  intros Hp. simpl. rewrite decide_False by done. rewrite decide_False.
  - by destruct v6.
  - intros E. pose proof (Itoa_no_byte "I" port) as H. rewrite E in H. by discriminate H.
Qed.

Lemma sanitized_listener_name p port v6 :
  has_byte "-" p = false → p ≠ IPv6 → (0 ≤ port)%Z →
  getSanitizedName (listener_name p port v6) = listener_name (sanitized_protocol p) port v6.
Proof.
  intros Hp Hv Hport. unfold getSanitizedName, sanitized_protocol.
  rewrite listener_name_fields by done. cbn [head default tail from_option id].
  assert (∀ q, q ≠ IPv6 → (if decide (2 < length (q :: Itoa port :: (if v6 then [IPv6] else [])))
    then if contains (q :: Itoa port :: (if v6 then [IPv6] else [])) IPv6
         then join "-" (take 3 (q :: Itoa port :: (if v6 then [IPv6] else [])))
         else join "-" (take 2 (q :: Itoa port :: (if v6 then [IPv6] else [])))
    else join "-" (q :: Itoa port :: (if v6 then [IPv6] else []))) = listener_name q port v6) as H.
  { intros q Hq. rewrite contains_listener_fields by done. rewrite listener_name_join.
    by destruct v6. }
  destruct (EqualFold p "HTTP"); [by apply H|]. rewrite <-(H p) by done.
  by rewrite !contains_listener_fields by done; destruct v6.
Qed.

Lemma no_dash_sanitized p : has_byte "-" p = false → has_byte "-" (sanitized_protocol p) = false.
Proof. unfold sanitized_protocol. by destruct (EqualFold p "HTTP"). Qed.

Lemma listener_name_inj p1 port1 v1 p2 port2 v2 :
  has_byte "-" p1 = false → has_byte "-" p2 = false → (0 ≤ port1)%Z → (0 ≤ port2)%Z →
  listener_name p1 port1 v1 = listener_name p2 port2 v2 → p1 = p2 ∧ port1 = port2 ∧ v1 = v2.
Proof.
  intros H1 H2 Hp1 Hp2 E%(f_equal (split_on "-"%char)).
  rewrite !listener_name_fields in E by done. injection E as -> E%(inj Itoa) Ev.
  split_and!; [done..|]. by destruct v1, v2.
Qed.

(** ** Properties *)

(** Listeners are compared and sorted by protocol,
    port and IP family, where HTTP counts as TCP: two listener names have the
    same sanitized name exactly when these agree.  In particular the IPv4 and
    IPv6 listeners of a dual-stack port, and the listeners of different ports,
    are never confused. *)
Lemma getSanitizedName_correct p1 port1 v1 p2 port2 v2 :
  has_byte "-" p1 = false → has_byte "-" p2 = false → p1 ≠ IPv6 → p2 ≠ IPv6 →
  (0 ≤ port1)%Z → (0 ≤ port2)%Z →
  getSanitizedName (listener_name p1 port1 v1) = getSanitizedName (listener_name p2 port2 v2) ↔
  sanitized_protocol p1 = sanitized_protocol p2 ∧ port1 = port2 ∧ v1 = v2.
Proof.
  intros. rewrite !sanitized_listener_name by done. split; [|by intros (-> & -> & ->)].
  apply listener_name_inj; auto using no_dash_sanitized.
Qed.

(** Display names respect the limits of the services, 1024
    bytes for load balancers and 255 for network security groups, and a name
    within the limit is not cut. *)
Lemma names_bounded env svc :
  String.length (GetLoadBalancerName env svc) ≤ 1024 ∧
  String.length (generateNsgName svc) ≤ 255 ∧
  (String.length (svc_Namespace svc) + String.length (svc_Name svc)
     + String.length (svc_UID svc) ≤ 249 →
   generateNsgName svc = svc_Namespace svc +:+ "/" +:+ svc_Name svc +:+ "/" +:+ svc_UID svc +:+ "/nsg").
Proof.
  unfold GetLoadBalancerName, generateNsgName. split_and!.
  - case_decide; [apply length_truncate|lia].
  - case_decide; [apply length_truncate|lia].
  - intros Hl. rewrite decide_False; [done|].
    rewrite !length_append. simpl String.length. lia.
Qed.

Lemma trim_left_no_space s :
  (∀ c, Ascii.is_space c = true → has_byte c s = false) → trim_left s = s.
Proof.
  destruct s as [|c s]; [done|]. intros Hs. simpl. destruct (Ascii.is_space c) eqn:E; [|done].
  specialize (Hs c E). simpl in Hs. by rewrite bool_decide_eq_true_2 in Hs.
Qed.

Lemma rev_involutive s : String.rev (String.rev s) = s.
Proof.
  unfold String.rev.
  assert (∀ a b, String.rev_app (String.rev_app a b) "" = String.rev_app b a) as H.
  { induction a as [|c a IH]; intros b; [done|]. simpl. by rewrite IH. }
  by rewrite H.
Qed.

Lemma TrimSpace_Itoa z : TrimSpace (Itoa z) = Itoa z.
Proof.
  assert (∀ c, Ascii.is_space c = true → has_byte c (Itoa z) = false) as Hs.
  { intros c Hc. apply Itoa_no_byte; [|by intros ->].
    clear -Hc. destruct c as [[] [] [] [] [] [] [] []]; vm_compute in Hc |- *; done. }
  unfold TrimSpace. rewrite (trim_left_no_space (Itoa z)) by done.
  rewrite trim_left_no_space; [by rewrite rev_involutive|].
  intros c Hc. rewrite has_byte_rev. by apply Hs.
Qed.

(** The ports written in the annotation, comma
    separated, are the ports that get SSL, in order. *)
Lemma getSSLEnabledPorts_roundtrip svc ports :
  ports ≠ [] → Forall (λ p, (0 ≤ p < 2 ^ 63)%Z) ports →
  annotation_value svc ServiceAnnotationLoadBalancerSSLPorts = join "," (Itoa <$> ports) →
  getSSLEnabledPorts svc = Ret ports.
Proof.
  intros Hne Hp Hv. unfold getSSLEnabledPorts. rewrite Hv.
  assert (split_on ","%char (join "," (Itoa <$> ports)) = Itoa <$> ports) as Hs.
  { apply split_join; [by destruct ports|]. apply Forall_fmap, Forall_true. intros z.
    by apply Itoa_no_byte. }
  rewrite decide_False.
  2:{ intros E. rewrite E in Hs. destruct ports as [|p ports]; [done|].
      apply Forall_cons in Hp as [Hp _]. simpl in Hs. injection Hs as Hs _.
      pose proof (Atoi_Itoa p) as Ha. rewrite <-Hs in Ha. by discriminate Ha; lia. }
  rewrite Hs. clear Hs Hv Hne. induction Hp as [|p ports Hp _ IH]; [done|].
  rewrite fmap_cons. cbn [mapM]. rewrite TrimSpace_Itoa, Atoi_Itoa by lia. cbn.
  cbn in IH. by rewrite IH.
Qed.

(** ** The properties at concrete inputs *)

Lemma getSanitizedName_correct_witness :
  getSanitizedName (listener_name "HTTP" 80 false) = getSanitizedName (listener_name "TCP" 80 false)
  ∧ getSanitizedName "http-80-secret" = "TCP-80".
Proof. split; [|by vm_compute]. by apply getSanitizedName_correct. Defined.

Lemma getSSLEnabledPorts_roundtrip_witness :
  getSSLEnabledPorts (example_svc {[ServiceAnnotationLoadBalancerSSLPorts := "443,8443"]} [])
  = Ret [443; 8443]%Z.
Proof.
  apply getSSLEnabledPorts_roundtrip; [done| |by vm_compute].
  repeat constructor; lia.
Defined.
