(* ===== verification/Diff.v ===== *)
(** * Comparing a load balancer with its specification (load_balancer_util.go)

    What changed between the health checkers, SSL configurations, backend sets,
    listeners and rule sets of a load balancer and those of the spec, and the
    actions that bring the load balancer up to date.  The lists of changes hold
    the messages the source logs. *)
From stdpp Require Import base tactics list gmap sets strings.
From Stdlib Require Import Ascii.
From S2P Require Import Prelude GoStrings Types Annotations Names.

(** [fmt.Sprintf(changeFmtStr, label, actual, desired)], appended when [c]. *)
Definition change (c : bool) (label actual desired : string) : list string :=
  if c then [label +:+ " -> Actual:" +:+ actual +:+ " - Desired:" +:+ desired] else [].

(** The verb [%v] on a boolean and on a slice of strings. *)
Definition show_bool (b : bool) : string := if b then "true" else "false".
Definition show_strings (l : list string) : string := "[" +:+ join " " l +:+ "]".

Definition change_int (label : string) (actual desired : Z) : list string :=
  change (negb (bool_decide (actual = desired))) label (Itoa actual) (Itoa desired).
Definition change_string (label actual desired : string) : list string :=
  change (negb (bool_decide (actual = desired))) label actual desired.
Definition change_bool (label : string) (actual desired : bool) : list string :=
  change (negb (bool_decide (actual = desired))) label (show_bool actual) (show_bool desired).

(** ** Health checkers, SSL and connection configurations *)

Definition getHealthCheckerChanges (actual desired : option GenericHealthChecker) : list string :=
  match desired, actual with
  | None, _ => []
  | Some _, None => change true "BackendSet:HealthChecker" "NOT_PRESENT" "PRESENT"
  | Some desired, Some actual =>
      change_int "BackendSet:HealthChecker:Port" (toInt (hc_Port actual)) (toInt (hc_Port desired))
      ++ (if decide (toString (hc_ResponseBodyRegex desired) ≠ "")
          then change_string "BackendSet:HealthChecker:ResponseBodyRegex"
                 (toString (hc_ResponseBodyRegex actual)) (toString (hc_ResponseBodyRegex desired))
          else [])
      ++ change_int "BackendSet:HealthChecker:Retries"
           (toInt (hc_Retries actual)) (toInt (hc_Retries desired))
      ++ (if decide (toInt (hc_ReturnCode desired) ≠ 0%Z)
          then change_int "BackendSet:HealthChecker:ReturnCode"
                 (toInt (hc_ReturnCode actual)) (toInt (hc_ReturnCode desired))
          else [])
      ++ change_int "BackendSet:HealthChecker:TimeoutInMillis"
           (toInt (hc_TimeoutInMillis actual)) (toInt (hc_TimeoutInMillis desired))
      ++ change_int "BackendSet:HealthChecker:IntervalInMillis"
           (toInt (hc_IntervalInMillis actual)) (toInt (hc_IntervalInMillis desired))
      ++ change_string "BackendSet:HealthChecker:UrlPath"
           (toString (hc_UrlPath actual)) (toString (hc_UrlPath desired))
      ++ change_string "BackendSet:HealthChecker:Protocol" (hc_Protocol actual) (hc_Protocol desired)
      ++ change_bool "BackendSet:HealthChecker:IsForcePlainText"
           (toBool (hc_IsForcePlainText actual)) (toBool (hc_IsForcePlainText desired))
  end.

Definition getSSLConfigurationChanges (actual desired : option GenericSslConfigurationDetails)
    : list string :=
  match actual, desired with
  | None, None => []
  | None, Some _ => change true "Listener:SSLConfiguration" "NOT_PRESENT" "PRESENT"
  | Some _, None => change true "Listener:SSLConfiguration" "PRESENT" "NOT_PRESENT"
  | Some actual, Some desired =>
      change_string "Listener:SSLConfiguration:CertificateName"
        (toString (ssl_CertificateName actual)) (toString (ssl_CertificateName desired))
      ++ change_int "Listener:SSLConfiguration:VerifyDepth"
           (toInt (ssl_VerifyDepth actual)) (toInt (ssl_VerifyDepth desired))
      ++ change_bool "Listener:SSLConfiguration:VerifyPeerCertificate"
           (toBool (ssl_VerifyPeerCertificate actual)) (toBool (ssl_VerifyPeerCertificate desired))
      ++ (if decide (toString (ssl_CipherSuiteName desired) ≠ "")
          then change_string "Listener:SSLConfiguration:CipherSuiteName"
                 (toString (ssl_CipherSuiteName actual)) (toString (ssl_CipherSuiteName desired))
               ++ change (negb (bool_decide (ssl_Protocols actual = ssl_Protocols desired)))
                    "Listener:SSLConfiguration:Protocols"
                    (join "," (default [] (ssl_Protocols actual)))
                    (join "," (default [] (ssl_Protocols desired)))
          else [])
  end.

Definition getConnectionConfigurationChanges (actual desired : option GenericConnectionConfiguration)
    : list string :=
  match desired, actual with
  | None, _ => []
  | Some _, None => change true "Listener:ConnectionConfiguration" "NOT_PRESENT" "PRESENT"
  | Some desired, Some actual =>
      change_int "Listener:ConnectionConfiguration:IdleTimeout"
        (toInt64 (cc_IdleTimeout actual)) (toInt64 (cc_IdleTimeout desired))
      ++ change_int "Listener:ConnectionConfiguration:BackendTcpProxyProtocolVersion"
           (toInt (cc_BackendTcpProxyProtocolVersion actual))
           (toInt (cc_BackendTcpProxyProtocolVersion desired))
  end.

(** ** Backend sets *)

(** [fmt.Sprintf("%s:%d", *backend.IpAddress, *backend.Port)]. *)
Definition backend_name (backend : GenericBackend) : outcome string :=
  ip ← deref (be_IpAddress backend);
  port ← deref (be_Port backend);
  mret (ip +:+ ":" +:+ Itoa port).

(** The change of the node port, read off the first backends. *)
Definition backend_port_changes (actual desired : list GenericBackend) : outcome (list string) :=
  match actual, desired with
  | a :: _, d :: _ =>
      pa ← deref (be_Port a); pd ← deref (be_Port d);
      mret (change_int "BackEndSet:BackendPort" pa pd)
  | _, _ => mret []
  end.

Definition hasBackendSetChanged (actual desired : GenericBackendSetDetails) : outcome bool :=
  let healthCheckerChanges :=
    getHealthCheckerChanges (bs_HealthChecker actual) (bs_HealthChecker desired) in
  portChanges ← backend_port_changes (bs_Backends actual) (bs_Backends desired);
  let settingChanges :=
    change_string "BackEndSet:Policy" (toString (bs_Policy actual)) (toString (bs_Policy desired))
    ++ change_bool "BackEndSet:IsPreserveSource"
         (toBool (bs_IsPreserveSource actual)) (toBool (bs_IsPreserveSource desired))
    ++ getSSLConfigurationChanges (bs_SslConfiguration actual) (bs_SslConfiguration desired) in
  desiredNames ← mapM backend_name (bs_Backends desired);
  actualNames ← mapM backend_name (bs_Backends actual);
  let backendChanges :=
    ((λ name, "BackEndSet:Backend Remove -> Backend:" +:+ name)
       <$> filter (λ name, name ∉ desiredNames) actualNames)
    ++ ((λ name, "BackEndSet:Backend Add -> Backend:" +:+ name)
          <$> filter (λ name, name ∉ actualNames) desiredNames) in
  let backendSetChanges := healthCheckerChanges ++ portChanges ++ settingChanges ++ backendChanges in
  mret (negb (bool_decide (length backendSetChanges = 0))).

Definition healthCheckerToDetails (hc : option GenericHealthChecker) : option GenericHealthChecker :=
  (λ hc, {| hc_Protocol := hc_Protocol hc; hc_IsForcePlainText := hc_IsForcePlainText hc;
            hc_Port := hc_Port hc; hc_UrlPath := hc_UrlPath hc; hc_Retries := hc_Retries hc;
            hc_TimeoutInMillis := hc_TimeoutInMillis hc;
            hc_IntervalInMillis := hc_IntervalInMillis hc;
            hc_ResponseBodyRegex := None; hc_ReturnCode := hc_ReturnCode hc |}) <$> hc.

Definition sslConfigurationToDetails (sc : option GenericSslConfigurationDetails)
    : option GenericSslConfigurationDetails :=
  (λ sc, {| ssl_VerifyDepth := ssl_VerifyDepth sc;
            ssl_VerifyPeerCertificate := ssl_VerifyPeerCertificate sc;
            ssl_HasSessionResumption := ssl_HasSessionResumption sc;
            ssl_TrustedCertificateAuthorityIds := ssl_TrustedCertificateAuthorityIds sc;
            ssl_CertificateIds := ssl_CertificateIds sc;
            ssl_CertificateName := ssl_CertificateName sc; ssl_Protocols := ssl_Protocols sc;
            ssl_CipherSuiteName := ssl_CipherSuiteName sc;
            ssl_ServerOrderPreference := ssl_ServerOrderPreference sc |}) <$> sc.

Definition backendsToBackendDetails (bs : list GenericBackend) : list GenericBackend :=
  (λ backend, {| be_Port := be_Port backend; be_Name := None; be_IpAddress := be_IpAddress backend;
                 be_TargetId := None; be_Weight := be_Weight backend; be_Backup := be_Backup backend;
                 be_Drain := be_Drain backend; be_Offline := be_Offline backend;
                 be_MaxConnections := None |}) <$> bs.

(** [portsFromBackendSetDetails] and [portsFromBackendSet], which agree. *)
Definition portsFromBackendSetDetails (bs : GenericBackendSetDetails) : outcome portSpec :=
  backendPort ← match bs_Backends bs with [] => mret 0%Z | b :: _ => deref (be_Port b) end;
  healthCheckerPort ←
    match bs_HealthChecker bs with None => mret 0%Z | Some hc => deref (hc_Port hc) end;
  mret {| ListenerPort := 0; BackendPort := backendPort; HealthCheckerPort := healthCheckerPort |}.
Definition portsFromBackendSet (bs : GenericBackendSetDetails) : outcome portSpec :=
  portsFromBackendSetDetails bs.

(** ** Actions *)

Record BackendSetAction := {
  bsa_actionType : ActionType;
  bsa_name : string;
  bsa_BackendSet : GenericBackendSetDetails;
  bsa_Ports : portSpec;
  bsa_OldPorts : option portSpec;
}.

Record ListenerAction := {
  la_actionType : ActionType;
  la_name : string;
  la_Listener : GenericListener;
  la_Ports : portSpec;
  la_OldPorts : option portSpec;
}.

Record RuleSetAction {RS : Type} := {
  rsa_actionType : ActionType;
  rsa_name : string;
  rsa_RuleSetDetails : RS;
}.
Arguments RuleSetAction : clear implicits.

(** The implementations of the interface [Action]. *)
Inductive Action (RS : Type) :=
| ActBackendSet (b : BackendSetAction)
| ActListener (l : ListenerAction)
| ActRuleSet (r : RuleSetAction RS).
Arguments ActBackendSet {_} _.
Arguments ActListener {_} _.
Arguments ActRuleSet {_} _.

(** The methods [Type] and [Name]. *)
Definition action_Type {RS} (a : Action RS) : ActionType :=
  match a with
  | ActBackendSet b => bsa_actionType b
  | ActListener l => la_actionType l
  | ActRuleSet r => rsa_actionType r
  end.
Definition action_Name {RS} (a : Action RS) : string :=
  match a with
  | ActBackendSet b => bsa_name b
  | ActListener l => la_name l
  | ActRuleSet r => rsa_name r
  end.

Section changes.
Context `{!MapRange}.

(** ** Backend set changes *)

(** The loop over the existing backend sets: a delete, an update or nothing. *)
Definition backend_set_existing (desired : gmap string GenericBackendSetDetails)
    (name : string) (actualBackendSet : GenericBackendSetDetails)
    : outcome (option BackendSetAction) :=
  match desired !! name with
  | None =>
      actualName ← deref (bs_Name actualBackendSet);
      ports ← portsFromBackendSet actualBackendSet;
      mret (Some {|
        bsa_actionType := Delete;
        bsa_name := actualName;
        bsa_BackendSet := {|
          bs_Name := None;
          bs_HealthChecker := healthCheckerToDetails (bs_HealthChecker actualBackendSet);
          bs_Policy := bs_Policy actualBackendSet;
          bs_Backends := backendsToBackendDetails (bs_Backends actualBackendSet);
          bs_SessionPersistenceConfiguration :=
            bs_SessionPersistenceConfiguration actualBackendSet;
          bs_SslConfiguration := sslConfigurationToDetails (bs_SslConfiguration actualBackendSet);
          bs_IsPreserveSource := None;
          bs_IpVersion := bs_IpVersion actualBackendSet |};
        bsa_Ports := ports;
        bsa_OldPorts := None |})
  | Some desiredBackendSet =>
      changed ← hasBackendSetChanged actualBackendSet desiredBackendSet;
      if changed : bool then
        oldPorts ← portsFromBackendSet actualBackendSet;
        ports ← portsFromBackendSetDetails desiredBackendSet;
        mret (Some {|
          bsa_actionType := Update; bsa_name := name; bsa_BackendSet := desiredBackendSet;
          bsa_Ports := ports; bsa_OldPorts := Some oldPorts |})
      else mret None
  end.

(** The loop over the desired backend sets: a create or nothing. *)
Definition backend_set_new (actual : gmap string GenericBackendSetDetails)
    (name : string) (desiredBackendSet : GenericBackendSetDetails)
    : outcome (option BackendSetAction) :=
  match actual !! name with
  | Some _ => mret None
  | None =>
      ports ← portsFromBackendSetDetails desiredBackendSet;
      mret (Some {|
        bsa_actionType := Create; bsa_name := name; bsa_BackendSet := desiredBackendSet;
        bsa_Ports := ports; bsa_OldPorts := None |})
  end.

Definition getBackendSetChanges (site : nat) (actual desired : gmap string GenericBackendSetDetails)
    : outcome (list BackendSetAction) :=
  existing ← mapM (λ '(name, bs), backend_set_existing desired name bs) (range site actual);
  new ← mapM (λ '(name, bs), backend_set_new actual name bs) (range (S site) desired);
  mret (omap id existing ++ omap id new).

(** ** Listener changes *)

Definition hasListenerChanged {RS} (actual desired : GenericListener)
    (ruleSets : option (gmap string RS)) : bool :=
  let listenerChanges :=
    change_string "Listener:DefaultBackendSetName"
      (toString (ln_DefaultBackendSetName actual)) (toString (ln_DefaultBackendSetName desired))
    ++ change_int "Listener:Port" (toInt (ln_Port actual)) (toInt (ln_Port desired))
    ++ change_string "Listener:Protocol" (toString (ln_Protocol actual)) (toString (ln_Protocol desired))
    ++ change_bool "Listener:IsPpv2Enabled"
         (toBool (ln_IsPpv2Enabled actual)) (toBool (ln_IsPpv2Enabled desired))
    ++ change (bool_decide (is_Some ruleSets)
               && negb (DeepEqualLists (ln_RuleSetNames actual) (ln_RuleSetNames desired)))
         "Listener:RuleSetNames"
         (show_strings (ln_RuleSetNames actual)) (show_strings (ln_RuleSetNames desired))
    ++ getSSLConfigurationChanges (ln_SslConfiguration actual) (ln_SslConfiguration desired)
    ++ getConnectionConfigurationChanges
         (ln_ConnectionConfiguration actual) (ln_ConnectionConfiguration desired) in
  negb (bool_decide (length listenerChanges = 0)).

Definition listener_action (ty : ActionType) (name : string) (listener : GenericListener)
    : ListenerAction :=
  {| la_actionType := ty; la_name := name; la_Listener := listener;
     la_Ports := portSpec_zero; la_OldPorts := None |}.

(** The listener carried by a delete. *)
Definition deleted_listener (l : GenericListener) : GenericListener := {|
  ln_Name := None; ln_DefaultBackendSetName := ln_DefaultBackendSetName l;
  ln_Port := ln_Port l; ln_Protocol := ln_Protocol l; ln_HostnameNames := [];
  ln_PathRouteSetName := None;
  ln_SslConfiguration := sslConfigurationToDetails (ln_SslConfiguration l);
  ln_ConnectionConfiguration := None; ln_RoutingPolicyName := None;
  ln_RuleSetNames := ln_RuleSetNames l; ln_IpVersion := None; ln_IsPpv2Enabled := None |}.

Definition getListenerChanges {RS} (site : nat) (actual desired : gmap string GenericListener)
    (ruleSets : option (gmap string RS)) : list ListenerAction :=
  let sanitizedDesiredListeners :=
    foldl (λ m '(name, l), <[getSanitizedName name := l]> m) ∅ (range site desired)
    : gmap string GenericListener in
  let existing :=
    (λ '(name, actualListener),
       match sanitizedDesiredListeners !! getSanitizedName name with
       | None => (None, Some (listener_action Delete name (deleted_listener actualListener)))
       | Some desiredListener =>
           (Some (getSanitizedName name),
            if hasListenerChanged actualListener desiredListener ruleSets
            then Some (listener_action Update name desiredListener) else None)
       end) <$> range (1 + site) actual in
  let exists_ : gset string := list_to_set (omap fst existing) in
  let new :=
    (λ '(name, desiredListener),
       if decide (getSanitizedName name ∈ exists_) then None
       else Some (listener_action Create name desiredListener)) <$> range (2 + site) desired in
  omap snd existing ++ omap id new.

(** ** Rule set changes *)

Definition getRuleSetChanges {RS} `{EqDecision RS} (site : nat) (actual desired : gmap string RS)
    : list (RuleSetAction RS) :=
  omap (λ '(name, a),
    match desired !! name with
    | None => Some {| rsa_actionType := Delete; rsa_name := name; rsa_RuleSetDetails := a |}
    | Some _ => None
    end) (range site actual)
  ++ omap (λ '(name, desiredRuleSet),
    match actual !! name with
    | None => Some {| rsa_actionType := Create; rsa_name := name;
                      rsa_RuleSetDetails := desiredRuleSet |}
    | Some a =>
        if decide (a ≠ desiredRuleSet)
        then Some {| rsa_actionType := Update; rsa_name := name;
                     rsa_RuleSetDetails := desiredRuleSet |}
        else None
    end) (range (S site) desired).

End changes.

(** ** Shape changes *)

Definition hasLoadbalancerShapeChanged {RS} (specShape : string) (specFlexMin specFlexMax : option Z)
    (lb : GenericLoadBalancer RS) : outcome bool :=
  shapeName ← deref (lb_ShapeName lb);
  if decide (shapeName ≠ specShape) then mret true
  else match lb_ShapeDetails lb, specFlexMin, specFlexMax with
  | Some details, Some flexMin, Some flexMax =>
      mn ← deref (sd_MinimumBandwidthInMbps details);
      if decide (mn ≠ flexMin) then mret true
      else
        mx ← deref (sd_MaximumBandwidthInMbps details);
        mret (bool_decide (mx ≠ flexMax))
  | _, _, _ => mret false
  end.

(** ** What is stored *)

(** What the service shows for the details of a request.  The clients convert the
    details to the types of the service they serve, [st_type], which drops settings
    that the service does not have; listeners are converted in three ways: with a new
    load balancer, when they are created, and when they are updated. *)
Record Storage := {
  st_type : string;
  st_backend_set : string → GenericBackendSetDetails → GenericBackendSetDetails;
  st_listener : string → GenericListener → GenericListener;
  st_created_listener : string → GenericListener → GenericListener;
  st_updated_listener : string → GenericListener → GenericListener;
  st_shape : option GenericShapeDetails → option GenericShapeDetails;
  st_ip_version : string → string;
}.

(** The IP versions the clients know. *)
Definition generic_versions : list string := [GenericIPv4; GenericIPv6; GenericIPv4AndIPv6].

Definition named_set (n : string) (b : GenericBackendSetDetails) : GenericBackendSetDetails := {|
  bs_Name := Some n; bs_HealthChecker := bs_HealthChecker b; bs_Policy := bs_Policy b;
  bs_Backends := bs_Backends b; bs_SessionPersistenceConfiguration := bs_SessionPersistenceConfiguration b;
  bs_SslConfiguration := bs_SslConfiguration b; bs_IsPreserveSource := bs_IsPreserveSource b;
  bs_IpVersion := bs_IpVersion b |}.

(** A service that shows the details as they are. *)
Definition exact_storage : Storage := {|
  st_type := LB; st_backend_set := named_set; st_listener _ l := l; st_created_listener _ l := l;
  st_updated_listener _ l := l; st_shape d := d; st_ip_version v := v |}.

(** ** What being up to date means *)

(** A setting the spec leaves out is the service's to choose. *)
Definition hc_in_sync (actual desired : option GenericHealthChecker) : Prop :=
  match desired, actual with
  | None, _ => True
  | Some _, None => False
  | Some d, Some a =>
      toInt (hc_Port a) = toInt (hc_Port d) ∧ toInt (hc_Retries a) = toInt (hc_Retries d) ∧
      toInt (hc_TimeoutInMillis a) = toInt (hc_TimeoutInMillis d) ∧
      toInt (hc_IntervalInMillis a) = toInt (hc_IntervalInMillis d) ∧
      toString (hc_UrlPath a) = toString (hc_UrlPath d) ∧ hc_Protocol a = hc_Protocol d ∧
      toBool (hc_IsForcePlainText a) = toBool (hc_IsForcePlainText d) ∧
      (toString (hc_ResponseBodyRegex d) ≠ "" →
         toString (hc_ResponseBodyRegex a) = toString (hc_ResponseBodyRegex d)) ∧
      (toInt (hc_ReturnCode d) ≠ 0%Z → toInt (hc_ReturnCode a) = toInt (hc_ReturnCode d))
  end.

Definition ssl_in_sync (actual desired : option GenericSslConfigurationDetails) : Prop :=
  match actual, desired with
  | None, None => True
  | Some a, Some d =>
      toString (ssl_CertificateName a) = toString (ssl_CertificateName d) ∧
      toInt (ssl_VerifyDepth a) = toInt (ssl_VerifyDepth d) ∧
      toBool (ssl_VerifyPeerCertificate a) = toBool (ssl_VerifyPeerCertificate d) ∧
      (toString (ssl_CipherSuiteName d) ≠ "" →
         toString (ssl_CipherSuiteName a) = toString (ssl_CipherSuiteName d) ∧
         ssl_Protocols a = ssl_Protocols d)
  | _, _ => False
  end.

Definition connection_in_sync (actual desired : option GenericConnectionConfiguration) : Prop :=
  match desired, actual with
  | None, _ => True
  | Some _, None => False
  | Some d, Some a =>
      toInt64 (cc_IdleTimeout a) = toInt64 (cc_IdleTimeout d) ∧
      toInt (cc_BackendTcpProxyProtocolVersion a) = toInt (cc_BackendTcpProxyProtocolVersion d)
  end.

(** The backends as addresses, for backends that have an address and a port. *)
Definition endpoint (b : GenericBackend) : option (string * Z) :=
  ip ← be_IpAddress b; port ← be_Port b; Some (ip, port).
Definition backends_ok (bs : list GenericBackend) : Prop := Forall (λ b, is_Some (endpoint b)) bs.

Definition backend_set_in_sync (actual desired : GenericBackendSetDetails) : Prop :=
  hc_in_sync (bs_HealthChecker actual) (bs_HealthChecker desired) ∧
  toString (bs_Policy actual) = toString (bs_Policy desired) ∧
  toBool (bs_IsPreserveSource actual) = toBool (bs_IsPreserveSource desired) ∧
  ssl_in_sync (bs_SslConfiguration actual) (bs_SslConfiguration desired) ∧
  (∀ a d, head (bs_Backends actual) = Some a → head (bs_Backends desired) = Some d →
     be_Port a = be_Port d) ∧
  (∀ e, e ∈ omap endpoint (bs_Backends actual) ↔ e ∈ omap endpoint (bs_Backends desired)).

Definition listener_in_sync {RS} (ruleSets : option (gmap string RS))
    (actual desired : GenericListener) : Prop :=
  toString (ln_DefaultBackendSetName actual) = toString (ln_DefaultBackendSetName desired) ∧
  toInt (ln_Port actual) = toInt (ln_Port desired) ∧
  toString (ln_Protocol actual) = toString (ln_Protocol desired) ∧
  toBool (ln_IsPpv2Enabled actual) = toBool (ln_IsPpv2Enabled desired) ∧
  (is_Some ruleSets → ∀ r, r ∈ ln_RuleSetNames actual ↔ r ∈ ln_RuleSetNames desired) ∧
  ssl_in_sync (ln_SslConfiguration actual) (ln_SslConfiguration desired) ∧
  connection_in_sync (ln_ConnectionConfiguration actual) (ln_ConnectionConfiguration desired).

(** ** Lemmas *)

Lemma change_nil c label a d : change c label a d = [] ↔ c = false.
Proof. by destruct c. Qed.
Lemma change_int_nil label a d : change_int label a d = [] ↔ a = d.
Proof. unfold change_int. rewrite change_nil, negb_false_iff. apply bool_decide_eq_true. Qed.
Lemma change_string_nil label a d : change_string label a d = [] ↔ a = d.
Proof. unfold change_string. rewrite change_nil, negb_false_iff. apply bool_decide_eq_true. Qed.
Lemma change_bool_nil label a d : change_bool label a d = [] ↔ a = d.
Proof. unfold change_bool. rewrite change_nil, negb_false_iff. apply bool_decide_eq_true. Qed.
Lemma guarded_nil {A} (P : Prop) `{Decision P} (l : list A) :
  (if decide P then l else []) = [] ↔ (P → l = []).
Proof. destruct (decide P); naive_solver. Qed.

Lemma nil_app_iff {A} (l1 l2 : list A) : l1 ++ l2 = [] ↔ l1 = [] ∧ l2 = [].
Proof. destruct l1; naive_solver. Qed.

Ltac changes_nil :=
  rewrite ?nil_app_iff, ?guarded_nil, ?change_int_nil, ?change_string_nil, ?change_bool_nil,
    ?change_nil, ?negb_false_iff, ?bool_decide_eq_true.

Lemma getHealthCheckerChanges_nil a d : getHealthCheckerChanges a d = [] ↔ hc_in_sync a d.
Proof. destruct d as [d|], a as [a|]; simpl; [changes_nil; tauto|done..]. Qed.

Lemma getSSLConfigurationChanges_nil a d : getSSLConfigurationChanges a d = [] ↔ ssl_in_sync a d.
Proof.
  destruct a as [a|], d as [d|]; simpl; [|done..]. changes_nil.
  assert (∀ X Y Z : Prop, (X → Y) → (X → Z) → X → Y ∧ Z) by tauto. changes_nil. tauto.
Qed.

Lemma getConnectionConfigurationChanges_nil a d :
  getConnectionConfigurationChanges a d = [] ↔ connection_in_sync a d.
Proof. destruct d as [d|], a as [a|]; simpl; [changes_nil; tauto|done..]. Qed.

Lemma length_zero_nil {A} (l : list A) : bool_decide (length l = 0) = true ↔ l = [].
Proof. rewrite bool_decide_eq_true. by destruct l. Qed.

Lemma DeepEqualLists_spec a b : DeepEqualLists a b = true ↔ ∀ x, x ∈ a ↔ x ∈ b.
Proof.
  unfold DeepEqualLists. rewrite bool_decide_eq_true. split.
  - intros E x. rewrite <-!(elem_of_list_to_set (C := gset string)). by rewrite E.
  - intros E. apply set_eq. intros x. by rewrite !elem_of_list_to_set.
Qed.

Lemma hasListenerChanged_false {RS} a d (rs : option (gmap string RS)) :
  hasListenerChanged a d rs = false ↔ listener_in_sync rs a d.
Proof.
  unfold hasListenerChanged, listener_in_sync. rewrite negb_false_iff, length_zero_nil.
  changes_nil. rewrite getSSLConfigurationChanges_nil, getConnectionConfigurationChanges_nil.
  rewrite andb_false_iff, negb_false_iff, DeepEqualLists_spec, bool_decide_eq_false.
  destruct rs; naive_solver.
Qed.

(** The name of a backend identifies its address and port: the port is printed
    after the last colon. *)
Lemma backend_name_endpoint b n :
  backend_name b = Ret n ↔ ∃ ip port, endpoint b = Some (ip, port) ∧ n = ip +:+ ":" +:+ Itoa port.
Proof.
  unfold backend_name, endpoint. destruct (be_IpAddress b), (be_Port b); cbn;
    (split; [intros [=]; subst; eauto|by intros (? & ? & [=] & ?); subst]).
Qed.

Lemma backend_name_inj ip1 p1 ip2 p2 :
  ip1 +:+ ":" +:+ Itoa p1 = ip2 +:+ ":" +:+ Itoa p2 → ip1 = ip2 ∧ p1 = p2.
Proof.
  intros E. apply (app_last_byte_inj ":"%char) in E as [-> E%(inj Itoa)]; [done|..];
    by apply Itoa_no_byte.
Qed.

Definition endpoint_name (e : string * Z) : string := e.1 +:+ ":" +:+ Itoa e.2.

Lemma mapM_backend_name bs :
  backends_ok bs → mapM backend_name bs = Ret (endpoint_name <$> omap endpoint bs).
Proof.
  unfold backends_ok. induction 1 as [|b bs [[ip port] Hb] _ IH]; [done|].
  assert (backend_name b = Ret (endpoint_name (ip, port))) as Hn
    by (apply backend_name_endpoint; eauto).
  simpl. rewrite Hn. simpl. unfold mapM in *. rewrite IH. simpl. by rewrite Hb.
Qed.

Global Instance endpoint_name_inj : Inj (=) (=) endpoint_name.
Proof. intros [ip1 p1] [ip2 p2] [E1 E2]%backend_name_inj. simpl in *. congruence. Qed.

Lemma filter_notin_nil (l k : list string) : filter (λ x, x ∉ k) l = [] ↔ l ⊆ k.
Proof.
  split.
  - intros E x Hx. apply dec_stable. intros Hn.
    assert (x ∈ filter (λ x, x ∉ k) l) as H by by apply list_elem_of_filter.
    rewrite E in H. set_solver.
  - intros Hs. apply filter_none, Forall_forall. intros x Hx Hn. by apply Hn, Hs.
Qed.

Lemma backend_port_changes_spec a d :
  backends_ok a → backends_ok d →
  ∃ cs, backend_port_changes a d = Ret cs ∧
    (cs = [] ↔ ∀ x y, head a = Some x → head d = Some y → be_Port x = be_Port y).
Proof.
  intros Ha Hd. destruct a as [|x a], d as [|y d]; simpl; [by eexists; split..|].
  apply Forall_cons in Ha as [[[? px] Hx] _], Hd as [[[? py] Hy] _].
  unfold endpoint in Hx, Hy.
  destruct (be_IpAddress x), (be_Port x) as [px'|] eqn:Ex; try done.
  destruct (be_IpAddress y), (be_Port y) as [py'|] eqn:Ey; try done.
  simpl. eexists. split; [done|]. rewrite change_int_nil. split.
  - intros E x' y' Hx' Hy'. injection Hx' as <-. injection Hy' as <-. congruence.
  - intros E. specialize (E x y eq_refl eq_refl). congruence.
Qed.

Lemma fmap_nil_iff {A B} (f : A → B) (l : list A) : f <$> l = [] ↔ l = [].
Proof. by destruct l. Qed.

Lemma subset_fmap_inj {A B} (f : A → B) `{!Inj (=) (=) f} (l k : list A) :
  f <$> l ⊆ f <$> k ↔ l ⊆ k.
Proof.
  split.
  - intros Hs x Hx%(list_elem_of_fmap_2 f)%Hs. by apply list_elem_of_fmap_inj in Hx.
  - intros Hs y (x & -> & Hx%Hs)%list_elem_of_fmap. by apply list_elem_of_fmap_2.
Qed.

(** The comparison of backend sets, total on well-formed backends. *)
Lemma hasBackendSetChanged_total a d :
  backends_ok (bs_Backends a) → backends_ok (bs_Backends d) →
  ∃ b, hasBackendSetChanged a d = Ret b ∧ (b = false ↔ backend_set_in_sync a d).
Proof.
  intros Ha Hd. unfold hasBackendSetChanged.
  destruct (backend_port_changes_spec _ _ Ha Hd) as (cs & -> & Hcs). cbn [mbind outcome_bind].
  rewrite !mapM_backend_name by done. cbn [mbind outcome_bind].
  eexists. split; [done|]. rewrite negb_false_iff, length_zero_nil.
  rewrite !nil_app_iff, !fmap_nil_iff, !filter_notin_nil, !(subset_fmap_inj endpoint_name).
  rewrite change_string_nil, change_bool_nil, getHealthCheckerChanges_nil,
    getSSLConfigurationChanges_nil, Hcs.
  unfold backend_set_in_sync, subseteq, list_subseteq. split.
  - intros (? & ? & (? & ? & ?) & ? & ?). split_and!; try done. split; auto.
  - intros (? & ? & ? & ? & ? & He). split_and!; try done; intros e; apply He.
Qed.

(** ** The effect of actions on the load balancer *)

(** Performing an action on a map of named resources: a create or an update
    sets the resource, a delete removes it. *)
Section perform.
Context {A V : Type} (aname : A → string) (effect : A → option V).

Definition perform (m : gmap string V) (a : A) : gmap string V :=
  partial_alter (λ _, effect a) (aname a) m.
Definition perform_all (m : gmap string V) (actions : list A) : gmap string V :=
  foldl perform m actions.

Lemma perform_all_other m actions n :
  n ∉ aname <$> actions → perform_all m actions !! n = m !! n.
Proof.
  revert m. induction actions as [|a actions IH]; intros m Hn; [done|]. simpl.
  rewrite fmap_cons, not_elem_of_cons in Hn. destruct Hn as [Hna Hn].
  rewrite IH by done. unfold perform. by rewrite lookup_partial_alter_ne.
Qed.

(** When no two actions touch the same resource, their order does not matter. *)
Lemma perform_all_elem m actions a :
  NoDup (aname <$> actions) → a ∈ actions → perform_all m actions !! aname a = effect a.
Proof.
  revert m. induction actions as [|b actions IH]; intros m Hnd Ha; [set_solver|].
  rewrite fmap_cons, NoDup_cons in Hnd. destruct Hnd as [Hnb Hnd]. simpl.
  apply elem_of_cons in Ha as [->|Ha]; [|by apply IH].
  rewrite perform_all_other by done. unfold perform. by rewrite lookup_partial_alter_eq.
Qed.

End perform.

Definition effect_of {V} (ty : ActionType) (v : V) : option V :=
  match ty with Delete => None | _ => Some v end.

(** ** Loops over a map that produce at most one action per entry *)

Lemma mapM_Ret_Forall2 {A B} (f : A → outcome B) l k :
  mapM f l = Ret k ↔ Forall2 (λ x y, f x = Ret y) l k.
Proof.
  revert k. induction l as [|x l IH]; intros k; simpl.
  - split; [intros [= <-]; constructor|by inversion 1].
  - rewrite bind_Ret_inv. setoid_rewrite bind_Ret_inv. split.
    + intros (y & Hy & k' & Hk%IH & [= <-]). by constructor.
    + inversion 1 as [|? y ? k' Hy Hk]; subst. exists y. split; [done|].
      exists k'. split; [by apply IH|done].
Qed.

Lemma mapM_total {A B} (f : A → outcome B) l :
  (∀ x, x ∈ l → ∃ y, f x = Ret y) → ∃ k, mapM f l = Ret k.
Proof.
  induction l as [|x l IH]; intros H; [by eexists|].
  destruct (H x) as [y Hy]; [by left|]. destruct IH as [k Hk]; [set_solver|].
  exists (y :: k). simpl. rewrite Hy. simpl. by rewrite Hk.
Qed.

Section loops.
Context `{!MapRange} {V A : Type} (f : string → V → outcome (option A)) (aname : A → string).

Lemma mapM_range_elem site m (l : list (option A)) a :
  mapM (λ '(k, v), f k v) (range site m) = Ret l →
  a ∈ omap id l ↔ ∃ k v, m !! k = Some v ∧ f k v = Ret (Some a).
Proof.
  intros Hm%mapM_Ret_Forall2. rewrite list_elem_of_omap. split.
  - intros (oa & Hin & Ea). apply list_elem_of_lookup in Hin as [i Hi]. cbn in Ea. subst oa.
    destruct (Forall2_lookup_r _ _ _ _ _ Hm Hi) as ([k v] & Hk & Hf).
    exists k, v. split; [|done]. apply (elem_of_range site). by eapply list_elem_of_lookup_2.
  - intros (k & v & Hk%(elem_of_range site) & Hf).
    apply list_elem_of_lookup in Hk as [i Hi].
    destruct (Forall2_lookup_l _ _ _ _ _ Hm Hi) as (oa & Ho & Hfo).
    exists oa. split; [by eapply list_elem_of_lookup_2|]. cbn in *. congruence.
Qed.

Lemma mapM_range_NoDup site m (l : list (option A)) :
  (∀ k v a, m !! k = Some v → f k v = Ret (Some a) → aname a = k) →
  mapM (λ '(k, v), f k v) (range site m) = Ret l → NoDup (aname <$> omap id l).
Proof.
  intros Hname Hm%mapM_Ret_Forall2.
  pose proof (NoDup_range site m) as Hnd.
  assert (Forall (λ kv, m !! kv.1 = Some kv.2) (range site m)) as Hr.
  { apply Forall_forall. intros [k v]. apply elem_of_range. }
  induction Hm as [|[k v] oa r l Hf Hm IH]; [constructor|].
  simpl in Hnd. apply NoDup_cons in Hnd as [Hk Hnd]. apply Forall_cons in Hr as [Hkv Hr].
  assert (aname <$> omap id l ⊆ r.*1) as Hsub.
  { clear -Hm Hr Hname. induction Hm as [|[k v] oa r l Hf Hm IH]; [set_solver|].
    apply Forall_cons in Hr as [Hkv Hr]. specialize (IH Hr). destruct oa as [a|]; simpl; [|set_solver].
    rewrite (Hname k v a) by done. set_solver. }
  destruct oa as [a|]; simpl; [|by apply IH]. rewrite (Hname k v a) by done.
  apply NoDup_cons. split; [|by apply IH]. intros Hin. by apply Hk, Hsub.
Qed.

Lemma mapM_range_total site m :
  (∀ k v, m !! k = Some v → ∃ oa, f k v = Ret oa) →
  ∃ l, mapM (λ '(k, v), f k v) (range site m) = Ret l.
Proof.
  intros Hf. apply mapM_total. intros [k v] Hk%elem_of_range. by apply Hf.
Qed.

End loops.

(** ** Backend set actions *)

(** A backend set whose backends have addresses and whose health checker has a
    port, as the service and the controller make them. *)
Definition backend_set_ok (b : GenericBackendSetDetails) : Prop :=
  backends_ok (bs_Backends b) ∧ ∀ hc, bs_HealthChecker b = Some hc → is_Some (hc_Port hc).

Lemma portsFromBackendSetDetails_total b :
  backend_set_ok b → ∃ p, portsFromBackendSetDetails b = Ret p.
Proof.
  intros [Hb Hh]. unfold portsFromBackendSetDetails.
  assert (∃ p, match bs_Backends b with [] => mret 0%Z | b :: _ => deref (be_Port b) end = Ret p)
    as [p1 ->].
  { destruct Hb as [|x l [[ip p] Hx] _]; [by eexists|]. unfold endpoint in Hx.
    destruct (be_IpAddress x), (be_Port x); try done. by eexists. }
  assert (∃ p, match bs_HealthChecker b with None => mret 0%Z | Some hc => deref (hc_Port hc) end
    = Ret p) as [p2 ->].
  { destruct (bs_HealthChecker b) as [hc|]; [|by eexists]. destruct (Hh hc) as [p Hp]; [done|].
    rewrite Hp. by eexists. }
  by eexists.
Qed.

Section backend_sets.
Context `{!MapRange} (actual desired : gmap string GenericBackendSetDetails).
Hypothesis actual_ok : ∀ n b, actual !! n = Some b → backend_set_ok b ∧ bs_Name b = Some n.
Hypothesis desired_ok : ∀ n b, desired !! n = Some b → backend_set_ok b.

Lemma backend_set_existing_spec n b :
  actual !! n = Some b →
  ∃ oa, backend_set_existing desired n b = Ret oa ∧
    match oa, desired !! n with
    | None, Some d => backend_set_in_sync b d
    | Some a, Some d => bsa_name a = n ∧ bsa_actionType a = Update ∧ bsa_BackendSet a = d
                        ∧ ¬ backend_set_in_sync b d
    | Some a, None => bsa_name a = n ∧ bsa_actionType a = Delete
    | None, None => False
    end.
Proof using actual_ok desired_ok.
  intros Hb. destruct (actual_ok n b Hb) as [Hok Hn]. unfold backend_set_existing, portsFromBackendSet.
  destruct (portsFromBackendSetDetails_total b Hok) as [p Hp].
  destruct (desired !! n) as [d|] eqn:Hd.
  - destruct (hasBackendSetChanged_total b d) as (c & -> & Hc);
      [apply Hok|by eapply desired_ok|]. cbn [mbind outcome_bind].
    destruct c; [|eexists; split; [done|by apply Hc]].
    destruct (portsFromBackendSetDetails_total d) as [pd Hpd]; [by eapply desired_ok|].
    rewrite Hp, Hpd. cbn. eexists. split; [done|]. simpl. split_and!; try done.
    intros ?%Hc. done.
  - rewrite Hn, Hp. by eexists.
Qed.

Lemma backend_set_new_spec n d :
  desired !! n = Some d →
  ∃ oa, backend_set_new actual n d = Ret oa ∧
    match oa, actual !! n with
    | None, Some _ => True
    | Some a, None => bsa_name a = n ∧ bsa_actionType a = Create ∧ bsa_BackendSet a = d
    | _, _ => False
    end.
Proof using desired_ok.
  intros Hd. unfold backend_set_new. destruct (actual !! n); [by eexists|].
  destruct (portsFromBackendSetDetails_total d) as [p ->]; [by eapply desired_ok|]. by eexists.
Qed.

(** The action [a] comes from one of the two loops. *)
Definition backend_set_change (a : BackendSetAction) : Prop :=
  (∃ b, actual !! bsa_name a = Some b ∧
        backend_set_existing desired (bsa_name a) b = Ret (Some a)) ∨
  (∃ d, desired !! bsa_name a = Some d ∧ backend_set_new actual (bsa_name a) d = Ret (Some a)).

Lemma getBackendSetChanges_spec site :
  ∃ actions, getBackendSetChanges site actual desired = Ret actions ∧
    NoDup (bsa_name <$> actions) ∧
    ∀ a, a ∈ actions ↔ backend_set_change a.
Proof using actual_ok desired_ok.
  destruct (mapM_range_total (backend_set_existing desired) site actual) as [l1 H1].
  { intros k v Hk. destruct (backend_set_existing_spec k v Hk) as (oa & ? & _). eauto. }
  destruct (mapM_range_total (backend_set_new actual) (S site) desired) as [l2 H2].
  { intros k v Hk. destruct (backend_set_new_spec k v Hk) as (oa & ? & _). eauto. }
  assert (∀ k b a, actual !! k = Some b → backend_set_existing desired k b = Ret (Some a) →
    bsa_name a = k) as Hn1.
  { intros k b a Hk Hf. destruct (backend_set_existing_spec k b Hk) as (oa & Hf' & Hs).
    rewrite Hf in Hf'. injection Hf' as <-. destruct (desired !! k); naive_solver. }
  assert (∀ k d a, desired !! k = Some d → backend_set_new actual k d = Ret (Some a) →
    bsa_name a = k ∧ actual !! k = None) as Hn2.
  { intros k d a Hk Hf. destruct (backend_set_new_spec k d Hk) as (oa & Hf' & Hs).
    rewrite Hf in Hf'. injection Hf' as <-. destruct (actual !! k); naive_solver. }
  pose proof (λ a, mapM_range_elem _ _ _ _ a H1) as E1.
  pose proof (λ a, mapM_range_elem _ _ _ _ a H2) as E2.
  exists (omap id l1 ++ omap id l2). split_and!.
  - unfold getBackendSetChanges. rewrite H1. cbn [mbind outcome_bind]. by rewrite H2.
  - rewrite fmap_app. apply NoDup_app. split_and!.
    + by eapply mapM_range_NoDup.
    + intros n (a & -> & (k & b & Hk & Hf)%E1)%list_elem_of_fmap
        (a' & En & (k' & d & Hk' & Hf')%E2)%list_elem_of_fmap.
      pose proof (Hn1 _ _ _ Hk Hf). destruct (Hn2 _ _ _ Hk' Hf'). congruence.
    + eapply mapM_range_NoDup; [|exact H2]. intros. by eapply Hn2.
  - intros a. unfold backend_set_change. rewrite elem_of_app, E1, E2. split.
    + intros [(k & b & Hk & Hf)|(k & d & Hk & Hf)]; [left|right].
      * pose proof (Hn1 _ _ _ Hk Hf) as <-. eauto.
      * destruct (Hn2 _ _ _ Hk Hf) as [<- _]. eauto.
    + intros [(b & ? & ?)|(d & ? & ?)]; eauto 10.
Qed.

Definition backend_set_effect (st : Storage) (a : BackendSetAction) : option GenericBackendSetDetails :=
  effect_of (bsa_actionType a) (st_backend_set st (bsa_name a) (bsa_BackendSet a)).

(** The state of the backend sets after the actions. *)
Definition backend_sets_after (st : Storage) (m : gmap string GenericBackendSetDetails)
    (actions : list BackendSetAction) : gmap string GenericBackendSetDetails :=
  perform_all bsa_name (backend_set_effect st) m actions.

(** Nothing to do: the same names, each in sync. *)
Definition backend_sets_in_sync (a d : gmap string GenericBackendSetDetails) : Prop :=
  ∀ n, match a !! n, d !! n with
       | Some x, Some y => backend_set_in_sync x y
       | None, None => True
       | _, _ => False
       end.

(** What the two loops say about the name [n]. *)
Lemma backend_set_change_cases n :
  (∃ a, backend_set_change a ∧ bsa_name a = n ∧
     match desired !! n with
     | Some d => bsa_BackendSet a = d ∧ ∀ x : GenericBackendSetDetails, effect_of (bsa_actionType a) x = Some x
     | None => ∀ x : GenericBackendSetDetails, effect_of (bsa_actionType a) x = None
     end ∧
     ∀ b d, actual !! n = Some b → desired !! n = Some d → ¬ backend_set_in_sync b d) ∨
  ((∀ a, backend_set_change a → bsa_name a ≠ n) ∧
     match actual !! n, desired !! n with
     | Some x, Some y => backend_set_in_sync x y
     | None, None => True
     | _, _ => False
     end).
Proof using actual_ok desired_ok.
  destruct (actual !! n) as [b|] eqn:Hb.
  - destruct (backend_set_existing_spec n b Hb) as ([a|] & Hf & Hs); [left|right].
    + assert (bsa_name a = n) as Hn by (destruct (desired !! n); apply Hs).
      exists a. split; [left; rewrite Hn; by eauto|]. split; [done|].
      destruct (desired !! n) as [d|].
      * destruct Hs as (_ & -> & -> & Hns). split; [done|]. by intros ?? [= <-] [= <-].
      * destruct Hs as (_ & ->). split; [done|]. done.
    + split; [|by destruct (desired !! n)].
      intros a [(b' & Hb' & Hf')|(d & Hd & Hf')] <-; [congruence|].
      unfold backend_set_new in Hf'. by rewrite Hb in Hf'.
  - destruct (desired !! n) as [d|] eqn:Hd; [left|right].
    + destruct (backend_set_new_spec n d Hd) as (oa & Hf & Hs). rewrite Hb in Hs.
      destruct oa as [a|]; [|done]. destruct Hs as (Hn & Hty & Hbs). exists a.
      split; [right; rewrite Hn; by eauto|]. rewrite Hty, Hbs. done.
    + split; [|done]. intros a [(b' & Hb' & _)|(d & Hd' & _)] <-; congruence.
Qed.

(** Whether the backend sets are the desired ones, as they are stored, or were in sync
    with them. *)
Definition backend_sets_reached (st : Storage) (after : gmap string GenericBackendSetDetails) : Prop :=
  ∀ n, match desired !! n with
       | None => after !! n = None
       | Some d => ∃ b, after !! n = Some b ∧
           (b = st_backend_set st n d ∨ actual !! n = Some b ∧ backend_set_in_sync b d)
       end.

(** The actions, in whatever order, reach the desired backend sets. *)
Lemma backend_sets_converge st site actions order :
  getBackendSetChanges site actual desired = Ret actions → order ≡ₚ actions →
  backend_sets_reached st (backend_sets_after st actual order).
Proof using actual_ok desired_ok.
  intros Hr Hp n. destruct (getBackendSetChanges_spec site) as (actions' & Hr' & Hnd & Hel).
  rewrite Hr in Hr'. injection Hr' as <-. rewrite <-Hp in Hnd.
  destruct (backend_set_change_cases n) as [(a & Ha%Hel & <- & He & _)|[Hno Hs]].
  - rewrite <-Hp in Ha. unfold backend_sets_after.
    rewrite (perform_all_elem bsa_name (backend_set_effect st)) by done.
    unfold backend_set_effect. destruct (desired !! bsa_name a); [|done]. destruct He as [-> ->]. eauto.
  - unfold backend_sets_after. rewrite perform_all_other.
    + destruct (actual !! n), (desired !! n); naive_solver.
    + intros (a & -> & Ha)%list_elem_of_fmap. rewrite Hp in Ha.
      by apply (Hno a); [apply Hel|].
Qed.

(** C6: the comparison of backend sets never panics
    on well-formed sets, has at most one action per name, and its actions,
    performed in any order, leave exactly the desired backend sets: each is the
    desired one, as the service stores it, or was already in sync with it.  There is no action exactly when
    everything is in sync. *)
Theorem getBackendSetChanges_correct site :
  ∃ actions, getBackendSetChanges site actual desired = Ret actions ∧
    NoDup (bsa_name <$> actions) ∧
    (∀ st order, order ≡ₚ actions → backend_sets_reached st (backend_sets_after st actual order)) ∧
    (actions = [] ↔ backend_sets_in_sync actual desired).
Proof using actual_ok desired_ok.
  destruct (getBackendSetChanges_spec site) as (actions & Hr & Hnd & Hel).
  exists actions. split_and!; [done|done|by intros st order Hp; eapply backend_sets_converge|].
  unfold backend_sets_in_sync. split.
  - intros -> n. destruct (backend_set_change_cases n) as [(a & Ha%Hel & _)|[_ Hs]]; [set_solver|done].
  - intros Hsync. apply elem_of_nil_inv. intros a Ha%Hel. specialize (Hsync (bsa_name a)).
    destruct (backend_set_change_cases (bsa_name a)) as [(a' & _ & _ & He & Hns)|[Hno _]];
      [|by apply (Hno a)].
    destruct Ha as [(b & Hb & Hf)|(d & Hd & Hf)].
    + destruct (actual !! bsa_name a) as [x|], (desired !! bsa_name a) as [y|]; try done.
      by apply (Hns x y).
    + rewrite Hd in Hsync. unfold backend_set_new in Hf. by destruct (actual !! bsa_name a).
Qed.

End backend_sets.

(** The same for a loop that always answers. *)
Lemma omap_range_NoDup {V A} (g : string * V → option A) (aname : A → string) l :
  (∀ k v a, g (k, v) = Some a → aname a = k) → NoDup l.*1 → NoDup (aname <$> omap g l).
Proof.
  intros Hg. induction l as [|[k v] l IH]; intros Hnd; [constructor|].
  simpl in Hnd. apply NoDup_cons in Hnd as [Hk Hnd]. csimpl.
  destruct (g (k, v)) as [a|] eqn:E; [|by apply IH].
  csimpl. apply NoDup_cons. split; [|by apply IH].
  rewrite (Hg _ _ _ E). intros (b & -> & ([k' v'] & Hin & Hb)%list_elem_of_omap)%list_elem_of_fmap.
  apply Hk. rewrite (Hg _ _ _ Hb). apply list_elem_of_fmap. by exists (k', v').
Qed.

Lemma omap_fmap {A B C} (f : A → B) (g : B → option C) (l : list A) :
  omap g (f <$> l) = omap (g ∘ f) l.
Proof.
  induction l as [|x l IH]; [done|]. csimpl. unfold compose at 1. by destruct (g (f x)); csimpl; rewrite IH.
Qed.

(** ** Listener actions *)

Lemma foldl_insert_lookup {V} (f : string → string) (l : list (string * V)) (m : gmap string V) s d :
  NoDup ((f ∘ fst) <$> l) →
  foldl (λ m '(n, v), <[f n := v]> m) m l !! s = Some d ↔
  (∃ n, (n, d) ∈ l ∧ f n = s) ∨ (m !! s = Some d ∧ s ∉ (f ∘ fst) <$> l).
Proof.
  revert m. induction l as [|[n v] l IH]; intros m Hnd; [set_solver|].
  rewrite fmap_cons, NoDup_cons in Hnd. destruct Hnd as [Hn Hnd]. cbn [foldl]. rewrite IH by done.
  rewrite fmap_cons, not_elem_of_cons. unfold compose in *. cbn [fst] in *.
  setoid_rewrite elem_of_cons. split.
  - intros [(n' & Hin & <-)|[Hm Hs]]; [eauto|].
    destruct (decide (f n = s)) as [<-|Hne].
    + rewrite lookup_insert_eq in Hm. injection Hm as <-. eauto.
    + rewrite lookup_insert_ne in Hm by done. right. split; [done|]. split; [congruence|done].
  - intros [(n' & [[= -> ->]|Hin] & <-)|[Hm [Hne Hs]]]; [right|eauto|right].
    + by rewrite lookup_insert_eq.
    + by rewrite lookup_insert_ne.
Qed.

Definition listener_effect (st : Storage) (a : ListenerAction) : option GenericListener :=
  effect_of (la_actionType a)
    ((if decide (la_actionType a = Create) then st_created_listener st else st_updated_listener st)
       (la_name a) (la_Listener a)).
Definition listeners_after (st : Storage) (m : gmap string GenericListener) (actions : list ListenerAction)
    : gmap string GenericListener := perform_all la_name (listener_effect st) m actions.

(** Some entry of a map has the sanitized name [s], or none. *)
Lemma sanitized_case (m : gmap string GenericListener) s :
  (∃ n l, m !! n = Some l ∧ getSanitizedName n = s) ∨ (∀ n l, m !! n = Some l → getSanitizedName n ≠ s).
Proof.
  destruct (decide (s ∈ getSanitizedName <$> (map_to_list m).*1)) as [Hin|Hni].
  - left. apply list_elem_of_fmap in Hin as (n & -> & ([n' l] & -> & Hl%elem_of_map_to_list)%list_elem_of_fmap).
    by exists n', l.
  - right. intros n l Hl <-. apply Hni, list_elem_of_fmap_2, list_elem_of_fmap.
    exists (n, l). by rewrite elem_of_map_to_list.
Qed.

Section listeners.
Context `{!MapRange} {RS : Type} (actual desired : gmap string GenericListener).
Context (ruleSets : option (gmap string RS)).
Hypothesis actual_inj : ∀ n1 n2, is_Some (actual !! n1) → is_Some (actual !! n2) →
  getSanitizedName n1 = getSanitizedName n2 → n1 = n2.
Hypothesis desired_inj : ∀ n1 n2, is_Some (desired !! n1) → is_Some (desired !! n2) →
  getSanitizedName n1 = getSanitizedName n2 → n1 = n2.

(** The desired listener with a given sanitized name. *)
Lemma sanitized_lookup site s d :
  foldl (λ m '(n, l), <[getSanitizedName n := l]> m) (∅ : gmap string GenericListener)
    (range site desired) !! s = Some d ↔
  ∃ n, desired !! n = Some d ∧ getSanitizedName n = s.
Proof using desired_inj.
  rewrite foldl_insert_lookup.
  - setoid_rewrite elem_of_range. rewrite lookup_empty. split; [|by left].
    intros [?|[[=] _]]. done.
  - rewrite list_fmap_compose. apply NoDup_fmap_2_strong; [|apply NoDup_range].
    intros n1 n2 ([n1' l1] & -> & H1%elem_of_range)%list_elem_of_fmap
      ([n2' l2] & -> & H2%elem_of_range)%list_elem_of_fmap. by apply desired_inj.
Qed.

(** The action on an existing listener, and the creation of a new one. *)
Inductive listener_change : ListenerAction → Prop :=
| change_delete n l :
    actual !! n = Some l →
    (∀ n' d, desired !! n' = Some d → getSanitizedName n' ≠ getSanitizedName n) →
    listener_change (listener_action Delete n (deleted_listener l))
| change_update n l n' d :
    actual !! n = Some l → desired !! n' = Some d → getSanitizedName n' = getSanitizedName n →
    ¬ listener_in_sync ruleSets l d →
    listener_change (listener_action Update n d)
| change_create n d :
    desired !! n = Some d →
    (∀ n' l, actual !! n' = Some l → getSanitizedName n' ≠ getSanitizedName n) →
    listener_change (listener_action Create n d).

Lemma getListenerChanges_elem site a :
  a ∈ getListenerChanges site actual desired ruleSets ↔ listener_change a.
Proof using desired_inj.
  unfold getListenerChanges. cbv zeta.
  set (sd := foldl _ ∅ (range site desired)).
  pose proof (sanitized_lookup site) as Hsd. fold sd in Hsd. clearbody sd.
  set (ex := (λ '(name, actualListener), _) <$> range (1 + site) actual).
  assert (∀ s, s ∈ omap fst ex ↔ ∃ n l n' d, actual !! n = Some l ∧ desired !! n' = Some d ∧
    getSanitizedName n' = s ∧ getSanitizedName n = s) as Hex.
  { intros s. rewrite list_elem_of_omap. unfold ex. setoid_rewrite list_elem_of_fmap. split.
    - intros ([o ao] & ([n l] & Ho & Hn%elem_of_range) & Hs). simpl in Hs. subst o.
      destruct (sd !! getSanitizedName n) as [d|] eqn:E; [|done].
      injection Ho as -> _. apply Hsd in E as (n' & ? & ?). eauto 10.
    - intros (n & l & n' & d & Hn & Hn' & <- & Es).
      assert (sd !! getSanitizedName n = Some d) as E by (apply Hsd; eauto).
      eexists. split; [exists (n, l); split; [reflexivity|by apply elem_of_range]|].
      rewrite E. by rewrite Es. }
  rewrite elem_of_app. split.
  - intros [Ha|Ha].
    + apply list_elem_of_omap in Ha as ([o ao] & Hin & Ha). simpl in Ha. subst ao.
      apply list_elem_of_fmap in Hin as ([n l] & Ho & Hn%elem_of_range).
      destruct (sd !! getSanitizedName n) as [d|] eqn:E.
      * apply Hsd in E as (n' & Hn' & Es).
        destruct (hasListenerChanged l d ruleSets) eqn:Hc; [|done]. injection Ho as -> ->.
        eapply change_update; [done..|]. rewrite <-hasListenerChanged_false. congruence.
      * injection Ho as -> ->. apply change_delete; [done|]. intros n' d Hn' Es.
        assert (sd !! getSanitizedName n = Some d) by (apply Hsd; eauto). congruence.
    + apply list_elem_of_omap in Ha as (o & Hin & Ha). simpl in Ha. subst o.
      apply list_elem_of_fmap in Hin as ([n d] & Ho & Hn%elem_of_range).
      destruct (decide _) as [|Hni]; [done|]. injection Ho as ->.
      apply change_create; [done|]. intros n' l Hn' Es. apply Hni, elem_of_list_to_set, Hex. eauto 10.
  - destruct 1 as [n l Hn Hno|n l n' d Hn Hn' Es Hns|n d Hn Hno].
    + left. apply list_elem_of_omap. eexists. split; [apply list_elem_of_fmap; exists (n, l)|].
      * split; [reflexivity|by apply elem_of_range].
      * destruct (sd !! getSanitizedName n) as [d|] eqn:E; [|done].
        apply Hsd in E as (n' & Hn' & Es). by destruct (Hno n' d).
    + left. apply list_elem_of_omap. eexists. split; [apply list_elem_of_fmap; exists (n, l)|].
      * split; [reflexivity|by apply elem_of_range].
      * assert (sd !! getSanitizedName n = Some d) as -> by (apply Hsd; eauto).
        destruct (hasListenerChanged l d ruleSets) eqn:Hc; [done|].
        by apply hasListenerChanged_false in Hc.
    + right. apply list_elem_of_omap. eexists. split; [apply list_elem_of_fmap; exists (n, d)|].
      * split; [reflexivity|by apply elem_of_range].
      * rewrite decide_False; [done|]. intros (n0 & l & n' & d' & Hn0 & Hn' & _ & Es)%elem_of_list_to_set%Hex.
        by apply (Hno n0 l).
Qed.

Lemma getListenerChanges_NoDup site :
  NoDup (la_name <$> getListenerChanges site actual desired ruleSets).
Proof using actual_inj desired_inj.
  unfold getListenerChanges. cbv zeta. rewrite !omap_fmap, fmap_app.
  set (sd := foldl _ ∅ (range site desired)).
  pose proof (sanitized_lookup site) as Hsd. fold sd in Hsd. clearbody sd.
  apply NoDup_app. split_and!.
  - apply omap_range_NoDup; [|apply NoDup_range]. intros k v a. unfold compose.
    destruct (sd !! _); [destruct (hasListenerChanged _ _ _)|]; simpl; by intros [= <-].
  - intros n (a & -> & ([k l] & Hk & Ha)%list_elem_of_omap)%list_elem_of_fmap
      (b & En & ([k' d] & Hk' & Hb)%list_elem_of_omap)%list_elem_of_fmap.
    unfold compose in Ha, Hb. destruct (decide _) as [|Hni]; [done|]. injection Hb as <-.
    simpl in En. apply elem_of_range in Hk'.
    destruct (sd !! getSanitizedName k) as [e|] eqn:E.
    + destruct (hasListenerChanged l e ruleSets); [|done]. injection Ha as <-. simpl in En. subst k'.
      apply Hni, elem_of_list_to_set, list_elem_of_omap.
      exists (k, l). split; [done|]. unfold compose. by rewrite E.
    + injection Ha as <-. simpl in En. subst k'.
      assert (sd !! getSanitizedName k = Some d) by (apply Hsd; eauto). congruence.
  - apply omap_range_NoDup; [|apply NoDup_range]. intros k v a. unfold compose. simpl.
    case_decide; [done|]. by intros [= <-].
Qed.

(** The listeners after the actions, in whatever order. *)
Lemma listeners_after_Some st site order n x :
  order ≡ₚ getListenerChanges site actual desired ruleSets →
  listeners_after st actual order !! n = Some x ↔
  (∃ l n' d, actual !! n = Some l ∧ desired !! n' = Some d ∧
     getSanitizedName n' = getSanitizedName n ∧
     if hasListenerChanged l d ruleSets then x = st_updated_listener st n d else x = l) ∨
  (∃ d, desired !! n = Some d ∧ x = st_created_listener st n d ∧
     ∀ n' l, actual !! n' = Some l → getSanitizedName n' ≠ getSanitizedName n).
Proof using actual_inj desired_inj.
  intros Hp. unfold listeners_after.
  pose proof (getListenerChanges_NoDup site) as Hnd. rewrite <-Hp in Hnd.
  assert (∀ a, a ∈ order ↔ listener_change a) as Hel
    by (intros a; rewrite Hp; apply getListenerChanges_elem).
  destruct (decide (n ∈ la_name <$> order)) as [(a & -> & Ha)%list_elem_of_fmap|Hn].
  - rewrite (perform_all_elem la_name (listener_effect st)) by done. apply Hel in Ha.
    destruct Ha as [n l Hn Hno|n l n' d Hn Hn' Es Hns|n d Hn Hno]; cbn.
    + split; [done|]. intros [(l' & n' & d & _ & ? & ? & _)|(d & ? & _ & Hno')]; exfalso; [by eapply Hno|by eapply Hno'].
    + rewrite <-hasListenerChanged_false in Hns. apply not_false_is_true in Hns. split.
      * intros [= <-]. left. exists l, n', d. by rewrite Hns.
      * intros [(l' & n1 & d1 & Hl' & Hd1 & Es1 & Hx)|(d1 & _ & _ & Hno')]; [|by exfalso; eapply Hno'].
        assert (n1 = n') as -> by (apply desired_inj; [by eauto..|congruence]).
        simplify_eq. by rewrite Hns in Hx; subst.
    + split.
      * intros [= <-]. right. by exists d.
      * intros [(l' & n1 & d1 & Hl' & _)|(d1 & ? & ? & _)]; [by exfalso; eapply Hno|by simplify_eq].
  - rewrite perform_all_other by done.
    assert (∀ a, listener_change a → la_name a ≠ n) as Hno.
    { intros a Ha%Hel <-. by apply Hn, list_elem_of_fmap_2. }
    split.
    + intros Hl. left.
      destruct (foldl (λ m '(n, l), <[getSanitizedName n := l]> m) (∅ : gmap string GenericListener)
        (range 0 desired) !! getSanitizedName n) as [d|] eqn:E.
      * apply sanitized_lookup in E as (n' & Hn' & Es). exists x, n', d. split_and!; [done..|].
        destruct (hasListenerChanged x d ruleSets) eqn:Hc; [|done]. exfalso.
        eapply (Hno (listener_action Update n d)); [|done]. eapply change_update; [done..|].
        rewrite <-hasListenerChanged_false. congruence.
      * exfalso. eapply (Hno (listener_action Delete n (deleted_listener x))); [|done].
        apply change_delete; [done|]. intros n' d Hn' Es.
        rewrite (proj2 (sanitized_lookup 0 _ d)) in E by eauto. done.
    + intros [(l & n' & d & Hl & Hn' & Es & Hx)|(d & Hd & _ & Hno')].
      * destruct (hasListenerChanged l d ruleSets) eqn:Hc; [|by subst]. exfalso.
        eapply (Hno (listener_action Update n d)); [|done]. eapply change_update; [done..|].
        rewrite <-hasListenerChanged_false. congruence.
      * exfalso. eapply (Hno (listener_action Create n d)); [|done]. by apply change_create.
Qed.

(** The listener [d] as it is stored under the name [n]. *)
Definition stored_listener (st : Storage) (n : string) (d l : GenericListener) : Prop :=
  l = st_listener st n d ∨ l = st_created_listener st n d ∨ l = st_updated_listener st n d.

(** One listener per desired listener, matched by sanitized name, which is the
    desired one as it is stored or was in sync with it; no other listener, and no name
    twice. *)
Definition listeners_reached (st : Storage) (after : gmap string GenericListener) : Prop :=
  (∀ n d, desired !! n = Some d → ∃ n' l, after !! n' = Some l ∧
     getSanitizedName n' = getSanitizedName n ∧
     (stored_listener st n' d l ∨ listener_in_sync ruleSets l d)) ∧
  (∀ n' l, after !! n' = Some l → ∃ n d, desired !! n = Some d ∧
     getSanitizedName n = getSanitizedName n') ∧
  (∀ n1 n2, is_Some (after !! n1) → is_Some (after !! n2) →
     getSanitizedName n1 = getSanitizedName n2 → n1 = n2).

Lemma listeners_converge st site order :
  order ≡ₚ getListenerChanges site actual desired ruleSets →
  listeners_reached st (listeners_after st actual order).
Proof using actual_inj desired_inj.
  intros Hp. set (after := listeners_after st actual order).
  pose proof (λ n x, listeners_after_Some st site order n x Hp) as Hafter. fold after in Hafter.
  unfold listeners_reached. split_and!.
  - intros n d Hd.
    destruct (decide (getSanitizedName n ∈ getSanitizedName <$> (map_to_list actual).*1)) as [Hin|Hni].
    + apply list_elem_of_fmap in Hin as (n' & Es & ([n'' l] & -> & Hl%elem_of_map_to_list)%list_elem_of_fmap).
      simpl in Es. exists n''. destruct (hasListenerChanged l d ruleSets) eqn:Hc.
      * exists (st_updated_listener st n'' d). split_and!; [|done|left; by do 2 right].
        apply Hafter. left. exists l, n, d. by rewrite Hc.
      * exists l. split_and!; [|done|by right; apply hasListenerChanged_false].
        apply Hafter. left. exists l, n, d. by rewrite Hc.
    + exists n, (st_created_listener st n d). split_and!; [|done|left; right; by left].
      apply Hafter. right. exists d. split_and!; [done..|].
      intros n' l Hl Es. apply Hni. rewrite <-Es. apply list_elem_of_fmap_2, list_elem_of_fmap.
      exists (n', l). by rewrite elem_of_map_to_list.
  - intros n' l [(l' & n & d & _ & Hd & Es & _)|(d & Hd & _)]%Hafter; eauto.
  - intros n1 n2 [x1 H1%Hafter] [x2 H2%Hafter] Es.
    destruct H1 as [(l1 & m1 & d1 & Hl1 & _)|(d1 & Hd1 & _ & Hn1)], H2 as [(l2 & m2 & d2 & Hl2 & _)|(d2 & Hd2 & _ & Hn2)].
    + apply actual_inj; eauto.
    + exfalso. by eapply Hn2.
    + exfalso. by eapply Hn1.
    + apply desired_inj; eauto.
Qed.

(** The listener actions, performed in any order,
    leave exactly one listener per desired listener, matched by sanitized name:
    it is the desired one, as the service stores it, or was already in sync with it.
    No listener remains
    that is not desired, and none is duplicated under another protocol name.
    There is at most one action per listener, and none exactly when every
    listener has a desired one it is in sync with and conversely. *)
Lemma getListenerChanges_correct site :
  let actions := getListenerChanges site actual desired ruleSets in
  (∀ st order, order ≡ₚ actions → listeners_reached st (listeners_after st actual order)) ∧
  NoDup (la_name <$> actions) ∧
  (actions = [] ↔
     (∀ n l, actual !! n = Some l → ∃ n' d, desired !! n' = Some d ∧
        getSanitizedName n' = getSanitizedName n ∧ listener_in_sync ruleSets l d) ∧
     (∀ n d, desired !! n = Some d → ∃ n' l, actual !! n' = Some l ∧
        getSanitizedName n' = getSanitizedName n)).
Proof using actual_inj desired_inj.
  intros actions. split_and!; [intros st; apply listeners_converge|apply getListenerChanges_NoDup|]. split.
  - intros Hnil. assert (∀ a, ¬ listener_change a) as Hno.
    { intros a Ha%(getListenerChanges_elem site). fold actions in Ha. rewrite Hnil in Ha. set_solver. }
    split.
    + intros n l Hl. destruct (sanitized_case desired (getSanitizedName n)) as [(n' & d & Hd & Es)|Hn].
      * exists n', d. split_and!; [done..|]. apply hasListenerChanged_false.
        destruct (hasListenerChanged l d ruleSets) eqn:Hc; [|done]. exfalso.
        eapply Hno, (change_update n l n' d); [done..|]. rewrite <-hasListenerChanged_false. congruence.
      * exfalso. by eapply Hno, change_delete.
    + intros n d Hd. destruct (sanitized_case actual (getSanitizedName n)) as [(n' & l & Hl & Es)|Hn]; [by eauto|].
      exfalso. by eapply Hno, change_create.
  - intros [Ha Hd]. apply elem_of_nil_inv. intros a Hel%getListenerChanges_elem.
    destruct Hel as [n l Hl Hno|n l n' d Hl Hn' Es Hns|n d Hn Hno].
    + destruct (Ha n l Hl) as (n' & d & ? & ? & _). by eapply Hno.
    + destruct (Ha n l Hl) as (n1 & d1 & Hd1 & Es1 & Hs).
      assert (n1 = n') as -> by (apply desired_inj; [by eauto..|congruence]). by simplify_eq.
    + destruct (Hd n d Hn) as (n' & l & ? & ?). by eapply Hno.
Qed.

End listeners.

(** ** Rule set actions *)

Definition rule_set_effect {RS} (a : RuleSetAction RS) : option RS :=
  effect_of (rsa_actionType a) (rsa_RuleSetDetails a).
Definition rule_sets_after {RS} (m : gmap string RS) (actions : list (RuleSetAction RS))
    : gmap string RS := perform_all rsa_name rule_set_effect m actions.

(** The action for one name. *)
Definition rule_set_action {RS} `{EqDecision RS} (name : string) (a d : option RS)
    : option (RuleSetAction RS) :=
  match a, d with
  | Some a, None => Some {| rsa_actionType := Delete; rsa_name := name; rsa_RuleSetDetails := a |}
  | None, Some d => Some {| rsa_actionType := Create; rsa_name := name; rsa_RuleSetDetails := d |}
  | Some a, Some d => if decide (a ≠ d)
      then Some {| rsa_actionType := Update; rsa_name := name; rsa_RuleSetDetails := d |} else None
  | None, None => None
  end.

Section rule_sets.
Context `{!MapRange} {RS : Type} `{EqDecision RS} (actual desired : gmap string RS).

Lemma getRuleSetChanges_elem site a :
  a ∈ getRuleSetChanges site actual desired ↔
  rule_set_action (rsa_name a) (actual !! rsa_name a) (desired !! rsa_name a) = Some a.
Proof.
  unfold getRuleSetChanges. rewrite elem_of_app, !list_elem_of_omap. split.
  - intros [([n r] & Hn%elem_of_range & Ha)|([n r] & Hn%elem_of_range & Ha)].
    + destruct (desired !! n) eqn:E; [done|]. injection Ha as <-. simpl. by rewrite Hn, E.
    + destruct (actual !! n) as [x|] eqn:E.
      * destruct (decide (x ≠ r)) eqn:D; [|done]. injection Ha as <-. simpl.
        by rewrite E, Hn; simpl; rewrite D.
      * injection Ha as <-. simpl. by rewrite E, Hn.
  - destruct (actual !! rsa_name a) as [x|] eqn:Ea, (desired !! rsa_name a) as [d|] eqn:Ed;
      simpl; intros Hx; [right|left|right|done].
    + exists (rsa_name a, d). rewrite elem_of_range. split; [done|]. by rewrite Ea.
    + exists (rsa_name a, x). rewrite elem_of_range. split; [done|]. by rewrite Ed.
    + exists (rsa_name a, d). rewrite elem_of_range. split; [done|]. by rewrite Ea.
Qed.

Lemma getRuleSetChanges_NoDup site : NoDup (rsa_name <$> getRuleSetChanges site actual desired).
Proof.
  unfold getRuleSetChanges. rewrite fmap_app. apply NoDup_app. split_and!.
  - apply omap_range_NoDup; [|apply NoDup_range]. intros k v a.
    destruct (desired !! k); [done|]. by intros [= <-].
  - intros n (a & -> & ([k r] & Hk%elem_of_range & Ha)%list_elem_of_omap)%list_elem_of_fmap
      (b & En & ([k' d] & Hk'%elem_of_range & Hb)%list_elem_of_omap)%list_elem_of_fmap.
    destruct (desired !! k) eqn:E; [done|]. injection Ha as <-. simpl in En.
    destruct (actual !! k') as [x|].
    + destruct (decide (x ≠ d)); [|done]. injection Hb as <-. simpl in En. congruence.
    + injection Hb as <-. simpl in En. congruence.
  - apply omap_range_NoDup; [|apply NoDup_range]. intros k v a.
    destruct (actual !! k); [case_decide; [|done]|]; by intros [= <-].
Qed.

Lemma rule_sets_converge site order :
  order ≡ₚ getRuleSetChanges site actual desired → rule_sets_after actual order = desired.
Proof.
  intros Hp. pose proof (getRuleSetChanges_NoDup site) as Hnd. rewrite <-Hp in Hnd.
  apply map_eq. intros n. unfold rule_sets_after.
  destruct (rule_set_action n (actual !! n) (desired !! n)) as [a|] eqn:E.
  - assert (rsa_name a = n) as Hn.
    { destruct (actual !! n), (desired !! n); simpl in E; repeat case_decide; by simplify_eq/=. }
    assert (a ∈ order) as Ha by (rewrite Hp; apply getRuleSetChanges_elem; by rewrite Hn).
    rewrite <-Hn at 1. rewrite (perform_all_elem rsa_name rule_set_effect) by done.
    clear Hn. destruct (actual !! n), (desired !! n); simpl in E; repeat case_decide;
      by try injection E as <-.
  - rewrite perform_all_other.
    + destruct (actual !! n), (desired !! n); simpl in E; try case_decide; simplify_eq/=; try done;
        try (f_equal; by apply dec_stable).
    + intros (a & -> & Ha)%list_elem_of_fmap. rewrite Hp in Ha.
      apply getRuleSetChanges_elem in Ha. congruence.
Qed.

(** Performing the rule set actions, in any order,
    gives exactly the desired rule sets, and there is no action exactly when the
    rule sets are the desired ones. *)
Lemma getRuleSetChanges_correct site :
  let actions := getRuleSetChanges site actual desired in
  (∀ order, order ≡ₚ actions → rule_sets_after actual order = desired) ∧
  (actions = [] ↔ actual = desired).
Proof.
  intros actions. split; [apply rule_sets_converge|]. split.
  - intros Hnil. rewrite <-(rule_sets_converge site []); [done|]. unfold actions in Hnil. by rewrite Hnil.
  - intros E. apply elem_of_nil_inv. intros a Ha%getRuleSetChanges_elem. rewrite E in Ha.
    destruct (desired !! rsa_name a) as [d|]; simpl in Ha; [|done]. by rewrite decide_False in Ha by auto.
Qed.

End rule_sets.

(** ** The properties at concrete inputs *)

Definition example_backend_set (name : string) (ips : list string) (port : Z)
    : GenericBackendSetDetails := {|
  bs_Name := Some name; bs_HealthChecker := None; bs_Policy := Some "ROUND_ROBIN";
  bs_Backends := (λ ip, {| be_Port := Some port; be_Name := None; be_IpAddress := Some ip;
    be_TargetId := None; be_Weight := Some 1%Z; be_Backup := None; be_Drain := None;
    be_Offline := None; be_MaxConnections := None |}) <$> ips;
  bs_SessionPersistenceConfiguration := None; bs_SslConfiguration := None;
  bs_IsPreserveSource := Some false; bs_IpVersion := None |}.

Lemma example_backend_set_ok name ips port : backend_set_ok (example_backend_set name ips port).
Proof.
  split; [|done]. apply Forall_fmap, Forall_true. intros ip. by eexists.
Qed.

Lemma getBackendSetChanges_correct_witness :
  let _ := list_range in
  ∃ actions,
    getBackendSetChanges 0
      (<["TCP-80" := example_backend_set "TCP-80" ["10.0.0.1"; "10.0.0.2"] 30080]>
         {["TCP-81" := example_backend_set "TCP-81" ["10.0.0.1"] 30081]})
      {["TCP-80" := example_backend_set "TCP-80" ["10.0.0.1"; "10.0.0.3"] 30080]} = Ret actions ∧
    length actions = 2.
Proof.
  intros R.
  destruct (getBackendSetChanges_correct
    (<["TCP-80" := example_backend_set "TCP-80" ["10.0.0.1"; "10.0.0.2"] 30080]>
       {["TCP-81" := example_backend_set "TCP-81" ["10.0.0.1"] 30081]})
    {["TCP-80" := example_backend_set "TCP-80" ["10.0.0.1"; "10.0.0.3"] 30080]}) with (site := 0)
    as (actions & Hr & _).
  - intros n b [[<- <-]|[_ [<- <-]%lookup_singleton_Some]]%lookup_insert_Some;
      by split; [apply example_backend_set_ok|].
  - intros n b [<- <-]%lookup_singleton_Some. apply example_backend_set_ok.
  - exists actions. split; [done|]. vm_compute in Hr. by injection Hr as <-.
Defined.

Definition example_listener (proto : string) (port : Z) : GenericListener := {|
  ln_Name := Some (getListenerName proto port); ln_DefaultBackendSetName := Some "TCP-80";
  ln_Port := Some port; ln_Protocol := Some proto; ln_HostnameNames := [];
  ln_PathRouteSetName := None; ln_SslConfiguration := None; ln_ConnectionConfiguration := None;
  ln_RoutingPolicyName := None; ln_RuleSetNames := []; ln_IpVersion := None;
  ln_IsPpv2Enabled := None |}.

(** Changing the protocol of port 80 to HTTP updates the listener TCP-80. *)
Lemma getListenerChanges_correct_witness :
  let _ := list_range in
  let actual := {["TCP-80" := example_listener "TCP" 80]} : gmap string GenericListener in
  let desired := {["HTTP-80" := example_listener "HTTP" 80]} : gmap string GenericListener in
  let changes := getListenerChanges 0 actual desired (None : option (gmap string ())) in
  la_actionType <$> changes = [Update] ∧
  ∃ n' l, listeners_after exact_storage actual changes !! n' = Some l ∧ getSanitizedName n' = "TCP-80".
Proof.
  intros R actual desired changes. split; [by vm_compute|].
  destruct (getListenerChanges_correct actual desired (None : option (gmap string ())))
    with (site := 0) as (H & _ & _); [..|destruct (H exact_storage changes) as (H' & _ & _); [done|]].
  - intros n1 n2 [? [<- _]%lookup_singleton_Some] [? [<- _]%lookup_singleton_Some]. done.
  - intros n1 n2 [? [<- _]%lookup_singleton_Some] [? [<- _]%lookup_singleton_Some]. done.
  - destruct (H' "HTTP-80" (example_listener "HTTP" 80)) as (n' & l & Hl & Hs & _);
      [apply lookup_singleton_eq|].
    exists n', l. split; [exact Hl|]. rewrite Hs. by vm_compute.
Defined.
