(* ===== verification/Actions.v ===== *)
(** * Ordering of actions (load_balancer_util.go, [sortAndCombineActions])

    Backend set, listener and rule set actions are combined into one list in
    which a resource exists before it is referred to: backend sets are created
    before their listeners and deleted after them, rule sets are created first
    and deleted last.  The comparison passed to [sort.SliceStable] is not a
    strict weak order, so the order is established for the algorithm itself. *)
From stdpp Require Import base tactics list gmap sets strings sorting.
From S2P Require Import Prelude GoStrings GoSort Types Annotations Names Diff.

(** [a < b] on strings. *)
Definition string_lt (a b : string) : bool := bool_decide (String.le a b ∧ a ≠ b).

Section sort.
Context {RS : Type}.
Implicit Types a b : Action RS.

Definition is_backend_set (a : Action RS) : bool :=
  match a with ActBackendSet _ => true | _ => false end.

(** The first comparison: by sanitized name, then backend set before listener
    for creation and after it for deletion. *)
Definition less_name (a1 a2 : Action RS) : bool :=
  let n1 := getSanitizedName (action_Name a1) in
  let n2 := getSanitizedName (action_Name a2) in
  if decide (n1 ≠ n2) then string_lt n1 n2
  else match action_Type a1 with
       | Create => is_backend_set a1
       | Update => true
       | Delete => is_backend_set a2
       | OtherAction _ => true
       end.

(** The second comparison: deletions first. *)
Definition less_delete (a1 a2 : Action RS) : bool :=
  if decide (action_Type a1 ≠ action_Type a2) then bool_decide (action_Type a1 = Delete) else false.

(** The loop that adds the rule set actions. *)
Definition add_rule_set (actions : list (Action RS)) (a : Action RS) : list (Action RS) :=
  if decide (action_Type a = Delete) then actions ++ [a] else a :: actions.

Definition sortAndCombineActions (backendSetActions listenerActions ruleSetActions : list (Action RS))
    : list (Action RS) :=
  let actions := backendSetActions ++ listenerActions in
  let actions := SliceStable less_name actions in
  let actions := SliceStable less_delete actions in
  foldl add_rule_set actions ruleSetActions.

(** ** Sorting lemmas *)

Lemma insert_left_ext {A} (f g : A → A → bool) x r :
  (∀ y, y ∈ r → f x y = g x y) → insert_left f x r = insert_left g x r.
Proof.
  induction r as [|y r IH]; intros E; [done|]. simpl. rewrite (E y) by by left.
  case_match; [|done]. rewrite IH; [done|]. intros z Hz. apply E. by right.
Qed.

(** Insertion sort only compares an element with earlier ones. *)
Lemma insertionSort_ext {A} (f g : A → A → bool) l :
  StronglySorted (λ y x, f x y = g x y) l → insertionSort f l = insertionSort g l.
Proof.
  intros Hl. unfold insertionSort. f_equal.
  assert (∀ r, (∀ x y, x ∈ l → y ∈ r → f x y = g x y) →
    foldl (λ r x, insert_left f x r) r l = foldl (λ r x, insert_left g x r) r l) as H.
  { induction Hl as [|x l Hl IH Hx]; intros r Hr; [done|]. simpl.
    rewrite (insert_left_ext f g) by (intros; apply Hr; [by left|done]).
    apply IH. intros z y Hz. rewrite insert_left_Permutation. rewrite Forall_forall in Hx.
    intros [->|Hy]%elem_of_cons; [by apply Hx|]. apply Hr; [by right|done]. }
  apply H. set_solver.
Qed.

(** Sorting by a flag is a stable partition. *)
Lemma insert_left_flag {A} (less : A → A → bool) (P : A → Prop) `{∀ x, Decision (P x)} x rn rd :
  (∀ x y, less x y = bool_decide (P x ∧ ¬ P y)) →
  Forall (λ y, ¬ P y) rn → Forall P rd →
  insert_left less x (rn ++ rd) = if decide (P x) then rn ++ x :: rd else x :: rn ++ rd.
Proof.
  intros Hless Hn Hd. induction Hn as [|y rn Hy Hn IH]; simpl.
  - destruct Hd as [|y rd Hy Hd]; simpl; [by case_decide|].
    rewrite Hless, bool_decide_eq_false_2 by tauto. by case_decide.
  - rewrite Hless, IH. case_bool_decide as Hb; case_decide; tauto || done.
Qed.

Lemma insertionSort_flag {A} (less : A → A → bool) (P : A → Prop) `{∀ x, Decision (P x)} l :
  (∀ x y, less x y = bool_decide (P x ∧ ¬ P y)) →
  insertionSort less l = filter P l ++ filter (λ x, ¬ P x) l.
Proof.
  intros Hless. unfold insertionSort.
  assert (∀ rn rd, Forall (λ y, ¬ P y) rn → Forall P rd →
    foldl (λ r x, insert_left less x r) (rn ++ rd) l
    = (reverse (filter (λ x, ¬ P x) l) ++ rn) ++ (reverse (filter P l) ++ rd)) as Hf.
  { induction l as [|x l IH]; intros rn rd Hn Hd; [done|]. simpl foldl.
    rewrite (insert_left_flag less P) by done. rewrite !filter_cons.
    destruct (decide (P x)) as [Hx|Hx].
    - rewrite (decide_False (P := ¬ P x)) by tauto.
      rewrite IH by (done || by constructor). rewrite reverse_cons. by rewrite <-!app_assoc.
    - rewrite (decide_True (P := ¬ P x)) by done.
      change (x :: rn ++ rd) with ((x :: rn) ++ rd).
      rewrite IH by (done || by constructor). rewrite reverse_cons. by rewrite <-!app_assoc. }
  specialize (Hf [] [] (Forall_nil_2 _) (Forall_nil_2 _)). simpl in Hf.
  rewrite Hf, !app_nil_r, reverse_app, !reverse_involutive. done.
Qed.

(** [x] comes before [y]. *)
Definition before {A} (x y : A) (l : list A) : Prop := ∃ l1 l2 l3, l = l1 ++ x :: l2 ++ y :: l3.

Lemma sorted_before {A} (R : relation A) `{!Reflexive R} l x y :
  StronglySorted R l → x ∈ l → y ∈ l → ¬ R y x → before x y l.
Proof.
  induction 1 as [|z l Hl IH Hz]; intros Hx Hy Hn; [set_solver|].
  rewrite Forall_forall in Hz.
  apply elem_of_cons in Hx as [->|Hx]; apply elem_of_cons in Hy as [->|Hy].
  - by destruct (Hn (reflexivity _)).
  - apply list_elem_of_split in Hy as (l2 & l3 & ->). by exists [], l2, l3.
  - by destruct (Hn (Hz _ Hx)).
  - destruct (IH Hx Hy Hn) as (l1 & l2 & l3 & ->). by exists (z :: l1), l2, l3.
Qed.

Lemma StronglySorted_filter {A} (R : relation A) (P : A → Prop) `{∀ x, Decision (P x)} l :
  StronglySorted R l → StronglySorted R (filter P l).
Proof.
  induction 1 as [|x l Hl IH Hx]; [constructor|]. rewrite filter_cons. case_decide; [|done].
  constructor; [done|]. rewrite Forall_forall in *. intros y [_ Hy]%list_elem_of_filter. auto.
Qed.

Lemma before_app_l {A} (x y : A) l k : before x y l → before x y (l ++ k).
Proof.
  intros (l1 & l2 & l3 & ->). exists l1, l2, (l3 ++ k). by rewrite <-!app_assoc; simpl; rewrite <-app_assoc.
Qed.

Lemma before_app_r {A} (x y : A) l k : before x y l → before x y (k ++ l).
Proof. intros (l1 & l2 & l3 & ->). exists (k ++ l1), l2, l3. by rewrite <-app_assoc. Qed.

Lemma before_app {A} (x y : A) l k : x ∈ l → y ∈ k → before x y (l ++ k).
Proof.
  intros (l1 & l2 & ->)%list_elem_of_split (k1 & k2 & ->)%list_elem_of_split.
  exists l1, (l2 ++ k1), k2. by rewrite <-!app_assoc.
Qed.

(** ** The order of backend set and listener actions *)

(** Within one sanitized name: listener updates and deletes, the backend set,
    listener creations. *)
Definition rank (a : Action RS) : nat :=
  if is_backend_set a then 1 else if decide (action_Type a = Create) then 2 else 0.

Definition name_order (a b : Action RS) : Prop :=
  let n1 := getSanitizedName (action_Name a) in
  let n2 := getSanitizedName (action_Name b) in
  string_lt n1 n2 = true ∨ (n1 = n2 ∧ rank a ≤ rank b).

Global Instance name_order_dec a b : Decision (name_order a b).
Proof. apply _. Defined.

Lemma string_lt_spec x y : string_lt x y = true ↔ String.le x y ∧ x ≠ y.
Proof. apply bool_decide_eq_true. Qed.

Lemma string_lt_total x y : x ≠ y → string_lt x y = negb (string_lt y x).
Proof.
  intros Hne. destruct (string_lt y x) eqn:E; simpl.
  - apply string_lt_spec in E as [Hle _]. apply not_true_iff_false. intros [Hle' _]%string_lt_spec.
    by apply Hne, (anti_symm String.le).
  - apply string_lt_spec. split; [|done]. destruct (total String.le x y) as [|Hle]; [done|].
    apply not_true_iff_false in E. exfalso. apply E, string_lt_spec. done.
Qed.

Global Instance name_order_refl : Reflexive name_order.
Proof. intros a. by right. Qed.

Global Instance name_order_trans : Transitive name_order.
Proof.
  intros a b c. unfold name_order. rewrite !string_lt_spec.
  intros [[L1 N1]|[E1 R1]] [[L2 N2]|[E2 R2]].
  - left. split; [by etrans|]. intros E. rewrite <-E in L2. by apply N1, (anti_symm String.le).
  - left. by rewrite <-E2.
  - left. by rewrite E1.
  - right. split; [congruence|lia].
Qed.

(** What the inputs look like: one backend set and one listener action per
    sanitized name. *)
Definition names_distinct (l : list (Action RS)) : Prop :=
  NoDup ((λ a, getSanitizedName (action_Name a)) <$> l).

Section order.
Context (bs ls : list (Action RS)).
Hypothesis bs_backend_sets : Forall (λ a, is_backend_set a = true) bs.
Hypothesis ls_listeners : Forall (λ a, is_backend_set a = false) ls.
Hypothesis bs_distinct : names_distinct bs.
Hypothesis ls_distinct : names_distinct ls.

Lemma less_name_other a b :
  getSanitizedName (action_Name a) ≠ getSanitizedName (action_Name b) →
  less_name a b = negb (bool_decide (name_order b a)).
Proof.
  intros Hne. unfold less_name. rewrite decide_True by done.
  rewrite string_lt_total by done. f_equal.
  case_bool_decide as E; [by destruct E as [?|[? _]]|].
  apply not_true_iff_false. intros Hlt. apply E. by left.
Qed.

Lemma distinct_sorted l :
  names_distinct l →
  StronglySorted (λ y x, less_name x y = negb (bool_decide (name_order y x))) l.
Proof.
  unfold names_distinct. induction l as [|y l IH]; intros Hnd; [constructor|].
  rewrite fmap_cons, NoDup_cons in Hnd. destruct Hnd as [Hy Hnd].
  constructor; [by apply IH|]. apply Forall_forall. intros x Hx. apply less_name_other.
  intros E. apply Hy. rewrite <-E.
  by apply (list_elem_of_fmap_2 (λ a, getSanitizedName (action_Name a))).
Qed.

(** On this input the comparison agrees with [name_order]. *)
Lemma less_name_agrees :
  StronglySorted (λ y x, less_name x y = negb (bool_decide (name_order y x))) (bs ++ ls).
Proof using bs_backend_sets ls_listeners bs_distinct ls_distinct.
  apply StronglySorted_app_2; [|by apply distinct_sorted..].
  rewrite Forall_forall in bs_backend_sets. rewrite Forall_forall in ls_listeners.
  intros y x Hy%bs_backend_sets Hx%ls_listeners.
  destruct (decide (getSanitizedName (action_Name x) = getSanitizedName (action_Name y))) as [E|E];
    [|by apply less_name_other].
  unfold less_name. rewrite decide_False by tauto. rewrite Hx, Hy.
  destruct (decide (action_Type x = Create)) as [Hc|Hc].
  - rewrite Hc, bool_decide_eq_true_2; [done|]. right. split; [done|]. unfold rank.
    rewrite Hx, Hy, decide_True by done. lia.
  - rewrite bool_decide_eq_false_2; [by destruct (action_Type x)|].
    intros [[_ ?]%string_lt_spec|[_ Hr]]; [congruence|]. unfold rank in Hr.
    rewrite Hx, Hy, decide_False in Hr by done. lia.
Qed.

Hypothesis short : length (bs ++ ls) ≤ 20.

(** The sorted backend set and listener actions: deletions first, each part
    ordered by name and rank. *)
Lemma sorted_actions :
  ∃ s, s ≡ₚ bs ++ ls ∧ StronglySorted name_order s ∧
    SliceStable less_delete (SliceStable less_name (bs ++ ls))
    = filter (λ a, action_Type a = Delete) s ++ filter (λ a, ¬ action_Type a = Delete) s.
Proof using bs_backend_sets ls_listeners bs_distinct ls_distinct short.
  exists (insertionSort less_name (bs ++ ls)). split_and!.
  - apply insertionSort_Permutation.
  - rewrite (insertionSort_ext _ _ _ less_name_agrees).
    apply insertionSort_Sorted; [apply _|..]; intros a b E.
    + apply negb_true_iff, bool_decide_eq_false in E. unfold name_order in *.
      destruct (decide (getSanitizedName (action_Name a) = getSanitizedName (action_Name b))) as [En|En].
      * right. split; [done|]. destruct (decide (rank a ≤ rank b)) as [|Hr]; [done|].
        exfalso. apply E. right. split; [done|lia].
      * left. rewrite string_lt_total by done. apply negb_true_iff, not_true_iff_false. tauto.
    + apply negb_false_iff, bool_decide_eq_true in E. done.
  - rewrite (SliceStable_short less_name) by done.
    rewrite SliceStable_short by (by rewrite insertionSort_Permutation).
    apply (insertionSort_flag less_delete (λ a, action_Type a = Delete)). intros x y.
    unfold less_delete. destruct (decide (action_Type x ≠ action_Type y)) as [Hne|He].
    + apply bool_decide_ext. split; [intros E; split; congruence|tauto].
    + symmetry. apply bool_decide_eq_false. intros [E1 E2]. apply E2.
      apply dec_stable in He. congruence.
Qed.

Lemma sorted_before_part (P : Action RS → Prop) `{∀ a, Decision (P a)} s x y :
  StronglySorted name_order s → x ∈ s → y ∈ s → P x → P y → ¬ name_order y x →
  before x y (filter P s).
Proof.
  intros Hs Hx Hy HPx HPy Hn. apply (sorted_before name_order); [|by apply list_elem_of_filter..|done].
  by apply StronglySorted_filter.
Qed.

End order.

Lemma add_rule_sets actions rs :
  foldl add_rule_set actions rs
  = reverse (filter (λ a, ¬ action_Type a = Delete) rs) ++ actions
    ++ filter (λ a, action_Type a = Delete) rs.
Proof.
  revert actions. induction rs as [|a rs IH]; intros actions; simpl; [by rewrite app_nil_r|].
  rewrite IH. unfold add_rule_set. rewrite !filter_cons.
  destruct (decide (action_Type a = Delete)) as [Ha|Ha].
  - rewrite (decide_False (P := ¬ _)) by tauto. by rewrite <-app_assoc.
  - rewrite (decide_True (P := ¬ _)) by done. by rewrite reverse_cons, <-app_assoc.
Qed.

(** No action is lost, duplicated or invented, whatever the actions and however many. *)
Lemma sortAndCombineActions_permutation bs ls rs :
  sortAndCombineActions bs ls rs ≡ₚ bs ++ ls ++ rs.
Proof.
  unfold sortAndCombineActions. rewrite add_rule_sets, !SliceStable_Permutation.
  rewrite reverse_Permutation, (Permutation_app_comm (filter _ _)), <-!app_assoc.
  do 2 apply Permutation_app_head. rewrite Permutation_app_comm.
  induction rs as [|a rs IH]; [done|]. rewrite !filter_cons.
  destruct (decide (action_Type a = Delete)) as [Ha|Ha].
  - rewrite (decide_False (P := ¬ _)) by tauto. rewrite <-Permutation_middle. by rewrite IH.
  - rewrite (decide_True (P := ¬ _)) by done. simpl. by rewrite IH.
Qed.

(** C7: with at most one backend set action and one
    listener action per sanitized name, and up to 20 of them, every resource
    exists while it is referred to: a backend set is created before its listener
    is created and deleted after its listener is deleted; deletions of backend
    sets and listeners come before all their creations and updates; rule sets are
    created and updated before every listener action and deleted after all of
    them. *)
Theorem sortAndCombineActions_order bs ls rs :
  Forall (λ a, is_backend_set a = true) bs → Forall (λ a, is_backend_set a = false) ls →
  names_distinct bs → names_distinct ls → length (bs ++ ls) ≤ 20 →
  let result := sortAndCombineActions bs ls rs in
  (∀ b l, b ∈ bs → l ∈ ls → getSanitizedName (action_Name b) = getSanitizedName (action_Name l) →
     action_Type b = Create → action_Type l = Create → before b l result) ∧
  (∀ b l, b ∈ bs → l ∈ ls → getSanitizedName (action_Name b) = getSanitizedName (action_Name l) →
     action_Type b = Delete → action_Type l = Delete → before l b result) ∧
  (∀ x y, x ∈ bs ++ ls → y ∈ bs ++ ls → action_Type x = Delete → action_Type y ≠ Delete →
     before x y result) ∧
  (∀ r a, r ∈ rs → a ∈ bs ++ ls →
     if decide (action_Type r = Delete) then before a r result else before r a result).
Proof.
  intros Hb Hl Hdb Hdl Hlen result.
  destruct (sorted_actions bs ls Hb Hl Hdb Hdl Hlen) as (s & Hp & Hs & E).
  unfold result, sortAndCombineActions. rewrite add_rule_sets, E. clear result E.
  assert (∀ a, a ∈ bs ++ ls → a ∈ s) as Hin by (intros a Ha; by rewrite Hp).
  assert (∀ b l, b ∈ bs → l ∈ ls → rank b = 1 ∧ is_backend_set l = false ∧ b ∈ s ∧ l ∈ s) as Hbl.
  { rewrite Forall_forall in Hb, Hl. intros b l Hbb Hll. unfold rank. rewrite (Hb b), (Hl l) by done.
    split_and!; [done..| |]; apply Hin, elem_of_app; auto. }
  split_and!.
  - intros b l Hbb Hll En Tb Tl. destruct (Hbl b l Hbb Hll) as (Hrb & Hl' & ? & ?).
    apply before_app_r, before_app_l, before_app_r, sorted_before_part; [done..|congruence|congruence|].
    intros [[_ ?]%string_lt_spec|[_ Hr]]; [congruence|]. unfold rank in Hr at 1.
    rewrite Hl', decide_True in Hr by done. lia.
  - intros b l Hbb Hll En Tb Tl. destruct (Hbl b l Hbb Hll) as (Hrb & Hl' & ? & ?).
    apply before_app_r, before_app_l, before_app_l, sorted_before_part; [done..|].
    intros [[_ ?]%string_lt_spec|[_ Hr]]; [congruence|]. unfold rank in Hr at 2.
    rewrite Hl', decide_False in Hr by congruence. lia.
  - intros x y Hx%Hin Hy%Hin Tx Ty. apply before_app_r, before_app_l, before_app;
      by apply list_elem_of_filter.
  - intros r a Hr Ha%Hin.
    assert (a ∈ filter (λ a, action_Type a = Delete) s ++ filter (λ a, ¬ action_Type a = Delete) s) as Ha'.
    { apply elem_of_app. destruct (decide (action_Type a = Delete)); [left|right];
        by apply list_elem_of_filter. }
    case_decide.
    + apply before_app_r, before_app; [done|]. by apply list_elem_of_filter.
    + apply before_app; [by apply elem_of_reverse, list_elem_of_filter|]. apply elem_of_app. by left.
Qed.

End sort.

(** ** The properties at concrete inputs *)

Definition example_bs_action (ty : ActionType) (name : string) : Action () :=
  ActBackendSet {| bsa_actionType := ty; bsa_name := name;
    bsa_BackendSet := example_backend_set name [] 0; bsa_Ports := portSpec_zero;
    bsa_OldPorts := None |}.
Definition example_listener_action (ty : ActionType) (name : string) : Action () :=
  ActListener (listener_action ty name (example_listener "TCP" 80)).

Lemma sortAndCombineActions_order_witness :
  let bs := [example_bs_action Create "TCP-443"; example_bs_action Delete "TCP-80"] in
  let ls := [example_listener_action Delete "TCP-80"; example_listener_action Create "HTTP-443"] in
  before (example_bs_action Create "TCP-443") (example_listener_action Create "HTTP-443")
    (sortAndCombineActions bs ls []).
Proof.
  intros bs ls.
  refine (proj1 (sortAndCombineActions_order bs ls [] _ _ _ _ _) _ _ _ _ _ _ _); try by vm_compute.
  - by repeat constructor.
  - by repeat constructor.
  - apply (bool_decide_unpack _). by vm_compute.
  - apply (bool_decide_unpack _). by vm_compute.
  - vm_compute. lia.
  - by left.
  - right. by left.
Defined.
