(* ===== verification/Spec.v ===== *)
(** * The specification of a load balancer (load_balancer_spec.go)

    Ports, backends, backend sets and listeners of a service, and [NewLBSpec],
    which assembles the [LBSpec] the controller reconciles against. *)
From stdpp Require Import base tactics list gmap sets strings.
From S2P Require Import Prelude GoStrings Types Annotations Names SecurityListManager.

Definition providerPrefix : string := "oci://".
Definition NodeInternalIPType : string := "InternalIP".
Definition NodeExternalIPType : string := "ExternalIP".
Definition ProtocolGrpc : string := "GRPC".
Definition DefaultCipherSuiteForGRPC : string := "oci-default-http2-ssl-cipher-suite-v1".
Definition DefaultLoadBalancerBEProtocol : string := "TCP".
Definition lbConnectionIdleTimeoutTCP : Z := 300.
Definition lbConnectionIdleTimeoutHTTP : Z := 60.

(** ** util.go *)

Definition MapProviderIDToResourceID (providerID : string) : outcome string :=
  if decide (providerID = "") then Err (Errorf "provider ID is empty" [])
  else if HasPrefix providerID providerPrefix then Ret (TrimPrefix providerID providerPrefix)
  else if negb (HasPrefix providerID "ocid1")
  then Err (Errorf "provider ID '%s' is not valid for oci" [providerID])
  else Ret providerID.

Section spec.
Context {RS : Type} `{!Parsers RS}.

(** The loop over the addresses of one type: the last address of each family wins. *)
Definition node_ips (ty : string) (node : Node) : IpAddresses :=
  foldl (λ ips addr,
    if decide (addr_Type addr = ty) then
      if IsIPv6String (addr_Address addr) then {| V4 := V4 ips; V6 := addr_Address addr |}
      else {| V4 := addr_Address addr; V6 := V6 ips |}
    else ips) {| V4 := ""; V6 := "" |} (node_Addresses node).

Definition NodeInternalIP (node : Node) : IpAddresses := node_ips NodeInternalIPType node.
Definition NodeExternalIp (node : Node) : IpAddresses := node_ips NodeExternalIPType node.

(** ** SSL configuration *)

Record certificateData := {
  cd_Name : string;
  cd_CACert : string;
  cd_PublicCert : string;
  cd_PrivateKey : string;
  cd_Passphrase : string;
}.

(** The method of [sslSecretReader]: the secret may be nil. *)
Definition sslSecretReader : Type := string → string → outcome (option certificateData).
Definition noopSSLSecretReader : sslSecretReader := λ ns name, Ret None.

Record SSLConfig := {
  cfg_Ports : gset Z;
  cfg_ListenerSSLSecretName : string;
  cfg_ListenerSSLSecretNamespace : string;
  cfg_BackendSetSSLSecretName : string;
  cfg_BackendSetSSLSecretNamespace : string;
  cfg_readSSLSecret : sslSecretReader;
}.

Definition NewSSLConfig (secretListenerString secretBackendSetString : string) (service : Service)
    (ports : list Z) (ssr : option sslSecretReader) : outcome SSLConfig :=
  '(listenerName, listenerNamespace) ← getSecretParts secretListenerString service;
  '(backendName, backendNamespace) ← getSecretParts secretBackendSetString service;
  mret {| cfg_Ports := list_to_set ports;
          cfg_ListenerSSLSecretName := listenerName;
          cfg_ListenerSSLSecretNamespace := listenerNamespace;
          cfg_BackendSetSSLSecretName := backendName;
          cfg_BackendSetSSLSecretNamespace := backendNamespace;
          cfg_readSSLSecret := default noopSSLSecretReader ssr |}.

Definition getSSLConfiguration (cfg : option SSLConfig) (name : string) (port : Z)
    (lbSslConfigurationAnnotation : string) : outcome (option GenericSslConfigurationDetails) :=
  match cfg with
  | None => Ret None
  | Some cfg =>
      if decide (port ∉ cfg_Ports cfg ∨ name = "") then Ret None
      else
        extractCipherSuite ←
          (if decide (lbSslConfigurationAnnotation ≠ "")
           then wrap_err (of_sum (Unmarshal_ssl lbSslConfigurationAnnotation))
                  "failed to parse SSL Configuration annotation" []
           else mret None);
        mret (Some {|
          ssl_VerifyDepth := Some 0%Z; ssl_VerifyPeerCertificate := Some false;
          ssl_HasSessionResumption := None; ssl_TrustedCertificateAuthorityIds := None;
          ssl_CertificateIds := None; ssl_CertificateName := Some name;
          ssl_Protocols := extractCipherSuite ≫= ssl_Protocols;
          ssl_CipherSuiteName := extractCipherSuite ≫= ssl_CipherSuiteName;
          ssl_ServerOrderPreference := "" |})
  end.

(** ** Backend sets *)

(** [portsMap[port]]: the protocols of the service ports with that number. *)
Definition portsMap (ports : list ServicePort) (port : Z) : list string :=
  port_Protocol <$> filter (λ sp, port_Port sp = port) ports.

(** One turn of the loop of [getBackendSetNamePortMap]; the state is the map
    built so far and [mixedProtocolsPortSet]. *)
Definition name_port_step (ports : list ServicePort) (requireIPv4 requireIPv6 : bool)
    (st : gmap string ServicePort * gset Z) (servicePort : ServicePort)
    : gmap string ServicePort * gset Z :=
  let '(backendSetPortMap, mixedProtocolsPortSet) := st in
  let port := port_Port servicePort in
  let many := bool_decide (1 < length (portsMap ports port)) in
  let name := if many then getBackendSetName ProtocolTypeMixed port
              else getBackendSetName (port_Protocol servicePort) port in
  let add (suffix : string) (st : gmap string ServicePort * gset Z) :=
    let '(m, mixed) := st in
    if many then
      if decide (port ∈ mixed) then None
      else Some (<[name +:+ suffix := servicePort]> m, {[port]} ∪ mixed)
    else Some (<[name +:+ suffix := servicePort]> m, mixed) in
  match (if requireIPv4 then add "" st else Some st) with
  | None => st
  | Some st1 => if requireIPv6 then default st1 (add ("-" +:+ IPv6) st1) else st1
  end.

Definition getBackendSetNamePortMap (service : Service) : gmap string ServicePort :=
  let '(requireIPv4, requireIPv6) := getRequireIpVersions (getIpFamilies service) in
  (foldl (name_port_step (svc_Ports service) requireIPv4 requireIPv6) (∅, ∅) (svc_Ports service)).1.

(** Whether a backend set is kept for the listener and backend IP versions. *)
Definition backend_set_wanted (listenerBackendIpVersion : list string) (backendSetName : string) : bool :=
  if Contains backendSetName IPv6 then contains listenerBackendIpVersion IPv6
  else contains listenerBackendIpVersion IPv4.

(** A loop over a map that fills another map, with errors. *)
Definition fill_map {A B} (f : string → A → outcome (option B)) (l : list (string * A))
    : outcome (gmap string B) :=
  foldl (λ acc '(k, a),
    m ← acc; ob ← f k a;
    mret (match ob with Some b => <[k := b]> m | None => m end)) (mret ∅) l.

Context `{!MapRange}.

Definition getPorts (site : nat) (svc : Service) (listenerBackendIpVersion : list string)
    : outcome (gmap string portSpec) :=
  fill_map (λ backendSetName servicePort,
    healthChecker ← getHealthChecker svc;
    if backend_set_wanted listenerBackendIpVersion backendSetName then
      healthCheckerPort ← deref (hc_Port healthChecker);
      mret (Some {| ListenerPort := port_Port servicePort;
                    BackendPort := port_NodePort servicePort;
                    HealthCheckerPort := healthCheckerPort |})
    else mret None) (range site (getBackendSetNamePortMap svc)).

(** The backends of one node: at most one per IP family. *)
Definition node_backends (nodePort : Z) (node : Node) : list GenericBackend * list GenericBackend :=
  let addressV4 := V4 (NodeInternalIP node) in
  let addressV6 := if decide (V6 (NodeInternalIP node) = "") then V6 (NodeExternalIp node)
                   else V6 (NodeInternalIP node) in
  if decide (addressV4 = "" ∧ addressV6 = "") then ([], [])
  else match MapProviderIDToResourceID (node_ProviderID node) with
  | Ret instanceID =>
      let genericBackend ip target := {|
        be_Port := Some nodePort; be_Name := None; be_IpAddress := Some ip;
        be_TargetId := target; be_Weight := Some 1%Z; be_Backup := None; be_Drain := None;
        be_Offline := None; be_MaxConnections := None |} in
      (if IsIPv4String addressV4 then [genericBackend addressV4 (Some instanceID)] else [],
       if IsIPv6String addressV6 then [genericBackend addressV6 None] else [])
  | _ => ([], [])
  end.

(** [(IPv4Backends, IPv6Backends)]. *)
Definition getBackends (provisionedNodes : list Node) (nodePort : Z)
    : list GenericBackend * list GenericBackend :=
  (provisionedNodes ≫= λ node, (node_backends nodePort node).1,
   provisionedNodes ≫= λ node, (node_backends nodePort node).2).

Definition getBackendSets (site : nat) (svc : Service) (provisionedNodes : list Node)
    (sslCfg : option SSLConfig) (isPreserveSource : bool) (listenerBackendIpVersion : list string)
    : outcome (gmap string GenericBackendSetDetails) :=
  loadbalancerPolicy ← getLoadBalancerPolicy svc;
  fill_map (λ backendSetName servicePort,
    sslConfiguration ←
      match sslCfg with
      | Some cfg =>
          if decide (cfg_BackendSetSSLSecretName cfg ≠ "" ∧ getLoadBalancerType svc = LB)
          then getSSLConfiguration sslCfg (cfg_BackendSetSSLSecretName cfg) (port_Port servicePort)
                 (annotation_value svc ServiceAnnotationLoadbalancerBackendSetSSLConfig)
          else mret None
      | None => mret None
      end;
    healthChecker ← getHealthChecker svc;
    let '(backendsIPv4, backendsIPv6) := getBackends provisionedNodes (port_NodePort servicePort) in
    let backendSet backends ipVersion := {|
      bs_Name := Some backendSetName; bs_HealthChecker := Some healthChecker;
      bs_Policy := Some loadbalancerPolicy; bs_Backends := backends;
      bs_SessionPersistenceConfiguration := None; bs_SslConfiguration := sslConfiguration;
      bs_IsPreserveSource := Some isPreserveSource; bs_IpVersion := Some ipVersion |} in
    if backend_set_wanted listenerBackendIpVersion backendSetName then
      mret (Some (if Contains backendSetName IPv6 then backendSet backendsIPv6 GenericIPv6
                  else backendSet backendsIPv4 GenericIPv4))
    else mret None) (range site (getBackendSetNamePortMap svc)).

(** ** Listeners of a load balancer *)

Definition error_parsing (key value : string) : error :=
  Errorf "error parsing service annotation: %s=%s" [key; value].

(** An optional integer annotation; empty means absent. *)
Definition optional_int (svc : Service) (key : string) : outcome (option Z) :=
  let value := annotation_value svc key in
  if decide (value = "") then Ret None
  else match Atoi value with
       | Some i => Ret (Some i)
       | None => Err (error_parsing key value)
       end.

(** The protocol of the listener of a service port. *)
Definition listener_protocol (svc : Service) (servicePort : ServicePort) : outcome string :=
  match annotation svc ServiceAnnotationLoadBalancerBEProtocol with
  | None => Ret (port_Protocol servicePort)
  | Some p =>
      let p := if decide (p = "") then DefaultLoadBalancerBEProtocol else p in
      if EqualFold p "HTTP" || EqualFold p "TCP" || EqualFold p "GRPC" then Ret p
      else Err (Errorf "invalid backend protocol %q requested for load balancer listener. Only 'HTTP', 'TCP' and 'GRPC' protocols supported" [p])
  end.

(** [defaultIdleTimeoutPerProtocol[strings.ToUpper(protocol)]]. *)
Definition defaultIdleTimeoutPerProtocol (protocol : string) : Z :=
  if decide (ToUpper protocol = "HTTP") then lbConnectionIdleTimeoutHTTP
  else if decide (ToUpper protocol = "TCP") then lbConnectionIdleTimeoutTCP
  else 0%Z.

(** GRPC needs SSL, with a default cipher suite. *)
Definition grpc_settings (protocol : string) (ssl : option GenericSslConfigurationDetails)
    : outcome (string * option GenericSslConfigurationDetails) :=
  if EqualFold protocol "GRPC" then
    match ssl with
    | None => Err (Errorf "SSL configuration cannot be empty for GRPC protocol" [])
    | Some c =>
        Ret (ProtocolGrpc, Some {|
          ssl_VerifyDepth := ssl_VerifyDepth c;
          ssl_VerifyPeerCertificate := ssl_VerifyPeerCertificate c;
          ssl_HasSessionResumption := ssl_HasSessionResumption c;
          ssl_TrustedCertificateAuthorityIds := ssl_TrustedCertificateAuthorityIds c;
          ssl_CertificateIds := ssl_CertificateIds c;
          ssl_CertificateName := ssl_CertificateName c;
          ssl_Protocols := ssl_Protocols c;
          ssl_CipherSuiteName := match ssl_CipherSuiteName c with
                                 | None => Some DefaultCipherSuiteForGRPC
                                 | name => name
                                 end;
          ssl_ServerOrderPreference := ssl_ServerOrderPreference c |})
    end
  else Ret (protocol, ssl).

(** The listener of one service port. *)
Definition lb_listener (svc : Service) (sslCfg : option SSLConfig) (connectionIdleTimeout : option Z)
    (proxyProtocolVersion : option Z) (rs : list string) (servicePort : ServicePort)
    : outcome (string * GenericListener) :=
  protocol ← listener_protocol svc servicePort;
  let port := port_Port servicePort in
  sslConfiguration ←
    match sslCfg with
    | Some cfg =>
        if decide (cfg_ListenerSSLSecretName cfg ≠ "")
        then getSSLConfiguration sslCfg (cfg_ListenerSSLSecretName cfg) port
               (annotation_value svc ServiceAnnotationLoadbalancerListenerSSLConfig)
        else mret None
    | None => mret None
    end;
  '(protocol, sslConfiguration) ← grpc_settings protocol sslConfiguration;
  let name := getListenerName protocol port in
  let actualConnectionIdleTimeout :=
    match connectionIdleTimeout, proxyProtocolVersion with
    | None, Some _ => Some (defaultIdleTimeoutPerProtocol protocol)
    | _, _ => connectionIdleTimeout
    end in
  mret (name, {|
    ln_Name := Some name;
    ln_DefaultBackendSetName := Some (getBackendSetName (port_Protocol servicePort) port);
    ln_Port := Some port; ln_Protocol := Some protocol; ln_HostnameNames := [];
    ln_PathRouteSetName := None; ln_SslConfiguration := sslConfiguration;
    ln_ConnectionConfiguration :=
      (λ timeout, {| cc_IdleTimeout := Some timeout;
                     cc_BackendTcpProxyProtocolVersion := proxyProtocolVersion;
                     cc_BackendTcpProxyProtocolOptions := [] |}) <$> actualConnectionIdleTimeout;
    ln_RoutingPolicyName := None; ln_RuleSetNames := rs; ln_IpVersion := None;
    ln_IsPpv2Enabled := None |}).

(** [listeners[name] = listener] over the service ports. *)
Definition fill_list {A B} (f : A → outcome (list (string * B))) (l : list A) : outcome (gmap string B) :=
  foldl (λ acc a,
    m ← acc; kvs ← f a;
    mret (foldl (λ m '(k, b), <[k := b]> m) m kvs)) (mret ∅) l.

(** [NewLBSpec] has refused the service before if its rule sets do not decode. *)
Definition getListenersOciLoadBalancer (svc : Service) (sslCfg : option SSLConfig)
    : outcome (gmap string GenericListener) :=
  connectionIdleTimeout ← optional_int svc ServiceAnnotationLoadBalancerConnectionIdleTimeout;
  proxyProtocolVersion ← optional_int svc ServiceAnnotationLoadBalancerConnectionProxyProtocolVersion;
  let rs := match getRuleSets svc with
            | Ret (Some ruleSets) => sets_List (dom ruleSets)
            | _ => []
            end in
  fill_list (λ servicePort,
    kv ← lb_listener svc sslCfg connectionIdleTimeout proxyProtocolVersion rs servicePort;
    mret [kv]) (svc_Ports svc).

(** ** Listeners of a network load balancer *)

Definition nlb_listener (name backendSet protocol : string) (port : Z) (ppv2 : option bool)
    (ipVersion : string) : GenericListener := {|
  ln_Name := Some name; ln_DefaultBackendSetName := Some backendSet; ln_Port := Some port;
  ln_Protocol := Some protocol; ln_HostnameNames := []; ln_PathRouteSetName := None;
  ln_SslConfiguration := None; ln_ConnectionConfiguration := None; ln_RoutingPolicyName := None;
  ln_RuleSetNames := []; ln_IpVersion := Some ipVersion; ln_IsPpv2Enabled := ppv2 |}.

Definition enable_ppv2 (svc : Service) : option bool :=
  match annotation svc ServiceAnnotationNetworkLoadBalancerIsPpv2Enabled with
  | None => None
  | Some v => if decide (ToLower v = "true") then Some true
              else if decide (ToLower v = "false") then Some false else None
  end.

(** One turn of the loop; the state is the listeners and [mixedProtocolsPortSet]. *)
Definition nlb_listener_step (ports : list ServicePort) (ppv2 : option bool)
    (requireIPv4 requireIPv6 : bool) (st : gmap string GenericListener * gset Z)
    (servicePort : ServicePort) : outcome (gmap string GenericListener * gset Z) :=
  let '(listeners, mixedProtocolsPortSet) := st in
  let protocol := port_Protocol servicePort in
  if decide (protocol ∉ ["TCP"; "UDP"])
  then Err (Errorf "invalid backend protocol %q requested for network load balancer listener" [protocol])
  else
    let port := port_Port servicePort in
    let many := bool_decide (1 < length (portsMap ports port)) in
    if many && bool_decide (port ∈ mixedProtocolsPortSet) then Ret st
    else
      let protocol := if many then ProtocolTypeMixed else protocol in
      let listenerName := getListenerName protocol port in
      let backendSetName := getBackendSetName protocol port in
      let mixed := if many then {[port]} ∪ mixedProtocolsPortSet else mixedProtocolsPortSet in
      let listeners := if requireIPv4 then
        <[listenerName := nlb_listener listenerName backendSetName protocol port ppv2 GenericIPv4]> listeners
        else listeners in
      let listeners := if requireIPv6 then
        <[listenerName +:+ "-" +:+ IPv6 :=
            nlb_listener (listenerName +:+ "-" +:+ IPv6) (backendSetName +:+ "-" +:+ IPv6)
              protocol port ppv2 GenericIPv6]> listeners
        else listeners in
      Ret (listeners, mixed).

Definition getListenersNetworkLoadBalancer (svc : Service) (listenerBackendIpVersion : list string)
    : outcome (gmap string GenericListener) :=
  let '(requireIPv4, requireIPv6) := getRequireIpVersions listenerBackendIpVersion in
  st ← foldl (λ acc servicePort,
         st ← acc; nlb_listener_step (svc_Ports svc) (enable_ppv2 svc) requireIPv4 requireIPv6 st servicePort)
         (mret (∅, ∅)) (svc_Ports svc);
  mret st.1.

Definition getListeners (svc : Service) (sslCfg : option SSLConfig)
    (listenerBackendIpVersion : list string) : outcome (gmap string GenericListener) :=
  if decide (getLoadBalancerType svc = NLB)
  then getListenersNetworkLoadBalancer svc listenerBackendIpVersion
  else getListenersOciLoadBalancer svc sslCfg.

(** ** The specification *)

(** load_balancer.go, [IpVersions]. *)
Record IpVersions := {
  iv_IpFamilyPolicy : string;
  iv_IpFamilies : list string;
  iv_LbEndpointIpVersion : option string;
  iv_ListenerBackendIpVersion : list string;
}.

Record LBSpec := {
  spec_Type : string;
  spec_Name : string;
  spec_Shape : string;
  spec_FlexMin : option Z;
  spec_FlexMax : option Z;
  spec_Subnets : list string;
  spec_Internal : bool;
  spec_Listeners : gmap string GenericListener;
  spec_BackendSets : gmap string GenericBackendSetDetails;
  spec_LoadBalancerIP : string;
  spec_IsPreserveSource : option bool;
  spec_Ports : gmap string portSpec;
  spec_SourceCIDRs : list string;
  spec_SSLConfig : option SSLConfig;
  spec_securityListManager : securityListManager;
  spec_ManagedNetworkSecurityGroup : option ManagedNetworkSecurityGroup;
  spec_NetworkSecurityGroupIds : list string;
  spec_IpVersions : IpVersions;
  spec_FreeformTags : gmap string string;
  spec_DefinedTags : gmap string (gmap string string);
  spec_SystemTags : option (gmap string (gmap string string));
  spec_ingressIpMode : option string;
  spec_Compartment : string;
  spec_RuleSets : option (gmap string RS);
  spec_AssignedPrivateIpv4 : option string;
  spec_AssignedIpv6 : option string;
  spec_service : Service;
  spec_nodes : list Node;
}.

(** [prefixEnv] and [enableOkeSystemTags] are process-wide settings; [site]
    labels the [range] statements. *)
Definition NewLBSpec (prefixEnv : string) (enableOkeSystemTags : bool) (site : nat)
    (svc : Service) (provisionedNodes : list Node) (subnets : list string)
    (sslConfig : option SSLConfig) (secListFactory : string → securityListManager)
    (versions : IpVersions) (initialLBTags : option InitialTags)
    (existingLB : option (GenericLoadBalancer RS)) (clusterCompartment : string) : outcome LBSpec :=
  _ ← wrap_err (validateService svc) "invalid service" [];
  let lbType := getLoadBalancerType svc in
  let backendVersions := convertOciIpVersionsToOciIpFamilies (iv_ListenerBackendIpVersion versions) in
  internal ← isInternalLB svc;
  '(shape, flexShapeMinMbps, flexShapeMaxMbps) ← getLBShape svc existingLB;
  sourceCIDRs ← getLoadBalancerSourceRanges svc;
  ruleSets ← getRuleSets svc;
  listeners ← getListeners svc sslConfig backendVersions;
  isPreserveSource ← getPreserveSource svc;
  backendSets ← getBackendSets site svc provisionedNodes sslConfig isPreserveSource backendVersions;
  ports ← getPorts (S site) svc backendVersions;
  networkSecurityGroupIds ← getNetworkSecurityGroupIds svc;
  loadbalancerIP ← getLoadBalancerIP svc;
  lbTags ← getLoadBalancerTags svc initialLBTags;
  let lbTags := match initialLBTags ≫= it_Common with
                | Some common => if enableOkeSystemTags then MergeTagConfig lbTags common else lbTags
                | None => lbTags
                end in
  '(ruleManagementMode, managedNsg) ← getRuleManagementMode svc;
  backendNsgOcids ← getManagedBackendNSG svc;
  let managedNsg := if decide (ruleManagementMode = RuleManagementModeNsg ∧ backendNsgOcids ≠ [])
                    then {| mn_nsgRuleManagementMode := mn_nsgRuleManagementMode managedNsg;
                            mn_frontendNsgId := mn_frontendNsgId managedNsg;
                            mn_backendNsgId := backendNsgOcids |}
                    else managedNsg in
  ingressIpMode ← getIngressIpMode svc;
  let compartment := getLoadBalancerCompartment svc clusterCompartment in
  '(assignedPrivateIpv4, assignedIpv6) ← getAssignedPrivateIP svc;
  mret {|
    spec_Type := lbType; spec_Name := GetLoadBalancerName prefixEnv svc; spec_Shape := shape;
    spec_FlexMin := flexShapeMinMbps; spec_FlexMax := flexShapeMaxMbps; spec_Subnets := subnets;
    spec_Internal := internal; spec_Listeners := listeners; spec_BackendSets := backendSets;
    spec_LoadBalancerIP := loadbalancerIP; spec_IsPreserveSource := Some isPreserveSource;
    spec_Ports := ports; spec_SourceCIDRs := sourceCIDRs; spec_SSLConfig := sslConfig;
    spec_securityListManager := secListFactory ruleManagementMode;
    spec_ManagedNetworkSecurityGroup := Some managedNsg;
    spec_NetworkSecurityGroupIds := networkSecurityGroupIds; spec_IpVersions := versions;
    spec_FreeformTags := tag_FreeformTags lbTags; spec_DefinedTags := tag_DefinedTags lbTags;
    spec_SystemTags := getResourceTrackingSystemTagsFromConfig initialLBTags;
    spec_ingressIpMode := ingressIpMode; spec_Compartment := compartment;
    spec_RuleSets := ruleSets; spec_AssignedPrivateIpv4 := assignedPrivateIpv4;
    spec_AssignedIpv6 := assignedIpv6; spec_service := svc; spec_nodes := provisionedNodes |}.

(** The certificate of one secret; a reader that answers nil panics. *)
Definition certificate (cfg : SSLConfig) (name ns msg : string) : outcome (string * GenericCertificate) :=
  cert ← wrap_err (cfg_readSSLSecret cfg ns name) msg [];
  cert ← deref cert;
  mret (name, {| cert_CertificateName := Some name; cert_Passphrase := Some (cd_Passphrase cert);
                 cert_PrivateKey := Some (cd_PrivateKey cert);
                 cert_PublicCertificate := Some (cd_PublicCert cert);
                 cert_CaCertificate := Some (cd_CACert cert) |}).

Definition Certificates (s : LBSpec) : outcome (gmap string GenericCertificate) :=
  match spec_SSLConfig s with
  | None => Ret ∅
  | Some cfg =>
      certs ←
        (if decide (cfg_ListenerSSLSecretName cfg ≠ "") then
           '(k, c) ← certificate cfg (cfg_ListenerSSLSecretName cfg)
                       (cfg_ListenerSSLSecretNamespace cfg) "reading SSL Listener Secret";
           mret {[k := c]}
         else mret ∅);
      if decide (cfg_BackendSetSSLSecretName cfg ≠ "") then
        '(k, c) ← certificate cfg (cfg_BackendSetSSLSecretName cfg)
                    (cfg_BackendSetSSLSecretNamespace cfg) "reading SSL Backend Secret";
        mret (<[k := c]> certs)
      else mret certs
  end.

(** The spec with these subnets and network security groups. *)
Definition spec_with (s : LBSpec) (subnets nsgs : list string) : LBSpec := {|
    spec_Type := spec_Type s; spec_Name := spec_Name s; spec_Shape := spec_Shape s; spec_FlexMin
    := spec_FlexMin s; spec_FlexMax := spec_FlexMax s; spec_Subnets := subnets; spec_Internal :=
    spec_Internal s; spec_Listeners := spec_Listeners s; spec_BackendSets := spec_BackendSets s;
    spec_LoadBalancerIP := spec_LoadBalancerIP s; spec_IsPreserveSource := spec_IsPreserveSource
    s; spec_Ports := spec_Ports s; spec_SourceCIDRs := spec_SourceCIDRs s; spec_SSLConfig :=
    spec_SSLConfig s; spec_securityListManager := spec_securityListManager s;
    spec_ManagedNetworkSecurityGroup := spec_ManagedNetworkSecurityGroup s;
    spec_NetworkSecurityGroupIds := nsgs; spec_IpVersions := spec_IpVersions s;
    spec_FreeformTags := spec_FreeformTags s; spec_DefinedTags := spec_DefinedTags s;
    spec_SystemTags := spec_SystemTags s; spec_ingressIpMode := spec_ingressIpMode s;
    spec_Compartment := spec_Compartment s; spec_RuleSets := spec_RuleSets s;
    spec_AssignedPrivateIpv4 := spec_AssignedPrivateIpv4 s; spec_AssignedIpv6 :=
    spec_AssignedIpv6 s; spec_service := spec_service s; spec_nodes := spec_nodes s |}.

Definition addFrontendNsgToSpec (spec : option LBSpec) (frontendNsgId : string) : outcome LBSpec :=
  match spec with
  | None => Err (Errorf "service spec is empty" [])
  | Some s =>
      if contains (spec_NetworkSecurityGroupIds s) frontendNsgId then Ret s
      else Ret (spec_with s (spec_Subnets s) (spec_NetworkSecurityGroupIds s ++ [frontendNsgId]))
  end.

Definition updateSpecWithLbSubnets (spec : option LBSpec) (lbSubnetId : list string) : outcome LBSpec :=
  match spec with
  | None => Err (Errorf "service spec is empty" [])
  | Some s => Ret (spec_with s lbSubnetId (spec_NetworkSecurityGroupIds s))
  end.

End spec.
