(* ===== verification/IpVersions.v ===== *)
(** * IP versions of a load balancer (load_balancer.go)

    The IP version of the endpoint and of the listeners and backend sets, from
    the IP families of the service and the subnets of load balancer and nodes. *)
From stdpp Require Import base tactics list gmap sets strings.
From S2P Require Import Prelude GoStrings Types Annotations Names Spec.

(** ** Subnets *)

(** Whether an IPv6 (or IPv4) CIDR block is found in one subnet; the reference
    [*subnet.Ipv6CidrBlock] panics when the field is nil and the list of blocks
    is empty but not nil. *)
Definition subnet_supports (subnet : Subnet) (ipVersion : string) : outcome bool :=
  if decide (ipVersion = IPv6) then
    if decide (subnet_Ipv6CidrBlock subnet = None ∧ subnet_Ipv6CidrBlocks subnet = None) then Ret false
    else if decide (0 < length (default [] (subnet_Ipv6CidrBlocks subnet))) then Ret true
    else block ← deref (subnet_Ipv6CidrBlock subnet); mret (bool_decide (block ≠ ""))
  else match subnet_CidrBlock subnet with
       | Some block => Ret (negb (Contains block "null"))
       | None => Ret false
       end.

Definition no_cidr_error (subnet : Subnet) (ipVersion : string) : error :=
  if decide (ipVersion = IPv6)
  then Errorf "subnet with id %s does not have an ipv6 cidr block" [subnet_Id subnet]
  else Errorf "subnet with id %s does not have an ipv4 cidr block" [subnet_Id subnet].

(** The loop over the subnets; [err] is the error of the last subnet seen. *)
Fixpoint check_subnets (subnets : list (option Subnet)) (ipVersion : string) (err : option error)
    : outcome (option error) :=
  match subnets with
  | [] => Ret err
  | None :: rest => check_subnets rest ipVersion err
  | Some subnet :: rest =>
      ok ← subnet_supports subnet ipVersion;
      if (ok : bool) then mret None
      else check_subnets rest ipVersion (Some (no_cidr_error subnet ipVersion))
  end.

(** The result is the returned [error], nil when some subnet has the family. *)
Definition checkSubnetIpFamilyCompatibility (subnets : list (option Subnet)) (ipVersion : string)
    : outcome (option error) := check_subnets subnets ipVersion None.

(** ** Versions *)

(** Return the error [err], wrapped, if there is one. *)
Definition require {A} (err : option error) (ipVersion : string) (k : outcome A) : outcome A :=
  match err with
  | Some e => Err (Wrap e "subnet does not have %s CIDR blocks" [ipVersion])
  | None => k
  end.

Definition noCidrForLb : error :=
  Errorf "subnet does not have IPv4 or IPv6 cidr, can't create loadbalancer" [].

(** The source names the versions by local strings first and translates them at
    the end; a single-stack service of an unknown family has the version "". *)
Definition getLbEndpointIpVersion (ipFamilies : list string) (ipFamilyPolicy : string)
    (lbSubnets : list (option Subnet)) : outcome string :=
  errIPv6Subnet ← checkSubnetIpFamilyCompatibility lbSubnets IPv6;
  errIPv4Subnet ← checkSubnetIpFamilyCompatibility lbSubnets IPv4;
  if decide (ipFamilyPolicy = IPFamilyPolicySingleStack) then
    family ← index ipFamilies 0;
    if decide (family = IPv6) then require errIPv6Subnet IPv6 (mret IPv6)
    else if decide (family = IPv4) then require errIPv4Subnet IPv4 (mret IPv4)
    else mret ""
  else if decide (ipFamilyPolicy = IPFamilyPolicyRequireDualStack) then
    require errIPv6Subnet IPv6 (require errIPv4Subnet IPv4 (mret IPv4AndIPv6))
  else if decide (ipFamilyPolicy = IPFamilyPolicyPreferDualStack) then
    match errIPv4Subnet, errIPv6Subnet with
    | Some _, Some _ => Err noCidrForLb
    | None, Some _ => mret IPv4
    | Some _, None => mret IPv6
    | None, None => mret IPv4AndIPv6
    end
  else mret IPv4.

Definition getLbListenerBackendSetIpVersion (ipFamilies : list string) (ipFamilyPolicy : string)
    (nodeSubnets : list (option Subnet)) : outcome (list string) :=
  errIPv6Subnet ← checkSubnetIpFamilyCompatibility nodeSubnets IPv6;
  errIPv4Subnet ← checkSubnetIpFamilyCompatibility nodeSubnets IPv4;
  if decide (ipFamilyPolicy = IPFamilyPolicySingleStack) then
    family ← index ipFamilies 0;
    if decide (family = IPv6) then require errIPv6Subnet IPv6 (mret [IPv6])
    else if decide (family = IPv4) then require errIPv4Subnet IPv4 (mret [IPv4])
    else mret [IPv4]
  else if decide (ipFamilyPolicy = IPFamilyPolicyRequireDualStack) then
    require errIPv6Subnet IPv6 (require errIPv4Subnet IPv4 (mret [IPv4; IPv6]))
  else if decide (ipFamilyPolicy = IPFamilyPolicyPreferDualStack) then
    match errIPv6Subnet, errIPv4Subnet with
    | Some _, Some _ => Err noCidrForLb
    | Some _, None => mret [IPv4]
    | None, Some _ => mret [IPv6]
    | None, None => mret [IPv4; IPv6]
    end
  else mret [IPv4].

Definition getOciIpVersions (lbSubnets nodeSubnets : list (option Subnet)) (service : Service)
    : outcome IpVersions :=
  let ipFamilies := getIpFamilies service in
  let ipFamilyPolicy := getIpFamilyPolicy service in
  lbEndpointVersion ← getLbEndpointIpVersion ipFamilies ipFamilyPolicy lbSubnets;
  listenerBackendIpVersion ← getLbListenerBackendSetIpVersion ipFamilies ipFamilyPolicy nodeSubnets;
  listenerBackendIpVersion ←
    (if decide (getLoadBalancerType service = LB) then
       if decide (lbEndpointVersion = IPv6)
       then Err (Errorf "SingleStack IPv6 is not supported for OCI LBaaS" [])
       else mret [IPv4]
     else mret listenerBackendIpVersion);
  mret {| iv_IpFamilyPolicy := ipFamilyPolicy; iv_IpFamilies := ipFamilies;
          iv_LbEndpointIpVersion := Some (convertK8sIpFamiliesToOciIpVersion lbEndpointVersion);
          iv_ListenerBackendIpVersion :=
            convertK8sIpFamiliesToOciIpVersion <$> listenerBackendIpVersion |}.

(** ** What the versions mean *)

(** Some subnet of the list has a block of the family. *)
Definition some_subnet_supports (subnets : list (option Subnet)) (ipVersion : string) : Prop :=
  ∃ subnet, Some subnet ∈ subnets ∧ subnet_supports subnet ipVersion = Ret true.

Lemma check_subnets_spec subnets ipVersion err r :
  check_subnets subnets ipVersion err = Ret r →
  (r = None ↔ some_subnet_supports subnets ipVersion ∨
              (err = None ∧ ∀ s, Some s ∉ subnets)).
Proof.
  revert err. induction subnets as [|[s|] rest IH]; intros err Hr; cbn [check_subnets] in Hr.
  - injection Hr as <-. split; [intros ->; right; set_solver|intros [(? & ? & _)|[-> _]]; set_solver].
  - destruct (subnet_supports s ipVersion) as [ok| |] eqn:E; [|done..]. cbn in Hr.
    destruct ok.
    + injection Hr as <-. split; [|done]. left. exists s. set_solver.
    + rewrite (IH _ Hr). split.
      * intros [(s' & Hs' & Hok)|[? _]]; [|done]. left. exists s'. set_solver.
      * intros [(s' & [[= ->]|Hs']%elem_of_cons & Hok)|[_ Hno]]; [congruence| |].
        { left. by exists s'. }
        { destruct (Hno s). by left. }
  - rewrite (IH _ Hr). split; intros [(s' & Hs' & Hok)|[? Hno]].
    + left. exists s'. set_solver.
    + right. set_solver.
    + left. exists s'. set_solver.
    + right. set_solver.
Qed.

(** The IP families of a service as the Kubernetes API server leaves them: a
    single-stack service has one family, a service that requires dual stack both. *)
Definition well_formed_families (svc : Service) : Prop :=
  (getIpFamilyPolicy svc = IPFamilyPolicySingleStack ∧
     (getIpFamilies svc = [IPv4] ∨ getIpFamilies svc = [IPv6])) ∨
  (isServiceDualStack svc = true ∧ IPv4 ∈ getIpFamilies svc ∧ IPv6 ∈ getIpFamilies svc).

Lemma well_formed_dual svc :
  isServiceDualStack svc = true →
  getIpFamilyPolicy svc = IPFamilyPolicyRequireDualStack ∨ getIpFamilyPolicy svc = IPFamilyPolicyPreferDualStack.
Proof.
  unfold isServiceDualStack, getIpFamilyPolicy. destruct (svc_IPFamilyPolicy svc); [|done].
  by intros ?%bool_decide_eq_true.
Qed.

Lemma require_Ret {A} err v (k : outcome A) r : require err v k = Ret r ↔ err = None ∧ k = Ret r.
Proof. by destruct err; simpl; split; intros; destruct_and?. Qed.

Lemma checkSubnet_spec subnets v r :
  (∃ s, Some s ∈ subnets) → checkSubnetIpFamilyCompatibility subnets v = Ret r →
  r = None ↔ some_subnet_supports subnets v.
Proof.
  intros [s Hs] Hr. rewrite (check_subnets_spec _ _ _ _ Hr).
  split; [intros [?|[_ Hno]]; [done|by destruct (Hno s)]|by left].
Qed.

(** The families an endpoint version stands for. *)
Definition endpoint_families (v : string) : list string :=
  if decide (v = IPv4AndIPv6) then [IPv4; IPv6] else [v].

Lemma getLbEndpointIpVersion_spec svc subnets v :
  well_formed_families svc → (∃ s, Some s ∈ subnets) →
  getLbEndpointIpVersion (getIpFamilies svc) (getIpFamilyPolicy svc) subnets = Ret v →
  (v = IPv4 ∨ v = IPv6 ∨ v = IPv4AndIPv6) ∧
  (∀ f, f ∈ endpoint_families v → f ∈ getIpFamilies svc ∧ some_subnet_supports subnets f) ∧
  (getIpFamilyPolicy svc ≠ IPFamilyPolicyPreferDualStack →
    ∀ f, f ∈ getIpFamilies svc → f ∈ [IPv4; IPv6] → f ∈ endpoint_families v).
Proof.
  intros Hwf Hne Hr. apply bind_Ret_inv in Hr as (e6 & H6 & Hr). apply bind_Ret_inv in Hr as (e4 & H4 & Hr).
  apply (checkSubnet_spec _ _ _ Hne) in H6, H4.
  destruct Hwf as [[Hp Hf]|(Hd & Hf4 & Hf6)].
  - rewrite Hp in *. destruct Hf as [Hf|Hf]; rewrite Hf in *; simpl in Hr;
      apply require_Ret in Hr as [-> [= <-]]; unfold endpoint_families; simpl;
      (split_and!; [auto|intros f ->%list_elem_of_singleton; split; [by left|tauto]|set_solver]).
  - apply well_formed_dual in Hd as [Hp|Hp]; rewrite Hp in *; simpl in Hr.
    + apply require_Ret in Hr as [-> Hr]. apply require_Ret in Hr as [-> [= <-]].
      unfold endpoint_families; simpl. split_and!; [auto| |set_solver].
      intros f [->| ->%list_elem_of_singleton]%elem_of_cons; tauto.
    + destruct e4, e6; cbn in Hr; try done; injection Hr as <-; unfold endpoint_families; simpl; (split_and!; [auto| |done]).
      * intros f ->%list_elem_of_singleton; tauto.
      * intros f ->%list_elem_of_singleton; tauto.
      * intros f [->| ->%list_elem_of_singleton]%elem_of_cons; tauto.
Qed.

Lemma getLbListenerBackendSetIpVersion_spec svc subnets vers :
  well_formed_families svc → (∃ s, Some s ∈ subnets) →
  getLbListenerBackendSetIpVersion (getIpFamilies svc) (getIpFamilyPolicy svc) subnets = Ret vers →
  vers ≠ [] ∧
  (∀ f, f ∈ vers → f ∈ [IPv4; IPv6] ∧ f ∈ getIpFamilies svc ∧ some_subnet_supports subnets f).
Proof.
  intros Hwf Hne Hr. apply bind_Ret_inv in Hr as (e6 & H6 & Hr). apply bind_Ret_inv in Hr as (e4 & H4 & Hr).
  apply (checkSubnet_spec _ _ _ Hne) in H6, H4.
  assert (IPv4 ∈ [IPv4; IPv6] ∧ IPv6 ∈ [IPv4; IPv6]) as [Hin4 Hin6] by set_solver.
  destruct Hwf as [[Hp Hf]|(Hd & Hf4 & Hf6)].
  - rewrite Hp in *. destruct Hf as [Hf|Hf]; rewrite Hf in *; simpl in Hr;
      apply require_Ret in Hr as [-> [= <-]];
      (split; [done|intros f ->%list_elem_of_singleton; split_and!; [done|by left|tauto]]).
  - apply well_formed_dual in Hd as [Hp|Hp]; rewrite Hp in *; simpl in Hr.
    + apply require_Ret in Hr as [-> Hr]. apply require_Ret in Hr as [-> [= <-]]. split; [done|].
      intros f [->| ->%list_elem_of_singleton]%elem_of_cons; tauto.
    + destruct e4, e6; cbn in Hr; try done; injection Hr as <-; (split; [done|]).
      * intros f ->%list_elem_of_singleton; tauto.
      * intros f ->%list_elem_of_singleton; tauto.
      * intros f [->| ->%list_elem_of_singleton]%elem_of_cons; tauto.
Qed.

(** Translating the versions back and forth changes nothing. *)
Lemma convert_versions vers :
  vers ≠ [] → (∀ f, f ∈ vers → f ∈ [IPv4; IPv6]) →
  convertOciIpVersionsToOciIpFamilies (convertK8sIpFamiliesToOciIpVersion <$> vers) = vers.
Proof.
  intros Hne Hin. unfold convertOciIpVersionsToOciIpFamilies.
  rewrite decide_False by (destruct vers; [done|simpl; lia]). rewrite <-list_fmap_compose.
  rewrite <-(list_fmap_id vers) at 2. apply list_fmap_ext. intros i f Hf.
  apply list_elem_of_lookup_2, Hin in Hf. rewrite !elem_of_cons in Hf.
  destruct Hf as [->|[->|Hf]]; [done..|set_solver].
Qed.

Lemma getOciIpVersions_inv lbSubnets nodeSubnets svc iv :
  getOciIpVersions lbSubnets nodeSubnets svc = Ret iv →
  ∃ v vers,
    getLbEndpointIpVersion (getIpFamilies svc) (getIpFamilyPolicy svc) lbSubnets = Ret v ∧
    getLbListenerBackendSetIpVersion (getIpFamilies svc) (getIpFamilyPolicy svc) nodeSubnets = Ret vers ∧
    (getLoadBalancerType svc = LB → v ≠ IPv6) ∧
    iv_LbEndpointIpVersion iv = Some (convertK8sIpFamiliesToOciIpVersion v) ∧
    iv_ListenerBackendIpVersion iv = convertK8sIpFamiliesToOciIpVersion <$>
      (if decide (getLoadBalancerType svc = LB) then [IPv4] else vers).
Proof.
  intros Hr. apply bind_Ret_inv in Hr as (v & Hv & Hr). apply bind_Ret_inv in Hr as (vers & Hvers & Hr).
  exists v, vers. split_and!; [done..| | |]; (destruct (decide (getLoadBalancerType svc = LB)); [|by injection Hr as <-]);
    (destruct (decide (v = IPv6)); [done|by injection Hr as <-]).
Qed.

(** The backend versions of a service, as [NewLBSpec] reads them back. *)
Lemma backend_versions_families lbSubnets nodeSubnets svc iv :
  well_formed_families svc → (∃ s, Some s ∈ lbSubnets) → (∃ s, Some s ∈ nodeSubnets) →
  getOciIpVersions lbSubnets nodeSubnets svc = Ret iv →
  let vers := convertOciIpVersionsToOciIpFamilies (iv_ListenerBackendIpVersion iv) in
  vers ≠ [] ∧ Forall (λ f, f ∈ getIpFamilies svc ∧ f ∈ [IPv4; IPv6]) vers ∧
  (getLoadBalancerType svc = LB → vers = [IPv4]) ∧
  (getLoadBalancerType svc ≠ LB → Forall (some_subnet_supports nodeSubnets) vers).
Proof.
  intros Hwf Hlb Hnode Hr. apply getOciIpVersions_inv in Hr as (v & vers & Hv & Hvers & Hlb6 & _ & ->).
  apply getLbListenerBackendSetIpVersion_spec in Hvers as [Hne Hall]; [|done..].
  apply getLbEndpointIpVersion_spec in Hv as (Hv3 & Hvf & _); [|done..].
  destruct (decide (getLoadBalancerType svc = LB)) as [Ht|Ht].
  - cbn. split_and!; [done| |done|done]. apply Forall_singleton. split; [|by left].
    destruct Hv3 as [->|[->| ->]]; [|by destruct Hlb6|]; apply Hvf; by left.
  - rewrite convert_versions by naive_solver.
    split_and!; [done| |done|]; [apply Forall_forall|intros _; apply Forall_forall]; naive_solver.
Qed.

(** The IP versions chosen for a service can be
    served: every family of the endpoint is a family of the service that some
    load balancer subnet has addresses for, and unless dual stack is only
    preferred every family of the service is served; the listeners and backends
    of a network load balancer use only families of the service that some node
    subnet has, and an OCI load balancer has IPv4 backends and an endpoint that
    is not IPv6 only. *)
Lemma getOciIpVersions_supported lbSubnets nodeSubnets svc iv :
  well_formed_families svc → (∃ s, Some s ∈ lbSubnets) → (∃ s, Some s ∈ nodeSubnets) →
  getOciIpVersions lbSubnets nodeSubnets svc = Ret iv →
  (∃ v, iv_LbEndpointIpVersion iv = Some (convertK8sIpFamiliesToOciIpVersion v) ∧
    (∀ f, f ∈ endpoint_families v → f ∈ getIpFamilies svc ∧ some_subnet_supports lbSubnets f) ∧
    (getIpFamilyPolicy svc ≠ IPFamilyPolicyPreferDualStack →
      ∀ f, f ∈ getIpFamilies svc → f ∈ [IPv4; IPv6] → f ∈ endpoint_families v) ∧
    (getLoadBalancerType svc = LB → v ≠ IPv6)) ∧
  let vers := convertOciIpVersionsToOciIpFamilies (iv_ListenerBackendIpVersion iv) in
  vers ≠ [] ∧ Forall (λ f, f ∈ getIpFamilies svc ∧ f ∈ [IPv4; IPv6]) vers ∧
  (getLoadBalancerType svc = LB → vers = [IPv4]) ∧
  (getLoadBalancerType svc ≠ LB → Forall (some_subnet_supports nodeSubnets) vers).
Proof.
  intros Hwf Hlb Hnode Hr. split; [|by apply (backend_versions_families lbSubnets nodeSubnets)].
  apply getOciIpVersions_inv in Hr as (v & vers & Hv & _ & Hlb6 & -> & _).
  apply getLbEndpointIpVersion_spec in Hv as (_ & Hvf & Hall); [|done..]. by exists v.
Qed.

(** There is a subnet, and none whose IPv6 blocks are an empty list while it has no IPv6
    block: the check of such a subnet dereferences nil. *)
Definition checkable (subnets : list (option Subnet)) : Prop :=
  (∃ s, Some s ∈ subnets) ∧
  ∀ s, Some s ∈ subnets → subnet_Ipv6CidrBlock s = None → subnet_Ipv6CidrBlocks s ≠ Some [].

Lemma subnet_supports_total s v :
  (subnet_Ipv6CidrBlock s = None → subnet_Ipv6CidrBlocks s ≠ Some []) → ∃ b, subnet_supports s v = Ret b.
Proof.
  intros Hs. unfold subnet_supports. repeat case_decide; [by eexists..| |by destruct (subnet_CidrBlock s); eexists].
  destruct (subnet_Ipv6CidrBlock s); [by eexists|]. destruct (subnet_Ipv6CidrBlocks s) as [[]|]; simpl in *; [naive_solver|lia|naive_solver].
Qed.

(** The families that some subnet has addresses of. *)
Definition has_family (v : string) (s : option Subnet) : bool :=
  match s with Some s => match subnet_supports s v with Ret b => b | _ => false end | None => false end.
Definition served (subnets : list (option Subnet)) : list string :=
  filter (λ v, existsb (has_family v) subnets = true) [IPv4; IPv6].

Lemma elem_of_served subnets v : v ∈ served subnets ↔ v ∈ [IPv4; IPv6] ∧ some_subnet_supports subnets v.
Proof.
  unfold served, some_subnet_supports. rewrite list_elem_of_filter, existsb_exists. setoid_rewrite <-list_elem_of_In. split.
  - intros [([s|] & Hs & Hb) Hv]; [|done]. simpl in Hb. split; [done|]. exists s. split; [done|].
    by destruct (subnet_supports s v) as [[]| |].
  - intros (Hv & s & Hs & Hb). split; [|done]. exists (Some s). simpl. by rewrite Hb.
Qed.

Lemma check_subnets_total subnets v err :
  (∀ s, Some s ∈ subnets → subnet_Ipv6CidrBlock s = None → subnet_Ipv6CidrBlocks s ≠ Some []) →
  ∃ r, check_subnets subnets v err = Ret r.
Proof.
  revert err. induction subnets as [|[s|] subnets IH]; intros err Hc; cbn [check_subnets]; [by eexists| |apply IH; set_solver].
  destruct (subnet_supports_total s v) as [[] ->]; [apply Hc; by left|by eexists|]. apply IH. set_solver.
Qed.

(** The check of a family has no error exactly when the family is served. *)
Lemma checkSubnet_served subnets v : checkable subnets → v ∈ [IPv4; IPv6] →
  ∃ r, checkSubnetIpFamilyCompatibility subnets v = Ret r ∧ (r = None ↔ v ∈ served subnets).
Proof.
  intros [Hne Hc] Hv. destruct (check_subnets_total subnets v None Hc) as [r Hr]. exists r. split; [done|].
  rewrite (checkSubnet_spec _ _ _ Hne Hr), elem_of_served. tauto.
Qed.

Lemma served_cases subnets :
  (IPv4 ∈ served subnets ∧ IPv6 ∈ served subnets ∧ served subnets = [IPv4; IPv6]) ∨
  (IPv4 ∈ served subnets ∧ (IPv6 ∉ served subnets) ∧ served subnets = [IPv4]) ∨
  ((IPv4 ∉ served subnets) ∧ IPv6 ∈ served subnets ∧ served subnets = [IPv6]) ∨
  ((IPv4 ∉ served subnets) ∧ (IPv6 ∉ served subnets) ∧ served subnets = []).
Proof.
  assert (IPv4 ≠ IPv6) as Hne by done. unfold served. rewrite !list_elem_of_filter, !filter_cons, filter_nil. repeat case_decide; set_solver.
Qed.

(** The version of an endpoint with these families. *)
Definition endpoint_version (families : list string) : string :=
  match families with [v] => v | _ => IPv4AndIPv6 end.

Lemma prefer_endpoint families subnets : checkable subnets →
  getLbEndpointIpVersion families IPFamilyPolicyPreferDualStack subnets =
  if decide (served subnets = []) then Err noCidrForLb else Ret (endpoint_version (served subnets)).
Proof.
  intros Hc. unfold getLbEndpointIpVersion.
  destruct (checkSubnet_served subnets IPv6 Hc) as (r6 & -> & H6); [right; by left|].
  destruct (checkSubnet_served subnets IPv4 Hc) as (r4 & -> & H4); [by left|]. simpl.
  destruct (served_cases subnets) as [(E4 & E6 & ->)|[(E4 & E6 & ->)|[(E4 & E6 & ->)|(E4 & E6 & ->)]]]; destruct r4, r6; naive_solver.
Qed.

Lemma prefer_backends families subnets : checkable subnets →
  getLbListenerBackendSetIpVersion families IPFamilyPolicyPreferDualStack subnets =
  if decide (served subnets = []) then Err noCidrForLb else Ret (served subnets).
Proof.
  intros Hc. unfold getLbListenerBackendSetIpVersion.
  destruct (checkSubnet_served subnets IPv6 Hc) as (r6 & -> & H6); [right; by left|].
  destruct (checkSubnet_served subnets IPv4 Hc) as (r4 & -> & H4); [by left|]. simpl.
  destruct (served_cases subnets) as [(E4 & E6 & ->)|[(E4 & E6 & ->)|[(E4 & E6 & ->)|(E4 & E6 & ->)]]]; destruct r4, r6; naive_solver.
Qed.

(** C39: For a service that prefers dual stack, on subnets that can be checked (there is
    one, and none that has an empty list of IPv6 blocks and no IPv6 block): the endpoint
    has all the families that the subnets of the load balancer have addresses of, and the
    listeners and backends all those of the subnets of the nodes, but an OCI load balancer
    has IPv4 backends.  There is always an answer: an error exactly when one of the two has no family, or the
    subnets of an OCI load balancer have no IPv4 addresses. *)
Theorem getOciIpVersions_preferred lbSubnets nodeSubnets svc :
  svc_IPFamilyPolicy svc = Some IPFamilyPolicyPreferDualStack → checkable lbSubnets → checkable nodeSubnets →
  let refused := served lbSubnets = [] ∨ served nodeSubnets = [] ∨ (getLoadBalancerType svc = LB ∧ IPv4 ∉ served lbSubnets) in
  (refused → ∃ e, getOciIpVersions lbSubnets nodeSubnets svc = Err e) ∧
  (¬ refused → getOciIpVersions lbSubnets nodeSubnets svc = Ret {|
     iv_IpFamilyPolicy := IPFamilyPolicyPreferDualStack; iv_IpFamilies := getIpFamilies svc;
     iv_LbEndpointIpVersion := Some (convertK8sIpFamiliesToOciIpVersion (endpoint_version (served lbSubnets)));
     iv_ListenerBackendIpVersion := convertK8sIpFamiliesToOciIpVersion <$>
       (if decide (getLoadBalancerType svc = LB) then [IPv4] else served nodeSubnets) |}).
Proof.
  intros Hp Hcl Hcn refused. unfold getOciIpVersions.
  assert (getIpFamilyPolicy svc = IPFamilyPolicyPreferDualStack) as -> by (unfold getIpFamilyPolicy; by rewrite Hp).
  rewrite prefer_endpoint, prefer_backends by done. assert (endpoint_version (served lbSubnets) = IPv6 ↔ served lbSubnets = [IPv6]) as H6.
  { destruct (served_cases lbSubnets) as [(_ & _ & ->)|[(_ & _ & ->)|[(_ & _ & ->)|(_ & _ & ->)]]]; done. }
  assert (served lbSubnets ≠ [] → (IPv4 ∉ served lbSubnets) ↔ served lbSubnets = [IPv6]) as H4.
  { destruct (served_cases lbSubnets) as [(? & _ & E)|[(? & _ & E)|[(? & _ & E)|(? & _ & E)]]]; rewrite E in *; try done; set_solver. }
  unfold refused. destruct (decide (served lbSubnets = [])) as [Hl|Hl]; [split; [eauto|naive_solver]|].
  destruct (decide (served nodeSubnets = [])) as [Hn|Hn]; [split; [eauto|naive_solver]|]. cbn [mbind outcome_bind].
  destruct (decide (getLoadBalancerType svc = LB)) as [Ht|Ht]; [|split; [naive_solver|done]].
  destruct (decide (endpoint_version (served lbSubnets) = IPv6)) as [Hv|Hv]; split; try done; [eauto|naive_solver..].
Qed.

(** ** The properties at concrete inputs *)

Definition family_subnet (v4 v6 : option string) : Subnet := {|
  subnet_Id := "subnet"; subnet_CidrBlock := v4; subnet_Ipv6CidrBlock := v6;
  subnet_Ipv6CidrBlocks := None; subnet_SecurityListIds := [] |}.

(** A service that prefers dual stack, on IPv4-only node subnets. *)
Definition example_versions : IpVersions := {|
  iv_IpFamilyPolicy := IPFamilyPolicyPreferDualStack; iv_IpFamilies := [IPv4; IPv6];
  iv_LbEndpointIpVersion := Some GenericIPv4AndIPv6; iv_ListenerBackendIpVersion := [GenericIPv4] |}.

Definition example_lb_subnets : list (option Subnet) :=
  [None; Some (family_subnet (Some "10.0.0.0/24") (Some "fd00::/64"))].
Definition example_node_subnets : list (option Subnet) :=
  [Some (family_subnet (Some "10.0.1.0/24") None)].

Lemma getOciIpVersions_supported_witness :
  let svc := example_svc {[ServiceAnnotationLoadBalancerType := "nlb"]} [] in
  getOciIpVersions example_lb_subnets example_node_subnets svc = Ret example_versions ∧
  Forall (some_subnet_supports example_node_subnets) [IPv4].
Proof.
  intros svc. split; [by vm_compute|].
  refine (proj2 (proj2 (proj2 (proj2 (getOciIpVersions_supported example_lb_subnets example_node_subnets
    svc example_versions _ _ _ _)))) _); [right|eexists; right; by left|eexists; by left|by vm_compute|by vm_compute].
  split_and!; [done|by left|right; by left].
Defined.

(** An OCI load balancer on subnets with both families; and one on IPv6 subnets. *)
Lemma getOciIpVersions_preferred_witness :
  let v6_subnets := [Some (family_subnet None (Some "fd00::/64"))] in
  getOciIpVersions example_lb_subnets example_node_subnets (example_svc ∅ []) = Ret example_versions ∧
  ∃ e, getOciIpVersions v6_subnets example_node_subnets (example_svc ∅ []) = Err e.
Proof.
  intros v6_subnets. assert (checkable example_lb_subnets ∧ checkable example_node_subnets ∧ checkable v6_subnets) as (H1 & H2 & H3).
  { unfold example_lb_subnets, example_node_subnets, v6_subnets. split_and!; (split; [eexists; (by left) || (right; by left)|]);
      intros s; rewrite !elem_of_cons, elem_of_nil; intros Hs; destruct_or?; by simplify_eq. }
  split.
  - refine (proj2 (getOciIpVersions_preferred example_lb_subnets example_node_subnets (example_svc ∅ []) eq_refl H1 H2) _).
    vm_compute. intros [?|[?|[_ Hin]]]; [done..|]. apply Hin. by left.
  - refine (proj1 (getOciIpVersions_preferred v6_subnets example_node_subnets (example_svc ∅ []) eq_refl H3 H2) _).
    right. right. vm_compute. split; [done|]. by intros ?%list_elem_of_singleton.
Defined.
