(* ===== verification/SpecFacts.v ===== *)
(** * Properties of the specification

    What [NewLBSpec] promises to the rest of the controller: backend sets and
    ports agree, the parts of the spec meet the preconditions of the comparison
    in Diff.v and of the rule generation in NetworkSecurityGroups.v, and
    listeners refer to backend sets that exist. *)
From stdpp Require Import base tactics list gmap sets strings.
From Stdlib Require Import Ascii.
From S2P Require Import Prelude GoStrings Types Annotations Names Diff SecurityListManager Spec IpVersions.

(** ** Filling maps *)

Lemma foldl_Err {A B} (f : B → A → outcome B) l e :
  foldl (λ acc a, b ← acc; f b a) (Err e) l = Err e.
Proof. by induction l. Qed.

Lemma foldl_Panic {A B} (f : B → A → outcome B) l :
  foldl (λ acc a, b ← acc; f b a) Panic l = Panic.
Proof. by induction l. Qed.

(** An invariant of a loop with errors; [dn] is what has been visited. *)
Lemma foldl_outcome_inv {A B} (f : B → A → outcome B) (I : list A → B → Prop) l dn b b' :
  (∀ dn a b b', a ∈ l → I dn b → f b a = Ret b' → I (dn ++ [a]) b') →
  I dn b → foldl (λ acc a, b ← acc; f b a) (Ret b) l = Ret b' → I (dn ++ l) b'.
Proof.
  revert dn b. induction l as [|a l IH]; intros dn b Hstep HI Hr; simpl in Hr.
  - injection Hr as <-. by rewrite app_nil_r.
  - destruct (f b a) as [b1| |] eqn:E; [|by rewrite foldl_Err in Hr|by rewrite foldl_Panic in Hr].
    change (a :: l) with ([a] ++ l). rewrite app_assoc. apply (IH _ b1); [|by eapply Hstep; [left|..]|done].
    intros. eapply Hstep; [by right|done..].
Qed.

Lemma fill_map_spec {A B} (f : string → A → outcome (option B)) l r :
  NoDup l.*1 → fill_map f l = Ret r →
  (∀ k a, (k, a) ∈ l → ∃ ob, f k a = Ret ob ∧ r !! k = ob) ∧ (∀ k, k ∉ l.*1 → r !! k = None).
Proof.
  intros Hnd Hr. unfold fill_map in Hr.
  assert (∀ m, foldl (λ acc '(k, a), m ← acc; ob ← f k a;
      mret (match ob with Some b => <[k:=b]> m | None => m end)) (mret m) l = Ret r →
    (∀ k, k ∈ l.*1 → m !! k = None) →
    (∀ k a, (k, a) ∈ l → ∃ ob, f k a = Ret ob ∧ r !! k = ob) ∧ (∀ k, k ∉ l.*1 → r !! k = m !! k)) as H.
  { clear Hr. induction l as [|[k a] l IH]; intros m Hr Hm; simpl in Hr.
    { injection Hr as <-. set_solver. }
    simpl in Hnd. apply NoDup_cons in Hnd as [Hk Hnd].
    destruct (f k a) as [ob|e|] eqn:E; cbn in Hr.
    - destruct (IH Hnd _ Hr) as [H1 H2].
      { intros k' Hk'. destruct ob as [b|]; [|apply Hm; set_solver].
        rewrite lookup_insert_ne by set_solver. apply Hm. set_solver. }
      assert (r !! k = ob) as Hrk.
      { rewrite H2 by done. destruct ob; [by rewrite lookup_insert_eq|]. apply Hm. by left. }
      split.
      + intros k' a' [[= -> ->]|Hin]%elem_of_cons; eauto.
      + intros k' [Hne Hk']%not_elem_of_cons. rewrite H2 by done.
        destruct ob; [by rewrite lookup_insert_ne|done].
    - exfalso. clear -Hr. induction l as [|[? ?] l IH]; [done|]. by apply IH.
    - exfalso. clear -Hr. induction l as [|[? ?] l IH]; [done|]. by apply IH. }
  destruct (H ∅ Hr) as [H1 H2]; [intros; apply lookup_empty|]. split; [done|].
  intros k Hk. by rewrite H2, lookup_empty.
Qed.

Section facts.
Context {RS : Type} `{!Parsers RS, !MapRange}.

Lemma fill_map_range {A B} (f : string → A → outcome (option B)) site m r :
  fill_map f (range site m) = Ret r →
  ∀ k b, r !! k = Some b ↔ ∃ a, m !! k = Some a ∧ f k a = Ret (Some b).
Proof.
  intros Hr. destruct (fill_map_spec f (range site m) r (NoDup_range site m) Hr) as [H1 H2].
  intros k b. split.
  - intros Hk. destruct (decide (k ∈ (range site m).*1)) as [Hin|Hni]; [|by rewrite H2 in Hk].
    apply list_elem_of_fmap in Hin as ([k' a] & -> & Hin). destruct (H1 _ _ Hin) as (ob & Hf & Hk').
    exists a. split; [by apply elem_of_range in Hin|]. simpl in *. congruence.
  - intros (a & Ha & Hf). apply (elem_of_range site) in Ha.
    destruct (H1 _ _ Ha) as (ob & Hf' & Hk). congruence.
Qed.

(** ** Ports and backend sets *)

Lemma getPorts_lookup site svc vers ports k p :
  getPorts site svc vers = Ret ports →
  ports !! k = Some p ↔
  ∃ sp hc h, getBackendSetNamePortMap svc !! k = Some sp ∧ backend_set_wanted vers k = true ∧
    getHealthChecker svc = Ret hc ∧ hc_Port hc = Some h ∧
    p = {| ListenerPort := port_Port sp; BackendPort := port_NodePort sp; HealthCheckerPort := h |}.
Proof.
  intros Hr. rewrite (fill_map_range _ _ _ _ Hr k p). split.
  - intros (sp & Hsp & Hf). apply bind_Ret_inv in Hf as (hc & Hhc & Hf).
    destruct (backend_set_wanted vers k) eqn:Hw; [|done].
    apply bind_Ret_inv in Hf as (h & Hh & Hf). injection Hf as <-.
    destruct (hc_Port hc) eqn:E; [|done]. injection Hh as ->. exists sp, hc, h. done.
  - intros (sp & hc & h & Hsp & Hw & Hhc & Hh & ->). exists sp. split; [done|].
    rewrite Hhc, Hw. cbn. by rewrite Hh.
Qed.

Lemma getBackendSets_lookup site svc nodes cfg preserve vers sets k b :
  getBackendSets site svc nodes cfg preserve vers = Ret sets →
  sets !! k = Some b →
  ∃ sp hc, getBackendSetNamePortMap svc !! k = Some sp ∧ backend_set_wanted vers k = true ∧
    getHealthChecker svc = Ret hc ∧ bs_HealthChecker b = Some hc ∧ bs_Name b = Some k ∧
    bs_Backends b = (if Contains k IPv6 then (getBackends nodes (port_NodePort sp)).2
                     else (getBackends nodes (port_NodePort sp)).1).
Proof.
  intros Hr Hk. apply bind_Ret_inv in Hr as (policy & _ & Hr).
  apply (fill_map_range _ _ _ _ Hr) in Hk as (sp & Hsp & Hf).
  apply bind_Ret_inv in Hf as (ssl & _ & Hf). apply bind_Ret_inv in Hf as (hc & Hhc & Hf).
  destruct (getBackends nodes (port_NodePort sp)) as [b4 b6] eqn:Hb.
  destruct (backend_set_wanted vers k) eqn:Hw; [|done]. injection Hf as <-.
  exists sp, hc. rewrite Hb. by destruct (Contains k IPv6).
Qed.

Lemma getBackendSets_complete site svc nodes cfg preserve vers sets k sp :
  getBackendSets site svc nodes cfg preserve vers = Ret sets →
  getBackendSetNamePortMap svc !! k = Some sp → backend_set_wanted vers k = true →
  is_Some (sets !! k).
Proof.
  intros Hr Hsp Hw. apply bind_Ret_inv in Hr as (policy & _ & Hr).
  destruct (fill_map_spec _ _ _ (NoDup_range _ _) Hr) as [H1 _].
  destruct (H1 k sp) as (ob & Hf & ->); [by apply elem_of_range|].
  apply bind_Ret_inv in Hf as (ssl & _ & Hf). apply bind_Ret_inv in Hf as (hc & _ & Hf).
  destruct (getBackends nodes (port_NodePort sp)) as [b4 b6]. rewrite Hw in Hf.
  by injection Hf as <-.
Qed.

Lemma getHealthChecker_port svc hc : getHealthChecker svc = Ret hc → is_Some (hc_Port hc).
Proof.
  intros Hr. apply bind_Ret_inv in Hr as (r & _ & Hr). apply bind_Ret_inv in Hr as (i & _ & Hr).
  apply bind_Ret_inv in Hr as (t & _ & Hr).
  destruct (GetServiceHealthCheckPathPort svc) as [path port].
  destruct (if decide (path ≠ "") then _ else _) as [path' port']. injection Hr as <-. by eexists.
Qed.

(** The ports for which security rules are managed
    are exactly those of the backend sets, and all of them use the one health
    check port that every backend set is configured with. *)
Lemma ports_match_backend_sets s1 s2 svc nodes cfg preserve vers sets ports :
  getBackendSets s1 svc nodes cfg preserve vers = Ret sets →
  getPorts s2 svc vers = Ret ports →
  dom sets = dom ports ∧
  ∀ k b p, sets !! k = Some b → ports !! k = Some p →
    ∃ hc, bs_HealthChecker b = Some hc ∧ hc_Port hc = Some (HealthCheckerPort p) ∧
      getHealthChecker svc = Ret hc.
Proof.
  intros Hs Hp.
  assert (∀ k sp, getBackendSetNamePortMap svc !! k = Some sp → backend_set_wanted vers k = true →
    is_Some (sets !! k) ∧ is_Some (ports !! k)) as Hboth.
  { intros k sp Hsp Hw. pose proof (getBackendSets_complete _ _ _ _ _ _ _ _ _ Hs Hsp Hw) as [b Hb].
    split; [by eauto|]. destruct (getBackendSets_lookup _ _ _ _ _ _ _ _ _ Hs Hb)
      as (_ & hc & _ & _ & Hhc & _). destruct (getHealthChecker_port _ _ Hhc) as [h Hh].
    eexists. apply (getPorts_lookup _ _ _ _ _ _ Hp). by exists sp, hc, h. }
  split.
  - apply set_eq. intros k. rewrite !elem_of_dom. split.
    + intros [b Hb]. destruct (getBackendSets_lookup _ _ _ _ _ _ _ _ _ Hs Hb)
        as (sp & hc & Hsp & Hw & _). by eapply Hboth.
    + intros [p Hpk]. apply (getPorts_lookup _ _ _ _ _ _ Hp) in Hpk as (sp & hc & h & Hsp & Hw & _).
      by eapply Hboth.
  - intros k b p Hb Hpk. apply (getPorts_lookup _ _ _ _ _ _ Hp) in Hpk
      as (sp & hc & h & _ & _ & Hhc & Hh & ->).
    destruct (getBackendSets_lookup _ _ _ _ _ _ _ _ _ Hs Hb) as (_ & hc' & _ & _ & Hhc' & Hb' & _).
    exists hc. split_and!; [congruence|done|done].
Qed.

(** ** Backends *)

(** The backends of a service are its nodes: each IPv4
    backend is the internal address of a node with its instance as target, each
    IPv6 backend an address of a node, all on the node port; and every node with
    a provider id and a usable address is a backend. *)
Lemma getBackends_correct nodes nodePort :
  let '(b4, b6) := getBackends nodes nodePort in
  (∀ b, b ∈ b4 → be_Port b = Some nodePort ∧ ∃ node id, node ∈ nodes ∧
     MapProviderIDToResourceID (node_ProviderID node) = Ret id ∧ be_TargetId b = Some id ∧
     be_IpAddress b = Some (V4 (NodeInternalIP node))) ∧
  (∀ b, b ∈ b6 → be_Port b = Some nodePort ∧ be_TargetId b = None ∧ ∃ node ip, node ∈ nodes ∧
     be_IpAddress b = Some ip ∧ IsIPv6String ip = true ∧
     (ip = V6 (NodeInternalIP node) ∨ ip = V6 (NodeExternalIp node))) ∧
  (∀ node id, node ∈ nodes → MapProviderIDToResourceID (node_ProviderID node) = Ret id →
     V4 (NodeInternalIP node) ≠ "" → IsIPv4String (V4 (NodeInternalIP node)) = true →
     ∃ b, b ∈ b4 ∧ be_IpAddress b = Some (V4 (NodeInternalIP node))).
Proof.
  unfold getBackends. split_and!.
  - intros b (node & Hb & Hn)%list_elem_of_bind. unfold node_backends in Hb.
    destruct (decide (_ ∧ _)); [set_solver|].
    destruct (MapProviderIDToResourceID _) as [id| |] eqn:E; [|set_solver..]. simpl in Hb.
    destruct (IsIPv4String _); [|set_solver]. apply list_elem_of_singleton in Hb as ->. eauto 10.
  - intros b (node & Hb & Hn)%list_elem_of_bind. unfold node_backends in Hb.
    destruct (decide (_ ∧ _)); [set_solver|].
    destruct (MapProviderIDToResourceID _) as [id| |] eqn:E; [|set_solver..]. simpl in Hb.
    destruct (IsIPv6String _) eqn:E6; [|set_solver]. apply list_elem_of_singleton in Hb as ->.
    split_and!; [done..|]. eexists node, _. split_and!; [done..|]. case_decide; auto.
  - intros node id Hn Hid Hne H4. eexists. split.
    + apply list_elem_of_bind. exists node. split; [|done]. unfold node_backends.
      rewrite decide_False by tauto. rewrite Hid. simpl. rewrite H4. by left.
    + done.
Qed.

Lemma getBackends_ok nodes nodePort :
  backends_ok (getBackends nodes nodePort).1 ∧ backends_ok (getBackends nodes nodePort).2.
Proof.
  unfold backends_ok, getBackends. split; apply Forall_bind, Forall_true; intros node;
    unfold compose, node_backends; (destruct (decide (_ ∧ _)); [apply Forall_nil_2|]);
    (destruct (MapProviderIDToResourceID _); [|apply Forall_nil_2..]); simpl;
    (first [destruct (IsIPv4String _)|destruct (IsIPv6String _)]; [|apply Forall_nil_2]);
    apply Forall_singleton; by eexists.
Qed.

(** The backend sets of the spec meet what the comparison
    with the load balancer requires: they carry their name, every backend has an
    address and a port, and the health checker has a port. *)
Lemma getBackendSets_ok site svc nodes cfg preserve vers sets :
  getBackendSets site svc nodes cfg preserve vers = Ret sets →
  ∀ k b, sets !! k = Some b → backend_set_ok b ∧ bs_Name b = Some k.
Proof.
  intros Hr k b Hk.
  destruct (getBackendSets_lookup _ _ _ _ _ _ _ _ _ Hr Hk) as (sp & hc & _ & _ & Hhc & Hb & Hn & Hbs).
  split; [|done]. split.
  - rewrite Hbs. destruct (getBackends_ok nodes (port_NodePort sp)). by destruct (Contains k IPv6).
  - intros hc' Hhc'. rewrite Hb in Hhc'. injection Hhc' as <-. by eapply getHealthChecker_port.
Qed.

(** ** Names of backend sets *)

Section names.
Context (ports : list ServicePort) (r4 r6 : bool).

(** Several service ports share the number. *)
Definition many (port : Z) : bool := bool_decide (1 < length (portsMap ports port)).

Definition backend_set_name (sp : ServicePort) : string :=
  getBackendSetName (if many (port_Port sp) then ProtocolTypeMixed else port_Protocol sp) (port_Port sp).

Definition v6_suffix : string := "-" +:+ IPv6.

Definition mixed_inv (st : gmap string ServicePort * gset Z) : Prop :=
  ∀ port, port ∈ st.2 →
    (r4 = true → is_Some (st.1 !! getBackendSetName ProtocolTypeMixed port)) ∧
    (r4 = false → r6 = true → is_Some (st.1 !! (getBackendSetName ProtocolTypeMixed port +:+ v6_suffix))).

Definition named (st : gmap string ServicePort * gset Z) (sp : ServicePort) : Prop :=
  (r4 = true → is_Some (st.1 !! backend_set_name sp)) ∧
  (r6 = true → r4 = false ∨ many (port_Port sp) = false →
     is_Some (st.1 !! (backend_set_name sp +:+ v6_suffix))).

Lemma is_Some_insert (m : gmap string ServicePort) k k' v :
  is_Some (m !! k) ∨ k = k' → is_Some (<[k' := v]> m !! k).
Proof.
  intros Hor. destruct (decide (k = k')) as [->|Hne]; [by rewrite lookup_insert_eq|].
  rewrite lookup_insert_ne by done. by destruct Hor.
Qed.

Lemma name_port_step_eq m mixed sp :
  name_port_step ports r4 r6 (m, mixed) sp =
  if many (port_Port sp) && bool_decide (port_Port sp ∈ mixed) then (m, mixed)
  else
    let m1 := if r4 then <[backend_set_name sp := sp]> m else m in
    (if r6 && negb (r4 && many (port_Port sp)) then <[backend_set_name sp +:+ v6_suffix := sp]> m1 else m1,
     if many (port_Port sp) && (r4 || r6) then {[port_Port sp]} ∪ mixed else mixed).
Proof.
  unfold name_port_step, backend_set_name. fold (many (port_Port sp)). fold v6_suffix.
  rewrite append_nil_r. destruct (many (port_Port sp)); [|by destruct r4, r6].
  destruct (decide (port_Port sp ∈ mixed)) as [Hin|Hni].
  - rewrite bool_decide_true by done. destruct r4, r6; simpl; by rewrite ?decide_True by done.
  - rewrite bool_decide_false by done. destruct r4, r6; simpl;
      rewrite ?(decide_False (P := port_Port sp ∈ mixed)) by done; simpl;
      by rewrite ?decide_True by set_solver.
Qed.

Lemma name_port_step_mono st sp k :
  is_Some (st.1 !! k) → is_Some ((name_port_step ports r4 r6 st sp).1 !! k).
Proof.
  destruct st as [m mixed]. rewrite name_port_step_eq. intros Hk.
  destruct (_ && _); [done|]. simpl. destruct r4, (_ && _); auto using is_Some_insert.
Qed.

Lemma name_port_step_named st sp : mixed_inv st → named (name_port_step ports r4 r6 st sp) sp.
Proof.
  destruct st as [m mixed]. rewrite name_port_step_eq. unfold named, backend_set_name. intros HI.
  destruct (many (port_Port sp)) eqn:Hm; simpl;
    [|destruct r4, r6; simpl; split; intros; try done; auto using is_Some_insert].
  case_bool_decide as Hin.
  - destruct (HI _ Hin) as [H4 H6]. simpl in *. split; [done|]. intros ? [?|?]; [auto|done].
  - destruct r4, r6; simpl; split; intros; destruct_or?; try done; auto using is_Some_insert.
Qed.

Lemma name_port_step_mixed st sp : mixed_inv st → mixed_inv (name_port_step ports r4 r6 st sp).
Proof.
  intros HI port Hp. destruct (decide (port ∈ st.2)) as [Hold|Hnew].
  - destruct (HI _ Hold). split; intros; apply name_port_step_mono; auto.
  - pose proof (name_port_step_named _ sp HI) as [H4 H6]. destruct st as [m mixed]. simpl in Hnew.
    assert (port = port_Port sp ∧ many (port_Port sp) = true) as [-> Hm].
    { rewrite name_port_step_eq in Hp. destruct (many (port_Port sp)); simpl in Hp; [|done].
      case_bool_decide; simpl in Hp; [done|]. destruct (_ || _); set_solver. }
    unfold backend_set_name in *. rewrite Hm in *. split; auto.
Qed.

Lemma name_ports_named l st :
  mixed_inv st → (∀ sp, sp ∈ l → named (foldl (name_port_step ports r4 r6) st l) sp) ∧
  ∀ k, is_Some (st.1 !! k) → is_Some ((foldl (name_port_step ports r4 r6) st l).1 !! k).
Proof.
  revert st. induction l as [|sp l IH]; intros st HI; simpl; [set_solver|].
  destruct (IH _ (name_port_step_mixed st sp HI)) as [H1 H2]. split.
  - intros sp' [->|Hin]%elem_of_cons; [|auto].
    destruct (name_port_step_named st sp HI) as [H4 H6]. split; auto.
  - auto using name_port_step_mono.
Qed.
End names.

Lemma getBackendSetNamePortMap_named svc sp :
  sp ∈ svc_Ports svc →
  named (svc_Ports svc) (contains (getIpFamilies svc) IPv4) (contains (getIpFamilies svc) IPv6)
    (getBackendSetNamePortMap svc, ∅) sp.
Proof.
  intros Hsp. unfold getBackendSetNamePortMap, getRequireIpVersions.
  generalize (contains (getIpFamilies svc) IPv4), (contains (getIpFamilies svc) IPv6). intros r4 r6.
  assert (mixed_inv r4 r6 (∅, ∅)) as HI by (intros port ?; set_solver).
  by apply (name_ports_named (svc_Ports svc) r4 r6 (svc_Ports svc) (∅, ∅) HI).
Qed.

(** ** Listeners *)

(** The protocols of Kubernetes service ports. *)
Definition k8s_protocols : list string := ["TCP"; "UDP"; "SCTP"].

Lemma backend_set_name_plain ports sp :
  port_Protocol sp ∈ k8s_protocols → has_byte "v" (backend_set_name ports sp) = false.
Proof.
  intros Hp. unfold backend_set_name, getBackendSetName.
  assert (has_byte "v" (if many ports (port_Port sp) then ProtocolTypeMixed else port_Protocol sp) = false)
    as H1 by (destruct (many _ _); [done|]; unfold k8s_protocols in Hp; set_unfold in Hp; destruct_or!; by rewrite Hp).
  rewrite !has_byte_app, H1, (Itoa_no_byte "v") by done. done.
Qed.

Lemma backend_set_wanted_v4 vers ports sp :
  port_Protocol sp ∈ k8s_protocols →
  backend_set_wanted vers (backend_set_name ports sp) = contains vers IPv4.
Proof.
  intros Hp. unfold backend_set_wanted.
  by rewrite (Contains_no_byte "v") by (done || by apply backend_set_name_plain).
Qed.

Lemma backend_set_wanted_v6 vers name :
  backend_set_wanted vers (name +:+ v6_suffix) = contains vers IPv6.
Proof.
  unfold backend_set_wanted, v6_suffix.
  by rewrite append_assoc, Contains_suffix.
Qed.

(** What the listener [l] of a network load balancer refers to. *)
Definition nlb_refers (ports : list ServicePort) (r4 r6 : bool) (l : GenericListener) : Prop :=
  ∃ sp, sp ∈ ports ∧ port_Protocol sp ∈ k8s_protocols ∧
    (r4 = true ∧ ln_DefaultBackendSetName l = Some (backend_set_name ports sp) ∨
     r6 = true ∧ ln_DefaultBackendSetName l = Some (backend_set_name ports sp +:+ v6_suffix)).

Lemma nlb_listener_step_refers ports ppv2 r4 r6 st sp st' :
  sp ∈ ports → map_Forall (λ _, nlb_refers ports r4 r6) st.1 →
  nlb_listener_step ports ppv2 r4 r6 st sp = Ret st' →
  map_Forall (λ _, nlb_refers ports r4 r6) st'.1.
Proof.
  intros Hsp HI Hr. destruct st as [ls mixed]. unfold nlb_listener_step in Hr.
  fold (many ports (port_Port sp)) in Hr. destruct (decide (_ ∉ _)) as [|Hp]; [done|].
  assert (port_Protocol sp ∈ k8s_protocols) as Hk.
  { apply dec_stable in Hp. unfold k8s_protocols. rewrite !elem_of_cons in *. tauto. }
  destruct (_ && _); [by injection Hr as <-|]. injection Hr as <-. simpl.
  assert (getBackendSetName (if many ports (port_Port sp) then ProtocolTypeMixed else port_Protocol sp)
    (port_Port sp) = backend_set_name ports sp) as -> by done.
  destruct r4, r6; repeat apply map_Forall_insert_2; try done; exists sp; auto.
Qed.

Lemma nlb_listeners_refer svc vers ls :
  getListenersNetworkLoadBalancer svc vers = Ret ls →
  map_Forall (λ _, nlb_refers (svc_Ports svc) (contains vers IPv4) (contains vers IPv6)) ls.
Proof.
  unfold getListenersNetworkLoadBalancer, getRequireIpVersions. intros Hr.
  apply bind_Ret_inv in Hr as (st & Hst & Hr). injection Hr as <-.
  apply (foldl_outcome_inv _ (λ _ st, map_Forall (λ _, nlb_refers (svc_Ports svc)
    (contains vers IPv4) (contains vers IPv6)) st.1) _ []) in Hst; [done| |done].
  intros dn sp st1 st2 Hsp HI Hs. by eapply nlb_listener_step_refers.
Qed.

Lemma lb_listener_refers svc cfg t v rs sp name l :
  lb_listener svc cfg t v rs sp = Ret (name, l) →
  ln_DefaultBackendSetName l = Some (getBackendSetName (port_Protocol sp) (port_Port sp)) ∧
  ln_Name l = Some name ∧ ln_Port l = Some (port_Port sp).
Proof.
  intros Hr. apply bind_Ret_inv in Hr as (p & _ & Hr). apply bind_Ret_inv in Hr as (ssl & _ & Hr).
  apply bind_Ret_inv in Hr as ([p' ssl'] & _ & Hr). by injection Hr as <- <-.
Qed.

Lemma lb_listeners_refer svc cfg ls :
  getListenersOciLoadBalancer svc cfg = Ret ls →
  map_Forall (λ _ l, ∃ sp, sp ∈ svc_Ports svc ∧
    ln_DefaultBackendSetName l = Some (getBackendSetName (port_Protocol sp) (port_Port sp))) ls.
Proof.
  intros Hr. apply bind_Ret_inv in Hr as (t & _ & Hr). apply bind_Ret_inv in Hr as (v & _ & Hr).
  apply (foldl_outcome_inv _ (λ _ ls, map_Forall (λ _ l, ∃ sp, sp ∈ svc_Ports svc ∧
    ln_DefaultBackendSetName l = Some (getBackendSetName (port_Protocol sp) (port_Port sp))) ls) _ [])
    in Hr; [done| |done].
  intros dn sp m m' Hsp HI Hs. apply bind_Ret_inv in Hs as (kvs & Hkv & Hs).
  apply bind_Ret_inv in Hkv as ([k l] & Hl & Hkv). injection Hkv as <-. injection Hs as <-. simpl.
  apply map_Forall_insert_2; [|done]. exists sp. split; [done|]. by eapply lb_listener_refers.
Qed.

(** The backend set that the listener of the family [f] for the port [sp] refers to. *)
Definition listener_backend_set (svc : Service) (f : string) (sp : ServicePort) : string :=
  if decide (getLoadBalancerType svc = NLB)
  then if decide (f = IPv6) then backend_set_name (svc_Ports svc) sp +:+ v6_suffix else backend_set_name (svc_Ports svc) sp
  else getBackendSetName (port_Protocol sp) (port_Port sp).

(** The cases where that backend set is not made: the service has no addresses of the
    family, or its port is shared by several protocols, which on a network load balancer
    matters only to the IPv6 listeners of a service that has IPv4 as well. *)
Definition no_backend_set (svc : Service) (f : string) (sp : ServicePort) : Prop :=
  f ∉ getIpFamilies svc ∨
  many (svc_Ports svc) (port_Port sp) = true ∧ (getLoadBalancerType svc = NLB → f = IPv6 ∧ IPv4 ∈ getIpFamilies svc).

(** Every listener is one of a port of the service and a family; its default backend set is
    one of [sets], but for the two cases. *)
Definition backed (svc : Service) (ls : gmap string GenericListener) (sets : gmap string GenericBackendSetDetails) : Prop :=
  map_Forall (λ _ l, ∃ sp f, sp ∈ svc_Ports svc ∧ f ∈ [IPv4; IPv6] ∧ (getLoadBalancerType svc ≠ NLB → f = IPv4) ∧
    ln_DefaultBackendSetName l = Some (listener_backend_set svc f sp) ∧
    (no_backend_set svc f sp ∨ is_Some (sets !! listener_backend_set svc f sp))) ls.

Global Instance no_backend_set_dec svc f sp : Decision (no_backend_set svc f sp).
Proof. unfold no_backend_set. apply _. Defined.

Lemma wanted_set_exists site svc cfg nodes preserve vers sets f sp :
  Forall (λ sp, port_Protocol sp ∈ k8s_protocols) (svc_Ports svc) →
  getBackendSets site svc nodes cfg preserve vers = Ret sets →
  sp ∈ svc_Ports svc → f ∈ vers → f ∈ [IPv4; IPv6] → (getLoadBalancerType svc ≠ NLB → f = IPv4) →
  no_backend_set svc f sp ∨ is_Some (sets !! listener_backend_set svc f sp).
Proof.
  intros Hproto Hs Hsp Hv Hf Hlb. destruct (decide (no_backend_set svc f sp)) as [|Hno]; [by left|right].
  apply Decidable.not_or in Hno as [Hfam Hm]. apply dec_stable in Hfam. rewrite Forall_forall in Hproto.
  destruct (getBackendSetNamePortMap_named svc sp Hsp) as [H4 H6].
  unfold listener_backend_set. apply elem_of_cons in Hf as [->|[->|[]%elem_of_nil]%elem_of_cons].
  - destruct H4 as [sp' Hn]; [by apply contains_spec|].
    assert (is_Some (sets !! backend_set_name (svc_Ports svc) sp)) as Hset.
    { eapply getBackendSets_complete; [done..|]. rewrite backend_set_wanted_v4 by auto. by apply contains_spec. }
    case_decide as Ht; [done|].
    unfold backend_set_name in Hset. destruct (many _ _); [|done]. by destruct Hm.
  - case_decide as Ht; [|by specialize (Hlb Ht)]. rewrite decide_True by done.
    destruct H6 as [sp' Hn]; [by apply contains_spec| |].
    { destruct (contains (getIpFamilies svc) IPv4) eqn:E4; [right|by left]. apply contains_spec in E4.
      destruct (many _ _); [|done]. by destruct Hm. }
    eapply getBackendSets_complete; [done..|]. rewrite backend_set_wanted_v6. by apply contains_spec.
Qed.

Lemma listeners_are_backed site svc cfg nodes preserve vers ls sets :
  Forall (λ sp, port_Protocol sp ∈ k8s_protocols) (svc_Ports svc) → (getLoadBalancerType svc ≠ NLB → IPv4 ∈ vers) →
  getListeners svc cfg vers = Ret ls →
  getBackendSets site svc nodes cfg preserve vers = Ret sets →
  backed svc ls sets.
Proof.
  intros Hproto Hlb4 Hl Hs. unfold getListeners in Hl. destruct (decide (getLoadBalancerType svc = NLB)) as [Ht|Ht].
  - eapply map_Forall_impl; [by eapply nlb_listeners_refer|]. simpl.
    intros k l (sp & Hsp & Hk & [[Hv Hd]|[Hv Hd]]); apply contains_spec in Hv;
      [exists sp, IPv4|exists sp, IPv6];
      (split_and!; [done|set_solver|done|unfold listener_backend_set; by rewrite !decide_True by done|
        eapply wanted_set_exists; (done || set_solver)]).
  - eapply map_Forall_impl; [by eapply lb_listeners_refer|]. simpl.
    intros k l (sp & Hsp & Hd). exists sp, IPv4.
    split_and!; [done|set_solver|done|unfold listener_backend_set; by rewrite decide_False by done|].
    eapply wanted_set_exists; [done..|auto|set_solver|done].
Qed.

(** ** The whole specification *)

Lemma NewLBSpec_inv prefixEnv sys site svc nodes subnets ssl factory versions tags existing compartment s :
  NewLBSpec prefixEnv sys site svc nodes subnets ssl factory versions tags existing compartment = Ret s →
  let vers := convertOciIpVersionsToOciIpFamilies (iv_ListenerBackendIpVersion versions) in
  validateService svc = Ret () ∧
  getListeners svc ssl vers = Ret (spec_Listeners s) ∧
  (∃ preserve, getBackendSets site svc nodes ssl preserve vers = Ret (spec_BackendSets s)) ∧
  getPorts (S site) svc vers = Ret (spec_Ports s) ∧
  getLBShape svc existing = Ret (spec_Shape s, spec_FlexMin s, spec_FlexMax s) ∧
  getLoadBalancerSourceRanges svc = Ret (spec_SourceCIDRs s) ∧
  getRuleSets svc = Ret (spec_RuleSets s) ∧
  getNetworkSecurityGroupIds svc = Ret (spec_NetworkSecurityGroupIds s) ∧
  (∃ mode nsg backend, getRuleManagementMode svc = Ret (mode, nsg) ∧ getManagedBackendNSG svc = Ret backend ∧
     spec_securityListManager s = factory mode ∧
     spec_ManagedNetworkSecurityGroup s = Some
       (if decide (mode = RuleManagementModeNsg ∧ backend ≠ [])
        then {| mn_nsgRuleManagementMode := mn_nsgRuleManagementMode nsg;
                mn_frontendNsgId := mn_frontendNsgId nsg; mn_backendNsgId := backend |}
        else nsg)) ∧
  spec_service s = svc ∧ spec_nodes s = nodes ∧ spec_Type s = getLoadBalancerType svc ∧
  spec_Name s = GetLoadBalancerName prefixEnv svc ∧ spec_Compartment s = getLoadBalancerCompartment svc compartment ∧
  spec_IpVersions s = versions.
Proof.
  intros Hr vers. unfold NewLBSpec in Hr. fold vers in Hr.
  apply bind_Ret_inv in Hr as ([] & Hval & Hr). apply bind_Ret_inv in Hr as (internal & _ & Hr).
  apply bind_Ret_inv in Hr as ([[shape mn] mx] & Hshape & Hr).
  apply bind_Ret_inv in Hr as (cidrs & Hcidrs & Hr). apply bind_Ret_inv in Hr as (rs & Hrs & Hr).
  apply bind_Ret_inv in Hr as (ls & Hls & Hr). apply bind_Ret_inv in Hr as (ps & Hps & Hr).
  apply bind_Ret_inv in Hr as (sets & Hsets & Hr). apply bind_Ret_inv in Hr as (ports & Hports & Hr).
  apply bind_Ret_inv in Hr as (nsgs & Hnsgs & Hr). apply bind_Ret_inv in Hr as (ip & _ & Hr).
  apply bind_Ret_inv in Hr as (lbTags & _ & Hr). apply bind_Ret_inv in Hr as ([mode nsg] & Hmode & Hr).
  apply bind_Ret_inv in Hr as (backend & Hbackend & Hr). apply bind_Ret_inv in Hr as (ingress & _ & Hr).
  apply bind_Ret_inv in Hr as ([a4 a6] & _ & Hr). injection Hr as <-. simpl.
  split_and!; try done; [by destruct (validateService svc) as [[]| |]|by exists ps|by exists mode, nsg, backend].
Qed.

(** ** Names of listeners *)

(** No two names are confused when listeners are compared. *)
Definition distinct_names {A} (ls : gmap string A) : Prop :=
  ∀ n1 n2, is_Some (ls !! n1) → is_Some (ls !! n2) → getSanitizedName n1 = getSanitizedName n2 → n1 = n2.

(** Service ports as the Kubernetes API admits them. *)
Definition valid_ports (svc : Service) : Prop :=
  Forall (λ sp, port_Protocol sp ∈ k8s_protocols ∧ (0 ≤ port_Port sp)%Z) (svc_Ports svc).

(** The name of a listener for one of the protocols [P]. *)
Definition listener_key (P : string → Prop) (n : string) : Prop :=
  ∃ p port v6, n = listener_name p port v6 ∧ P p ∧ (0 ≤ port)%Z.

Lemma keys_distinct {A} (P : string → Prop) (ls : gmap string A) :
  (∀ p, P p → has_byte "-" p = false ∧ p ≠ IPv6) →
  (∀ p q, P p → P q → sanitized_protocol p = sanitized_protocol q → p = q) →
  map_Forall (λ n _, listener_key P n) ls → distinct_names ls.
Proof.
  intros Hok Hinj Hls n1 n2 [l1 H1] [l2 H2] E.
  destruct (Hls _ _ H1) as (p1 & port1 & v1 & -> & HP1 & ?).
  destruct (Hls _ _ H2) as (p2 & port2 & v2 & -> & HP2 & ?).
  destruct (Hok _ HP1), (Hok _ HP2). rewrite !sanitized_listener_name in E by done.
  apply listener_name_inj in E as (Ep & -> & ->); [|by auto using no_dash_sanitized..].
  by rewrite (Hinj _ _ HP1 HP2 Ep).
Qed.

Lemma nlb_listener_keys svc vers ls :
  valid_ports svc → getListenersNetworkLoadBalancer svc vers = Ret ls →
  map_Forall (λ n _, listener_key (.∈ ["TCP"; "UDP"; ProtocolTypeMixed]) n) ls.
Proof.
  unfold getListenersNetworkLoadBalancer, getRequireIpVersions. intros Hv Hr.
  apply bind_Ret_inv in Hr as (st & Hst & Hr). injection Hr as <-.
  apply (foldl_outcome_inv _ (λ _ st, map_Forall (λ n _,
    listener_key (.∈ ["TCP"; "UDP"; ProtocolTypeMixed]) n) st.1) _ []) in Hst; [done| |done].
  intros dn sp [ls mixed] st2 Hsp HI Hs. unfold nlb_listener_step in Hs. fold (many (svc_Ports svc) (port_Port sp)) in Hs.
  destruct (decide (_ ∉ _)) as [|Hp]; [done|]. apply dec_stable in Hp.
  destruct (_ && _); [by injection Hs as <-|]. injection Hs as <-. simpl.
  assert (∀ v6, listener_key (.∈ ["TCP"; "UDP"; ProtocolTypeMixed])
    (listener_name (if many (svc_Ports svc) (port_Port sp) then ProtocolTypeMixed else port_Protocol sp)
       (port_Port sp) v6)) as Hkey.
  { intros v6. eexists _, _, _. split; [done|]. split; [|by eapply Forall_forall in Hv as [_ ?]].
    destruct (many _ _); set_solver. }
  pose proof (Hkey false). pose proof (Hkey true).
  destruct (contains vers IPv4), (contains vers IPv6); repeat apply map_Forall_insert_2; done.
Qed.

(** The protocols of the listeners of an OCI load balancer: one for all of them if it
    is given by an annotation. *)
Definition lb_protocols (svc : Service) (p : string) : Prop :=
  match annotation svc ServiceAnnotationLoadBalancerBEProtocol with
  | None => p ∈ k8s_protocols
  | Some v =>
      let v := if decide (v = "") then DefaultLoadBalancerBEProtocol else v in
      p = (if EqualFold v "GRPC" then ProtocolGrpc else v) ∧
      (EqualFold v "HTTP" || EqualFold v "TCP" || EqualFold v "GRPC") = true
  end.

Lemma lb_listener_key svc cfg t v rs sp name l :
  port_Protocol sp ∈ k8s_protocols → (0 ≤ port_Port sp)%Z →
  lb_listener svc cfg t v rs sp = Ret (name, l) → listener_key (lb_protocols svc) name.
Proof.
  intros Hk Hport Hr. apply bind_Ret_inv in Hr as (p & Hp & Hr). apply bind_Ret_inv in Hr as (ssl & _ & Hr).
  apply bind_Ret_inv in Hr as ([p' ssl'] & Hg & Hr). injection Hr as <- _.
  exists p', (port_Port sp), false. split_and!; [done| |done]. unfold lb_protocols, listener_protocol in *.
  assert (p' = if EqualFold p "GRPC" then ProtocolGrpc else p) as ->.
  { unfold grpc_settings in Hg. destruct (EqualFold p "GRPC"); [|by injection Hg].
    destruct ssl as [ssl|]; [|done]. by injection Hg. }
  destruct (annotation svc ServiceAnnotationLoadBalancerBEProtocol) as [v'|].
  - cbv zeta in *. set (q := if decide (v' = "") then _ else v') in *.
    destruct (_ || _) eqn:E; [|done]. by injection Hp as ->.
  - injection Hp as <-. unfold k8s_protocols in *. rewrite !elem_of_cons, elem_of_nil in Hk.
    destruct Hk as [->|[->|[->|[]]]]; rewrite !elem_of_cons; auto.
Qed.

Lemma lb_listener_keys svc cfg ls :
  valid_ports svc → getListenersOciLoadBalancer svc cfg = Ret ls →
  map_Forall (λ n _, listener_key (lb_protocols svc) n) ls.
Proof.
  intros Hv Hr. apply bind_Ret_inv in Hr as (t & _ & Hr). apply bind_Ret_inv in Hr as (v & _ & Hr).
  apply (foldl_outcome_inv _ (λ _ ls, map_Forall (λ n _, listener_key (lb_protocols svc) n) ls) _ [])
    in Hr; [done| |done].
  intros dn sp m m' Hsp HI Hs. apply bind_Ret_inv in Hs as (kvs & Hkv & Hs).
  apply bind_Ret_inv in Hkv as ([k l] & Hl & Hkv). injection Hkv as <-. injection Hs as <-. simpl.
  apply map_Forall_insert_2; [|done]. eapply Forall_forall in Hv as [??]; [|done]. by eapply lb_listener_key.
Qed.

Lemma lb_protocols_plain svc p : lb_protocols svc p → has_byte "-" p = false ∧ p ≠ IPv6.
Proof.
  unfold lb_protocols. destruct (annotation svc _) as [v|]; cbv zeta.
  - set (q := if decide (v = "") then _ else v). intros [-> Hq].
    assert (∃ t, fold_case q = fold_case t ∧ t ∈ ["HTTP"; "TCP"; "GRPC"]) as (t & Ht & Hin).
    { unfold EqualFold in Hq. rewrite !orb_true_iff, !bool_decide_eq_true in Hq.
      destruct Hq as [[Hq|Hq]|Hq]; [exists "HTTP"|exists "TCP"|exists "GRPC"]; (split; [exact Hq|set_solver]). }
    destruct (EqualFold q "GRPC"); [done|]. rewrite !elem_of_cons, elem_of_nil in Hin.
    split; [|by intros ->; destruct Hin as [->|[->|[->|[]]]]].
    apply fold_case_no_dash. rewrite Ht. by destruct Hin as [->|[->|[->|[]]]].
  - unfold k8s_protocols. rewrite !elem_of_cons, elem_of_nil. by intros [->|[->|[->|[]]]].
Qed.

Lemma getListeners_distinct svc cfg vers ls :
  valid_ports svc → getListeners svc cfg vers = Ret ls → distinct_names ls.
Proof.
  intros Hv Hr. unfold getListeners in Hr. case_decide.
  - eapply keys_distinct; [..|by eapply nlb_listener_keys];
      repeat (setoid_rewrite elem_of_cons || setoid_rewrite elem_of_nil); naive_solver.
  - eapply keys_distinct; [..|by eapply lb_listener_keys]; [apply lb_protocols_plain|].
    unfold lb_protocols, k8s_protocols. destruct (annotation svc _); [naive_solver|].
    repeat (setoid_rewrite elem_of_cons || setoid_rewrite elem_of_nil); naive_solver.
Qed.

(** C5: Every listener of a specification is one of a port of the service and of an IP
    family and refers to a backend set of the specification, with two exceptions: a listener
    of a family that the service has no addresses of, and a listener of a port number that
    several ports of the service share; on a network load balancer the latter only if it is
    an IPv6 listener and the service has IPv4 addresses as well.  This is for ports with the
    protocols of Kubernetes and the IP versions that the code chose, for whatever families
    and subnets. *)
Theorem spec_listeners_backed lbSubnets nodeSubnets prefixEnv sys site svc nodes subnets ssl factory
    iv tags existing compartment s :
  Forall (λ sp, port_Protocol sp ∈ k8s_protocols) (svc_Ports svc) →
  getOciIpVersions lbSubnets nodeSubnets svc = Ret iv →
  NewLBSpec prefixEnv sys site svc nodes subnets ssl factory iv tags existing compartment = Ret s →
  backed svc (spec_Listeners s) (spec_BackendSets s).
Proof.
  intros Hproto Hiv Hs. apply NewLBSpec_inv in Hs as (_ & Hls & (preserve & Hsets) & _).
  apply getOciIpVersions_inv in Hiv as (_ & vers & _ & _ & _ & _ & Hiv).
  eapply listeners_are_backed; [done| |done..]. intros Ht. rewrite Hiv.
  rewrite decide_True; [by left|]. unfold getLoadBalancerType in *. case_decide as Hor; [|done]. by destruct Hor.
Qed.
End facts.

(** ** The properties at concrete inputs *)

Definition example_node (name ip v6 : string) : Node := {|
  node_Name := name; node_Labels := ∅; node_Annotations := ∅; node_ProviderID := "oci://" +:+ name;
  node_Addresses := [{| addr_Type := NodeInternalIPType; addr_Address := ip |};
                     {| addr_Type := NodeExternalIPType; addr_Address := v6 |}];
  node_Conditions := [] |}.

Definition example_nodes : list Node :=
  [example_node "a" "10.0.1.2" "fd00::2"; example_node "b" "10.0.1.3" ""].

Definition nlb_svc (families : list string) (ports : list ServicePort) : Service := {|
  svc_Namespace := "default"; svc_Name := "svc"; svc_UID := "uid";
  svc_Annotations := {[ServiceAnnotationLoadBalancerType := "nlb"]};
  svc_DeletionTimestamp := None; svc_Type := ServiceTypeLoadBalancer; svc_Ports := ports;
  svc_SessionAffinity := ServiceAffinityNone;
  svc_ExternalTrafficPolicy := ServiceExternalTrafficPolicyCluster;
  svc_HealthCheckNodePort := 0; svc_LoadBalancerIP := ""; svc_IPFamilies := families;
  svc_IPFamilyPolicy := Some IPFamilyPolicyPreferDualStack |}.

(** IP versions and specification of a service on dual-stack subnets. *)
Definition example_spec (svc : Service) : outcome (LBSpec (RS := ())) :=
  let _ := example_parsers in
  let _ := list_range in
  let subnets := [Some (family_subnet (Some "10.0.0.0/24") (Some "fd00::/64"))] in
  iv ← getOciIpVersions subnets subnets svc;
  NewLBSpec "" false 0 svc example_nodes ["subnet"] None
    (λ mode, securityListManagerNOOP) iv None None "compartment".

(** The default backend set of a listener of a specification, and whether it exists. *)
Definition default_set (s : outcome (LBSpec (RS := ()))) (listener : string) : option (string * bool) :=
  match s with
  | Ret s => name ← spec_Listeners s !! listener ≫= ln_DefaultBackendSetName;
             mret (name, bool_decide (is_Some (spec_BackendSets s !! name)))
  | _ => None
  end.

(** Both exceptions happen.  The IPv6 listener of a dual-stack service with TCP and UDP on
    one port refers to a backend set that the specification does not have, and so does the
    IPv6 listener of a service that prefers dual stack but has only an IPv4 family, on
    dual-stack subnets. *)
Lemma unbacked_listeners :
  (let s := example_spec (nlb_svc [IPv4; IPv6] [example_port "TCP" 80 30080; example_port "UDP" 80 30081]) in
   default_set s "TCP_AND_UDP-80" = Some ("TCP_AND_UDP-80", true) ∧
   default_set s "TCP_AND_UDP-80-IPv6" = Some ("TCP_AND_UDP-80-IPv6", false)) ∧
  (let s := example_spec (nlb_svc [IPv4] [example_port "TCP" 80 30080]) in
   default_set s "TCP-80" = Some ("TCP-80", true) ∧
   default_set s "TCP-80-IPv6" = Some ("TCP-80-IPv6", false)).
Proof. by vm_compute. Qed.

Definition example_nlb : Service :=
  nlb_svc [IPv4; IPv6] [example_port "TCP" 80 30080; example_port "UDP" 53 30053].

Definition dual_versions : IpVersions := {|
  iv_IpFamilyPolicy := IPFamilyPolicyPreferDualStack; iv_IpFamilies := [IPv4; IPv6];
  iv_LbEndpointIpVersion := Some GenericIPv4AndIPv6;
  iv_ListenerBackendIpVersion := [GenericIPv4; GenericIPv6] |}.

Lemma is_ret_inv {A} (o : outcome A) : is_ret o = true → ∃ a, o = Ret a.
Proof. destruct o; [by eexists|done..]. Qed.

Lemma spec_listeners_backed_witness :
  let _ := example_parsers in
  let _ := list_range in
  let subnets := [Some (family_subnet (Some "10.0.0.0/24") (Some "fd00::/64"))] in
  ∃ s, NewLBSpec "" false 0 example_nlb example_nodes ["subnet"] None
         (λ mode, securityListManagerNOOP) dual_versions None None "compartment" = Ret s ∧
       backed example_nlb (spec_Listeners s) (spec_BackendSets s).
Proof.
  intros P R subnets.
  destruct (is_ret_inv (NewLBSpec "" false 0 example_nlb example_nodes ["subnet"] None
    (λ mode, securityListManagerNOOP) dual_versions None None "compartment")) as [s E]; [by vm_compute|].
  exists s. split; [exact E|].
  refine (spec_listeners_backed subnets subnets _ _ _ example_nlb _ _ _ _ _ _ _ _ s _ _ E).
  - by repeat constructor.
  - by vm_compute.
Defined.

Lemma ports_match_backend_sets_witness :
  let _ := example_parsers in
  let _ := list_range in
  ∃ sets ports,
    getBackendSets 0 example_nlb example_nodes None true [IPv4; IPv6] = Ret sets ∧
    getPorts 1 example_nlb [IPv4; IPv6] = Ret ports ∧ dom sets = dom ports.
Proof.
  intros P R.
  destruct (is_ret_inv (getBackendSets 0 example_nlb example_nodes None true [IPv4; IPv6])) as [sets Es];
    [by vm_compute|].
  destruct (is_ret_inv (getPorts 1 example_nlb [IPv4; IPv6])) as [ports Ep]; [by vm_compute|].
  exists sets, ports. split_and!; [exact Es|exact Ep|].
  refine (proj1 (ports_match_backend_sets 0 1 example_nlb example_nodes None true [IPv4; IPv6] sets ports Es Ep)).
Defined.
