(* ===== verification/LoadBalancer.v ===== *)
(** * Updating a load balancer (load_balancer.go)

    [updateLoadBalancer] compares the load balancer with its specification and
    performs the actions on the load balancing service, with the security rules
    they need.  The services are classes over a state [W] of the world. *)
From stdpp Require Import base tactics list gmap sets strings.
From S2P Require Import Prelude GoStrings Types Annotations Names Diff Actions SecurityLists SecurityListManager Spec IpVersions.

(** ** The services *)

Record GenericUpdateLoadBalancerShapeDetails := {
  usd_ShapeName : option string;
  usd_ShapeDetails : option GenericShapeDetails;
}.

Record GenericUpdateLoadBalancerDetails := {
  uld_IpVersion : option string;
  uld_FreeformTags : gmap string string;
  uld_DefinedTags : gmap string (gmap string string);
}.

(** The calls of [client.GenericLoadBalancerInterface] that change a load
    balancer: each answers the id of a work request. *)
Class LbClient (W RS : Type) := {
  CreateBackendSet : string → string → GenericBackendSetDetails → M W string;
  UpdateBackendSet : string → string → GenericBackendSetDetails → M W string;
  DeleteBackendSet : string → string → M W string;
  CreateListener : string → string → GenericListener → M W string;
  UpdateListener : string → string → GenericListener → M W string;
  DeleteListener : string → string → M W string;
  CreateRuleSet : string → string → RS → M W string;
  UpdateRuleSet : string → string → RS → M W string;
  DeleteRuleSet : string → string → M W string;
  UpdateLoadBalancerShape : string → GenericUpdateLoadBalancerShapeDetails → M W string;
  UpdateNetworkSecurityGroups : string → list string → M W string;
  UpdateLoadBalancer_call : string → GenericUpdateLoadBalancerDetails → M W string;
  AwaitWorkRequest : string → M W GenericWorkRequest;
}.

(** [core.Vnic], the fields the code reads. *)
Record Vnic := {
  vnic_PrivateIp : option string;
  vnic_Ipv6Addresses : list string;
  vnic_SubnetId : option string;
}.

(** The networking and compute calls that find subnets. *)
Class SubnetClient (W : Type) := {
  GetSubnet : string → M W Subnet;
  GetSubnetFromCacheByIP : IpAddresses → M W (option Subnet);
  GetPrimaryVNICForInstance : string → string → M W (option Vnic);
}.

Section load_balancer.
Context {W RS : Type} `{!LbClient W RS, !SubnetClient W, !SecurityListClient W}.
Context `{!Parsers RS, !MapRange, !EqDecision RS}.

(** [_, err = AwaitWorkRequest(ctx, id)]. *)
Definition await (workRequestID : string) : M W () := _ ← AwaitWorkRequest workRequestID; mret ().

(** ** Subnets *)

Definition getSubnets (subnetIDs : list string) : M W (list Subnet) := mapM GetSubnet subnetIDs.

(** The internal address of a node; its IPv6 address may be the external one. *)
Definition node_ip (node : Node) : IpAddresses :=
  let ip := NodeInternalIP node in
  if decide (V6 ip = "") then {| V4 := V4 ip; V6 := V6 (NodeExternalIp node) |} else ip.

Definition vnic_ip (vnic : Vnic) : IpAddresses :=
  {| V4 := default "" (vnic_PrivateIp vnic); V6 := default "" (head (vnic_Ipv6Addresses vnic)) |}.

(** A subnet is added once; the ids of the subnets found are the set [subnetOCIDs]. *)
Definition add_subnet (st : gset string * list Subnet) (id : string) (subnet : Subnet)
    : gset string * list Subnet :=
  if decide (id ∈ st.1) then st else ({[id]} ∪ st.1, st.2 ++ [subnet]).

(** One turn of the loop of [getSubnetsForNodes]. *)
Definition node_subnet (ipSet : list IpAddresses) (st : gset string * list Subnet) (node : Node)
    : M W (gset string * list Subnet) :=
  cached ← GetSubnetFromCacheByIP (node_ip node);
  match cached with
  | Some subnet => mret (add_subnet st (subnet_Id subnet) subnet)
  | None =>
      if decide (node_ProviderID node = "")
      then fail (Errorf ".spec.providerID was not present on node %q" [node_Name node])
      else
        id ← wrapM (lift (MapProviderIDToResourceID (node_ProviderID node))) "MapProviderIDToResourceID" [];
        match node_Annotations node !! CompartmentIDAnnotation with
        | None => fail (Errorf "%q annotation not present on node %q" [CompartmentIDAnnotation; node_Name node])
        | Some compartmentID =>
            vnic ← GetPrimaryVNICForInstance compartmentID id;
            match vnic with
            | None => mret st
            | Some vnic =>
                if decide (vnic_ip vnic ≠ {| V4 := ""; V6 := "" |} ∧ vnic_ip vnic ∈ ipSet) then
                  subnetId ← lift (deref (vnic_SubnetId vnic));
                  if decide (subnetId ∈ st.1) then mret st
                  else
                    subnet ← wrapM (GetSubnet subnetId) "get subnet %q for instance %q" [subnetId; id];
                    mret (add_subnet st subnetId subnet)
                else mret st
            end
        end
  end.

Definition getSubnetsForNodes (nodes : list Node) : M W (list Subnet) :=
  st ← foldM (node_subnet (node_ip <$> nodes)) (∅, []) nodes;
  mret st.2.

(** ** Security rules of an action *)

(** The components of the security rules of one action. *)
Definition action_components (spec : LBSpec (RS := RS)) (lbSubnets nodeSubnets : list Subnet)
    (sourceCIDRs : list string) (actualPorts : option portSpec) (desiredPorts : portSpec)
    (isPreserveSource : bool) : securityRuleComponents := {|
  sc_frontendNsgOcid := ""; sc_backendNsgOcids := []; sc_ports := ∅; sc_sourceCIDRs := sourceCIDRs;
  sc_isPreserveSource := isPreserveSource; sc_serviceUid := ""; sc_lbSubnets := lbSubnets;
  sc_backendSubnets := nodeSubnets; sc_actualPorts := actualPorts; sc_desiredPorts := desiredPorts;
  sc_ipFamilies := convertOciIpVersionsToOciIpFamilies (iv_ListenerBackendIpVersion (spec_IpVersions spec)) |}.

(** The lock [updateRulesMutex] is held around the loop. *)
Definition updateSecurityListsInCriticalSection (site : nat) (spec : LBSpec (RS := RS))
    (lbSubnets nodeSubnets : list Subnet) : M W () :=
  forM (range site (spec_Ports spec)) (λ '(_, ports),
    isPreserveSource ← lift (deref (spec_IsPreserveSource spec));
    manager_Update (spec_securityListManager spec)
      (action_components spec lbSubnets nodeSubnets (spec_SourceCIDRs spec) None ports isPreserveSource)).

(** ** Actions *)

Definition updateBackendSet (lbID : string) (action : BackendSetAction)
    (lbSubnets nodeSubnets : list Subnet) (secListManager : securityListManager)
    (spec : LBSpec (RS := RS)) : M W () :=
  isPreserveSource ← lift (deref (spec_IsPreserveSource spec));
  let sc := action_components spec lbSubnets nodeSubnets [] None (bsa_Ports action) isPreserveSource in
  workRequestID ←
    match bsa_actionType action with
    | Create =>
        _ ← manager_Update secListManager sc;
        CreateBackendSet lbID (bsa_name action) (bsa_BackendSet action)
    | Update =>
        _ ← manager_Update secListManager
              (action_components spec lbSubnets nodeSubnets (spec_SourceCIDRs spec)
                 (bsa_OldPorts action) (bsa_Ports action) isPreserveSource);
        UpdateBackendSet lbID (bsa_name action) (bsa_BackendSet action)
    | Delete =>
        _ ← manager_Delete secListManager sc;
        DeleteBackendSet lbID (bsa_name action)
    | OtherAction _ => mret ""
    end;
  await workRequestID.

Definition updateListener (lbID : string) (action : ListenerAction) (ports : portSpec)
    (lbSubnets nodeSubnets : list Subnet) (sourceCIDRs : list string)
    (secListManager : securityListManager) (spec : LBSpec (RS := RS)) : M W () :=
  listenerPort ← lift (deref (ln_Port (la_Listener action)));
  let ports := {| ListenerPort := listenerPort; BackendPort := BackendPort ports;
                  HealthCheckerPort := HealthCheckerPort ports |} in
  isPreserveSource ← lift (deref (spec_IsPreserveSource spec));
  let sc := action_components spec lbSubnets nodeSubnets sourceCIDRs None ports isPreserveSource in
  workRequestID ←
    match la_actionType action with
    | Create => _ ← manager_Update secListManager sc;
                CreateListener lbID (la_name action) (la_Listener action)
    | Update => _ ← manager_Update secListManager sc;
                UpdateListener lbID (la_name action) (la_Listener action)
    | Delete => _ ← manager_Delete secListManager sc; DeleteListener lbID (la_name action)
    | OtherAction _ => mret ""
    end;
  await workRequestID.

Definition updateRuleSet (lbID : string) (action : RuleSetAction RS) : M W () :=
  workRequestID ←
    match rsa_actionType action with
    | Create => CreateRuleSet lbID (rsa_name action) (rsa_RuleSetDetails action)
    | Update => UpdateRuleSet lbID (rsa_name action) (rsa_RuleSetDetails action)
    | Delete => DeleteRuleSet lbID (rsa_name action)
    | OtherAction _ => mret ""
    end;
  await workRequestID.

(** [lb.BackendSets[name]] of a name that is not there. *)
Definition zero_backend_set : GenericBackendSetDetails := {|
  bs_Name := None; bs_HealthChecker := None; bs_Policy := None; bs_Backends := [];
  bs_SessionPersistenceConfiguration := None; bs_SslConfiguration := None;
  bs_IsPreserveSource := None; bs_IpVersion := None |}.

(** The body of the loop over the actions. *)
Definition apply_action (lb : GenericLoadBalancer RS) (spec : LBSpec (RS := RS)) (lbID : string)
    (lbSubnets nodeSubnets : list Subnet) (action : Action RS) : M W () :=
  match action with
  | ActBackendSet a =>
      wrapM (updateBackendSet lbID a lbSubnets nodeSubnets (spec_securityListManager spec) spec)
        "updating BackendSet" []
  | ActListener a =>
      backendSetName ← lift (deref (ln_DefaultBackendSetName (la_Listener a)));
      ports ← lift (if decide (la_actionType a = Delete)
                    then portsFromBackendSet (default zero_backend_set (lb_BackendSets lb !! backendSetName))
                    else mret (default portSpec_zero (spec_Ports spec !! backendSetName)));
      wrapM (updateListener lbID a ports lbSubnets nodeSubnets (spec_SourceCIDRs spec)
               (spec_securityListManager spec) spec) "updating listener" []
  | ActRuleSet a => wrapM (updateRuleSet lbID a) "updating RuleSet" []
  end.

(** ** Settings of the load balancer *)

Definition updateLoadbalancerShape (lb : GenericLoadBalancer RS) (spec : LBSpec (RS := RS)) : M W () :=
  shapeName ← lift (deref (lb_ShapeName lb));
  if decide (shapeName = flexible ∧ spec_Shape spec ≠ flexible)
  then fail (Errorf ("cannot convert LB shape from flexible to fixed shape " +:+ spec_Shape spec) [])
  else
    let shapeDetails := {|
      usd_ShapeName := Some (spec_Shape spec);
      usd_ShapeDetails := if decide (spec_Shape spec = flexible)
        then Some {| sd_MinimumBandwidthInMbps := spec_FlexMin spec;
                     sd_MaximumBandwidthInMbps := spec_FlexMax spec |}
        else None |} in
    id ← lift (deref (lb_Id lb));
    wrID ← wrapM (UpdateLoadBalancerShape id shapeDetails) "failed to create UpdateLoadBalancerShape request" [];
    await wrID.

Definition updateLoadBalancerNetworkSecurityGroups (lb : GenericLoadBalancer RS) (spec : LBSpec (RS := RS))
    : M W () :=
  id ← lift (deref (lb_Id lb));
  wrID ← wrapM (UpdateNetworkSecurityGroups id (spec_NetworkSecurityGroupIds spec))
           "failed to create UpdateNetworkSecurityGroups request" [];
  wrapM (await wrID) "failed to await UpdateNetworkSecurityGroups workrequest" [].

Definition updateLoadBalancerIpVersion (lb : GenericLoadBalancer RS)
    (details : GenericUpdateLoadBalancerDetails) : M W () :=
  id ← lift (deref (lb_Id lb));
  wrID ← wrapM (UpdateLoadBalancer_call id details) "failed to create UpdateLoadBalancer request" [];
  wrapM (await wrID) "failed to await UpdateLoadBalancer workrequest" [].

Definition doesLbHaveOkeSystemTags (lb : GenericLoadBalancer RS) (spec : LBSpec (RS := RS)) : bool :=
  match lb_SystemTags lb, spec_SystemTags spec with
  | Some lbTags, Some specTags =>
      match lbTags !! OkeSystemTagNamesapce with
      | Some okeSystemTag => bool_decide (Some okeSystemTag = specTags !! OkeSystemTagNamesapce)
      | None => false
      end
  | _, _ => false
  end.

Definition MaxDefinedTagPerResource : nat := 64.

Definition addLoadBalancerOkeSystemTags (lb : GenericLoadBalancer RS) (spec : LBSpec (RS := RS)) : M W () :=
  if decide (is_Some (annotation (spec_service spec) ServiceAnnotationServiceAccountName))
  then fail (Errorf "principal type is workload identity. skip addition of oke system tags." [])
  else match spec_SystemTags spec with
  | None => fail (Errorf "oke system tag is not found in LB spec. ignoring.." [])
  | Some tags =>
      match tags !! OkeSystemTagNamesapce with
      | None => fail (Errorf "oke system tag namespace is not found in LB spec" [])
      | Some tag =>
          let lbDefinedTagsRequest := <[OkeSystemTagNamesapce := tag]> (lb_DefinedTags lb) in
          if decide (MaxDefinedTagPerResource < size lbDefinedTagsRequest)
          then fail (Errorf "max limit of defined tags for %s is reached. skip adding tags. sending metric"
                       [spec_Type spec])
          else
            id ← lift (deref (lb_Id lb));
            wrID ← wrapM (UpdateLoadBalancer_call id
                     {| uld_IpVersion := None; uld_FreeformTags := lb_FreeformTags lb;
                        uld_DefinedTags := lbDefinedTagsRequest |}) "UpdateLoadBalancer request failed" [];
            wrapM (await wrID) "failed to await updateloadbalancer work request" []
      end
  end.

(** The first public reserved address. *)
Fixpoint public_reserved_ip (ips : list GenericIpAddress) : outcome (option string) :=
  match ips with
  | [] => Ret None
  | ip :: rest =>
      match ip_IpAddress ip, ip_ReservedIp ip with
      | None, _ => public_reserved_ip rest
      | Some _, None => public_reserved_ip rest
      | Some address, Some _ =>
          isPublic ← deref (ip_IsPublic ip);
          if (isPublic : bool) then mret (Some address) else public_reserved_ip rest
      end
  end.

(** The change of the endpoint's IP version, for the given policies. *)
Definition change_ip_version (lb : GenericLoadBalancer RS) (spec : LBSpec (RS := RS))
    (policies : list string) : M W () :=
  match iv_LbEndpointIpVersion (spec_IpVersions spec) with
  | Some lbEndpointVersion =>
      if decide (spec_Type spec = NLB) then
        ipVersion ← lift (deref (lb_IpVersion lb));
        if decide (hasIpVersionChanged ipVersion lbEndpointVersion = true ∧
                   iv_IpFamilyPolicy (spec_IpVersions spec) ∈ policies)
        then updateLoadBalancerIpVersion lb
               {| uld_IpVersion := Some lbEndpointVersion; uld_FreeformTags := ∅; uld_DefinedTags := ∅ |}
        else mret ()
      else mret ()
  | None => mret ()
  end.

(** ** The update *)

(** The actions on backend sets, listeners and rule sets, in order. *)
Definition update_actions (site : nat) (lb : GenericLoadBalancer RS) (spec : LBSpec (RS := RS))
    (backendSetActions : list BackendSetAction) : list (Action RS) :=
  sortAndCombineActions (ActBackendSet <$> backendSetActions)
    (ActListener <$> getListenerChanges (4 + site) (lb_Listeners lb) (spec_Listeners spec) (spec_RuleSets spec))
    (ActRuleSet <$> match spec_RuleSets spec with
                    | Some ruleSets => getRuleSetChanges site (lb_RuleSets lb) ruleSets
                    | None => []
                    end).

(** [enableOkeSystemTags] is a setting of the process; an error adding system tags
    is reported and ignored. *)
Definition updateLoadBalancer (enableOkeSystemTags : bool) (site : nat) (lb : GenericLoadBalancer RS)
    (spec : LBSpec (RS := RS)) : M W () :=
  lbID ← lift (deref (lb_Id lb));
  actualPublicReservedIP ← lift (public_reserved_ip (lb_IpAddresses lb));
  lbSubnets ← wrapM (getSubnets (spec_Subnets spec)) "getting load balancer subnets" [];
  nodeSubnets ← wrapM (getSubnetsForNodes (spec_nodes spec)) "get subnets for nodes" [];
  _ ← change_ip_version lb spec [IPFamilyPolicyPreferDualStack; IPFamilyPolicyRequireDualStack];
  backendSetActions ← lift (getBackendSetChanges (2 + site) (lb_BackendSets lb) (spec_BackendSets spec));
  let listenerActions :=
    getListenerChanges (4 + site) (lb_Listeners lb) (spec_Listeners spec) (spec_RuleSets spec) in
  _ ← (if decide (length backendSetActions = 0 ∧ length listenerActions = 0)
       then updateSecurityListsInCriticalSection (7 + site) spec lbSubnets nodeSubnets else mret ());
  _ ← forM (update_actions site lb spec backendSetActions)
        (apply_action lb spec lbID lbSubnets nodeSubnets);
  _ ← (if hasLoadBalancerNetworkSecurityGroupsChanged (default [] (lb_NetworkSecurityGroupIds lb))
            (spec_NetworkSecurityGroupIds spec)
       then updateLoadBalancerNetworkSecurityGroups lb spec else mret ());
  _ ← (if decide (spec_Type spec = LB) then
         shapeChanged ← lift (hasLoadbalancerShapeChanged (spec_Shape spec) (spec_FlexMin spec) (spec_FlexMax spec) lb);
         if (shapeChanged : bool) then updateLoadbalancerShape lb spec else mret ()
       else mret ());
  _ ← change_ip_version lb spec [IPFamilyPolicySingleStack];
  _ ← (if decide ((spec_LoadBalancerIP spec ≠ "" ∨ is_Some actualPublicReservedIP) ∧
                  actualPublicReservedIP ≠ Some (spec_LoadBalancerIP spec))
       then fail (Errorf "The Load Balancer service reserved IP cannot be updated after the Load Balancer is created." [])
       else mret ());
  if enableOkeSystemTags && negb (doesLbHaveOkeSystemTags lb spec)
  then _ ← try (addLoadBalancerOkeSystemTags lb spec); mret ()
  else mret ().

(** Only updates of backend sets. *)
Definition updateLoadBalancerBackends (site : nat) (lb : GenericLoadBalancer RS)
    (spec : LBSpec (RS := RS)) : M W () :=
  lbID ← lift (deref (lb_Id lb));
  lbSubnets ← wrapM (getSubnets (spec_Subnets spec)) "getting load balancer subnets" [];
  nodeSubnets ← wrapM (getSubnetsForNodes (spec_nodes spec)) "get subnets for nodes" [];
  backendSetActions ← lift (getBackendSetChanges site (lb_BackendSets lb) (spec_BackendSets spec));
  forM backendSetActions (λ a,
    if decide (bsa_actionType a = Update)
    then wrapM (updateBackendSet lbID a lbSubnets nodeSubnets (spec_securityListManager spec) spec)
           "updating BackendSet" []
    else mret ()).
End load_balancer.
