(* ===== verification/LoadBalancerFacts.v ===== *)
(** * A load balancer reaches its specification

    What the update relies on from the load balancing service ([LbLaws]), and the
    theorem that a successful update leaves the load balancer as the
    specification says.  [memory_lb_laws] is a service in memory with the laws. *)
From stdpp Require Import base tactics list gmap sets strings.
From S2P Require Import Prelude GoStrings GoSort Types Annotations Names Diff Actions SecurityLists SecurityListManager Spec IpVersions SpecFacts LoadBalancer.

(** ** The configuration of a load balancer *)

(** What the service shows of a load balancer. *)
Record LbView {RS : Type} := {
  v_BackendSets : gmap string GenericBackendSetDetails;
  v_Listeners : gmap string GenericListener;
  v_RuleSets : gmap string RS;
  v_Nsgs : list string;
  v_ShapeName : option string;
  v_ShapeDetails : option GenericShapeDetails;
  v_IpVersion : option string;
}.
Arguments LbView : clear implicits.

Section view.
Context {RS : Type}.

Definition with_backend_set (v : LbView RS) (n : string) (o : option GenericBackendSetDetails) : LbView RS := {|
  v_BackendSets := partial_alter (λ _, o) n (v_BackendSets v); v_Listeners := v_Listeners v;
  v_RuleSets := v_RuleSets v; v_Nsgs := v_Nsgs v; v_ShapeName := v_ShapeName v;
  v_ShapeDetails := v_ShapeDetails v; v_IpVersion := v_IpVersion v |}.
Definition with_listener (v : LbView RS) (n : string) (o : option GenericListener) : LbView RS := {|
  v_BackendSets := v_BackendSets v; v_Listeners := partial_alter (λ _, o) n (v_Listeners v);
  v_RuleSets := v_RuleSets v; v_Nsgs := v_Nsgs v; v_ShapeName := v_ShapeName v;
  v_ShapeDetails := v_ShapeDetails v; v_IpVersion := v_IpVersion v |}.
Definition with_rule_set (v : LbView RS) (n : string) (o : option RS) : LbView RS := {|
  v_BackendSets := v_BackendSets v; v_Listeners := v_Listeners v;
  v_RuleSets := partial_alter (λ _, o) n (v_RuleSets v); v_Nsgs := v_Nsgs v;
  v_ShapeName := v_ShapeName v; v_ShapeDetails := v_ShapeDetails v; v_IpVersion := v_IpVersion v |}.
Definition with_nsgs (v : LbView RS) (nsgs : list string) : LbView RS := {|
  v_BackendSets := v_BackendSets v; v_Listeners := v_Listeners v; v_RuleSets := v_RuleSets v;
  v_Nsgs := nsgs; v_ShapeName := v_ShapeName v; v_ShapeDetails := v_ShapeDetails v;
  v_IpVersion := v_IpVersion v |}.
Definition with_shape (v : LbView RS) (name : option string) (details : option GenericShapeDetails)
    : LbView RS := {|
  v_BackendSets := v_BackendSets v; v_Listeners := v_Listeners v; v_RuleSets := v_RuleSets v;
  v_Nsgs := v_Nsgs v; v_ShapeName := name; v_ShapeDetails := details; v_IpVersion := v_IpVersion v |}.
Definition with_ip_version (v : LbView RS) (ver : string) : LbView RS := {|
  v_BackendSets := v_BackendSets v; v_Listeners := v_Listeners v; v_RuleSets := v_RuleSets v;
  v_Nsgs := v_Nsgs v; v_ShapeName := v_ShapeName v; v_ShapeDetails := v_ShapeDetails v;
  v_IpVersion := Some ver |}.

(** The configuration a [GenericLoadBalancer] read from the service shows. *)
Definition view_of (lb : GenericLoadBalancer RS) : LbView RS := {|
  v_BackendSets := lb_BackendSets lb; v_Listeners := lb_Listeners lb; v_RuleSets := lb_RuleSets lb;
  v_Nsgs := default [] (lb_NetworkSecurityGroupIds lb); v_ShapeName := lb_ShapeName lb;
  v_ShapeDetails := lb_ShapeDetails lb; v_IpVersion := lb_IpVersion lb |}.
End view.

(** ** What the update relies on *)

(** [lb_view w id] is what the service shows of the load balancer [id].  A request
    whose work request succeeds has its effect and no other, as [lb_storage] says;
    only load balancers have rule sets and a shape, only the endpoint of a network load
    balancer can change its IP version.  A request that sets no IP version changes
    nothing of the configuration, whatever its outcome; the networking and compute
    calls do not touch load balancers. *)
Class LbLaws (W RS : Type) `{!LbClient W RS, !SubnetClient W, !SecurityListClient W} := {
  lb_storage : Storage;
  lb_view : W → string → LbView RS;
  stored_set_ok : ∀ n b, backend_set_ok b →
    backend_set_ok (st_backend_set lb_storage n b) ∧ bs_Name (st_backend_set lb_storage n b) = Some n;
  stored_shape : ∀ d, st_type lb_storage = LB → st_shape lb_storage (Some d) = Some d;
  stored_ip_version : ∀ ver, ver ∈ generic_versions → EqualFold (st_ip_version lb_storage ver) ver = true;
  CreateBackendSet_law : ∀ id n b w wr w1 w2,
    CreateBackendSet id n b w = (Ret wr, w1) → await wr w1 = (Ret (), w2) →
    lb_view w2 id = with_backend_set (lb_view w id) n (Some (st_backend_set lb_storage n b));
  UpdateBackendSet_law : ∀ id n b w wr w1 w2,
    UpdateBackendSet id n b w = (Ret wr, w1) → await wr w1 = (Ret (), w2) →
    lb_view w2 id = with_backend_set (lb_view w id) n (Some (st_backend_set lb_storage n b));
  DeleteBackendSet_law : ∀ id n w wr w1 w2,
    DeleteBackendSet id n w = (Ret wr, w1) → await wr w1 = (Ret (), w2) →
    lb_view w2 id = with_backend_set (lb_view w id) n None;
  CreateListener_law : ∀ id n l w wr w1 w2,
    CreateListener id n l w = (Ret wr, w1) → await wr w1 = (Ret (), w2) →
    lb_view w2 id = with_listener (lb_view w id) n (Some (st_created_listener lb_storage n l));
  UpdateListener_law : ∀ id n l w wr w1 w2,
    UpdateListener id n l w = (Ret wr, w1) → await wr w1 = (Ret (), w2) →
    lb_view w2 id = with_listener (lb_view w id) n (Some (st_updated_listener lb_storage n l));
  DeleteListener_law : ∀ id n w wr w1 w2,
    DeleteListener id n w = (Ret wr, w1) → await wr w1 = (Ret (), w2) →
    lb_view w2 id = with_listener (lb_view w id) n None;
  CreateRuleSet_law : ∀ id n r w wr w1 w2, st_type lb_storage = LB →
    CreateRuleSet id n r w = (Ret wr, w1) → await wr w1 = (Ret (), w2) →
    lb_view w2 id = with_rule_set (lb_view w id) n (Some r);
  UpdateRuleSet_law : ∀ id n r w wr w1 w2, st_type lb_storage = LB →
    UpdateRuleSet id n r w = (Ret wr, w1) → await wr w1 = (Ret (), w2) →
    lb_view w2 id = with_rule_set (lb_view w id) n (Some r);
  DeleteRuleSet_law : ∀ id n w wr w1 w2, st_type lb_storage = LB →
    DeleteRuleSet id n w = (Ret wr, w1) → await wr w1 = (Ret (), w2) →
    lb_view w2 id = with_rule_set (lb_view w id) n None;
  UpdateNsgs_law : ∀ id nsgs w wr w1 w2,
    UpdateNetworkSecurityGroups id nsgs w = (Ret wr, w1) → await wr w1 = (Ret (), w2) →
    lb_view w2 id = with_nsgs (lb_view w id) nsgs;
  UpdateShape_law : ∀ id d w wr w1 w2, st_type lb_storage = LB →
    UpdateLoadBalancerShape id d w = (Ret wr, w1) → await wr w1 = (Ret (), w2) →
    lb_view w2 id = with_shape (lb_view w id) (usd_ShapeName d) (st_shape lb_storage (usd_ShapeDetails d));
  UpdateDetails_law : ∀ id d ver w wr w1 w2, st_type lb_storage = NLB →
    uld_IpVersion d = Some ver → ver ∈ generic_versions →
    UpdateLoadBalancer_call id d w = (Ret wr, w1) → await wr w1 = (Ret (), w2) →
    lb_view w2 id = with_ip_version (lb_view w id) (st_ip_version lb_storage ver);
  UpdateTags_law : ∀ id d w o w1,
    uld_IpVersion d = None → UpdateLoadBalancer_call id d w = (o, w1) →
    lb_view w1 id = lb_view w id ∧
    ∀ wr o' w2, o = Ret wr → await wr w1 = (o', w2) → lb_view w2 id = lb_view w id;
  GetSubnet_frame : ∀ s w o w' id, GetSubnet s w = (o, w') → lb_view w' id = lb_view w id;
  GetSubnetFromCache_frame : ∀ ip w o w' id,
    GetSubnetFromCacheByIP ip w = (o, w') → lb_view w' id = lb_view w id;
  GetPrimaryVNIC_frame : ∀ c i w o w' id,
    GetPrimaryVNICForInstance c i w = (o, w') → lb_view w' id = lb_view w id;
  GetSecurityList_frame : ∀ s w o w' id,
    GetSecurityList s w = (o, w') → lb_view w' id = lb_view w id;
  UpdateSecurityList_frame : ∀ s e i g w o w' id,
    UpdateSecurityList s e i g w = (o, w') → lb_view w' id = lb_view w id;
}.

Section facts.
Context {W RS : Type} `{!LbClient W RS, !SubnetClient W, !SecurityListClient W}.
Context `{!LbLaws W RS, !Parsers RS, !MapRange, !EqDecision RS}.
Context (id : string).

(** ** Computations that do not touch the load balancer *)

Abbreviation keeps := (frames (λ w w', lb_view w' id = lb_view w id)).

Local Instance view_kept_preorder : PreOrder (λ w w', lb_view w' id = lb_view w id).
Proof. split; [by intros w|by intros w1 w2 w3 H1 H2; rewrite H2, H1]. Qed.

Lemma getSubnets_keeps ids : keeps (getSubnets ids).
Proof. unfold getSubnets. frames. intros ???. apply GetSubnet_frame. Qed.

Lemma getSubnetsForNodes_keeps nodes : keeps (getSubnetsForNodes nodes).
Proof.
  unfold getSubnetsForNodes, node_subnet. frames; intros ???.
  - apply GetSubnetFromCache_frame.
  - apply GetPrimaryVNIC_frame.
  - apply GetSubnet_frame.
Qed.

Lemma getSecurityList_keeps s subnet : keeps (getSecurityList s subnet).
Proof. unfold getSecurityList. frames; intros ???; apply GetSecurityList_frame. Qed.

Lemma updateLoadBalancerRules_frame s l1 l2 c a d f : keeps (updateLoadBalancerRules s l1 l2 c a d f).
Proof.
  unfold updateLoadBalancerRules. frames; [apply getSecurityList_keeps|].
  intros ???. apply UpdateSecurityList_frame.
Qed.

Lemma updateBackendRules_frame s l1 l2 a d c p f : keeps (updateBackendRules s l1 l2 a d c p f).
Proof.
  unfold updateBackendRules. frames; [apply getSecurityList_keeps|].
  intros ???. apply UpdateSecurityList_frame.
Qed.

Lemma manager_Update_keeps m sc : keeps (manager_Update m sc).
Proof.
  unfold manager_Update. frames; (apply updateLoadBalancerRules_frame || apply updateBackendRules_frame).
Qed.

Lemma manager_Delete_keeps m sc : keeps (manager_Delete m sc).
Proof.
  unfold manager_Delete. frames; (apply updateLoadBalancerRules_frame || apply updateBackendRules_frame).
Qed.

Lemma updateSecurityLists_keeps site spec l1 l2 :
  keeps (updateSecurityListsInCriticalSection (RS := RS) site spec l1 l2).
Proof.
  unfold updateSecurityListsInCriticalSection. frames. apply manager_Update_keeps.
Qed.

Lemma tags_request_keeps d f args g args' :
  uld_IpVersion d = None →
  keeps (wrID ← wrapM (UpdateLoadBalancer_call id d) f args; wrapM (await wrID) g args').
Proof.
  intros Hd w o w' Hr. unfold mbind, M_bind, wrapM in Hr.
  destruct (UpdateLoadBalancer_call id d w) as [o1 w1] eqn:E1.
  destruct (UpdateTags_law id d w o1 w1 Hd E1) as [H1 H2]. destruct o1 as [wr| |]; cbn in Hr.
  - destruct (await wr w1) as [o2 w2] eqn:E2. injection Hr as _ <-. by eapply H2.
  - by injection Hr as _ <-.
  - by injection Hr as _ <-.
Qed.

Lemma addLoadBalancerOkeSystemTags_keeps lb (spec : LBSpec (RS := RS)) :
  lb_Id lb = Some id → keeps (addLoadBalancerOkeSystemTags lb spec).
Proof.
  intros Hid. unfold addLoadBalancerOkeSystemTags. rewrite Hid.
  destruct (decide (is_Some _)); [frames|]. destruct (spec_SystemTags spec) as [tags|]; [|frames].
  destruct (tags !! OkeSystemTagNamesapce) as [tag|]; [|frames]. cbv zeta.
  destruct (decide (_ < _)); [frames|]. intros w o w' Hr. by eapply tags_request_keeps in Hr.
Qed.

(** ** The effect of the actions *)

(** A request and its work request, as a change of the configuration. *)
Definition sets (c : M W ()) (f : LbView RS → LbView RS) : Prop :=
  ∀ w w', c w = (Ret (), w') → lb_view w' id = f (lb_view w id).

Lemma sets_wrapM c f fmt args : sets c f → sets (wrapM c fmt args) f.
Proof. intros Hc w w' Hr%wrapM_Ret_inv. by apply Hc. Qed.

Lemma sets_bind {A} (c : M W A) k f : keeps c → (∀ a, sets (k a) f) → sets (c ≫= k) f.
Proof.
  intros Hc Hk w w' Hr. apply M_bind_Ret_inv in Hr as (a & w1 & Ha & Hr).
  rewrite (Hk a _ _ Hr). f_equal. by eapply Hc.
Qed.

Lemma sets_keeps c : keeps c → sets c (λ v, v).
Proof. intros Hc w w' Hr. by eapply Hc. Qed.

(** A request after computations that keep the load balancer. *)
Lemma sets_request {A} (c : M W A) (req : M W string) f :
  keeps c →
  (∀ w wr w1 w2, req w = (Ret wr, w1) → await wr w1 = (Ret (), w2) →
     lb_view w2 id = f (lb_view w id)) →
  sets (wr ← (_ ← c; req); await wr) f.
Proof.
  intros Hc Hreq w w' Hr. apply M_bind_Ret_inv in Hr as (wr & w2 & Hr & Ha).
  apply M_bind_Ret_inv in Hr as (a & w1 & Hr & Hq). rewrite (Hreq _ _ _ _ Hq Ha).
  f_equal. by eapply Hc.
Qed.

(** The effect of one action. *)
Definition lb_step (v : LbView RS) (a : Action RS) : LbView RS :=
  match a with
  | ActBackendSet a => with_backend_set v (bsa_name a) (backend_set_effect lb_storage a)
  | ActListener a => with_listener v (la_name a) (listener_effect lb_storage a)
  | ActRuleSet a => with_rule_set v (rsa_name a) (rule_set_effect a)
  end.

(** Actions the controller makes. *)
Definition known_type (a : Action RS) : Prop :=
  match action_Type a with OtherAction _ => False | _ => True end.

(** Actions the service can perform. *)
Definition possible (a : Action RS) : Prop :=
  known_type a ∧ match a with ActRuleSet _ => st_type lb_storage = LB | _ => True end.

Lemma updateBackendSet_sets a l1 l2 m (spec : LBSpec (RS := RS)) :
  known_type (ActBackendSet a) →
  sets (updateBackendSet id a l1 l2 m spec) (λ v, with_backend_set v (bsa_name a) (backend_set_effect lb_storage a)).
Proof.
  intros Hk. unfold updateBackendSet. apply sets_bind; [apply frames_lift, _|]. intros ps.
  unfold backend_set_effect, known_type in *. simpl in Hk.
  destruct (bsa_actionType a) eqn:E; [..|done];
    (apply sets_request; [apply manager_Update_keeps || apply manager_Delete_keeps|]); intros ????.
  - apply CreateBackendSet_law.
  - apply UpdateBackendSet_law.
  - apply DeleteBackendSet_law.
Qed.

Lemma updateListener_sets a p l1 l2 c m (spec : LBSpec (RS := RS)) :
  known_type (ActListener a) →
  sets (updateListener id a p l1 l2 c m spec) (λ v, with_listener v (la_name a) (listener_effect lb_storage a)).
Proof.
  intros Hk. unfold updateListener. apply sets_bind; [apply frames_lift, _|]. intros port.
  cbv zeta. apply sets_bind; [apply frames_lift, _|]. intros ps.
  unfold listener_effect, known_type in *. simpl in Hk.
  destruct (la_actionType a) eqn:E; [..|done];
    (apply sets_request; [apply manager_Update_keeps || apply manager_Delete_keeps|]); intros ????.
  - apply CreateListener_law.
  - apply UpdateListener_law.
  - apply DeleteListener_law.
Qed.

Lemma updateRuleSet_sets (a : RuleSetAction RS) :
  known_type (ActRuleSet a) → st_type lb_storage = LB →
  sets (updateRuleSet id a) (λ v, with_rule_set v (rsa_name a) (rule_set_effect a)).
Proof.
  intros Hk Ht w w' Hr. unfold updateRuleSet in Hr. apply M_bind_Ret_inv in Hr as (wr & w1 & Hq & Ha).
  unfold rule_set_effect, known_type in *. simpl in Hk. destruct (rsa_actionType a) eqn:E; [..|done].
  - by eapply CreateRuleSet_law.
  - by eapply UpdateRuleSet_law.
  - by eapply DeleteRuleSet_law.
Qed.

Lemma apply_action_sets lb (spec : LBSpec (RS := RS)) l1 l2 a :
  possible a → sets (apply_action lb spec id l1 l2 a) (λ v, lb_step v a).
Proof.
  intros [Hk Ht]. destruct a as [a|a|a]; cbn [apply_action].
  - by apply sets_wrapM, updateBackendSet_sets.
  - apply sets_bind; [apply frames_lift, _|]. intros n. apply sets_bind; [apply frames_lift, _|]. intros p.
    by apply sets_wrapM, updateListener_sets.
  - by apply sets_wrapM, updateRuleSet_sets.
Qed.

Lemma actions_set lb (spec : LBSpec (RS := RS)) l1 l2 actions :
  Forall possible actions →
  sets (forM actions (apply_action lb spec id l1 l2)) (λ v, foldl lb_step v actions).
Proof.
  intros Hk w w' Hr. revert w Hr. induction Hk as [|a actions Ha Hk IH]; intros w Hr; simpl in Hr.
  - by injection Hr as <-.
  - apply M_bind_Ret_inv in Hr as ([] & w1 & H1 & Hr). simpl.
    rewrite (IH _ Hr). f_equal. by eapply apply_action_sets.
Qed.

(** ** The actions of an update *)

Definition bs_part (a : Action RS) : option BackendSetAction :=
  match a with ActBackendSet a => Some a | _ => None end.
Definition ln_part (a : Action RS) : option ListenerAction :=
  match a with ActListener a => Some a | _ => None end.
Definition rs_part (a : Action RS) : option (RuleSetAction RS) :=
  match a with ActRuleSet a => Some a | _ => None end.

(** The three kinds of resources do not interfere. *)
Lemma lb_steps_parts v actions :
  let v' := foldl lb_step v actions in
  v_BackendSets v' = backend_sets_after lb_storage (v_BackendSets v) (omap bs_part actions) ∧
  v_Listeners v' = listeners_after lb_storage (v_Listeners v) (omap ln_part actions) ∧
  v_RuleSets v' = rule_sets_after (v_RuleSets v) (omap rs_part actions) ∧
  v_Nsgs v' = v_Nsgs v ∧ v_ShapeName v' = v_ShapeName v ∧ v_ShapeDetails v' = v_ShapeDetails v ∧
  v_IpVersion v' = v_IpVersion v.
Proof.
  revert v. induction actions as [|a actions IH]; intros v; [done|].
  destruct a as [a|a|a]; cbn [foldl]; destruct (IH (lb_step v (ActBackendSet a)))
    || destruct (IH (lb_step v (ActListener a))) || destruct (IH (lb_step v (ActRuleSet a))); done.
Qed.

Lemma omap_parts bs ls rs :
  let l := (ActBackendSet <$> bs) ++ (ActListener <$> ls) ++ (ActRuleSet <$> rs) in
  omap bs_part l = bs ∧ omap ln_part l = ls ∧ omap rs_part l = rs.
Proof.
  cbv zeta. rewrite !omap_app, !omap_fmap.
  assert (∀ A (l : list A), omap (λ x, Some x) l = l) as Hid.
  { intros A l. induction l as [|x l IH]; [done|]. csimpl. by rewrite IH. }
  assert (∀ A B (l : list A), omap (λ x, None : option B) l = []) as Hno.
  { intros A B l. by induction l. }
  unfold compose. simpl. rewrite !Hid, !Hno, !app_nil_r. done.
Qed.

(** ** The configuration a specification asks for *)

(** The resources of a configuration are those of the specification, where [old] are
    the backend sets before. *)
Definition resources_reached (old : gmap string GenericBackendSetDetails) (spec : LBSpec (RS := RS))
    (v : LbView RS) : Prop :=
  backend_sets_reached old (spec_BackendSets spec) lb_storage (v_BackendSets v) ∧
  listeners_reached (spec_Listeners spec) (spec_RuleSets spec) lb_storage (v_Listeners v) ∧
  (∀ ruleSets, spec_RuleSets spec = Some ruleSets → v_RuleSets v = ruleSets).

(** The shape of the specification. *)
Definition shape_reached (spec : LBSpec (RS := RS)) (name : option string)
    (details : option GenericShapeDetails) : Prop :=
  name = Some (spec_Shape spec) ∧
  (spec_Shape spec = flexible → ∀ d mn mx, details = Some d → spec_FlexMin spec = Some mn → spec_FlexMax spec = Some mx →
    sd_MinimumBandwidthInMbps d = Some mn ∧ sd_MaximumBandwidthInMbps d = Some mx).

(** The IP version of the endpoint of a network load balancer. *)
Definition ip_version_reached (spec : LBSpec (RS := RS)) (ver : option string) : Prop :=
  spec_Type spec = NLB →
  iv_IpFamilyPolicy (spec_IpVersions spec) ∈
    [IPFamilyPolicySingleStack; IPFamilyPolicyPreferDualStack; IPFamilyPolicyRequireDualStack] →
  ∀ wanted, iv_LbEndpointIpVersion (spec_IpVersions spec) = Some wanted →
  ∃ v, ver = Some v ∧ EqualFold v wanted = true.

(** Exactly the backend sets, listeners (one per desired listener, matched by name)
    and rule sets of the specification, each the desired one as it is stored or found
    in sync with it; its network security groups; its shape, and its IP version. *)
Definition lb_meets (old : gmap string GenericBackendSetDetails) (spec : LBSpec (RS := RS))
    (v : LbView RS) : Prop :=
  resources_reached old spec v ∧
  (∀ nsg, nsg ∈ v_Nsgs v ↔ nsg ∈ spec_NetworkSecurityGroupIds spec) ∧
  (spec_Type spec = LB → shape_reached spec (v_ShapeName v) (v_ShapeDetails v)) ∧
  ip_version_reached spec (v_IpVersion v).

Section update.
Context (lb : GenericLoadBalancer RS) (spec : LBSpec (RS := RS)).
Hypothesis lb_sets_ok : ∀ n b, lb_BackendSets lb !! n = Some b → backend_set_ok b ∧ bs_Name b = Some n.
Hypothesis spec_sets_ok : ∀ n b, spec_BackendSets spec !! n = Some b → backend_set_ok b.
Hypothesis spec_type : spec_Type spec = st_type lb_storage.
Hypothesis spec_rule_sets : is_Some (spec_RuleSets spec) → spec_Type spec = LB.
Hypothesis spec_version : ∀ ver,
  iv_LbEndpointIpVersion (spec_IpVersions spec) = Some ver → ver ∈ generic_versions.

Lemma backend_set_actions_known site actions :
  getBackendSetChanges site (lb_BackendSets lb) (spec_BackendSets spec) = Ret actions →
  Forall (λ a, known_type (ActBackendSet a)) actions.
Proof using lb_sets_ok spec_sets_ok.
  intros Hr.
  destruct (getBackendSetChanges_spec _ _ lb_sets_ok spec_sets_ok site) as (actions' & Hr' & _ & Hel).
  rewrite Hr in Hr'. injection Hr' as <-. apply Forall_forall. intros a Ha%Hel. unfold known_type. simpl.
  destruct Ha as [(b & Hb & Hf)|(d & Hd & Hf)].
  - destruct (backend_set_existing_spec _ _ lb_sets_ok spec_sets_ok _ b Hb) as (oa & Hf' & Hs).
    rewrite Hf in Hf'. injection Hf' as <-.
    destruct (spec_BackendSets spec !! bsa_name a); destruct_and!; by destruct (bsa_actionType a).
  - unfold backend_set_new in Hf. destruct (lb_BackendSets lb !! bsa_name a); [done|].
    apply bind_Ret_inv in Hf as (p & _ & Hf). by injection Hf as <-.
Qed.

Hypothesis lb_names : ∀ n1 n2, is_Some (lb_Listeners lb !! n1) → is_Some (lb_Listeners lb !! n2) →
  getSanitizedName n1 = getSanitizedName n2 → n1 = n2.
Hypothesis spec_names : ∀ n1 n2, is_Some (spec_Listeners spec !! n1) → is_Some (spec_Listeners spec !! n2) →
  getSanitizedName n1 = getSanitizedName n2 → n1 = n2.

(** The rule set actions: rule sets are only managed when the spec has them. *)
Definition rule_set_actions (site : nat) : list (RuleSetAction RS) :=
  match spec_RuleSets spec with
  | Some ruleSets => getRuleSetChanges site (lb_RuleSets lb) ruleSets
  | None => []
  end.

Lemma update_actions_perm site bs :
  update_actions site lb spec bs ≡ₚ (ActBackendSet <$> bs) ++
    (ActListener <$> getListenerChanges (4 + site) (lb_Listeners lb) (spec_Listeners spec) (spec_RuleSets spec))
    ++ (ActRuleSet <$> rule_set_actions site).
Proof. apply sortAndCombineActions_permutation. Qed.

Lemma update_actions_known site bs :
  getBackendSetChanges (2 + site) (lb_BackendSets lb) (spec_BackendSets spec) = Ret bs →
  Forall possible (update_actions site lb spec bs).
Proof using lb_sets_ok spec_sets_ok spec_names spec_type spec_rule_sets.
  intros Hbs. rewrite update_actions_perm, !Forall_app, !Forall_fmap. split_and!.
  - eapply Forall_impl; [by eapply backend_set_actions_known|]. by intros a Ha.
  - apply Forall_forall. intros a Ha%getListenerChanges_elem; [|done]. by destruct Ha.
  - unfold rule_set_actions. destruct (spec_RuleSets spec) as [rs|]; [|constructor].
    apply Forall_forall. intros a Ha%getRuleSetChanges_elem.
    split; [|rewrite <-spec_type; by apply spec_rule_sets]. unfold compose, known_type. simpl.
    destruct (lb_RuleSets lb !! rsa_name a), (rs !! rsa_name a); simpl in Ha; repeat case_decide;
      simplify_eq/=; by rewrite <-Ha.
Qed.

Lemma update_actions_reach site bs v :
  getBackendSetChanges (2 + site) (lb_BackendSets lb) (spec_BackendSets spec) = Ret bs →
  v_BackendSets v = lb_BackendSets lb → v_Listeners v = lb_Listeners lb → v_RuleSets v = lb_RuleSets lb →
  resources_reached (lb_BackendSets lb) spec (foldl lb_step v (update_actions site lb spec bs)).
Proof using lb_sets_ok spec_sets_ok lb_names spec_names.
  intros Hbs E1 E2 E3. pose proof (update_actions_perm site bs) as Hp.
  destruct (lb_steps_parts v (update_actions site lb spec bs)) as (F1 & F2 & F3 & _).
  destruct (omap_parts bs (getListenerChanges (4 + site) (lb_Listeners lb) (spec_Listeners spec)
    (spec_RuleSets spec)) (rule_set_actions site)) as (G1 & G2 & G3).
  unfold resources_reached. rewrite F1, F2, F3, E1, E2, E3. split_and!.
  - eapply (backend_sets_converge _ _ lb_sets_ok spec_sets_ok); [done|]. by rewrite Hp, G1.
  - eapply listeners_converge; [done..|]. by rewrite Hp, G2.
  - intros rs Hrs. apply (rule_sets_converge _ _ site). rewrite Hp, G3.
    unfold rule_set_actions. by rewrite Hrs.
Qed.

(** ** The settings *)

Hypothesis lb_id : lb_Id lb = Some id.

(** The IP version has to change and the policy is one of [policies]. *)
Definition ip_version_due (policies : list string) : option string :=
  ver ← iv_LbEndpointIpVersion (spec_IpVersions spec);
  cur ← lb_IpVersion lb;
  if decide (spec_Type spec = NLB ∧ hasIpVersionChanged cur ver = true ∧
             iv_IpFamilyPolicy (spec_IpVersions spec) ∈ policies)
  then Some ver else None.

Lemma change_ip_version_sets policies :
  sets (change_ip_version lb spec policies) (λ v,
    match ip_version_due policies with
    | Some ver => with_ip_version v (st_ip_version lb_storage ver)
    | None => v
    end).
Proof using lb_id spec_type spec_version.
  intros w w' Hr. unfold change_ip_version, ip_version_due in *.
  destruct (iv_LbEndpointIpVersion (spec_IpVersions spec)) as [ver|] eqn:Hver; simpl; [|by injection Hr as <-].
  destruct (decide (spec_Type spec = NLB)) as [Ht|Ht].
  - apply M_bind_Ret_inv in Hr as (cur & w1 & Hc & Hr).
    destruct (lb_IpVersion lb) as [cur'|]; [|done]. injection Hc as -> <-. simpl.
    destruct (decide (_ ∧ _)) as [Hd|Hd].
    + rewrite decide_True by tauto. unfold updateLoadBalancerIpVersion in Hr. rewrite lb_id in Hr.
      apply M_bind_Ret_inv in Hr as (i & w1 & [= <- <-] & Hr).
      apply M_bind_Ret_inv in Hr as (wr & w1 & H1%wrapM_Ret_inv & H2%wrapM_Ret_inv).
      refine (UpdateDetails_law _ _ _ _ _ _ _ _ _ _ H1 H2); [by rewrite <-spec_type|done|by apply spec_version].
    + rewrite decide_False by tauto. by injection Hr as <-.
  - injection Hr as <-. destruct (lb_IpVersion lb); simpl; [by rewrite decide_False by tauto|done].
Qed.

Lemma change_nsgs_sets :
  sets (if hasLoadBalancerNetworkSecurityGroupsChanged (default [] (lb_NetworkSecurityGroupIds lb))
             (spec_NetworkSecurityGroupIds spec)
        then updateLoadBalancerNetworkSecurityGroups lb spec else mret ())
    (λ v, if hasLoadBalancerNetworkSecurityGroupsChanged (default [] (lb_NetworkSecurityGroupIds lb))
               (spec_NetworkSecurityGroupIds spec)
          then with_nsgs v (spec_NetworkSecurityGroupIds spec) else v).
Proof using lb_id.
  intros w w' Hr. destruct (hasLoadBalancerNetworkSecurityGroupsChanged _ _); [|by injection Hr as <-].
  unfold updateLoadBalancerNetworkSecurityGroups in Hr. rewrite lb_id in Hr.
  apply M_bind_Ret_inv in Hr as (i & w1 & [= <- <-] & Hr).
  apply M_bind_Ret_inv in Hr as (wr & w1 & H1%wrapM_Ret_inv & H2%wrapM_Ret_inv).
  by eapply UpdateNsgs_law.
Qed.

Lemma shape_unchanged :
  hasLoadbalancerShapeChanged (spec_Shape spec) (spec_FlexMin spec) (spec_FlexMax spec) lb = Ret false →
  shape_reached spec (lb_ShapeName lb) (lb_ShapeDetails lb).
Proof.
  intros Hr. unfold hasLoadbalancerShapeChanged in Hr. unfold shape_reached.
  destruct (lb_ShapeName lb) as [name|]; [|done]. simpl in Hr.
  case_decide as Hn; [done|]. subst name. split; [done|].
  intros _ d mn mx Hd Hmn Hmx. rewrite Hd, Hmn, Hmx in Hr.
  destruct (sd_MinimumBandwidthInMbps d) as [a|]; [|done]. simpl in Hr.
  case_decide as Ha; [done|]. subst a.
  destruct (sd_MaximumBandwidthInMbps d) as [b|]; [|done]. simpl in Hr. injection Hr as Hb.
  apply bool_decide_eq_false, dec_stable in Hb as ->. done.
Qed.

(** The step that changes the shape of an OCI load balancer. *)
Definition change_shape : M W () :=
  if decide (spec_Type spec = LB) then
    shapeChanged ← lift (hasLoadbalancerShapeChanged (spec_Shape spec) (spec_FlexMin spec) (spec_FlexMax spec) lb);
    if (shapeChanged : bool) then updateLoadbalancerShape lb spec else mret ()
  else mret ().

Lemma change_shape_spec w w' :
  change_shape w = (Ret (), w') →
  ∃ name details, lb_view w' id = with_shape (lb_view w id) name details ∧
  (v_ShapeName (lb_view w id) = lb_ShapeName lb → v_ShapeDetails (lb_view w id) = lb_ShapeDetails lb →
   spec_Type spec = LB → shape_reached spec name details).
Proof using lb_id spec_type.
  assert (∀ v : LbView RS, with_shape v (v_ShapeName v) (v_ShapeDetails v) = v) as Hid by by intros [].
  intros Hr. unfold change_shape in Hr. destruct (decide (spec_Type spec = LB)) as [Ht|Ht].
  - apply M_bind_Ret_inv in Hr as (c & w1 & Hc & Hr). injection Hc as Hc <-.
    destruct c.
    + unfold updateLoadbalancerShape in Hr. apply M_bind_Ret_inv in Hr as (sn & w1 & Hsn & Hr).
      injection Hsn as _ <-. case_decide; [done|]. rewrite lb_id in Hr.
      apply M_bind_Ret_inv in Hr as (i & w1 & [= <- <-] & Hr).
      apply M_bind_Ret_inv in Hr as (wr & w1 & H1%wrapM_Ret_inv & H2).
      rewrite spec_type in Ht. eexists _, _. split; [by eapply UpdateShape_law|]. intros _ _ _. split; [done|].
      intros Hflex d mn mx. simpl. rewrite decide_True, stored_shape by done. by intros [= <-].
    + injection Hr as <-. eexists _, _. split; [by rewrite Hid|]. intros -> -> _. by apply shape_unchanged.
  - injection Hr as <-. eexists _, _. by rewrite Hid.
Qed.

(** An update that succeeds has read the IP version of a network load balancer. *)
Lemma change_ip_version_known policies w w' wanted :
  change_ip_version lb spec policies w = (Ret (), w') → spec_Type spec = NLB →
  iv_LbEndpointIpVersion (spec_IpVersions spec) = Some wanted → is_Some (lb_IpVersion lb).
Proof.
  intros Hr Ht Hw. unfold change_ip_version in Hr. rewrite Hw, decide_True in Hr by done.
  apply M_bind_Ret_inv in Hr as (cur & w1 & Hc & _). by destruct (lb_IpVersion lb).
Qed.

Lemma ip_versions_reached :
  (∀ wanted, spec_Type spec = NLB → iv_LbEndpointIpVersion (spec_IpVersions spec) = Some wanted →
     is_Some (lb_IpVersion lb)) →
  let first := ip_version_due [IPFamilyPolicyPreferDualStack; IPFamilyPolicyRequireDualStack] in
  let last := ip_version_due [IPFamilyPolicySingleStack] in
  ip_version_reached spec (match last with
                      | Some v => Some (st_ip_version lb_storage v)
                      | None => match first with
                                | Some v => Some (st_ip_version lb_storage v)
                                | None => lb_IpVersion lb
                                end
                      end).
Proof using spec_version.
  clear lb_sets_ok spec_sets_ok spec_type spec_rule_sets lb_names spec_names lb_id.
  intros Hknown first last Ht Hpol wanted Hw. destruct (Hknown wanted Ht Hw) as [cur Hc].
  assert (∀ policies, ip_version_due policies =
    if decide (hasIpVersionChanged cur wanted = true ∧ iv_IpFamilyPolicy (spec_IpVersions spec) ∈ policies)
    then Some wanted else None) as Hdue.
  { intros policies. unfold ip_version_due. rewrite Hw, Hc. simpl. apply decide_ext. tauto. }
  unfold first, last. rewrite !Hdue.
  destruct (hasIpVersionChanged cur wanted) eqn:Hch.
  - rewrite elem_of_cons in Hpol. destruct Hpol as [Hpol|Hpol].
    + rewrite decide_True by (split; [done|]; rewrite Hpol; by left). eauto 6 using stored_ip_version.
    + destruct (decide (true = true ∧ _ ∈ [IPFamilyPolicySingleStack])); [eauto 6 using stored_ip_version|].
      rewrite decide_True by done. eauto 6 using stored_ip_version.
  - rewrite !decide_False by naive_solver. exists cur. split; [done|].
    unfold hasIpVersionChanged in Hch. by apply negb_false_iff in Hch.
Qed.

(** A successful update leaves the load balancer as its specification says. *)
Lemma updateLoadBalancer_reaches sys site w w' :
  lb_view w id = view_of lb →
  updateLoadBalancer sys site lb spec w = (Ret (), w') →
  lb_meets (lb_BackendSets lb) spec (lb_view w' id).
Proof using lb_sets_ok spec_sets_ok lb_names spec_names lb_id spec_type spec_rule_sets spec_version.
  intros Hw Hr. unfold updateLoadBalancer in Hr. rewrite lb_id in Hr. fold change_shape in Hr.
  apply M_bind_Ret_inv in Hr as (i & wa & [= <- <-] & Hr).
  apply M_bind_Ret_inv in Hr as (ip & wb & Hb & Hr). injection Hb as _ <-.
  apply M_bind_Ret_inv in Hr as (lbS & w1 & H1%wrapM_Ret_inv%(getSubnets_keeps _) & Hr).
  apply M_bind_Ret_inv in Hr as (nodeS & w2 & H2%wrapM_Ret_inv%(getSubnetsForNodes_keeps _) & Hr).
  apply M_bind_Ret_inv in Hr as ([] & w3 & H3 & Hr).
  pose proof (λ wanted, change_ip_version_known _ _ _ wanted H3) as Hknown. apply change_ip_version_sets in H3.
  apply M_bind_Ret_inv in Hr as (bs & wc & Hc & Hr). injection Hc as Hbs <-.
  apply M_bind_Ret_inv in Hr as ([] & w4 & H4 & Hr).
  assert (lb_view w4 id = lb_view w3 id) as H4'.
  { destruct (decide (_ ∧ _)); [by apply updateSecurityLists_keeps in H4|by injection H4 as <-]. }
  apply M_bind_Ret_inv in Hr as ([] & w5 & H5%actions_set & Hr); [|by apply update_actions_known].
  apply M_bind_Ret_inv in Hr as ([] & w6 & H6%change_nsgs_sets & Hr).
  apply M_bind_Ret_inv in Hr as ([] & w7 & H7%change_shape_spec & Hr).
  apply M_bind_Ret_inv in Hr as ([] & w8 & H8%change_ip_version_sets & Hr).
  apply M_bind_Ret_inv in Hr as ([] & w9 & H9 & Hr). case_decide; [done|]. injection H9 as <-.
  assert (lb_view w' id = lb_view w8 id) as ->.
  { destruct (sys && _); [|by injection Hr as <-]. apply M_bind_Ret_inv in Hr as (r & w9 & H9 & Hr).
    injection Hr as <-. unfold try in H9. destruct (addLoadBalancerOkeSystemTags lb spec w8) as [o w10] eqn:E.
    apply addLoadBalancerOkeSystemTags_keeps in E; [|done]. by destruct o; injection H9 as _ <-. }
  clear Hr. destruct H7 as (name & details & H7 & Hshape).
  unfold lb_meets. rewrite H8, H7, H6, H5, H4', H3, H2, H1, Hw in *. clear H1 H2 H3 H4 H4' H5 H6 H7 H8.
  match goal with |- context [foldl lb_step ?v _] => set (v1 := v) in * end.
  set (v2 := foldl lb_step v1 _) in *.
  destruct (lb_steps_parts v1 (update_actions site lb spec bs)) as (_ & _ & _ & N1 & N2 & N3 & N4).
  fold v2 in N1, N2, N3, N4.
  assert (v_BackendSets v1 = lb_BackendSets lb ∧ v_Listeners v1 = lb_Listeners lb ∧
    v_RuleSets v1 = lb_RuleSets lb ∧ v_Nsgs v1 = default [] (lb_NetworkSecurityGroupIds lb) ∧
    v_ShapeName v1 = lb_ShapeName lb ∧ v_ShapeDetails v1 = lb_ShapeDetails lb) as (P1 & P2 & P3 & P4 & P5 & P6)
    by (unfold v1; by destruct (ip_version_due _)).
  pose proof (ip_versions_reached Hknown) as Hip. cbv zeta in Hip.
  assert (resources_reached (lb_BackendSets lb) spec v2) as Hres by (by eapply update_actions_reach).
  assert (∀ nsg, nsg ∈ v_Nsgs (if hasLoadBalancerNetworkSecurityGroupsChanged
      (default [] (lb_NetworkSecurityGroupIds lb)) (spec_NetworkSecurityGroupIds spec)
    then with_nsgs v2 (spec_NetworkSecurityGroupIds spec) else v2) ↔ nsg ∈ spec_NetworkSecurityGroupIds spec) as Hnsgs.
  { unfold hasLoadBalancerNetworkSecurityGroupsChanged.
    destruct (DeepEqualLists (default [] (lb_NetworkSecurityGroupIds lb)) _) eqn:E; simpl; [|done].
    rewrite N1, P4. by apply DeepEqualLists_spec. }
  destruct (hasLoadBalancerNetworkSecurityGroupsChanged _ _); simpl in *; rewrite N2, N3 in Hshape;
    (destruct (ip_version_due [IPFamilyPolicySingleStack]); (split_and!; [exact Hres|by auto..|]); [done|]);
    simpl; rewrite N4; unfold v1; by destruct (ip_version_due _).
Qed.

(** ** Updating only the backends *)

Lemma backend_updates_set l1 l2 (bs : list BackendSetAction) :
  sets (forM bs (λ a,
      if decide (bsa_actionType a = Update)
      then wrapM (updateBackendSet id a l1 l2 (spec_securityListManager spec) spec) "updating BackendSet" []
      else mret ()))
    (λ v, foldl lb_step v (ActBackendSet <$> filter (λ a, bsa_actionType a = Update) bs)).
Proof.
  intros w w' Hr. revert w Hr. induction bs as [|a bs IH]; intros w Hr; simpl in Hr; [by injection Hr as <-|].
  apply M_bind_Ret_inv in Hr as ([] & w1 & H1 & Hr). rewrite (IH _ Hr), filter_cons.
  destruct (decide (bsa_actionType a = Update)) as [Ha|Ha]; [|by injection H1 as <-].
  apply wrapM_Ret_inv, updateBackendSet_sets in H1; [by rewrite H1|]. unfold known_type. simpl. by rewrite Ha.
Qed.

(** The update for a change of nodes brings
    every backend set that the load balancer has and the specification wants to the
    desired state, as the service stores it, and changes nothing else: it creates and deletes no backend set
    and leaves listeners, rule sets and settings alone. *)
Lemma updateLoadBalancerBackends_correct site w w' :
  lb_view w id = view_of lb →
  updateLoadBalancerBackends site lb spec w = (Ret (), w') →
  let v := lb_view w' id in
  (∀ n, match lb_BackendSets lb !! n, spec_BackendSets spec !! n with
        | Some b, Some d => ∃ b', v_BackendSets v !! n = Some b' ∧
            (b' = st_backend_set lb_storage n d ∨ b' = b ∧ backend_set_in_sync b d)
        | o, _ => v_BackendSets v !! n = o
        end) ∧
  v_Listeners v = lb_Listeners lb ∧ v_RuleSets v = lb_RuleSets lb ∧
  v_Nsgs v = default [] (lb_NetworkSecurityGroupIds lb) ∧ v_ShapeName v = lb_ShapeName lb ∧
  v_ShapeDetails v = lb_ShapeDetails lb ∧ v_IpVersion v = lb_IpVersion lb.
Proof using lb_sets_ok spec_sets_ok lb_id.
  intros Hw Hr. unfold updateLoadBalancerBackends in Hr. rewrite lb_id in Hr.
  apply M_bind_Ret_inv in Hr as (i & wa & [= <- <-] & Hr).
  apply M_bind_Ret_inv in Hr as (lbS & w1 & H1%wrapM_Ret_inv%(getSubnets_keeps _) & Hr).
  apply M_bind_Ret_inv in Hr as (nodeS & w2 & H2%wrapM_Ret_inv%(getSubnetsForNodes_keeps _) & Hr).
  apply M_bind_Ret_inv in Hr as (bs & wc & Hc & Hr). injection Hc as Hbs <-.
  apply backend_updates_set in Hr. cbv zeta. rewrite Hr, H2, H1, Hw. clear Hr H1 H2 Hw.
  set (ups := filter _ bs).
  destruct (lb_steps_parts (view_of lb) (ActBackendSet <$> ups)) as (F1 & F2 & F3 & N1 & N2 & N3 & N4).
  destruct (omap_parts ups [] []) as (G1 & G2 & G3). rewrite !app_nil_r in G1, G2, G3.
  rewrite F1, F2, F3, N1, N2, N3, N4, G1, G2, G3. split; [|done]. intros n.
  destruct (getBackendSetChanges_spec _ _ lb_sets_ok spec_sets_ok site) as (bs' & Hbs' & Hnd & Hel).
  rewrite Hbs in Hbs'. injection Hbs' as <-. unfold backend_sets_after. simpl.
  assert (NoDup (bsa_name <$> ups)) as Hnd'.
  { eapply sublist_NoDup; [exact Hnd|]. by apply fmap_sublist, sublist_filter. }
  destruct (decide (n ∈ bsa_name <$> ups)) as [(a & -> & Ha)%list_elem_of_fmap|Hn].
  - rewrite (perform_all_elem bsa_name (backend_set_effect lb_storage)) by done.
    apply list_elem_of_filter in Ha as [Hty Ha%Hel]. unfold backend_set_effect. rewrite Hty. simpl.
    destruct Ha as [(b & Hb & Hf)|(d & Hd & Hf)].
    + destruct (backend_set_existing_spec _ _ lb_sets_ok spec_sets_ok _ b Hb) as (oa & Hf' & Hs).
      rewrite Hf in Hf'. injection Hf' as <-. rewrite Hb.
      destruct (spec_BackendSets spec !! bsa_name a) as [d|]; destruct_and!; [|congruence].
      subst d. eauto.
    + unfold backend_set_new in Hf. destruct (lb_BackendSets lb !! bsa_name a); [done|].
      apply bind_Ret_inv in Hf as (p & _ & Hf). injection Hf as Hf. by rewrite <-Hf in Hty.
  - rewrite perform_all_other by done. destruct (lb_BackendSets lb !! n) as [b|] eqn:Hb; [|done].
    destruct (spec_BackendSets spec !! n) as [d|] eqn:Hd; [|done]. exists b. split; [done|]. right. split; [done|].
    destruct (backend_set_existing_spec _ _ lb_sets_ok spec_sets_ok n b Hb) as (oa & Hf & Hs).
    rewrite Hd in Hs. destruct oa as [a|]; [|done]. destruct Hs as (<- & Hty & _). exfalso.
    apply Hn, list_elem_of_fmap_2, list_elem_of_filter. split; [done|]. apply Hel. left. by exists b.
Qed.
End update.
End facts.

(** ** A load balancing service in memory *)

(** Requests take effect at once.  The service keeps references intact: a listener
    needs its default backend set, and a backend set in use is not deleted. *)
Record lb_world {RS : Type} := {
  lw_lbs : gmap string (LbView RS);
  lw_subnets : gmap string Subnet;
  lw_lists : gmap string SecurityList;
  lw_names : gmap (string * string * string) string;  (** type, compartment and name *)
  lw_groups : gmap string (gmap string string);  (** groups with their tags *)
  lw_services : gmap (string * string) Service;  (** namespace and name *)
}.
Arguments lb_world : clear implicits.

Section memory.
Context {RS : Type}.

Definition with_lbs (w : lb_world RS) (lbs : gmap string (LbView RS)) : lb_world RS := {|
  lw_lbs := lbs; lw_subnets := lw_subnets w; lw_lists := lw_lists w; lw_names := lw_names w;
  lw_groups := lw_groups w; lw_services := lw_services w |}.

Definition with_lists (w : lb_world RS) (lists : gmap string SecurityList) : lb_world RS := {|
  lw_lbs := lw_lbs w; lw_subnets := lw_subnets w; lw_lists := lists; lw_names := lw_names w;
  lw_groups := lw_groups w; lw_services := lw_services w |}.

Definition request (f : LbView RS → option (LbView RS)) (id : string) : M (lb_world RS) string := λ w,
  match v ← lw_lbs w !! id; f v with
  | Some v => (Ret "work request", with_lbs w (<[id := v]> (lw_lbs w)))
  | None => (Err (ServiceError 409 "IncorrectState" "the request was refused"), w)
  end.

Definition set_listener (n : string) (l : GenericListener) (v : LbView RS) : option (LbView RS) :=
  if decide (is_Some (v_BackendSets v !! toString (ln_DefaultBackendSetName l)))
  then Some (with_listener v n (Some l)) else None.

Definition remove_backend_set (n : string) (v : LbView RS) : option (LbView RS) :=
  if decide (map_Forall (λ _ l, toString (ln_DefaultBackendSetName l) ≠ n) (v_Listeners v))
  then Some (with_backend_set v n None) else None.

Definition stored_view (w : lb_world RS) (id : string) : LbView RS :=
  default {| v_BackendSets := ∅; v_Listeners := ∅; v_RuleSets := ∅; v_Nsgs := []; v_ShapeName := None;
             v_ShapeDetails := None; v_IpVersion := None |} (lw_lbs w !! id).

(** A work request that succeeded. *)
Definition done_request (id : string) (lbId : option string) : GenericWorkRequest := {|
  wr_Id := Some id; wr_LoadBalancerId := lbId; wr_Type := None; wr_LifecycleState := Some "SUCCEEDED";
  wr_Message := None; wr_CompartmentId := None; wr_OperationType := ""; wr_Status := "" |}.

(** [st] is what the service shows for the details of a request. *)
Definition memory_lb (st : Storage) : LbClient (lb_world RS) RS := {|
  CreateBackendSet id n b := request (λ v, Some (with_backend_set v n (Some (st_backend_set st n b)))) id;
  UpdateBackendSet id n b := request (λ v, Some (with_backend_set v n (Some (st_backend_set st n b)))) id;
  DeleteBackendSet id n := request (remove_backend_set n) id;
  CreateListener id n l := request (set_listener n (st_created_listener st n l)) id;
  UpdateListener id n l := request (set_listener n (st_updated_listener st n l)) id;
  DeleteListener id n := request (λ v, Some (with_listener v n None)) id;
  CreateRuleSet id n r := request (λ v, Some (with_rule_set v n (Some r))) id;
  UpdateRuleSet id n r := request (λ v, Some (with_rule_set v n (Some r))) id;
  DeleteRuleSet id n := request (λ v, Some (with_rule_set v n None)) id;
  UpdateLoadBalancerShape id d :=
    request (λ v, Some (with_shape v (usd_ShapeName d) (st_shape st (usd_ShapeDetails d)))) id;
  UpdateNetworkSecurityGroups id nsgs := request (λ v, Some (with_nsgs v nsgs)) id;
  UpdateLoadBalancer_call id d := request (λ v, Some (match uld_IpVersion d with
    | Some ver => with_ip_version v (st_ip_version st ver) | None => v end)) id;
  AwaitWorkRequest id := mret (done_request id (Some id));
|}.

Global Instance memory_subnets : SubnetClient (lb_world RS) := {|
  GetSubnet id w := (match lw_subnets w !! id with Some s => Ret s | None => Err NotFoundErr end, w);
  GetSubnetFromCacheByIP _ := mret None;
  GetPrimaryVNICForInstance _ _ := mret None;
|}.

Global Instance memory_lists : SecurityListClient (lb_world RS) := {|
  GetSecurityList id w := (fst (GetSecurityList id (lw_lists w)), w);
  UpdateSecurityList id e i g w :=
    let '(o, lists) := UpdateSecurityList id e i g (lw_lists w) in
    (o, with_lists w lists);
|}.

Lemma request_law f id w wr w1 g :
  (∀ v v', f v = Some v' → v' = g v) → request f id w = (Ret wr, w1) →
  stored_view w1 id = g (stored_view w id).
Proof.
  intros Hf Hr. unfold request, stored_view in *. destruct (lw_lbs w !! id) as [v|]; simpl in *; [|done].
  destruct (f v) as [v'|] eqn:E; [|done]. injection Hr as _ <-. simpl.
  rewrite lookup_insert_eq. simpl. by apply Hf.
Qed.

Lemma request_keeps f id w o w1 :
  (∀ v v', f v = Some v' → v' = v) → request f id w = (o, w1) → stored_view w1 id = stored_view w id.
Proof.
  intros Hf Hr. destruct o as [wr| |]; [by eapply (request_law _ _ _ _ _ (λ v, v))|..];
    unfold request in Hr; case_match; by simplify_eq.
Qed.

Lemma request_await_law f id w wr w1 w2 g :
  (∀ v v', f v = Some v' → v' = g v) → request f id w = (Ret wr, w1) →
  mret (M := M (lb_world RS)) () w1 = (Ret (), w2) → stored_view w2 id = g (stored_view w id).
Proof. intros Hf Hq [= <-]. by eapply request_law. Qed.

Ltac request_law g Hq Ha :=
  eapply (request_await_law _ _ _ _ _ _ g); [|exact Hq|exact Ha]; intros ? ?;
  unfold remove_backend_set, set_listener; repeat case_decide; by intros [= <-].

(** What a storage has to satisfy. *)
Definition storage_ok (st : Storage) : Prop :=
  (∀ n b, backend_set_ok b →
     backend_set_ok (st_backend_set st n b) ∧ bs_Name (st_backend_set st n b) = Some n) ∧
  (∀ d, st_type st = LB → st_shape st (Some d) = Some d) ∧
  (∀ ver, ver ∈ generic_versions → EqualFold (st_ip_version st ver) ver = true).

Lemma memory_lb_laws (st : Storage) :
  storage_ok st → let _ := memory_lb st in LbLaws (lb_world RS) RS.
Proof.
  intros Hst L.
  apply (Build_LbLaws _ _ _ _ _ st stored_view (proj1 Hst) (proj1 (proj2 Hst)) (proj2 (proj2 Hst))).
  - intros id n b w wr w1 w2 Hq Ha.
    request_law (λ v : LbView RS, with_backend_set v n (Some (st_backend_set st n b))) Hq Ha.
  - intros id n b w wr w1 w2 Hq Ha.
    request_law (λ v : LbView RS, with_backend_set v n (Some (st_backend_set st n b))) Hq Ha.
  - intros id n w wr w1 w2 Hq Ha. request_law (λ v : LbView RS, with_backend_set v n None) Hq Ha.
  - intros id n l w wr w1 w2 Hq Ha.
    request_law (λ v : LbView RS, with_listener v n (Some (st_created_listener st n l))) Hq Ha.
  - intros id n l w wr w1 w2 Hq Ha.
    request_law (λ v : LbView RS, with_listener v n (Some (st_updated_listener st n l))) Hq Ha.
  - intros id n w wr w1 w2 Hq Ha. request_law (λ v : LbView RS, with_listener v n None) Hq Ha.
  - intros id n r w wr w1 w2 _ Hq Ha. request_law (λ v : LbView RS, with_rule_set v n (Some r)) Hq Ha.
  - intros id n r w wr w1 w2 _ Hq Ha. request_law (λ v : LbView RS, with_rule_set v n (Some r)) Hq Ha.
  - intros id n w wr w1 w2 _ Hq Ha. request_law (λ v : LbView RS, with_rule_set v n None) Hq Ha.
  - intros id nsgs w wr w1 w2 Hq Ha. request_law (λ v : LbView RS, with_nsgs v nsgs) Hq Ha.
  - intros id d w wr w1 w2 _ Hq Ha.
    request_law (λ v : LbView RS, with_shape v (usd_ShapeName d) (st_shape st (usd_ShapeDetails d))) Hq Ha.
  - intros id d ver w wr w1 w2 _ Hd _ Hq Ha. cbn in Hq. rewrite Hd in Hq.
    request_law (λ v : LbView RS, with_ip_version v (st_ip_version st ver)) Hq Ha.
  - intros id d w o w1 Hd Hr. cbn in Hr. rewrite Hd in Hr.
    assert (stored_view w1 id = stored_view w id) as E by (eapply request_keeps; [|exact Hr]; by intros v v' [= <-]).
    split; [done|]. by intros wr o' w2 _ [= _ <-].
  - by intros s w o w' id [= _ <-].
  - by intros s w o w' id [= _ <-].
  - by intros s s' w o w' id [= _ <-].
  - by intros s w o w' id [= _ <-].
  - intros s e i g w o w' id Hr. cbn in Hr. destruct (memory_lookup _ _); by injection Hr as _ <-.
Defined.
End memory.

Lemma exact_storage_ok : storage_ok exact_storage.
Proof. split_and!; [by intros n b [??]|done|intros ver _; apply EqualFold_refl]. Qed.

(** ** The properties at concrete inputs *)

Definition service_port_80 : Service := example_svc ∅ [example_port "TCP" 80 30080].

(** A specification with the listener and the backend set TCP-80. *)
Definition example_lbspec : LBSpec (RS := ()) := {|
  spec_Type := LB; spec_Name := "lb"; spec_Shape := flexible; spec_FlexMin := Some 10%Z;
  spec_FlexMax := Some 100%Z; spec_Subnets := ["subnet"]; spec_Internal := false;
  spec_Listeners := {["TCP-80" := example_listener "TCP" 80]};
  spec_BackendSets := {["TCP-80" := example_backend_set "TCP-80" ["10.0.0.1"; "10.0.0.2"] 30080]};
  spec_LoadBalancerIP := ""; spec_IsPreserveSource := Some false;
  spec_Ports := {["TCP-80" := {| ListenerPort := 80; BackendPort := 30080; HealthCheckerPort := 10256 |}]};
  spec_SourceCIDRs := ["0.0.0.0/0"]; spec_SSLConfig := None;
  spec_securityListManager := securityListManagerNOOP; spec_ManagedNetworkSecurityGroup := None;
  spec_NetworkSecurityGroupIds := ["nsg"]; spec_IpVersions := dual_versions; spec_FreeformTags := ∅;
  spec_DefinedTags := ∅; spec_SystemTags := None; spec_ingressIpMode := None;
  spec_Compartment := "compartment"; spec_RuleSets := None; spec_AssignedPrivateIpv4 := None;
  spec_AssignedIpv6 := None; spec_service := service_port_80; spec_nodes := [] |}.

(** A load balancer with a listener on port 81 and old backends. *)
Definition example_actual (backend_sets : gmap string GenericBackendSetDetails)
    (listeners : gmap string GenericListener) : GenericLoadBalancer () := {|
  lb_Id := Some "lb"; lb_CompartmentId := None; lb_DisplayName := None; lb_LifecycleState := None;
  lb_ShapeName := Some lbDefaultShape; lb_IpAddresses := []; lb_ShapeDetails := None;
  lb_IsPrivate := None; lb_SubnetIds := ["subnet"]; lb_NetworkSecurityGroupIds := Some [];
  lb_Listeners := listeners; lb_Certificates := ∅; lb_BackendSets := backend_sets; lb_RuleSets := ∅;
  lb_IpVersion := None; lb_FreeformTags := ∅; lb_DefinedTags := ∅; lb_SystemTags := None |}.

Definition example_lb_world (lb : GenericLoadBalancer ()) : lb_world () := {|
  lw_lbs := {["lb" := view_of lb]};
  lw_subnets := {["subnet" := family_subnet (Some "10.0.0.0/24") None]}; lw_lists := ∅; lw_names := ∅;
  lw_groups := ∅; lw_services := ∅ |}.

Definition old_listener : GenericListener := {|
  ln_Name := Some "TCP-81"; ln_DefaultBackendSetName := Some "TCP-81"; ln_Port := Some 81%Z;
  ln_Protocol := Some "TCP"; ln_HostnameNames := []; ln_PathRouteSetName := None;
  ln_SslConfiguration := None; ln_ConnectionConfiguration := None; ln_RoutingPolicyName := None;
  ln_RuleSetNames := []; ln_IpVersion := None; ln_IsPpv2Enabled := None |}.

Definition old_lb : GenericLoadBalancer () :=
  example_actual {["TCP-81" := example_backend_set "TCP-81" ["10.0.0.9"] 30081]} {["TCP-81" := old_listener]}.

Definition stale_lb : GenericLoadBalancer () :=
  example_actual (<["TCP-80" := example_backend_set "TCP-80" ["10.0.0.9"] 30080]>
    {["TCP-81" := example_backend_set "TCP-81" ["10.0.0.9"] 30081]}) {["TCP-81" := old_listener]}.

Lemma updateLoadBalancerBackends_correct_witness :
  let _ := example_parsers in
  let _ := list_range in
  let _ := memory_lb exact_storage in
  ∃ w', updateLoadBalancerBackends 0 stale_lb example_lbspec (example_lb_world stale_lb) = (Ret (), w') ∧
    v_Listeners (stored_view w' "lb") = {["TCP-81" := old_listener]}.
Proof.
  intros P R L. pose (memory_lb_laws (RS := ()) exact_storage exact_storage_ok) as Laws. fold L in Laws. cbv zeta in Laws.
  destruct (updateLoadBalancerBackends 0 stale_lb example_lbspec (example_lb_world stale_lb)) as [o w'] eqn:Hr.
  assert (o = Ret ()) as ->.
  { apply (f_equal (λ p, is_ret p.1)) in Hr. vm_compute in Hr. by destruct o as [[]| |]. }
  exists w'. split; [done|].
  pose proof (updateLoadBalancerBackends_correct (LbLaws0 := Laws) "lb" stale_lb example_lbspec) as Hthm.
  edestruct (λ H1 H2 H3, Hthm H1 H2 H3 0 (example_lb_world stale_lb) w' eq_refl Hr) as (_ & Hl & _).
  - simpl. intros n b [[<- <-]|[_ [<- <-]%lookup_singleton_Some]]%lookup_insert_Some;
      (split; [apply example_backend_set_ok|done]).
  - simpl. intros n b [<- <-]%lookup_singleton_Some. apply example_backend_set_ok.
  - done.
  - exact Hl.
Defined.
