(* ===== verification/Handlers.v ===== *)
(** * The handlers of the cloud provider (load_balancer.go)

    [GetLoadBalancer], [EnsureLoadBalancer], [UpdateLoadBalancer] and
    [EnsureLoadBalancerDeleted], which the service controller of Kubernetes calls,
    with creation, certificates, managed network security groups and clean-up.  The
    state of a handler is the table of locks and the world behind the services. *)
From stdpp Require Import base tactics list gmap sets strings.
From S2P Require Import Prelude GoStrings Types ClientErrors Locks SecurityLists SecurityListManager NetworkSecurityGroups Annotations Provider Names Diff Spec IpVersions LoadBalancer.

(** ** The services *)

(** The calls of [client.GenericLoadBalancerInterface] that find, create and delete
    load balancers; the first argument of the calls by name is the type of the load
    balancer, which selects the client.  [WorkloadIdentityClient] tells whether a
    client of the type can be made for a service account token. *)
Class LbAdminClient (W RS : Type) := {
  WorkloadIdentityClient : string → string → bool;
  GetLoadBalancerByName : string → string → string → M W (GenericLoadBalancer RS);
  GetLoadBalancer_call : string → M W (GenericLoadBalancer RS);
  CreateLoadBalancer_call : string → GenericCreateLoadBalancerDetails RS → string → M W string;
  DeleteLoadBalancer_call : string → M W string;
  CreateCertificate : string → GenericCertificate → M W string;
  ListWorkRequests : string → string → M W (list GenericWorkRequest);
}.

(** [core.PublicIp], the fields the code reads. *)
Record PublicIp := {
  pip_Id : option string;
  pip_LifecycleState : string;
}.

(** The networking calls on groups and addresses; an address is looked up with the
    client of the service account token, if there is one. *)
Class NsgAdminClient (W : Type) := {
  CreateNetworkSecurityGroup : string → string → string → string → M W NetworkSecurityGroup;
  ListNetworkSecurityGroups : string → string → string → M W (list NetworkSecurityGroup);
  UpdateNetworkSecurityGroup : string → string → gmap string string → M W NetworkSecurityGroup;
  DeleteNetworkSecurityGroup : string → string → M W (option string);
  GetPublicIpByIpAddress : option string → string → M W PublicIp;
}.

(** The Kubernetes API: services and service accounts by namespace and name, and
    [apierrors.IsNotFound]. *)
Class KubeClient (W : Type) := {
  Services_Get : string → string → M W Service;
  apierrors_IsNotFound : error → bool;
  ServiceAccounts_Get : string → string → M W ();
  ServiceAccounts_CreateToken : string → string → Z → M W string;
}.

(** [labels.Parse]: the predicate of a selector. *)
Class LabelParser := { labels_Parse : string → error + (gmap string string → bool) }.

(** The fields of [CloudProvider] the handlers read: settings of the configuration
    and of the process, the nodes in the informer's cache, the data of a secret, and
    the factory of security list managers. *)
Record CloudProvider := {
  cp_CompartmentID : string;
  cp_VCNID : string;
  cp_Subnet1 : string;
  cp_Subnet2 : string;
  cp_Tags : option InitialTags;
  cp_prefixEnv : string;
  cp_enableOkeSystemTags : bool;
  cp_NodeLister : error + list Node;
  cp_Secrets : string → string → error + gmap string string;
  cp_securityListManagerFactory : string → securityListManager;
}.

Definition MaxNsgPerVnic : nat := 5.
Definition serviceAccountTokenExpiry : Z := 21600.
Definition lbLifecycleStateActive : string := "ACTIVE".
Definition LifecycleStateUpdating : string := "UPDATING".
Definition WorkRequestLifecycleStateInProgress : string := "IN_PROGRESS".
Definition WorkRequestLifecycleStateAccepted : string := "ACCEPTED".
Definition PublicIpLifecycleStateAvailable : string := "AVAILABLE".
Definition SSLCAFileName : string := "ca.crt".
Definition SSLCertificateFileName : string := "tls.crt".
Definition SSLPrivateKeyFileName : string := "tls.key".
Definition SSLPassphrase : string := "passphrase".

(** [TryAcquire] and the deferred [Release] around the body of a handler; the lock
    is released when the body returns, fails or panics. *)
Definition with_lock {W A} (name : string) (body : M W A) : M (loadBalancerLocks * W) A := λ '(locks, w),
  let '(acquired, locks') := TryAcquire locks name in
  if acquired then let '(o, w') := body w in (o, (Release locks' name, w'))
  else (Err LbOperationAlreadyExists, (locks', w)).

(** A computation that does not use the locks. *)
Definition unlocked {W A} (c : M W A) : M (loadBalancerLocks * W) A := λ '(locks, w),
  let '(o, w') := c w in (o, (locks, w')).

Section handlers.
Context {W RS : Type} `{!LbClient W RS, !SubnetClient W, !SecurityListClient W, !NsgClient W}.
Context `{!LbAdminClient W RS, !NsgAdminClient W, !KubeClient W, !RegionalClient W}.
Context `{!Parsers RS, !LabelParser, !MapRange, !EqDecision RS}.
Implicit Types (cp : CloudProvider) (service : Service).

(** ** Clients and services *)

(** [client.LoadBalancer], whether it answers a client. *)
Definition client_LoadBalancer (lbType : string) (token : option string) : bool :=
  match token with
  | None => bool_decide (lbType = NLB ∨ lbType = LB)
  | Some token => WorkloadIdentityClient lbType token
  end.

Definition getServiceAccountTokenIfSet service : M W string :=
  let account := annotation_value service ServiceAnnotationServiceAccountName in
  _ ← ServiceAccounts_Get (svc_Namespace service) account;
  ServiceAccounts_CreateToken (svc_Namespace service) account serviceAccountTokenExpiry.

(** The token of the provider; the clients are the classes.  Where a new error
    quotes the text of another, the quotation is left out. *)
Definition getLoadBalancerProvider service : M W (option string) :=
  let lbType := getLoadBalancerType service in
  serviceAccountToken ←
    match annotation service ServiceAnnotationServiceAccountName with
    | None => mret None
    | Some sa =>
        if decide (sa = "") then
          fail (Errorf ("Error fetching service account, empty string provided via "
                        +:+ ServiceAnnotationServiceAccountName) [])
        else
          r ← try (getServiceAccountTokenIfSet service);
          match r with
          | inl _ => fail (Errorf "Unable to get service account token. Error:" [])
          | inr token => mret (Some token)
          end
    end;
  if client_LoadBalancer lbType serviceAccountToken then mret serviceAccountToken
  else fail (Errorf "Error creating Workload Identity based %s Client. Perhaps you are using an OKE BASIC_CLUSTER?"
               [lbType]).

(** [true] with a nil error, or the error that comes with [true]. *)
Definition serviceDeletedOrDoesNotExist service : M W bool :=
  r ← try (Services_Get (svc_Namespace service) (svc_Name service));
  match r with
  | inl err => if apierrors_IsNotFound err then mret true
               else fail (Errorf "Unable to check if service still exists. Error:" [])
  | inr service => mret (bool_decide (is_Some (svc_DeletionTimestamp service)))
  end.

(** The check both handlers begin with. *)
Definition check_service_exists service : M W () :=
  deleted ← wrapM (serviceDeletedOrDoesNotExist service) "Failed to check service status" [];
  if (deleted : bool) then fail (Errorf "Service already deleted or no more exists" []) else mret ().

(** The load balancer of the service; [None] when there is none. *)
Definition find_load_balancer cp service : M W (option (GenericLoadBalancer RS)) :=
  r ← try (GetLoadBalancerByName (getLoadBalancerType service)
             (getLoadBalancerCompartment service (cp_CompartmentID cp))
             (GetLoadBalancerName (cp_prefixEnv cp) service));
  match r with
  | inr lb => mret (Some lb)
  | inl err => if IsNotFound (Some err) then mret None else fail err
  end.

Definition getNodeFilter service : error + (gmap string string → bool) :=
  let labelSelector :=
    if decide (getLoadBalancerType service = NLB)
    then annotation_value service ServiceAnnotationNetworkLoadBalancerNodeFilter
    else annotation_value service ServiceAnnotationLoadBalancerNodeFilter in
  if decide (labelSelector = "") then inr (λ _, true) else labels_Parse labelSelector.

(** [GetLoadBalancer]: the status, if the load balancer exists. *)
Definition GetLoadBalancer cp service : M W (option (list LoadBalancerIngress)) :=
  _ ← wrapM (getLoadBalancerProvider service) "Unable to get Load Balancer Client." [];
  lb ← find_load_balancer cp service;
  match lb with
  | None => mret None
  | Some lb =>
      skipPrivateIP ← lift (isSkipPrivateIP service);
      lbStatus ← lift (loadBalancerToStatus lb None skipPrivateIP);
      mret (Some lbStatus)
  end.

(** ** Certificates and addresses *)

Definition readSSLSecret cp : sslSecretReader := λ ns name,
  data ← of_sum (cp_Secrets cp ns name);
  match data !! SSLCertificateFileName, data !! SSLPrivateKeyFileName with
  | None, _ => Err (Errorf "%s not found in secret %s/%s" [SSLCertificateFileName; ns; name])
  | _, None => Err (Errorf "%s not found in secret %s/%s" [SSLPrivateKeyFileName; ns; name])
  | Some cert, Some key =>
      Ret (Some {| cd_Name := ""; cd_CACert := default "" (data !! SSLCAFileName); cd_PublicCert := cert;
                   cd_PrivateKey := key; cd_Passphrase := default "" (data !! SSLPassphrase) |})
  end.

(** Certificates the load balancer does not have yet are created. *)
Definition ensureSSLCertificates (site : nat) (lb : GenericLoadBalancer RS) (spec : LBSpec (RS := RS)) : M W () :=
  id ← lift (deref (lb_Id lb));
  certs ← lift (Certificates spec);
  forM (range site certs) (λ '(_, cert),
    name ← lift (deref (cert_CertificateName cert));
    if decide (is_Some (lb_Certificates lb !! name)) then mret ()
    else wrID ← CreateCertificate id cert; await wrID).

Definition getReservedIpOcidByIpAddress (token : option string) (ipAddress : string) : M W (option string) :=
  publicIp ← GetPublicIpByIpAddress token ipAddress;
  if decide (pip_LifecycleState publicIp ≠ PublicIpLifecycleStateAvailable)
  then fail (Errorf "The IP address provided is not available for use." [])
  else mret (pip_Id publicIp).

(** ** Creation *)

(** [delete(spec.DefinedTags, OkeSystemTagNamesapce)]. *)
Definition without_system_tags (s : LBSpec (RS := RS)) : LBSpec := {|
    spec_Type := spec_Type s; spec_Name := spec_Name s; spec_Shape := spec_Shape s;
    spec_FlexMin := spec_FlexMin s; spec_FlexMax := spec_FlexMax s; spec_Subnets := spec_Subnets s;
    spec_Internal := spec_Internal s; spec_Listeners := spec_Listeners s;
    spec_BackendSets := spec_BackendSets s; spec_LoadBalancerIP := spec_LoadBalancerIP s;
    spec_IsPreserveSource := spec_IsPreserveSource s; spec_Ports := spec_Ports s;
    spec_SourceCIDRs := spec_SourceCIDRs s; spec_SSLConfig := spec_SSLConfig s;
    spec_securityListManager := spec_securityListManager s;
    spec_ManagedNetworkSecurityGroup := spec_ManagedNetworkSecurityGroup s;
    spec_NetworkSecurityGroupIds := spec_NetworkSecurityGroupIds s; spec_IpVersions := spec_IpVersions s;
    spec_FreeformTags := spec_FreeformTags s;
    spec_DefinedTags := delete OkeSystemTagNamesapce (spec_DefinedTags s);
    spec_SystemTags := spec_SystemTags s; spec_ingressIpMode := spec_ingressIpMode s;
    spec_Compartment := spec_Compartment s; spec_RuleSets := spec_RuleSets s;
    spec_AssignedPrivateIpv4 := spec_AssignedPrivateIpv4 s; spec_AssignedIpv6 := spec_AssignedIpv6 s;
    spec_service := spec_service s; spec_nodes := spec_nodes s |}.

(** The tags of the request: no system tags beyond the limit, nor with a workload
    identity.  The deletion also changes the map of the specification, which is not
    read again except by the second attempt, where the tags are deleted anyway. *)
Definition create_tags (spec : LBSpec (RS := RS)) : gmap string (gmap string string) :=
  let tags := spec_DefinedTags spec in
  let tags := if decide (MaxDefinedTagPerResource < size tags)
              then delete OkeSystemTagNamesapce tags else tags in
  if decide (is_Some (annotation (spec_service spec) ServiceAnnotationServiceAccountName))
  then delete OkeSystemTagNamesapce tags else tags.

Definition create_details (spec : LBSpec (RS := RS)) (certs : gmap string GenericCertificate)
    (reservedIps : list (option string)) : GenericCreateLoadBalancerDetails RS := {|
  cld_CompartmentId := Some (spec_Compartment spec); cld_DisplayName := Some (spec_Name spec);
  cld_ShapeName := Some (spec_Shape spec); cld_SubnetIds := spec_Subnets spec;
  cld_ShapeDetails := if decide (spec_Shape spec = flexible)
    then Some {| sd_MinimumBandwidthInMbps := spec_FlexMin spec;
                 sd_MaximumBandwidthInMbps := spec_FlexMax spec |} else None;
  cld_IsPrivate := Some (spec_Internal spec); cld_IsPreserveSourceDestination := None;
  cld_ReservedIps := reservedIps; cld_Listeners := spec_Listeners spec;
  cld_BackendSets := spec_BackendSets spec; cld_NetworkSecurityGroupIds := spec_NetworkSecurityGroupIds spec;
  cld_FreeformTags := spec_FreeformTags spec; cld_DefinedTags := create_tags spec;
  cld_IpVersion := iv_LbEndpointIpVersion (spec_IpVersions spec); cld_Certificates := certs;
  cld_RuleSets := spec_RuleSets spec;
  cld_AssignedPrivateIpv4 := if decide (getLoadBalancerType (spec_service spec) = NLB)
    then spec_AssignedPrivateIpv4 spec else None;
  cld_AssignedIpv6 := if decide (getLoadBalancerType (spec_service spec) = NLB)
    then spec_AssignedIpv6 spec else None |}.

(** The status and the OCID of the new load balancer. *)
Definition createLoadBalancer (token : option string) (site : nat) (spec : LBSpec (RS := RS))
    : M W (list LoadBalancerIngress * string) :=
  let lbType := getLoadBalancerType (spec_service spec) in
  lbSubnets ← wrapM (getSubnets (spec_Subnets spec)) "getting subnets for load balancers" [];
  nodeSubnets ← wrapM (getSubnetsForNodes (spec_nodes spec)) "getting subnets for nodes" [];
  certs ← wrapM (lift (Certificates spec)) "get certificates" [];
  reservedIps ← (if decide (spec_LoadBalancerIP spec ≠ "") then
                   reservedIpOCID ← getReservedIpOcidByIpAddress token (spec_LoadBalancerIP spec);
                   mret [reservedIpOCID]
                 else mret []);
  wrID ← wrapM (CreateLoadBalancer_call lbType (create_details spec certs reservedIps)
                  (svc_UID (spec_service spec))) "creating load balancer" [];
  wr ← wrapM (AwaitWorkRequest wrID) "awaiting load balancer" [];
  match wr_LoadBalancerId wr with
  | None => fail (Errorf "Could not get LoadBalancerId from workrequest" [])
  | Some loadBalancerId =>
      lb ← wrapM (GetLoadBalancer_call loadBalancerId) "get load balancer %q" [loadBalancerId];
      lbOCID ← lift (deref (lb_Id lb));
      skipPrivateIP ← lift (isSkipPrivateIP (spec_service spec));
      status ← lift (loadBalancerToStatus lb (spec_ingressIpMode spec) skipPrivateIP);
      _ ← (if decide (0 < length status)
           then updateSecurityListsInCriticalSection site spec lbSubnets nodeSubnets else mret ());
      mret (status, lbOCID)
  end.

(** ** Managed network security groups *)

(** The tags of a group the provider created for a service. *)
Definition managed_tags (uid : string) : gmap string string :=
  <["CreatedBy" := "CCM"]> {["ServiceUid" := uid]}.

Definition deleteNsg (id etag : string) : M W () := _ ← DeleteNetworkSecurityGroup id etag; mret ().

(** The id and the etag of the group if it is the managed one of the service. *)
Definition getFrontendNsg (id uid : string) : M W (string * option string) :=
  '(nsg, etag) ← GetNetworkSecurityGroup id;
  match etag with
  | None => mret ("", None)
  | Some etag =>
      if decide (nsg_FreeformTags nsg = Some (managed_tags uid))
      then mret (default "" (nsg_Id nsg), Some etag) else mret ("", None)
  end.

Fixpoint first_frontend_nsg (uid : string) (nsgs : list NetworkSecurityGroup) : M W (string * option string) :=
  match nsgs with
  | [] => mret ("", None)
  | nsg :: rest =>
      '(frontendNsgId, etag) ← getFrontendNsg (default "" (nsg_Id nsg)) uid;
      if decide (frontendNsgId ≠ "") then mret (frontendNsgId, etag) else first_frontend_nsg uid rest
  end.

(** The error of the list call is overwritten or dropped; the groups are nil then. *)
Definition getFrontendNsgByName (displayName compartmentId vcnId uid : string) : M W (string * option string) :=
  r ← try (ListNetworkSecurityGroups displayName compartmentId vcnId);
  match r with
  | inl _ => mret ("", None)
  | inr nsgs => first_frontend_nsg uid nsgs
  end.

(** The managed group among those attached to a load balancer; errors are reported
    and skipped. *)
Fixpoint attached_frontend_nsg (uid : string) (nsgs : list string) : M W (string * option string) :=
  match nsgs with
  | [] => mret ("", None)
  | id :: rest =>
      r ← try (getFrontendNsg id uid);
      let '(frontendNsgId, etag) := match r with inl _ => ("", None) | inr p => p end in
      if decide (frontendNsgId ≠ "") then mret (frontendNsgId, etag) else attached_frontend_nsg uid rest
  end.

(** The managed group of the service, if there is one already: the group attached to
    its load balancer or, when none is attached, one with its name. *)
Definition existing_frontend_nsg cp service (lb : option (GenericLoadBalancer RS)) (compartment : string)
    : M W string :=
  let by_name :=
    '(frontendNsgId, _) ← getFrontendNsgByName (generateNsgName service) compartment (cp_VCNID cp) (svc_UID service);
    mret frontendNsgId in
  match lb with
  | None => by_name
  | Some lb =>
      match lb_Id lb, lb_NetworkSecurityGroupIds lb with
      | Some _, Some nsgs =>
          '(frontendNsgId, _) ← attached_frontend_nsg (svc_UID service) nsgs;
          if decide (frontendNsgId ≠ "") then mret frontendNsgId else by_name
      | _, _ => mret ""
      end
  end.

(** The group that fronts the service, created if necessary, and the specification
    with it. *)
Definition ensure_frontend_nsg cp service (lb : option (GenericLoadBalancer RS)) (spec : LBSpec (RS := RS))
    : M W (string * LBSpec) :=
  existing ← existing_frontend_nsg cp service lb (spec_Compartment spec);
  frontendNsgId ←
    (if decide (existing ≠ "") then mret existing
     else if decide (MaxNsgPerVnic ≤ length (spec_NetworkSecurityGroupIds spec))
     then fail (Errorf "invalid number of Network Security Groups (Max: 5) including managed nsg" [])
     else
       resp ← CreateNetworkSecurityGroup (spec_Compartment spec) (cp_VCNID cp) (generateNsgName service)
                (svc_UID service);
       lift (deref (nsg_Id resp)));
  spec ← lift (addFrontendNsgToSpec (Some spec) frontendNsgId);
  mret (frontendNsgId, spec).

(** Backend groups are marked as managed; writing to nil tags panics. *)
Definition mark_backend_nsg (nsg : string) : M W () :=
  '(resp, etag) ← GetNetworkSecurityGroup nsg;
  match nsg_FreeformTags resp ≫= (.!! "ManagedBy"), etag with
  | None, Some etag =>
      freeformTags ← lift (deref (nsg_FreeformTags resp));
      response ← UpdateNetworkSecurityGroup nsg etag (<["ManagedBy" := "CCM"]> freeformTags);
      _ ← lift (deref (nsg_Id response)); mret ()
  | _, _ => mret ()
  end.

(** The components of the rules of network security groups. *)
Definition nsg_components (frontendNsgId : string) (backendNsgs : list string) (ports : gmap string portSpec)
    (sourceCIDRs : list string) (isPreserveSource : bool) service : securityRuleComponents := {|
  sc_frontendNsgOcid := frontendNsgId; sc_backendNsgOcids := backendNsgs; sc_ports := ports;
  sc_sourceCIDRs := sourceCIDRs; sc_isPreserveSource := isPreserveSource;
  sc_serviceUid := "service-uid-" +:+ svc_UID service; sc_lbSubnets := []; sc_backendSubnets := [];
  sc_actualPorts := None; sc_desiredPorts := portSpec_zero; sc_ipFamilies := [] |}.

(** The part of [EnsureLoadBalancer] for services whose rules are kept in groups. *)
Definition ensure_nsgs cp service (lb : option (GenericLoadBalancer RS)) (spec : LBSpec (RS := RS))
    : M W LBSpec :=
  if requiresNsgManagement service then
    managed ← lift (deref (spec_ManagedNetworkSecurityGroup spec));
    let backendNsgs := mn_backendNsgId managed in
    '(frontendNsgId, spec) ← ensure_frontend_nsg cp service lb spec;
    _ ← forM backendNsgs mark_backend_nsg;
    isPreserveSource ← lift (deref (spec_IsPreserveSource spec));
    _ ← reconcileSecurityGroup
          (nsg_components frontendNsgId backendNsgs (spec_Ports spec) (spec_SourceCIDRs spec)
             isPreserveSource service);
    mret spec
  else mret spec.

(** ** Checks and the specification *)

(** [NLB]s that are updating, and load balancers with a work request that is accepted
    or in progress, are left alone. *)
Definition checkPendingLBWorkRequests (lb : GenericLoadBalancer RS) service : M W () :=
  if decide (getLoadBalancerType service = NLB) then
    lifecycleState ← lift (deref (lb_LifecycleState lb));
    if decide (lifecycleState = LifecycleStateUpdating)
    then fail (Errorf "Load Balancer might have work requests in progress, will wait and retry" [])
    else mret ()
  else
    compartmentId ← lift (deref (lb_CompartmentId lb));
    id ← lift (deref (lb_Id lb));
    lbInProgressWorkRequests ← ListWorkRequests compartmentId id;
    forM lbInProgressWorkRequests (λ wr,
      lifecycleState ← lift (deref (wr_LifecycleState wr));
      if decide (lifecycleState = WorkRequestLifecycleStateInProgress ∨
                 lifecycleState = WorkRequestLifecycleStateAccepted)
      then _ ← lift (deref (wr_Id wr));
           fail (Errorf "Load Balancer has work requests in progress, will wait and retry" [])
      else mret ()).

(** Only active load balancers are changed, and network load balancers that failed. *)
Definition check_lifecycle (lb : GenericLoadBalancer RS) service : outcome () :=
  if decide (lb_LifecycleState lb = Some lbLifecycleStateActive) then mret ()
  else if decide (getLoadBalancerType service = NLB) then
    lifecycleState ← deref (lb_LifecycleState lb);
    if decide (lifecycleState = LifecycleStateFailed) then mret ()
    else Err (Errorf "NLB is in %s state, wait for NLB to move to %s" [lifecycleState; lbLifecycleStateActive])
  else Err (Errorf "rejecting request to update LB which is not in %s state" [lbLifecycleStateActive]).

Definition handler_ssl_config cp service : outcome (option SSLConfig) :=
  if requiresCertificate service then
    ports ← getSSLEnabledPorts service;
    cfg ← NewSSLConfig (annotation_value service ServiceAnnotationLoadBalancerTLSSecret)
            (annotation_value service ServiceAnnotationLoadBalancerTLSBackendSetSecret) service ports
            (Some (readSSLSecret cp));
    mret (Some cfg)
  else mret None.

(** The specification that [EnsureLoadBalancer] and [UpdateLoadBalancer] derive. *)
Definition handler_spec cp (site : nat) service (nodes : list Node) (lb : option (GenericLoadBalancer RS))
    : M W LBSpec :=
  sslConfig ← lift (handler_ssl_config cp service);
  lbSubnetIds ← getLoadBalancerSubnets (cp_Subnet1 cp) (cp_Subnet2 cp) service;
  lbSubnets ← getSubnets lbSubnetIds;
  nodeSubnets ← getSubnetsForNodes nodes;
  ipVersions ← lift (getOciIpVersions (Some <$> lbSubnets) (Some <$> nodeSubnets) service);
  lift (NewLBSpec (cp_prefixEnv cp) (cp_enableOkeSystemTags cp) site service nodes lbSubnetIds sslConfig
          (cp_securityListManagerFactory cp) ipVersions (cp_Tags cp) lb (cp_CompartmentID cp)).

(** ** EnsureLoadBalancer *)

(** The branch that creates the load balancer: if the system tags are refused, a
    second attempt does without them. *)
Definition ensure_created (token : option string) (site : nat) (spec : LBSpec (RS := RS))
    : M W (list LoadBalancerIngress) :=
  r ← try (createLoadBalancer token site spec);
  match r with
  | inr (status, _) => mret status
  | inl err =>
      if IsSystemTagNotFoundOrNotAuthorisedError (Some err) then
        '(status, _) ← createLoadBalancer token (S site) (without_system_tags spec);
        mret status
      else fail err
  end.

(** The branch that updates it; a network partition stops it quietly. *)
Definition ensure_updated cp (site : nat) service (clusterNodes : list Node) (lb : GenericLoadBalancer RS)
    (spec : LBSpec (RS := RS)) : M W (option (list LoadBalancerIngress)) :=
  _ ← lift (check_lifecycle lb service);
  spec ← lift (updateSpecWithLbSubnets (Some spec) (lb_SubnetIds lb));
  _ ← (if requiresCertificate service
       then wrapM (ensureSSLCertificates site lb spec) "ensuring ssl certificates" [] else mret ());
  isNetworkPartition ← lift (checkForNetworkPartition (cp_NodeLister cp) clusterNodes);
  if (isNetworkPartition : bool) then mret None
  else
    _ ← updateLoadBalancer (cp_enableOkeSystemTags cp) (S site) lb spec;
    skipPrivateIP ← lift (isSkipPrivateIP service);
    status ← lift (loadBalancerToStatus lb (spec_ingressIpMode spec) skipPrivateIP);
    mret (Some status).

Definition ensure_locked cp (site : nat) service (clusterNodes : list Node)
    : M W (option (list LoadBalancerIngress)) :=
  nodes ← lift (filterNodes (getNodeFilter service) clusterNodes);
  token ← wrapM (getLoadBalancerProvider service) "Unable to get Load Balancer Client." [];
  lb ← find_load_balancer cp service;
  _ ← match lb with
      | Some lb => if decide (is_Some (lb_Id lb)) then checkPendingLBWorkRequests lb service else mret ()
      | None => mret ()
      end;
  spec ← handler_spec cp site service nodes lb;
  spec ← ensure_nsgs cp service lb spec;
  match lb with
  | None => status ← ensure_created token (4 + site) spec; mret (Some status)
  | Some lb => ensure_updated cp (4 + site) service clusterNodes lb spec
  end.

(** A status, or [None] for a nil status without an error. *)
Definition EnsureLoadBalancer cp (site : nat) service (clusterNodes : list Node)
    : M (loadBalancerLocks * W) (option (list LoadBalancerIngress)) :=
  _ ← unlocked (check_service_exists service);
  with_lock (lock_name service) (ensure_locked cp site service clusterNodes).

(** ** UpdateLoadBalancer *)

Definition update_locked cp (site : nat) service (nodes : list Node) : M W () :=
  nodes ← lift (filterNodes (getNodeFilter service) nodes);
  isNetworkPartition ← lift (checkForNetworkPartition (cp_NodeLister cp) nodes);
  if (isNetworkPartition : bool) then mret ()
  else
    _ ← wrapM (getLoadBalancerProvider service) "Unable to get Load Balancer Client." [];
    lb ← find_load_balancer cp service;
    match lb with
    | None => mret ()
    | Some lb =>
        _ ← lift (check_lifecycle lb service);
        match lb_Id lb with
        | None => fail (Errorf "Load Balancer service returned empty Id, will wait and retry" [])
        | Some _ =>
            _ ← checkPendingLBWorkRequests lb service;
            spec ← handler_spec cp site service nodes (Some lb);
            spec ← lift (updateSpecWithLbSubnets (Some spec) (lb_SubnetIds lb));
            updateLoadBalancerBackends (4 + site) lb spec
        end
    end.

Definition UpdateLoadBalancer cp (site : nat) service (nodes : list Node) : M (loadBalancerLocks * W) () :=
  _ ← unlocked (check_service_exists service);
  with_lock (lock_name service) (update_locked cp site service nodes).

(** ** EnsureLoadBalancerDeleted *)

(** The nodes with these internal addresses; of two nodes with the same addresses the
    later one is found. *)
Definition getNodesAndPodsByIPs cp (backendIPs : list IpAddresses) : outcome (list Node) :=
  nodeList ← of_sum (cp_NodeLister cp);
  mret (omap (λ ip, last (filter (λ node, NodeInternalIP node = ip) nodeList)) backendIPs).

(** One turn of the loop over the backends: the pair of addresses is not reset, and
    the set collects every value it takes. *)
Definition backend_ip_step (st : IpAddresses * list IpAddresses) (backend : GenericBackend)
    : outcome (IpAddresses * list IpAddresses) :=
  ip ← deref (be_IpAddress backend);
  let ips := if IsIPv6String ip then {| V4 := V4 st.1; V6 := ip |} else {| V4 := ip; V6 := V6 st.1 |} in
  mret (ips, if decide (ips ∈ st.2) then st.2 else st.2 ++ [ips]).

Definition backend_ips (site : nat) (lb : GenericLoadBalancer RS) : outcome (list IpAddresses) :=
  let none := {| V4 := ""; V6 := "" |} in
  st ← foldl (λ acc backend, st ← acc; backend_ip_step st backend) (mret (none, [none]))
         (flat_map (λ '(_, backendSet), bs_Backends backendSet) (range site (lb_BackendSets lb)));
  mret st.2.

(** The components of the security list rules of one listener. *)
Definition cleanup_components (lbSubnets nodeSubnets : list Subnet) (sourceCIDRs : list string)
    (ports : portSpec) (isPreserveSource : bool) (versions : IpVersions) : securityRuleComponents := {|
  sc_frontendNsgOcid := ""; sc_backendNsgOcids := []; sc_ports := ∅; sc_sourceCIDRs := sourceCIDRs;
  sc_isPreserveSource := isPreserveSource; sc_serviceUid := ""; sc_lbSubnets := lbSubnets;
  sc_backendSubnets := nodeSubnets; sc_actualPorts := None; sc_desiredPorts := ports;
  sc_ipFamilies := convertOciIpVersionsToOciIpFamilies (iv_ListenerBackendIpVersion versions) |}.

(** One turn of the loop over the listeners of the load balancer. *)
Definition cleanup_listener (lb : GenericLoadBalancer RS) service (name id mode : string)
    (manager : securityListManager) (components : list string → portSpec → securityRuleComponents)
    (listenerName : string) (listener : GenericListener) : M W () :=
  backendSetName ← lift (deref (ln_DefaultBackendSetName listener));
  match lb_BackendSets lb !! backendSetName with
  | None => fail (Errorf "backend set %q missing (loadbalancer=%q)" [backendSetName; id])
  | Some bs =>
      ports ← lift (portsFromBackendSet bs);
      listenerPort ← lift (deref (ln_Port listener));
      let ports := {| ListenerPort := listenerPort; BackendPort := BackendPort ports;
                      HealthCheckerPort := HealthCheckerPort ports |} in
      sourceCIDRs ← wrapM (lift (getLoadBalancerSourceRanges service))
                      "delete security rules for listener %q on load balancer %q" [listenerName; name];
      if decide (mode = ManagementModeAll ∨ mode = ManagementModeFrontend)
      then wrapM (manager_Delete manager (components sourceCIDRs ports))
             "delete security rules for listener %q on load balancer %q" [listenerName; name]
      else mret ()
  end.

(** The lock [updateRulesMutex] is held around the function. *)
Definition cleanupSecurityRulesForLoadBalancerDelete cp (site : nat) (lb : GenericLoadBalancer RS) service
    (name frontendNsgOcid : string) : M W () :=
  id ← lift (deref (lb_Id lb));
  ips ← lift (backend_ips site lb);
  nodes ← wrapM (lift (getNodesAndPodsByIPs cp (set_order (1 + site) ips))) "fetching nodes by internal ips" [];
  nodeSubnets ← wrapM (getSubnetsForNodes nodes) "getting subnets for nodes" [];
  lbSubnets ← wrapM (getSubnets (lb_SubnetIds lb)) "getting subnets for load balancers" [];
  '(mode, managedNsg) ← wrapM (lift (getRuleManagementMode service))
                          "failed to get Security Rule management mode" [];
  backendNsgIds ← wrapM (lift (getManagedBackendNSG service)) "failed to get backend Nsgs from spec" [];
  isPreserveSource ← wrapM (lift (getPreserveSource service))
                       "failed to determine value for is-preserve-source" [];
  ipVersions ← lift (getOciIpVersions (Some <$> lbSubnets) (Some <$> nodeSubnets) service);
  portsNsg ← wrapM (lift (getPorts (2 + site) service
               (convertOciIpVersionsToOciIpFamilies (iv_ListenerBackendIpVersion ipVersions))))
               "failed to get ports from spec" [];
  sourceCIDRs ← try (lift (getLoadBalancerSourceRanges service));
  _ ← (if decide (mode = NSG ∧ 0 < length backendNsgIds) then
         removeBackendSecurityGroupRules
           (nsg_components frontendNsgOcid backendNsgIds portsNsg
              (match sourceCIDRs with inl _ => [] | inr l => l end) isPreserveSource service)
       else mret ());
  forM (range (3 + site) (lb_Listeners lb)) (λ '(listenerName, listener),
    cleanup_listener lb service name id mode (cp_securityListManagerFactory cp mode)
      (λ sourceCIDRs ports,
         cleanup_components lbSubnets nodeSubnets sourceCIDRs ports isPreserveSource ipVersions)
      listenerName listener).

(** The managed group is deleted when its id and etag are known. *)
Definition delete_managed_nsg (mode : string) (frontendNsgId : string) (etag : option string) : M W () :=
  match etag with
  | Some etag => if decide (mode = NSG ∧ frontendNsgId ≠ "") then deleteNsg frontendNsgId etag else mret ()
  | None => mret ()
  end.

Definition delete_locked cp (site : nat) service : M W () :=
  let name := GetLoadBalancerName (cp_prefixEnv cp) service in
  let uid := svc_UID service in
  '(mode, _) ← wrapM (lift (getRuleManagementMode service)) "failed to get rule management mode" [];
  _ ← wrapM (getLoadBalancerProvider service) "Unable to get Load Balancer Client." [];
  lb ← wrapM (find_load_balancer cp service) "get load balancer %q by name" [name];
  match lb with
  | None =>
      if decide (mode = NSG) then
        '(frontendNsgId, etag) ← wrapM (getFrontendNsgByName (generateNsgName service)
             (getLoadBalancerCompartment service (cp_CompartmentID cp)) (cp_VCNID cp) uid)
             "failed to get frontend NSG" [];
        delete_managed_nsg mode frontendNsgId etag
      else mret ()
  | Some lb =>
      id ← lift (deref (lb_Id lb));
      '(frontendNsgId, etag) ←
        (if decide (mode = NSG) then attached_frontend_nsg uid (default [] (lb_NetworkSecurityGroupIds lb))
         else mret ("", None));
      _ ← (if decide (mode ≠ ManagementModeNone)
           then cleanupSecurityRulesForLoadBalancerDelete cp site lb service name frontendNsgId else mret ());
      workReqID ← wrapM (DeleteLoadBalancer_call id) "delete load balancer %q" [id];
      _ ← wrapM (await workReqID) "awaiting deletion of load balancer %q" [name];
      delete_managed_nsg mode frontendNsgId etag
  end.

Definition EnsureLoadBalancerDeleted cp (site : nat) service : M (loadBalancerLocks * W) () :=
  with_lock (lock_name service) (delete_locked cp site service).
End handlers.
