(* ===== verification/HandlersFacts.v ===== *)
(** * What the handlers achieve

    The laws of the services that the handlers rely on ([HandlerLaws]), and the
    theorems on [EnsureLoadBalancer], [UpdateLoadBalancer] and
    [EnsureLoadBalancerDeleted]: a service gets the load balancer its specification
    asks for, deletion removes it and only groups of its own, locks are released
    whatever happens, and load balancers that are not active are left alone. *)
From stdpp Require Import base tactics list gmap sets strings.
From S2P Require Import Prelude GoStrings Types ClientErrors Locks SecurityLists SecurityListManager NetworkSecurityGroups Annotations Provider Names Diff Spec IpVersions SpecFacts LoadBalancer LoadBalancerFacts Handlers.

(** ** The laws *)

(** What is shown of a load balancer that was created with these details; rule sets and
    a shape are for load balancers, an IP version for network load balancers. *)
Definition view_of_details {RS} (st : Storage) (d : GenericCreateLoadBalancerDetails RS) : LbView RS := {|
  v_BackendSets := map_imap (λ n b, Some (st_backend_set st n b)) (cld_BackendSets d);
  v_Listeners := map_imap (λ n l, Some (st_listener st n l)) (cld_Listeners d);
  v_RuleSets := if decide (st_type st = LB) then default ∅ (cld_RuleSets d) else ∅;
  v_Nsgs := cld_NetworkSecurityGroupIds d;
  v_ShapeName := if decide (st_type st = LB) then cld_ShapeName d else None;
  v_ShapeDetails := if decide (st_type st = LB) then st_shape st (cld_ShapeDetails d) else None;
  v_IpVersion := if decide (st_type st = NLB) then st_ip_version st <$> cld_IpVersion d else None |}.

(** Load balancers, their names, and the groups with their tags are as before. *)
Definition kept {W RS : Type} (view : W → string → LbView RS)
    (named : W → string → string → string → option string)
    (tags : W → string → option (option (gmap string string))) (w w' : W) : Prop :=
  (∀ id, view w' id = view w id) ∧ (∀ t c n, named w' t c n = named w t c n) ∧
  (∀ g, tags w' g = tags w g).

(** Load balancers and their names are as before. *)
Definition lbs_kept {W RS : Type} (view : W → string → LbView RS)
    (named : W → string → string → string → option string) (w w' : W) : Prop :=
  (∀ id, view w' id = view w id) ∧ (∀ t c n, named w' t c n = named w t c n).

(** [lb_named w t c n] is the id of the load balancer of type [t] in compartment [c]
    with name [n], and [nsg_tags w g] the tags of the group [g], where a group without
    tags may have nil tags.  Reads, rules and Kubernetes objects have no effect on
    these; names change by creation and deletion only. *)
Class HandlerLaws (W RS : Type) `{!LbClient W RS, !SubnetClient W, !SecurityListClient W, !NsgClient W}
    `{!LbAdminClient W RS, !NsgAdminClient W, !KubeClient W, !RegionalClient W, !LbLaws W RS} := {
  lb_named : W → string → string → string → option string;
  nsg_tags : W → string → option (option (gmap string string));
  GetByName_found : ∀ t c n w lb w', GetLoadBalancerByName t c n w = (Ret lb, w') →
    ∃ id, lb_Id lb = Some id ∧ lb_named w t c n = Some id ∧ view_of lb = lb_view w id;
  GetByName_missing : ∀ t c n w e w', GetLoadBalancerByName t c n w = (Err e, w') →
    IsNotFound (Some e) = true → lb_named w t c n = None;
  Create_law : ∀ t d uid w wrID w1 wr w2 id c n,
    CreateLoadBalancer_call t d uid w = (Ret wrID, w1) → AwaitWorkRequest wrID w1 = (Ret wr, w2) →
    wr_LoadBalancerId wr = Some id → cld_CompartmentId d = Some c → cld_DisplayName d = Some n →
    lb_view w2 id = view_of_details lb_storage d ∧ lb_named w2 t c n = Some id;
  Delete_law : ∀ id w wrID w1 w2,
    DeleteLoadBalancer_call id w = (Ret wrID, w1) → await wrID w1 = (Ret (), w2) →
    (∀ t c n, lb_named w2 t c n = if decide (lb_named w t c n = Some id) then None else lb_named w t c n) ∧
    (∀ g, nsg_tags w2 g = nsg_tags w g);
  GetNsg_tags : ∀ id w g etag w', GetNetworkSecurityGroup id w = (Ret (g, etag), w') →
    nsg_Id g = Some id ∧ nsg_tags w id = Some (nsg_FreeformTags g);
  DeleteNsg_law : ∀ id etag w r w', DeleteNetworkSecurityGroup id etag w = (Ret r, w') →
    (∀ g, nsg_tags w' g = if decide (g = id) then None else nsg_tags w g);
  DeleteNsg_frame : ∀ id etag, frames (lbs_kept lb_view lb_named) (DeleteNetworkSecurityGroup id etag);
  CreateNsg_frame : ∀ c v n u, frames (lbs_kept lb_view lb_named) (CreateNetworkSecurityGroup c v n u);
  UpdateNsg_frame : ∀ g e t, frames (lbs_kept lb_view lb_named) (UpdateNetworkSecurityGroup g e t);
  Certificate_frame : ∀ id c, frames (lbs_kept lb_view lb_named) (wr ← CreateCertificate id c; await wr);
  GetByName_frame : ∀ t c n, frames (kept lb_view lb_named nsg_tags) (GetLoadBalancerByName t c n);
  GetLb_frame : ∀ id, frames (kept lb_view lb_named nsg_tags) (GetLoadBalancer_call id);
  ListWr_frame : ∀ c id, frames (kept lb_view lb_named nsg_tags) (ListWorkRequests c id);
  Regional_frame : ∀ s, frames (kept lb_view lb_named nsg_tags) (IsRegionalSubnet s);
  Subnet_frame : ∀ s, frames (kept lb_view lb_named nsg_tags) (GetSubnet s);
  SubnetCache_frame : ∀ ip, frames (kept lb_view lb_named nsg_tags) (GetSubnetFromCacheByIP ip);
  Vnic_frame : ∀ c i, frames (kept lb_view lb_named nsg_tags) (GetPrimaryVNICForInstance c i);
  SecurityList_frame : ∀ s, frames (kept lb_view lb_named nsg_tags) (GetSecurityList s);
  SecurityListUpdate_frame : ∀ s e i g,
    frames (kept lb_view lb_named nsg_tags) (UpdateSecurityList s e i g);
  GetNsg_frame : ∀ id, frames (kept lb_view lb_named nsg_tags) (GetNetworkSecurityGroup id);
  ListNsg_frame : ∀ n c v, frames (kept lb_view lb_named nsg_tags) (ListNetworkSecurityGroups n c v);
  ListRules_frame : ∀ id d,
    frames (kept lb_view lb_named nsg_tags) (ListNetworkSecurityGroupSecurityRules id d);
  AddRules_frame : ∀ id l,
    frames (kept lb_view lb_named nsg_tags) (AddNetworkSecurityGroupSecurityRules id l);
  RemoveRules_frame : ∀ id l,
    frames (kept lb_view lb_named nsg_tags) (RemoveNetworkSecurityGroupSecurityRules id l);
  PublicIp_frame : ∀ t ip, frames (kept lb_view lb_named nsg_tags) (GetPublicIpByIpAddress t ip);
  Service_frame : ∀ ns n, frames (kept lb_view lb_named nsg_tags) (Services_Get ns n);
  Account_frame : ∀ ns n, frames (kept lb_view lb_named nsg_tags) (ServiceAccounts_Get ns n);
  Token_frame : ∀ ns n z, frames (kept lb_view lb_named nsg_tags) (ServiceAccounts_CreateToken ns n z);
}.

Create HintDb calls discriminated.
#[export] Hint Resolve GetByName_frame GetLb_frame ListWr_frame Regional_frame Subnet_frame
  SubnetCache_frame Vnic_frame SecurityList_frame SecurityListUpdate_frame GetNsg_frame ListNsg_frame
  ListRules_frame AddRules_frame RemoveRules_frame PublicIp_frame Service_frame Account_frame
  Token_frame : calls.

Global Instance kept_preorder {W RS} (view : W → string → LbView RS) named tags :
  PreOrder (kept view named tags).
Proof.
  split; [done|]. intros w1 w2 w3 (V1 & N1 & T1) (V2 & N2 & T2).
  split_and!; intros; congruence.
Qed.

Global Instance lbs_kept_preorder {W RS} (view : W → string → LbView RS) named :
  PreOrder (lbs_kept view named).
Proof. split; [done|]. intros w1 w2 w3 (V1 & N1) (V2 & N2). split; intros; congruence. Qed.

Lemma kept_lbs {W RS A} (view : W → string → LbView RS) named tags (c : M W A) :
  frames (kept view named tags) c → frames (lbs_kept view named) c.
Proof. intros Hc w o w' Hr. by destruct (Hc _ _ _ Hr) as (? & ? & _). Qed.

Section facts.
Context {W RS : Type} `{!LbClient W RS, !SubnetClient W, !SecurityListClient W, !NsgClient W}.
Context `{!LbAdminClient W RS, !NsgAdminClient W, !KubeClient W, !RegionalClient W}.
Context `{!Parsers RS, !LabelParser, !MapRange, !EqDecision RS}.
Context `{!LbLaws W RS, !HandlerLaws W RS}.
Implicit Types (cp : CloudProvider) (service : Service) (w : W).

Abbreviation keeps := (frames (kept lb_view lb_named nsg_tags)).
Abbreviation keeps_lbs := (frames (lbs_kept lb_view lb_named)).

(** ** Steps that change no load balancer *)

Lemma check_service_exists_keeps service : keeps (check_service_exists service).
Proof. unfold check_service_exists, serviceDeletedOrDoesNotExist. frames; eauto with calls. Qed.

Lemma getLoadBalancerProvider_keeps service : keeps (getLoadBalancerProvider service).
Proof. unfold getLoadBalancerProvider, getServiceAccountTokenIfSet. frames; eauto with calls. Qed.

Lemma find_load_balancer_keeps cp service : keeps (find_load_balancer cp service).
Proof. unfold find_load_balancer. frames; eauto with calls. Qed.

Lemma checkPending_keeps lb service : keeps (checkPendingLBWorkRequests (RS := RS) lb service).
Proof. unfold checkPendingLBWorkRequests. frames; eauto with calls. Qed.

Lemma subnets_keep ids : keeps (getSubnets ids).
Proof. unfold getSubnets. frames; eauto with calls. Qed.

Lemma node_subnets_keep nodes : keeps (getSubnetsForNodes nodes).
Proof. unfold getSubnetsForNodes, node_subnet. frames; eauto with calls. Qed.

Lemma getLoadBalancerSubnets_keeps s1 s2 service : keeps (getLoadBalancerSubnets s1 s2 service).
Proof.
  unfold getLoadBalancerSubnets, getOciLoadBalancerSubnets, first_subnet, second_subnet.
  frames; eauto with calls.
Qed.

Lemma handler_spec_keeps cp site service nodes lb : keeps (handler_spec cp site service nodes lb).
Proof.
  unfold handler_spec. frames;
    eauto using subnets_keep, node_subnets_keep, getLoadBalancerSubnets_keeps with calls.
Qed.

Lemma security_list_keeps s subnet : keeps (getSecurityList s subnet).
Proof. unfold getSecurityList. frames; eauto with calls. Qed.

Lemma managers_keep m sc : keeps (manager_Update m sc) ∧ keeps (manager_Delete m sc).
Proof.
  unfold manager_Update, manager_Delete, updateLoadBalancerRules, updateBackendRules.
  split; frames; eauto using security_list_keeps with calls.
Qed.

Lemma security_lists_keep site spec l1 l2 :
  keeps (updateSecurityListsInCriticalSection (RS := RS) site spec l1 l2).
Proof. unfold updateSecurityListsInCriticalSection. frames. apply managers_keep. Qed.

Lemma getFrontendNsg_keeps id uid : keeps (getFrontendNsg id uid).
Proof. unfold getFrontendNsg. frames; eauto with calls. Qed.

Lemma first_frontend_nsg_keeps uid nsgs : keeps (first_frontend_nsg uid nsgs).
Proof. induction nsgs; simpl; frames; eauto using getFrontendNsg_keeps. Qed.

Lemma getFrontendNsgByName_keeps n c v uid : keeps (getFrontendNsgByName n c v uid).
Proof. unfold getFrontendNsgByName. frames; eauto using first_frontend_nsg_keeps with calls. Qed.

Lemma attached_frontend_nsg_keeps uid nsgs : keeps (attached_frontend_nsg uid nsgs).
Proof. induction nsgs; simpl; frames; eauto using getFrontendNsg_keeps. Qed.

Lemma reconcileSecurityGroup_keeps sc : keeps (reconcileSecurityGroup sc).
Proof.
  unfold reconcileSecurityGroup, reconcile_backend_nsg, apply_rule_changes, getNsgId, getNsg, listNsgRules,
    addNetworkSecurityGroupSecurityRules, removeNetworkSecurityGroupSecurityRules.
  frames; eauto with calls.
Qed.

Lemma removeBackendSecurityGroupRules_keeps sc : keeps (removeBackendSecurityGroupRules sc).
Proof.
  unfold removeBackendSecurityGroupRules, getNsgId, getNsg, listNsgRules,
    removeNetworkSecurityGroupSecurityRules.
  frames; eauto with calls.
Qed.

(** The groups of a service change, its load balancer does not. *)
Lemma ensure_nsgs_keeps cp service lb spec : keeps_lbs (ensure_nsgs (RS := RS) cp service lb spec).
Proof.
  unfold ensure_nsgs, ensure_frontend_nsg, existing_frontend_nsg, mark_backend_nsg. frames;
    eauto using CreateNsg_frame, UpdateNsg_frame, kept_lbs, getFrontendNsgByName_keeps,
      attached_frontend_nsg_keeps, reconcileSecurityGroup_keeps with calls.
Qed.

Lemma certificates_keep site lb (spec : LBSpec (RS := RS)) : keeps_lbs (ensureSSLCertificates site lb spec).
Proof.
  unfold ensureSSLCertificates. do 2 (frames_step; [frames|]). frames_step.
  destruct a1 as [k cert]. frames_step; [frames|]. destruct (decide _); [frames|]. apply Certificate_frame.
Qed.

(** ** Creation *)

Lemma createLoadBalancer_creates token site (spec : LBSpec (RS := RS)) w r w' :
  createLoadBalancer token site spec w = (Ret r, w') →
  ∃ certs ips id,
    lb_view w' id = view_of_details lb_storage (create_details spec certs ips) ∧
    lb_named w' (getLoadBalancerType (spec_service spec)) (spec_Compartment spec) (spec_Name spec) = Some id.
Proof.
  intros Hr. unfold createLoadBalancer in Hr.
  apply M_bind_Ret_inv in Hr as (lbS & w1 & _ & Hr). apply M_bind_Ret_inv in Hr as (nodeS & w2 & _ & Hr).
  apply M_bind_Ret_inv in Hr as (certs & w3 & _ & Hr). apply M_bind_Ret_inv in Hr as (ips & w4 & _ & Hr).
  apply M_bind_Ret_inv in Hr as (wrID & w5 & Hc%wrapM_Ret_inv & Hr).
  apply M_bind_Ret_inv in Hr as (wr & w6 & Ha%wrapM_Ret_inv & Hr).
  destruct (wr_LoadBalancerId wr) as [id|] eqn:Hid; [|done]. exists certs, ips, id.
  destruct (Create_law _ _ _ _ _ _ _ _ _ _ _ Hc Ha Hid eq_refl eq_refl) as [<- <-].
  match type of Hr with ?c _ = _ =>
    assert (keeps c) as Hk by (frames; eauto using security_lists_keep with calls) end.
  destruct (Hk _ _ _ Hr) as (Hv & Hn & _). by split.
Qed.

(** The configuration of a load balancer the handlers can compare: backend sets carry
    their names and have addresses and ports, and no two listeners are confused. *)
Definition lb_wf (v : LbView RS) : Prop :=
  (∀ n b, v_BackendSets v !! n = Some b → backend_set_ok b ∧ bs_Name b = Some n) ∧
  distinct_names (v_Listeners v).

(** What a specification has to have. *)
Definition spec_wf (spec : LBSpec (RS := RS)) : Prop :=
  (∀ n b, spec_BackendSets spec !! n = Some b → backend_set_ok b) ∧ distinct_names (spec_Listeners spec) ∧
  (is_Some (spec_RuleSets spec) → spec_Type spec = LB) ∧
  (∀ ver, iv_LbEndpointIpVersion (spec_IpVersions spec) = Some ver → ver ∈ generic_versions).

Lemma NewLBSpec_wf prefixEnv sys site svc nodes subnets ssl factory versions tags existing compartment s :
  valid_ports svc →
  (∀ ver, iv_LbEndpointIpVersion versions = Some ver → ver ∈ generic_versions) →
  NewLBSpec prefixEnv sys site svc nodes subnets ssl factory versions tags existing compartment = Ret s →
  spec_wf s.
Proof.
  intros Hp Hv Hs.
  apply NewLBSpec_inv in Hs
    as (_ & Hls & (preserve & Hsets) & _ & _ & _ & Hrs & _ & _ & _ & _ & Ht & _ & _ & Hiv). split_and!.
  - intros n b Hb. by eapply getBackendSets_ok in Hsets as [??].
  - by eapply getListeners_distinct.
  - intros [rs Hr]. rewrite Ht. rewrite Hr in Hrs. unfold getRuleSets in Hrs.
    destruct (annotation svc _); [|done]. case_decide as Hn; [done|].
    unfold getLoadBalancerType in *. case_decide; [tauto|done].
  - by rewrite Hiv.
Qed.

Lemma endpoint_version_known lbS nodeS service iv ver :
  getOciIpVersions lbS nodeS service = Ret iv → iv_LbEndpointIpVersion iv = Some ver → ver ∈ generic_versions.
Proof.
  intros Hr. unfold getOciIpVersions in Hr. apply bind_Ret_inv in Hr as (e & _ & Hr).
  apply bind_Ret_inv in Hr as (b & _ & Hr). apply bind_Ret_inv in Hr as (b' & _ & Hr). injection Hr as <-.
  simpl. intros [= <-]. unfold convertK8sIpFamiliesToOciIpVersion, generic_versions.
  repeat case_decide; set_solver.
Qed.

Lemma meets_wf old (spec : LBSpec (RS := RS)) v :
  (∀ n b, old !! n = Some b → backend_set_ok b ∧ bs_Name b = Some n) → spec_wf spec →
  lb_meets old spec v → lb_wf v.
Proof.
  intros Hold [Hsets _] ((Hbs & (_ & _ & Hls) & _) & _). split; [|done].
  intros n b Hb. specialize (Hbs n). destruct (spec_BackendSets spec !! n) as [d|] eqn:Hd; [|congruence].
  destruct Hbs as (b' & Hb' & Hor). rewrite Hb in Hb'. injection Hb' as <-.
  destruct Hor as [->|[Ho _]]; [by eapply stored_set_ok, Hsets|by apply Hold].
Qed.

(** A new load balancer is the one that was asked for. *)
Lemma created_meets (spec : LBSpec (RS := RS)) certs ips :
  spec_wf spec → spec_Type spec = st_type lb_storage →
  lb_meets ∅ spec (view_of_details lb_storage (create_details spec certs ips)).
Proof.
  intros (_ & Hnames & Hrules & Hvers) Ht. split_and!; [split_and!| | |].
  - intros n. simpl. rewrite map_lookup_imap. destruct (spec_BackendSets spec !! n) as [d|]; simpl; eauto.
  - split_and!; simpl.
    + intros n d Hd. exists n, (st_listener lb_storage n d). rewrite map_lookup_imap, Hd. split_and!; [done..|].
      left. by left.
    + intros n l. rewrite map_lookup_imap. destruct (spec_Listeners spec !! n) eqn:E; [|done]. eauto.
    + intros n1 n2 [l1 H1] [l2 H2]. rewrite map_lookup_imap in H1, H2.
      apply Hnames; [by destruct (spec_Listeners spec !! n1)|by destruct (spec_Listeners spec !! n2)].
  - intros rs Hrs. simpl. rewrite decide_True by (rewrite <-Ht; by apply Hrules; rewrite Hrs). by rewrite Hrs.
  - done.
  - intros Hlb. rewrite Ht in Hlb. split; simpl; rewrite decide_True by done; [done|].
    intros Hflex d mn mx. rewrite decide_True, stored_shape by done. by intros [= <-].
  - intros Hnlb _ wanted Hw. simpl. rewrite Ht in Hnlb. rewrite decide_True, Hw by done. eexists.
    split; [done|]. apply stored_ip_version. by apply Hvers.
Qed.

Lemma ensure_created_meets token site (spec : LBSpec (RS := RS)) w status w' :
  spec_wf spec → spec_Type spec = st_type lb_storage → ensure_created token site spec w = (Ret status, w') →
  ∃ id, lb_meets ∅ spec (lb_view w' id) ∧
    lb_named w' (getLoadBalancerType (spec_service spec)) (spec_Compartment spec) (spec_Name spec) = Some id.
Proof.
  intros Hwf Ht Hr. unfold ensure_created in Hr. apply M_bind_Ret_inv in Hr as (r & w1 & Htry & Hr).
  destruct r as [err|[st i]].
  - destruct (IsSystemTagNotFoundOrNotAuthorisedError _); [|done].
    apply M_bind_Ret_inv in Hr as ([st i] & w2 & Hc & Hr). injection Hr as _ <-.
    apply createLoadBalancer_creates in Hc as (certs & ips & id & Hv & Hn). exists id. split; [|done].
    rewrite Hv. by apply (created_meets (without_system_tags spec) certs ips).
  - injection Hr as _ <-. unfold try in Htry.
    destruct (createLoadBalancer token site spec w) as [o w2] eqn:Hc.
    destruct o as [st'| |]; [|done..]. injection Htry as -> ->.
    apply createLoadBalancer_creates in Hc as (certs & ips & id & Hv & Hn). exists id. split; [|done].
    rewrite Hv. by apply created_meets.
Qed.

(** ** EnsureLoadBalancer *)

(** A specification derived for the service and the nodes its filter selects. *)
Definition desired_spec cp service (clusterNodes : list Node) (s : LBSpec (RS := RS)) : Prop :=
  ∃ site nodes subnets ssl versions existing,
    filterNodes (getNodeFilter service) clusterNodes = Ret nodes ∧
    NewLBSpec (cp_prefixEnv cp) (cp_enableOkeSystemTags cp) site service nodes subnets ssl
      (cp_securityListManagerFactory cp) versions (cp_Tags cp) existing (cp_CompartmentID cp) = Ret s.

(** The groups of the specification, with the managed one if the service has one. *)
Definition nsgs_for service (s : LBSpec (RS := RS)) (nsgs : list string) : Prop :=
  if requiresNsgManagement service
  then ∃ front, front ∈ nsgs ∧ ∀ g, g ∈ nsgs ↔ g ∈ spec_NetworkSecurityGroupIds s ∨ g = front
  else nsgs = spec_NetworkSecurityGroupIds s.

Lemma spec_with_id (s : LBSpec (RS := RS)) : spec_with s (spec_Subnets s) (spec_NetworkSecurityGroupIds s) = s.
Proof. by destruct s. Qed.

Lemma ensure_nsgs_spec cp service lb (s spec : LBSpec (RS := RS)) w w' :
  ensure_nsgs cp service lb s w = (Ret spec, w') →
  ∃ nsgs, spec = spec_with s (spec_Subnets s) nsgs ∧ nsgs_for service s nsgs.
Proof.
  unfold ensure_nsgs, nsgs_for. destruct (requiresNsgManagement service).
  - intros (managed & w1 & _ & Hr)%M_bind_Ret_inv.
    apply M_bind_Ret_inv in Hr as ([front spec'] & w2 & Hf & Hr).
    apply M_bind_Ret_inv in Hr as ([] & w3 & _ & Hr). apply M_bind_Ret_inv in Hr as (ps & w4 & _ & Hr).
    apply M_bind_Ret_inv in Hr as ([] & w5 & _ & Hr). injection Hr as <- _.
    unfold ensure_frontend_nsg in Hf. apply M_bind_Ret_inv in Hf as (ex & w6 & _ & Hf).
    apply M_bind_Ret_inv in Hf as (front' & w7 & _ & Hf). apply M_bind_Ret_inv in Hf as (spec0 & w8 & Hs & Hf).
    injection Hf as -> -> _. injection Hs as Hs _.
    destruct (contains (spec_NetworkSecurityGroupIds s) front) eqn:E; injection Hs as <-.
    + exists (spec_NetworkSecurityGroupIds s). rewrite spec_with_id. split; [done|]. exists front.
      apply contains_spec in E. split; [done|]. naive_solver.
    + eexists. split; [done|]. exists front. split; set_solver.
  - intros [= <- _]. exists (spec_NetworkSecurityGroupIds s). by rewrite spec_with_id.
Qed.

Lemma handler_spec_inv cp site service nodes lb w s w' :
  handler_spec cp site service nodes lb w = (Ret s, w') →
  ∃ subnets ssl versions,
    (∀ ver, iv_LbEndpointIpVersion versions = Some ver → ver ∈ generic_versions) ∧
    NewLBSpec (cp_prefixEnv cp) (cp_enableOkeSystemTags cp) site service nodes subnets ssl
      (cp_securityListManagerFactory cp) versions (cp_Tags cp) lb (cp_CompartmentID cp) = Ret s.
Proof.
  intros (ssl & w1 & _ & Hr)%M_bind_Ret_inv. apply M_bind_Ret_inv in Hr as (ids & w2 & _ & Hr).
  apply M_bind_Ret_inv in Hr as (lbS & w3 & _ & Hr). apply M_bind_Ret_inv in Hr as (nodeS & w4 & _ & Hr).
  apply M_bind_Ret_inv in Hr as (vers & w5 & Hv & Hr). injection Hr as Hs _. injection Hv as Hv _.
  exists ids, ssl, vers. split; [|done]. by intros ver ?%(endpoint_version_known _ _ _ _ _ Hv).
Qed.

Lemma find_load_balancer_spec cp service w r w' :
  find_load_balancer cp service w = (Ret r, w') →
  let named := lb_named w (getLoadBalancerType service)
    (getLoadBalancerCompartment service (cp_CompartmentID cp)) (GetLoadBalancerName (cp_prefixEnv cp) service) in
  match r with
  | None => named = None
  | Some lb => ∃ id, lb_Id lb = Some id ∧ named = Some id ∧ view_of lb = lb_view w id
  end.
Proof.
  intros Hr named. unfold find_load_balancer in Hr. apply M_bind_Ret_inv in Hr as (x & w1 & Ht & Hr).
  unfold try in Ht. destruct (GetLoadBalancerByName _ _ _ w) as [o w2] eqn:E.
  destruct o as [lb|e|]; [|..|done]; injection Ht as <- <-.
  - injection Hr as <- _. by apply GetByName_found in E.
  - destruct (IsNotFound (Some e)) eqn:En; [|done]. injection Hr as <- _. by eapply GetByName_missing.
Qed.

(** The name under which the load balancer of a service is found. *)
Definition named_lb cp service w : option string :=
  lb_named w (getLoadBalancerType service) (getLoadBalancerCompartment service (cp_CompartmentID cp))
    (GetLoadBalancerName (cp_prefixEnv cp) service).

(** The backend sets of the load balancer before. *)
Definition old_sets cp service w : gmap string GenericBackendSetDetails :=
  match named_lb cp service w with Some id => v_BackendSets (lb_view w id) | None => ∅ end.

Lemma named_lb_kept cp service w w' :
  lbs_kept lb_view lb_named w w' →
  named_lb cp service w' = named_lb cp service w ∧ old_sets cp service w' = old_sets cp service w ∧
  ∀ id, lb_view w' id = lb_view w id.
Proof.
  intros [Hv Hn]. unfold old_sets, named_lb. rewrite Hn. split_and!; [done| |done].
  destruct (lb_named _ _ _ _); [|done]. by rewrite Hv.
Qed.

Lemma ensure_updated_meets cp site service nodes id lb (spec : LBSpec (RS := RS)) w status w' :
  lb_Id lb = Some id → lb_view w id = view_of lb → lb_wf (view_of lb) → spec_wf spec →
  spec_Type spec = st_type lb_storage →
  ensure_updated cp site service nodes lb spec w = (Ret (Some status), w') →
  lb_meets (lb_BackendSets lb) (spec_with spec (lb_SubnetIds lb) (spec_NetworkSecurityGroupIds spec))
    (lb_view w' id).
Proof.
  intros Hid Hw [Hsets Hnames] (Hssets & Hsnames & Hrules & Hvers) Ht Hr. unfold ensure_updated in Hr.
  apply M_bind_Ret_inv in Hr as ([] & w1 & H1 & Hr). injection H1 as _ <-.
  apply M_bind_Ret_inv in Hr as (spec' & w1 & H1 & Hr). injection H1 as <- <-.
  apply M_bind_Ret_inv in Hr as ([] & w1 & H1 & Hr).
  assert (lb_view w1 id = view_of lb) as Hw1.
  { rewrite <-Hw. destruct (requiresCertificate service); [|by injection H1 as <-].
    by apply wrapM_Ret_inv, certificates_keep in H1 as [Hv _]. }
  apply M_bind_Ret_inv in Hr as (part & w2 & H2 & Hr). injection H2 as _ <-. destruct part; [done|].
  apply M_bind_Ret_inv in Hr as ([] & w3 & H3 & Hr).
  apply M_bind_Ret_inv in Hr as (skip & w4 & H4 & Hr). injection H4 as _ <-.
  apply M_bind_Ret_inv in Hr as (st & w4 & H4 & Hr). injection H4 as _ <-. injection Hr as _ <-.
  by eapply (updateLoadBalancer_reaches id lb).
Qed.

Lemma ensure_locked_meets cp site service clusterNodes w status w' :
  valid_ports service → getLoadBalancerType service = st_type lb_storage →
  (∀ id, named_lb cp service w = Some id → lb_wf (lb_view w id)) →
  ensure_locked cp site service clusterNodes w = (Ret (Some status), w') →
  ∃ id s subnets nsgs, desired_spec cp service clusterNodes s ∧ nsgs_for service s nsgs ∧
    match named_lb cp service w with Some old => id = old | None => named_lb cp service w' = Some id end ∧
    lb_meets (old_sets cp service w) (spec_with s subnets nsgs) (lb_view w' id) ∧ lb_wf (lb_view w' id).
Proof.
  intros Hports Htype Hwf Hr. unfold ensure_locked in Hr.
  apply M_bind_Ret_inv in Hr as (nodes & w1 & H1 & Hr). injection H1 as Hnodes <-.
  apply M_bind_Ret_inv in Hr as (token & w1 & H1%wrapM_Ret_inv%getLoadBalancerProvider_keeps & Hr).
  apply M_bind_Ret_inv in Hr as (lb & w2 & Hlb & Hr).
  pose proof (find_load_balancer_spec _ _ _ _ _ Hlb) as Hfind. apply find_load_balancer_keeps in Hlb.
  apply M_bind_Ret_inv in Hr as ([] & w3 & H3 & Hr).
  assert (kept lb_view lb_named nsg_tags w2 w3) as H3'.
  { destruct lb as [lb|]; [|by injection H3 as <-].
    destruct (decide _); [by apply checkPending_keeps in H3|by injection H3 as <-]. }
  apply M_bind_Ret_inv in Hr as (s & w4 & H4 & Hr).
  pose proof (handler_spec_inv _ _ _ _ _ _ _ _ H4) as (subnets & ssl & vers & Hvers & Hs).
  apply handler_spec_keeps in H4.
  apply M_bind_Ret_inv in Hr as (spec & w5 & H5 & Hr).
  pose proof (ensure_nsgs_spec _ _ _ _ _ _ _ H5) as (nsgs & -> & Hnsgs). apply ensure_nsgs_keeps in H5.
  assert (lbs_kept lb_view lb_named w w1) as Hk1 by (by destruct H1 as (? & ? & _)).
  assert (kept lb_view lb_named nsg_tags w1 w4) as (? & ? & _) by (by do 2 (etrans; [done|])).
  assert (lbs_kept lb_view lb_named w w5) as Hk by (trans w1; [done|]; by trans w4).
  destruct (named_lb_kept cp service _ _ Hk1) as (Hn1 & _ & Hv1).
  destruct (named_lb_kept cp service _ _ Hk) as (_ & _ & Hv). fold (named_lb cp service w1) in Hfind.
  rewrite Hn1 in Hfind. clear Hk Hk1 H1 Hlb H3 H3' H4 H5.
  assert (desired_spec cp service clusterNodes s) as Hdes by (by repeat eexists).
  pose proof (NewLBSpec_wf _ _ _ _ _ _ _ _ _ _ _ _ _ Hports Hvers Hs) as Hswf.
  apply NewLBSpec_inv in Hs as (_ & _ & _ & _ & _ & _ & _ & _ & _ & Hsvc & _ & Hty & Hname & Hcomp & _).
  rewrite <-Hty in Htype.
  unfold old_sets. destruct lb as [lb|].
  - destruct Hfind as (id & Hid & Hnamed & Hview). rewrite Hnamed. rewrite Hv1 in Hview.
    specialize (Hwf id Hnamed). rewrite <-Hview in Hwf |- *.
    apply (ensure_updated_meets _ _ _ _ id) in Hr; [|done|by rewrite Hv|done..].
    exists id, s, (lb_SubnetIds lb), nsgs. split_and!; [done..|].
    eapply meets_wf; [|..|exact Hr]; [apply Hwf|exact Hswf].
  - rewrite Hfind. apply M_bind_Ret_inv in Hr as (st & w6 & Hc & Hr). injection Hr as _ <-.
    apply ensure_created_meets in Hc as (id & Hm & Hn); [|done..]. simpl in Hn. rewrite Hsvc, Hname, Hcomp in Hn.
    exists id, s, (spec_Subnets s), nsgs. split_and!; [done..|].
    eapply meets_wf; [|..|exact Hm]; [done|exact Hswf].
Qed.

(** C1: when [EnsureLoadBalancer] answers a status, the
    service has the load balancer its specification asks for: the one that existed
    before or a new one under its name, with exactly the backend sets, listeners and
    rule sets of the specification derived from the service and its nodes (each the
    desired one, as the service stores it, or found in sync with it), its network security groups with the
    managed one, its shape and its IP version.  The load balancer is again one that
    the handlers can compare, so the property carries over to the next call. *)
Theorem EnsureLoadBalancer_converges cp site service clusterNodes locks w status st' :
  valid_ports service → getLoadBalancerType service = st_type lb_storage →
  (∀ id, named_lb cp service w = Some id → lb_wf (lb_view w id)) →
  EnsureLoadBalancer cp site service clusterNodes (locks, w) = (Ret (Some status), st') →
  ∃ id s subnets nsgs, desired_spec cp service clusterNodes s ∧ nsgs_for service s nsgs ∧
    match named_lb cp service w with Some old => id = old | None => named_lb cp service st'.2 = Some id end ∧
    lb_meets (old_sets cp service w) (spec_with s subnets nsgs) (lb_view st'.2 id) ∧ lb_wf (lb_view st'.2 id).
Proof.
  intros Hports Htype Hwf Hr. unfold EnsureLoadBalancer in Hr.
  apply M_bind_Ret_inv in Hr as ([] & [locks1 w1] & H1 & Hr). unfold unlocked in H1.
  destruct (check_service_exists service w) as [o w1'] eqn:E. injection H1 as -> <- <-.
  apply check_service_exists_keeps in E as (Hv & Hn & _).
  destruct (named_lb_kept cp service w w1') as (Hn1 & Ho1 & Hv1); [by split|].
  unfold with_lock in Hr. destruct (TryAcquire locks _) as [[] locks2]; [|done].
  destruct (ensure_locked cp site service clusterNodes w1') as [o w'] eqn:E. injection Hr as -> <-.
  apply ensure_locked_meets in E; [by rewrite Hn1, Ho1 in E|done|done|].
  intros id Hid. rewrite Hn1 in Hid. rewrite Hv1. by apply Hwf.
Qed.

(** ** EnsureLoadBalancerDeleted *)

Abbreviation managed service := (Some (Some (managed_tags (svc_UID service)))).

Lemma getFrontendNsg_managed id uid w front etag w' :
  getFrontendNsg id uid w = (Ret (front, etag), w') → front ≠ "" →
  nsg_tags w front = Some (Some (managed_tags uid)).
Proof.
  intros Hr Hf. apply M_bind_Ret_inv in Hr as ([g e] & w1 & Hg & Hr).
  destruct (GetNsg_tags _ _ _ _ _ Hg) as [Hid Ht].
  destruct e as [e|]; [|by injection Hr as <-]. case_decide as Hm; [|by injection Hr as <-].
  injection Hr as <- _ _. rewrite Hid. simpl. by rewrite Ht, Hm.
Qed.

Lemma first_frontend_nsg_managed uid nsgs w front etag w' :
  first_frontend_nsg uid nsgs w = (Ret (front, etag), w') → front ≠ "" →
  nsg_tags w front = Some (Some (managed_tags uid)).
Proof.
  revert w. induction nsgs as [|g nsgs IH]; intros w Hr Hf; simpl in Hr; [by injection Hr as <-|].
  apply M_bind_Ret_inv in Hr as ([front' e] & w1 & Hg & Hr). case_decide as Hne.
  - injection Hr as -> _ _. by eapply getFrontendNsg_managed.
  - apply getFrontendNsg_keeps in Hg as (_ & _ & Ht). rewrite <-Ht. by apply IH.
Qed.

Lemma attached_frontend_nsg_managed uid nsgs w front etag w' :
  attached_frontend_nsg uid nsgs w = (Ret (front, etag), w') → front ≠ "" →
  nsg_tags w front = Some (Some (managed_tags uid)).
Proof.
  revert w. induction nsgs as [|g nsgs IH]; intros w Hr Hf; simpl in Hr; [by injection Hr as <-|].
  apply M_bind_Ret_inv in Hr as (r & w1 & Ht & Hr). unfold try in Ht.
  destruct (getFrontendNsg g uid w) as [o w2] eqn:E.
  pose proof (getFrontendNsg_keeps _ _ _ _ _ E) as (_ & _ & Hk).
  destruct o as [[front' e]|err|]; [..|done]; injection Ht as <- <-.
  - case_decide as Hne; [|rewrite <-Hk; by apply IH]. injection Hr as -> _ _.
    by eapply getFrontendNsg_managed.
  - rewrite decide_False in Hr by naive_solver. rewrite <-Hk. by apply IH.
Qed.

(** Groups are as before, except that managed groups of the service may be gone. *)
Definition groups_kept service w w' : Prop :=
  ∀ g, nsg_tags w' g = nsg_tags w g ∨ nsg_tags w g = managed service ∧ nsg_tags w' g = None.

Lemma delete_managed_nsg_spec service mode front etag w w' :
  (front ≠ "" → nsg_tags w front = managed service) →
  delete_managed_nsg mode front etag w = (Ret (), w') →
  lbs_kept lb_view lb_named w w' ∧ groups_kept service w w'.
Proof.
  intros Hf Hr. unfold delete_managed_nsg in Hr.
  destruct etag as [etag|]; [|injection Hr as <-; split; [done|by intros g; left]].
  case_decide as Hd; [|injection Hr as <-; split; [done|by intros g; left]].
  apply M_bind_Ret_inv in Hr as (r & w1 & Hr & Hw). injection Hw as <-.
  split; [by eapply DeleteNsg_frame|]. intros g. rewrite (DeleteNsg_law _ _ _ _ _ Hr g).
  case_decide as Hg; [|by left]. subst g. right. split; [|done]. apply Hf, Hd.
Qed.

Lemma cleanup_keeps cp site lb service name front :
  keeps (cleanupSecurityRulesForLoadBalancerDelete (RS := RS) cp site lb service name front).
Proof.
  unfold cleanupSecurityRulesForLoadBalancerDelete, cleanup_listener. frames;
    eauto using subnets_keep, node_subnets_keep, removeBackendSecurityGroupRules_keeps.
  apply managers_keep.
Qed.

Lemma groups_kept_after service w1 w2 w3 :
  (∀ g, nsg_tags w2 g = nsg_tags w1 g) → groups_kept service w2 w3 → groups_kept service w1 w3.
Proof. intros Hk Hg g. specialize (Hg g). by rewrite Hk in Hg. Qed.

Lemma delete_locked_spec cp site service w w' :
  delete_locked cp site service w = (Ret (), w') →
  (∀ t c n, lb_named w' t c n =
     if decide (is_Some (named_lb cp service w) ∧ lb_named w t c n = named_lb cp service w)
     then None else lb_named w t c n) ∧
  groups_kept service w w'.
Proof.
  intros Hr. unfold delete_locked in Hr.
  apply M_bind_Ret_inv in Hr as ([mode mn] & w1 & H1 & Hr). apply wrapM_Ret_inv in H1. injection H1 as _ <-.
  apply M_bind_Ret_inv in Hr as (token & w1 & H1%wrapM_Ret_inv%getLoadBalancerProvider_keeps & Hr).
  apply M_bind_Ret_inv in Hr as (lb & w2 & Hlb%wrapM_Ret_inv & Hr).
  pose proof (find_load_balancer_spec _ _ _ _ _ Hlb) as Hfind. apply find_load_balancer_keeps in Hlb.
  assert (kept lb_view lb_named nsg_tags w w2) as (Hv & Hn & Ht) by (by trans w1). cbv zeta in Hfind.
  destruct H1 as (_ & Hn1 & _). rewrite Hn1 in Hfind. fold (named_lb cp service w) in Hfind. clear Hlb.
  destruct lb as [lb|].
  - destruct Hfind as (id & Hid & Hnamed & _). rewrite Hnamed.
    apply M_bind_Ret_inv in Hr as (id' & w3 & H3 & Hr). rewrite Hid in H3. injection H3 as <- <-.
    apply M_bind_Ret_inv in Hr as ([front etag] & w3 & H3 & Hr).
    assert (kept lb_view lb_named nsg_tags w2 w3 ∧ (front ≠ "" → nsg_tags w2 front = managed service))
      as [Hk3 Hf].
    { destruct (decide (mode = NSG)); [|by injection H3 as <- _ <-].
      split; [by eapply attached_frontend_nsg_keeps|by eapply attached_frontend_nsg_managed]. }
    apply M_bind_Ret_inv in Hr as ([] & w4 & H4 & Hr).
    assert (kept lb_view lb_named nsg_tags w2 w4) as (_ & Hn4 & Ht4).
    { trans w3; [done|].
      destruct (decide (mode ≠ ManagementModeNone)); [by apply cleanup_keeps in H4|by injection H4 as <-]. }
    apply M_bind_Ret_inv in Hr as (wr & w5 & H5%wrapM_Ret_inv & Hr).
    apply M_bind_Ret_inv in Hr as ([] & w6 & H6%wrapM_Ret_inv & Hr).
    destruct (Delete_law _ _ _ _ _ H5 H6) as [Hn6 Ht6].
    apply (delete_managed_nsg_spec service) in Hr as [[_ Hn'] Hg];
      [|intros Hne; rewrite Ht6, Ht4; by apply Hf]. split.
    + intros t c n. rewrite Hn', Hn6, Hn4, Hn. apply decide_ext. naive_solver.
    + eapply groups_kept_after; [|done]. intros g. by rewrite Ht6, Ht4, Ht.
  - rewrite Hfind. assert (lbs_kept lb_view lb_named w2 w' ∧ groups_kept service w2 w') as [[_ Hn'] Hg].
    { destruct (decide (mode = NSG)); [|injection Hr as <-; split; [done|by intros g; left]].
      apply M_bind_Ret_inv in Hr as ([front etag] & w3 & H3%wrapM_Ret_inv & Hr).
      pose proof (getFrontendNsgByName_keeps _ _ _ _ _ _ _ H3) as (Hv3 & Hn3 & Ht3).
      apply (delete_managed_nsg_spec service) in Hr as [Hl Hg].
      - split; [trans w3; [by split|done]|by eapply groups_kept_after].
      - intros Hne. rewrite Ht3. unfold getFrontendNsgByName in H3.
        apply M_bind_Ret_inv in H3 as (r & w4 & Hl & H3).
        assert (∀ g, nsg_tags w4 g = nsg_tags w2 g) as Ht4.
        { eapply frames_try in Hl; [|apply ListNsg_frame]. apply Hl. }
        destruct r as [err|nsgs]; [by injection H3 as <-|].
        rewrite <-Ht4. by eapply first_frontend_nsg_managed. }
    split; [|by eapply groups_kept_after].
    intros t c n. rewrite Hn', Hn, decide_False; [done|]. by intros [[? ?] _].
Qed.

(** C2: a successful deletion leaves no load balancer
    under the name of the service and keeps every other load balancer; the only groups
    that may disappear are those the provider itself created for this service. *)
Theorem EnsureLoadBalancerDeleted_correct cp site service locks w st' :
  EnsureLoadBalancerDeleted cp site service (locks, w) = (Ret (), st') →
  named_lb cp service st'.2 = None ∧
  (∀ t c n id, lb_named w t c n = Some id → named_lb cp service w ≠ Some id → lb_named st'.2 t c n = Some id) ∧
  groups_kept service w st'.2.
Proof.
  unfold EnsureLoadBalancerDeleted, with_lock. destruct (TryAcquire locks _) as [[] locks2]; [|done].
  destruct (delete_locked cp site service w) as [o w'] eqn:E. intros [= -> <-]. simpl.
  apply delete_locked_spec in E as [Hn Hg]. split_and!; [| |done].
  - unfold named_lb. rewrite Hn. case_decide as Hd; [done|]. apply eq_None_not_Some. intros Hs. by apply Hd.
  - intros t c n id Hid Hne. rewrite Hn, decide_False; [done|]. rewrite Hid. naive_solver.
Qed.

(** ** Locks *)

(** A handler leaves the locks as they were, whatever its outcome, and does nothing
    while another handler works on the service. *)
Definition lock_discipline {A} service (handler : M (loadBalancerLocks * W) A) : Prop :=
  ∀ locks w o st', handler (locks, w) = (o, st') →
    st'.1 = locks ∧
    (lock_name service ∈ locks → is_ret o = false ∧ kept lb_view lb_named nsg_tags w st'.2).

Lemma with_lock_discipline {A} service (body : M W A) : lock_discipline service (with_lock (lock_name service) body).
Proof.
  intros locks w o st' Hr. unfold with_lock, TryAcquire in Hr.
  destruct (decide (lock_name service ∈ locks)) as [Hin|Hin].
  - by injection Hr as <- <-.
  - destruct (body w) as [o' w']. injection Hr as <- <-. split; [|done]. simpl. unfold Release. set_solver.
Qed.

Lemma unlocked_discipline {A} service (c : M W ()) (handler : M (loadBalancerLocks * W) A) :
  keeps c → lock_discipline service handler → lock_discipline service (_ ← unlocked c; handler).
Proof.
  intros Hc Hh locks w o st' Hr. unfold mbind, M_bind, unlocked in Hr.
  destruct (c w) as [o1 w1] eqn:E. apply Hc in E. destruct o1 as [[]|e|].
  - apply Hh in Hr as [H1 H2]. split; [done|]. intros Hl. destruct (H2 Hl). split; [done|]. by trans w1.
  - by injection Hr as <- <-.
  - by injection Hr as <- <-.
Qed.

(** Every handler leaves the lock of its service free when
    it is done, also after an error or a panic, and while another handler works on the
    service it fails without an effect on load balancers and groups. *)
Lemma handlers_lock_discipline cp site service nodes :
  lock_discipline service (EnsureLoadBalancer cp site service nodes) ∧
  lock_discipline service (UpdateLoadBalancer cp site service nodes) ∧
  lock_discipline service (EnsureLoadBalancerDeleted cp site service).
Proof.
  split_and!; [apply unlocked_discipline|apply unlocked_discipline|];
    (apply check_service_exists_keeps || apply with_lock_discipline).
Qed.

(** ** Load balancers that are busy *)

(** A work request of the list is not finished. *)
Definition unfinished (wrs : list GenericWorkRequest) : Prop :=
  ∃ wr, wr ∈ wrs ∧ (wr_LifecycleState wr = Some WorkRequestLifecycleStateInProgress ∨
                    wr_LifecycleState wr = Some WorkRequestLifecycleStateAccepted).

(** The service answered, before any load balancer changed, that the one of the name is
    active, or failed if it is a network load balancer, and then, but for network load
    balancers, that it has no unfinished work request. *)
Definition found_ready cp service w : Prop :=
  ∃ lb w1 w2, lbs_kept lb_view lb_named w w1 ∧
    GetLoadBalancerByName (getLoadBalancerType service) (getLoadBalancerCompartment service (cp_CompartmentID cp))
      (GetLoadBalancerName (cp_prefixEnv cp) service) w1 = (Ret lb, w2) ∧
    lb_Id lb = named_lb cp service w ∧
    (lb_LifecycleState lb = Some lbLifecycleStateActive ∨
     getLoadBalancerType service = NLB ∧ lb_LifecycleState lb = Some LifecycleStateFailed) ∧
    (getLoadBalancerType service ≠ NLB → ∃ c id wrs w3, lb_CompartmentId lb = Some c ∧ lb_Id lb = Some id ∧
       ListWorkRequests c id w2 = (Ret wrs, w3) ∧ ¬ unfinished wrs).

Lemma pending_fails (wrs : list GenericWorkRequest) w :
  unfinished wrs →
  is_ret (forM wrs (λ wr,
      lifecycleState ← lift (deref (wr_LifecycleState wr));
      if decide (lifecycleState = WorkRequestLifecycleStateInProgress ∨
                 lifecycleState = WorkRequestLifecycleStateAccepted)
      then _ ← lift (deref (wr_Id wr));
           fail (Errorf "Load Balancer has work requests in progress, will wait and retry" [])
      else mret ()) w).1 = false.
Proof.
  intros (wr & Hin & Hwr). revert w. induction wrs as [|x wrs IH]; intros w; [set_solver|]. simpl.
  apply elem_of_cons in Hin as [->|Hin].
  - destruct Hwr as [E|E]; rewrite E; unfold mbind, M_bind, lift; simpl;
      by destruct (wr_Id x).
  - unfold mbind at 1, M_bind at 1. unfold mbind at 1, M_bind at 1, lift at 1.
    destruct (wr_LifecycleState x) as [ls|]; simpl; [|done]. case_decide.
    + unfold mbind, M_bind, lift. by destruct (wr_Id x).
    + by apply IH.
Qed.

Lemma check_lifecycle_Ret (lb : GenericLoadBalancer RS) service :
  check_lifecycle lb service = Ret () →
  lb_LifecycleState lb = Some lbLifecycleStateActive ∨
  getLoadBalancerType service = NLB ∧ lb_LifecycleState lb = Some LifecycleStateFailed.
Proof.
  unfold check_lifecycle. case_decide; [by left|]. case_decide; [|done].
  destruct (lb_LifecycleState lb) as [st|]; [|done]. simpl. case_decide; [subst; by right|done].
Qed.

Lemma checkPending_Ret (lb : GenericLoadBalancer RS) service w w' :
  checkPendingLBWorkRequests lb service w = (Ret (), w') → getLoadBalancerType service ≠ NLB →
  ∃ c id wrs w1, lb_CompartmentId lb = Some c ∧ lb_Id lb = Some id ∧ ListWorkRequests c id w = (Ret wrs, w1) ∧ ¬ unfinished wrs.
Proof.
  intros Hr Ht. unfold checkPendingLBWorkRequests in Hr. rewrite decide_False in Hr by done.
  apply M_bind_Ret_inv in Hr as (c & ? & Hc & Hr). apply M_bind_Ret_inv in Hr as (id & ? & Hid & Hr).
  apply M_bind_Ret_inv in Hr as (wrs & w1 & Hw & Hr).
  destruct (lb_CompartmentId lb); [|done]. destruct (lb_Id lb); [|done]. injection Hc as -> <-. injection Hid as -> <-.
  exists c, id, wrs, w1. split_and!; [done..|]. intros Hu%(pending_fails _ w1). by rewrite Hr in Hu.
Qed.

(** What the checks of a handler have seen when both pass. *)
Lemma checks_found_ready cp service w lb w1 w2 w3 :
  lbs_kept lb_view lb_named w w1 → find_load_balancer cp service w1 = (Ret (Some lb), w2) →
  check_lifecycle lb service = Ret () → checkPendingLBWorkRequests lb service w2 = (Ret (), w3) → found_ready cp service w.
Proof.
  intros Hk Hf Hl%check_lifecycle_Ret Hp. destruct (find_load_balancer_spec _ _ _ _ _ Hf) as (id & Hid & Hn & _).
  fold (named_lb cp service w1) in Hn. destruct (named_lb_kept cp service _ _ Hk) as (Hn' & _).
  exists lb, w1, w2. split_and!; [done| |by rewrite Hid, <-Hn, Hn'|done|by eapply checkPending_Ret].
  unfold find_load_balancer in Hf. apply M_bind_Ret_inv in Hf as (x & w4 & Hx & Hf).
  unfold try in Hx. destruct (GetLoadBalancerByName _ _ _ w1) as [[lb'|e|] w5] eqn:E; [..|done]; injection Hx as <- <-.
  - by injection Hf as <- <-.
  - by destruct (IsNotFound (Some e)).
Qed.

(** A sequence runs its second part or stops after the first. *)
Lemma bind_inv {A B} (c : M W A) (f : A → M W B) w o w' :
  (c ≫= f) w = (o, w') →
  (∃ a w1, c w = (Ret a, w1) ∧ f a w1 = (o, w')) ∨ is_ret o = false ∧ ∃ o1, c w = (o1, w') ∧ is_ret o1 = false.
Proof. unfold mbind, M_bind. destruct (c w) as [[a|e|] w1] eqn:E; naive_solver. Qed.

Lemma ensure_locked_ready cp site service nodes w o w' :
  ensure_locked cp site service nodes w = (o, w') →
  named_lb cp service w = None ∨ found_ready cp service w ∨ is_ret o = false ∧ lbs_kept lb_view lb_named w w'.
Proof.
  intros Hr. unfold ensure_locked in Hr.
  apply bind_inv in Hr as [(ns & w1 & H1 & Hr)|(Ho & o1 & H1 & _)]; [injection H1 as _ <-|by injection H1 as _ <-; right; right].
  apply bind_inv in Hr as [(tok & w1 & H1 & Hr)|(Ho & o1 & H1 & _)];
    (eapply kept_lbs in H1; [|apply frames_wrapM, getLoadBalancerProvider_keeps]); [|by right; right].
  apply bind_inv in Hr as [(lb & w2 & H2 & Hr)|(Ho & o1 & H2 & _)];
    pose proof H2 as H2'; (eapply kept_lbs in H2; [|apply find_load_balancer_keeps]); [|right; right; split; [done|by trans w1]].
  pose proof (find_load_balancer_spec _ _ _ _ _ H2') as Hspec.
  destruct lb as [lb|].
  2:{ left. destruct (named_lb_kept cp service _ _ H1) as (<- & _). exact Hspec. }
  right. destruct Hspec as (id & Hid & _).
  assert (lbs_kept lb_view lb_named w w2) as Hk2 by by trans w1.
  apply bind_inv in Hr as [([] & w3 & H3 & Hr)|(Ho & o1 & H3 & _)]; rewrite decide_True in H3 by by rewrite Hid.
  2:{ right. split; [done|]. trans w2; [done|]. by eapply kept_lbs in H3; [|apply checkPending_keeps]. }
  destruct (check_lifecycle lb service) as [[]|e|] eqn:Hl; [left; by apply (checks_found_ready cp service w lb w1 w2 w3)|right..].
  all: eapply kept_lbs in H3; [|apply checkPending_keeps].
  all: assert (lbs_kept lb_view lb_named w w3) as Hk3 by by trans w2.
  all: apply bind_inv in Hr as [(s & w4 & H4 & Hr)|(Ho & o1 & H4 & _)];
      (eapply kept_lbs in H4; [|apply handler_spec_keeps]); [|split; [done|by trans w3]].
  all: apply bind_inv in Hr as [(spec & w5 & H5 & Hr)|(Ho & o1 & H5 & _)];
      apply ensure_nsgs_keeps in H5; (assert (lbs_kept lb_view lb_named w3 _) as Hk5 by (trans w4; [exact H4|exact H5]));
      [|split; [done|by trans w3]].
  all: unfold ensure_updated, mbind, M_bind, lift in Hr; rewrite Hl in Hr; injection Hr as <- <-; split; [done|by trans w3].
Qed.

Lemma update_locked_ready cp site service nodes w o w' :
  update_locked cp site service nodes w = (o, w') → found_ready cp service w ∨ lbs_kept lb_view lb_named w w'.
Proof.
  intros Hr. unfold update_locked in Hr.
  apply bind_inv in Hr as [(ns & w1 & H1 & Hr)|(Ho & o1 & H1 & _)]; [injection H1 as _ <-|by injection H1 as _ <-; right].
  apply bind_inv in Hr as [(p & w1 & H1 & Hr)|(Ho & o1 & H1 & _)]; [injection H1 as _ <-|by injection H1 as _ <-; right].
  destruct p; [by injection Hr as _ <-; right|].
  apply bind_inv in Hr as [(tok & w1 & H1 & Hr)|(Ho & o1 & H1 & _)];
    (eapply kept_lbs in H1; [|apply frames_wrapM, getLoadBalancerProvider_keeps]); [|by right].
  apply bind_inv in Hr as [(lb & w2 & H2 & Hr)|(Ho & o1 & H2 & _)];
    pose proof H2 as H2'; (eapply kept_lbs in H2; [|apply find_load_balancer_keeps]); [|by right; trans w1].
  assert (lbs_kept lb_view lb_named w w2) as Hk2 by by trans w1.
  destruct lb as [lb|]; [|by injection Hr as _ <-; right].
  apply bind_inv in Hr as [([] & w3 & H3 & Hr)|(Ho & o1 & H3 & _)]; [|by injection H3 as _ <-; right].
  injection H3 as H3 <-. destruct (lb_Id lb) as [id|]; [|by injection Hr as _ <-; right].
  apply bind_inv in Hr as [([] & w3 & H4 & Hr)|(Ho & o1 & H4 & _)]; [left; by apply (checks_found_ready cp service w lb w1 w2 w3)|].
  right. trans w2; [done|]. by eapply kept_lbs in H4; [|apply checkPending_keeps].
Qed.

(** A handler does nothing to load balancers before it has the lock. *)
Lemma locked_body {A} service (body : M W A) locks w o st' (P : outcome A → Prop) (Q : Prop) :
  (∀ e, P (Err e)) → P Panic →
  (∀ w1 o w', lbs_kept lb_view lb_named w w1 → body w1 = (o, w') → Q ∨ P o ∧ lbs_kept lb_view lb_named w1 w') →
  (_ ← unlocked (check_service_exists service); with_lock (lock_name service) body) (locks, w) = (o, st') →
  Q ∨ P o ∧ lbs_kept lb_view lb_named w st'.2.
Proof.
  intros He Hp Hbody Hr. unfold mbind, M_bind, unlocked in Hr.
  destruct (check_service_exists service w) as [o1 w1] eqn:E.
  eapply kept_lbs in E; [|apply check_service_exists_keeps].
  destruct o1 as [[]|e|]; [|by injection Hr as <- <-; right..].
  unfold with_lock in Hr. destruct (TryAcquire locks _) as [[] locks2]; [|by injection Hr as <- <-; right].
  destruct (body w1) as [o' w'] eqn:E'. injection Hr as <- <-.
  destruct (Hbody _ _ _ E E') as [?|[? Hk]]; [by left|right]. split; [done|]. by trans w1.
Qed.

Lemma found_ready_kept cp service w w1 :
  lbs_kept lb_view lb_named w w1 → found_ready cp service w1 → found_ready cp service w.
Proof.
  intros Hk (lb & w2 & w3 & Hk' & Hg & Hid & Hrest). destruct (named_lb_kept cp service _ _ Hk) as (Hn & _).
  exists lb, w2, w3. split_and!; [by trans w1|done|by rewrite Hid|apply Hrest..].
Qed.

(** C8: A load balancer is changed only when it is free.  If a service has one already,
    [EnsureLoadBalancer] succeeds, or changes any load balancer, only after the cloud
    answered that the load balancer of the service is active and that none of its work
    requests is accepted or in progress; otherwise it reports a failure and has changed no
    load balancer.  [UpdateLoadBalancer] without such answers changes no load balancer
    either.  Of a network load balancer the cloud may also answer that it failed, and its
    work requests are not asked for. *)
Theorem busy_untouched cp site service nodes locks w :
  (∀ o st', EnsureLoadBalancer cp site service nodes (locks, w) = (o, st') →
     named_lb cp service w = None ∨ found_ready cp service w ∨
     is_ret o = false ∧ lbs_kept lb_view lb_named w st'.2) ∧
  (∀ o st', UpdateLoadBalancer cp site service nodes (locks, w) = (o, st') →
     found_ready cp service w ∨ lbs_kept lb_view lb_named w st'.2).
Proof.
  split; intros o st' Hr.
  - apply or_assoc. eapply (locked_body service _ locks w o st' (λ o, is_ret o = false)); [done..| |exact Hr].
    intros w1 o1 w' Hk Hr1. destruct (named_lb_kept cp service _ _ Hk) as (<- & _).
    apply or_assoc. destruct (ensure_locked_ready _ _ _ _ _ _ _ Hr1) as [?|[?|?]]; [by left|right; left|by right; right].
    by eapply found_ready_kept.
  - cut (found_ready cp service w ∨ True ∧ lbs_kept lb_view lb_named w st'.2); [tauto|].
    eapply (locked_body service _ locks w o st' (λ _, True)); [done..| |exact Hr].
    intros w1 o1 w' Hk Hr1. destruct (update_locked_ready _ _ _ _ _ _ _ Hr1) as [?|?]; [left|by right].
    by eapply found_ready_kept.
Qed.

(** ** The nodes behind a load balancer that is deleted *)

Lemma backend_ip_steps (backends : list GenericBackend) ips l r :
  V6 ips = "" → (∀ be, be ∈ backends → ∃ ip, be_IpAddress be = Some ip ∧ IsIPv6String ip = false) →
  foldl (λ acc backend, st ← acc; backend_ip_step st backend) (mret (ips, l)) backends = Ret r →
  ∀ x, x ∈ r.2 ↔ x ∈ l ∨ V6 x = "" ∧ ∃ be, be ∈ backends ∧ be_IpAddress be = Some (V4 x).
Proof.
  revert ips l. induction backends as [|be backends IH]; intros ips l H6 Hb Hr x; cbn in Hr.
  { injection Hr as <-. set_solver. }
  destruct (Hb be) as (ip & Hip & Hv4); [by left|]. unfold mret, backend_ip_step in Hr.
  rewrite Hip in Hr. simpl in Hr. rewrite Hv4, H6 in Hr.
  apply IH with (x := x) in Hr as ->; [|done|set_solver].
  assert (∀ y : IpAddresses, y = {| V4 := ip; V6 := "" |} ↔ V6 y = "" ∧ be_IpAddress be = Some (V4 y)) as Hy.
  { intros [v4 v6]. rewrite Hip. naive_solver. }
  assert (x ∈ (if decide ({| V4 := ip; V6 := "" |} ∈ l) then l else l ++ [{| V4 := ip; V6 := "" |}]) ↔
    x ∈ l ∨ x = {| V4 := ip; V6 := "" |}) as ->.
  { case_decide; [naive_solver|]. by rewrite elem_of_app, list_elem_of_singleton. }
  rewrite Hy. setoid_rewrite elem_of_cons. naive_solver.
Qed.

Lemma found_by_ip (all : list Node) ip node :
  NoDup (NodeInternalIP <$> all) →
  last (filter (λ n, NodeInternalIP n = ip) all) = Some node ↔ node ∈ all ∧ NodeInternalIP node = ip.
Proof.
  intros Hnd. split.
  - intros Hl%last_Some_elem_of. by apply list_elem_of_filter in Hl as [? ?].
  - intros [Hin <-]. apply list_elem_of_split in Hin as (l1 & l2 & ->).
    rewrite fmap_app, fmap_cons, NoDup_app, NoDup_cons in Hnd. destruct Hnd as (_ & _ & Hn2 & _).
    rewrite filter_app, filter_cons, decide_True by done.
    replace (filter (λ n, NodeInternalIP n = NodeInternalIP node) l2) with ([] : list Node); [by rewrite last_snoc|].
    symmetry. apply elem_of_nil_inv. intros n [Heq Hn]%list_elem_of_filter. apply Hn2. rewrite <-Heq.
    by apply list_elem_of_fmap_2.
Qed.

(** The nodes whose subnets are cleaned up when a load balancer with IPv4
    backends is deleted are exactly the nodes that have no internal IPv6 address and
    whose internal IPv4 address is that of a backend or missing.  A node with internal
    addresses of both families is not found, although its IPv4 address is a backend. *)
Lemma cleanup_nodes_correct cp site lb ips (all nodes : list Node) :
  (∀ n b be, lb_BackendSets lb !! n = Some b → be ∈ bs_Backends b →
     ∃ ip, be_IpAddress be = Some ip ∧ IsIPv6String ip = false) →
  cp_NodeLister cp = inr all → NoDup (NodeInternalIP <$> all) →
  backend_ips (RS := RS) site lb = Ret ips →
  getNodesAndPodsByIPs cp (set_order (1 + site) ips) = Ret nodes →
  ∀ node, node ∈ nodes ↔ node ∈ all ∧ V6 (NodeInternalIP node) = "" ∧
    (V4 (NodeInternalIP node) = "" ∨
     ∃ n b be, lb_BackendSets lb !! n = Some b ∧ be ∈ bs_Backends b ∧
       be_IpAddress be = Some (V4 (NodeInternalIP node))).
Proof.
  intros Hv4 Hall Hnd Hips Hnodes node. unfold getNodesAndPodsByIPs in Hnodes. rewrite Hall in Hnodes.
  injection Hnodes as <-. rewrite list_elem_of_omap. setoid_rewrite (found_by_ip all _ node Hnd).
  setoid_rewrite set_order_perm.
  unfold backend_ips in Hips. apply bind_Ret_inv in Hips as (r & Hr & Hips). injection Hips as <-.
  assert (∀ be, be ∈ flat_map (λ '(_, b), bs_Backends b) (range site (lb_BackendSets lb)) ↔
    ∃ n b, lb_BackendSets lb !! n = Some b ∧ be ∈ bs_Backends b) as Hbe.
  { intros be. rewrite list_elem_of_In, in_flat_map. setoid_rewrite <-list_elem_of_In.
    setoid_rewrite range_perm. split.
    - intros ([n b] & Hn%elem_of_map_to_list & Hb). eauto.
    - intros (n & b & Hn%elem_of_map_to_list & Hb). by exists (n, b). }
  assert (∀ x, x ∈ r.2 ↔ x ∈ [{| V4 := ""; V6 := "" |}] ∨
    V6 x = "" ∧ ∃ n b be, lb_BackendSets lb !! n = Some b ∧ be ∈ bs_Backends b ∧ be_IpAddress be = Some (V4 x)) as Hel.
  { intros x. apply backend_ip_steps with (x := x) in Hr as ->; [|done|].
    - setoid_rewrite Hbe. naive_solver.
    - intros be (n & b & Hn & Hin)%Hbe. eauto. }
  setoid_rewrite Hel.
  destruct (NodeInternalIP node) as [v4 v6] eqn:E. split.
  - intros (ip & Hip & Hin & <-). rewrite list_elem_of_singleton in Hip. naive_solver.
  - intros (Hin & H6 & H4). exists {| V4 := v4; V6 := v6 |}. simpl in *. subst v6.
    rewrite list_elem_of_singleton. naive_solver.
Qed.
End facts.
