(* ===== verification/HandlersMemory.v ===== *)
(** * The handlers over services in memory

    The services of [LoadBalancerFacts.lb_world] with names, groups and Kubernetes
    objects; they satisfy the laws of [HandlersFacts], and the theorems on the handlers
    are applied to them. *)
From stdpp Require Import base tactics list gmap sets strings.
From S2P Require Import Prelude GoStrings Types ClientErrors Locks SecurityLists SecurityListManager NetworkSecurityGroups Annotations Provider Names Diff Spec IpVersions SpecFacts LoadBalancer LoadBalancerFacts Handlers HandlersFacts.

Section memory.
Context {RS : Type}.
Context (storage : Storage) (ok : storage_ok storage).

Local Instance storage_lb : LbClient (lb_world RS) RS := memory_lb storage.
Local Instance storage_laws : LbLaws (lb_world RS) RS := memory_lb_laws storage ok.
Implicit Types (w : lb_world RS) (v : LbView RS).

Definition with_names w (names : gmap (string * string * string) string) : lb_world RS := {|
  lw_lbs := lw_lbs w; lw_subnets := lw_subnets w; lw_lists := lw_lists w; lw_names := names;
  lw_groups := lw_groups w; lw_services := lw_services w |}.

Definition with_groups w (groups : gmap string (gmap string string)) : lb_world RS := {|
  lw_lbs := lw_lbs w; lw_subnets := lw_subnets w; lw_lists := lw_lists w; lw_names := lw_names w;
  lw_groups := groups; lw_services := lw_services w |}.

(** A read that answers not found for [None]. *)
Definition read {A} (o : lb_world RS → option A) : M (lb_world RS) A := λ w,
  (match o w with Some a => Ret a | None => Err NotFoundErr end, w).

(** The load balancer the service answers, in the given state. *)
Definition lb_of_view (id state : string) v : GenericLoadBalancer RS := {|
  lb_Id := Some id; lb_CompartmentId := Some "compartment"; lb_DisplayName := Some id;
  lb_LifecycleState := Some state; lb_ShapeName := v_ShapeName v;
  lb_IpAddresses := [{| ip_IpAddress := Some "192.0.2.1"; ip_IsPublic := Some true; ip_ReservedIp := None |}];
  lb_ShapeDetails := v_ShapeDetails v; lb_IsPrivate := Some false; lb_SubnetIds := ["subnet"];
  lb_NetworkSecurityGroupIds := Some (v_Nsgs v); lb_Listeners := v_Listeners v; lb_Certificates := ∅;
  lb_BackendSets := v_BackendSets v; lb_RuleSets := v_RuleSets v; lb_IpVersion := v_IpVersion v;
  lb_FreeformTags := ∅; lb_DefinedTags := ∅; lb_SystemTags := None |}.

Lemma view_of_view id state v : view_of (lb_of_view id state v) = v.
Proof. by destruct v. Qed.

(** Every load balancer is in its [state]; none has work requests. *)
Definition memory_admin (state : string → string) : LbAdminClient (lb_world RS) RS := {|
  WorkloadIdentityClient _ _ := false;
  GetLoadBalancerByName t c n := read (λ w,
    id ← lw_names w !! (t, c, n); Some (lb_of_view id (state id) (stored_view w id)));
  GetLoadBalancer_call id := read (λ w, Some (lb_of_view id (state id) (stored_view w id)));
  CreateLoadBalancer_call t d _ w :=
    match cld_CompartmentId d, cld_DisplayName d with
    | Some c, Some n =>
        let id := t +:+ "/" +:+ c +:+ "/" +:+ n in
        (Ret id, with_names (with_lbs w (<[id := view_of_details storage d]> (lw_lbs w)))
                   (<[(t, c, n) := id]> (lw_names w)))
    | _, _ => (Err NotFoundErr, w)
    end;
  DeleteLoadBalancer_call id w :=
    (Ret "work request", with_names w (filter (λ p, p.2 ≠ id) (lw_names w)));
  CreateCertificate _ _ := mret "work request";
  ListWorkRequests _ _ := mret [];
|}.

Global Instance memory_groups : NsgClient (lb_world RS) := {|
  GetNetworkSecurityGroup id := read (λ w,
    tags ← lw_groups w !! id; Some ({| nsg_Id := Some id; nsg_FreeformTags := Some tags |}, Some "etag"));
  ListNetworkSecurityGroupSecurityRules _ _ := mret [];
  AddNetworkSecurityGroupSecurityRules _ _ := mret ();
  RemoveNetworkSecurityGroupSecurityRules _ _ := mret ();
|}.

(** The name of a group is its id. *)
Global Instance memory_nsg_admin : NsgAdminClient (lb_world RS) := {|
  CreateNetworkSecurityGroup _ _ n uid w :=
    (Ret {| nsg_Id := Some n; nsg_FreeformTags := Some (managed_tags uid) |},
     with_groups w (<[n := managed_tags uid]> (lw_groups w)));
  ListNetworkSecurityGroups n _ _ := read (λ w,
    Some (if decide (is_Some (lw_groups w !! n)) then [{| nsg_Id := Some n; nsg_FreeformTags := lw_groups w !! n |}]
          else []));
  UpdateNetworkSecurityGroup g _ tags w :=
    (Ret {| nsg_Id := Some g; nsg_FreeformTags := Some tags |}, with_groups w (<[g := tags]> (lw_groups w)));
  DeleteNetworkSecurityGroup g _ w := (Ret None, with_groups w (delete g (lw_groups w)));
  GetPublicIpByIpAddress _ _ := fail NotFoundErr;
|}.

Global Instance memory_kube : KubeClient (lb_world RS) := {|
  Services_Get ns n := read (λ w, lw_services w !! (ns, n));
  apierrors_IsNotFound e := bool_decide (e = NotFoundErr);
  ServiceAccounts_Get _ _ := fail NotFoundErr;
  ServiceAccounts_CreateToken _ _ _ := fail NotFoundErr;
|}.

Global Instance memory_regional : RegionalClient (lb_world RS) := {| IsRegionalSubnet _ := mret true |}.

Lemma memory_state state t c n w lb w' :
  @GetLoadBalancerByName _ _ (memory_admin state) t c n w = (Ret lb, w') →
  ∃ id, lb_Id lb = Some id ∧ lb_LifecycleState lb = Some (state id).
Proof. cbn. intros [= Hr _]. destruct (lw_names w !! (t, c, n)); [|done]. injection Hr as <-. by eexists. Qed.

Lemma memory_handler_laws state :
  let _ := memory_admin state in HandlerLaws (lb_world RS) RS.
Proof.
  intros A.
  apply (Build_HandlerLaws _ _ _ _ _ _ A _ _ _ _
    (λ w t c n, lw_names w !! (t, c, n)) (λ w g, Some <$> lw_groups w !! g));
    try (intros; match goal with |- frames _ _ => idtac end; intros w1 r1 w2 Hr; cbn in Hr; repeat case_match;
         by injection Hr as _ <-).
  - intros t c n w lb w' Hr. cbn in Hr. injection Hr as Hr _.
    destruct (lw_names w !! (t, c, n)) as [id|] eqn:E; [|done]. injection Hr as <-. exists id.
    split_and!; [done..|apply view_of_view].
  - intros t c n w e w' Hr _. cbn in Hr. injection Hr as Hr _.
    by destruct (lw_names w !! (t, c, n)) as [id|] eqn:E.
  - intros t d uid w wrID w1 wr w2 id c n Hc [= <- <-] [= <-] Hcomp Hname. cbn in Hc.
    rewrite Hcomp, Hname in Hc. injection Hc as <- <-. cbn. unfold stored_view. simpl.
    by rewrite !lookup_insert_eq.
  - intros id w wrID w1 w2 [= _ <-] [= <-]. split; [|done]. intros t c n. cbn.
    rewrite map_lookup_filter. destruct (lw_names w !! (t, c, n)) as [id'|]; simpl; [|done].
    repeat case_decide; simplify_option_eq; naive_solver.
  - intros id w g etag w' Hr. cbn in Hr. injection Hr as Hr _.
    destruct (lw_groups w !! id) as [tags|] eqn:E; [|done]. by injection Hr as <- _.
  - intros id etag w r w' [= _ <-] g. cbn. case_decide as Hg.
    + subst. by rewrite lookup_delete_eq.
    + by rewrite lookup_delete_ne.
Defined.
End memory.

(** ** The theorems at concrete inputs *)

Definition example_labels : LabelParser := {| labels_Parse _ := inr (λ _, true) |}.

Definition example_provider : CloudProvider := {|
  cp_CompartmentID := "compartment"; cp_VCNID := "vcn"; cp_Subnet1 := "subnet"; cp_Subnet2 := "";
  cp_Tags := None; cp_prefixEnv := ""; cp_enableOkeSystemTags := false; cp_NodeLister := inr [];
  cp_Secrets _ _ := inl NotFoundErr; cp_securityListManagerFactory _ := securityListManagerNOOP |}.

(** A service of type LB whose rules are kept in groups. *)
Definition nsg_service : Service :=
  let s := example_svc {[ServiceAnnotationLoadBalancerSecurityRuleManagementMode := "NSG"]}
             [example_port "TCP" 80 30080] in {|
  svc_Namespace := svc_Namespace s; svc_Name := svc_Name s; svc_UID := svc_UID s;
  svc_Annotations := svc_Annotations s; svc_DeletionTimestamp := None; svc_Type := svc_Type s;
  svc_Ports := svc_Ports s; svc_SessionAffinity := svc_SessionAffinity s;
  svc_ExternalTrafficPolicy := svc_ExternalTrafficPolicy s; svc_HealthCheckNodePort := 0;
  svc_LoadBalancerIP := ""; svc_IPFamilies := [IPv4]; svc_IPFamilyPolicy := Some IPFamilyPolicySingleStack |}.

(** A cloud that has the load balancer [view] of the service, and a foreign group. *)
Definition example_cloud (view : LbView ()) : lb_world () := {|
  lw_lbs := {["lb" := view]};
  lw_subnets := {["subnet" := family_subnet (Some "10.0.0.0/24") None]}; lw_lists := ∅;
  lw_names := {[(LB, "compartment", GetLoadBalancerName "" nsg_service) := "lb"]};
  lw_groups := {["other" := {["CreatedBy" := "admin"]}]};
  lw_services := {[("default", "svc") := nsg_service]} |}.

Section examples.
#[local] Existing Instance example_parsers.
#[local] Existing Instance example_labels.
#[local] Existing Instance list_range.
#[local] Instance example_client : LbClient (lb_world ()) () := memory_lb exact_storage.
#[local] Instance example_laws : LbLaws (lb_world ()) () := memory_lb_laws exact_storage exact_storage_ok.

(** The listener of port 81 is replaced by that of port 80, and a group is created and
    attached. *)
Lemma EnsureLoadBalancer_converges_witness :
  let _ := memory_admin (RS := ()) exact_storage (const lbLifecycleStateActive) in
  ∃ status st', EnsureLoadBalancer example_provider 0 nsg_service [] (∅, example_cloud (view_of old_lb))
                = (Ret (Some status), st') ∧
    lb_wf (stored_view st'.2 "lb").
Proof.
  intros A. pose (memory_handler_laws (RS := ()) exact_storage exact_storage_ok (const lbLifecycleStateActive)) as L. fold A in L. cbv zeta in L.
  destruct (EnsureLoadBalancer example_provider 0 nsg_service [] (∅, example_cloud (view_of old_lb)))
    as [o st'] eqn:Hr.
  assert (∃ status, o = Ret (Some status)) as [status ->].
  { apply (f_equal fst) in Hr. vm_compute in Hr. eexists. by rewrite <-Hr. }
  exists status, st'. split; [done|].
  destruct (EnsureLoadBalancer_converges (HandlerLaws0 := L) example_provider 0 nsg_service []
    ∅ (example_cloud (view_of old_lb)) status st') as (id & s & subnets & nsgs & _ & _ & Hid & _ & Hwf); [..|exact Hr|].
  - apply Forall_singleton. by split; [left|].
  - done.
  - intros id Hid. vm_compute in Hid. injection Hid as <-.
    change (lb_wf (view_of old_lb)). unfold lb_wf. simpl. split.
    + intros n b [<- <-]%lookup_singleton_Some. split; [apply example_backend_set_ok|done].
    + by intros n1 n2 [? [<- _]%lookup_singleton_Some] [? [<- _]%lookup_singleton_Some].
  - by rewrite Hid in Hwf.
Defined.

(** Without its group the load balancer is gone and the foreign group is still there. *)
Lemma EnsureLoadBalancerDeleted_correct_witness :
  let _ := memory_admin (RS := ()) exact_storage (const lbLifecycleStateActive) in
  let w := with_groups (example_cloud (view_of old_lb))
             (<[generateNsgName nsg_service := managed_tags "uid"]> {["other" := ∅]}) in
  ∃ st', EnsureLoadBalancerDeleted example_provider 0 nsg_service (∅, w) = (Ret (), st') ∧
    lw_groups st'.2 !! "other" = Some ∅.
Proof.
  intros A w. pose (memory_handler_laws (RS := ()) exact_storage exact_storage_ok (const lbLifecycleStateActive)) as L. fold A in L. cbv zeta in L.
  destruct (EnsureLoadBalancerDeleted example_provider 0 nsg_service (∅, w)) as [o st'] eqn:Hr.
  assert (o = Ret ()) as -> by (apply (f_equal fst) in Hr; vm_compute in Hr; done).
  exists st'. split; [done|].
  destruct (EnsureLoadBalancerDeleted_correct (HandlerLaws0 := L) example_provider 0 nsg_service ∅ w st' Hr)
    as (_ & _ & Hg).
  destruct (Hg "other") as [Ho|[Ho _]].
  - assert (Some <$> lw_groups st'.2 !! "other" = Some (Some ∅)) as E
      by (trans (Some <$> lw_groups w !! "other"); [exact Ho|by vm_compute]).
    clear -E. destruct (lw_groups st'.2 !! "other"); [by injection E as ->|done].
  - exfalso. clear -Ho. change (Some <$> lw_groups w !! "other" = Some (Some (managed_tags "uid"))) in Ho.
    by vm_compute in Ho.
Defined.

(** The load balancer of the service is being created, every other one is active. *)
Definition one_creating (id : string) : string := if decide (id = "lb") then "CREATING" else lbLifecycleStateActive.

Lemma busy_untouched_witness :
  let _ := memory_admin (RS := ()) exact_storage one_creating in
  let w := example_cloud (view_of old_lb) in
  let '(o, st') := EnsureLoadBalancer example_provider 0 nsg_service [] (∅, w) in
  is_ret o = false ∧ stored_view st'.2 "lb" = view_of old_lb.
Proof.
  intros A w. pose (memory_handler_laws (RS := ()) exact_storage exact_storage_ok one_creating) as L. fold A in L. cbv zeta in L.
  destruct (EnsureLoadBalancer example_provider 0 nsg_service [] (∅, w)) as [o st'] eqn:Hr.
  destruct (proj1 (busy_untouched (HandlerLaws0 := L) example_provider 0 nsg_service [] ∅ w) o st' Hr) as [Hn|[Hf|[Ho [Hv _]]]].
  - by vm_compute in Hn.
  - destruct Hf as (lb & w1 & w2 & _ & Hg & Hid & Hs & _). apply memory_state in Hg as (id & Hid' & Hst).
    rewrite Hid' in Hid. vm_compute in Hid. injection Hid as ->. rewrite Hst in Hs. by destruct Hs as [Hs|[Hs _]]; vm_compute in Hs.
  - split; [done|]. exact (Hv "lb").
Defined.

(** A backend of the load balancer with internal addresses of both families. *)
Definition dual_stack_node : Node := {|
  node_Name := "node"; node_Labels := ∅; node_Annotations := ∅; node_ProviderID := "oci://node";
  node_Addresses := [{| addr_Type := NodeInternalIPType; addr_Address := "10.0.0.9" |};
                     {| addr_Type := NodeInternalIPType; addr_Address := "fd00::9" |}];
  node_Conditions := [] |}.

Lemma cleanup_nodes_correct_witness :
  let cp := {| cp_CompartmentID := ""; cp_VCNID := ""; cp_Subnet1 := ""; cp_Subnet2 := ""; cp_Tags := None;
               cp_prefixEnv := ""; cp_enableOkeSystemTags := false; cp_NodeLister := inr [dual_stack_node];
               cp_Secrets _ _ := inl NotFoundErr; cp_securityListManagerFactory _ := securityListManagerNOOP |} in
  ∃ ips nodes, backend_ips 0 old_lb = Ret ips ∧ getNodesAndPodsByIPs cp (set_order 1 ips) = Ret nodes ∧
    dual_stack_node ∉ nodes.
Proof.
  intros cp. eexists _, _. split; [by vm_compute|]. split; [by vm_compute|].
  match goal with |- _ ∉ ?nodes => intros Hin;
    apply (cleanup_nodes_correct cp 0 old_lb
      [{| V4 := ""; V6 := "" |}; {| V4 := "10.0.0.9"; V6 := "" |}] [dual_stack_node] nodes) in Hin end.
  - by destruct Hin as (_ & Hin & _).
  - simpl. intros n b be [<- <-]%lookup_singleton_Some ->%list_elem_of_singleton. by eexists.
  - done.
  - apply NoDup_singleton.
  - by vm_compute.
  - by vm_compute.
Defined.
End examples.
