(* ===== verification/ClientCalls.v ===== *)
(** * Calls to services (src/pkg/oci/client)

    What the clients of all services share: rate limits, work request ids, polling and
    paging. *)
From stdpp Require Import base tactics list gmap sets strings.
From S2P Require Import Prelude GoStrings ClientErrors.

(** The reader and the writer of [RateLimiter], and the number of ticks of the ticker
    a poll sees before its deadline of ten minutes; the ticker ticks every five
    seconds. *)
Class Limits (W : Type) := {
  Reader_TryAccept : W → bool * W;
  Writer_TryAccept : W → bool * W;
  poll_ticks : W → nat;
}.

(** [workRequestPollInterval] and [defaultSynchronousAPIPollContextTimeout], in
    seconds. *)
Definition workRequestPollInterval : nat := 5.
Definition defaultSynchronousAPIPollContextTimeout : nat := 600.

(** Work requests per page of a listing. *)
Definition ListWorkRequestLimit : Z := 100.

(** A context: the time left until its deadline in seconds, if it has one. *)
Definition context := option Z.

Section calls.
Context {W : Type} `{!Limits W}.

(** [if !c.rateLimiter.Reader.TryAccept() { return RateLimitError(...) }], or the
    writer. *)
Definition limited {A} (isWrite : bool) (opName : string) (call : M W A) : M W A := λ w,
  let '(accepted, w) := if isWrite then Writer_TryAccept w else Reader_TryAccept w in
  if accepted then call w else (Err (RateLimitError isWrite opName), w).

(** [*resp.OpcWorkRequestId]. *)
Definition work_request (call : M W (option string)) : M W string := id ← call; lift (deref id).

(** [wait.PollUntil] after [ticks] ticks: a condition that answers [None] is not done. *)
Fixpoint PollUntil {A} (ticks : nat) (condition : M W (option A)) : M W A :=
  match ticks with
  | 0 => fail WaitTimeout
  | S ticks =>
      done ← condition;
      match done with Some a => mret a | None => PollUntil ticks condition end
  end.

(** The ticks of a poll that starts in [w]. *)
Definition poll_limit : nat := defaultSynchronousAPIPollContextTimeout / workRequestPollInterval.
Definition poll {A} (condition : M W (option A)) : M W A := λ w,
  PollUntil (poll_limit `min` poll_ticks w) condition w.

(** The loop over the pages of a listing.  [visit] looks at the items of a page and may
    answer; [fuel] bounds the number of pages. *)
Fixpoint pages {A B} (fuel : nat) (list_page : option string → M W (list A * option string))
    (visit : B → list A → M W (B + B)) (acc : B) (page : option string) : M W B :=
  match fuel with
  | 0 => fail (Errorf "out of fuel" [])
  | S fuel =>
      '(items, next) ← list_page page;
      r ← visit acc items;
      match r, next with
      | inr b, _ => mret b
      | inl b, None => mret b
      | inl b, Some _ => pages fuel list_page visit b next
      end
  end.

(** The ticks a poll sees before the context is done; [poll_ticks] accounts for the time
    that is spent otherwise and for contexts that are cancelled. *)
Definition ctx_ticks (ctx : context) (interval : Z) (w : W) : nat :=
  match ctx with
  | Some timeLeft => Z.to_nat (timeLeft / interval) `min` poll_ticks w
  | None => poll_ticks w
  end.

(** [wait.PollImmediateUntil]: the condition is tried once before the first tick. *)
Definition PollImmediateUntil {A} (ctx : context) (interval : Z) (condition : M W (option A)) : M W A :=
  done ← condition;
  match done with
  | Some a => mret a
  | None => λ w, PollUntil (ctx_ticks ctx interval w) condition w
  end.

(** Requests that ask the writer and report another error when it refuses. *)
Definition writer_limited {A} (err : error) (call : M W A) : M W A := λ w,
  let '(accepted, w) := Writer_TryAccept w in
  if accepted then call w else (Err err, w).

(** The cache of the load balancer clients from names to OCIDs, a [sync.Map], is part of
    the state; calls to the service do not touch it. *)
Definition on_world {S A} (c : M W A) : M (S * W) A := λ '(nameToOcid, w),
  let '(o, w) := c w in (o, (nameToOcid, w)).

Definition cache_Store (name ocid : string) : M (gmap string string * W) () := λ '(nameToOcid, w),
  (Ret (), (<[name := ocid]> nameToOcid, w)).

Definition cache_Delete (name : string) : M (gmap string string * W) () := λ '(nameToOcid, w),
  (Ret (), (delete name nameToOcid, w)).

Definition cache_Load (name : string) : M (gmap string string * W) (option string) := λ '(nameToOcid, w),
  (Ret (nameToOcid !! name), (nameToOcid, w)).
End calls.

(** A map converted entry by entry; which entry panics first is not observable. *)
Definition convert {A B} (f : A → outcome B) (m : gmap string A) : outcome (gmap string B) :=
  map_fold (λ k a acc, acc' ← acc; b ← f a; mret (<[k := b]> acc')) (mret ∅) m.

(** ** Polling ends *)

Section facts.
Context {W : Type}.

(** [k] polls that found the condition not done. *)
Inductive polls {A} (condition : M W (option A)) : nat → W → W → Prop :=
| polls_none w : polls condition 0 w w
| polls_more k w w1 w2 :
    condition w = (Ret None, w1) → polls condition k w1 w2 → polls condition (S k) w w2.

(** The last poll, after [k] that were not done: done, failed, or no tick left. *)
Inductive poll_end {A} (condition : M W (option A)) (ticks k : nat) (w : W) : outcome A → W → Prop :=
| end_done a w' : k < ticks → condition w = (Ret (Some a), w') → poll_end condition ticks k w (Ret a) w'
| end_failed e w' : k < ticks → condition w = (Err e, w') → poll_end condition ticks k w (Err e) w'
| end_panic w' : k < ticks → condition w = (Panic, w') → poll_end condition ticks k w Panic w'
| end_timeout : k = ticks → poll_end condition ticks k w (Err WaitTimeout) w.

Lemma PollUntil_spec {A} ticks (condition : M W (option A)) w o w' :
  PollUntil ticks condition w = (o, w') →
  ∃ k w1, k ≤ ticks ∧ polls condition k w w1 ∧ poll_end condition ticks k w1 o w'.
Proof.
  revert w. induction ticks as [|ticks IH]; intros w Hr; simpl in Hr.
  { injection Hr as <- <-. exists 0, w. split_and!; [done|constructor|by constructor]. }
  unfold mbind, M_bind in Hr. destruct (condition w) as [[[a|]|e|] w1] eqn:E.
  - injection Hr as <- <-. exists 0, w. split_and!; [lia|constructor|]. apply end_done; [lia|done].
  - apply IH in Hr as (k & w2 & Hk & Hp & He). exists (S k), w2. split_and!; [lia|by econstructor|].
    destruct He; [apply end_done|apply end_failed|apply end_panic|]; try done; try lia. subst. by apply end_timeout.
  - injection Hr as <- <-. exists 0, w. split_and!; [lia|constructor|]. apply end_failed; [lia|done].
  - injection Hr as <- <-. exists 0, w. split_and!; [lia|constructor|]. apply end_panic; [lia|done].
Qed.

(** ** Paging ends *)

(** The pages of a listing that the service answers from page [page] on. *)
Inductive listing {A} (list_page : option string → M W (list A * option string))
    : option string → W → list (list A) → W → Prop :=
| listing_last page items w w' :
    list_page page w = (Ret (items, None), w') → listing list_page page w [items] w'
| listing_more page next items rest w w1 w' :
    list_page page w = (Ret (items, Some next), w1) → listing list_page (Some next) w1 rest w' →
    listing list_page page w (items :: rest) w'.

(** A loop that collects [f] of all items reads all pages and ends. *)
Lemma pages_collect {A B} (list_page : option string → M W (list A * option string)) (f : list A → outcome (list B))
    fuel page w ps w' acc news :
  listing list_page page w ps w' → length ps ≤ fuel → mapM f ps = Ret news →
  pages fuel list_page (λ acc items, new ← lift (f items); mret (inl (acc ++ new))) acc page w
  = (Ret (acc ++ concat news), w').
Proof.
  intros Hl. revert fuel acc news. induction Hl as [page items w w' H|page next items rest w w1 w' H Hl IH];
    intros fuel acc news Hf Hok; (destruct fuel as [|fuel]; [simpl in Hf; lia|]); simpl;
    apply bind_Ret_inv in Hok as (new & Hnew & Hok); apply bind_Ret_inv in Hok as (news' & Hnews & Hok);
    injection Hok as <-; unfold mbind, M_bind, lift; rewrite H, Hnew; simpl.
  - injection Hnews as <-. by rewrite app_nil_r.
  - rewrite (IH _ _ news'); [by rewrite (assoc (++))|simpl in Hf; lia|done].
Qed.

Lemma PollUntil_frames {A} R `{!PreOrder R} n (c : M W (option A)) : frames R c → frames R (PollUntil n c).
Proof.
  intros Hc. induction n as [|n IH]; simpl; [by intros w o w' [= _ <-]|].
  apply frames_bind; [done|done|]. intros [a|]; [|done]. by intros w o w' [= _ <-].
Qed.

Lemma work_request_Ret (c : M W (option string)) w wr w1 :
  work_request c w = (Ret wr, w1) → c w = (Ret (Some wr), w1).
Proof. intros ([wr'|] & w2 & Hc & Hr)%M_bind_Ret_inv; [|done]. by injection Hr as <- <-. Qed.

Lemma on_world_cache {S A} (c : M W A) (s : S * W) o s' : on_world c s = (o, s') → s'.1 = s.1 ∧ c s.2 = (o, s'.2).
Proof. destruct s as [cache w]. unfold on_world. destruct (c w) as [o1 w1] eqn:E. simpl. rewrite E. by intros [= <- <-]. Qed.
End facts.

(** ** Conversions of maps *)

Lemma convert_spec {A B} (f : A → outcome B) (m : gmap string A) m' :
  convert f m = Ret m' →
  ∀ k, match m !! k with Some a => ∃ b, f a = Ret b ∧ m' !! k = Some b | None => m' !! k = None end.
Proof.
  revert m'. unfold convert. induction m as [|i a m Hi Hfst IH] using map_first_key_ind; intros m' Hr k.
  { injection Hr as <-. by rewrite !lookup_empty. }
  rewrite map_fold_insert_first_key in Hr by done.
  apply bind_Ret_inv in Hr as (acc & Hacc & Hr). apply bind_Ret_inv in Hr as (b & Hb & Hr). injection Hr as <-.
  destruct (decide (i = k)) as [->|Hne].
  - rewrite !lookup_insert_eq. eauto.
  - rewrite !lookup_insert_ne by done. by apply IH.
Qed.

Lemma convert_omap {A B} (f : A → outcome B) (m : gmap string A) m' :
  convert f m = Ret m' → m' = omap (λ a, ret_value (f a)) m.
Proof.
  intros Hr. apply map_eq. intros k. pose proof (convert_spec f m m' Hr k) as Hk. rewrite lookup_omap.
  destruct (m !! k) as [a|]; simpl; [|done]. by destruct Hk as (b & -> & ->).
Qed.

(** ** Requests take effect through work requests *)

Section work_requests.
Context {W Obj V R G : Type} `{!Limits W}.

(** The resources of a service, and what each work request makes of one of them. *)
Variables (obj : W → string → option Obj) (result : W → string → option (string * Obj)).
Hypothesis Reader_keeps : ∀ w, obj (Reader_TryAccept w).2 = obj w ∧ result (Reader_TryAccept w).2 = result w.
Hypothesis Writer_keeps : ∀ w, obj (Writer_TryAccept w).2 = obj w ∧ result (Writer_TryAccept w).2 = result w.

Lemma limited_inv {A} isWrite op (c : M W A) w o w' :
  limited isWrite op c w = (o, w') →
  ∃ w1, obj w1 = obj w ∧ result w1 = result w ∧
    (c w1 = (o, w') ∨ w' = w1 ∧ o = Err (RateLimitError isWrite op)).
Proof using Reader_keeps Writer_keeps.
  unfold limited. destruct isWrite.
  - destruct (Writer_keeps w) as [H1 H2]. destruct (Writer_TryAccept w) as [[] w1]; naive_solver.
  - destruct (Reader_keeps w) as [H1 H2]. destruct (Reader_TryAccept w) as [[] w1]; naive_solver.
Qed.

(** While a work request is awaited, a resource is as before or as it says. *)
Definition as_before_or_done (wr : string) (w w' : W) : Prop :=
  result w' wr = result w wr ∧
  ∀ id, obj w' id = obj w id ∨ ∃ x, result w wr = Some (id, x) ∧ obj w' id = Some x.

#[export] Instance as_before_or_done_preorder wr : PreOrder (as_before_or_done wr).
Proof.
  split; [by split; [|left]|]. intros w1 w2 w3 [E1 H1] [E2 H2]. split; [congruence|]. intros id.
  destruct (H2 id) as [->|(x & Hw & Hl)]; [apply H1|]. right. exists x. by rewrite <-E1.
Qed.

Lemma limited_keeps {A} isWrite op (c : M W A) wr :
  frames (as_before_or_done wr) c → frames (as_before_or_done wr) (limited isWrite op c).
Proof using Reader_keeps Writer_keeps.
  intros Hc w o w' Hr. apply limited_inv in Hr as (w1 & H1 & H2 & [Hr|[-> _]]).
  - apply Hc in Hr as [E H]. split; [congruence|]. intros id. specialize (H id). by rewrite H1, H2 in H.
  - split; [by rewrite H2|]. left. by rewrite H1.
Qed.

(** The condition that is polled, and what is made of its answer. *)
Variables (condition : string → M W (option R)) (answer : R → outcome G).
Hypothesis condition_keeps : ∀ wr, frames (as_before_or_done wr) (condition wr).
Hypothesis condition_done : ∀ wr w r w' id x,
  condition wr w = (Ret (Some r), w') → result w wr = Some (id, x) → obj w' id = Some x.

Lemma await_keeps wr : frames (as_before_or_done wr) (r ← poll (condition wr); lift (answer r)).
Proof using condition_keeps.
  frames. intros w o w' Hr.
  exact (PollUntil_frames (as_before_or_done wr) _ _ (condition_keeps wr) _ _ _ Hr).
Qed.

Lemma await_done wr w g w' id x :
  (r ← poll (condition wr); lift (answer r)) w = (Ret g, w') → result w wr = Some (id, x) → obj w' id = Some x.
Proof using condition_keeps condition_done.
  intros Hr Hw. apply M_bind_Ret_inv in Hr as (r & w1 & Hp & Hr).
  injection Hr as _ <-. unfold poll in Hp. revert Hp. generalize (poll_limit `min` poll_ticks w). intros n.
  revert w Hw. induction n as [|n IH]; [done|]. intros w Hw Hp. simpl in Hp. apply M_bind_Ret_inv in Hp as ([y|] & w2 & Hc & Hp).
  - injection Hp as _ <-. by eapply condition_done.
  - apply (IH w2); [|done]. apply condition_keeps in Hc as [-> _]. done.
Qed.

(** A request, its work request, and their effect on what is shown. *)
Lemma request_effect (view : Obj → V) (empty : V) isWrite op (c : M W string) id (g : V → V) :
  (∀ w wr w1, c w = (Ret wr, w1) →
     ∃ x x', obj w id = Some x ∧ result w1 wr = Some (id, x') ∧ view x' = g (view x)) →
  ∀ (s s1 s2 : gmap string string * W) wr, on_world (limited isWrite op c) s = (Ret wr, s1) →
    (_ ← on_world (r ← poll (condition wr); lift (answer r)); mret ()) s1 = (Ret (), s2) →
    from_option view empty (obj s2.2 id) = g (from_option view empty (obj s.2 id)).
Proof using All.
  intros Hc [cache w] [cache1 w1] s2 wr Hr Ha. apply on_world_cache in Hr as [_ E]. simpl in E.
  apply limited_inv in E as (w0 & H1 & H2 & [E|[_ ?]]); [|done].
  destruct (Hc _ _ _ E) as (x & x' & Hx & Hwr & Hg).
  apply M_bind_Ret_inv in Ha as (r & [cache2 w3] & Ha & Hret). injection Hret as <-.
  apply on_world_cache in Ha as [_ Ha]. simpl in *.
  rewrite (await_done _ _ _ _ _ _ Ha Hwr), <-H1, Hx. simpl. by rewrite Hg.
Qed.

(** A request that keeps what is shown, whether or not its work request succeeds. *)
Lemma invisible_effect (view : Obj → V) (empty : V) isWrite op (c : M W string) id :
  (∀ w o w1, c w = (o, w1) → obj w1 = obj w ∧
     ∀ wr, o = Ret wr → ∃ x x', obj w id = Some x ∧ result w1 wr = Some (id, x') ∧ view x' = view x) →
  ∀ (s s1 : gmap string string * W) o, on_world (limited isWrite op c) s = (o, s1) →
    from_option view empty (obj s1.2 id) = from_option view empty (obj s.2 id) ∧
    ∀ wr o2 s2, o = Ret wr → on_world (r ← poll (condition wr); lift (answer r)) s1 = (o2, s2) →
      from_option view empty (obj s2.2 id) = from_option view empty (obj s.2 id).
Proof using condition_keeps Reader_keeps Writer_keeps.
  intros Hc s s1 o Hr. apply on_world_cache in Hr as [_ E].
  apply limited_inv in E as (w0 & H1 & H2 & [E|[-> ->]]); [|split; [by rewrite H1|done]].
  destruct (Hc _ _ _ E) as [Hk Hw]. split; [by rewrite Hk, H1|]. intros wr o2 s2 -> Ha.
  destruct (Hw _ eq_refl) as (x & x' & Hx & Hwr & Hv). apply on_world_cache in Ha as [_ Ha].
  apply await_keeps in Ha as [_ Ha]. rewrite <-H1, Hx. destruct (Ha id) as [->|(y & Hy & ->)].
  - by rewrite Hk, Hx.
  - rewrite Hwr in Hy. injection Hy as <-. done.
Qed.
End work_requests.

(** ** Waiting and listing *)

(** The pages of a listing whose pages are [f]. *)
Inductive page_chain {A} (f : option string → list A * option string) : option string → list (list A) → Prop :=
| chain_last page items : f page = (items, None) → page_chain f page [items]
| chain_more page next items rest :
    f page = (items, Some next) → page_chain f (Some next) rest → page_chain f page (items :: rest).

Section waiting.
Context {W : Type} `{!Limits W}.

(** Rate limits: [R] does not see the limiters. *)
Lemma limited_frames_of {A} (R : W → W → Prop) `{!PreOrder R} isWrite op (c : M W A) :
  (∀ w, R w (Reader_TryAccept w).2) → (∀ w, R w (Writer_TryAccept w).2) → frames R c → frames R (limited isWrite op c).
Proof.
  intros H1 H2 Hc w o w' Hr. unfold limited in Hr. specialize (H1 w). specialize (H2 w).
  destruct isWrite; [destruct (Writer_TryAccept w) as [[] w1]|destruct (Reader_TryAccept w) as [[] w1]];
    simpl in *; try (trans w1; [done|by eapply Hc]); by injection Hr as _ <-.
Qed.

Lemma writer_limited_frames_of {A} (R : W → W → Prop) `{!PreOrder R} err (c : M W A) :
  (∀ w, R w (Writer_TryAccept w).2) → frames R c → frames R (writer_limited err c).
Proof.
  intros H2 Hc w o w' Hr. unfold writer_limited in Hr. specialize (H2 w).
  destruct (Writer_TryAccept w) as [[] w1]; simpl in *; [trans w1; [done|by eapply Hc]|by injection Hr as _ <-].
Qed.

Lemma limited_Ret_of {A} isWrite op (c : M W A) w a w' :
  limited isWrite op c w = (Ret a, w') →
  ∃ w1, (w1 = (Reader_TryAccept w).2 ∨ w1 = (Writer_TryAccept w).2) ∧ c w1 = (Ret a, w').
Proof.
  unfold limited. destruct isWrite; [destruct (Writer_TryAccept w) as [[] w1]|destruct (Reader_TryAccept w) as [[] w1]];
    intros Hr; try done; exists w1; auto.
Qed.

Lemma PollImmediateUntil_frames {A} R `{!PreOrder R} ctx i (c : M W (option A)) :
  frames R c → frames R (PollImmediateUntil ctx i c).
Proof.
  intros Hc. unfold PollImmediateUntil. apply frames_bind; [done|done|]. intros [a|]; [apply (frames_lift R (Ret a))|].
  intros w o w' Hr. by eapply (PollUntil_frames R).
Qed.

(** The condition was met in the state that a wait ends in. *)
Lemma PollImmediateUntil_Ret {A} R `{!PreOrder R} ctx i (c : M W (option A)) w a w' :
  frames R c → PollImmediateUntil ctx i c w = (Ret a, w') → ∃ w1, R w w1 ∧ c w1 = (Ret (Some a), w').
Proof.
  intros Hc (r & w1 & Hr & Ha)%M_bind_Ret_inv. destruct r as [b|]; [injection Ha as <- <-; by exists w|].
  assert (R w w1) as HR by (by eapply Hc). revert Ha. generalize (ctx_ticks ctx i w1). intros n. revert w1 Hr HR.
  assert (∀ w1, R w w1 → PollUntil n c w1 = (Ret a, w') → ∃ w2, R w w2 ∧ c w2 = (Ret (Some a), w')) as H;
    [|intros w1 _ HR; by apply H].
  induction n as [|n IH]; intros w1 HR Ha; [done|]. simpl in Ha. apply M_bind_Ret_inv in Ha as ([b|] & w2 & Hc2 & Ha).
  - injection Ha as <- <-. by exists w1.
  - apply (IH w2); [|done]. trans w1; [done|by eapply Hc].
Qed.

(** A loop over pages that collects what satisfies [P] reads the pages of one listing. *)
Lemma collect_pages {A} (P : A → Prop) `{!∀ a, Decision (P a)} (list_page : option string → M W (list A * option string))
    (f : option string → list A * option string) (I : W → Prop) fuel page acc w l w' :
  (∀ page w o w', I w → list_page page w = (o, w') → I w') →
  (∀ page w items next w', I w → list_page page w = (Ret (items, next), w') → f page = (items, next)) →
  I w → pages fuel list_page (λ acc items, mret (inl (acc ++ filter P items))) acc page w = (Ret l, w') →
  I w' ∧ ∃ ps, page_chain f page ps ∧ l = acc ++ filter P (concat ps).
Proof.
  intros HI Hf. revert page acc w. induction fuel as [|fuel IH]; intros page acc w Hw Hr; [done|]. simpl in Hr.
  apply M_bind_Ret_inv in Hr as ([items next] & w1 & Hl & Hr). apply M_bind_Ret_inv in Hr as (r & w2 & Hv & Hr).
  injection Hv as <- <-. pose proof (HI _ _ _ _ Hw Hl) as Hw1. pose proof (Hf _ _ _ _ _ Hw Hl) as Hfp.
  destruct next as [next|]; [|injection Hr as <- <-; split; [done|]; exists [items]; split; [by constructor|]; simpl; by rewrite app_nil_r].
  apply IH in Hr as (Hw' & ps & Hc & ->); [|done]. split; [done|]. exists (items :: ps). split; [by econstructor|].
  simpl. by rewrite filter_app, (assoc (++)).
Qed.

Lemma pages_frames {A B} R `{!PreOrder R} fuel (list_page : option string → M W (list A * option string))
    (visit : B → list A → M W (B + B)) acc page :
  (∀ page, frames R (list_page page)) → (∀ b l, frames R (visit b l)) → frames R (pages fuel list_page visit acc page).
Proof.
  intros Hl Hv. revert acc page. induction fuel as [|fuel IH]; intros acc page; simpl; [apply (frames_lift R (Err _))|].
  apply frames_bind; [done|done|]. intros [items next]. apply frames_bind; [done|done|].
  intros [b|b]; [destruct next as [next|]; [done|]|]; apply (frames_lift R (Ret b)).
Qed.

(** A loop over pages fails because a page does, or there are more pages than fuel. *)
Lemma pages_Err {A B} (list_page : option string → M W (list A * option string)) (visit : B → list A → B + B)
    (I : W → Prop) fuel acc page w e w' :
  (∀ page w o w', I w → list_page page w = (o, w') → I w') →
  I w → pages fuel list_page (λ acc items, mret (visit acc items)) acc page w = (Err e, w') →
  e = Errorf "out of fuel" [] ∨ ∃ page w1 w2, I w1 ∧ list_page page w1 = (Err e, w2).
Proof.
  intros HI. revert acc page w. induction fuel as [|fuel IH]; intros acc page w Hw Hr; [left; by injection Hr|].
  simpl in Hr. unfold mbind, M_bind in Hr. destruct (list_page page w) as [[[items next]|e'|] w1] eqn:E; [..|done].
  - simpl in Hr. destruct (visit acc items) as [b|b]; [|done]. destruct next as [next|]; [|done].
    eapply IH; [|exact Hr]. by eapply HI.
  - injection Hr as <- <-. right. by exists page, w, w1.
Qed.
End waiting.
