(* ===== verification/LbServiceClient.v ===== *)
(** * The client of the load balancing service (src/pkg/oci/client/load_balancer.go)

    [loadbalancerClientStruct]: the conversions between the generic types and those of
    the SDK, the calls with their rate limits, the cache from names to OCIDs, paging,
    and the wait for work requests.  The SDK is the class [LbSdk]; its types are records
    with the fields the client writes and reads.  Where the SDK has one type for reading
    and others for writing, with the same fields, they are one record here, and fields
    a request does not set are nil. *)
From stdpp Require Import base tactics list gmap sets strings.
From S2P Require Import Prelude GoStrings Types ClientErrors Names Diff LoadBalancer Handlers ClientCalls.


(** ** Types of the SDK *)

Record SdkBackend := {
  sb_IpAddress : option string;
  sb_Port : option Z;
  sb_Weight : option Z;
  sb_Backup : option bool;
  sb_Drain : option bool;
  sb_Offline : option bool;
  sb_MaxConnections : option Z;
}.

Record SdkHealthChecker := {
  shc_Protocol : option string;
  shc_IsForcePlainText : option bool;
  shc_Port : option Z;
  shc_UrlPath : option string;
  shc_Retries : option Z;
  shc_ReturnCode : option Z;
  shc_TimeoutInMillis : option Z;
  shc_IntervalInMillis : option Z;
}.

Record SdkSslConfiguration := {
  sssl_VerifyDepth : option Z;
  sssl_VerifyPeerCertificate : option bool;
  sssl_TrustedCertificateAuthorityIds : option (list string);
  sssl_CertificateIds : option (list string);
  sssl_CertificateName : option string;
  sssl_ServerOrderPreference : string;
  sssl_CipherSuiteName : option string;
  sssl_Protocols : option (list string);
  sssl_HasSessionResumption : option bool;
}.

Record SdkSessionPersistence := {
  ssp_CookieName : option string;
  ssp_DisableFallback : option bool;
}.

Record SdkBackendSet := {
  sbs_Name : option string;
  sbs_HealthChecker : option SdkHealthChecker;
  sbs_Policy : option string;
  sbs_Backends : list SdkBackend;
  sbs_SessionPersistenceConfiguration : option SdkSessionPersistence;
  sbs_SslConfiguration : option SdkSslConfiguration;
}.

Record SdkConnectionConfiguration := {
  scc_IdleTimeout : option Z;
  scc_BackendTcpProxyProtocolVersion : option Z;
}.

Record SdkListener := {
  sl_Name : option string;
  sl_DefaultBackendSetName : option string;
  sl_Port : option Z;
  sl_Protocol : option string;
  sl_HostnameNames : list string;
  sl_PathRouteSetName : option string;
  sl_SslConfiguration : option SdkSslConfiguration;
  sl_ConnectionConfiguration : option SdkConnectionConfiguration;
  sl_RoutingPolicyName : option string;
  sl_RuleSetNames : list string;
}.

(** [loadbalancer.CertificateDetails]; a certificate that is read has neither key nor
    passphrase. *)
Record SdkCertificate := {
  scert_CertificateName : option string;
  scert_Passphrase : option string;
  scert_PrivateKey : option string;
  scert_PublicCertificate : option string;
  scert_CaCertificate : option string;
}.

(** The OCID inside a reserved IP. *)
Record SdkIpAddress := {
  sip_IpAddress : option string;
  sip_IsPublic : option bool;
  sip_ReservedIp : option (option string);
}.

Record SdkLoadBalancer {RS : Type} := {
  slb_Id : option string;
  slb_CompartmentId : option string;
  slb_DisplayName : option string;
  slb_LifecycleState : string;
  slb_ShapeName : option string;
  slb_IpAddresses : list SdkIpAddress;
  slb_ShapeDetails : option GenericShapeDetails;
  slb_IsPrivate : option bool;
  slb_SubnetIds : list string;
  slb_NetworkSecurityGroupIds : option (list string);
  slb_Listeners : gmap string SdkListener;
  slb_Certificates : gmap string SdkCertificate;
  slb_BackendSets : gmap string SdkBackendSet;
  slb_RuleSets : gmap string RS;
  slb_FreeformTags : gmap string string;
  slb_DefinedTags : gmap string (gmap string string);
  slb_SystemTags : option (gmap string (gmap string string));
}.
Arguments SdkLoadBalancer : clear implicits.

Record SdkWorkRequest := {
  swr_Id : option string;
  swr_LoadBalancerId : option string;
  swr_Type : option string;
  swr_LifecycleState : string;
  swr_Message : option string;
  swr_CompartmentId : option string;
}.

(** [loadbalancer.CreateLoadBalancerDetails]. *)
Record SdkCreateDetails {RS : Type} := {
  scd_CompartmentId : option string;
  scd_DisplayName : option string;
  scd_SubnetIds : list string;
  scd_ShapeName : option string;
  scd_ShapeDetails : option GenericShapeDetails;
  scd_ReservedIps : list (option string);
  scd_Certificates : gmap string SdkCertificate;
  scd_IsPrivate : option bool;
  scd_NetworkSecurityGroupIds : list string;
  scd_Listeners : gmap string SdkListener;
  scd_BackendSets : gmap string SdkBackendSet;
  scd_FreeformTags : gmap string string;
  scd_DefinedTags : gmap string (gmap string string);
  scd_RuleSets : option (gmap string RS);
  scd_IpMode : string;
}.
Arguments SdkCreateDetails : clear implicits.

(** [loadbalancer.LoadBalancerClient]. *)
Class LbSdk (W RS : Type) := {
  sdk_GetLoadBalancer : string → M W (SdkLoadBalancer RS);
  sdk_ListLoadBalancers : string → string → option string → M W (list (SdkLoadBalancer RS) * option string);
  sdk_CreateLoadBalancer : SdkCreateDetails RS → string → M W (option string);
  sdk_DeleteLoadBalancer : string → M W (option string);
  sdk_ListCertificates : string → M W (list SdkCertificate);
  sdk_CreateCertificate : string → SdkCertificate → M W (option string);
  sdk_GetWorkRequest : string → M W SdkWorkRequest;
  sdk_ListWorkRequests : string → Z → option string → M W (list SdkWorkRequest * option string);
  sdk_CreateBackendSet : string → SdkBackendSet → M W (option string);
  sdk_UpdateBackendSet : string → string → SdkBackendSet → M W (option string);
  sdk_DeleteBackendSet : string → string → M W (option string);
  sdk_CreateListener : string → SdkListener → M W (option string);
  sdk_UpdateListener : string → string → SdkListener → M W (option string);
  sdk_DeleteListener : string → string → M W (option string);
  sdk_CreateRuleSet : string → string → RS → M W (option string);
  sdk_UpdateRuleSet : string → string → RS → M W (option string);
  sdk_DeleteRuleSet : string → string → M W (option string);
  sdk_UpdateLoadBalancerShape : string → option string → option GenericShapeDetails → M W (option string);
  sdk_UpdateNetworkSecurityGroups : string → list string → M W (option string);
  sdk_UpdateLoadBalancer : string → gmap string string → gmap string (gmap string string) → M W (option string);
}.

(** ** Conversions *)

Definition ipAddressesToGenericIpAddress (ipAddresses : list SdkIpAddress) : list GenericIpAddress :=
  (λ address, {| ip_IpAddress := sip_IpAddress address; ip_IsPublic := sip_IsPublic address;
                 ip_ReservedIp := sip_ReservedIp address |}) <$> ipAddresses.

(** Nil details become empty details. *)
Definition shapeDetailsToGenericShapeDetails (shapeDetails : option GenericShapeDetails)
    : option GenericShapeDetails :=
  match shapeDetails with
  | None => Some {| sd_MinimumBandwidthInMbps := None; sd_MaximumBandwidthInMbps := None |}
  | Some d => Some {| sd_MinimumBandwidthInMbps := sd_MinimumBandwidthInMbps d;
                      sd_MaximumBandwidthInMbps := sd_MaximumBandwidthInMbps d |}
  end.

Definition genericShapeDetailsToShapeDetails (details : option GenericShapeDetails)
    : option GenericShapeDetails :=
  (λ d, {| sd_MinimumBandwidthInMbps := sd_MinimumBandwidthInMbps d;
           sd_MaximumBandwidthInMbps := sd_MaximumBandwidthInMbps d |}) <$> details.

Definition genericSslConfigurationToSslConfiguration (details : option GenericSslConfigurationDetails)
    : option SdkSslConfiguration :=
  (λ d, {| sssl_VerifyDepth := ssl_VerifyDepth d; sssl_VerifyPeerCertificate := ssl_VerifyPeerCertificate d;
           sssl_TrustedCertificateAuthorityIds := ssl_TrustedCertificateAuthorityIds d;
           sssl_CertificateIds := ssl_CertificateIds d; sssl_CertificateName := ssl_CertificateName d;
           sssl_ServerOrderPreference := ssl_ServerOrderPreference d;
           sssl_CipherSuiteName := ssl_CipherSuiteName d; sssl_Protocols := ssl_Protocols d;
           sssl_HasSessionResumption := ssl_HasSessionResumption d |}) <$> details.

Definition sslConfigurationToGenericSslConfiguration (details : option SdkSslConfiguration)
    : option GenericSslConfigurationDetails :=
  (λ d, {| ssl_VerifyDepth := sssl_VerifyDepth d; ssl_VerifyPeerCertificate := sssl_VerifyPeerCertificate d;
           ssl_HasSessionResumption := sssl_HasSessionResumption d;
           ssl_TrustedCertificateAuthorityIds := sssl_TrustedCertificateAuthorityIds d;
           ssl_CertificateIds := sssl_CertificateIds d; ssl_CertificateName := sssl_CertificateName d;
           ssl_Protocols := sssl_Protocols d; ssl_CipherSuiteName := sssl_CipherSuiteName d;
           ssl_ServerOrderPreference := sssl_ServerOrderPreference d |}) <$> details.

Definition getSessionPersistenceConfiguration (details : option GenericSessionPersistenceConfiguration)
    : option SdkSessionPersistence :=
  (λ d, {| ssp_CookieName := sp_CookieName d; ssp_DisableFallback := sp_DisableFallback d |}) <$> details.

Definition getGenericSessionPersistenceConfiguration (details : option SdkSessionPersistence)
    : option GenericSessionPersistenceConfiguration :=
  (λ d, {| sp_CookieName := ssp_CookieName d; sp_DisableFallback := ssp_DisableFallback d |}) <$> details.

Definition getListenerConnectionConfiguration (details : option GenericConnectionConfiguration)
    : option SdkConnectionConfiguration :=
  (λ d, {| scc_IdleTimeout := cc_IdleTimeout d;
           scc_BackendTcpProxyProtocolVersion := cc_BackendTcpProxyProtocolVersion d |}) <$> details.

Definition genericBackendDetailsToBackendDetails (details : list GenericBackend) : list SdkBackend :=
  (λ b, {| sb_IpAddress := be_IpAddress b; sb_Port := be_Port b; sb_Weight := be_Weight b;
           sb_Backup := be_Backup b; sb_Drain := be_Drain b; sb_Offline := be_Offline b;
           sb_MaxConnections := be_MaxConnections b |}) <$> details.

Definition backendDetailsToGenericBackendDetails (details : list SdkBackend) : list GenericBackend :=
  (λ b, {| be_Port := sb_Port b; be_Name := None; be_IpAddress := sb_IpAddress b; be_TargetId := None;
           be_Weight := sb_Weight b; be_Backup := sb_Backup b; be_Drain := sb_Drain b;
           be_Offline := sb_Offline b; be_MaxConnections := sb_MaxConnections b |}) <$> details.

(** The health checker of a request; its protocol is the address of a field. *)
Definition healthCheckerDetails (hc : GenericHealthChecker) : SdkHealthChecker := {|
  shc_Protocol := Some (hc_Protocol hc); shc_IsForcePlainText := hc_IsForcePlainText hc;
  shc_Port := hc_Port hc; shc_UrlPath := hc_UrlPath hc; shc_Retries := hc_Retries hc;
  shc_ReturnCode := hc_ReturnCode hc; shc_TimeoutInMillis := hc_TimeoutInMillis hc;
  shc_IntervalInMillis := hc_IntervalInMillis hc |}.

(** The backend set of a request; a nil health checker panics. *)
Definition backendSetDetails (name : option string) (v : GenericBackendSetDetails) : outcome SdkBackendSet :=
  hc ← deref (bs_HealthChecker v);
  mret {| sbs_Name := name; sbs_HealthChecker := Some (healthCheckerDetails hc); sbs_Policy := bs_Policy v;
          sbs_Backends := genericBackendDetailsToBackendDetails (bs_Backends v);
          sbs_SessionPersistenceConfiguration :=
            getSessionPersistenceConfiguration (bs_SessionPersistenceConfiguration v);
          sbs_SslConfiguration := genericSslConfigurationToSslConfiguration (bs_SslConfiguration v) |}.

Definition genericBackendSetDetailsToBackendSets (backendSets : gmap string GenericBackendSetDetails)
    : outcome (gmap string SdkBackendSet) := convert (backendSetDetails None) backendSets.

(** A backend set that was read; a nil health checker or protocol panics. *)
Definition backendSetToGeneric (v : SdkBackendSet) : outcome GenericBackendSetDetails :=
  hc ← deref (sbs_HealthChecker v);
  protocol ← deref (shc_Protocol hc);
  mret {| bs_Name := sbs_Name v;
          bs_HealthChecker := Some
            {| hc_Protocol := protocol; hc_IsForcePlainText := shc_IsForcePlainText hc; hc_Port := shc_Port hc;
               hc_UrlPath := shc_UrlPath hc; hc_Retries := shc_Retries hc;
               hc_TimeoutInMillis := shc_TimeoutInMillis hc; hc_IntervalInMillis := shc_IntervalInMillis hc;
               hc_ResponseBodyRegex := None; hc_ReturnCode := shc_ReturnCode hc |};
          bs_Policy := sbs_Policy v; bs_Backends := backendDetailsToGenericBackendDetails (sbs_Backends v);
          bs_SessionPersistenceConfiguration :=
            getGenericSessionPersistenceConfiguration (sbs_SessionPersistenceConfiguration v);
          bs_SslConfiguration := sslConfigurationToGenericSslConfiguration (sbs_SslConfiguration v);
          bs_IsPreserveSource := None; bs_IpVersion := None |}.

Definition backendSetsToGenericBackendSetDetails (backendSets : gmap string SdkBackendSet)
    : outcome (gmap string GenericBackendSetDetails) := convert backendSetToGeneric backendSets.

(** A listener that was read. *)
Definition listenerToGeneric (v : SdkListener) : GenericListener := {|
  ln_Name := sl_Name v; ln_DefaultBackendSetName := sl_DefaultBackendSetName v; ln_Port := sl_Port v;
  ln_Protocol := sl_Protocol v; ln_HostnameNames := sl_HostnameNames v;
  ln_PathRouteSetName := sl_PathRouteSetName v;
  ln_SslConfiguration := sslConfigurationToGenericSslConfiguration (sl_SslConfiguration v);
  ln_ConnectionConfiguration :=
    (λ c, {| cc_IdleTimeout := scc_IdleTimeout c;
             cc_BackendTcpProxyProtocolVersion := scc_BackendTcpProxyProtocolVersion c;
             cc_BackendTcpProxyProtocolOptions := [] |}) <$> sl_ConnectionConfiguration v;
  ln_RoutingPolicyName := sl_RoutingPolicyName v; ln_RuleSetNames := sl_RuleSetNames v;
  ln_IpVersion := None; ln_IsPpv2Enabled := None |}.

Definition listenersToGenericListenerDetails (details : gmap string SdkListener) : gmap string GenericListener :=
  listenerToGeneric <$> details.

(** A listener of a new load balancer. *)
Definition listenerDetails (v : GenericListener) : SdkListener := {|
  sl_Name := None; sl_DefaultBackendSetName := ln_DefaultBackendSetName v; sl_Port := ln_Port v;
  sl_Protocol := ln_Protocol v; sl_HostnameNames := ln_HostnameNames v;
  sl_PathRouteSetName := ln_PathRouteSetName v;
  sl_SslConfiguration := genericSslConfigurationToSslConfiguration (ln_SslConfiguration v);
  sl_ConnectionConfiguration := getListenerConnectionConfiguration (ln_ConnectionConfiguration v);
  sl_RoutingPolicyName := ln_RoutingPolicyName v; sl_RuleSetNames := ln_RuleSetNames v |}.

Definition genericListenerDetailsToListenerDetails (details : gmap string GenericListener)
    : gmap string SdkListener := listenerDetails <$> details.

(** [loadbalancer.CreateListenerDetails] of the request: it has neither host names nor
    route sets nor rule sets. *)
Definition createListenerDetails (name : string) (v : GenericListener) : SdkListener := {|
  sl_Name := Some name; sl_DefaultBackendSetName := ln_DefaultBackendSetName v; sl_Port := ln_Port v;
  sl_Protocol := ln_Protocol v; sl_HostnameNames := []; sl_PathRouteSetName := None;
  sl_SslConfiguration := genericSslConfigurationToSslConfiguration (ln_SslConfiguration v);
  sl_ConnectionConfiguration := getListenerConnectionConfiguration (ln_ConnectionConfiguration v);
  sl_RoutingPolicyName := None; sl_RuleSetNames := [] |}.

(** [loadbalancer.UpdateListenerDetails] of the request. *)
Definition updateListenerDetails (v : GenericListener) : SdkListener := {|
  sl_Name := None; sl_DefaultBackendSetName := ln_DefaultBackendSetName v; sl_Port := ln_Port v;
  sl_Protocol := ln_Protocol v; sl_HostnameNames := []; sl_PathRouteSetName := None;
  sl_SslConfiguration := genericSslConfigurationToSslConfiguration (ln_SslConfiguration v);
  sl_ConnectionConfiguration := getListenerConnectionConfiguration (ln_ConnectionConfiguration v);
  sl_RoutingPolicyName := None; sl_RuleSetNames := ln_RuleSetNames v |}.

(** [certificateToGenericCertificate] of a certificate that is not nil. *)
Definition certificateToGenericCertificate (c : SdkCertificate) : GenericCertificate := {|
  cert_CertificateName := scert_CertificateName c; cert_Passphrase := None; cert_PrivateKey := None;
  cert_PublicCertificate := scert_PublicCertificate c; cert_CaCertificate := scert_CaCertificate c |}.

Definition certificateToGenericCertificateDetails (certificates : gmap string SdkCertificate)
    : gmap string GenericCertificate := certificateToGenericCertificate <$> certificates.

(** The details of a certificate to create. *)
Definition certificateDetails (c : GenericCertificate) : SdkCertificate := {|
  scert_CertificateName := cert_CertificateName c; scert_Passphrase := cert_Passphrase c;
  scert_PrivateKey := cert_PrivateKey c; scert_PublicCertificate := cert_PublicCertificate c;
  scert_CaCertificate := cert_CaCertificate c |}.

Definition genericCertificatesToCertificates (genericCertificates : gmap string GenericCertificate)
    : gmap string SdkCertificate := certificateDetails <$> genericCertificates.

(** Reserved IPs are their OCIDs on both sides. *)
Definition genericReservedIpToReservedIps (genericReservedIps : list (option string)) : list (option string) :=
  (λ id, id) <$> genericReservedIps.

Section conversions.
Context {RS : Type}.

Definition loadbalancerToGenericLoadbalancer (lb : SdkLoadBalancer RS) : outcome (GenericLoadBalancer RS) :=
  backendSets ← backendSetsToGenericBackendSetDetails (slb_BackendSets lb);
  mret {| lb_Id := slb_Id lb; lb_CompartmentId := slb_CompartmentId lb; lb_DisplayName := slb_DisplayName lb;
          lb_LifecycleState := Some (slb_LifecycleState lb); lb_ShapeName := slb_ShapeName lb;
          lb_IpAddresses := ipAddressesToGenericIpAddress (slb_IpAddresses lb);
          lb_ShapeDetails := shapeDetailsToGenericShapeDetails (slb_ShapeDetails lb);
          lb_IsPrivate := slb_IsPrivate lb; lb_SubnetIds := slb_SubnetIds lb;
          lb_NetworkSecurityGroupIds := slb_NetworkSecurityGroupIds lb;
          lb_Listeners := listenersToGenericListenerDetails (slb_Listeners lb);
          lb_Certificates := certificateToGenericCertificateDetails (slb_Certificates lb);
          lb_BackendSets := backendSets; lb_RuleSets := slb_RuleSets lb; lb_IpVersion := None;
          lb_FreeformTags := slb_FreeformTags lb; lb_DefinedTags := slb_DefinedTags lb;
          lb_SystemTags := slb_SystemTags lb |}.

(** The IP mode of a new load balancer; empty when it is not set. *)
Definition create_ip_mode (ipVersion : option string) : string :=
  match ipVersion with
  | Some v => if decide (v = GenericIPv4) then "IPV4"
              else if decide (v = GenericIPv6 ∨ v = GenericIPv4AndIPv6) then "IPV6" else ""
  | None => ""
  end.

Definition createLoadBalancerDetails (details : GenericCreateLoadBalancerDetails RS)
    : outcome (SdkCreateDetails RS) :=
  backendSets ← genericBackendSetDetailsToBackendSets (cld_BackendSets details);
  mret {| scd_CompartmentId := cld_CompartmentId details; scd_DisplayName := cld_DisplayName details;
          scd_SubnetIds := cld_SubnetIds details; scd_ShapeName := cld_ShapeName details;
          scd_ShapeDetails := genericShapeDetailsToShapeDetails (cld_ShapeDetails details);
          scd_ReservedIps := genericReservedIpToReservedIps (cld_ReservedIps details);
          scd_Certificates := genericCertificatesToCertificates (cld_Certificates details);
          scd_IsPrivate := cld_IsPrivate details;
          scd_NetworkSecurityGroupIds := cld_NetworkSecurityGroupIds details;
          scd_Listeners := genericListenerDetailsToListenerDetails (cld_Listeners details);
          scd_BackendSets := backendSets; scd_FreeformTags := cld_FreeformTags details;
          scd_DefinedTags := cld_DefinedTags details; scd_RuleSets := cld_RuleSets details;
          scd_IpMode := create_ip_mode (cld_IpVersion details) |}.

Definition workRequestToGenericWorkRequest (request : SdkWorkRequest) : outcome GenericWorkRequest :=
  type ← deref (swr_Type request);
  mret {| wr_Id := swr_Id request; wr_LoadBalancerId := swr_LoadBalancerId request; wr_Type := None;
          wr_LifecycleState := Some (swr_LifecycleState request); wr_Message := swr_Message request;
          wr_CompartmentId := swr_CompartmentId request; wr_OperationType := type; wr_Status := "" |}.
End conversions.

(** ** Calls *)

Section client.
Context {W RS : Type} `{!LbSdk W RS, !Limits W}.

Definition GetLoadBalancer (id : string) : M W (GenericLoadBalancer RS) :=
  limited false "GetLoadBalancer"
    (lb ← sdk_GetLoadBalancer id; lift (loadbalancerToGenericLoadbalancer lb)).

(** The load balancer of the cached OCID, if it is still the one that is asked for; the
    entry is removed when there is no such load balancer any more. *)
Definition cached_load_balancer (compartmentID name : string)
    : M (gmap string string * W) (option (GenericLoadBalancer RS)) :=
  ocid ← cache_Load name;
  match ocid with
  | None => mret None
  | Some ocid =>
      r ← try (on_world (GetLoadBalancer ocid));
      match r with
      | inr lb => mret (if decide (lb_DisplayName lb = Some name ∧ lb_CompartmentId lb = Some compartmentID)
                        then Some lb else None)
      | inl err => if IsNotFound (Some err) then _ ← cache_Delete name; mret None else mret None
      end
  end.

(** The first load balancer of a page with the name. *)
Fixpoint find_by_name (name : string) (items : list (SdkLoadBalancer RS)) : outcome (option (SdkLoadBalancer RS)) :=
  match items with
  | [] => mret None
  | lb :: items =>
      displayName ← deref (slb_DisplayName lb);
      if decide (displayName = name) then mret (Some lb) else find_by_name name items
  end.

Definition visit_page (name : string) (_ : option (GenericLoadBalancer RS)) (items : list (SdkLoadBalancer RS))
    : M (gmap string string * W) (option (GenericLoadBalancer RS) + option (GenericLoadBalancer RS)) :=
  found ← lift (find_by_name name items);
  match found with
  | None => mret (inl None)
  | Some lb =>
      id ← lift (deref (slb_Id lb));
      _ ← cache_Store name id;
      lb ← lift (loadbalancerToGenericLoadbalancer lb);
      mret (inr (Some lb))
  end.

Definition GetLoadBalancerByName (fuel : nat) (compartmentID name : string)
    : M (gmap string string * W) (GenericLoadBalancer RS) :=
  cached ← cached_load_balancer compartmentID name;
  match cached with
  | Some lb => mret lb
  | None =>
      found ← pages fuel
                (λ page, on_world (limited false "ListLoadBalancers" (sdk_ListLoadBalancers compartmentID name page)))
                (visit_page name) None None;
      match found with Some lb => mret lb | None => fail NotFoundErr end
  end.

Definition CreateLoadBalancer (details : GenericCreateLoadBalancerDetails RS) (serviceUid : string) : M W string :=
  limited true "CreateLoadBalancer"
    (details ← lift (createLoadBalancerDetails details); work_request (sdk_CreateLoadBalancer details serviceUid)).

Definition DeleteLoadBalancer (id : string) : M W string :=
  limited true "DeleteLoadBalancer" (work_request (sdk_DeleteLoadBalancer id)).

Fixpoint find_certificate (name : string) (items : list SdkCertificate) : outcome GenericCertificate :=
  match items with
  | [] => Err NotFoundErr
  | cert :: items =>
      certificateName ← deref (scert_CertificateName cert);
      if decide (certificateName = name) then mret (certificateToGenericCertificate cert)
      else find_certificate name items
  end.

Definition GetCertificateByName (lbID name : string) : M W GenericCertificate :=
  limited false "ListCertificates" (items ← sdk_ListCertificates lbID; lift (find_certificate name items)).

Definition CreateCertificate (lbID : string) (cert : GenericCertificate) : M W string :=
  limited true "CreateCertificate" (work_request (sdk_CreateCertificate lbID (certificateDetails cert))).

Definition GetWorkRequest (id : string) : M W SdkWorkRequest :=
  limited false "GetWorkRequest" (sdk_GetWorkRequest id).

(** All pages are read. *)
Definition ListWorkRequests (fuel : nat) (compartmentId lbId : string) : M W (list GenericWorkRequest) :=
  pages fuel (λ page, limited false "ListWorkRequest" (sdk_ListWorkRequests lbId ListWorkRequestLimit page))
    (λ acc items, new ← lift (mapM workRequestToGenericWorkRequest items); mret (inl (acc ++ new))) [] None.

Definition CreateBackendSet (lbID name : string) (details : GenericBackendSetDetails) : M W string :=
  limited true "CreateBackendSet"
    (details ← lift (backendSetDetails (Some name) details); work_request (sdk_CreateBackendSet lbID details)).

Definition UpdateBackendSet (lbID name : string) (details : GenericBackendSetDetails) : M W string :=
  limited true "UpdateBackendSet"
    (details ← lift (backendSetDetails None details); work_request (sdk_UpdateBackendSet lbID name details)).

Definition DeleteBackendSet (lbID name : string) : M W string :=
  limited true "DeleteBackendSet" (work_request (sdk_DeleteBackendSet lbID name)).

Definition CreateListener (lbID name : string) (details : GenericListener) : M W string :=
  limited true "CreateListener" (work_request (sdk_CreateListener lbID (createListenerDetails name details))).

Definition UpdateListener (lbID name : string) (details : GenericListener) : M W string :=
  limited true "UpdateListener" (work_request (sdk_UpdateListener lbID name (updateListenerDetails details))).

Definition DeleteListener (lbID name : string) : M W string :=
  limited true "DeleteListener" (work_request (sdk_DeleteListener lbID name)).

Definition CreateRuleSet (lbID name : string) (details : RS) : M W string :=
  limited true "CreateRuleSet" (work_request (sdk_CreateRuleSet lbID name details)).

Definition UpdateRuleSet (lbID name : string) (details : RS) : M W string :=
  limited true "UpdateRuleSet" (work_request (sdk_UpdateRuleSet lbID name details)).

Definition DeleteRuleSet (lbID name : string) : M W string :=
  limited true "DeleteRuleSet" (work_request (sdk_DeleteRuleSet lbID name)).

(** One poll of a work request; errors that are worth repeating are not reported. *)
Definition await_condition (id : string) : M W (option SdkWorkRequest) :=
  r ← try (GetWorkRequest id);
  match r with
  | inl err =>
      if IsRetryable (Some err) then mret None
      else fail (Wrap err "failed to get workrequest. opc-request-id: %s" [])
  | inr twr =>
      if decide (swr_LifecycleState twr = "SUCCEEDED") then mret (Some twr)
      else if decide (swr_LifecycleState twr = "FAILED")
      then message ← lift (deref (swr_Message twr)); fail (Errorf "WorkRequest %q failed: %s" [id; message])
      else mret None
  end.

Definition AwaitWorkRequest (id : string) : M W GenericWorkRequest :=
  wr ← poll (await_condition id); lift (workRequestToGenericWorkRequest wr).

(** The name of the operation in the error is that of another one. *)
Definition UpdateLoadBalancerShape (lbID : string) (d : GenericUpdateLoadBalancerShapeDetails) : M W string :=
  limited true "UpdateListener"
    (work_request (sdk_UpdateLoadBalancerShape lbID (usd_ShapeName d)
                     (genericShapeDetailsToShapeDetails (usd_ShapeDetails d)))).

Definition UpdateNetworkSecurityGroups (lbID : string) (nsgs : list string) : M W string :=
  limited true "UpdateNetworkSecurityGroups" (work_request (sdk_UpdateNetworkSecurityGroups lbID nsgs)).

(** The IP version is not part of the request. *)
Definition UpdateLoadBalancer (lbID : string) (details : GenericUpdateLoadBalancerDetails) : M W string :=
  limited true "UpdateLoadBalancer"
    (work_request (sdk_UpdateLoadBalancer lbID (uld_FreeformTags details) (uld_DefinedTags details))).
End client.
