(* ===== verification/LbServiceFacts.v ===== *)
(** * What the client of the load balancing service achieves

    [lb_service_laws]: the client has the laws [LbLaws] the controller relies on, given
    laws of the service itself ([LbServiceLaws]), with the storage that its conversions
    make; what that storage keeps and loses; the cache of names; and paging. *)
From stdpp Require Import base tactics list gmap sets strings.
From S2P Require Import Prelude GoStrings Types ClientErrors Names Diff LoadBalancer SecurityListManager LoadBalancerFacts Handlers HandlersFacts ClientCalls LbServiceClient.

(** ** The storage of the service *)

Definition named_listener (n : string) (l : SdkListener) : SdkListener := {|
  sl_Name := Some n; sl_DefaultBackendSetName := sl_DefaultBackendSetName l; sl_Port := sl_Port l;
  sl_Protocol := sl_Protocol l; sl_HostnameNames := sl_HostnameNames l;
  sl_PathRouteSetName := sl_PathRouteSetName l; sl_SslConfiguration := sl_SslConfiguration l;
  sl_ConnectionConfiguration := sl_ConnectionConfiguration l; sl_RoutingPolicyName := sl_RoutingPolicyName l;
  sl_RuleSetNames := sl_RuleSetNames l |}.

Definition named_backend_set (n : string) (b : SdkBackendSet) : SdkBackendSet := {|
  sbs_Name := Some n; sbs_HealthChecker := sbs_HealthChecker b; sbs_Policy := sbs_Policy b;
  sbs_Backends := sbs_Backends b;
  sbs_SessionPersistenceConfiguration := sbs_SessionPersistenceConfiguration b;
  sbs_SslConfiguration := sbs_SslConfiguration b |}.

(** What is shown for the details of a request: they are converted to the types of the
    service and back. *)
Definition lb_service_storage : Storage := {|
  st_type := LB;
  st_backend_set n b :=
    default (named_set n b) (ret_value (d ← backendSetDetails (Some n) b; backendSetToGeneric d));
  st_listener n l := listenerToGeneric (named_listener n (listenerDetails l));
  st_created_listener n l := listenerToGeneric (createListenerDetails n l);
  st_updated_listener n l := listenerToGeneric (named_listener n (updateListenerDetails l));
  st_shape d := shapeDetailsToGenericShapeDetails (genericShapeDetailsToShapeDetails d);
  st_ip_version v := v |}.

Lemma backends_roundtrip bs :
  omap endpoint (backendDetailsToGenericBackendDetails (genericBackendDetailsToBackendDetails bs))
  = omap endpoint bs ∧
  be_Port <$> head (backendDetailsToGenericBackendDetails (genericBackendDetailsToBackendDetails bs))
  = be_Port <$> head bs.
Proof.
  split; [|by destruct bs]. unfold backendDetailsToGenericBackendDetails, genericBackendDetailsToBackendDetails.
  induction bs as [|b bs IH]; [done|]. csimpl in *. rewrite IH. done.
Qed.

Lemma backends_roundtrip_ok bs :
  backends_ok bs → backends_ok (backendDetailsToGenericBackendDetails (genericBackendDetailsToBackendDetails bs)).
Proof.
  intros Hb. unfold backends_ok, backendDetailsToGenericBackendDetails, genericBackendDetailsToBackendDetails.
  rewrite !Forall_fmap. by eapply Forall_impl.
Qed.

Lemma ssl_roundtrip ssl :
  sslConfigurationToGenericSslConfiguration (genericSslConfigurationToSslConfiguration ssl) = ssl.
Proof. by destruct ssl as [[]|]. Qed.

Lemma lb_service_storage_ok : storage_ok lb_service_storage.
Proof.
  split_and!.
  - intros n b [Hb Hhc]. simpl. destruct (bs_HealthChecker b) as [hc|] eqn:E; simpl.
    + unfold backendSetDetails. rewrite E. simpl. split; [|done]. split; simpl; [by apply backends_roundtrip_ok|].
      intros hc' [= <-]. exact (Hhc hc eq_refl).
    + unfold backendSetDetails. rewrite E. simpl. split; [|done]. split; [done|]. simpl. by rewrite E.
  - intros d _. by destruct d.
  - intros ver _. apply EqualFold_refl.
Qed.

(** ** What the storage keeps *)

(** Backend sets as the controller makes them for a load balancer: with a health
    checker that has no pattern for the response, and without preserving sources. *)
Definition for_lb (b : GenericBackendSetDetails) : Prop :=
  is_Some (bs_HealthChecker b) ∧
  (∀ hc, bs_HealthChecker b = Some hc → toString (hc_ResponseBodyRegex hc) = "") ∧
  toBool (bs_IsPreserveSource b) = false.

(** C11: what the client stores for the backend sets and listeners of
    a load balancer is found in sync with them when it is read and compared again, so
    that a second update finds nothing to change; a listener that is created in an
    update loses its rule sets and is only in sync if it has none. *)
Theorem lb_service_in_sync {RS : Type} :
  (∀ n b, for_lb b → backend_set_in_sync (st_backend_set lb_service_storage n b) b) ∧
  (∀ (rs : option (gmap string RS)) n l, toBool (ln_IsPpv2Enabled l) = false →
     listener_in_sync rs (st_listener lb_service_storage n l) l ∧
     listener_in_sync rs (st_updated_listener lb_service_storage n l) l ∧
     (listener_in_sync rs (st_created_listener lb_service_storage n l) l ↔
      rs = None ∨ ln_RuleSetNames l = [])).
Proof.
  assert (∀ ssl, ssl_in_sync ssl ssl) as Hssl by (by intros [ssl|]).
  split.
  - intros n b ([hc Hhc] & Hregex & Hpres). simpl. unfold backendSetDetails. rewrite Hhc. simpl.
    destruct (backends_roundtrip (bs_Backends b)) as [He Hh]. split_and!; simpl; rewrite ?ssl_roundtrip; try done.
    + rewrite Hhc. split_and!; try done. intros Hne. by destruct Hne; apply Hregex.
    + intros x y Hx Hy. rewrite Hx, Hy in Hh. by injection Hh.
    + by rewrite He.
  - intros rs n l Hp.
    assert (∀ cc, connection_in_sync
      ((λ c, {| cc_IdleTimeout := scc_IdleTimeout c;
                cc_BackendTcpProxyProtocolVersion := scc_BackendTcpProxyProtocolVersion c;
                cc_BackendTcpProxyProtocolOptions := [] |}) <$> getListenerConnectionConfiguration cc) cc) as Hcc
      by (by intros [cc|]).
    split_and!; [split_and!; simpl; rewrite ?ssl_roundtrip; done..|]. split.
    + intros (_ & _ & _ & _ & Hr & _). destruct rs as [rs|]; [right|by left].
      destruct (ln_RuleSetNames l) as [|r rest]; [done|]. exfalso. simpl in Hr.
      assert (r ∈ @nil string) as Hin by (apply Hr; [done|by left]). by apply elem_of_nil in Hin.
    + intros Hr. split_and!; simpl; rewrite ?ssl_roundtrip; try done. intros [x Hx]. destruct Hr as [Hr|Hr]; rewrite ?Hr; [congruence|done].
Qed.

(** ** The laws of the service *)

Section updates.
Context {RS : Type}.
Implicit Types (lb : SdkLoadBalancer RS).

Definition update_sdk lb (listeners : gmap string SdkListener) (backend_sets : gmap string SdkBackendSet)
    (rule_sets : gmap string RS) (nsgs : option (list string)) (shape : option string)
    (details : option GenericShapeDetails) (freeform : gmap string string)
    (defined : gmap string (gmap string string)) : SdkLoadBalancer RS := {|
  slb_Id := slb_Id lb; slb_CompartmentId := slb_CompartmentId lb; slb_DisplayName := slb_DisplayName lb;
  slb_LifecycleState := slb_LifecycleState lb; slb_ShapeName := shape; slb_IpAddresses := slb_IpAddresses lb;
  slb_ShapeDetails := details; slb_IsPrivate := slb_IsPrivate lb; slb_SubnetIds := slb_SubnetIds lb;
  slb_NetworkSecurityGroupIds := nsgs; slb_Listeners := listeners; slb_Certificates := slb_Certificates lb;
  slb_BackendSets := backend_sets; slb_RuleSets := rule_sets; slb_FreeformTags := freeform;
  slb_DefinedTags := defined; slb_SystemTags := slb_SystemTags lb |}.

Definition sdk_with_backend_set lb (n : string) (o : option SdkBackendSet) : SdkLoadBalancer RS :=
  update_sdk lb (slb_Listeners lb) (partial_alter (λ _, o) n (slb_BackendSets lb)) (slb_RuleSets lb)
    (slb_NetworkSecurityGroupIds lb) (slb_ShapeName lb) (slb_ShapeDetails lb) (slb_FreeformTags lb)
    (slb_DefinedTags lb).
Definition sdk_with_listener lb (n : string) (o : option SdkListener) : SdkLoadBalancer RS :=
  update_sdk lb (partial_alter (λ _, o) n (slb_Listeners lb)) (slb_BackendSets lb) (slb_RuleSets lb)
    (slb_NetworkSecurityGroupIds lb) (slb_ShapeName lb) (slb_ShapeDetails lb) (slb_FreeformTags lb)
    (slb_DefinedTags lb).
Definition sdk_with_rule_set lb (n : string) (o : option RS) : SdkLoadBalancer RS :=
  update_sdk lb (slb_Listeners lb) (slb_BackendSets lb) (partial_alter (λ _, o) n (slb_RuleSets lb))
    (slb_NetworkSecurityGroupIds lb) (slb_ShapeName lb) (slb_ShapeDetails lb) (slb_FreeformTags lb)
    (slb_DefinedTags lb).
Definition sdk_with_nsgs lb (nsgs : list string) : SdkLoadBalancer RS :=
  update_sdk lb (slb_Listeners lb) (slb_BackendSets lb) (slb_RuleSets lb) (Some nsgs) (slb_ShapeName lb)
    (slb_ShapeDetails lb) (slb_FreeformTags lb) (slb_DefinedTags lb).
Definition sdk_with_shape lb (name : option string) (details : option GenericShapeDetails) : SdkLoadBalancer RS :=
  update_sdk lb (slb_Listeners lb) (slb_BackendSets lb) (slb_RuleSets lb) (slb_NetworkSecurityGroupIds lb)
    name details (slb_FreeformTags lb) (slb_DefinedTags lb).
Definition sdk_with_tags lb (freeform : gmap string string) (defined : gmap string (gmap string string))
    : SdkLoadBalancer RS :=
  update_sdk lb (slb_Listeners lb) (slb_BackendSets lb) (slb_RuleSets lb) (slb_NetworkSecurityGroupIds lb)
    (slb_ShapeName lb) (slb_ShapeDetails lb) freeform defined.

(** What a load balancer of the service shows to the controller. *)
Definition sdk_view lb : LbView RS := {|
  v_BackendSets := omap (λ b, ret_value (backendSetToGeneric b)) (slb_BackendSets lb);
  v_Listeners := listenersToGenericListenerDetails (slb_Listeners lb); v_RuleSets := slb_RuleSets lb;
  v_Nsgs := default [] (slb_NetworkSecurityGroupIds lb); v_ShapeName := slb_ShapeName lb;
  v_ShapeDetails := shapeDetailsToGenericShapeDetails (slb_ShapeDetails lb); v_IpVersion := None |}.

Definition empty_view : LbView RS := {|
  v_BackendSets := ∅; v_Listeners := ∅; v_RuleSets := ∅; v_Nsgs := []; v_ShapeName := None;
  v_ShapeDetails := None; v_IpVersion := None |}.

(** The conversion of a whole load balancer shows the same. *)
Lemma converted_view lb g : loadbalancerToGenericLoadbalancer lb = Ret g → view_of g = sdk_view lb.
Proof.
  intros Hr. apply bind_Ret_inv in Hr as (sets & Hsets & Hr). injection Hr as <-.
  apply convert_omap in Hsets as ->. done.
Qed.

Lemma sdk_with_backend_set_view lb n o :
  sdk_view (sdk_with_backend_set lb n o)
  = with_backend_set (sdk_view lb) n (o ≫= λ b, ret_value (backendSetToGeneric b)).
Proof.
  unfold sdk_view, with_backend_set. simpl. f_equal. apply map_eq. intros k. rewrite lookup_omap.
  destruct (decide (n = k)) as [->|Hne].
  - by rewrite !lookup_partial_alter_eq.
  - by rewrite !lookup_partial_alter_ne, lookup_omap.
Qed.

Lemma sdk_with_listener_view lb n o :
  sdk_view (sdk_with_listener lb n o) = with_listener (sdk_view lb) n (listenerToGeneric <$> o).
Proof.
  unfold sdk_view, with_listener, listenersToGenericListenerDetails. simpl. f_equal. apply map_eq. intros k.
  rewrite lookup_fmap. destruct (decide (n = k)) as [->|Hne].
  - by rewrite !lookup_partial_alter_eq.
  - by rewrite !lookup_partial_alter_ne, lookup_fmap.
Qed.
End updates.

(** [sdk_lb w id] is the load balancer [id], and [sdk_wr w wr] the load balancer that
    the work request [wr] is for and what it makes of it.  A request that is accepted
    has a work request with its effect; when the work request is reported to have
    succeeded, the load balancer is as it says; while it runs, the load balancer is as
    before or as it says.  An update replaces a listener or a backend set. *)
Class LbServiceLaws (W RS : Type) `{!LbSdk W RS, !Limits W} := {
  sdk_lb : W → string → option (SdkLoadBalancer RS);
  sdk_wr : W → string → option (string * SdkLoadBalancer RS);
  Reader_frame : ∀ w, sdk_lb (Reader_TryAccept w).2 = sdk_lb w ∧ sdk_wr (Reader_TryAccept w).2 = sdk_wr w;
  Writer_frame : ∀ w, sdk_lb (Writer_TryAccept w).2 = sdk_lb w ∧ sdk_wr (Writer_TryAccept w).2 = sdk_wr w;
  GetWorkRequest_frame : ∀ wr w o w', sdk_GetWorkRequest wr w = (o, w') →
    sdk_wr w' wr = sdk_wr w wr ∧
    ∀ id, sdk_lb w' id = sdk_lb w id ∨ ∃ lb, sdk_wr w wr = Some (id, lb) ∧ sdk_lb w' id = Some lb;
  GetWorkRequest_done : ∀ wr w r w' id lb, sdk_GetWorkRequest wr w = (Ret r, w') →
    swr_LifecycleState r = "SUCCEEDED" → sdk_wr w wr = Some (id, lb) → sdk_lb w' id = Some lb;
  sdk_CreateBackendSet_law : ∀ id d n w wr w1, sdk_CreateBackendSet id d w = (Ret (Some wr), w1) →
    sbs_Name d = Some n →
    ∃ lb, sdk_lb w id = Some lb ∧ sdk_wr w1 wr = Some (id, sdk_with_backend_set lb n (Some d));
  sdk_UpdateBackendSet_law : ∀ id n d w wr w1, sdk_UpdateBackendSet id n d w = (Ret (Some wr), w1) →
    ∃ lb, sdk_lb w id = Some lb ∧ sdk_wr w1 wr = Some (id, sdk_with_backend_set lb n (Some (named_backend_set n d)));
  sdk_DeleteBackendSet_law : ∀ id n w wr w1, sdk_DeleteBackendSet id n w = (Ret (Some wr), w1) →
    ∃ lb, sdk_lb w id = Some lb ∧ sdk_wr w1 wr = Some (id, sdk_with_backend_set lb n None);
  sdk_CreateListener_law : ∀ id d n w wr w1, sdk_CreateListener id d w = (Ret (Some wr), w1) →
    sl_Name d = Some n →
    ∃ lb, sdk_lb w id = Some lb ∧ sdk_wr w1 wr = Some (id, sdk_with_listener lb n (Some d));
  sdk_UpdateListener_law : ∀ id n d w wr w1, sdk_UpdateListener id n d w = (Ret (Some wr), w1) →
    ∃ lb, sdk_lb w id = Some lb ∧ sdk_wr w1 wr = Some (id, sdk_with_listener lb n (Some (named_listener n d)));
  sdk_DeleteListener_law : ∀ id n w wr w1, sdk_DeleteListener id n w = (Ret (Some wr), w1) →
    ∃ lb, sdk_lb w id = Some lb ∧ sdk_wr w1 wr = Some (id, sdk_with_listener lb n None);
  sdk_CreateRuleSet_law : ∀ id n r w wr w1, sdk_CreateRuleSet id n r w = (Ret (Some wr), w1) →
    ∃ lb, sdk_lb w id = Some lb ∧ sdk_wr w1 wr = Some (id, sdk_with_rule_set lb n (Some r));
  sdk_UpdateRuleSet_law : ∀ id n r w wr w1, sdk_UpdateRuleSet id n r w = (Ret (Some wr), w1) →
    ∃ lb, sdk_lb w id = Some lb ∧ sdk_wr w1 wr = Some (id, sdk_with_rule_set lb n (Some r));
  sdk_DeleteRuleSet_law : ∀ id n w wr w1, sdk_DeleteRuleSet id n w = (Ret (Some wr), w1) →
    ∃ lb, sdk_lb w id = Some lb ∧ sdk_wr w1 wr = Some (id, sdk_with_rule_set lb n None);
  sdk_UpdateNsgs_law : ∀ id nsgs w wr w1, sdk_UpdateNetworkSecurityGroups id nsgs w = (Ret (Some wr), w1) →
    ∃ lb, sdk_lb w id = Some lb ∧ sdk_wr w1 wr = Some (id, sdk_with_nsgs lb nsgs);
  sdk_UpdateShape_law : ∀ id n d w wr w1, sdk_UpdateLoadBalancerShape id n d w = (Ret (Some wr), w1) →
    ∃ lb, sdk_lb w id = Some lb ∧ sdk_wr w1 wr = Some (id, sdk_with_shape lb n d);
  sdk_UpdateLoadBalancer_law : ∀ id f d w o w1, sdk_UpdateLoadBalancer id f d w = (o, w1) →
    sdk_lb w1 = sdk_lb w ∧
    ∀ wr, o = Ret (Some wr) →
      ∃ lb, sdk_lb w id = Some lb ∧ sdk_wr w1 wr = Some (id, sdk_with_tags lb f d);
}.

Section laws.
Context {W RS : Type} `{!LbSdk W RS, !Limits W, !LbServiceLaws W RS}.
Abbreviation S := (gmap string string * W)%type.

Definition service_view (w : W) (id : string) : LbView RS := from_option sdk_view empty_view (sdk_lb w id).

(** The client as the interface of the controller; the state is the cache of names and
    the world. *)
Definition lb_service_client : LbClient S RS := {|
  LoadBalancer.CreateBackendSet id n b := on_world (CreateBackendSet id n b);
  LoadBalancer.UpdateBackendSet id n b := on_world (UpdateBackendSet id n b);
  LoadBalancer.DeleteBackendSet id n := on_world (DeleteBackendSet id n);
  LoadBalancer.CreateListener id n l := on_world (CreateListener id n l);
  LoadBalancer.UpdateListener id n l := on_world (UpdateListener id n l);
  LoadBalancer.DeleteListener id n := on_world (DeleteListener id n);
  LoadBalancer.CreateRuleSet id n r := on_world (CreateRuleSet id n r);
  LoadBalancer.UpdateRuleSet id n r := on_world (UpdateRuleSet id n r);
  LoadBalancer.DeleteRuleSet id n := on_world (DeleteRuleSet id n);
  LoadBalancer.UpdateLoadBalancerShape id d := on_world (UpdateLoadBalancerShape id d);
  LoadBalancer.UpdateNetworkSecurityGroups id nsgs := on_world (UpdateNetworkSecurityGroups id nsgs);
  LoadBalancer.UpdateLoadBalancer_call id d := on_world (UpdateLoadBalancer id d);
  LoadBalancer.AwaitWorkRequest id := on_world (AwaitWorkRequest id);
|}.

(** ** Waiting for work requests *)

Abbreviation keeps := (as_before_or_done sdk_lb sdk_wr).

Lemma await_condition_keeps wr : frames (keeps wr) (await_condition wr).
Proof.
  unfold await_condition. frames. apply (limited_keeps _ _ Reader_frame Writer_frame).
  intros w o w' Hr. exact (GetWorkRequest_frame _ _ _ _ Hr).
Qed.

(** A work request that was awaited is done. *)
Lemma await_condition_done wr w r w' id lb :
  await_condition wr w = (Ret (Some r), w') → sdk_wr w wr = Some (id, lb) → sdk_lb w' id = Some lb.
Proof.
  intros Hr Hw. unfold await_condition in Hr. apply M_bind_Ret_inv in Hr as (x & w1 & Ht & Hr). unfold try in Ht.
  destruct (GetWorkRequest wr w) as [o w2] eqn:E. destruct o as [twr|e|]; [..|done]; injection Ht as <- <-.
  - case_decide as Hs; [|case_decide; [|done]].
    + injection Hr as _ <-. unfold GetWorkRequest in E.
      apply (limited_inv _ _ Reader_frame Writer_frame) in E as (w3 & H1 & H2 & [E|[_ ?]]); [|done].
      eapply GetWorkRequest_done; [done..|]. by rewrite H2.
    + by destruct (swr_Message twr).
  - by destruct (IsRetryable (Some e)).
Qed.

(** ** The client has the laws of the interface *)

Lemma lb_request_effect isWrite op (c : M W string) id (g : LbView RS → LbView RS) :
  (∀ w wr w1, c w = (Ret wr, w1) →
     ∃ lb lb', sdk_lb w id = Some lb ∧ sdk_wr w1 wr = Some (id, lb') ∧ sdk_view lb' = g (sdk_view lb)) →
  ∀ (s s1 s2 : S) wr, on_world (limited isWrite op c) s = (Ret wr, s1) →
    (_ ← on_world (AwaitWorkRequest wr); mret ()) s1 = (Ret (), s2) →
    service_view s2.2 id = g (service_view s.2 id).
Proof.
  exact (request_effect _ _ Reader_frame Writer_frame _ workRequestToGenericWorkRequest
    await_condition_keeps await_condition_done sdk_view empty_view isWrite op c id g).
Qed.

(** The services that share the state with the load balancers and do not change them. *)
Context `{!SubnetClient S, !SecurityListClient S}.
Hypothesis network_frames :
  (∀ id s o s', GetSubnet id s = (o, s') → sdk_lb s'.2 = sdk_lb s.2) ∧
  (∀ ip s o s', GetSubnetFromCacheByIP ip s = (o, s') → sdk_lb s'.2 = sdk_lb s.2) ∧
  (∀ c i s o s', GetPrimaryVNICForInstance c i s = (o, s') → sdk_lb s'.2 = sdk_lb s.2) ∧
  (∀ id s o s', GetSecurityList id s = (o, s') → sdk_lb s'.2 = sdk_lb s.2) ∧
  (∀ id e i g s o s', UpdateSecurityList id e i g s = (o, s') → sdk_lb s'.2 = sdk_lb s.2).

(** A request of the SDK whose law is [law] and whose effect is [g]. *)
Ltac request law g Hq Ha :=
  refine (lb_request_effect _ _ _ _ g _ _ _ _ _ Hq Ha);
  let Hr := fresh "Hr" in intros w wr' w1 Hr%work_request_Ret;
  apply law in Hr as (lb & Hlb & Hwr); exists lb; eexists; split_and!; [exact Hlb|exact Hwr|].

Lemma stored_backend_set n b name d :
  backendSetDetails name b = Ret d →
  ret_value (backendSetToGeneric (named_backend_set n d)) = Some (st_backend_set lb_service_storage n b).
Proof.
  unfold backendSetDetails. simpl. unfold backendSetDetails. destruct (bs_HealthChecker b) as [hc|]; [|done].
  by intros [= <-].
Qed.

(** The requests of the client have the effects the interface says. *)
Definition lb_service_laws : let _ := lb_service_client in LbLaws S RS.
Proof using network_frames LbServiceLaws0.
  intros C.
  apply (Build_LbLaws _ _ C _ _ lb_service_storage (λ s, service_view s.2)
    (proj1 lb_service_storage_ok) (proj1 (proj2 lb_service_storage_ok)) (proj2 (proj2 lb_service_storage_ok))).
  - intros id n b s wr s1 s2 Hq Ha.
    refine (lb_request_effect _ _ _ _
      (λ v : LbView RS, with_backend_set v n (Some (st_backend_set lb_service_storage n b))) _ _ _ _ _ Hq Ha).
    intros w wr' w1 Hr.
    apply M_bind_Ret_inv in Hr as (d & w2 & Hd & Hr%work_request_Ret). injection Hd as Hd <-.
    assert (named_backend_set n d = d ∧ sbs_Name d = Some n) as [Hn Hname].
    { apply bind_Ret_inv in Hd as (hc & _ & Hd). by injection Hd as <-. }
    apply (sdk_CreateBackendSet_law _ _ n) in Hr as (lb & Hlb & Hwr); [|done].
    exists lb. eexists. split_and!; [done..|]. rewrite sdk_with_backend_set_view. simpl mbind.
    by rewrite <-Hn, (stored_backend_set n b _ _ Hd).
  - intros id n b s wr s1 s2 Hq Ha.
    refine (lb_request_effect _ _ _ _
      (λ v : LbView RS, with_backend_set v n (Some (st_backend_set lb_service_storage n b))) _ _ _ _ _ Hq Ha).
    intros w wr' w1 Hr.
    apply M_bind_Ret_inv in Hr as (d & w2 & Hd & Hr%work_request_Ret). injection Hd as Hd <-.
    apply sdk_UpdateBackendSet_law in Hr as (lb & Hlb & Hwr).
    exists lb. eexists. split_and!; [done..|]. rewrite sdk_with_backend_set_view. simpl mbind.
    by rewrite (stored_backend_set n b _ _ Hd).
  - intros id n s wr s1 s2 Hq Ha.
    request sdk_DeleteBackendSet_law (λ v : LbView RS, with_backend_set v n None) Hq Ha. by rewrite sdk_with_backend_set_view.
  - intros id n l s wr s1 s2 Hq Ha.
    refine (lb_request_effect _ _ _ _
      (λ v : LbView RS, with_listener v n (Some (st_created_listener lb_service_storage n l))) _ _ _ _ _ Hq Ha).
    intros w wr' w1 Hr%work_request_Ret.
    apply (sdk_CreateListener_law _ _ n) in Hr as (lb & Hlb & Hwr); [|done].
    exists lb. eexists. split_and!; [done..|]. by rewrite sdk_with_listener_view.
  - intros id n l s wr s1 s2 Hq Ha.
    request sdk_UpdateListener_law (λ v : LbView RS, with_listener v n (Some (st_updated_listener lb_service_storage n l))) Hq Ha. by rewrite sdk_with_listener_view.
  - intros id n s wr s1 s2 Hq Ha.
    request sdk_DeleteListener_law (λ v : LbView RS, with_listener v n None) Hq Ha. by rewrite sdk_with_listener_view.
  - intros id n r s wr s1 s2 _ Hq Ha.
    by request sdk_CreateRuleSet_law (λ v : LbView RS, with_rule_set v n (Some r)) Hq Ha.
  - intros id n r s wr s1 s2 _ Hq Ha.
    by request sdk_UpdateRuleSet_law (λ v : LbView RS, with_rule_set v n (Some r)) Hq Ha.
  - intros id n s wr s1 s2 _ Hq Ha.
    by request sdk_DeleteRuleSet_law (λ v : LbView RS, with_rule_set v n None) Hq Ha.
  - intros id nsgs s wr s1 s2 Hq Ha.
    by request sdk_UpdateNsgs_law (λ v : LbView RS, with_nsgs v nsgs) Hq Ha.
  - intros id d s wr s1 s2 _ Hq Ha.
    by request sdk_UpdateShape_law (λ v : LbView RS, with_shape v (usd_ShapeName d)
      (st_shape lb_service_storage (usd_ShapeDetails d))) Hq Ha.
  - intros id d ver s wr s1 s2 Ht. by vm_compute in Ht.
  - intros id d s o s1 _ Hr.
    edestruct (invisible_effect _ _ Reader_frame Writer_frame _ workRequestToGenericWorkRequest
      await_condition_keeps sdk_view empty_view) as [H1 H2]; [|exact Hr|].
    + intros w o' w1 E. unfold work_request, mbind, M_bind in E.
      destruct (sdk_UpdateLoadBalancer id (uld_FreeformTags d) (uld_DefinedTags d) w) as [o1 w3] eqn:Es.
      apply sdk_UpdateLoadBalancer_law in Es as [Hlb Hwr].
      destruct o1 as [[wr|]| |]; injection E as <- <-; (split; [done|]); intros wr' Ho; try done.
      injection Ho as <-. destruct (Hwr _ eq_refl) as (lb & Hl & Hw). by exists lb, (sdk_with_tags lb (uld_FreeformTags d) (uld_DefinedTags d)).
    + split; [exact H1|]. intros wr o2 s2 Ho Ha. 
      unfold await, mbind, M_bind in Ha. destruct (LoadBalancer.AwaitWorkRequest wr s1) as [o3 s3] eqn:Ea.
      assert (s3 = s2) as <- by (by destruct o3; injection Ha as _ <-).
      exact (H2 wr _ _ Ho Ea).
  - intros x s o s' id Hr. destruct network_frames as (N1 & _). unfold service_view. by rewrite (N1 _ _ _ _ Hr).
  - intros x s o s' id Hr. destruct network_frames as (_ & N2 & _). unfold service_view. by rewrite (N2 _ _ _ _ Hr).
  - intros x y s o s' id Hr. destruct network_frames as (_ & _ & N3 & _). unfold service_view. by rewrite (N3 _ _ _ _ _ Hr).
  - intros x s o s' id Hr. destruct network_frames as (_ & _ & _ & N4 & _). unfold service_view. by rewrite (N4 _ _ _ _ Hr).
  - intros x e i g s o s' id Hr. destruct network_frames as (_ & _ & _ & _ & N5). unfold service_view. by rewrite (N5 _ _ _ _ _ _ _ Hr).
Defined.

(** C9: given the laws of the load balancing service, the client
    implements the interface of the controller: every request that is accepted and whose
    work request is awaited has exactly the effect the interface promises, with the
    storage that the conversions of the client make. *)
Theorem lb_service_refines :
  let _ := lb_service_client in
  ∃ L : LbLaws S RS, lb_storage = lb_service_storage ∧ ∀ s id, lb_view s id = service_view s.2 id.
Proof using network_frames LbServiceLaws0. intros C. exists lb_service_laws. by split. Qed.
End laws.

(** ** Waiting and listing end *)

Section calls.
Context {W RS : Type} `{!LbSdk W RS, !Limits W}.
Abbreviation S := (gmap string string * W)%type.

(** The wait for a work request ends after at most 120
    polls, one every five seconds for ten minutes.  Polls that meet an unfinished work
    request or an error worth repeating are followed by another one; the first other
    poll decides, and when there is no tick left the wait fails with a timeout. *)
Lemma AwaitWorkRequest_bounded id w o w' :
  AwaitWorkRequest id w = (o, w') →
  ∃ k w1 r, k ≤ 120 ∧ polls (await_condition id) k w w1 ∧
    poll_end (await_condition id) (poll_limit `min` poll_ticks w) k w1 r w' ∧
    o = (wr ← r; workRequestToGenericWorkRequest wr).
Proof.
  intros Hr. unfold AwaitWorkRequest, mbind, M_bind in Hr.
  destruct (poll (await_condition id) w) as [r w2] eqn:E. unfold poll in E.
  apply PollUntil_spec in E as (k & w1 & Hk & Hp & He). exists k, w1, r.
  assert (w' = w2 ∧ o = (wr ← r; workRequestToGenericWorkRequest wr)) as [-> ->].
  { destruct r; injection Hr as <- <-; done. }
  split_and!; [|done..]. change 120 with poll_limit. lia.
Qed.

(** When the pages of the listing end, the loop over them
    ends too, and it answers the work requests of all pages, in order. *)
Lemma ListWorkRequests_complete fuel compartmentId lbId w ps w' wrs :
  listing (λ page, limited false "ListWorkRequest" (sdk_ListWorkRequests lbId ListWorkRequestLimit page))
    None w ps w' →
  length ps ≤ fuel → mapM workRequestToGenericWorkRequest (concat ps) = Ret wrs →
  ListWorkRequests fuel compartmentId lbId w = (Ret wrs, w').
Proof.
  intros Hl Hf Hm.
  assert (∀ ps wrs, mapM workRequestToGenericWorkRequest (concat ps) = Ret wrs →
    ∃ news, mapM (mapM workRequestToGenericWorkRequest) ps = Ret news ∧ concat news = wrs) as Hsplit.
  { clear. intros ps. induction ps as [|p ps IH]; intros wrs Hm; [by injection Hm as <-; exists []|].
    simpl in Hm. apply mapM_app_Ret in Hm as (l1 & l2 & H1 & H2 & ->).
    apply IH in H2 as (news & Hn & <-). exists (l1 :: news). simpl. by rewrite H1, Hn. }
  destruct (Hsplit _ _ Hm) as (news & Hn & <-). unfold ListWorkRequests.
  by rewrite (pages_collect _ _ _ _ _ _ _ [] _ Hl Hf Hn).
Qed.

(** ** Load balancers by name *)

(** Entries of the cache for other names are kept. *)
Definition others_kept (n : string) (s s' : S) : Prop := ∀ m, m ≠ n → s'.1 !! m = s.1 !! m.

Local Instance others_kept_preorder n : PreOrder (others_kept n).
Proof. split; [done|]. intros s1 s2 s3 H1 H2 m Hm. by rewrite H2, H1. Qed.

Lemma converted_fields lb g :
  loadbalancerToGenericLoadbalancer (RS := RS) lb = Ret g →
  lb_Id g = slb_Id lb ∧ lb_DisplayName g = slb_DisplayName lb ∧ lb_CompartmentId g = slb_CompartmentId lb.
Proof. intros (sets & _ & Hr)%bind_Ret_inv. by injection Hr as <-. Qed.

Lemma GetLoadBalancer_inv id w g w' :
  GetLoadBalancer (RS := RS) id w = (Ret g, w') →
  ∃ w1 lb w2, sdk_GetLoadBalancer id w1 = (Ret lb, w2) ∧ loadbalancerToGenericLoadbalancer lb = Ret g.
Proof.
  unfold GetLoadBalancer, limited. destruct (Reader_TryAccept w) as [[] w1]; [|done].
  intros (lb & w2 & Hc & Hr)%M_bind_Ret_inv. injection Hr as Hr _. eauto.
Qed.

Lemma cached_load_balancer_spec c n (s s' : S) r :
  (∀ id w lb w', sdk_GetLoadBalancer id w = (Ret lb, w') → slb_Id lb = Some id) →
  cached_load_balancer (RS := RS) c n s = (Ret r, s') →
  others_kept n s s' ∧
  match r with
  | Some lb => lb_DisplayName lb = Some n ∧ lb_CompartmentId lb = Some c ∧ s'.1 !! n = lb_Id lb
  | None => True
  end.
Proof.
  intros Hid Hr. unfold cached_load_balancer in Hr. apply M_bind_Ret_inv in Hr as (oc & s1 & Hl & Hr).
  destruct s as [cache w]. injection Hl as Hl <-. destruct oc as [ocid|]; [|injection Hr as <- <-; by split].
  apply M_bind_Ret_inv in Hr as (x & s2 & Ht & Hr). unfold try in Ht.
  destruct (on_world (GetLoadBalancer ocid) (cache, w)) as [o s3] eqn:E. apply on_world_cache in E as [Hc Hg]. simpl in *.
  destruct o as [g|e|]; [..|done]; injection Ht as <- <-.
  - injection Hr as <- <-. split; [intros m _; by rewrite Hc|]. case_decide as Hd; [|done].
    destruct Hd as [Hd1 Hd2]. split_and!; [done..|]. rewrite Hc, Hl.
    apply GetLoadBalancer_inv in Hg as (w1 & lb & w2 & Hget%Hid & (-> & _)%converted_fields). by rewrite Hget.
  - destruct (IsNotFound (Some e)); [|injection Hr as <- <-; split; [intros m _; by rewrite Hc|done]].
    destruct s3 as [cache3 w3]. injection Hr as <- <-. split; [|done]. intros m Hm. simpl in *.
    by rewrite lookup_delete_ne, Hc.
Qed.

Lemma find_by_name_spec n (items : list (SdkLoadBalancer RS)) lb :
  find_by_name n items = Ret (Some lb) → lb ∈ items ∧ slb_DisplayName lb = Some n.
Proof.
  induction items as [|x items IH]; [done|]. simpl. destruct (slb_DisplayName x) as [d|] eqn:E; [|done]. simpl.
  case_decide as Hd.
  - intros [= ->]. subst. split; [by left|done].
  - intros [Hin Hn]%IH. split; [by right|done].
Qed.

Lemma visit_page_spec n (a : option (GenericLoadBalancer RS)) items (s s' : S) r :
  visit_page n a items s = (Ret r, s') →
  others_kept n s s' ∧
  match r with
  | inr (Some g) => ∃ lb, lb ∈ items ∧ loadbalancerToGenericLoadbalancer lb = Ret g ∧
                     slb_DisplayName lb = Some n ∧ s'.1 !! n = slb_Id lb
  | inr None => False
  | inl b => b = None
  end.
Proof.
  intros Hr. unfold visit_page in Hr. apply M_bind_Ret_inv in Hr as (found & s1 & Hf & Hr). injection Hf as Hf <-.
  destruct found as [lb|]; [|injection Hr as <- <-; by split]. apply find_by_name_spec in Hf as [Hin Hn].
  apply M_bind_Ret_inv in Hr as (id & s1 & Hi & Hr). destruct (slb_Id lb) as [id'|] eqn:Hid; [|done].
  injection Hi as <- <-. apply M_bind_Ret_inv in Hr as ([] & s1 & Hst & Hr). destruct s as [cache w].
  injection Hst as <-. apply M_bind_Ret_inv in Hr as (g & s1 & Hg & Hr). injection Hg as Hg <-.
  injection Hr as <- <-. simpl. split; [intros m Hm; simpl; by rewrite lookup_insert_ne|].
  exists lb. by rewrite lookup_insert_eq.
Qed.

(** The load balancer found by name has that name and
    is in the compartment asked for, also when the cache is stale, and the cache then
    has its OCID; entries for other names are kept. *)
Lemma GetLoadBalancerByName_correct fuel c n (s s' : S) lb :
  (∀ id w lb w', sdk_GetLoadBalancer id w = (Ret lb, w') → slb_Id lb = Some id) →
  (∀ page w items next w', sdk_ListLoadBalancers c n page w = (Ret (items, next), w') →
     Forall (λ lb : SdkLoadBalancer RS, slb_CompartmentId lb = Some c) items) →
  GetLoadBalancerByName fuel c n s = (Ret lb, s') →
  lb_DisplayName lb = Some n ∧ lb_CompartmentId lb = Some c ∧ s'.1 !! n = lb_Id lb ∧ others_kept n s s'.
Proof.
  intros Hid Hlist Hr. unfold GetLoadBalancerByName in Hr.
  apply M_bind_Ret_inv in Hr as (cached & s1 & Hc & Hr).
  apply cached_load_balancer_spec in Hc as [Hk1 Hc]; [|done].
  destruct cached as [g|]; [injection Hr as <- <-; by destruct_and!|].
  apply M_bind_Ret_inv in Hr as (found & s2 & Hp & Hr).
  destruct found as [g|]; [|done]. injection Hr as <- <-.
  assert (∀ fuel page acc s1, acc = None → others_kept n s s1 →
    pages fuel (λ page, on_world (limited false "ListLoadBalancers" (sdk_ListLoadBalancers c n page)))
      (visit_page n) acc page s1 = (Ret (Some g), s2) →
    lb_DisplayName g = Some n ∧ lb_CompartmentId g = Some c ∧ s2.1 !! n = lb_Id g ∧ others_kept n s s2) as Hpages.
  { clear -Hlist. intros fuel. induction fuel as [|fuel IH]; intros page acc s1 -> Hk Hr; [done|]. simpl in Hr.
    apply M_bind_Ret_inv in Hr as ([items next] & s3 & Hl & Hr). apply on_world_cache in Hl as [Hcache Hl].
    assert (others_kept n s s3) as Hk3 by (intros m Hm; rewrite Hcache; by apply Hk).
    unfold limited in Hl. destruct (Reader_TryAccept s1.2) as [[] w1]; [|done]. apply Hlist in Hl.
    apply M_bind_Ret_inv in Hr as (r & s4 & Hv%visit_page_spec & Hr). destruct Hv as [Hk4 Hv].
    assert (others_kept n s s4) as Hk4' by (by trans s3).
    destruct r as [b|[g'|]]; [|injection Hr as <- <-|done].
    - subst b. destruct next as [next|]; [|done]. by apply IH in Hr.
    - destruct Hv as (lb & Hin & (-> & -> & ->)%converted_fields & Hn & Hs). rewrite Forall_forall in Hl. auto. }
  by apply Hpages in Hp.
Qed.
End calls.

(** ** A service in memory *)

(** Load balancers, and the last work request; it takes effect when it is polled. *)
Record sdk_world := {
  sw_lbs : gmap string (SdkLoadBalancer ());
  sw_wr : option (string * SdkLoadBalancer ());
}.

Definition sdk_request (f : SdkLoadBalancer () → SdkLoadBalancer ()) (id : string) : M sdk_world (option string) := λ w,
  match sw_lbs w !! id with
  | Some lb => (Ret (Some "wr"), {| sw_lbs := sw_lbs w; sw_wr := Some (id, f lb) |})
  | None => (Err NotFoundErr, w)
  end.

Definition succeeded_request : SdkWorkRequest := {|
  swr_Id := Some "wr"; swr_LoadBalancerId := None; swr_Type := Some "UpdateListener";
  swr_LifecycleState := "SUCCEEDED"; swr_Message := None; swr_CompartmentId := None |}.

Definition memory_limits : Limits sdk_world := {|
  Reader_TryAccept w := (true, w); Writer_TryAccept w := (true, w); poll_ticks _ := 120 |}.

(** A listing has two pages. *)
Definition memory_sdk : LbSdk sdk_world () := {|
  sdk_GetLoadBalancer id w :=
    (match sw_lbs w !! id with
     | Some lb => if decide (slb_Id lb = Some id) then Ret lb else Err NotFoundErr
     | None => Err NotFoundErr
     end, w);
  sdk_ListLoadBalancers c n page w :=
    (Ret (match page with
          | None => ([], Some "2")
          | Some _ => (filter (λ lb, slb_DisplayName lb = Some n ∧ slb_CompartmentId lb = Some c)
                         (map_to_list (sw_lbs w)).*2, None)
          end), w);
  sdk_CreateLoadBalancer _ _ := fail NotFoundErr; sdk_DeleteLoadBalancer _ := fail NotFoundErr;
  sdk_ListCertificates _ := mret []; sdk_CreateCertificate _ _ := fail NotFoundErr;
  sdk_GetWorkRequest wr w :=
    match sw_wr w with
    | Some (id, lb) =>
        if decide (wr = "wr")
        then (Ret succeeded_request, {| sw_lbs := <[id := lb]> (sw_lbs w); sw_wr := sw_wr w |})
        else (Err NotFoundErr, w)
    | None => (Err NotFoundErr, w)
    end;
  sdk_ListWorkRequests _ _ page :=
    mret (match page with None => ([], Some "2") | Some _ => ([succeeded_request], None) end);
  sdk_CreateBackendSet id d :=
    sdk_request (λ lb, sdk_with_backend_set lb (default "" (sbs_Name d)) (Some d)) id;
  sdk_UpdateBackendSet id n d := sdk_request (λ lb, sdk_with_backend_set lb n (Some (named_backend_set n d))) id;
  sdk_DeleteBackendSet id n := sdk_request (λ lb, sdk_with_backend_set lb n None) id;
  sdk_CreateListener id d := sdk_request (λ lb, sdk_with_listener lb (default "" (sl_Name d)) (Some d)) id;
  sdk_UpdateListener id n d := sdk_request (λ lb, sdk_with_listener lb n (Some (named_listener n d))) id;
  sdk_DeleteListener id n := sdk_request (λ lb, sdk_with_listener lb n None) id;
  sdk_CreateRuleSet id n r := sdk_request (λ lb, sdk_with_rule_set lb n (Some r)) id;
  sdk_UpdateRuleSet id n r := sdk_request (λ lb, sdk_with_rule_set lb n (Some r)) id;
  sdk_DeleteRuleSet id n := sdk_request (λ lb, sdk_with_rule_set lb n None) id;
  sdk_UpdateLoadBalancerShape id n d := sdk_request (λ lb, sdk_with_shape lb n d) id;
  sdk_UpdateNetworkSecurityGroups id nsgs := sdk_request (λ lb, sdk_with_nsgs lb nsgs) id;
  sdk_UpdateLoadBalancer id f d := sdk_request (λ lb, sdk_with_tags lb f d) id;
|}.

Lemma sdk_request_law f id w wr w1 :
  sdk_request f id w = (Ret (Some wr), w1) →
  ∃ lb, sw_lbs w !! id = Some lb ∧ (if decide (wr = "wr") then sw_wr w1 else None) = Some (id, f lb).
Proof. unfold sdk_request. destruct (sw_lbs w !! id) as [lb|]; [|done]. intros [= <- <-]. by exists lb. Qed.

Definition memory_service_laws :
  let _ := memory_sdk in let _ := memory_limits in LbServiceLaws sdk_world ().
Proof.
  intros C L. apply (Build_LbServiceLaws _ _ C L (λ w id, sw_lbs w !! id)
    (λ w wr, if decide (wr = "wr") then sw_wr w else None)).
  - done.
  - done.
  - intros wr w o w' Hr. cbn in Hr. destruct (sw_wr w) as [[id lb]|] eqn:E in Hr; [|injection Hr as _ <-; by auto].
    destruct (decide (wr = "wr")); injection Hr as _ <-; simpl; [|by auto]. split; [done|]. intros id'. rewrite E.
    destruct (decide (id = id')) as [->|]; [rewrite lookup_insert_eq; eauto|rewrite lookup_insert_ne; auto].
  - intros wr w r w' id lb Hr _ Hw. cbn in Hr. destruct (decide (wr = "wr")); [|done]. rewrite Hw in Hr.
    injection Hr as _ <-. simpl. by rewrite lookup_insert_eq.
  - intros id d n w wr w1 Hr Hn. apply sdk_request_law in Hr. by rewrite Hn in Hr.
  - intros id n d w wr w1. apply sdk_request_law.
  - intros id n w wr w1. apply (sdk_request_law (λ lb, sdk_with_backend_set lb n None)).
  - intros id d n w wr w1 Hr Hn. apply sdk_request_law in Hr. by rewrite Hn in Hr.
  - intros id n d w wr w1. apply sdk_request_law.
  - intros id n w wr w1. apply (sdk_request_law (λ lb, sdk_with_listener lb n None)).
  - intros id n r w wr w1. apply sdk_request_law.
  - intros id n r w wr w1. apply sdk_request_law.
  - intros id n w wr w1. apply (sdk_request_law (λ lb, sdk_with_rule_set lb n None)).
  - intros id nsgs w wr w1. apply sdk_request_law.
  - intros id n d w wr w1. apply sdk_request_law.
  - intros id f d w o w1 Hr. split.
    + cbn in Hr. unfold sdk_request in Hr. by destruct (sw_lbs w !! id); injection Hr as _ <-.
    + intros wr ->. by apply (sdk_request_law (λ lb, sdk_with_tags lb f d)) in Hr.
Defined.

(** ** The properties at concrete inputs *)

Definition example_sdk_lb : SdkLoadBalancer () := {|
  slb_Id := Some "lb"; slb_CompartmentId := Some "c"; slb_DisplayName := Some "name";
  slb_LifecycleState := "ACTIVE"; slb_ShapeName := Some "flexible"; slb_IpAddresses := [];
  slb_ShapeDetails := None; slb_IsPrivate := None; slb_SubnetIds := []; slb_NetworkSecurityGroupIds := None;
  slb_Listeners := ∅; slb_Certificates := ∅; slb_BackendSets := ∅; slb_RuleSets := ∅; slb_FreeformTags := ∅;
  slb_DefinedTags := ∅; slb_SystemTags := None |}.

Definition example_sdk_world : sdk_world := {| sw_lbs := {["lb" := example_sdk_lb]}; sw_wr := None |}.

Definition no_subnets {S} : SubnetClient S := {|
  GetSubnet _ := fail NotFoundErr; GetSubnetFromCacheByIP _ := mret None; GetPrimaryVNICForInstance _ _ := mret None |}.
Definition no_lists {S} : SecurityListClient S := {|
  GetSecurityList _ := fail NotFoundErr; UpdateSecurityList _ _ _ _ := fail NotFoundErr |}.

Lemma lb_service_refines_witness :
  let _ := memory_sdk in let _ := memory_limits in
  let _ := no_subnets (S := gmap string string * sdk_world) in
  let _ := no_lists (S := gmap string string * sdk_world) in
  let _ := lb_service_client in
  ∃ L : LbLaws (gmap string string * sdk_world) (), lb_storage = lb_service_storage.
Proof.
  intros C Lim N1 N2 I. destruct (lb_service_refines (LbServiceLaws0 := memory_service_laws)) as (L & Hst & _);
    [|by exists L].
  split_and!; [by intros id s o s' [= _ <-]|by intros ip s o s' [= _ <-]|by intros c i s o s' [= _ <-]
    |by intros id s o s' [= _ <-]|by intros id e i g s o s' [= _ <-]].
Defined.

Lemma AwaitWorkRequest_bounded_witness :
  let _ := memory_sdk in let _ := memory_limits in
  let w := {| sw_lbs := ∅; sw_wr := Some ("lb", example_sdk_lb) |} in
  ∃ k, k ≤ 120 ∧ is_ret (AwaitWorkRequest "wr" w).1 = true.
Proof.
  intros C L w. destruct (AwaitWorkRequest "wr" w) as [o w'] eqn:E.
  destruct (AwaitWorkRequest_bounded "wr" w o w' E) as (k & _ & _ & Hk & _). exists k. split; [done|].
  apply (f_equal (λ p, is_ret p.1)) in E. rewrite <-E. by vm_compute.
Defined.

Lemma ListWorkRequests_complete_witness :
  let _ := memory_sdk in let _ := memory_limits in
  ∃ wrs, ListWorkRequests 2 "c" "lb" example_sdk_world = (Ret wrs, example_sdk_world) ∧ length wrs = 1.
Proof.
  intros C L. eexists. split.
  apply (ListWorkRequests_complete 2 "c" "lb" _ [[]; [succeeded_request]]).
  - eapply listing_more; [reflexivity|]. by apply listing_last.
  - done.
  - reflexivity.
  - reflexivity.
Defined.

Lemma GetLoadBalancerByName_correct_witness :
  let _ := memory_sdk in let _ := memory_limits in
  let s := ({["name" := "stale"]}, example_sdk_world) in
  ∃ lb s', GetLoadBalancerByName 2 "c" "name" s = (Ret lb, s') ∧ s'.1 !! "name" = Some "lb".
Proof.
  intros C L s. destruct (GetLoadBalancerByName 2 "c" "name" s) as [o s'] eqn:E.
  assert (∃ lb, o = Ret lb) as [lb ->].
  { apply (f_equal fst) in E. vm_compute in E. eexists. by rewrite <-E. }
  exists lb, s'. split; [done|].
  destruct (GetLoadBalancerByName_correct 2 "c" "name" s s' lb) as (_ & _ & Hc & _); [..|exact E|].
  - intros id w x w' Hr. cbn in Hr. injection Hr as Hr _. destruct (sw_lbs w !! id); [|done].
    case_decide; [by injection Hr as <-|done].
  - intros page w items next w' Hr. cbn in Hr. injection Hr as Hr _. apply Forall_forall. intros x Hx.
    destruct page; injection Hr as <- _; [|by apply elem_of_nil in Hx]. by apply list_elem_of_filter in Hx as [[_ ?] _].
  - rewrite Hc. apply (f_equal fst) in E. vm_compute in E. by injection E as <-.
Defined.

Definition checked_backend_set : GenericBackendSetDetails := {|
  bs_Name := None;
  bs_HealthChecker := Some {| hc_Protocol := "TCP"; hc_IsForcePlainText := Some false; hc_Port := Some 10256%Z;
    hc_UrlPath := Some "/healthz"; hc_Retries := Some 3%Z; hc_TimeoutInMillis := Some 3000%Z;
    hc_IntervalInMillis := Some 10000%Z; hc_ResponseBodyRegex := None; hc_ReturnCode := Some 200%Z |};
  bs_Policy := Some "ROUND_ROBIN"; bs_Backends := bs_Backends (example_backend_set "" ["10.0.0.1"] 30080);
  bs_SessionPersistenceConfiguration := None; bs_SslConfiguration := None;
  bs_IsPreserveSource := Some false; bs_IpVersion := None |}.

Lemma lb_service_in_sync_witness :
  backend_set_in_sync (st_backend_set lb_service_storage "TCP-80" checked_backend_set) checked_backend_set ∧
  listener_in_sync (Some (∅ : gmap string ()))
    (st_listener lb_service_storage "TCP-80" (example_listener "TCP" 80)) (example_listener "TCP" 80).
Proof.
  destruct (lb_service_in_sync (RS := ())) as [Hb Hl]. split.
  - apply Hb. split_and!; [by eexists|by intros hc [= <-]|done].
  - by destruct (Hl (Some ∅) "TCP-80" (example_listener "TCP" 80) eq_refl).
Defined.
