(* ===== verification/NlbServiceClient.v ===== *)
(** * The client of the network load balancing service
      (src/pkg/oci/client/network_load_balancer.go)

    [networkLoadbalancer]: the conversions between the generic types and those of the
    SDK, and the calls.  As for load balancers, a record stands for the types of the SDK
    that read and write the same fields; enumerations of the SDK are strings, empty when
    they are not set. *)
From stdpp Require Import base tactics list gmap sets strings.
From S2P Require Import Prelude GoStrings Types ClientErrors Names Diff LoadBalancer Handlers ClientCalls.

Definition NetworkLoadBalancerEntityType : string := "NetworkLoadBalancer".

(** ** Types of the SDK *)

(** [networkloadbalancer.Backend] and [BackendDetails]. *)
Record NlbBackend := {
  nb_Port : option Z;
  nb_Name : option string;
  nb_IpAddress : option string;
  nb_TargetId : option string;
  nb_Weight : option Z;
  nb_IsDrain : option bool;
  nb_IsBackup : option bool;
  nb_IsOffline : option bool;
}.

Record NlbHealthChecker := {
  nhc_Protocol : string;
  nhc_Port : option Z;
  nhc_Retries : option Z;
  nhc_ReturnCode : option Z;
  nhc_ResponseBodyRegex : option string;
  nhc_TimeoutInMillis : option Z;
  nhc_IntervalInMillis : option Z;
  nhc_UrlPath : option string;
}.

Record NlbBackendSet := {
  nbs_Name : option string;
  nbs_HealthChecker : option NlbHealthChecker;
  nbs_Policy : string;
  nbs_Backends : list NlbBackend;
  nbs_IsPreserveSource : option bool;
  nbs_IpVersion : string;
}.

Record NlbListener := {
  nl_Name : option string;
  nl_DefaultBackendSetName : option string;
  nl_Port : option Z;
  nl_Protocol : string;
  nl_IpVersion : string;
  nl_IsPpv2Enabled : option bool;
}.

Record NlbIpAddress := {
  nip_IpAddress : option string;
  nip_IsPublic : option bool;
  nip_ReservedIp : option (option string);
}.

(** [networkloadbalancer.NetworkLoadBalancer] and [NetworkLoadBalancerSummary]. *)
Record NetworkLoadBalancer := {
  nlb_Id : option string;
  nlb_CompartmentId : option string;
  nlb_DisplayName : option string;
  nlb_LifecycleState : string;
  nlb_NlbIpVersion : string;
  nlb_IpAddresses : list NlbIpAddress;
  nlb_IsPrivate : option bool;
  nlb_SubnetId : option string;
  nlb_NetworkSecurityGroupIds : option (list string);
  nlb_Listeners : gmap string NlbListener;
  nlb_BackendSets : gmap string NlbBackendSet;
  nlb_FreeformTags : gmap string string;
  nlb_DefinedTags : gmap string (gmap string string);
  nlb_SystemTags : option (gmap string (gmap string string));
}.

Record NlbWorkRequestResource := {
  nwrr_EntityType : option string;
  nwrr_Identifier : option string;
}.

Record NlbWorkRequest := {
  nwr_Id : option string;
  nwr_OperationType : string;
  nwr_Status : string;
  nwr_CompartmentId : option string;
  nwr_Resources : list NlbWorkRequestResource;
  nwr_PercentComplete : option string;
}.

(** [networkloadbalancer.CreateNetworkLoadBalancerDetails]. *)
Record NlbCreateDetails := {
  ncd_CompartmentId : option string;
  ncd_DisplayName : option string;
  ncd_SubnetId : string;
  ncd_IsPreserveSourceDestination : option bool;
  ncd_ReservedIps : list (option string);
  ncd_IsPrivate : option bool;
  ncd_NetworkSecurityGroupIds : list string;
  ncd_Listeners : gmap string NlbListener;
  ncd_BackendSets : gmap string NlbBackendSet;
  ncd_FreeformTags : gmap string string;
  ncd_DefinedTags : gmap string (gmap string string);
  ncd_AssignedPrivateIpv4 : option string;
  ncd_AssignedIpv6 : option string;
  ncd_NlbIpVersion : string;
}.

(** [networkloadbalancer.NetworkLoadBalancerClient]; the update takes tags and an IP
    version. *)
Class NlbSdk (W : Type) := {
  nsdk_GetNetworkLoadBalancer : string → M W NetworkLoadBalancer;
  nsdk_ListNetworkLoadBalancers : string → string → option string → M W (list NetworkLoadBalancer * option string);
  nsdk_CreateNetworkLoadBalancer : NlbCreateDetails → string → M W (option string);
  nsdk_DeleteNetworkLoadBalancer : string → M W (option string);
  nsdk_GetWorkRequest : string → M W NlbWorkRequest;
  nsdk_ListWorkRequests : string → Z → option string → M W (list NlbWorkRequest * option string);
  nsdk_CreateBackendSet : string → NlbBackendSet → M W (option string);
  nsdk_UpdateBackendSet : string → string → NlbBackendSet → M W (option string);
  nsdk_DeleteBackendSet : string → string → M W (option string);
  nsdk_CreateListener : string → NlbListener → M W (option string);
  nsdk_UpdateListener : string → string → NlbListener → M W (option string);
  nsdk_DeleteListener : string → string → M W (option string);
  nsdk_UpdateNetworkSecurityGroups : string → list string → M W (option string);
  nsdk_UpdateNetworkLoadBalancer :
    string → gmap string string → gmap string (gmap string string) → string → M W (option string);
}.

(** ** Conversions *)

(** The IP version of a listener or a backend set. *)
Definition nlb_ip_version (ipVersion : option string) : string :=
  match ipVersion with
  | Some v => if decide (v = GenericIPv4) then "IPV4" else if decide (v = GenericIPv6) then "IPV6" else ""
  | None => ""
  end.

(** The IP version of the endpoint. *)
Definition nlb_endpoint_version (ipVersion : option string) : string :=
  match ipVersion with
  | Some v => if decide (v = GenericIPv4) then "IPV4"
              else if decide (v = GenericIPv6) then "IPV6"
              else if decide (v = GenericIPv4AndIPv6) then "IPV4_AND_IPV6" else ""
  | None => ""
  end.

(** [backendsToBackendDetails], for requests that create or update a backend set. *)
Definition backendsToBackendDetails (backends : list GenericBackend) : list NlbBackend :=
  (λ b, {| nb_Port := be_Port b; nb_Name := be_Name b; nb_IpAddress := be_IpAddress b;
           nb_TargetId := be_TargetId b; nb_Weight := be_Weight b; nb_IsDrain := None; nb_IsBackup := None;
           nb_IsOffline := None |}) <$> backends.

Definition healthCheckerToHealthCheckerDetails (hc : GenericHealthChecker) : NlbHealthChecker := {|
  nhc_Protocol := hc_Protocol hc; nhc_Port := hc_Port hc; nhc_Retries := hc_Retries hc;
  nhc_ReturnCode := hc_ReturnCode hc; nhc_ResponseBodyRegex := hc_ResponseBodyRegex hc;
  nhc_TimeoutInMillis := hc_TimeoutInMillis hc; nhc_IntervalInMillis := hc_IntervalInMillis hc;
  nhc_UrlPath := hc_UrlPath hc |}.

(** [genericBackendDetailsToBackendDetails], for a new load balancer; backends that are
    offline become backups as well. *)
Definition genericBackendDetailsToBackendDetails (details : list GenericBackend) : list NlbBackend :=
  (λ b, {| nb_Port := be_Port b; nb_Name := None; nb_IpAddress := be_IpAddress b; nb_TargetId := be_TargetId b;
           nb_Weight := be_Weight b; nb_IsDrain := be_Drain b; nb_IsBackup := be_Offline b;
           nb_IsOffline := be_Offline b |}) <$> details.

Definition backendDetailsToGenericBackendDetails (details : list NlbBackend) : list GenericBackend :=
  (λ b, {| be_Port := nb_Port b; be_Name := None; be_IpAddress := nb_IpAddress b; be_TargetId := nb_TargetId b;
           be_Weight := nb_Weight b; be_Backup := None; be_Drain := None; be_Offline := None;
           be_MaxConnections := None |}) <$> details.

Definition ipAddressesToGenericIpAddress (ipAddresses : list NlbIpAddress) : list GenericIpAddress :=
  (λ address, {| ip_IpAddress := nip_IpAddress address; ip_IsPublic := nip_IsPublic address;
                 ip_ReservedIp := nip_ReservedIp address |}) <$> ipAddresses.

Definition listenerToGeneric (v : NlbListener) : GenericListener := {|
  ln_Name := nl_Name v; ln_DefaultBackendSetName := nl_DefaultBackendSetName v; ln_Port := nl_Port v;
  ln_Protocol := Some (nl_Protocol v); ln_HostnameNames := []; ln_PathRouteSetName := None;
  ln_SslConfiguration := None; ln_ConnectionConfiguration := None; ln_RoutingPolicyName := None;
  ln_RuleSetNames := []; ln_IpVersion := Some (nl_IpVersion v); ln_IsPpv2Enabled := nl_IsPpv2Enabled v |}.

Definition listenersToGenericListenerDetails (details : gmap string NlbListener) : gmap string GenericListener :=
  listenerToGeneric <$> details.

(** A nil health checker panics. *)
Definition backendSetToGeneric (v : NlbBackendSet) : outcome GenericBackendSetDetails :=
  hc ← deref (nbs_HealthChecker v);
  mret {| bs_Name := nbs_Name v;
          bs_HealthChecker := Some
            {| hc_Protocol := nhc_Protocol hc; hc_IsForcePlainText := None; hc_Port := nhc_Port hc;
               hc_UrlPath := nhc_UrlPath hc; hc_Retries := nhc_Retries hc;
               hc_TimeoutInMillis := nhc_TimeoutInMillis hc; hc_IntervalInMillis := nhc_IntervalInMillis hc;
               hc_ResponseBodyRegex := None; hc_ReturnCode := nhc_ReturnCode hc |};
          bs_Policy := Some (nbs_Policy v); bs_Backends := backendDetailsToGenericBackendDetails (nbs_Backends v);
          bs_SessionPersistenceConfiguration := None; bs_SslConfiguration := None;
          bs_IsPreserveSource := nbs_IsPreserveSource v; bs_IpVersion := Some (nbs_IpVersion v) |}.

Definition backendSetsToGenericBackendSetDetails (backendSets : gmap string NlbBackendSet)
    : outcome (gmap string GenericBackendSetDetails) := convert backendSetToGeneric backendSets.

(** A listener of a new load balancer; a nil protocol panics. *)
Definition listenerDetails (v : GenericListener) : outcome NlbListener :=
  protocol ← deref (ln_Protocol v);
  mret {| nl_Name := ln_Name v; nl_DefaultBackendSetName := ln_DefaultBackendSetName v; nl_Port := ln_Port v;
          nl_Protocol := protocol; nl_IpVersion := nlb_ip_version (ln_IpVersion v);
          nl_IsPpv2Enabled := ln_IsPpv2Enabled v |}.

Definition genericListenerDetailsToListenerDetails (details : gmap string GenericListener)
    : outcome (gmap string NlbListener) := convert listenerDetails details.

(** A backend set of a new load balancer. *)
Definition backendSetDetails (v : GenericBackendSetDetails) : outcome NlbBackendSet :=
  hc ← deref (bs_HealthChecker v);
  policy ← deref (bs_Policy v);
  mret {| nbs_Name := None;
          nbs_HealthChecker := Some
            {| nhc_Protocol := hc_Protocol hc; nhc_Port := hc_Port hc; nhc_Retries := hc_Retries hc;
               nhc_ReturnCode := hc_ReturnCode hc; nhc_ResponseBodyRegex := None;
               nhc_TimeoutInMillis := hc_TimeoutInMillis hc; nhc_IntervalInMillis := hc_IntervalInMillis hc;
               nhc_UrlPath := hc_UrlPath hc |};
          nbs_Policy := policy; nbs_Backends := genericBackendDetailsToBackendDetails (bs_Backends v);
          nbs_IsPreserveSource := bs_IsPreserveSource v; nbs_IpVersion := nlb_ip_version (bs_IpVersion v) |}.

Definition genericBackendSetDetailsToBackendSets (backendSets : gmap string GenericBackendSetDetails)
    : outcome (gmap string NlbBackendSet) := convert backendSetDetails backendSets.

Definition genericReservedIpToReservedIps (genericReservedIps : list (option string)) : list (option string) :=
  (λ id, id) <$> genericReservedIps.

Section conversions.
Context {RS : Type}.

(** A nil subnet panics. *)
Definition networkLoadbalancerToGenericLoadbalancer (nlb : NetworkLoadBalancer) : outcome (GenericLoadBalancer RS) :=
  subnetId ← deref (nlb_SubnetId nlb);
  backendSets ← backendSetsToGenericBackendSetDetails (nlb_BackendSets nlb);
  mret {| lb_Id := nlb_Id nlb; lb_CompartmentId := nlb_CompartmentId nlb; lb_DisplayName := nlb_DisplayName nlb;
          lb_LifecycleState := Some (nlb_LifecycleState nlb); lb_ShapeName := None;
          lb_IpAddresses := ipAddressesToGenericIpAddress (nlb_IpAddresses nlb); lb_ShapeDetails := None;
          lb_IsPrivate := nlb_IsPrivate nlb; lb_SubnetIds := [subnetId];
          lb_NetworkSecurityGroupIds := nlb_NetworkSecurityGroupIds nlb;
          lb_Listeners := listenersToGenericListenerDetails (nlb_Listeners nlb); lb_Certificates := ∅;
          lb_BackendSets := backendSets; lb_RuleSets := ∅; lb_IpVersion := Some (nlb_NlbIpVersion nlb);
          lb_FreeformTags := nlb_FreeformTags nlb; lb_DefinedTags := nlb_DefinedTags nlb;
          lb_SystemTags := nlb_SystemTags nlb |}.

(** The same for the entries of a listing. *)
Definition networkLoadbalancerSummaryToGenericLoadbalancer (nlb : NetworkLoadBalancer)
    : outcome (GenericLoadBalancer RS) := networkLoadbalancerToGenericLoadbalancer nlb.

(** The request has one subnet, the first; an empty list panics. *)
Definition createNetworkLoadBalancerDetails (details : GenericCreateLoadBalancerDetails RS)
    : outcome NlbCreateDetails :=
  subnet ← index (cld_SubnetIds details) 0;
  listeners ← genericListenerDetailsToListenerDetails (cld_Listeners details);
  backendSets ← genericBackendSetDetailsToBackendSets (cld_BackendSets details);
  mret {| ncd_CompartmentId := cld_CompartmentId details; ncd_DisplayName := cld_DisplayName details;
          ncd_SubnetId := subnet; ncd_IsPreserveSourceDestination := cld_IsPreserveSourceDestination details;
          ncd_ReservedIps := genericReservedIpToReservedIps (cld_ReservedIps details);
          ncd_IsPrivate := cld_IsPrivate details;
          ncd_NetworkSecurityGroupIds := cld_NetworkSecurityGroupIds details; ncd_Listeners := listeners;
          ncd_BackendSets := backendSets; ncd_FreeformTags := cld_FreeformTags details;
          ncd_DefinedTags := cld_DefinedTags details;
          ncd_AssignedPrivateIpv4 := cld_AssignedPrivateIpv4 details;
          ncd_AssignedIpv6 := cld_AssignedIpv6 details;
          ncd_NlbIpVersion := nlb_endpoint_version (cld_IpVersion details) |}.
End conversions.

(** The identifier of the first resource that is a network load balancer. *)
Fixpoint getNetworkLoadBalancerID (resources : list NlbWorkRequestResource) : outcome (option string) :=
  match resources with
  | [] => mret None
  | resource :: resources =>
      entityType ← deref (nwrr_EntityType resource);
      if decide (entityType = NetworkLoadBalancerEntityType) then mret (nwrr_Identifier resource)
      else getNetworkLoadBalancerID resources
  end.

Definition workRequestToGenericWorkRequest (request : NlbWorkRequest) : outcome GenericWorkRequest :=
  id ← getNetworkLoadBalancerID (nwr_Resources request);
  mret {| wr_Id := nwr_Id request; wr_LoadBalancerId := id; wr_Type := None; wr_LifecycleState := None;
          wr_Message := None; wr_CompartmentId := nwr_CompartmentId request;
          wr_OperationType := nwr_OperationType request; wr_Status := nwr_Status request |}.

(** ** Requests *)

(** The details of [CreateBackendSet]; the policy is dereferenced. *)
Definition createBackendSetDetails (name : string) (details : GenericBackendSetDetails) : outcome NlbBackendSet :=
  hc ← deref (bs_HealthChecker details);
  policy ← deref (bs_Policy details);
  mret {| nbs_Name := Some name; nbs_HealthChecker := Some (healthCheckerToHealthCheckerDetails hc);
          nbs_Policy := policy; nbs_Backends := backendsToBackendDetails (bs_Backends details);
          nbs_IsPreserveSource := bs_IsPreserveSource details;
          nbs_IpVersion := nlb_ip_version (bs_IpVersion details) |}.

(** The details of [UpdateBackendSet]; a nil policy is not sent. *)
Definition updateBackendSetDetails (details : GenericBackendSetDetails) : outcome NlbBackendSet :=
  hc ← deref (bs_HealthChecker details);
  mret {| nbs_Name := None; nbs_HealthChecker := Some (healthCheckerToHealthCheckerDetails hc);
          nbs_Policy := default "" (bs_Policy details);
          nbs_Backends := backendsToBackendDetails (bs_Backends details);
          nbs_IsPreserveSource := bs_IsPreserveSource details;
          nbs_IpVersion := nlb_ip_version (bs_IpVersion details) |}.

(** The details of [CreateListener] and, without the name, of [UpdateListener]. *)
Definition requestListenerDetails (name : option string) (details : GenericListener) : outcome NlbListener :=
  protocol ← deref (ln_Protocol details);
  mret {| nl_Name := name; nl_DefaultBackendSetName := ln_DefaultBackendSetName details; nl_Port := ln_Port details;
          nl_Protocol := protocol; nl_IpVersion := nlb_ip_version (ln_IpVersion details);
          nl_IsPpv2Enabled := ln_IsPpv2Enabled details |}.

(** ** Calls *)

Section client.
Context {W RS : Type} `{!NlbSdk W, !Limits W}.

Definition GetLoadBalancer (id : string) : M W (GenericLoadBalancer RS) :=
  limited false "GetLoadBalancer"
    (nlb ← nsdk_GetNetworkLoadBalancer id; lift (networkLoadbalancerToGenericLoadbalancer nlb)).

(** The cached load balancer, if it is still the one that is asked for; the entry is
    removed when there is no such load balancer any more. *)
Definition cached_load_balancer (compartmentID name : string)
    : M (gmap string string * W) (option (GenericLoadBalancer RS)) :=
  ocid ← cache_Load name;
  match ocid with
  | None => mret None
  | Some ocid =>
      r ← try (on_world (GetLoadBalancer ocid));
      match r with
      | inr lb => mret (if decide (lb_DisplayName lb = Some name ∧ lb_CompartmentId lb = Some compartmentID)
                        then Some lb else None)
      | inl err => if IsNotFound (Some err) then _ ← cache_Delete name; mret None else mret None
      end
  end.

Fixpoint find_by_name (name : string) (items : list NetworkLoadBalancer) : outcome (option NetworkLoadBalancer) :=
  match items with
  | [] => mret None
  | lb :: items =>
      displayName ← deref (nlb_DisplayName lb);
      if decide (displayName = name) then mret (Some lb) else find_by_name name items
  end.

Definition visit_page (name : string) (_ : option (GenericLoadBalancer RS)) (items : list NetworkLoadBalancer)
    : M (gmap string string * W) (option (GenericLoadBalancer RS) + option (GenericLoadBalancer RS)) :=
  found ← lift (find_by_name name items);
  match found with
  | None => mret (inl None)
  | Some lb =>
      id ← lift (deref (nlb_Id lb));
      _ ← cache_Store name id;
      lb ← lift (networkLoadbalancerSummaryToGenericLoadbalancer lb);
      mret (inr (Some lb))
  end.

Definition GetLoadBalancerByName (fuel : nat) (compartmentID name : string)
    : M (gmap string string * W) (GenericLoadBalancer RS) :=
  cached ← cached_load_balancer compartmentID name;
  match cached with
  | Some lb => mret lb
  | None =>
      found ← pages fuel
                (λ page, on_world (limited false "ListLoadBalancers" (nsdk_ListNetworkLoadBalancers compartmentID name page)))
                (visit_page name) None None;
      match found with Some lb => mret lb | None => fail NotFoundErr end
  end.

Definition CreateLoadBalancer (details : GenericCreateLoadBalancerDetails RS) (serviceUid : string) : M W string :=
  limited true "CreateLoadBalancer"
    (details ← lift (createNetworkLoadBalancerDetails details);
     work_request (nsdk_CreateNetworkLoadBalancer details serviceUid)).

Definition DeleteLoadBalancer (id : string) : M W string :=
  limited true "DeleteLoadBalancer" (work_request (nsdk_DeleteNetworkLoadBalancer id)).

(** Network load balancers have no certificates: nothing is done. *)
Definition CreateCertificate (lbID : string) (cert : GenericCertificate) : M W string := mret "".

(** The answer is nil without an error. *)
Definition GetCertificateByName (lbID name : string) : M W (option GenericCertificate) := mret None.

Definition GetWorkRequest (id : string) : M W NlbWorkRequest :=
  limited false "GetWorkRequest" (nsdk_GetWorkRequest id).

(** The work requests of the compartment with the resource [nlbId], one for every such
    resource. *)
Definition page_work_requests (nlbId : string) (items : list NlbWorkRequest) : outcome (list GenericWorkRequest) :=
  mapM workRequestToGenericWorkRequest
    (flat_map (λ wr, (λ _, wr) <$> filter (λ r, nwrr_Identifier r = Some nlbId) (nwr_Resources wr)) items).

Definition ListWorkRequests (fuel : nat) (compartmentId nlbId : string) : M W (list GenericWorkRequest) :=
  pages fuel (λ page, limited false "ListWorkRequest" (nsdk_ListWorkRequests compartmentId ListWorkRequestLimit page))
    (λ acc items, new ← lift (page_work_requests nlbId items); mret (inl (acc ++ new))) [] None.

Definition CreateBackendSet (lbID name : string) (details : GenericBackendSetDetails) : M W string :=
  limited true "CreateBackendSet"
    (details ← lift (createBackendSetDetails name details); work_request (nsdk_CreateBackendSet lbID details)).

Definition UpdateBackendSet (lbID name : string) (details : GenericBackendSetDetails) : M W string :=
  limited true "UpdateBackendSet"
    (details ← lift (updateBackendSetDetails details); work_request (nsdk_UpdateBackendSet lbID name details)).

Definition DeleteBackendSet (lbID name : string) : M W string :=
  limited true "DeleteBackendSet" (work_request (nsdk_DeleteBackendSet lbID name)).

Definition CreateListener (lbID name : string) (details : GenericListener) : M W string :=
  limited true "CreateListener"
    (details ← lift (requestListenerDetails (Some name) details); work_request (nsdk_CreateListener lbID details)).

Definition UpdateListener (lbID name : string) (details : GenericListener) : M W string :=
  limited true "UpdateListener"
    (details ← lift (requestListenerDetails None details); work_request (nsdk_UpdateListener lbID name details)).

Definition DeleteListener (lbID name : string) : M W string :=
  limited true "DeleteListener" (work_request (nsdk_DeleteListener lbID name)).

(** A work request that was cancelled is polled until the time is over. *)
Definition await_condition (id : string) : M W (option NlbWorkRequest) :=
  r ← try (GetWorkRequest id);
  match r with
  | inl err => if IsRetryable (Some err) then mret None else fail err
  | inr twr =>
      if decide (nwr_Status twr = "SUCCEEDED") then mret (Some twr)
      else if decide (nwr_Status twr = "FAILED")
      then percent ← lift (deref (nwr_PercentComplete twr));
           fail (Errorf "WorkRequest %q failed. PercentComplete: %f" [id; percent])
      else mret None
  end.

Definition AwaitWorkRequest (id : string) : M W GenericWorkRequest :=
  wr ← poll (await_condition id); lift (workRequestToGenericWorkRequest wr).

(** Network load balancers have neither rule sets nor a shape: nothing is done. *)
Definition CreateRuleSet (lbID name : string) (details : RS) : M W string := mret "".
Definition UpdateRuleSet (lbID name : string) (details : RS) : M W string := mret "".
Definition DeleteRuleSet (lbID name : string) : M W string := mret "".
Definition UpdateLoadBalancerShape (lbID : string) (d : GenericUpdateLoadBalancerShapeDetails) : M W string := mret "".

Definition UpdateNetworkSecurityGroups (lbID : string) (nsgs : list string) : M W string :=
  limited true "UpdateNetworkSecurityGroups" (work_request (nsdk_UpdateNetworkSecurityGroups lbID nsgs)).

Definition UpdateLoadBalancer (lbID : string) (details : GenericUpdateLoadBalancerDetails) : M W string :=
  limited true "UpdateLoadBalancer"
    (work_request (nsdk_UpdateNetworkLoadBalancer lbID (uld_FreeformTags details) (uld_DefinedTags details)
                     (nlb_endpoint_version (uld_IpVersion details)))).
End client.
