(* ===== verification/NlbServiceFacts.v ===== *)
(** * What the client of the network load balancing service achieves

    [nlb_service_laws]: the client has the laws [LbLaws] the controller relies on, given
    laws of the service itself ([NlbServiceLaws]), with the storage that its conversions
    make; and what that storage keeps. *)
From stdpp Require Import base tactics list gmap sets strings.
From S2P Require Import Prelude GoStrings Types ClientErrors Names Diff LoadBalancer SecurityListManager LoadBalancerFacts Handlers HandlersFacts ClientCalls NlbServiceClient.

(** ** The storage of the service *)

Definition named_nlb_listener (n : string) (l : NlbListener) : NlbListener := {|
  nl_Name := Some n; nl_DefaultBackendSetName := nl_DefaultBackendSetName l; nl_Port := nl_Port l;
  nl_Protocol := nl_Protocol l; nl_IpVersion := nl_IpVersion l; nl_IsPpv2Enabled := nl_IsPpv2Enabled l |}.

Definition named_nlb_backend_set (n : string) (b : NlbBackendSet) : NlbBackendSet := {|
  nbs_Name := Some n; nbs_HealthChecker := nbs_HealthChecker b; nbs_Policy := nbs_Policy b;
  nbs_Backends := nbs_Backends b; nbs_IsPreserveSource := nbs_IsPreserveSource b;
  nbs_IpVersion := nbs_IpVersion b |}.

(** What is shown for the details of a request: they are converted to the types of the
    service and back. *)
Definition nlb_service_storage : Storage := {|
  st_type := NLB;
  st_backend_set n b :=
    default (named_set n b)
      (ret_value (d ← updateBackendSetDetails b; backendSetToGeneric (named_nlb_backend_set n d)));
  st_listener n l := from_option (λ d, listenerToGeneric (named_nlb_listener n d)) l (ret_value (listenerDetails l));
  st_created_listener n l := from_option listenerToGeneric l (ret_value (requestListenerDetails (Some n) l));
  st_updated_listener n l :=
    from_option (λ d, listenerToGeneric (named_nlb_listener n d)) l (ret_value (requestListenerDetails None l));
  st_shape d := d;
  st_ip_version v := nlb_endpoint_version (Some v) |}.

Lemma nlb_backends_roundtrip bs :
  omap endpoint (backendDetailsToGenericBackendDetails (backendsToBackendDetails bs)) = omap endpoint bs ∧
  be_Port <$> head (backendDetailsToGenericBackendDetails (backendsToBackendDetails bs)) = be_Port <$> head bs.
Proof.
  split; [|by destruct bs]. unfold backendDetailsToGenericBackendDetails, backendsToBackendDetails.
  induction bs as [|b bs IH]; [done|]. csimpl in *. by rewrite IH.
Qed.

(** A new load balancer shows the same backends as an update. *)
Lemma nlb_new_backends bs :
  backendDetailsToGenericBackendDetails (genericBackendDetailsToBackendDetails bs)
  = backendDetailsToGenericBackendDetails (backendsToBackendDetails bs).
Proof.
  unfold backendDetailsToGenericBackendDetails, genericBackendDetailsToBackendDetails, backendsToBackendDetails.
  by rewrite <-!list_fmap_compose.
Qed.

Lemma nlb_service_storage_ok : storage_ok nlb_service_storage.
Proof.
  split_and!.
  - intros n b [Hb Hhc]. simpl. unfold updateBackendSetDetails. destruct (bs_HealthChecker b) as [hc|] eqn:E; simpl.
    + split; [|done]. split; simpl; [|intros hc' [= <-]; exact (Hhc hc eq_refl)].
      unfold backends_ok, backendDetailsToGenericBackendDetails, backendsToBackendDetails.
      rewrite !Forall_fmap. by eapply Forall_impl.
    + split; [|done]. split; [done|]. simpl. by rewrite E.
  - intros d Ht. by vm_compute in Ht.
  - intros ver Hv. unfold generic_versions in Hv. by repeat (apply elem_of_cons in Hv as [->|Hv]; [by vm_compute|]); apply elem_of_nil in Hv.
Qed.

(** ** What the storage keeps *)

(** Backend sets and listeners as the controller makes them for network load balancers. *)
Definition for_nlb_set (b : GenericBackendSetDetails) : Prop :=
  bs_SslConfiguration b = None ∧ is_Some (bs_Policy b) ∧
  ∃ hc, bs_HealthChecker b = Some hc ∧ toString (hc_ResponseBodyRegex hc) = "" ∧ toBool (hc_IsForcePlainText hc) = false.

Definition for_nlb_listener (l : GenericListener) : Prop :=
  ln_SslConfiguration l = None ∧ ln_ConnectionConfiguration l = None ∧ ln_RuleSetNames l = [] ∧ is_Some (ln_Protocol l).

(** What the client of the network load balancing service stores
    for the backend sets and listeners of a load balancer, whether it is created or
    updated, is found in sync with them when it is read and compared again; a new load
    balancer and an update show the same. *)
Lemma nlb_service_in_sync {RS : Type} :
  (∀ n b, for_nlb_set b →
     backend_set_in_sync (st_backend_set nlb_service_storage n b) b ∧
     (∃ d, backendSetDetails b = Ret d ∧
        backendSetToGeneric (named_nlb_backend_set n d) = Ret (st_backend_set nlb_service_storage n b)) ∧
     ∃ d, createBackendSetDetails n b = Ret d ∧
        backendSetToGeneric d = Ret (st_backend_set nlb_service_storage n b)) ∧
  (∀ (rs : option (gmap string RS)) n l, for_nlb_listener l →
     listener_in_sync rs (st_listener nlb_service_storage n l) l ∧
     listener_in_sync rs (st_updated_listener nlb_service_storage n l) l ∧
     listener_in_sync rs (st_created_listener nlb_service_storage n l) l).
Proof.
  split.
  - intros n b (Hssl & [pol Hpol] & hc & Hhc & Hregex & Hplain).
    simpl. unfold updateBackendSetDetails, backendSetDetails, createBackendSetDetails. rewrite Hhc, Hpol. simpl.
    destruct (nlb_backends_roundtrip (bs_Backends b)) as [He Hh]. split; [|split].
    split_and!; simpl; rewrite ?Hssl, ?Hhc, ?Hpol; try done.
    + intros x y Hx Hy. rewrite Hx, Hy in Hh. by injection Hh.
    + by rewrite He.
    + eexists. split; [done|]. unfold backendSetToGeneric. simpl. by rewrite nlb_new_backends.
    + by eexists.
  - intros rs n l (Hssl & Hcc & Hrs & [p Hp]).
    unfold listener_in_sync. simpl. unfold listenerDetails, requestListenerDetails. rewrite Hp. simpl.
    rewrite Hssl, Hcc, Hrs. by split_and!.
Qed.

(** ** The laws of the service *)

Definition update_nlb nlb (listeners : gmap string NlbListener) (backend_sets : gmap string NlbBackendSet)
    (nsgs : option (list string)) (version : string) (freeform : gmap string string)
    (defined : gmap string (gmap string string)) : NetworkLoadBalancer := {|
  nlb_Id := nlb_Id nlb; nlb_CompartmentId := nlb_CompartmentId nlb; nlb_DisplayName := nlb_DisplayName nlb;
  nlb_LifecycleState := nlb_LifecycleState nlb; nlb_NlbIpVersion := version; nlb_IpAddresses := nlb_IpAddresses nlb;
  nlb_IsPrivate := nlb_IsPrivate nlb; nlb_SubnetId := nlb_SubnetId nlb; nlb_NetworkSecurityGroupIds := nsgs;
  nlb_Listeners := listeners; nlb_BackendSets := backend_sets; nlb_FreeformTags := freeform;
  nlb_DefinedTags := defined; nlb_SystemTags := nlb_SystemTags nlb |}.

Definition nlb_with_backend_set nlb (n : string) (o : option NlbBackendSet) : NetworkLoadBalancer :=
  update_nlb nlb (nlb_Listeners nlb) (partial_alter (λ _, o) n (nlb_BackendSets nlb))
    (nlb_NetworkSecurityGroupIds nlb) (nlb_NlbIpVersion nlb) (nlb_FreeformTags nlb) (nlb_DefinedTags nlb).
Definition nlb_with_listener nlb (n : string) (o : option NlbListener) : NetworkLoadBalancer :=
  update_nlb nlb (partial_alter (λ _, o) n (nlb_Listeners nlb)) (nlb_BackendSets nlb)
    (nlb_NetworkSecurityGroupIds nlb) (nlb_NlbIpVersion nlb) (nlb_FreeformTags nlb) (nlb_DefinedTags nlb).
Definition nlb_with_nsgs nlb (nsgs : list string) : NetworkLoadBalancer :=
  update_nlb nlb (nlb_Listeners nlb) (nlb_BackendSets nlb) (Some nsgs) (nlb_NlbIpVersion nlb)
    (nlb_FreeformTags nlb) (nlb_DefinedTags nlb).
(** An IP version that is not set is kept. *)
Definition nlb_with_details nlb (version : string) (freeform : gmap string string)
    (defined : gmap string (gmap string string)) : NetworkLoadBalancer :=
  update_nlb nlb (nlb_Listeners nlb) (nlb_BackendSets nlb) (nlb_NetworkSecurityGroupIds nlb)
    (if decide (version = "") then nlb_NlbIpVersion nlb else version) freeform defined.

(** [nlb_obj w id] is the network load balancer [id], and [nlb_wr w wr] the one that the
    work request [wr] is for and what it makes of it.  What an update does to tags is
    left open. *)
Class NlbServiceLaws (W : Type) `{!NlbSdk W, !Limits W} := {
  nlb_obj : W → string → option NetworkLoadBalancer;
  nlb_wr : W → string → option (string * NetworkLoadBalancer);
  nlb_Reader_frame : ∀ w, nlb_obj (Reader_TryAccept w).2 = nlb_obj w ∧ nlb_wr (Reader_TryAccept w).2 = nlb_wr w;
  nlb_Writer_frame : ∀ w, nlb_obj (Writer_TryAccept w).2 = nlb_obj w ∧ nlb_wr (Writer_TryAccept w).2 = nlb_wr w;
  nlb_GetWorkRequest_frame : ∀ wr w o w', nsdk_GetWorkRequest wr w = (o, w') →
    as_before_or_done nlb_obj nlb_wr wr w w';
  nlb_GetWorkRequest_done : ∀ wr w r w' id nlb, nsdk_GetWorkRequest wr w = (Ret r, w') →
    nwr_Status r = "SUCCEEDED" → nlb_wr w wr = Some (id, nlb) → nlb_obj w' id = Some nlb;
  nsdk_CreateBackendSet_law : ∀ id d n w wr w1, nsdk_CreateBackendSet id d w = (Ret (Some wr), w1) →
    nbs_Name d = Some n →
    ∃ nlb, nlb_obj w id = Some nlb ∧ nlb_wr w1 wr = Some (id, nlb_with_backend_set nlb n (Some d));
  nsdk_UpdateBackendSet_law : ∀ id n d w wr w1, nsdk_UpdateBackendSet id n d w = (Ret (Some wr), w1) →
    ∃ nlb, nlb_obj w id = Some nlb ∧
      nlb_wr w1 wr = Some (id, nlb_with_backend_set nlb n (Some (named_nlb_backend_set n d)));
  nsdk_DeleteBackendSet_law : ∀ id n w wr w1, nsdk_DeleteBackendSet id n w = (Ret (Some wr), w1) →
    ∃ nlb, nlb_obj w id = Some nlb ∧ nlb_wr w1 wr = Some (id, nlb_with_backend_set nlb n None);
  nsdk_CreateListener_law : ∀ id d n w wr w1, nsdk_CreateListener id d w = (Ret (Some wr), w1) →
    nl_Name d = Some n →
    ∃ nlb, nlb_obj w id = Some nlb ∧ nlb_wr w1 wr = Some (id, nlb_with_listener nlb n (Some d));
  nsdk_UpdateListener_law : ∀ id n d w wr w1, nsdk_UpdateListener id n d w = (Ret (Some wr), w1) →
    ∃ nlb, nlb_obj w id = Some nlb ∧
      nlb_wr w1 wr = Some (id, nlb_with_listener nlb n (Some (named_nlb_listener n d)));
  nsdk_DeleteListener_law : ∀ id n w wr w1, nsdk_DeleteListener id n w = (Ret (Some wr), w1) →
    ∃ nlb, nlb_obj w id = Some nlb ∧ nlb_wr w1 wr = Some (id, nlb_with_listener nlb n None);
  nsdk_UpdateNsgs_law : ∀ id nsgs w wr w1, nsdk_UpdateNetworkSecurityGroups id nsgs w = (Ret (Some wr), w1) →
    ∃ nlb, nlb_obj w id = Some nlb ∧ nlb_wr w1 wr = Some (id, nlb_with_nsgs nlb nsgs);
  nsdk_Update_law : ∀ id f d v w o w1, nsdk_UpdateNetworkLoadBalancer id f d v w = (o, w1) →
    nlb_obj w1 = nlb_obj w ∧
    ∀ wr, o = Ret (Some wr) →
      ∃ nlb f' d', nlb_obj w id = Some nlb ∧ nlb_wr w1 wr = Some (id, nlb_with_details nlb v f' d');
}.

Section laws.
Context {W RS : Type} `{!NlbSdk W, !Limits W, !NlbServiceLaws W}.
Abbreviation S := (gmap string string * W)%type.

(** What a load balancer of the service shows to the controller. *)
Definition nlb_view (nlb : NetworkLoadBalancer) : LbView RS := {|
  v_BackendSets := omap (λ b, ret_value (backendSetToGeneric b)) (nlb_BackendSets nlb);
  v_Listeners := listenersToGenericListenerDetails (nlb_Listeners nlb); v_RuleSets := ∅;
  v_Nsgs := default [] (nlb_NetworkSecurityGroupIds nlb); v_ShapeName := None; v_ShapeDetails := None;
  v_IpVersion := Some (nlb_NlbIpVersion nlb) |}.

Definition empty_nlb_view : LbView RS := {|
  v_BackendSets := ∅; v_Listeners := ∅; v_RuleSets := ∅; v_Nsgs := []; v_ShapeName := None;
  v_ShapeDetails := None; v_IpVersion := None |}.

(** The conversion of a whole load balancer shows the same. *)
Lemma converted_nlb_view nlb g : networkLoadbalancerToGenericLoadbalancer nlb = Ret g → view_of g = nlb_view nlb.
Proof.
  intros (subnet & _ & Hr)%bind_Ret_inv. apply bind_Ret_inv in Hr as (sets & Hsets & Hr). injection Hr as <-.
  by apply convert_omap in Hsets as ->.
Qed.

Lemma nlb_with_backend_set_view nlb n o :
  nlb_view (nlb_with_backend_set nlb n o)
  = with_backend_set (nlb_view nlb) n (o ≫= λ b, ret_value (backendSetToGeneric b)).
Proof.
  unfold nlb_view, with_backend_set. simpl. f_equal. apply map_eq. intros k. rewrite lookup_omap.
  destruct (decide (n = k)) as [->|Hne]; [by rewrite !lookup_partial_alter_eq|].
  by rewrite !lookup_partial_alter_ne, lookup_omap.
Qed.

Lemma nlb_with_listener_view nlb n o :
  nlb_view (nlb_with_listener nlb n o) = with_listener (nlb_view nlb) n (listenerToGeneric <$> o).
Proof.
  unfold nlb_view, with_listener, listenersToGenericListenerDetails. simpl. f_equal. apply map_eq. intros k.
  rewrite lookup_fmap. destruct (decide (n = k)) as [->|Hne]; [by rewrite !lookup_partial_alter_eq|].
  by rewrite !lookup_partial_alter_ne, lookup_fmap.
Qed.

Definition nlb_service_view (w : W) (id : string) : LbView RS := from_option nlb_view empty_nlb_view (nlb_obj w id).

(** The client as the interface of the controller. *)
Definition nlb_service_client : LbClient S RS := {|
  LoadBalancer.CreateBackendSet id n b := on_world (CreateBackendSet id n b);
  LoadBalancer.UpdateBackendSet id n b := on_world (UpdateBackendSet id n b);
  LoadBalancer.DeleteBackendSet id n := on_world (DeleteBackendSet id n);
  LoadBalancer.CreateListener id n l := on_world (CreateListener id n l);
  LoadBalancer.UpdateListener id n l := on_world (UpdateListener id n l);
  LoadBalancer.DeleteListener id n := on_world (DeleteListener id n);
  LoadBalancer.CreateRuleSet id n r := on_world (CreateRuleSet id n r);
  LoadBalancer.UpdateRuleSet id n r := on_world (UpdateRuleSet id n r);
  LoadBalancer.DeleteRuleSet id n := on_world (DeleteRuleSet id n);
  LoadBalancer.UpdateLoadBalancerShape id d := on_world (UpdateLoadBalancerShape id d);
  LoadBalancer.UpdateNetworkSecurityGroups id nsgs := on_world (UpdateNetworkSecurityGroups id nsgs);
  LoadBalancer.UpdateLoadBalancer_call id d := on_world (UpdateLoadBalancer id d);
  LoadBalancer.AwaitWorkRequest id := on_world (AwaitWorkRequest id);
|}.

(** ** Waiting for work requests *)

Lemma nlb_condition_keeps wr : frames (as_before_or_done nlb_obj nlb_wr wr) (await_condition wr).
Proof.
  unfold await_condition. frames. apply (limited_keeps _ _ nlb_Reader_frame nlb_Writer_frame).
  intros w o w' Hr. exact (nlb_GetWorkRequest_frame _ _ _ _ Hr).
Qed.

Lemma nlb_condition_done wr w r w' id nlb :
  await_condition wr w = (Ret (Some r), w') → nlb_wr w wr = Some (id, nlb) → nlb_obj w' id = Some nlb.
Proof.
  intros Hr Hw. unfold await_condition in Hr. apply M_bind_Ret_inv in Hr as (x & w1 & Ht & Hr). unfold try in Ht.
  destruct (GetWorkRequest wr w) as [o w2] eqn:E. destruct o as [twr|e|]; [..|done]; injection Ht as <- <-.
  - case_decide as Hs; [|case_decide; [|done]].
    + injection Hr as _ <-. unfold GetWorkRequest in E.
      apply (limited_inv _ _ nlb_Reader_frame nlb_Writer_frame) in E as (w3 & H1 & H2 & [E|[_ ?]]); [|done].
      eapply nlb_GetWorkRequest_done; [done..|]. by rewrite H2.
    + by destruct (nwr_PercentComplete twr).
  - by destruct (IsRetryable (Some e)).
Qed.

(** ** The client has the laws of the interface *)

Lemma nlb_request_effect isWrite op (c : M W string) id (g : LbView RS → LbView RS) :
  (∀ w wr w1, c w = (Ret wr, w1) →
     ∃ x x', nlb_obj w id = Some x ∧ nlb_wr w1 wr = Some (id, x') ∧ nlb_view x' = g (nlb_view x)) →
  ∀ (s s1 s2 : S) wr, on_world (limited isWrite op c) s = (Ret wr, s1) →
    (_ ← on_world (AwaitWorkRequest wr); mret ()) s1 = (Ret (), s2) →
    nlb_service_view s2.2 id = g (nlb_service_view s.2 id).
Proof.
  exact (request_effect _ _ nlb_Reader_frame nlb_Writer_frame _ workRequestToGenericWorkRequest
    nlb_condition_keeps nlb_condition_done nlb_view empty_nlb_view isWrite op c id g).
Qed.

(** The services that share the state with the load balancers and do not change them. *)
Context `{!SubnetClient S, !SecurityListClient S}.
Hypothesis network_frames :
  (∀ id s o s', GetSubnet id s = (o, s') → nlb_obj s'.2 = nlb_obj s.2) ∧
  (∀ ip s o s', GetSubnetFromCacheByIP ip s = (o, s') → nlb_obj s'.2 = nlb_obj s.2) ∧
  (∀ c i s o s', GetPrimaryVNICForInstance c i s = (o, s') → nlb_obj s'.2 = nlb_obj s.2) ∧
  (∀ id s o s', GetSecurityList id s = (o, s') → nlb_obj s'.2 = nlb_obj s.2) ∧
  (∀ id e i g s o s', UpdateSecurityList id e i g s = (o, s') → nlb_obj s'.2 = nlb_obj s.2).

(** A request whose details are converted by [conv] first, and its law. *)
Ltac converted law Hd :=
  let Hr := fresh "Hr" in intros w wr' w1 Hr;
  apply M_bind_Ret_inv in Hr as (d & w2 & Hd & Hr%work_request_Ret); injection Hd as Hd <-;
  apply bind_Ret_inv in Hd as (y & Hy & Hd);
  apply law in Hr as (nlb & Hnlb & Hwr); exists nlb; eexists; split_and!; [exact Hnlb|exact Hwr|].
Ltac plain law :=
  let Hr := fresh "Hr" in intros w wr' w1 Hr%work_request_Ret;
  apply law in Hr as (nlb & Hnlb & Hwr); exists nlb; eexists; split_and!; [exact Hnlb|exact Hwr|].

Definition nlb_service_laws : let _ := nlb_service_client in LbLaws S RS.
Proof using network_frames NlbServiceLaws0.
  intros C.
  apply (Build_LbLaws _ _ C _ _ nlb_service_storage (λ s, nlb_service_view s.2)
    (proj1 nlb_service_storage_ok) (proj1 (proj2 nlb_service_storage_ok)) (proj2 (proj2 nlb_service_storage_ok))).
  - intros id n b s wr s1 s2 Hq Ha.
    refine (nlb_request_effect _ _ _ _
      (λ v : LbView RS, with_backend_set v n (Some (st_backend_set nlb_service_storage n b))) _ _ _ _ _ Hq Ha).
    intros w wr' w1 Hr. apply M_bind_Ret_inv in Hr as (d & w2 & Hd & Hr%work_request_Ret). injection Hd as Hd <-.
    apply bind_Ret_inv in Hd as (hc & Hhc & Hd). apply bind_Ret_inv in Hd as (pol & Hpol & Hd). injection Hd as <-.
    apply (nsdk_CreateBackendSet_law _ _ n) in Hr as (nlb & Hnlb & Hwr); [|done].
    exists nlb. eexists. split_and!; [done..|]. rewrite nlb_with_backend_set_view. simpl.
    unfold updateBackendSetDetails. rewrite Hhc. simpl. by destruct (bs_Policy b) as [p|]; [injection Hpol as <-|].
  - intros id n b s wr s1 s2 Hq Ha.
    refine (nlb_request_effect _ _ _ _
      (λ v : LbView RS, with_backend_set v n (Some (st_backend_set nlb_service_storage n b))) _ _ _ _ _ Hq Ha).
    converted nsdk_UpdateBackendSet_law Hd. rewrite nlb_with_backend_set_view. simpl.
    injection Hd as <-. unfold updateBackendSetDetails. rewrite Hy. done.
  - intros id n s wr s1 s2 Hq Ha.
    refine (nlb_request_effect _ _ _ _ (λ v : LbView RS, with_backend_set v n None) _ _ _ _ _ Hq Ha).
    plain nsdk_DeleteBackendSet_law. by rewrite nlb_with_backend_set_view.
  - intros id n l s wr s1 s2 Hq Ha.
    refine (nlb_request_effect _ _ _ _
      (λ v : LbView RS, with_listener v n (Some (st_created_listener nlb_service_storage n l))) _ _ _ _ _ Hq Ha).
    intros w wr' w1 Hr. apply M_bind_Ret_inv in Hr as (d & w2 & Hd & Hr%work_request_Ret). injection Hd as Hd <-.
    apply bind_Ret_inv in Hd as (y & Hy & Hd). apply (nsdk_CreateListener_law _ _ n) in Hr as (nlb & Hnlb & Hwr);
      [|by injection Hd as <-].
    exists nlb. eexists. split_and!; [done..|]. rewrite nlb_with_listener_view. simpl.
    injection Hd as <-. unfold requestListenerDetails. by rewrite Hy.
  - intros id n l s wr s1 s2 Hq Ha.
    refine (nlb_request_effect _ _ _ _
      (λ v : LbView RS, with_listener v n (Some (st_updated_listener nlb_service_storage n l))) _ _ _ _ _ Hq Ha).
    converted nsdk_UpdateListener_law Hd. rewrite nlb_with_listener_view. simpl.
    injection Hd as <-. unfold requestListenerDetails. by rewrite Hy.
  - intros id n s wr s1 s2 Hq Ha.
    refine (nlb_request_effect _ _ _ _ (λ v : LbView RS, with_listener v n None) _ _ _ _ _ Hq Ha).
    plain nsdk_DeleteListener_law. by rewrite nlb_with_listener_view.
  - intros id n r s wr s1 s2 Ht. by vm_compute in Ht.
  - intros id n r s wr s1 s2 Ht. by vm_compute in Ht.
  - intros id n s wr s1 s2 Ht. by vm_compute in Ht.
  - intros id nsgs s wr s1 s2 Hq Ha.
    refine (nlb_request_effect _ _ _ _ (λ v : LbView RS, with_nsgs v nsgs) _ _ _ _ _ Hq Ha).
    by plain nsdk_UpdateNsgs_law.
  - intros id d s wr s1 s2 Ht. by vm_compute in Ht.
  - intros id d ver s wr s1 s2 _ Hd Hv Hq Ha.
    refine (nlb_request_effect _ _ _ _
      (λ v : LbView RS, with_ip_version v (st_ip_version nlb_service_storage ver)) _ _ _ _ _ Hq Ha).
    intros w wr' w1 Hr%work_request_Ret. apply nsdk_Update_law in Hr as [_ Hr].
    destruct (Hr _ eq_refl) as (nlb & f & d' & Hnlb & Hwr). exists nlb. eexists. split_and!; [done..|].
    rewrite Hd. unfold nlb_view, with_ip_version. simpl. do 2 f_equal.
    unfold generic_versions in Hv. by repeat (apply elem_of_cons in Hv as [->|Hv]; [done|]); apply elem_of_nil in Hv.
  - intros id d s o s1 Hd Hr.
    edestruct (invisible_effect _ _ nlb_Reader_frame nlb_Writer_frame _ workRequestToGenericWorkRequest
      nlb_condition_keeps nlb_view empty_nlb_view) as [H1 H2]; [|exact Hr|].
    + intros w o' w1 E. unfold work_request, mbind, M_bind in E. rewrite Hd in E.
      destruct (nsdk_UpdateNetworkLoadBalancer _ _ _ _ w) as [o1 w3] eqn:Es.
      apply nsdk_Update_law in Es as [Hlb Hwr].
      destruct o1 as [[wr|]| |]; injection E as <- <-; (split; [done|]); intros wr' Ho; try done.
      injection Ho as <-. destruct (Hwr _ eq_refl) as (nlb & f' & d' & Hl & Hw).
      by exists nlb, (nlb_with_details nlb "" f' d').
    + split; [exact H1|]. intros wr o2 s2 Ho Ha.
      unfold await, mbind, M_bind in Ha. destruct (LoadBalancer.AwaitWorkRequest wr s1) as [o3 s3] eqn:Ea.
      assert (s3 = s2) as <- by (by destruct o3; injection Ha as _ <-).
      exact (H2 wr _ _ Ho Ea).
  - intros x s o s' id Hr. destruct network_frames as (N1 & _). unfold nlb_service_view. by rewrite (N1 _ _ _ _ Hr).
  - intros x s o s' id Hr. destruct network_frames as (_ & N2 & _). unfold nlb_service_view. by rewrite (N2 _ _ _ _ Hr).
  - intros x y s o s' id Hr. destruct network_frames as (_ & _ & N3 & _). unfold nlb_service_view. by rewrite (N3 _ _ _ _ _ Hr).
  - intros x s o s' id Hr. destruct network_frames as (_ & _ & _ & N4 & _). unfold nlb_service_view. by rewrite (N4 _ _ _ _ Hr).
  - intros x e i g s o s' id Hr. destruct network_frames as (_ & _ & _ & _ & N5). unfold nlb_service_view. by rewrite (N5 _ _ _ _ _ _ _ Hr).
Defined.
(** C10: given the laws of the network load balancing service, the
    client implements the interface of the controller: every request that is accepted and
    whose work request is awaited has exactly the effect the interface promises, with the
    storage that the conversions of the client make. *)
Theorem nlb_service_refines :
  let _ := nlb_service_client in
  ∃ L : LbLaws S RS, lb_storage = nlb_service_storage ∧ ∀ s id, lb_view s id = nlb_service_view s.2 id.
Proof using network_frames NlbServiceLaws0. intros C. exists nlb_service_laws. by split. Qed.
End laws.

(** ** A service in memory *)

(** Load balancers, and the last work request; it takes effect when it is polled. *)
Record nlb_world := {
  nw_nlbs : gmap string NetworkLoadBalancer;
  nw_wr : option (string * NetworkLoadBalancer);
}.

Definition nlb_request (f : NetworkLoadBalancer → NetworkLoadBalancer) (id : string) : M nlb_world (option string) := λ w,
  match nw_nlbs w !! id with
  | Some nlb => (Ret (Some "wr"), {| nw_nlbs := nw_nlbs w; nw_wr := Some (id, f nlb) |})
  | None => (Err NotFoundErr, w)
  end.

Definition nlb_succeeded : NlbWorkRequest := {|
  nwr_Id := Some "wr"; nwr_OperationType := "UPDATE_LISTENER"; nwr_Status := "SUCCEEDED";
  nwr_CompartmentId := None; nwr_Resources := []; nwr_PercentComplete := Some "100" |}.

Definition nlb_limits : Limits nlb_world := {|
  Reader_TryAccept w := (true, w); Writer_TryAccept w := (true, w); poll_ticks _ := 120 |}.

Definition memory_nlb_sdk : NlbSdk nlb_world := {|
  nsdk_GetNetworkLoadBalancer id w := (from_option Ret (Err NotFoundErr) (nw_nlbs w !! id), w);
  nsdk_ListNetworkLoadBalancers _ n _ w :=
    (Ret (filter (λ nlb, nlb_DisplayName nlb = Some n) (map_to_list (nw_nlbs w)).*2, None), w);
  nsdk_CreateNetworkLoadBalancer _ _ := fail NotFoundErr; nsdk_DeleteNetworkLoadBalancer _ := fail NotFoundErr;
  nsdk_GetWorkRequest wr w :=
    match nw_wr w with
    | Some (id, nlb) =>
        if decide (wr = "wr")
        then (Ret nlb_succeeded, {| nw_nlbs := <[id := nlb]> (nw_nlbs w); nw_wr := nw_wr w |})
        else (Err NotFoundErr, w)
    | None => (Err NotFoundErr, w)
    end;
  nsdk_ListWorkRequests _ _ _ := mret ([], None);
  nsdk_CreateBackendSet id d := nlb_request (λ nlb, nlb_with_backend_set nlb (default "" (nbs_Name d)) (Some d)) id;
  nsdk_UpdateBackendSet id n d :=
    nlb_request (λ nlb, nlb_with_backend_set nlb n (Some (named_nlb_backend_set n d))) id;
  nsdk_DeleteBackendSet id n := nlb_request (λ nlb, nlb_with_backend_set nlb n None) id;
  nsdk_CreateListener id d := nlb_request (λ nlb, nlb_with_listener nlb (default "" (nl_Name d)) (Some d)) id;
  nsdk_UpdateListener id n d := nlb_request (λ nlb, nlb_with_listener nlb n (Some (named_nlb_listener n d))) id;
  nsdk_DeleteListener id n := nlb_request (λ nlb, nlb_with_listener nlb n None) id;
  nsdk_UpdateNetworkSecurityGroups id nsgs := nlb_request (λ nlb, nlb_with_nsgs nlb nsgs) id;
  nsdk_UpdateNetworkLoadBalancer id f d v := nlb_request (λ nlb, nlb_with_details nlb v f d) id;
|}.

Lemma nlb_request_law f id w wr w1 :
  nlb_request f id w = (Ret (Some wr), w1) →
  ∃ nlb, nw_nlbs w !! id = Some nlb ∧ (if decide (wr = "wr") then nw_wr w1 else None) = Some (id, f nlb).
Proof. unfold nlb_request. destruct (nw_nlbs w !! id) as [nlb|]; [|done]. intros [= <- <-]. by exists nlb. Qed.

Definition memory_nlb_laws : let _ := memory_nlb_sdk in let _ := nlb_limits in NlbServiceLaws nlb_world.
Proof.
  intros C L. apply (Build_NlbServiceLaws _ C L (λ w id, nw_nlbs w !! id)
    (λ w wr, if decide (wr = "wr") then nw_wr w else None)).
  - done.
  - done.
  - intros wr w o w' Hr. cbn in Hr. unfold as_before_or_done.
    destruct (nw_wr w) as [[id nlb]|] eqn:E in Hr; [|injection Hr as _ <-; by auto].
    destruct (decide (wr = "wr")); injection Hr as _ <-; simpl; [|by auto]. split; [done|]. intros id'. rewrite E.
    destruct (decide (id = id')) as [->|]; [rewrite lookup_insert_eq; eauto|rewrite lookup_insert_ne; auto].
  - intros wr w r w' id nlb Hr _ Hw. cbn in Hr. destruct (decide (wr = "wr")); [|done]. rewrite Hw in Hr.
    injection Hr as _ <-. simpl. by rewrite lookup_insert_eq.
  - intros id d n w wr w1 Hr Hn. apply nlb_request_law in Hr. by rewrite Hn in Hr.
  - intros id n d w wr w1. apply nlb_request_law.
  - intros id n w wr w1. apply (nlb_request_law (λ nlb, nlb_with_backend_set nlb n None)).
  - intros id d n w wr w1 Hr Hn. apply nlb_request_law in Hr. by rewrite Hn in Hr.
  - intros id n d w wr w1. apply nlb_request_law.
  - intros id n w wr w1. apply (nlb_request_law (λ nlb, nlb_with_listener nlb n None)).
  - intros id nsgs w wr w1. apply nlb_request_law.
  - intros id f d v w o w1 Hr. split.
    + cbn in Hr. unfold nlb_request in Hr. by destruct (nw_nlbs w !! id); injection Hr as _ <-.
    + intros wr ->. apply (nlb_request_law (λ nlb, nlb_with_details nlb v f d)) in Hr as (nlb & ? & ?). by exists nlb, f, d.
Defined.

(** ** The properties at concrete inputs *)

Definition unused_subnets {S} : SubnetClient S := {|
  GetSubnet _ := fail NotFoundErr; GetSubnetFromCacheByIP _ := mret None; GetPrimaryVNICForInstance _ _ := mret None |}.
Definition unused_lists {S} : SecurityListClient S := {|
  GetSecurityList _ := fail NotFoundErr; UpdateSecurityList _ _ _ _ := fail NotFoundErr |}.

Lemma nlb_service_refines_witness :
  let _ := memory_nlb_sdk in let _ := nlb_limits in
  let _ := unused_subnets (S := gmap string string * nlb_world) in
  let _ := unused_lists (S := gmap string string * nlb_world) in
  let _ := nlb_service_client in
  ∃ L : LbLaws (gmap string string * nlb_world) (), lb_storage = nlb_service_storage.
Proof.
  intros C Lim N1 N2 I. destruct (nlb_service_refines (RS := ()) (NlbServiceLaws0 := memory_nlb_laws)) as (L & Hst & _);
    [|by exists L].
  split_and!; [by intros id s o s' [= _ <-]|by intros ip s o s' [= _ <-]|by intros c i s o s' [= _ <-]
    |by intros id s o s' [= _ <-]|by intros id e i g s o s' [= _ <-]].
Defined.

Definition nlb_backend_set : GenericBackendSetDetails := {|
  bs_Name := None;
  bs_HealthChecker := Some {| hc_Protocol := "TCP"; hc_IsForcePlainText := Some false; hc_Port := Some 10256%Z;
    hc_UrlPath := Some "/healthz"; hc_Retries := Some 3%Z; hc_TimeoutInMillis := Some 3000%Z;
    hc_IntervalInMillis := Some 10000%Z; hc_ResponseBodyRegex := None; hc_ReturnCode := Some 200%Z |};
  bs_Policy := Some "FIVE_TUPLE"; bs_Backends := bs_Backends (example_backend_set "" ["10.0.0.1"] 30080);
  bs_SessionPersistenceConfiguration := None; bs_SslConfiguration := None;
  bs_IsPreserveSource := Some true; bs_IpVersion := Some GenericIPv4 |}.

Lemma nlb_service_in_sync_witness :
  backend_set_in_sync (st_backend_set nlb_service_storage "TCP-80" nlb_backend_set) nlb_backend_set ∧
  listener_in_sync (Some (∅ : gmap string ()))
    (st_listener nlb_service_storage "TCP-80" (example_listener "TCP" 80)) (example_listener "TCP" 80).
Proof.
  destruct (nlb_service_in_sync (RS := ())) as [Hb Hl]. split.
  - apply Hb. split_and!; [done|by eexists|]. by eexists.
  - apply Hl. split_and!; [done..|]. by eexists.
Defined.
