(* ===== verification/GoNet.v ===== *)
(** * Go net

    [net.ParseIP], the conversions [To4] and [To16], the text of an address, blocks of
    addresses and private addresses, as the Go library computes them; an address is a
    list of 16 bytes. *)
From stdpp Require Import base tactics list gmap sets strings.
From Stdlib Require Import Ascii.
From S2P Require Import Prelude GoStrings.

(** A field of an IPv4 address: a decimal number up to 255 without a leading zero. *)
Definition ipv4_field (s : string) : option Z :=
  v ← (if decide (s = "") then None else digits 0 s);
  if decide (v ≤ 255 ∧ (HasPrefix s "0" = false ∨ s = "0"))%Z then Some v else None.

Definition parseIPv4 (s : string) : option (list Z) :=
  fields ← mapM ipv4_field (split_on "." s);
  if decide (length fields = 4) then Some fields else None.

Definition hex_digit (c : ascii) : option Z :=
  let n := nat_of_ascii c in
  if decide (48 ≤ n ≤ 57) then Some (Z.of_nat (n - 48))
  else if decide (97 ≤ n ≤ 102) then Some (Z.of_nat (n - 87))
  else if decide (65 ≤ n ≤ 70) then Some (Z.of_nat (n - 55)) else None.

(** The hexadecimal digits at the start of [s], their value and the rest. *)
Fixpoint hex_number (acc : Z) (s : string) : nat * Z * string :=
  match s with
  | EmptyString => (0, acc, "")
  | String c s' =>
      match hex_digit c with
      | Some d => let '(n, v, rest) := hex_number (acc * 16 + d) s' in (S n, v, rest)
      | None => (0, acc, s)
      end
  end.

(** The loop of [parseIPv6]: [bytes] are those read so far, [ellipsis] where [::] was;
    what is answered are the bytes, the ellipsis and whether the text was used up. *)
Fixpoint ipv6_fields (fuel : nat) (s : string) (bytes : list Z) (ellipsis : option nat)
    : option (list Z * option nat) :=
  match fuel with
  | 0 => if decide (s = "") then Some (bytes, ellipsis) else None
  | S fuel =>
      let '(n, v, rest) := hex_number 0 s in
      if decide (n = 0 ∨ 4 < n) then None else
      match rest with
      | String "." _ =>
          if decide (ellipsis = None ∧ length bytes ≠ 12) then None
          else if decide (16 < length bytes + 4) then None
          else v4 ← parseIPv4 s; Some (bytes ++ v4, ellipsis)
      | EmptyString => Some (bytes ++ [v `div` 256; v `mod` 256]%Z, ellipsis)
      | String ":" rest =>
          let bytes := bytes ++ [v `div` 256; v `mod` 256]%Z in
          match rest with
          | EmptyString => None
          | String ":" rest =>
              match ellipsis with
              | Some _ => None
              | None => if decide (rest = "") then Some (bytes, Some (length bytes))
                        else ipv6_fields fuel rest bytes (Some (length bytes))
              end
          | _ => ipv6_fields fuel rest bytes ellipsis
          end
      | _ => None
      end
  end.

Definition zeros (n : nat) : list Z := replicate n 0%Z.

Definition parseIPv6 (s : string) : option (list Z) :=
  r ← match strip_prefix "::" s with
      | Some rest => if decide (rest = "") then Some ([], Some 0) else ipv6_fields 8 rest [] (Some 0)
      | None => ipv6_fields 8 s [] None
      end;
  let '(bytes, ellipsis) := r in
  if decide (length bytes < 16) then
    e ← ellipsis;
    Some (take e bytes ++ zeros (16 - length bytes) ++ drop e bytes)
  else match ellipsis with Some _ => None | None => Some bytes end.

Definition v4_prefix : list Z := zeros 10 ++ [255; 255]%Z.

(** [net.ParseIP]: the first of the bytes [.], [:] and [%] decides the family; an address
    with a zone is refused. *)
Fixpoint ip_family (s : string) : option ascii :=
  match s with
  | EmptyString => None
  | String c s' => if decide (c ∈ ["."; ":"; "%"]%char) then Some c else ip_family s'
  end.

Definition net_ParseIP (s : string) : option (list Z) :=
  match ip_family s with
  | Some "."%char => v4 ← parseIPv4 s; Some (v4_prefix ++ v4)
  | Some ":"%char => if has_byte "%" s then None else parseIPv6 s
  | _ => None
  end.

(** [IP.To4] and [IP.To16]; the address may be nil. *)
Definition To4 (ip : option (list Z)) : option (list Z) :=
  ip ← ip; if decide (take 12 ip = v4_prefix) then Some (drop 12 ip) else None.
Definition To16 (ip : option (list Z)) : option (list Z) := ip.

(** The groups of 16 bits of an address. *)
Fixpoint groups (ip : list Z) : list Z :=
  match ip with
  | hi :: lo :: ip => (hi * 256 + lo)%Z :: groups ip
  | _ => []
  end.

(** The length of the run of zeros at the start. *)
Fixpoint zero_run (gs : list Z) : nat :=
  match gs with
  | g :: gs => if decide (g = 0%Z) then S (zero_run gs) else 0
  | [] => 0
  end.

(** The first of the longest runs of at least two zero groups: position and length. *)
Fixpoint longest_run (pos : nat) (gs : list Z) (best : nat * nat) : nat * nat :=
  match gs with
  | [] => best
  | _ :: gs' =>
      let n := zero_run gs in
      longest_run (S pos) gs' (if decide (2 ≤ n ∧ best.2 < n) then (pos, n) else best)
  end.

Definition hex_char (d : Z) : ascii :=
  ascii_of_nat (Z.to_nat d + (if decide (d < 10)%Z then 48 else 87)).

(** [%x] of a group. *)
Definition hex_group (g : Z) : string :=
  if decide (g < 16)%Z then String (hex_char g) ""
  else if decide (g < 256)%Z then String (hex_char (g `div` 16)) (String (hex_char (g `mod` 16)) "")
  else if decide (g < 4096)%Z
  then String (hex_char (g `div` 256)) (String (hex_char ((g `div` 16) `mod` 16)) (String (hex_char (g `mod` 16)) ""))
  else String (hex_char (g `div` 4096)) (String (hex_char ((g `div` 256) `mod` 16))
         (String (hex_char ((g `div` 16) `mod` 16)) (String (hex_char (g `mod` 16)) ""))).

(** [IP.String] of 16 bytes. *)
Definition IP_String (ip : list Z) : string :=
  match To4 (Some ip) with
  | Some v4 => join "." (Itoa <$> v4)
  | None =>
      let gs := groups ip in
      let '(pos, n) := longest_run 0 gs (0, 0) in
      if decide (n = 0) then join ":" (hex_group <$> gs)
      else join ":" (hex_group <$> take pos gs) +:+ "::" +:+ join ":" (hex_group <$> drop (pos + n) gs)
  end.

(** ** Blocks of addresses *)

(** [net.IPNet]: the network, of 4 or 16 bytes, and a mask of the same length. *)
Record IPNet := {
  net_IP : list Z;
  net_Mask : list Z;
}.

(** [CIDRMask] of [len] bytes: a byte of which [k] bits are in the mask is [^byte(0xff >> k)]. *)
Definition CIDRMask (ones len : nat) : list Z :=
  (λ i, 255 - Z.shiftr 255 (Z.of_nat (8 `min` (ones - 8 * i))))%Z <$> seq 0 len.

Definition mask_bytes (ip mask : list Z) : list Z := zip_with Z.land ip mask.

(** [net.ParseCIDR], the network: the length of the prefix is at most that of an address
    of the family in which it is written. *)
Definition net_ParseCIDR (s : string) : option IPNet :=
  i ← Index s "/";
  let addr := String.substring 0 i s in
  let mask := String.substring (i + 1) (String.length s - (i + 1)) s in
  ip ← net_ParseIP addr;
  n ← (if decide (mask = "") then None else digits 0 mask);
  let len := if decide (ip_family addr = Some "."%char) then 4 else 16 in
  if decide (n ≤ 8 * Z.of_nat len)%Z then
    let m := CIDRMask (Z.to_nat n) len in
    Some {| net_IP := mask_bytes (drop (16 - len) ip) m; net_Mask := m |}
  else None.

(** The four bytes of an IPv4 address, also of one that is mapped into IPv6. *)
Definition shortest (ip : list Z) : list Z :=
  if decide (length ip = 16) then default ip (To4 (Some ip)) else ip.

(** [IPNet.Contains]; a nil address is in no block. *)
Definition Contains_IP (n : IPNet) (ip : option (list Z)) : bool :=
  match ip with
  | None => false
  | Some ip =>
      let nn := shortest (net_IP n) in
      let m := if decide (length nn = 4 ∧ length (net_Mask n) = 16) then drop 12 (net_Mask n) else net_Mask n in
      let x := shortest ip in
      bool_decide (length x = length nn ∧ mask_bytes nn m = mask_bytes x m)
  end.

(** [IP.IsPrivate]. *)
Definition IsPrivate (ip : list Z) : bool :=
  match To4 (Some ip) with
  | Some v4 =>
      let a := v4 !!! 0 in let b := v4 !!! 1 in
      bool_decide (a = 10 ∨ a = 172 ∧ Z.land b 240 = 16 ∨ a = 192 ∧ b = 168)%Z
  | None => let a := ip !!! 0 in bool_decide (Z.land a 254 = 252)%Z
  end.

Example in_block : (n ← net_ParseCIDR "10.0.16.0/20"; Some (Contains_IP n (net_ParseIP "10.0.31.9"))) = Some true ∧
  (n ← net_ParseCIDR "10.0.16.0/20"; Some (Contains_IP n (net_ParseIP "10.0.32.0"))) = Some false ∧
  (n ← net_ParseCIDR "fd00:c1::/33"; Some (Contains_IP n (net_ParseIP "fd00:c1:7fff::1"))) = Some true ∧
  (n ← net_ParseCIDR "fd00:c1::/33"; Some (Contains_IP n (net_ParseIP "fd00:c1:8000::1"))) = Some false ∧
  net_ParseCIDR "10.0.0.0/33" = None ∧ net_ParseCIDR "<null>" = None.
Proof. by vm_compute. Qed.
Example private_addresses : (IsPrivate <$> net_ParseIP "172.31.0.1") = Some true ∧
  (IsPrivate <$> net_ParseIP "172.32.0.1") = Some false ∧ (IsPrivate <$> net_ParseIP "fd00::1") = Some true ∧
  (IsPrivate <$> net_ParseIP "2603:c020::1") = Some false.
Proof. by vm_compute. Qed.

Example parse_v4 : To4 (net_ParseIP "169.254.2.2") = Some [169; 254; 2; 2]%Z.
Proof. by vm_compute. Qed.
Example parse_v6 : IP_String <$> net_ParseIP "fd00:00c1::a9fe:202" = Some "fd00:c1::a9fe:202".
Proof. by vm_compute. Qed.
Example parse_mapped : IP_String <$> net_ParseIP "::ffff:10.0.0.1" = Some "10.0.0.1".
Proof. by vm_compute. Qed.
Example parse_bad : net_ParseIP "1:2:3:4:5:6:7::8" = None ∧ net_ParseIP "10.0.0.01" = None ∧
  net_ParseIP "1:2:3:4:5:6:7:8::" = None ∧ net_ParseIP "fe80::1%eth0" = None.
Proof. by vm_compute. Qed.
