(* ===== verification/CsiUtil.v ===== *)
(** * Utilities of the CSI drivers (src/pkg/csi-util/utils.go)

    Sizes of volumes, performance levels, attributes of attachments, handles of file
    systems, addresses, locks, error messages and the metadata of nodes.  Functions that
    run commands on the host or read the environment are left out. *)
From stdpp Require Import base tactics list gmap sets strings.
From Stdlib Require Import Ascii.
From S2P Require Import Prelude GoStrings GoNet Types ClientErrors.

(** ** Integers *)

(** [int64(z)]. *)
Definition int64 (z : Z) : Z := (z + 2 ^ 63) `mod` 2 ^ 64 - 2 ^ 63.

Definition KiB : Z := 2 ^ 10.
Definition MiB : Z := 2 ^ 20.
Definition GiB : Z := 2 ^ 30.
Definition TiB : Z := 2 ^ 40.

Definition MinimumVolumeSizeInBytes : Z := 50 * GiB.
Definition MaximumVolumeSizeInBytes : Z := 32 * TiB.
Definition defaultVolumeSizeInBytes : Z := MinimumVolumeSizeInBytes.

Definition VpusPerGB : string := "vpusPerGB".
Definition LowCostPerformanceOption : Z := 0.
Definition MaxUltraHighPerformanceOption : Z := 120.
Definition IscsiIpv6Prefix : string := "fd00:00c1::".
Definition Ipv6Stack : string := "IPv6".
Definition Ipv4Stack : string := "IPv4".
Definition AvailabilityDomainLabel : string := "csi-ipv6-full-ad-name".
Definition LabelIpFamilyPreferred : string := "oci.oraclecloud.com/ip-family-preferred".
Definition LabelIpFamilyIpv4 : string := "oci.oraclecloud.com/ip-family-ipv4".
Definition LabelIpFamilyIpv6 : string := "oci.oraclecloud.com/ip-family-ipv6".
Definition LabelTopologyZone : string := "topology.kubernetes.io/zone".
Definition LabelZoneFailureDomain : string := "failure-domain.beta.kubernetes.io/zone".

(** gRPC codes. *)
Definition InvalidArgument : string := "InvalidArgument".
Definition OutOfRange : string := "OutOfRange".
Definition NotFound : string := "NotFound".
Definition Internal : string := "Internal".
Definition Unknown : string := "Unknown".
Definition AlreadyExists : string := "AlreadyExists".
Definition CodeDeadlineExceeded : string := "DeadlineExceeded".
Definition Unimplemented : string := "Unimplemented".

(** [status.Errorf]. *)
Definition status {W A} (code format : string) (args : list string) : M W A := fail (StatusError code format args).

(** ** Sizes *)

Definition MaxOfInt (a b : Z) : Z := if decide (b < a)%Z then a else b.

(** [float64(z)] for a 64-bit [z]: 53 significant bits, halves to even. *)
Definition round_half_even (n d : Z) : Z :=
  let q := (n `div` d)%Z in let r := (n `mod` d)%Z in
  if decide (2 * r < d)%Z then q else if decide (d < 2 * r)%Z then (q + 1)%Z
  else if decide (q `mod` 2 = 0)%Z then q else (q + 1)%Z.
Definition float64 (z : Z) : Z :=
  if decide (Z.abs z < 2 ^ 53)%Z then z
  else let unit := (2 ^ (Z.log2 (Z.abs z) - 52))%Z in (round_half_even z unit * unit)%Z.

(** [FormatFloat(n / d, 'f', 1, 64)] for a value that a float64 holds exactly, [d] a
    power of two. *)
Definition format_tenths (n d : Z) : string :=
  let t := round_half_even (Z.abs n * 10) d in
  (if decide (n < 0)%Z then "-" else "") +:+ Itoa (t `div` 10) +:+ "." +:+ Itoa (t `mod` 10).

Definition FormatBytes (inputBytes : Z) : string :=
  if decide (inputBytes = 0)%Z then "0" else
  let '(d, unit) :=
    if decide (TiB ≤ inputBytes)%Z then (TiB, "Ti") else if decide (GiB ≤ inputBytes)%Z then (GiB, "Gi")
    else if decide (MiB ≤ inputBytes)%Z then (MiB, "Mi") else if decide (KiB ≤ inputBytes)%Z then (KiB, "Ki")
    else (1%Z, "") in
  TrimSuffix (format_tenths (float64 inputBytes) d) ".0" +:+ unit.

(** [csi.CapacityRange]. *)
Record CapacityRange := {
  RequiredBytes : Z;
  LimitBytes : Z;
}.

Definition ExtractStorage (capRange : option CapacityRange) : outcome Z :=
  match capRange with
  | None => mret defaultVolumeSizeInBytes
  | Some capRange =>
      let requiredBytes := RequiredBytes capRange in
      let requiredSet := bool_decide (0 < requiredBytes)%Z in
      let limitBytes := LimitBytes capRange in
      let limitSet := bool_decide (0 < limitBytes)%Z in
      if negb requiredSet && negb limitSet then mret defaultVolumeSizeInBytes
      else if requiredSet && limitSet && bool_decide (limitBytes < requiredBytes)%Z
      then Err (Errorf "limit (%v) can not be less than required (%v) size"
                  [FormatBytes limitBytes; FormatBytes requiredBytes])
      else if requiredSet && negb limitSet then mret (MaxOfInt requiredBytes MinimumVolumeSizeInBytes)
      else if limitSet then mret (MaxOfInt limitBytes MinimumVolumeSizeInBytes)
      else if requiredSet && bool_decide (MaximumVolumeSizeInBytes < requiredBytes)%Z
      then Err (Errorf "required (%v) can not exceed maximum supported volume size (%v)"
                  [FormatBytes requiredBytes; FormatBytes MaximumVolumeSizeInBytes])
      else if negb requiredSet && limitSet && bool_decide (MaximumVolumeSizeInBytes < limitBytes)%Z
      then Err (Errorf "limit (%v) can not exceed maximum supported volume size (%v)"
                  [FormatBytes limitBytes; FormatBytes MaximumVolumeSizeInBytes])
      else if requiredSet && limitSet then mret (MaxOfInt requiredBytes limitBytes)
      else if requiredSet then mret requiredBytes
      else if limitSet then mret limitBytes
      else mret defaultVolumeSizeInBytes
  end.

(** The sum wraps around; the quotient is rounded towards zero. *)
Definition RoundUpSize (volumeSizeBytes allocationUnitBytes : Z) : Z :=
  Z.quot (int64 (int64 (volumeSizeBytes + allocationUnitBytes) - 1)) allocationUnitBytes.

Definition RoundUpMinSize : Z := RoundUpSize MinimumVolumeSizeInBytes (1 * GiB).

Definition ExtractBlockVolumePerformanceLevel (attribute : string) : outcome Z :=
  match Atoi attribute with
  | None => Err (StatusError "InvalidArgument" "unable to parse performance level value %s as int64" [attribute])
  | Some vpusPerGB =>
      if decide (vpusPerGB < LowCostPerformanceOption ∨ MaxUltraHighPerformanceOption < vpusPerGB)%Z
      then Err (StatusError "InvalidArgument" "invalid performance option : %s provided  for storage class. Supported values for performance options are between %d and %d"
                  [attribute; Itoa LowCostPerformanceOption; Itoa MaxUltraHighPerformanceOption])
      else mret vpusPerGB
  end.

Definition ValidateFsType (fsType : string) : string :=
  if decide (fsType = "ext4" ∨ fsType = "ext3" ∨ fsType = "xfs") then fsType else "ext4".

(** ** Attributes of an attachment *)

Definition ISCSIIQN : string := "iscci_iqn".
Definition ISCSIIP : string := "iscsi_ip".
Definition ISCSIPORT : string := "iscsi_port".

(** [disk.Disk]. *)
Record Disk := {
  disk_IQN : string;
  disk_IscsiIp : string;
  disk_Port : Z;
}.

Definition ExtractISCSIInformation (attributes : gmap string string) : outcome Disk :=
  match attributes !! ISCSIIQN, attributes !! ISCSIIP, attributes !! ISCSIPORT with
  | None, _, _ => Err (Errorf "unable to get the IQN from the attribute list" [])
  | _, None, _ => Err (Errorf "unable to get the iSCSIIp from the attribute list" [])
  | _, _, None => Err (Errorf "unable to get the port from the attribute list" [])
  | Some iqn, Some iSCSIIp, Some port =>
      match Atoi port with
      | None => Err (Errorf "invalid port number: %s, error: %v" [port])
      | Some nPort => mret {| disk_IQN := iqn; disk_IscsiIp := iSCSIIp; disk_Port := nPort |}
      end
  end.

(** ["zkJl:US-ASHBURN-AD-1"] becomes ["US-ASHBURN-AD-1"]. *)
Definition GetAvailableDomainInNodeLabel (fullAD : string) : string := default "" (last (split_on ":" fullAD)).

(** ** Handles of file systems *)

(** [strings.Trim(s, "[]")]. *)
Fixpoint trim_brackets_left (s : string) : string :=
  match s with
  | String c s' => if decide (c ∈ ["["; "]"]%char) then trim_brackets_left s' else s
  | EmptyString => ""
  end.
Definition trim_brackets (s : string) : string :=
  String.rev (trim_brackets_left (String.rev (trim_brackets_left s))).

Definition is_letter (c : ascii) : bool :=
  let n := nat_of_ascii c in bool_decide (65 ≤ n ≤ 90) || bool_decide (97 ≤ n ≤ 122).

Fixpoint all_bytes (p : ascii → bool) (s : string) : bool :=
  match s with EmptyString => true | String c s' => p c && all_bytes p s' end.

(** [^([a-zA-Z0-9]+(-[a-zA-Z0-9]+)*\.)+[a-zA-Z]{2,}$]: labels of alphanumeric words
    joined by dashes, then a name of at least two letters. *)
Definition dns_label (s : string) : bool :=
  forallb (λ w, negb (bool_decide (w = "")) && all_bytes is_alphanumeric w) (split_on "-" s).
Definition ValidateDNSName (name : string) : bool :=
  match rev (split_on "." name) with
  | tld :: label :: labels =>
      bool_decide (2 ≤ String.length tld) && all_bytes is_letter tld && forallb dns_label (label :: labels)
  | _ => false
  end.

Record FSSVolumeHandler := {
  FilesystemOcid : string;
  MountTargetIPAddress : string;
  FsExportPath : string;
}.

Definition ValidateFssId (id : string) : FSSVolumeHandler :=
  let empty := {| FilesystemOcid := ""; MountTargetIPAddress := ""; FsExportPath := "" |} in
  if decide (id = "") then empty else
  match Index id ":", LastIndex id ":" with
  | Some firstColon, Some lastColon =>
      if decide (0 < firstColon ∧ lastColon < String.length id - 1 ∧ firstColon ≠ lastColon) then
        let address := String.substring (firstColon + 1) (lastColon - (firstColon + 1)) id in
        if decide (is_Some (net_ParseIP (trim_brackets address)) ∨ ValidateDNSName address = true)
        then {| FilesystemOcid := String.substring 0 firstColon id; MountTargetIPAddress := address;
                FsExportPath := String.substring (lastColon + 1) (String.length id - (lastColon + 1)) id |}
        else empty
      else empty
  | _, _ => empty
  end.

(** ** Addresses *)

(** The last four bytes of the prefix are replaced by the IPv4 address. *)
Definition ConvertIscsiIpFromIpv4ToIpv6 (ipv4IscsiIp : string) : outcome string :=
  match To4 (net_ParseIP ipv4IscsiIp) with
  | None => Err (Errorf "invalid iSCSIIp identified %s" [ipv4IscsiIp])
  | Some v4 =>
      bytes ← deref (To16 (net_ParseIP IscsiIpv6Prefix));
      mret (IP_String (take 12 bytes ++ v4))
  end.

Definition FormatValidIp (ipAddress : string) : string :=
  if decide (is_Some (To4 (net_ParseIP ipAddress))) then ipAddress
  else if decide (is_Some (To16 (net_ParseIP ipAddress))) then "[" +:+ trim_brackets ipAddress +:+ "]"
  else ipAddress.

Definition FormatValidIpStackInK8SConvention (ipStack : string) : string :=
  if EqualFold ipStack Ipv4Stack then Ipv4Stack else if EqualFold ipStack Ipv6Stack then Ipv6Stack else ipStack.

Definition IsIpv4 (ipAddress : string) : bool := bool_decide (is_Some (To4 (net_ParseIP ipAddress))).
Definition IsIpv6 (ipAddress : string) : bool :=
  bool_decide (To4 (net_ParseIP ipAddress) = None) &&
  bool_decide (is_Some (To16 (net_ParseIP (trim_brackets ipAddress)))).

(** The fields of [core.Subnet] that are read here. *)
Record CsiSubnet := {
  cs_CidrBlock : option string;
  cs_Ipv6CidrBlock : option string;
  cs_Ipv6CidrBlocks : list string;
}.

Definition has_ipv4_cidr (subnet : CsiSubnet) : bool :=
  match cs_CidrBlock subnet with
  | Some cidr => bool_decide (0 < String.length cidr) && negb (Contains cidr "null")
  | None => false
  end.

Definition IsDualStackSubnet (subnet : CsiSubnet) : bool :=
  has_ipv4_cidr subnet &&
  (match cs_Ipv6CidrBlock subnet with Some b => bool_decide (0 < String.length b) | None => false end ||
   bool_decide (0 < length (cs_Ipv6CidrBlocks subnet))).
Definition IsIpv4SingleStackSubnet (subnet : CsiSubnet) : bool :=
  negb (IsDualStackSubnet subnet) && has_ipv4_cidr subnet.
Definition IsIpv6SingleStackSubnet (subnet : CsiSubnet) : bool :=
  negb (IsDualStackSubnet subnet) && negb (IsIpv4SingleStackSubnet subnet).

Definition IsValidIpFamilyPresentInClusterIpFamily (clusterIpFamily : string) : bool :=
  bool_decide (0 < String.length clusterIpFamily) &&
  (Contains clusterIpFamily Ipv4Stack || Contains clusterIpFamily Ipv6Stack).

(** ** Nodes *)

Record NodeMetadata := {
  PreferredNodeIpFamily : string;
  Ipv4Enabled : bool;
  Ipv6Enabled : bool;
  AvailabilityDomain : string;
  FullAvailabilityDomain : string;
  nm_NodeInternalIP : string;
  IsNodeMetadataLoaded : bool;
}.

Definition IsIpv6SingleStackNode (nodeMetadata : option NodeMetadata) : bool :=
  match nodeMetadata with
  | None => false
  | Some m => Ipv6Enabled m && negb (Ipv4Enabled m)
  end.

(** [CoreV1().Nodes().Get]. *)
Class KubeNodes (W : Type) := { Nodes_Get : string → M W Node }.

(** [k8sapierrors.IsNotFound]: only errors of the Kubernetes API have a reason. *)
Definition k8sapierrors_IsNotFound (err : option error) : bool :=
  match error_cause <$> err with Some (KubeNotFound _) => true | _ => false end.

Definition CompartmentIDAnnotation : string := "oci.oraclecloud.com/compartment-id".

Section nodes.
Context {W : Type} `{!KubeNodes W}.

Definition LookupNodeID (nodeName : string) : M W string :=
  r ← try (Nodes_Get nodeName);
  match r with
  | inl _ => fail (Errorf "fail to get the node %s" [nodeName])
  | inr n => if decide (node_ProviderID n = "") then fail (Errorf "missing provider id for node %s" [nodeName])
             else mret (node_ProviderID n)
  end.

(** src/pkg/util/commons.go. *)
Definition LookupNodeCompartment (nodeName : string) : M W string :=
  node ← Nodes_Get nodeName;
  match node_Annotations node !! CompartmentIDAnnotation with
  | Some compartmentID =>
      if decide (compartmentID ≠ "") then mret compartmentID
      else fail (Errorf "CompartmentID annotation is not present" [])
  | None => fail (Errorf "CompartmentID annotation is not present" [])
  end.

(** What the labels and addresses of a node say; [m] is what was known before.  A node
    without labels has nil labels. *)
Definition node_metadata (node : Node) (m : NodeMetadata) : NodeMetadata :=
  let internal := head (filter (λ a, addr_Type a = "InternalIP") (node_Addresses node)) in
  let labels := node_Labels node in
  let zone := match labels !! LabelTopologyZone with Some z => Some z | None => labels !! LabelZoneFailureDomain end in
  let enabled label := match labels !! label with Some v => EqualFold v "true" | None => false end in
  let v4 := Ipv4Enabled m || enabled LabelIpFamilyIpv4 in
  let v6 := Ipv6Enabled m || enabled LabelIpFamilyIpv6 in
  let preferred := match labels !! LabelIpFamilyPreferred with
                   | Some family => FormatValidIpStackInK8SConvention family
                   | None => PreferredNodeIpFamily m
                   end in
  {| PreferredNodeIpFamily := if negb v4 && negb v6 then Ipv4Stack else preferred;
     Ipv4Enabled := v4 || (negb v4 && negb v6); Ipv6Enabled := v6;
     AvailabilityDomain := if decide (labels = ∅) then AvailabilityDomain m else default "" zone;
     FullAvailabilityDomain := match zone with
                               | Some _ => default "" (labels !! AvailabilityDomainLabel)
                               | None => FullAvailabilityDomain m
                               end;
     nm_NodeInternalIP := match internal with Some a => addr_Address a | None => nm_NodeInternalIP m end;
     IsNodeMetadataLoaded := true |}.

(** The wait for the API server before is left out: it changes nothing and its answer is
    not read. *)
Definition LoadNodeMetadataFromApiServer (nodeID : string) (m : NodeMetadata) : M W NodeMetadata :=
  r ← try (Nodes_Get nodeID);
  match r with
  | inl _ => fail (Errorf "Failed to get node information from kube api server, please check if kube api server is accessible." [])
  | inr node => mret (node_metadata node m)
  end.
End nodes.

(** ** Locks on volumes *)

Abbreviation VolumeLocks := (gset string).
Definition NewVolumeLocks : VolumeLocks := ∅.
Definition VolumeLocks_TryAcquire (locks : VolumeLocks) (volumeID : string) : bool * VolumeLocks :=
  if decide (volumeID ∈ locks) then (false, locks) else (true, {[volumeID]} ∪ locks).
Definition VolumeLocks_Release (locks : VolumeLocks) (volumeID : string) : VolumeLocks := locks ∖ {[volumeID]}.

(** ** Error messages *)

(** The text of an error, and what the SDK knows of the service and the operation. *)
Class ErrorText := {
  Error : error → string;
  TargetService : error → string;
  OperationName : error → string;
}.

Section errors.
Context `{!ErrorText}.

Definition GetOCIServiceError (err : option error) : string :=
  match err with
  | None => ""
  | Some err =>
      match error_cause err with
      | ServiceError status code message =>
          "Error returned by " +:+ TargetService (error_cause err) +:+ " Service. Http Status Code: " +:+ Itoa status
          +:+ ". Error Code: " +:+ code +:+ ". Message: " +:+ message +:+ ". Operation Name: "
          +:+ OperationName (error_cause err)
      | _ => Error err
      end
  end.

(** A byte that continues a character of UTF-8. *)
Definition is_continuation (c : ascii) : bool := bool_decide (Z.land (Z.of_nat (nat_of_ascii c)) 192 = 128)%Z.

(** Where the text is cut: moved to the start of a character. *)
Fixpoint rune_start (s : string) (truncLen : nat) : nat :=
  match truncLen with
  | 0 => 0
  | S n => match String.get truncLen s with
           | Some c => if is_continuation c then rune_start s n else truncLen
           | None => truncLen
           end
  end.

(** [errors.New] of a text is [Errorf] without arguments. *)
Definition TruncateError (err : option error) (maxBytes : nat) : error :=
  match err with
  | None => Errorf "" []
  | Some err =>
      if decide (maxBytes = 0) then Errorf "" [] else
      let errorMsg := Error err in
      if decide (String.length errorMsg ≤ maxBytes) then err
      else if decide (maxBytes < 3) then Errorf (truncate maxBytes errorMsg) []
      else Errorf (truncate (rune_start errorMsg (maxBytes - 3)) errorMsg +:+ "...") []
  end.
End errors.
