(* ===== verification/CsiUtilFacts.v ===== *)
(** * Properties of the utilities of the CSI drivers

    Sizes of volumes and their overflow, messages that are cut, handles of file systems
    that are read back, and addresses. *)
From stdpp Require Import base tactics list gmap sets strings.
From Stdlib Require Import Ascii.
From S2P Require Import Prelude GoStrings GoNet Types ClientErrors CsiUtil.

(** ** Sizes *)

(** The size that is asked for: the limit if there is one, else what is required. *)
Definition asked_size (r : CapacityRange) : Z :=
  if decide (0 < LimitBytes r)%Z then LimitBytes r
  else if decide (0 < RequiredBytes r)%Z then RequiredBytes r else 0.

Lemma MaxOfInt_max a b : MaxOfInt a b = Z.max a b.
Proof. unfold MaxOfInt. case_decide; lia. Qed.

Lemma ExtractStorage_spec r :
  ExtractStorage (Some r) =
    if decide (0 < RequiredBytes r ∧ 0 < LimitBytes r ∧ LimitBytes r < RequiredBytes r)%Z
    then Err (Errorf "limit (%v) can not be less than required (%v) size"
                [FormatBytes (LimitBytes r); FormatBytes (RequiredBytes r)])
    else Ret (Z.max (asked_size r) MinimumVolumeSizeInBytes).
Proof.
  unfold ExtractStorage, asked_size, defaultVolumeSizeInBytes. rewrite !MaxOfInt_max.
  assert (0 < MinimumVolumeSizeInBytes)%Z as Hmin by done.
  destruct (decide (0 < RequiredBytes r)%Z), (decide (0 < LimitBytes r)%Z);
    rewrite ?(bool_decide_eq_true_2 (0 < RequiredBytes r)%Z), ?(bool_decide_eq_false_2 (0 < RequiredBytes r)%Z),
      ?(bool_decide_eq_true_2 (0 < LimitBytes r)%Z), ?(bool_decide_eq_false_2 (0 < LimitBytes r)%Z) by done; simpl.
  - destruct (decide (LimitBytes r < RequiredBytes r)%Z) as [Hl|Hl].
    + rewrite bool_decide_eq_true_2, decide_True by done. done.
    + rewrite bool_decide_eq_false_2, decide_False by tauto. done.
  - rewrite decide_False by tauto. done.
  - rewrite decide_False by tauto. done.
  - rewrite decide_False by tauto. rewrite Z.max_r by lia. done.
Qed.

(** A capacity range is refused exactly when its limit is below
    what it requires; otherwise the size is the limit, or else what is required, and at
    least 50 GiB: smaller sizes are raised, and sizes beyond the supported maximum of 32 TiB are accepted. *)
Lemma ExtractStorage_unchecked :
  (∀ r, (∃ e, ExtractStorage (Some r) = Err e) ↔
        (0 < RequiredBytes r ∧ 0 < LimitBytes r ∧ LimitBytes r < RequiredBytes r)%Z) ∧
  (∀ r size, ExtractStorage (Some r) = Ret size →
     size = Z.max (asked_size r) MinimumVolumeSizeInBytes ∧ (RequiredBytes r ≤ size)%Z ∧
     (size ≤ MaximumVolumeSizeInBytes ↔ asked_size r ≤ MaximumVolumeSizeInBytes)%Z).
Proof.
  split.
  - intros r. rewrite ExtractStorage_spec. case_decide as Hd.
    + split; [done|eauto].
    + split; [by intros [e He]|tauto].
  - intros r size. rewrite ExtractStorage_spec. case_decide as Hd; [done|]. intros [= <-].
    split; [done|].
    assert (0 < MinimumVolumeSizeInBytes ≤ MaximumVolumeSizeInBytes)%Z as Hmin by done.
    unfold asked_size. split; repeat case_decide; lia.
Qed.

Lemma int64_id z : (- 2 ^ 63 ≤ z < 2 ^ 63)%Z → int64 z = z.
Proof. intros Hz. unfold int64. rewrite Z.mod_small; lia. Qed.

Lemma RoundUpSize_exact size unit :
  (0 < unit)%Z → (0 ≤ size)%Z → (size + unit < 2 ^ 63)%Z → RoundUpSize size unit = ((size + unit - 1) `div` unit)%Z.
Proof.
  intros Hu Hs Hb. unfold RoundUpSize. rewrite (int64_id (size + unit)), int64_id by lia.
  apply Z.quot_div_nonneg; lia.
Qed.

Lemma RoundUpSize_wraps size unit :
  (0 < unit < 2 ^ 62)%Z → (size < 2 ^ 63)%Z → (2 ^ 63 < size + unit)%Z → (RoundUpSize size unit ≤ 0)%Z.
Proof.
  intros Hu Hs Hb. unfold RoundUpSize.
  assert (int64 (size + unit) = size + unit - 2 ^ 64)%Z as ->.
  { unfold int64. rewrite <-(Z.mod_unique (size + unit + 2 ^ 63) (2 ^ 64) 1 (size + unit - 2 ^ 63)); lia. }
  rewrite int64_id by lia. rewrite <-(Z.opp_involutive (_ - 1)), Z.quot_opp_l by lia.
  assert (0 ≤ Z.quot (- (size + unit - 2 ^ 64 - 1)) unit)%Z; [|lia]. apply Z.quot_pos; lia.
Qed.

(** Sizes in bytes are rounded up to the smallest number of units
    that holds them, as long as size and unit together fit in 64 bits; for the sizes above
    that the sum wraps around and the answer is not positive. *)
Lemma RoundUpSize_correct size :
  (0 ≤ size < 2 ^ 63)%Z →
  (size + GiB < 2 ^ 63 → RoundUpSize size (1 * GiB) = Z.opp ((- size) / GiB) ∧
     (RoundUpSize size (1 * GiB) - 1) * GiB < size ≤ RoundUpSize size (1 * GiB) * GiB)%Z ∧
  (2 ^ 63 < size + GiB → RoundUpSize size (1 * GiB) ≤ 0)%Z.
Proof.
  intros Hs. split; [|intros Hb; apply RoundUpSize_wraps; [done|lia..]].
  intros Hb. rewrite RoundUpSize_exact by (done || lia).
  assert (0 < GiB)%Z as Hg by done. rewrite Z.mul_1_l in *. revert Hb Hg. generalize GiB. intros g Hb Hg.
  pose proof (Z.div_mod (size + g - 1) g ltac:(lia)) as H1. pose proof (Z.mod_pos_bound (size + g - 1) g Hg).
  pose proof (Z.div_mod (- size) g ltac:(lia)) as H2. pose proof (Z.mod_pos_bound (- size) g Hg).
  split; nia.
Qed.

(** C38: A volume for which no size is asked gets the default of 50 GiB.  A capacity range
    within the supported sizes (whose limit, or else what it requires, is between 50 GiB
    and 32 TiB) is refused exactly when its limit is below what it requires; otherwise the
    size is the limit, or else what is required: no less than what is required, and no more
    than a limit.  In gibibytes it is rounded up to the least number that holds it, without
    overflow, between 50 and 32768. *)
Theorem ExtractStorage_supported :
  ExtractStorage None = Ret MinimumVolumeSizeInBytes ∧
  (∀ r, asked_size r = 0%Z → ExtractStorage (Some r) = Ret MinimumVolumeSizeInBytes) ∧
  (∀ r, (MinimumVolumeSizeInBytes ≤ asked_size r ≤ MaximumVolumeSizeInBytes)%Z →
     if decide (0 < LimitBytes r < RequiredBytes r)%Z then ∃ e, ExtractStorage (Some r) = Err e
     else ∃ size, ExtractStorage (Some r) = Ret size ∧ size = asked_size r ∧
       (RequiredBytes r ≤ size ∧ (0 < LimitBytes r → size ≤ LimitBytes r) ∧
        let gb := RoundUpSize size (1 * GiB) in (gb - 1) * GiB < size ≤ gb * GiB ∧ 50 ≤ gb ≤ 32768)%Z).
Proof.
  assert (0 < MinimumVolumeSizeInBytes)%Z as Hmin by done. split; [done|]. split.
  - intros r Hr. rewrite ExtractStorage_spec, Hr, decide_False; [by rewrite Z.max_r by lia|].
    revert Hr. unfold asked_size. repeat case_decide; lia.
  - intros r Hr. rewrite ExtractStorage_spec. assert (RequiredBytes r ≤ asked_size r ∨ 0 < LimitBytes r < RequiredBytes r)%Z as Hreq.
    { unfold asked_size. repeat case_decide; lia. }
    assert (0 < LimitBytes r → asked_size r = LimitBytes r)%Z as Hlim by (intros Hl; unfold asked_size; by rewrite decide_True).
    case_decide as Hd; [rewrite decide_True by lia; eauto|rewrite decide_False by lia]. exists (asked_size r).
    split; [by rewrite Z.max_l by lia|]. split; [done|]. split; [lia|]. split; [lia|].
    unfold MinimumVolumeSizeInBytes, MaximumVolumeSizeInBytes in Hr.
    destruct (RoundUpSize_correct (asked_size r)) as [Hok _]; [unfold GiB, TiB in *; lia|].
    destruct Hok as [_ Hok]; [unfold GiB, TiB in *; lia|]. cbv zeta. split; [done|]. unfold GiB, TiB in *. lia.
Qed.

(** One gibibyte and a byte more than 50. *)
Lemma ExtractStorage_supported_witness :
  let r := {| RequiredBytes := 51 * 1024 * 1024 * 1024 + 1; LimitBytes := 0 |} in
  ∃ size, ExtractStorage (Some r) = Ret size ∧ size = (51 * 1024 * 1024 * 1024 + 1)%Z ∧ RoundUpSize size (1 * GiB) = 52%Z.
Proof.
  intros r. destruct (proj2 (proj2 ExtractStorage_supported) r) as (size & Hs & -> & _); [by vm_compute|].
  eexists. split; [exact Hs|]. split; reflexivity.
Defined.

(** ** Messages *)

Section messages.
Context `{!ErrorText}.

Lemma rune_start_le s n : rune_start s n ≤ n.
Proof.
  induction n as [|n IH]; simpl; [done|]. destruct (String.get (S n) s) as [c|]; [|done].
  destruct (is_continuation c); lia.
Qed.

Lemma rune_start_spec s n :
  rune_start s n = 0 ∨ ∀ c, String.get (rune_start s n) s = Some c → is_continuation c = false.
Proof.
  induction n as [|n IH]; simpl; [by left|]. destruct (String.get (S n) s) as [c|] eqn:E.
  - destruct (is_continuation c) eqn:Ec; [done|]. right. intros c'. rewrite E. by intros [= <-].
  - right. by rewrite E.
Qed.

(** A message is kept when it has at most [maxBytes] bytes;
    otherwise it is replaced by a prefix of it, cut at the start of a character and
    followed by three dots, of at most [maxBytes] bytes. *)
Lemma TruncateError_correct err maxBytes :
  (∀ text, Error (Errorf text []) = text) → 3 ≤ maxBytes →
  let e := TruncateError (Some err) maxBytes in
  String.length (Error e) ≤ maxBytes ∧
  (String.length (Error err) ≤ maxBytes → e = err) ∧
  (maxBytes < String.length (Error err) →
   ∃ n, Error e = truncate n (Error err) +:+ "..." ∧
     (n = 0 ∨ ∀ c, String.get n (Error err) = Some c → is_continuation c = false)).
Proof.
  intros Htext Hmax e. unfold e, TruncateError. rewrite decide_False by lia.
  case_decide as Hl; [split_and!; [done|done|lia]|]. rewrite decide_False by lia. rewrite Htext. split_and!.
  - rewrite length_append. simpl.
    pose proof (length_truncate (rune_start (Error err) (maxBytes - 3)) (Error err)).
    pose proof (rune_start_le (Error err) (maxBytes - 3)). lia.
  - lia.
  - intros _. eexists. split; [done|]. apply rune_start_spec.
Qed.
End messages.

(** ** Handles of file systems *)

Lemma Index_split s c i :
  Index s c = Some i → ∃ a b, s = a +:+ String c b ∧ String.length a = i ∧ has_byte c a = false.
Proof.
  revert i. induction s as [|d s IH]; intros i Hi; [done|]. simpl in Hi. case_decide as Hd.
  - injection Hi as <-. subst. by exists "", s.
  - apply fmap_Some in Hi as (j & Hj & ->). apply IH in Hj as (a & b & -> & <- & Ha).
    exists (String d a), b. split_and!; [done..|]. simpl. by rewrite bool_decide_eq_false_2.
Qed.

Lemma Index_app a c b : has_byte c a = false → Index (a +:+ String c b) c = Some (String.length a).
Proof.
  induction a as [|d a IH]; simpl; [by rewrite decide_True|]. intros [Hd Ha]%orb_false_elim.
  apply bool_decide_eq_false in Hd. by rewrite decide_False, IH.
Qed.

Lemma LastIndex_none s c : has_byte c s = false → LastIndex s c = None.
Proof.
  induction s as [|d s IH]; simpl; [done|]. intros [Hd Hs]%orb_false_elim. apply bool_decide_eq_false in Hd.
  by rewrite (IH Hs), decide_False.
Qed.

Lemma LastIndex_split s c i :
  LastIndex s c = Some i → ∃ a b, s = a +:+ String c b ∧ String.length a = i ∧ has_byte c b = false.
Proof.
  revert i. induction s as [|d s IH]; intros i Hi; [done|]. simpl in Hi. destruct (LastIndex s c) as [j|] eqn:E.
  - injection Hi as <-. destruct (IH j eq_refl) as (a & b & -> & <- & Hb). by exists (String d a), b.
  - case_decide as Hd; [|done]. injection Hi as <-. subst. exists "", s. split_and!; [done..|].
    clear IH. induction s as [|d s IH]; [done|]. simpl in E. destruct (LastIndex s c); [done|].
    case_decide as Hd; [done|]. simpl. by rewrite bool_decide_eq_false_2, IH.
Qed.

Lemma LastIndex_app a c b : has_byte c b = false → LastIndex (a +:+ String c b) c = Some (String.length a).
Proof.
  intros Hb. induction a as [|d a IH]; simpl; [|by rewrite IH]. by rewrite (LastIndex_none _ _ Hb), decide_True.
Qed.

Lemma substring_app a b c : String.substring (String.length a) (String.length b) (a +:+ b +:+ c) = b.
Proof.
  induction a as [|d a IH]; simpl; [|done]. induction b as [|d b IH]; simpl; [by destruct c|]. by f_equal.
Qed.

Lemma append_prefix a b a' b' :
  a +:+ b = a' +:+ b' → String.length a ≤ String.length a' → ∃ m, a' = a +:+ m ∧ b = m +:+ b'.
Proof.
  revert a'. induction a as [|d a IH]; intros a' E Hl; [by exists a'|].
  destruct a' as [|d' a']; simpl in Hl; [lia|]. injection E as <- E.
  destruct (IH _ E) as (m & -> & ->); [lia|]. by exists m.
Qed.

(** An address that is accepted: of either family, or a name. *)
Definition mount_target (address : string) : Prop :=
  is_Some (net_ParseIP (trim_brackets address)) ∨ ValidateDNSName address = true.

Definition fss_handle (ocid address path : string) : string := ocid +:+ ":" +:+ address +:+ ":" +:+ path.

(** A handle made of an OCID without colons, an address and a
    path without colons is split into these parts, also when the address is an IPv6
    address with colons; and a handle that is accepted is made of its parts. *)
Lemma ValidateFssId_roundtrip :
  (∀ ocid address path,
     ocid ≠ "" → path ≠ "" → has_byte ":" ocid = false → has_byte ":" path = false → mount_target address →
     ValidateFssId (fss_handle ocid address path)
     = {| FilesystemOcid := ocid; MountTargetIPAddress := address; FsExportPath := path |}) ∧
  (∀ id, let h := ValidateFssId id in FilesystemOcid h ≠ "" →
     id = fss_handle (FilesystemOcid h) (MountTargetIPAddress h) (FsExportPath h) ∧
     FsExportPath h ≠ "" ∧ has_byte ":" (FilesystemOcid h) = false ∧ has_byte ":" (FsExportPath h) = false ∧
     mount_target (MountTargetIPAddress h)).
Proof.
  assert (∀ a m b,
    let id := a +:+ ":" +:+ m +:+ ":" +:+ b in
    String.substring 0 (String.length a) id = a ∧
    String.substring (String.length a + 1) (String.length (a +:+ ":" +:+ m) - (String.length a + 1)) id = m ∧
    String.substring (String.length (a +:+ ":" +:+ m) + 1)
      (String.length id - (String.length (a +:+ ":" +:+ m) + 1)) id = b) as Hparts.
  { intros a m b id. unfold id. rewrite !length_append. simpl String.length. split_and!.
    - pose proof (substring_app "" a (":" +:+ m +:+ ":" +:+ b)) as H. exact H.
    - pose proof (substring_app (a +:+ ":") m (":" +:+ b)) as H. rewrite length_append, <-append_assoc in H.
      etrans; [|exact H]. f_equal; simpl; lia.
    - pose proof (substring_app (a +:+ ":" +:+ m +:+ ":") b "") as H.
      rewrite append_nil_r, <-!append_assoc, !length_append in H.
      etrans; [|exact H]. f_equal; simpl; lia. }
  split.
  - intros ocid address path Ho Hp Ho2 Hp2 Hm. unfold ValidateFssId, fss_handle.
    destruct (Hparts ocid address path) as (H1 & H2 & H3).
    set (id := ocid +:+ ":" +:+ address +:+ ":" +:+ path) in *.
    assert (Index id ":" = Some (String.length ocid)) as ->
      by exact (Index_app ocid ":" (address +:+ ":" +:+ path) Ho2).
    assert (LastIndex id ":" = Some (String.length (ocid +:+ ":" +:+ address))) as ->.
    { unfold id. rewrite (append_assoc ":"), (append_assoc ocid). by apply (LastIndex_app (ocid +:+ ":" +:+ address)). }
    rewrite decide_False by (by destruct ocid).
    rewrite decide_True.
    + rewrite H1, H2, H3. by rewrite decide_True.
    + unfold id. rewrite !length_append. simpl. destruct ocid, path; simpl; try done. lia.
  - intros id h Hh. unfold h in *. clear h. unfold ValidateFssId in *. case_decide; [done|].
    destruct (Index id ":") as [i|] eqn:Ei; [|done]. destruct (LastIndex id ":") as [j|] eqn:Ej; [|done].
    case_decide as Hc; [|done]. cbv zeta in Hh |- *. destruct Hc as (Hi0 & Hj & Hij).
    apply Index_split in Ei as (a & rest & E1 & <- & Ha). apply LastIndex_split in Ej as (pre & b & E2 & <- & Hb).
    assert (∃ m, pre = a +:+ ":" +:+ m) as [m ->].
    { destruct (decide (String.length a ≤ String.length pre)) as [Hle|Hle].
      - rewrite E1 in E2. apply append_prefix in E2 as (m & -> & Em); [|done].
        destruct m as [|c m]; [by rewrite append_nil_r in Hij|]. injection Em as <- _. by exists m.
      - exfalso. rewrite E1 in E2. symmetry in E2. apply append_prefix in E2 as (m & -> & Em); [|lia].
        destruct m as [|c m]; [rewrite append_nil_r in Hij; lia|]. injection Em as <- _.
        rewrite has_byte_app in Ha. apply orb_false_elim in Ha as [_ Ha]. by vm_compute in Ha. }
    rewrite <-!append_assoc in E2. simpl in E2.
    assert (id = a +:+ ":" +:+ m +:+ ":" +:+ b) as -> by exact E2.
    destruct (Hparts a m b) as (H1 & H2 & H3). rewrite H1, H2, H3 in *. clear E1 E2.
    case_decide as Hm; [|done]. simpl in *. split_and!; [done| |done..].
    intros ->. rewrite !length_append in Hj. simpl in Hj. lia.
Qed.

(** ** The properties at concrete inputs *)

Lemma RoundUpSize_correct_witness :
  RoundUpSize (50 * GiB + 1) (1 * GiB) = 51%Z ∧ (RoundUpSize (2 ^ 63 - 1) (1 * GiB) ≤ 0)%Z.
Proof.
  split.
  - destruct (RoundUpSize_correct (50 * GiB + 1)) as [H _]; [done|]. by destruct H as [-> _].
  - by destruct (RoundUpSize_correct (2 ^ 63 - 1)) as [_ H]; [done|apply H].
Defined.

(** Texts of errors without arguments. *)
Definition plain_text : ErrorText := {|
  Error e := match e with Errorf text _ => text | _ => "" end; TargetService _ := ""; OperationName _ := "" |}.

Lemma TruncateError_correct_witness :
  let _ := plain_text in
  String.length (Error (TruncateError (Some (Errorf "a message" [])) 5)) ≤ 5.
Proof. intros T. by apply (TruncateError_correct (Errorf "a message" []) 5); [|lia]. Defined.

Lemma ValidateFssId_roundtrip_witness :
  ValidateFssId "ocid1.filesystem:[fd00:c1::a9fe:202]:/export"
  = {| FilesystemOcid := "ocid1.filesystem"; MountTargetIPAddress := "[fd00:c1::a9fe:202]"; FsExportPath := "/export" |}.
Proof.
  apply (proj1 ValidateFssId_roundtrip "ocid1.filesystem" "[fd00:c1::a9fe:202]" "/export"); [done..|].
  left. vm_compute. by eexists.
Defined.
