(* ===== verification/StorageClient.v ===== *)
(** * The clients of block storage, volume attachments and identity (src/pkg/oci/client)

    block_storage.go, volume_attachment.go, the parts of compute.go and identity.go that
    the volume controllers call, and helpers of utils.go.  The SDK is the class
    [StorageSdk]; its types are records with the fields that are read and written here. *)
From stdpp Require Import base tactics list gmap sets strings.
From S2P Require Import Prelude GoStrings ClientErrors ClientCalls CsiUtil.

(** ** Types of the SDK *)

Record Volume := {
  vol_Id : option string;
  vol_DisplayName : option string;
  vol_CompartmentId : option string;
  vol_AvailabilityDomain : option string;
  vol_LifecycleState : string;
  vol_SizeInGBs : option Z;
  vol_SizeInMBs : option Z;
  vol_IsHydrated : option bool;
}.

Record BootVolume := { bv_Id : option string }.

Record VolumeBackup := {
  vb_Id : option string;
  vb_DisplayName : option string;
  vb_VolumeId : option string;
  vb_LifecycleState : string;
  vb_SizeInMBs : option Z;
  vb_TimeCreated : option Z;
  vb_TimeRequestReceived : option Z;
}.

(** [core.VolumeSourceDetails]. *)
Inductive VolumeSource :=
| FromVolumeBackup (id : string)
| FromVolume (id : string).

Record CreateVolumeDetails := {
  cvd_AvailabilityDomain : string;
  cvd_CompartmentId : string;
  cvd_DisplayName : string;
  cvd_SizeInGBs : option Z;
  cvd_SizeInMBs : option Z;
  cvd_VpusPerGB : option Z;
  cvd_SourceDetails : option VolumeSource;
  cvd_KmsKeyId : option string;
  cvd_FreeformTags : gmap string string;
  cvd_DefinedTags : gmap string (gmap string string);
}.

Record UpdateVolumeDetails := {
  uvd_DisplayName : option string;
  uvd_SizeInGBs : Z;
}.

Record CreateVolumeBackupDetails := {
  cbd_VolumeId : string;
  cbd_Type : string;
  cbd_DisplayName : string;
  cbd_FreeformTags : gmap string string;
  cbd_DefinedTags : gmap string (gmap string string);
}.

(** What only [core.IScsiVolumeAttachment] has. *)
Record IScsiDetails := {
  iscsi_Iqn : option string;
  iscsi_Ipv4 : option string;
  iscsi_Port : option Z;
  iscsi_MultipathDevices : list (string * string * Z);
}.

(** [core.VolumeAttachment]; [va_iscsi] is [None] for the other kinds of attachment. *)
Record VolumeAttachment := {
  va_Id : option string;
  va_InstanceId : option string;
  va_VolumeId : option string;
  va_CompartmentId : option string;
  va_LifecycleState : string;
  va_IsShareable : option bool;
  va_IsMultipath : option bool;
  va_Device : option string;
  va_IscsiLoginState : string;
  va_iscsi : option IScsiDetails;
}.

(** [core.AttachIScsiVolumeDetails] and [core.AttachParavirtualizedVolumeDetails]: the
    latter has a setting for encryption in transit. *)
Record AttachVolumeDetails := {
  avd_InstanceId : string;
  avd_VolumeId : string;
  avd_IsShareable : bool;
  avd_Device : option string;
  avd_IsPvEncryptionInTransitEnabled : option bool;
}.

(** [core.Instance]: [instance.LaunchOptions.IsPvEncryptionInTransitEnabled]. *)
Record Instance_ := { inst_PvEncryption : option (option bool) }.

Class StorageSdk (W : Type) := {
  ssdk_GetVolume : string → M W Volume;
  ssdk_GetBootVolume : string → M W BootVolume;
  ssdk_GetVolumeBackup : string → M W VolumeBackup;
  ssdk_CreateVolume : CreateVolumeDetails → M W Volume;
  ssdk_CreateVolumeBackup : CreateVolumeBackupDetails → M W VolumeBackup;
  ssdk_UpdateVolume : string → UpdateVolumeDetails → M W Volume;
  ssdk_DeleteVolume : string → M W ();
  ssdk_DeleteVolumeBackup : string → M W ();
  ssdk_ListVolumes : string → string → option string → M W (list Volume * option string);
  ssdk_ListVolumeBackups : string → string → option string → M W (list VolumeBackup * option string);
  ssdk_ListVolumeAttachments :
    string → string → option string → option string → M W (list VolumeAttachment * option string);
  ssdk_GetVolumeAttachment : string → M W VolumeAttachment;
  ssdk_AttachVolume : AttachVolumeDetails → M W VolumeAttachment;
  ssdk_DetachVolume : string → M W ();
  ssdk_ListInstanceDevices : string → M W (list (option string));
  ssdk_GetInstance : string → M W Instance_;
  ssdk_ListAvailabilityDomains : string → M W (list (option string));
  rand_Intn : nat → W → nat;
}.

Definition VolumeAvailable : string := "AVAILABLE".
Definition VolumeProvisioning : string := "PROVISIONING".
Definition BackupCreating : string := "CREATING".
Definition failed_states : list string := ["FAULTY"; "TERMINATED"; "TERMINATING"].
Definition Attaching : string := "ATTACHING".
Definition Attached : string := "ATTACHED".
Definition Detaching : string := "DETACHING".
Definition Detached : string := "DETACHED".
Definition LogoutSucceeded : string := "LOGOUT_SUCCEEDED".

(** Intervals in seconds. *)
Definition volumePollInterval : Z := 5.
Definition volumeBackupPollInterval : Z := 5.
Definition volumeClonePollInterval : Z := 10.
Definition attachmentPollInterval : Z := 10.

Definition providerPrefix : string := "oci://".
Definition MapProviderIDToInstanceID (providerID : string) : string :=
  if HasPrefix providerID providerPrefix then TrimPrefix providerID providerPrefix else providerID.

Definition IsBootVolume (ocid : string) : bool := Contains ocid ".bootvolume.".

(** src/pkg/csi-util/utils.go. *)
Definition ShortenContextBeforeDeadline (parent : context) (buffer : Z) : context :=
  match parent with
  | None => None
  | Some timeLeft => if decide (timeLeft - buffer ≤ 0)%Z then Some 0%Z else Some (timeLeft - buffer)%Z
  end.

Section client.
Context {W : Type} `{!StorageSdk W, !Limits W}.

(** ** block_storage.go *)

Definition GetVolume (id : string) : M W Volume := limited false "GetVolume" (ssdk_GetVolume id).
Definition GetBootVolume (id : string) : M W BootVolume := limited false "GetBootVolume" (ssdk_GetBootVolume id).
Definition GetVolumeBackup (id : string) : M W VolumeBackup :=
  limited false "GetVolumeBackup" (ssdk_GetVolumeBackup id).

(** The condition that is polled: an error worth repeating is not an answer, and a state
    decides. *)
Definition poll_state {A} (get : M W A) (decision : A → outcome bool) : M W (option A) :=
  r ← try get;
  match r with
  | inl err => if IsRetryable (Some err) then mret None else fail err
  | inr a => done ← lift (decision a); mret (if done : bool then Some a else None)
  end.

Definition volume_available (vol : Volume) : outcome bool :=
  let state := vol_LifecycleState vol in
  if decide (state = VolumeAvailable) then mret true
  else if decide (state ∈ failed_states)
  then Err (Errorf "volume did not become available (lifecycleState=%q)" [state])
  else mret false.

Definition AwaitVolumeAvailableORTimeout (ctx : context) (id : string) : M W Volume :=
  PollImmediateUntil ctx volumePollInterval (poll_state (GetVolume id) volume_available).

Definition backup_available (backup : VolumeBackup) : outcome bool :=
  let state := vb_LifecycleState backup in
  if decide (state = VolumeAvailable) then mret true
  else if decide (state ∈ failed_states)
  then Err (Errorf "snapshot did not become available (lifecycleState=%q)" [state])
  else mret false.

Definition AwaitVolumeBackupAvailableOrTimeout (ctx : context) (id : string) : M W VolumeBackup :=
  PollImmediateUntil ctx volumeBackupPollInterval (poll_state (GetVolumeBackup id) backup_available).

(** A nil [IsHydrated] panics. *)
Definition volume_hydrated (volume : Volume) : outcome bool :=
  let state := vol_LifecycleState volume in
  if decide (state = VolumeAvailable) then deref (vol_IsHydrated volume)
  else if decide (state ∈ failed_states)
  then hydrated ← deref (vol_IsHydrated volume);
       Err (Errorf "Volume did not become available and hydrated (lifecycleState=%q) (hydrationStatus=%v)"
              [state; if hydrated : bool then "true" else "false"])
  else mret false.

Definition AwaitVolumeHydratedOrTimeout (ctx : context) (id : string) : M W Volume :=
  PollImmediateUntil ctx volumeClonePollInterval (poll_state (GetVolume id) volume_hydrated).

Definition CreateVolume (details : CreateVolumeDetails) : M W Volume :=
  limited true "CreateVolume" (ssdk_CreateVolume details).
Definition CreateVolumeBackup (details : CreateVolumeBackupDetails) : M W VolumeBackup :=
  limited true "CreateSnapshot" (ssdk_CreateVolumeBackup details).
Definition UpdateVolume (volumeId : string) (details : UpdateVolumeDetails) : M W Volume :=
  limited true "UpdateVolume" (ssdk_UpdateVolume volumeId details).
Definition DeleteVolume (id : string) : M W () := limited true "DeleteVolume" (ssdk_DeleteVolume id).
Definition DeleteVolumeBackup (id : string) : M W () := limited true "DeleteSnapshot" (ssdk_DeleteVolumeBackup id).

Definition live_volume (volume : Volume) : Prop :=
  vol_LifecycleState volume = VolumeAvailable ∨ vol_LifecycleState volume = VolumeProvisioning.
#[global] Instance live_volume_dec volume : Decision (live_volume volume).
Proof. unfold live_volume. apply _. Defined.

Definition GetVolumesByName (fuel : nat) (volumeName compartmentID : string) : M W (list Volume) :=
  pages fuel (λ page, limited true "CreateVolume" (ssdk_ListVolumes compartmentID volumeName page))
    (λ acc items, mret (inl (acc ++ filter live_volume items))) [] None.

Definition live_backup (backup : VolumeBackup) : Prop :=
  vb_LifecycleState backup = VolumeAvailable ∨ vb_LifecycleState backup = BackupCreating.
#[global] Instance live_backup_dec backup : Decision (live_backup backup).
Proof. unfold live_backup. apply _. Defined.

Definition GetVolumeBackupsByName (fuel : nat) (snapshotName compartmentID : string) : M W (list VolumeBackup) :=
  pages fuel (λ page, limited true "CreateVolumeBackup" (ssdk_ListVolumeBackups compartmentID snapshotName page))
    (λ acc items, mret (inl (acc ++ filter live_backup items))) [] None.

(** ** volume_attachment.go *)

(** The first attachment that is not detached; one that is being detached is reported
    with [errNotFound]: the answer has both an attachment and an error. *)
Fixpoint first_attachment (items : list VolumeAttachment) : option (VolumeAttachment * option error) :=
  match items with
  | [] => None
  | attachment :: items =>
      let state := va_LifecycleState attachment in
      if decide (state = Attaching ∨ state = Attached) then Some (attachment, None)
      else if decide (state = Detaching) then Some (attachment, Some NotFoundErr)
      else first_attachment items
  end.

Definition FindVolumeAttachment (fuel : nat) (compartmentID volumeID : string) (instanceID : option string)
    : M W (option VolumeAttachment * option error) :=
  r ← try (pages fuel
        (λ page, limited false "ListVolumeAttachments" (ssdk_ListVolumeAttachments compartmentID volumeID instanceID page))
        (λ _ items, mret (match first_attachment items with Some r => inr (Some r) | None => inl None end)) None None);
  mret match r with
       | inl err => (None, Some err)
       | inr (Some (attachment, err)) => (Some attachment, err)
       | inr None => (None, Some NotFoundErr)
       end.

Definition GetVolumeAttachment (id : string) : M W VolumeAttachment :=
  limited false "GetVolumeAttachment" (ssdk_GetVolumeAttachment id).

(** A device path among those that are free, at random. *)
Definition getDevicePath (instanceID : string) : M W (option string) :=
  items ← ssdk_ListInstanceDevices instanceID;
  if decide (length items = 0)
  then fail (Errorf "Max number of volumes are already attached to instance %s. Please schedule workload on different node." [instanceID])
  else λ w, (index items (rand_Intn (length items) w), w).

Definition AttachVolume (instanceID volumeID : string) (isShareable : bool) : M W VolumeAttachment :=
  writer_limited (RateLimitError false "")
    (device ← (if IsBootVolume volumeID then mret None else getDevicePath instanceID);
     ssdk_AttachVolume {| avd_InstanceId := instanceID; avd_VolumeId := volumeID; avd_IsShareable := isShareable;
                          avd_Device := device; avd_IsPvEncryptionInTransitEnabled := None |}).

Definition AttachParavirtualizedVolume (instanceID volumeID : string)
    (isPvEncryptionInTransitEnabled isShareable : bool) : M W VolumeAttachment :=
  writer_limited (RateLimitError false "")
    (device ← getDevicePath instanceID;
     ssdk_AttachVolume {| avd_InstanceId := instanceID; avd_VolumeId := volumeID; avd_IsShareable := isShareable;
                          avd_Device := device;
                          avd_IsPvEncryptionInTransitEnabled := Some isPvEncryptionInTransitEnabled |}).

Definition attachment_attached (va : VolumeAttachment) : outcome bool :=
  let state := va_LifecycleState va in
  if decide (state = Attached) then mret true
  else if decide (state = Detaching ∨ state = Detached)
  then id ← deref (va_Id va); Err (Errorf "attachment %q in lifecycle state %q" [id; state])
  else mret false.

Definition WaitForVolumeAttached (ctx : context) (id : string) : M W VolumeAttachment :=
  PollImmediateUntil ctx attachmentPollInterval (poll_state (GetVolumeAttachment id) attachment_attached).

Definition DetachVolume (id : string) : M W () :=
  writer_limited (RateLimitError false "DetachVolume") (ssdk_DetachVolume id).

Definition WaitForVolumeDetached (ctx : context) (id : string) : M W () :=
  _ ← PollImmediateUntil ctx attachmentPollInterval
        (poll_state (GetVolumeAttachment id) (λ va, mret (bool_decide (va_LifecycleState va = Detached))));
  mret ().

Definition live_attachment (va : VolumeAttachment) : Prop :=
  va_LifecycleState va = Attaching ∨ va_LifecycleState va = Attached ∨ va_LifecycleState va = Detaching.
#[global] Instance live_attachment_dec va : Decision (live_attachment va).
Proof. unfold live_attachment. apply _. Defined.

Definition ListVolumeAttachments (fuel : nat) (compartmentID volumeID : string) : M W (list VolumeAttachment) :=
  attachments ← pages fuel
    (λ page, limited false "ListVolumeAttachments" (ssdk_ListVolumeAttachments compartmentID volumeID None page))
    (λ acc items, mret (inl (acc ++ filter live_attachment items))) [] None;
  if decide (length attachments = 0) then fail NotFoundErr else mret attachments.

Definition WaitForUHPVolumeLoggedOut (ctx : context) (attachmentID : string) : M W () :=
  _ ← PollImmediateUntil ctx attachmentPollInterval
        (poll_state (GetVolumeAttachment attachmentID)
           (λ va, mret (bool_decide (va_IscsiLoginState va = LogoutSucceeded))));
  mret ().

(** ** compute.go and identity.go *)

Definition GetInstance (id : string) : M W Instance_ := limited false "GetInstance" (ssdk_GetInstance id).

Definition listAvailabilityDomains (compartmentID : string) : M W (list (option string)) :=
  ssdk_ListAvailabilityDomains compartmentID.

Definition ListAvailabilityDomains (compartmentID : string) : M W (list (option string)) :=
  limited false "ListAvailabilityDomains" (ssdk_ListAvailabilityDomains compartmentID).

(** The first availability domain whose name ends with [name]; a nil name panics. *)
Fixpoint find_domain (name : string) (ads : list (option string)) : outcome (option string) :=
  match ads with
  | [] => mret None
  | ad :: ads =>
      full ← deref ad;
      if HasSuffix (ToLower full) (ToLower name) then mret (Some full) else find_domain name ads
  end.

Definition GetAvailabilityDomainByName (compartmentID name : string) : M W string :=
  limited false "ListAvailabilityDomains"
    (availabilityDomains ← listAvailabilityDomains compartmentID;
     found ← lift (find_domain name availabilityDomains);
     match found with
     | Some ad => mret ad
     | None => fail (Errorf "availability domain '%s' not found in list: %v" (name :: omap id availabilityDomains))
     end).
End client.
