(* ===== verification/BlockVolume.v ===== *)
(** * The controller of the block volume CSI driver (src/pkg/csi/driver/bv_controller.go)

    Every request of the controller service: creating, deleting, attaching, detaching and
    expanding block volumes, and snapshots, over the clients of [StorageClient].  A
    handler answers a response or an error with a gRPC code.  Metrics and log messages are
    left out. *)
From stdpp Require Import base tactics list gmap sets strings.
From Stdlib Require Import Ascii.
From S2P Require Import Prelude GoStrings Types ClientErrors ClientCalls Annotations CsiUtil StorageClient.

Definition fsTypeKeyDeprecated : string := "fstype".
Definition kmsKey : string := "kms-key-id".
Definition attachmentType : string := "attachment-type".
Definition attachmentTypeISCSI : string := "iscsi".
Definition attachmentTypeParavirtualized : string := "paravirtualized".
Definition initialFreeformTagsOverride : string := "oci.oraclecloud.com/initial-freeform-tags-override".
Definition initialDefinedTagsOverride : string := "oci.oraclecloud.com/initial-defined-tags-override".
Definition backupType : string := "backupType".
Definition backupTypeFull : string := "full".
Definition backupTypeIncremental : string := "incremental".
Definition backupDefinedTags : string := "oci.oraclecloud.com/defined-tags".
Definition backupFreeformTags : string := "oci.oraclecloud.com/freeform-tags".
Definition needResize : string := "needResize".
Definition newSize : string := "newSize".
Definition multipathEnabled : string := "multipathEnabled".
Definition multipathDevices : string := "multipathDevices".
Definition device : string := "device".
Definition MaxDefinedTagPerVolume : nat := 64.
Definition maxVolumeAttachDetachErrorMsgBytes : nat := 1024.

(** ** Requests and responses *)

Inductive AccessType := Block | Mount | NoAccessType.
#[global] Instance AccessType_eq_dec : EqDecision AccessType.
Proof. solve_decision. Defined.

Definition SINGLE_NODE_WRITER : string := "SINGLE_NODE_WRITER".
Definition MULTI_NODE_MULTI_WRITER : string := "MULTI_NODE_MULTI_WRITER".

(** [csi.VolumeCapability]; a nil access mode reads as UNKNOWN. *)
Record VolumeCapability := {
  cap_AccessType : AccessType;
  cap_AccessMode : option string;
}.
Definition cap_Mode (cap : VolumeCapability) : string := default "UNKNOWN" (cap_AccessMode cap).

Definition supportedVolumeCapabilities : list VolumeCapability :=
  [{| cap_AccessType := Mount; cap_AccessMode := Some SINGLE_NODE_WRITER |};
   {| cap_AccessType := Block; cap_AccessMode := Some SINGLE_NODE_WRITER |};
   {| cap_AccessType := Block; cap_AccessMode := Some MULTI_NODE_MULTI_WRITER |}].
Definition supportedBootVolumeCapabilities : list VolumeCapability :=
  [{| cap_AccessType := Block; cap_AccessMode := Some SINGLE_NODE_WRITER |}].

(** [csi.VolumeContentSource]. *)
Inductive ContentSource :=
| SourceSnapshot (snapshotId : option string)
| SourceVolume (volumeId : option string)
| SourceOther.

Record TopologyRequirement := {
  Preferred : list (gmap string string);
  Requisite : list (gmap string string);
}.

Record CreateVolumeRequest := {
  cvr_Name : string;
  cvr_VolumeCapabilities : list VolumeCapability;
  cvr_CapacityRange : option CapacityRange;
  cvr_Parameters : gmap string string;
  cvr_VolumeContentSource : option ContentSource;
  cvr_AccessibilityRequirements : option TopologyRequirement;
}.

(** [csi.Volume]. *)
Record CsiVolume := {
  cv_VolumeId : string;
  cv_CapacityBytes : Z;
  cv_AccessibleTopology : list (gmap string string);
  cv_VolumeContext : gmap string string;
  cv_ContentSource : option ContentSource;
}.

Record CsiSnapshot := {
  sn_SnapshotId : string;
  sn_SourceVolumeId : string;
  sn_SizeBytes : Z;
  sn_CreationTime : Z;
  sn_ReadyToUse : bool;
}.

(** ** Parameters *)

(** [json.Unmarshal] of tags (JSON null is a nil map) and [json.Marshal] of devices. *)
Class TagJson := {
  json_freeform : string → error + option (gmap string string);
  json_defined : string → error + option (gmap string (gmap string string));
  json_devices : list (string * string * Z) → error + string;
}.

Record VolumeParameters := {
  vp_diskEncryptionKey : string;
  vp_attachmentParameter : gmap string string;
  vp_freeformTags : option (gmap string string);
  vp_definedTags : option (gmap string (gmap string string));
  vp_vpusPerGB : Z;
}.

Record VolumeAttachmentOption := {
  useParavirtualizedAttachment : bool;
  enableInTransitEncryption : bool;
  isShareable : bool;
  enforceLimit : bool;
  maxVolumeAttachments : Z;
}.

Record SnapshotParameters := {
  sp_backupType : string;
  sp_freeformTags : option (gmap string string);
  sp_definedTags : option (gmap string (gmap string string));
}.

(** [config.InitialTags], the parts that are read here. *)
Record VolumeTags := {
  vt_BlockVolume : option TagConfig;
  vt_Common : option TagConfig;
}.

(** [BlockVolumeControllerDriver]: its configuration and what it reads of the
    environment. *)
Record BlockVolumeControllerDriver := {
  d_CompartmentID : string;
  d_Tags : option VolumeTags;
  d_enableOkeSystemTags : bool;
  d_ipv6SingleStackCluster : bool;
}.

Section parameters.
Context `{!TagJson, !MapRange, !ErrorText}.

(** A setting of the storage class. *)
Definition volume_parameter (p : VolumeParameters) (kv : string * string) : outcome VolumeParameters :=
  let '(k, v) := kv in
  if decide (k = kmsKey) then
    mret (if decide (v = "") then p
          else {| vp_diskEncryptionKey := v; vp_attachmentParameter := vp_attachmentParameter p;
                  vp_freeformTags := vp_freeformTags p; vp_definedTags := vp_definedTags p;
                  vp_vpusPerGB := vp_vpusPerGB p |})
  else if decide (k = attachmentType) then
    let attachmentTypeLower := ToLower v in
    if decide (attachmentTypeLower ≠ attachmentTypeISCSI ∧ attachmentTypeLower ≠ attachmentTypeParavirtualized)
    then Err (StatusError InvalidArgument "invalid attachment-type: %s provided for storageclass. supported attachment-types are %s and %s"
                [v; attachmentTypeISCSI; attachmentTypeParavirtualized])
    else mret {| vp_diskEncryptionKey := vp_diskEncryptionKey p;
                 vp_attachmentParameter := <[attachmentType := attachmentTypeLower]> (vp_attachmentParameter p);
                 vp_freeformTags := vp_freeformTags p; vp_definedTags := vp_definedTags p;
                 vp_vpusPerGB := vp_vpusPerGB p |}
  else if decide (k = initialFreeformTagsOverride) then
    if decide (v = "") then mret p else
    match json_freeform v with
    | inl _ => Err (StatusError InvalidArgument "failed to parse freeform tags provided for storageclass. please check the parameters block on the storage class" [])
    | inr tags => mret {| vp_diskEncryptionKey := vp_diskEncryptionKey p;
                          vp_attachmentParameter := vp_attachmentParameter p; vp_freeformTags := tags;
                          vp_definedTags := vp_definedTags p; vp_vpusPerGB := vp_vpusPerGB p |}
    end
  else if decide (k = initialDefinedTagsOverride) then
    if decide (v = "") then mret p else
    match json_defined v with
    | inl _ => Err (StatusError InvalidArgument "failed to parse defined tags provided for storageclass. please check the parameters block on the storage class" [])
    | inr tags => mret {| vp_diskEncryptionKey := vp_diskEncryptionKey p;
                          vp_attachmentParameter := vp_attachmentParameter p;
                          vp_freeformTags := vp_freeformTags p; vp_definedTags := tags;
                          vp_vpusPerGB := vp_vpusPerGB p |}
    end
  else if decide (k = VpusPerGB) then
    match ExtractBlockVolumePerformanceLevel v with
    | Ret vpusPerGB => mret {| vp_diskEncryptionKey := vp_diskEncryptionKey p;
                               vp_attachmentParameter := vp_attachmentParameter p;
                               vp_freeformTags := vp_freeformTags p; vp_definedTags := vp_definedTags p;
                               vp_vpusPerGB := vpusPerGB |}
    | Err err => Err (StatusError InvalidArgument "%s" [Error err])
    | Panic => Panic
    end
  else mret p.

(** [for k, v := range m] with early return. *)
Fixpoint fold_params {P} (step : P → string * string → outcome P) (p : P) (l : list (string * string)) : outcome P :=
  match l with
  | [] => mret p
  | kv :: l => p ← step p kv; fold_params step p l
  end.

Definition default_volume_parameters : VolumeParameters := {|
  vp_diskEncryptionKey := ""; vp_attachmentParameter := ∅; vp_freeformTags := None; vp_definedTags := None;
  vp_vpusPerGB := 10 |}.

Definition extractVolumeParameters (site : nat) (parameters : gmap string string) : outcome VolumeParameters :=
  fold_params volume_parameter default_volume_parameters (range site parameters).

Definition BackupTypeFull : string := "FULL".
Definition BackupTypeIncremental : string := "INCREMENTAL".

Definition snapshot_parameter (p : SnapshotParameters) (kv : string * string) : outcome SnapshotParameters :=
  let '(k, v) := kv in
  let with_type t := {| sp_backupType := t; sp_freeformTags := sp_freeformTags p; sp_definedTags := sp_definedTags p |} in
  if decide (k = backupType) then
    let backupTypeLower := ToLower v in
    if decide (backupTypeLower = backupTypeIncremental) then mret (with_type BackupTypeIncremental)
    else if decide (backupTypeLower = backupTypeFull) then mret (with_type BackupTypeFull)
    else Err (StatusError InvalidArgument "invalid backupType: %s provided in volumesnapshotclass. supported backupType are %s and %s"
                [v; backupTypeIncremental; backupTypeFull])
  else if decide (k = backupFreeformTags) then
    if decide (v = "") then mret p else
    match json_freeform v with
    | inl _ => Err (StatusError InvalidArgument "failed to parse freeform tags provided in volumesnapshotclass. please check the parameters block on the volume snapshot class" [])
    | inr tags => mret {| sp_backupType := sp_backupType p; sp_freeformTags := tags; sp_definedTags := sp_definedTags p |}
    end
  else if decide (k = backupDefinedTags) then
    if decide (v = "") then mret p else
    match json_defined v with
    | inl _ => Err (StatusError InvalidArgument "failed to parse defined tags provided in volumesnapshotclass. please check the parameters block on the volume snapshot class" [])
    | inr tags => mret {| sp_backupType := sp_backupType p; sp_freeformTags := sp_freeformTags p; sp_definedTags := tags |}
    end
  else mret p.

Definition extractSnapshotParameters (site : nat) (parameters : gmap string string) : outcome SnapshotParameters :=
  fold_params snapshot_parameter
    {| sp_backupType := BackupTypeIncremental; sp_freeformTags := None; sp_definedTags := None |}
    (range site parameters).

(** [validateCapabilities]. *)
Definition has_support (supportedCaps : list VolumeCapability) (cap : VolumeCapability) : bool :=
  existsb (λ m, bool_decide (cap_Mode cap = cap_Mode m) &&
                ((bool_decide (cap_AccessType cap = Block) && bool_decide (cap_AccessType m = Block)) ||
                 (bool_decide (cap_AccessType cap = Mount) && bool_decide (cap_AccessType m = Mount)))) supportedCaps.

Fixpoint validateCapabilities (caps supportedCaps : list VolumeCapability) : outcome () :=
  match caps with
  | [] => mret ()
  | cap :: caps =>
      if has_support supportedCaps cap then validateCapabilities caps supportedCaps
      else Err (Errorf "invalid volume capabilities requested: AccessMode=%s AccessType=%s"
                  [cap_Mode cap; match cap_AccessType cap with Block => "Block" | Mount => "Mount" | NoAccessType => "" end])
  end.

(** Tags of a new volume: those of the storage class if there are any, else those of the
    configuration; common tags are merged in. *)
Definition getBVTags (enableOkeSystemTags : bool) (tags : option VolumeTags) (vp : VolumeParameters) : TagConfig :=
  let bvTags := default {| tag_FreeformTags := ∅; tag_DefinedTags := ∅ |} (tags ≫= vt_BlockVolume) in
  let bvTags := match vp_freeformTags vp, vp_definedTags vp with
                | None, None => bvTags
                | f, d => {| tag_FreeformTags := default ∅ f; tag_DefinedTags := default ∅ d |}
                end in
  match tags ≫= vt_Common with
  | Some common => if enableOkeSystemTags then MergeTagConfig bvTags common else bvTags
  | None => bvTags
  end.

(** ** Choosing the availability domain *)

(** The loop over topologies: the first one that names a zone ends it. *)
Fixpoint pick_domain (short full : string) (topologies : list (gmap string string)) : string * string :=
  match topologies with
  | [] => (short, full)
  | t :: topologies =>
      let short := match t !! LabelTopologyZone with Some z => z | None => default "" (t !! LabelZoneFailureDomain) end in
      let full := match t !! AvailabilityDomainLabel with Some ad => replace_byte "."%char ":"%char ad | None => "" end in
      if decide (short = "") then pick_domain short full topologies else (short, full)
  end.

Definition choose_domain (requirements : option TopologyRequirement) (short full : string) : string * string :=
  match requirements with
  | None => (short, full)
  | Some r =>
      let '(short, full) := if decide (short = "") then pick_domain short full (Preferred r) else (short, full) in
      if decide (short = "") then pick_domain short full (Requisite r) else (short, full)
  end.
End parameters.

(** ** Handlers *)

Section handlers.
Context {W : Type} `{!StorageSdk W, !Limits W, !KubeNodes W, !TagJson, !MapRange, !ErrorText}.
Implicit Types (d : BlockVolumeControllerDriver) (ctx : context).

(** [status.Errorf], cutting long messages. *)
Definition truncated {A} (code format : string) (args : list string) : M W A :=
  fail (TruncateError (Some (StatusError code format args)) maxVolumeAttachDetachErrorMsgBytes).

Definition sized_details (volName : string) (volSize : Z) (availDomainName compartmentID backupID srcVolumeID kmsKeyID : string)
    (vpusPerGB : Z) (bvTags : TagConfig) : CreateVolumeDetails :=
  let volSizeGB := RoundUpSize volSize (1 * GiB) in
  let minSizeGB := RoundUpMinSize in
  let volSizeGB := if decide (volSizeGB < minSizeGB)%Z then minSizeGB else volSizeGB in
  {| cvd_AvailabilityDomain := availDomainName; cvd_CompartmentId := compartmentID; cvd_DisplayName := volName;
     cvd_SizeInGBs := Some volSizeGB; cvd_SizeInMBs := None; cvd_VpusPerGB := Some vpusPerGB;
     cvd_SourceDetails := if decide (backupID ≠ "") then Some (FromVolumeBackup backupID)
                          else if decide (srcVolumeID ≠ "") then Some (FromVolume srcVolumeID) else None;
     cvd_KmsKeyId := if decide (kmsKeyID = "") then None else Some kmsKeyID;
     cvd_FreeformTags := tag_FreeformTags bvTags;
     cvd_DefinedTags := if decide (MaxDefinedTagPerVolume < size (tag_DefinedTags bvTags))
                        then delete OkeSystemTagNamesapce (tag_DefinedTags bvTags) else tag_DefinedTags bvTags |}.

Definition provision (volName : string) (volSize : Z) (availDomainName compartmentID backupID srcVolumeID kmsKeyID : string)
    (vpusPerGB : Z) (bvTags : TagConfig) : M W Volume :=
  CreateVolume (sized_details volName volSize availDomainName compartmentID backupID srcVolumeID kmsKeyID vpusPerGB bvTags).

(** The checks of a request to create a volume: its size and its parameters. *)
Definition check_create_request (site : nat) (req : CreateVolumeRequest) : M W (Z * VolumeParameters) :=
  if decide (cvr_Name req = "") then status InvalidArgument "CreateVolume Name must be provided" [] else
  if decide (length (cvr_VolumeCapabilities req) = 0)
  then status InvalidArgument "VolumeCapabilities must be provided in CreateVolumeRequest" [] else
  _ ← report (lift (validateCapabilities (cvr_VolumeCapabilities req) supportedVolumeCapabilities))
        (λ err, status InvalidArgument "%s" [Error err]);
  size ← report (lift (ExtractStorage (cvr_CapacityRange req)))
        (λ err, status OutOfRange "invalid capacity range: %v" [Error err]);
  volumeParams ← report (lift (extractVolumeParameters site (cvr_Parameters req)))
        (λ err, status InvalidArgument "failed to parse storageclass parameters %v" [Error err]);
  if decide (Exists (λ cap, cap_AccessType cap = Block) (cvr_VolumeCapabilities req) ∧ (30 ≤ vp_vpusPerGB volumeParams)%Z)
  then status InvalidArgument "failed to support Block volumeMode for Ultra High Performance Volumes (vpusPerGB >= 30)" []
  else mret (size, volumeParams).

(** Where the content of a new volume comes from. *)
Record Source := {
  src_snapshotId : string;
  src_volumeId : string;
  src_short : string;
  src_full : string;
  src_resize : bool;
}.

Definition snapshot_source (id : string) (size : Z) : M W Source :=
  volumeBackup ← report (GetVolumeBackup id)
    (λ err, if k8sapierrors_IsNotFound (Some err) then status NotFound "Failed to get snapshot with ID %v" [id]
            else status Internal "Failed to fetch snapshot with ID %v with error %v" [id; Error err]);
  mbs ← lift (deref (vb_SizeInMBs volumeBackup));
  mret {| src_snapshotId := id; src_volumeId := ""; src_short := ""; src_full := "";
          src_resize := bool_decide (int64 (mbs * MiB) < size)%Z |}.

Definition volume_source d (id : string) (size : Z) : M W Source :=
  if IsBootVolume id then status InvalidArgument "Boot volume as data source is not supported" [] else
  srcBlockVolume ← report (GetVolume id)
    (λ err, if IsNotFound (Some err) then status NotFound "Failed to get volume with ID %v" [id]
            else status Internal "Failed to fetch volume with ID %v with error %v" [id; Error err]);
  short ← lift (deref (vol_AvailabilityDomain srcBlockVolume));
  mbs ← lift (deref (vol_SizeInMBs srcBlockVolume));
  mret {| src_snapshotId := ""; src_volumeId := id; src_short := short;
          src_full := if d_ipv6SingleStackCluster d then short else "";
          src_resize := bool_decide (int64 (mbs * MiB) < size)%Z |}.

Definition content_source d (source : option ContentSource) (size : Z) : M W Source :=
  match source with
  | None => mret {| src_snapshotId := ""; src_volumeId := ""; src_short := ""; src_full := ""; src_resize := false |}
  | Some SourceOther => status InvalidArgument "Unsupported volumeContentSource" []
  | Some (SourceSnapshot None) => status InvalidArgument "Error fetching snapshot from the volumeContentSource" []
  | Some (SourceSnapshot (Some id)) => snapshot_source id size
  | Some (SourceVolume None) => status InvalidArgument "Error fetching volume from the volumeContentSource" []
  | Some (SourceVolume (Some id)) => volume_source d id size
  end.

(** A new volume; when the system tags are refused it is tried again without them.  They
    are deleted from the tags in place, which the configuration may share: a request is
    modelled with the tags it starts from. *)
Definition create_new d (name : string) (size : Z) (volumeParams : VolumeParameters) (src : Source) (short full : string)
    : M W Volume :=
  full ← (if d_ipv6SingleStackCluster d then mret full
          else report (GetAvailabilityDomainByName (d_CompartmentID d) short)
                 (λ _, status InvalidArgument "invalid available domain: %s or compartment ID: %s" [short; d_CompartmentID d]));
  let bvTags := getBVTags (d_enableOkeSystemTags d) (d_Tags d) volumeParams in
  let run tags := provision name size full (d_CompartmentID d) (src_snapshotId src) (src_volumeId src)
                    (vp_diskEncryptionKey volumeParams) (vp_vpusPerGB volumeParams) tags in
  report
    (report (run bvTags)
       (λ err, if IsSystemTagNotFoundOrNotAuthorisedError (Some err)
               then run {| tag_FreeformTags := tag_FreeformTags bvTags;
                           tag_DefinedTags := delete OkeSystemTagNamesapce (tag_DefinedTags bvTags) |}
               else fail err))
    (λ err, status Internal "New volume creation failed %v" [Error err]).

(** The volume with the name of the request, if there is one, else a new one. *)
Definition find_or_create d (fuel : nat) (name : string) (size : Z) (volumeParams : VolumeParameters) (src : Source)
    (short full : string) : M W Volume :=
  volumes ← report (GetVolumesByName fuel name (d_CompartmentID d))
    (λ err, status Internal "failed to check existence of volume %v" [Error err]);
  match volumes with
  | [] => create_new d name size volumeParams src short full
  | [volume] => mret volume
  | _ => fail (Errorf "duplicate volume %q exists" [name])
  end.

Definition volume_context (size : Z) (volumeParams : VolumeParameters) (src : Source) : gmap string string :=
  <[VpusPerGB := Itoa (vp_vpusPerGB volumeParams)]>
  (<[attachmentType := default "" (vp_attachmentParameter volumeParams !! attachmentType)]>
  (<[newSize := if src_resize src then Itoa size else ""]>
  {[needResize := if src_resize src then "true" else "false"]})).

(** Fields of the answer that are nil panic. *)
Definition created_volume (req : CreateVolumeRequest) (volumeContext : gmap string string) (volume : Volume) : outcome CsiVolume :=
  id ← deref (vol_Id volume);
  mbs ← deref (vol_SizeInMBs volume);
  ad ← deref (vol_AvailabilityDomain volume);
  let zone := GetAvailableDomainInNodeLabel ad in
  mret {| cv_VolumeId := id; cv_CapacityBytes := int64 (mbs * MiB);
          cv_AccessibleTopology := [{[LabelTopologyZone := zone]}; {[LabelZoneFailureDomain := zone]}];
          cv_VolumeContext := volumeContext; cv_ContentSource := cvr_VolumeContentSource req |}.

Definition Controller_CreateVolume d (fuel site : nat) ctx (req : CreateVolumeRequest) : M W CsiVolume :=
  '(size, volumeParams) ← check_create_request site req;
  src ← content_source d (cvr_VolumeContentSource req) size;
  let '(short, full) := choose_domain (cvr_AccessibilityRequirements req) (src_short src) (src_full src) in
  if decide (short = "")
  then status InvalidArgument "(%s) or (%s) is required in PreferredTopologies or allowedTopologies" [LabelTopologyZone; LabelZoneFailureDomain]
  else
  volume ← find_or_create d fuel (cvr_Name req) size volumeParams src short full;
  id ← lift (deref (vol_Id volume));
  _ ← report (if decide (src_volumeId src ≠ "" ∨ src_snapshotId src ≠ "") then AwaitVolumeHydratedOrTimeout ctx id
              else AwaitVolumeAvailableORTimeout ctx id)
        (λ err, status CodeDeadlineExceeded "Create volume failed with time out %v" [Error err]);
  lift (created_volume req (volume_context size volumeParams src) volume).

(** A volume that is missing is deleted. *)
Definition Controller_DeleteVolume (volumeId : string) : M W () :=
  if decide (volumeId = "") then status InvalidArgument "DeleteVolume Volume ID must be provided" [] else
  report (DeleteVolume volumeId)
    (λ err, if IsNotFound (Some err) then mret ()
            else fail (Errorf "failed to delete volume, volumeId: %s, error: %v" [volumeId; Error err])).

(** ** Attaching *)

Definition getAttachmentOptions (attachType instanceID : string) (isShareable : bool) : M W VolumeAttachmentOption :=
  instance ← GetInstance instanceID;
  launchOptions ← lift (deref (inst_PvEncryption instance));
  encryption ← lift (deref launchOptions);
  mret {| useParavirtualizedAttachment := bool_decide (attachType = attachmentTypeParavirtualized);
          enableInTransitEncryption := encryption; isShareable := isShareable;
          enforceLimit := negb isShareable; maxVolumeAttachments := if isShareable then 32 else 1 |}.

(** What the node needs to know; an attachment of another kind panics. *)
Definition generatePublishContext (options : VolumeAttachmentOption) (attached : VolumeAttachment)
    (vpusPerGB needsResize expectedSize : string) : outcome (gmap string string) :=
  let multipath := match va_IsMultipath attached with Some true => "true" | _ => "false" end in
  let common (kind : string) : gmap string string :=
    <[attachmentType := kind]> (<[VpusPerGB := vpusPerGB]> (<[needResize := needsResize]>
    (<[newSize := expectedSize]> {[multipathEnabled := multipath]}))) in
  if useParavirtualizedAttachment options then
    dev ← deref (va_Device attached);
    mret (<[device := dev]> (common attachmentTypeParavirtualized))
  else
    iscsi ← deref (va_iscsi attached);
    devices ← (if decide (length (iscsi_MultipathDevices iscsi) = 0) then mret ""
               else of_sum (json_devices (iscsi_MultipathDevices iscsi)));
    iqn ← deref (iscsi_Iqn iscsi);
    ip ← deref (iscsi_Ipv4 iscsi);
    port ← deref (iscsi_Port iscsi);
    let publishContext := <[ISCSIIQN := iqn]> (<[ISCSIIP := ip]> (<[ISCSIPORT := Itoa port]>
                            (<[multipathDevices := devices]> (common attachmentTypeISCSI)))) in
    mret (match va_Device attached with Some dev => <[device := dev]> publishContext | None => publishContext end).

Record PublishRequest := {
  pr_VolumeId : string;
  pr_NodeId : string;
  pr_VolumeCapability : option VolumeCapability;
  pr_VolumeContext : gmap string string;
}.

(** Requests that boot volumes do not allow. *)
Definition check_boot_volume (req : PublishRequest) (cap : VolumeCapability) (attachType vpusPerGB : string) : M W () :=
  if IsBootVolume (pr_VolumeId req) then
    _ ← report (lift (validateCapabilities [cap] supportedBootVolumeCapabilities))
          (λ err, status InvalidArgument "%s" [Error err]);
    if decide (attachType = attachmentTypeParavirtualized)
    then status InvalidArgument "Paravirtualized attachment mode not supported for boot volumes" []
    else let vpusValue := default 0%Z (Atoi vpusPerGB) in
         if decide (10 < vpusValue)%Z
         then status InvalidArgument "Only Boot Volumes with balanced performance (10 vpus/gb) are supported. Boot volume %s has %v vpus/gb performance."
                [pr_VolumeId req; Itoa vpusValue]
         else mret ()
  else mret ().

(** The instance of the node, the options of the attachment, and the compartment. *)
Definition publish_options (req : PublishRequest) (cap : VolumeCapability) (shareable : bool)
    : M W (string * VolumeAttachmentOption * string * string) :=
  providerID ← report (LookupNodeID (pr_NodeId req))
    (λ err, truncated InvalidArgument "failed to get ProviderID by nodeName for node %s. error : %s"
              [pr_NodeId req; GetOCIServiceError (Some err)]);
  let id := MapProviderIDToInstanceID providerID in
  let attachType := default attachmentTypeISCSI (pr_VolumeContext req !! attachmentType) in
  let vpusPerGB := match pr_VolumeContext req !! VpusPerGB with
                   | Some v => if decide (v = "") then "10" else v
                   | None => "10"
                   end in
  _ ← check_boot_volume req cap attachType vpusPerGB;
  options ← report (getAttachmentOptions attachType id shareable)
    (λ err, truncated Internal "failed to get the attachment options for instance %s. error : %s" [id; GetOCIServiceError (Some err)]);
  if enableInTransitEncryption options && negb (useParavirtualizedAttachment options)
  then status InvalidArgument "node %s has in transit encryption enabled, but attachment type is not paravirtualized. invalid input" [id]
  else
  compartmentID ← report (LookupNodeCompartment (pr_NodeId req))
    (λ err, truncated Unknown "failed to get compartmentID from node annotation %s for node %s. error : %s"
              [CompartmentIDAnnotation; pr_NodeId req; GetOCIServiceError (Some err)]);
  mret (id, options, compartmentID, vpusPerGB).

(** The attachment to the instance [id], among shareable ones; a nil instance panics. *)
Fixpoint attachment_of (id : string) (attachments : list VolumeAttachment) : outcome (option VolumeAttachment) :=
  match attachments with
  | [] => mret None
  | a :: attachments =>
      instance ← deref (va_InstanceId a);
      if decide (instance = id) then mret (Some a) else attachment_of id attachments
  end.

(** All existing attachments of a shareable volume must be shareable. *)
Fixpoint all_shareable (volumeId id : string) (attachments : list VolumeAttachment) : outcome () :=
  match attachments with
  | [] => mret ()
  | a :: attachments =>
      shareable ← deref (va_IsShareable a);
      if shareable : bool then all_shareable volumeId id attachments
      else aid ← deref (va_Id a); instance ← deref (va_InstanceId a);
           Err (StatusError Internal "Failed to attach volume %s to node %s. The volume already has a non-shareable attachment %s to instance %s."
                  [volumeId; id; aid; instance])
  end.

Definition publish_context (req : PublishRequest) (id vpusPerGB : string) (options : VolumeAttachmentOption)
    (attached : VolumeAttachment) : M W (gmap string string) :=
  report (lift (generatePublishContext options attached vpusPerGB (default "" (pr_VolumeContext req !! needResize))
                  (default "" (pr_VolumeContext req !! newSize))))
    (λ err, truncated Internal "Failed to generate publish context for volume %s attachment request to instance %s. error : %s"
              [pr_VolumeId req; id; GetOCIServiceError (Some err)]).

(** The attachment to this node is awaited. *)
Definition reuse_attachment ctx (req : PublishRequest) (id vpusPerGB : string) (options : VolumeAttachmentOption)
    (node : VolumeAttachment) : M W (option (gmap string string)) :=
  nodeId ← lift (deref (va_Id node));
  node ← (if decide (va_LifecycleState node = Attaching)
          then report (WaitForVolumeAttached ctx nodeId)
                 (λ err, truncated Internal "Failed to attach volume %s to the instance %s. error: %s"
                           [pr_VolumeId req; id; GetOCIServiceError (Some err)])
          else mret node);
  if decide (va_LifecycleState node = Attached)
  then context ← publish_context req id vpusPerGB options node; mret (Some context)
  else mret None.

(** The volume is attached somewhere: either it is attached to this node already, or
    what is answered is [None] and it may be attached. *)
Definition existing_attachment ctx (req : PublishRequest) (id vpusPerGB : string) (options : VolumeAttachmentOption)
    (first : VolumeAttachment) (attachments : list VolumeAttachment) : M W (option (gmap string string)) :=
  firstId ← lift (deref (va_Id first));
  answer ← (
    if decide (isShareable options = false ∧ va_LifecycleState first = Detaching) then
      instance ← lift (deref (va_InstanceId first));
      _ ← report (WaitForVolumeDetached ctx firstId)
            (λ err, truncated Internal "Error while waiting for volume %s to get detached from instance %s before attaching to new instance. error: %s"
                      [pr_VolumeId req; instance; GetOCIServiceError (Some err)]);
      mret None
    else
      node ← (if isShareable options then lift (attachment_of id attachments)
              else instance ← lift (deref (va_InstanceId first));
                   if decide (instance = id) then mret (Some first)
                   else status Internal "Failed to attach volume to node. The volume is already attached to another node." []);
      match node with
      | None => mret None
      | Some node => reuse_attachment ctx req id vpusPerGB options node
      end);
  match answer with
  | Some context => mret (Some context)
  | None => if isShareable options then _ ← lift (all_shareable (pr_VolumeId req) id attachments); mret None else mret None
  end.

Definition attach_new ctx (req : PublishRequest) (id vpusPerGB : string) (options : VolumeAttachmentOption)
    : M W (gmap string string) :=
  attachment ←
    (if useParavirtualizedAttachment options
     then report (AttachParavirtualizedVolume id (pr_VolumeId req) (enableInTransitEncryption options) (isShareable options))
            (λ err, truncated Internal "failed paravirtualized volume attachment for volume %s to instance %s. error : %s"
                      [pr_VolumeId req; id; GetOCIServiceError (Some err)])
     else report (AttachVolume id (pr_VolumeId req) (isShareable options))
            (λ err, truncated Internal "failed iscsi volume attachment for volume %s to instance %s. error :  %s"
                      [pr_VolumeId req; id; GetOCIServiceError (Some err)]));
  attachmentId ← lift (deref (va_Id attachment));
  attached ← report (WaitForVolumeAttached ctx attachmentId)
    (λ err, truncated Internal "Error occurred while waiting for volume %s to get attached to instance %s. error : %s"
              [pr_VolumeId req; id; GetOCIServiceError (Some err)]);
  publish_context req id vpusPerGB options attached.

Definition ControllerPublishVolume (fuel : nat) ctx (req : PublishRequest) : M W (gmap string string) :=
  if decide (pr_VolumeId req = "") then status InvalidArgument "Volume ID must be provided" [] else
  if decide (pr_NodeId req = "") then status InvalidArgument "Node ID must be provided" [] else
  match pr_VolumeCapability req with
  | None => status InvalidArgument "Volume capability must be provided" []
  | Some cap =>
      let shareable := bool_decide (cap_AccessMode cap = Some MULTI_NODE_MULTI_WRITER) in
      '(id, options, compartmentID, vpusPerGB) ← publish_options req cap shareable;
      attachments ← report (ListVolumeAttachments fuel compartmentID (pr_VolumeId req))
        (λ err, if IsNotFound (Some err) then mret []
                else truncated Internal "Failed to list volume attachments for volume %s. error :  %s"
                       [pr_VolumeId req; GetOCIServiceError (Some err)]);
      match attachments with
      | [] => attach_new ctx req id vpusPerGB options
      | first :: _ =>
          existing ← existing_attachment ctx req id vpusPerGB options first attachments;
          match existing with
          | Some context => mret context
          | None => attach_new ctx req id vpusPerGB options
          end
      end
  end.

(** ** Detaching *)

(** The attachment is detached, unless that is under way, and awaited. *)
Definition detach ctx (volumeId instanceID : string) (attached : VolumeAttachment) : M W () :=
  _ ← (if decide (va_LifecycleState attached = Detaching) then mret ()
       else _ ← lift (deref (va_InstanceId attached));
            id ← lift (deref (va_Id attached));
            report (DetachVolume id)
              (λ err, truncated Internal "failed to detach volume %s from instance %s. error : %s"
                        [volumeId; instanceID; GetOCIServiceError (Some err)]));
  _ ← lift (deref (va_InstanceId attached));
  id ← lift (deref (va_Id attached));
  _ ← report (WaitForVolumeDetached ctx id)
    (λ err, truncated Unknown "timed out waiting for volume %s to get detached from instance %s. error %s"
              [volumeId; instanceID; GetOCIServiceError (Some err)]);
  match va_IsMultipath attached with
  | Some true =>
      let ctx := match ctx with Some timeLeft => Some (Z.min timeLeft 90) | None => Some 90%Z end in
      _ ← try (WaitForUHPVolumeLoggedOut ctx id); mret ()
  | _ => mret ()
  end.

(** A node that is gone has nothing attached; the error of a missing provider id is only
    logged. *)
Definition ControllerUnpublishVolume (fuel : nat) ctx (volumeId nodeId : string) : M W () :=
  if decide (volumeId = "") then status InvalidArgument "Volume ID must be provided" [] else
  r ← try (LookupNodeCompartment nodeId);
  match r with
  | inl err =>
      if k8sapierrors_IsNotFound (Some err) then mret ()
      else truncated Unknown "failed to get compartmentID from node annotation %s for node %s. error : %s"
             [CompartmentIDAnnotation; nodeId; GetOCIServiceError (Some err)]
  | inr compartmentID =>
      r ← try (LookupNodeID nodeId);
      let instanceID := MapProviderIDToInstanceID (match r with inl _ => "" | inr id => id end) in
      '(found, err) ← FindVolumeAttachment fuel compartmentID volumeId (Some instanceID);
      _ ← match found with
          | Some attached => if decide (is_Some (va_Id attached)) then _ ← lift (deref (va_IsShareable attached)); mret () else mret ()
          | None => mret ()
          end;
      match found, err with
      | None, Some err =>
          if IsNotFound (Some err) then mret ()
          else truncated Internal "Failed to find volume attachment for volume %s to instance %s. error : %s"
                 [volumeId; instanceID; GetOCIServiceError (Some err)]
      | Some attached, Some err =>
          if IsNotFound (Some err) then detach ctx volumeId instanceID attached
          else truncated Internal "Failed to find volume attachment for volume %s to instance %s. error : %s"
                 [volumeId; instanceID; GetOCIServiceError (Some err)]
      | Some attached, None => detach ctx volumeId instanceID attached
      | None, None => lift Panic
      end
  end.

(** ** Other requests *)

(** The variable that is answered hides the constant of the same name: for block volumes
    it stays nil. *)
Definition ValidateVolumeCapabilities (volumeID : string) (caps : option (list VolumeCapability))
    : M W (list VolumeCapability) :=
  if decide (volumeID = "") then status InvalidArgument "Volume ID must be provided" [] else
  match caps with
  | None => status InvalidArgument "Volume Capabilities must be provided" []
  | Some _ =>
      '(found, supportedVolumeCapabilities) ←
        (if IsBootVolume volumeID then
           bootVolume ← report (GetBootVolume volumeID) (λ _, status NotFound "Boot Volume ID not found." []);
           id ← lift (deref (bv_Id bootVolume));
           mret (bool_decide (id = volumeID), supportedBootVolumeCapabilities)
         else
           volume ← report (GetVolume volumeID) (λ _, status NotFound "Volume ID not found." []);
           id ← lift (deref (vol_Id volume));
           mret (bool_decide (id = volumeID), []));
      if found : bool then mret supportedVolumeCapabilities else status NotFound "Volume ID mismatch." []
  end.

Definition ListVolumes : M W () := status Unimplemented "" [].
Definition GetCapacity : M W () := status Unimplemented "" [].
Definition ListSnapshots : M W () := status Unimplemented "ListSnapshots is not supported yet" [].
Definition ControllerGetVolume : M W () := status Unimplemented "ControllerGetVolume is not supported yet" [].
Definition ControllerModifyVolume : M W () := status Unimplemented "ControllerModifyVolume is not supported yet" [].

Definition ControllerGetCapabilities : list string :=
  ["CREATE_DELETE_VOLUME"; "PUBLISH_UNPUBLISH_VOLUME"; "EXPAND_VOLUME"; "CREATE_DELETE_SNAPSHOT"; "CLONE_VOLUME"].

(** ** Snapshots *)

Definition snapshot_answer (snapshot : VolumeBackup) (ready : bool) : outcome CsiSnapshot :=
  ts ← deref (vb_TimeCreated snapshot);
  id ← deref (vb_Id snapshot);
  volumeId ← deref (vb_VolumeId snapshot);
  mbs ← deref (vb_SizeInMBs snapshot);
  mret {| sn_SnapshotId := id; sn_SourceVolumeId := volumeId; sn_SizeBytes := int64 (mbs * MiB);
          sn_CreationTime := ts; sn_ReadyToUse := ready |}.

(** The backup is awaited; when the time is over the answer says that it is not ready. *)
Definition await_backup ctx (name : string) (snapshot : VolumeBackup) : M W bool :=
  id ← lift (deref (vb_Id snapshot));
  _ ← lift (deref (vb_TimeCreated snapshot));
  r ← try (AwaitVolumeBackupAvailableOrTimeout ctx id);
  match r with
  | inr _ => mret true
  | inl err => if Contains (Error err) "timed out" then mret false
               else status Internal "Backup did not become available %q: %v" [name; Error err]
  end.

(** A snapshot with the name of the request exists. *)
Definition existing_snapshot ctx (name sourceVolumeId : string) (snapshot : VolumeBackup) : M W CsiSnapshot :=
  _ ← lift (deref (vb_Id snapshot));
  match vb_VolumeId snapshot with
  | Some other =>
      if decide (other ≠ sourceVolumeId)
      then status AlreadyExists "Snapshot %s exists for another volume with id %s" [name; other]
      else ready ← await_backup ctx name snapshot;
           _ ← lift (deref (vb_TimeRequestReceived snapshot));
           lift (snapshot_answer snapshot ready)
  | None => ready ← await_backup ctx name snapshot;
            _ ← lift (deref (vb_TimeRequestReceived snapshot));
            lift (snapshot_answer snapshot ready)
  end.

Definition create_snapshot ctx (site : nat) (name sourceVolumeId : string) (parameters : gmap string string) : M W CsiSnapshot :=
  snapshotParams ← report (lift (extractSnapshotParameters site parameters))
    (λ err, status InvalidArgument "failed to parse volumesnapshotclass parameters %v" [Error err]);
  snapshot ← report (CreateVolumeBackup
      {| cbd_VolumeId := sourceVolumeId; cbd_Type := sp_backupType snapshotParams; cbd_DisplayName := name;
         cbd_FreeformTags := default ∅ (sp_freeformTags snapshotParams);
         cbd_DefinedTags := default ∅ (sp_definedTags snapshotParams) |})
    (λ err, status Internal "Could not create snapshot %q: %v" [name; Error err]);
  ready ← await_backup ctx name snapshot;
  lift (snapshot_answer snapshot ready).

Definition CreateSnapshot d (fuel site : nat) ctx (name sourceVolumeId : string) (parameters : gmap string string)
    : M W CsiSnapshot :=
  if decide (name = "") then status InvalidArgument "Volume snapshot name must be provided" [] else
  if decide (sourceVolumeId = "") then status InvalidArgument "Volume snapshot source ID must be provided" [] else
  if IsBootVolume sourceVolumeId then status InvalidArgument "Volume snapshot feature not available for boot volumes" [] else
  snapshots ← report (GetVolumeBackupsByName fuel name (d_CompartmentID d))
    (λ err, status Internal "failed to check existence of snapshot %v" [Error err]);
  let short := ShortenContextBeforeDeadline ctx 10 in
  match snapshots with
  | [] => create_snapshot short site name sourceVolumeId parameters
  | [snapshot] => existing_snapshot short name sourceVolumeId snapshot
  | _ => fail (Errorf "duplicate snapshot %q exists" [name])
  end.

(** The error is asked whether it is one of the Kubernetes API. *)
Definition DeleteSnapshot (snapshotId : string) : M W () :=
  if decide (snapshotId = "") then status InvalidArgument "SnapshotId must be provided" [] else
  report (DeleteVolumeBackup snapshotId)
    (λ err, if k8sapierrors_IsNotFound (Some err) then mret ()
            else fail (Errorf "failed to delete snapshot, snapshotId: %s, error: %v" [snapshotId; Error err])).

(** ** Expansion *)

Definition ControllerExpandVolume ctx (volumeId : string) (capacity : option CapacityRange) : M W Z :=
  if decide (volumeId = "") then status InvalidArgument "UpdateVolume volumeId must be provided" [] else
  if IsBootVolume volumeId then status InvalidArgument "Volume expansion is not supported for Boot Volumes" [] else
  newSize ← report (lift (ExtractStorage capacity)) (λ err, status OutOfRange "invalid capacity range: %v" [Error err]);
  volume ← report (GetVolume volumeId) (λ err, status Internal "failed to check existence of volume %v" [Error err]);
  let newSizeInGB := RoundUpSize newSize (1 * GiB) in
  oldSize ← lift (deref (vol_SizeInGBs volume));
  if decide (newSizeInGB ≤ oldSize)%Z then mret (int64 (oldSize * GiB)) else
  _ ← report (UpdateVolume volumeId {| uvd_DisplayName := vol_DisplayName volume; uvd_SizeInGBs := newSizeInGB |})
        (λ err, status Internal "Update volume failed %v" [Error err]);
  _ ← report (AwaitVolumeAvailableORTimeout ctx volumeId)
        (λ err, status CodeDeadlineExceeded "ControllerExpand failed with time out %v" [Error err]);
  mret newSize.
End handlers.
