(* ===== verification/BlockParameters.v ===== *)
(** * Parameters and contexts of block volumes

    The parameters of a storage class are read in the order in which a Go map is
    enumerated: what is read does not depend on it.  The context that the controller
    publishes is what the node reads. *)
From stdpp Require Import base tactics list gmap sets strings.
From S2P Require Import Prelude GoStrings Types ClientErrors ClientCalls Annotations CsiUtil StorageClient BlockVolume.

Section facts.
Context {TJ : TagJson} {MR : MapRange} {ET : ErrorText}.

(** A setting that is refused. *)
Definition refused (kv : string * string) : Prop :=
  (kv.1 = attachmentType ∧ ToLower kv.2 ≠ attachmentTypeISCSI ∧ ToLower kv.2 ≠ attachmentTypeParavirtualized) ∨
  (kv.1 = initialFreeformTagsOverride ∧ kv.2 ≠ "" ∧ ∃ e, json_freeform kv.2 = inl e) ∨
  (kv.1 = initialDefinedTagsOverride ∧ kv.2 ≠ "" ∧ ∃ e, json_defined kv.2 = inl e) ∨
  (kv.1 = VpusPerGB ∧ ∀ v, Atoi kv.2 = Some v → ¬ (0 ≤ v ≤ 120)%Z).

(** The parameters that the settings say, setting by setting, over [p]. *)
Definition overridden (p : VolumeParameters) (m : gmap string string) : VolumeParameters := {|
  vp_diskEncryptionKey := match m !! kmsKey with
                          | Some v => if decide (v = "") then vp_diskEncryptionKey p else v
                          | None => vp_diskEncryptionKey p
                          end;
  vp_attachmentParameter := match m !! attachmentType with
                            | Some v => <[attachmentType := ToLower v]> (vp_attachmentParameter p)
                            | None => vp_attachmentParameter p
                            end;
  vp_freeformTags := match m !! initialFreeformTagsOverride with
                     | Some v => if decide (v = "") then vp_freeformTags p
                                 else match json_freeform v with inr tags => tags | inl _ => None end
                     | None => vp_freeformTags p
                     end;
  vp_definedTags := match m !! initialDefinedTagsOverride with
                    | Some v => if decide (v = "") then vp_definedTags p
                                else match json_defined v with inr tags => tags | inl _ => None end
                    | None => vp_definedTags p
                    end;
  vp_vpusPerGB := match m !! VpusPerGB with Some v => default 0%Z (Atoi v) | None => vp_vpusPerGB p end |}.

Lemma overridden_empty p : overridden p ∅ = p.
Proof. by destruct p. Qed.

Lemma performance_level v :
  (∃ n, ExtractBlockVolumePerformanceLevel v = Ret n ∧ Atoi v = Some n ∧ (0 ≤ n ≤ 120)%Z) ∨
  (∃ e, ExtractBlockVolumePerformanceLevel v = Err e ∧ ∀ n, Atoi v = Some n → ¬ (0 ≤ n ≤ 120)%Z).
Proof.
  unfold ExtractBlockVolumePerformanceLevel, LowCostPerformanceOption, MaxUltraHighPerformanceOption.
  destruct (Atoi v) as [n|]; [|right; eexists; split; [done|]; by intros n]. case_decide as Hn.
  - right. eexists. split; [done|]. intros n' [= <-]. lia.
  - left. exists n. split_and!; [done..|lia|lia].
Qed.

(** A setting is refused, or it only sets what it names. *)
Lemma volume_parameter_spec p k v :
  (refused (k, v) ∧ ∃ e, volume_parameter p (k, v) = Err e) ∨
  (¬ refused (k, v) ∧ volume_parameter p (k, v) = Ret (overridden p {[k := v]})).
Proof.
  unfold volume_parameter, refused, overridden; simpl.
  destruct (decide (k = kmsKey)) as [->|H1].
  { right. split; [naive_solver|]. rewrite lookup_singleton_eq, !lookup_singleton_ne by done.
    case_decide; by destruct p. }
  destruct (decide (k = attachmentType)) as [->|H2].
  { case_decide as Hv; [left; split; [tauto|eauto]|right]. split; [naive_solver|].
    by rewrite lookup_singleton_eq, !lookup_singleton_ne by done. }
  destruct (decide (k = initialFreeformTagsOverride)) as [->|H3].
  { rewrite lookup_singleton_eq, !lookup_singleton_ne by done. case_decide as Hv.
    - right. split; [naive_solver|by destruct p].
    - destruct (json_freeform v) as [e|tags] eqn:E; [left; split; [|eauto]; naive_solver|right]. split; naive_solver. }
  destruct (decide (k = initialDefinedTagsOverride)) as [->|H4].
  { rewrite lookup_singleton_eq, !lookup_singleton_ne by done. case_decide as Hv.
    - right. split; [naive_solver|by destruct p].
    - destruct (json_defined v) as [e|tags] eqn:E; [left; split; [|eauto]; naive_solver|right]. split; naive_solver. }
  destruct (decide (k = VpusPerGB)) as [->|H5].
  { rewrite lookup_singleton_eq, !lookup_singleton_ne by done.
    destruct (performance_level v) as [(n & -> & Hn & Hb)|(e & -> & He)].
    - right. rewrite Hn. split; [|done]. intros [?|[?|[?|[_ Hno]]]]; [naive_solver..|]. by apply (Hno n).
    - left. split; [naive_solver|eauto]. }
  right. split; [naive_solver|]. rewrite !lookup_singleton_ne by done. by destruct p.
Qed.
Lemma overridden_insert p k v m : m !! k = None → overridden (overridden p {[k := v]}) m = overridden p (<[k := v]> m).
Proof.
  intros Hm. unfold overridden; simpl.
  assert (∀ K, m !! K = None ∧ ({[k := v]} : gmap string string) !! K = <[k := v]> m !! K ∨
               ({[k := v]} : gmap string string) !! K = None ∧ <[k := v]> m !! K = m !! K) as Hkey.
  { intros K. destruct (decide (k = K)) as [<-|Hk].
    - left. by rewrite lookup_singleton_eq, lookup_insert_eq.
    - right. by rewrite lookup_singleton_ne, lookup_insert_ne. }
  f_equal; [destruct (Hkey kmsKey) as [[-> ->]|[-> ->]]|destruct (Hkey attachmentType) as [[-> ->]|[-> ->]]
    |destruct (Hkey initialFreeformTagsOverride) as [[-> ->]|[-> ->]]
    |destruct (Hkey initialDefinedTagsOverride) as [[-> ->]|[-> ->]]
    |destruct (Hkey VpusPerGB) as [[-> ->]|[-> ->]]]; done.
Qed.

Lemma fold_parameters p l :
  NoDup l.*1 →
  (Exists refused l ∧ ∃ e, fold_params volume_parameter p l = Err e) ∨
  (Forall (λ kv, ¬ refused kv) l ∧ fold_params volume_parameter p l = Ret (overridden p (list_to_map l))).
Proof.
  revert p. induction l as [|[k v] l IH]; intros p Hd; [right; by rewrite overridden_empty|].
  apply NoDup_cons in Hd as [Hk Hd]. cbn [fold_params].
  destruct (volume_parameter_spec p k v) as [[Hr [e ->]]|[Hr ->]]; [left; split; [by left|by exists e]|]. cbn [mbind outcome_bind].
  destruct (IH (overridden p {[k := v]}) Hd) as [[Hex [e ->]]|[Hall ->]]; [left; split; [by right|by exists e]|].
  right. split; [by constructor|]. rewrite list_to_map_cons, overridden_insert; [done|]. by apply not_elem_of_list_to_map_1.
Qed.

(** The parameters of a storage class are those of a
    lookup of each setting that is known, whatever the order in which the map is
    enumerated, and are an error exactly if one of the settings is refused; the
    performance level is between 0 and 120. *)
Lemma extractVolumeParameters_correct site m :
  ((∃ k v, m !! k = Some v ∧ refused (k, v)) ∧ ∃ e, extractVolumeParameters site m = Err e) ∨
  ((∀ k v, m !! k = Some v → ¬ refused (k, v)) ∧
   extractVolumeParameters site m = Ret (overridden default_volume_parameters m) ∧
   (0 ≤ vp_vpusPerGB (overridden default_volume_parameters m) ≤ 120)%Z).
Proof.
  pose proof (range_perm site _ m) as Hp. unfold extractVolumeParameters.
  assert (∀ k v, (k, v) ∈ range site m ↔ m !! k = Some v) as Hin by (intros k v; by rewrite Hp, elem_of_map_to_list).
  destruct (fold_parameters default_volume_parameters (range site m)) as [[Hex He]|[Hall ->]].
  { rewrite Hp. apply NoDup_fst_map_to_list. }
  - left. split; [|done]. apply Exists_exists in Hex as ([k v] & Hkv & Hr). exists k, v. by rewrite <-Hin.
  - right. rewrite Forall_forall in Hall.
    assert (∀ k v, m !! k = Some v → ¬ refused (k, v)) as Hok by (intros k v Hkv; by apply Hall, Hin).
    assert (list_to_map (range site m) = m) as ->.
    { rewrite (list_to_map_proper _ (map_to_list m)), list_to_map_to_list; [done| |done].
      rewrite Hp. apply NoDup_fst_map_to_list. }
    split_and!; [done..| |]; simpl; (destruct (m !! VpusPerGB) as [v|] eqn:E; [|simpl; lia]);
      destruct (performance_level v) as [(n & _ & -> & Hn)|(e & _ & He)]; simpl; try lia;
      (exfalso; eapply Hok; [exact E|]; by do 3 right).
Qed.

(** What the controller publishes of an iSCSI attachment is
    the disk that the node reads, and the other keys of the context. *)
Lemma publish_context_roundtrip options a vpus resize size ctx :
  generatePublishContext options a vpus resize size = Ret ctx →
  ctx !! VpusPerGB = Some vpus ∧ ctx !! needResize = Some resize ∧ ctx !! newSize = Some size ∧
  (useParavirtualizedAttachment options = true →
     ctx !! attachmentType = Some attachmentTypeParavirtualized ∧ ctx !! device = va_Device a) ∧
  (useParavirtualizedAttachment options = false →
     ctx !! attachmentType = Some attachmentTypeISCSI ∧ ctx !! device = va_Device a ∧
     ∃ d iqn ip port, va_iscsi a = Some d ∧ iscsi_Iqn d = Some iqn ∧ iscsi_Ipv4 d = Some ip ∧ iscsi_Port d = Some port ∧
       ((- 2 ^ 63 ≤ port < 2 ^ 63)%Z →
        ExtractISCSIInformation ctx = Ret {| disk_IQN := iqn; disk_IscsiIp := ip; disk_Port := port |})).
Proof.
  unfold generatePublishContext. destruct (useParavirtualizedAttachment options); intros Hr.
  - apply bind_Ret_inv in Hr as (dev & Hdev & Hr). injection Hr as <-. destruct (va_Device a); [|done].
    injection Hdev as <-. split_and!; [done..|by intros|done].
  - apply bind_Ret_inv in Hr as (d & Hd & Hr). apply bind_Ret_inv in Hr as (devs & _ & Hr).
    apply bind_Ret_inv in Hr as (iqn & Hiqn & Hr). apply bind_Ret_inv in Hr as (ip & Hip & Hr).
    apply bind_Ret_inv in Hr as (port & Hport & Hr). injection Hr as <-.
    destruct (va_iscsi a) as [d'|]; [injection Hd as ->|done].
    destruct (iscsi_Iqn d) as [iqn'|] eqn:E1; [injection Hiqn as ->|done].
    destruct (iscsi_Ipv4 d) as [ip'|] eqn:E2; [injection Hip as ->|done].
    destruct (iscsi_Port d) as [port'|] eqn:E3; [injection Hport as ->|done].
    destruct (va_Device a) as [dev|]; do 4 (split; [done|]); intros _; do 2 (split; [done|]);
      exists d, iqn, ip, port; do 4 (split; [done|]); intros Hb; unfold ExtractISCSIInformation; simplify_map_eq;
      by rewrite Atoi_Itoa.
Qed.
End facts.
