(* ===== verification/BlockVolumeFacts.v ===== *)
(** * What the block volume controller achieves

    Given laws of the block storage and compute services ([StorageLaws]): creating a
    volume twice creates one volume, an attachment that is not shareable stays exclusive,
    detaching leaves nothing attached, and expansion never shrinks a volume. *)
From stdpp Require Import base tactics list gmap sets strings.
From S2P Require Import Prelude GoStrings Types ClientErrors ClientCalls Annotations CsiUtil CsiUtilFacts StorageClient BlockVolume.

(** ** The laws of the services *)

(** What does not change while time passes. *)
Definition vol_identity (v : Volume) := (vol_Id v, vol_DisplayName v, vol_CompartmentId v, vol_SizeInGBs v).
Definition att_identity (a : VolumeAttachment) := (va_Id a, va_InstanceId a, va_VolumeId a, va_CompartmentId a).

Definition same_volume (v v' : Volume) : Prop := vol_identity v' = vol_identity v.
(** An attachment that is detached stays detached. *)
Definition same_attachment (a a' : VolumeAttachment) : Prop :=
  att_identity a' = att_identity a ∧ (live_attachment a' → live_attachment a).

(** The volumes and the attachments by OCID, with their ids.  Time passes when a resource
    is read or detached: states change, but no resource appears or disappears.  Listings
    are complete; the attachments of a volume are not found only if there are none.  A request to create or attach adds at most one resource, the one that
    it answers; a request that is refused as invalid adds none.  A volume that is deleted, or
    is not found to be deleted, is not available or provisioning any more, and no other
    volume is touched. *)
Class StorageLaws (W : Type) `{!StorageSdk W, !Limits W, !KubeNodes W} := {
  vols : W → gmap string Volume;
  atts : W → gmap string VolumeAttachment;
  still w w' := vols w' = vols w ∧ atts w' = atts w;
  aged w w' := map_relation (λ _, same_volume) (λ _ _, False) (λ _ _, False) (vols w) (vols w') ∧
               map_relation (λ _, same_attachment) (λ _ _, False) (λ _ _, False) (atts w) (atts w');
  vols_id : ∀ w id v, vols w !! id = Some v → vol_Id v = Some id;
  atts_id : ∀ w id a, atts w !! id = Some a → va_Id a = Some id;
  limits_still : ∀ w, still w (Reader_TryAccept w).2 ∧ still w (Writer_TryAccept w).2;
  Nodes_still : ∀ n, frames still (Nodes_Get n);
  backup_still : ∀ id, frames still (ssdk_GetVolumeBackup id);
  instance_still : ∀ id, frames still (ssdk_GetInstance id);
  domains_still : ∀ c, frames still (ssdk_ListAvailabilityDomains c);
  devices_still : ∀ id, frames still (ssdk_ListInstanceDevices id);
  ListVolumes_still : ∀ c n page, frames still (ssdk_ListVolumes c n page);
  ListVolumes_complete : ∀ c n w, ∃ f,
    (∀ w1 page items next w2, vols w1 = vols w → ssdk_ListVolumes c n page w1 = (Ret (items, next), w2) →
       f page = (items, next)) ∧
    (∀ ps, page_chain f None ps → ∀ v, v ∈ concat ps ↔
       vol_DisplayName v = Some n ∧ vol_CompartmentId v = Some c ∧ ∃ id, vols w !! id = Some v);
  ListAttachments_still : ∀ c v i page, frames still (ssdk_ListVolumeAttachments c v i page);
  ListAttachments_complete : ∀ c v i w, ∃ f,
    (∀ w1 page items next w2, atts w1 = atts w → ssdk_ListVolumeAttachments c v i page w1 = (Ret (items, next), w2) →
       f page = (items, next)) ∧
    (∀ ps, page_chain f None ps → ∀ a, a ∈ concat ps ↔
       va_VolumeId a = Some v ∧ va_CompartmentId a = Some c ∧ (∀ i', i = Some i' → va_InstanceId a = Some i') ∧
       ∃ id, atts w !! id = Some a);
  ListAttachments_sound : ∀ c v i page w items next w',
    ssdk_ListVolumeAttachments c v i page w = (Ret (items, next), w') → ∀ a, a ∈ items →
      va_VolumeId a = Some v ∧ va_CompartmentId a = Some c ∧ (∀ i', i = Some i' → va_InstanceId a = Some i') ∧
      ∃ id, atts w !! id = Some a;
  ListAttachments_missing : ∀ c v i page w e w',
    ssdk_ListVolumeAttachments c v i page w = (Err e, w') → IsNotFound (Some e) = true →
    ∀ id a, atts w !! id = Some a → va_VolumeId a = Some v → va_CompartmentId a = Some c → ¬ live_attachment a;
  GetVolume_law : ∀ id w o w', ssdk_GetVolume id w = (o, w') →
    aged w w' ∧ ∀ v, o = Ret v → vols w' !! id = Some v;
  GetAttachment_law : ∀ id w o w', ssdk_GetVolumeAttachment id w = (o, w') →
    aged w w' ∧ ∀ a, o = Ret a → atts w' !! id = Some a;
  CreateVolume_law : ∀ d w o w', ssdk_CreateVolume d w = (o, w') →
    (still w w' ∧ is_ret o = false) ∨
    ∃ id v, vols w !! id = None ∧ vols w' = <[id := v]> (vols w) ∧ atts w' = atts w ∧
      vol_DisplayName v = Some (cvd_DisplayName d) ∧ vol_CompartmentId v = Some (cvd_CompartmentId d) ∧
      (∀ gb, cvd_SizeInGBs d = Some gb → vol_SizeInGBs v = Some gb) ∧
      (∀ mb, cvd_SizeInMBs d = Some mb → vol_SizeInMBs v = Some mb) ∧ (∀ v', o = Ret v' → v' = v) ∧
      (∀ e code message, o = Err e → error_cause e ≠ ServiceError 400 code message);
  UpdateVolume_law : ∀ id d w o w', ssdk_UpdateVolume id d w = (o, w') →
    (still w w' ∧ is_ret o = false) ∨
    ∃ v v', vols w !! id = Some v ∧ vols w' = <[id := v']> (vols w) ∧ atts w' = atts w ∧
      vol_SizeInGBs v' = Some (uvd_SizeInGBs d);
  AttachVolume_law : ∀ d w o w', ssdk_AttachVolume d w = (o, w') →
    (still w w' ∧ is_ret o = false) ∨
    ∃ id a, atts w !! id = None ∧ atts w' = <[id := a]> (atts w) ∧ vols w' = vols w ∧
      va_VolumeId a = Some (avd_VolumeId d) ∧ va_InstanceId a = Some (avd_InstanceId d) ∧ (∀ a', o = Ret a' → a' = a);
  DetachVolume_law : ∀ id, frames aged (ssdk_DetachVolume id);
  DeleteVolume_law : ∀ id w o w', ssdk_DeleteVolume id w = (o, w') →
    atts w' = atts w ∧ (∀ k, k ≠ id → vols w' !! k = vols w !! k) ∧
    (∀ v, vols w' !! id = Some v → ∃ v0, vols w !! id = Some v0 ∧ same_volume v0 v) ∧
    (o = Ret () ∨ (∃ e, o = Err e ∧ IsNotFound (Some e) = true) → ∀ v, vols w' !! id = Some v → ¬ live_volume v);
}.

Section facts.
Context {W : Type} `{!StorageSdk W, !Limits W, !KubeNodes W, !StorageLaws W} {TJ : TagJson} {MR : MapRange} {ET : ErrorText}.

#[global] Instance still_preorder : PreOrder still.
Proof. split; [done|]. intros w1 w2 w3 [] []. split; congruence. Qed.

Lemma related_refl {A} (R : A → A → Prop) `{!Reflexive R} (m : gmap string A) :
  map_relation (λ _, R) (λ _ _, False) (λ _ _, False) m m.
Proof. intros k. by destruct (m !! k); simpl. Qed.
Lemma related_trans {A} (R : A → A → Prop) `{!Transitive R} (m1 m2 m3 : gmap string A) :
  map_relation (λ _, R) (λ _ _, False) (λ _ _, False) m1 m2 →
  map_relation (λ _, R) (λ _ _, False) (λ _ _, False) m2 m3 →
  map_relation (λ _, R) (λ _ _, False) (λ _ _, False) m1 m3.
Proof.
  intros H1 H2 k. specialize (H1 k). specialize (H2 k).
  destruct (m1 !! k), (m2 !! k), (m3 !! k); simpl in *; try done. by etrans.
Qed.

#[global] Instance same_volume_preorder : PreOrder same_volume.
Proof. split; [done|]. intros v1 v2 v3. unfold same_volume. congruence. Qed.
#[global] Instance same_attachment_preorder : PreOrder same_attachment.
Proof.
  split; [done|]. intros a1 a2 a3 [] []. split; [congruence|auto].
Qed.

#[global] Instance aged_preorder : PreOrder aged.
Proof.
  split.
  - intros w. split; apply related_refl, _.
  - intros w1 w2 w3 [] []. split; [by eapply (related_trans same_volume)|by eapply (related_trans same_attachment)].
Qed.

Lemma still_aged w w' : still w w' → aged w w'.
Proof. intros [H1 H2]. split; [rewrite H1|rewrite H2]; apply related_refl, _. Qed.

Lemma limited_frames {A} (R : W → W → Prop) `{!PreOrder R} isWrite op (c : M W A) :
  (∀ w w', still w w' → R w w') → frames R c → frames R (limited isWrite op c).
Proof. intros HR. apply (limited_frames_of R); intros w; apply HR, limits_still. Qed.

Lemma writer_limited_frames {A} (R : W → W → Prop) `{!PreOrder R} err (c : M W A) :
  (∀ w w', still w w' → R w w') → frames R c → frames R (writer_limited err c).
Proof. intros HR. apply (writer_limited_frames_of R). intros w. apply HR, limits_still. Qed.

Lemma limited_Ret {A} isWrite op (c : M W A) w a w' :
  limited isWrite op c w = (Ret a, w') → ∃ w1, still w w1 ∧ c w1 = (Ret a, w').
Proof. intros (w1 & [-> | ->] & Hr)%limited_Ret_of; eexists; (split; [|exact Hr]); apply limits_still. Qed.

(** ** Waiting *)

Lemma poll_state_frames {A} R `{!PreOrder R} (get : M W A) dec : frames R get → frames R (poll_state get dec).
Proof.
  intros Hg. unfold poll_state. apply frames_bind; [done|by apply frames_try|]. intros [e|a].
  - destruct (IsRetryable (Some e)); [apply (frames_lift R (Ret None))|apply (frames_lift R (Err e))].
  - apply frames_bind; [done|by apply frames_lift|]. intros []; [apply (frames_lift R (Ret (Some a)))|apply (frames_lift R (Ret None))].
Qed.

Lemma poll_state_Ret {A} (get : M W A) dec w a w' :
  poll_state get dec w = (Ret (Some a), w') → get w = (Ret a, w') ∧ dec a = Ret true.
Proof.
  intros (r & w1 & Ht & Hr)%M_bind_Ret_inv. unfold try in Ht.
  destruct (get w) as [[b|e|] w2]; [..|done]; injection Ht as <- <-.
  - apply M_bind_Ret_inv in Hr as (b' & w3 & Hl & Hr). injection Hl as Hl <-. destruct b'; [|done].
    by injection Hr as <- <-.
  - by destruct (IsRetryable (Some e)).
Qed.

Lemma GetVolume_aged id : frames aged (GetVolume id).
Proof. apply (limited_frames aged); [apply still_aged|]. by intros w o w' [? _]%GetVolume_law. Qed.

Lemma GetVolumeAttachment_aged id : frames aged (GetVolumeAttachment id).
Proof. apply (limited_frames aged); [apply still_aged|]. by intros w o w' [? _]%GetAttachment_law. Qed.

Lemma AwaitVolume_Ret dec ctx i id w v w' :
  PollImmediateUntil ctx i (poll_state (GetVolume id) dec) w = (Ret v, w') →
  aged w w' ∧ vols w' !! id = Some v ∧ dec v = Ret true.
Proof.
  intros Hr. split.
  { eapply PollImmediateUntil_frames; [..|done]; [apply _|]. apply (poll_state_frames aged), GetVolume_aged. }
  apply (PollImmediateUntil_Ret aged) in Hr as (w1 & _ & [Hg Hd]%poll_state_Ret);
    [|apply (poll_state_frames aged), GetVolume_aged].
  unfold GetVolume in Hg. apply limited_Ret in Hg as (w2 & _ & [_ Hv]%GetVolume_law). auto.
Qed.

Lemma AwaitAttachment_Ret dec ctx id w a w' :
  PollImmediateUntil ctx attachmentPollInterval (poll_state (GetVolumeAttachment id) dec) w = (Ret a, w') →
  aged w w' ∧ atts w' !! id = Some a ∧ dec a = Ret true.
Proof.
  intros Hr. split.
  { eapply PollImmediateUntil_frames; [..|done]; [apply _|]. apply (poll_state_frames aged), GetVolumeAttachment_aged. }
  apply (PollImmediateUntil_Ret aged) in Hr as (w1 & _ & [Hg Hd]%poll_state_Ret);
    [|apply (poll_state_frames aged), GetVolumeAttachment_aged].
  unfold GetVolumeAttachment in Hg. apply limited_Ret in Hg as (w2 & _ & [_ Hv]%GetAttachment_law). auto.
Qed.

(** ** Listings *)

Lemma GetVolumesByName_still fuel n c : frames still (GetVolumesByName fuel n c).
Proof.
  apply (pages_frames still); [|intros b l; apply (frames_lift still (Ret _))].
  intros page. apply (limited_frames still); [done|apply ListVolumes_still].
Qed.

Definition volume_named (n c : string) (v : Volume) : Prop := vol_DisplayName v = Some n ∧ vol_CompartmentId v = Some c.

(** The live volumes with a name. *)
Lemma GetVolumesByName_Ret fuel n c w l w' :
  GetVolumesByName fuel n c w = (Ret l, w') →
  ∀ v, v ∈ l ↔ live_volume v ∧ volume_named n c v ∧ ∃ id, vols w !! id = Some v.
Proof.
  intros Hr. destruct (ListVolumes_complete c n w) as (f & Hf & Hps).
  destruct (collect_pages live_volume
    (λ page, limited true "CreateVolume" (ssdk_ListVolumes c n page)) f (λ w1, vols w1 = vols w) fuel None [] w l w')
    as (_ & ps & Hc & ->); [| |done|done|].
  - intros page w1 o w2 Hw Hl. assert (still w1 w2) as [H _]; [|congruence].
    eapply (limited_frames still); [done|apply ListVolumes_still|done].
  - intros page w1 items next w2 Hw (w3 & [Hs _] & Hl)%limited_Ret. eapply Hf; [|done]. congruence.
  - intros v. simpl. rewrite list_elem_of_filter, (Hps _ Hc). unfold volume_named. naive_solver.
Qed.

(** ** Creating volumes *)

(** A volume with this name is added, large enough unless the size overflows. *)
Definition creates (n c : string) (size : Z) (w w' : W) : Prop := ∃ id v gb,
  vols w !! id = None ∧ vols w' = <[id := v]> (vols w) ∧ atts w' = atts w ∧ volume_named n c v ∧
  vol_SizeInGBs v = Some gb ∧ (50 ≤ gb)%Z ∧ (size + GiB < 2 ^ 63 → size ≤ gb * GiB)%Z.

Lemma sized_details_enough n size ad c b s k vp tags :
  (0 ≤ size)%Z →
  ∃ gb, cvd_SizeInGBs (sized_details n size ad c b s k vp tags) = Some gb ∧
    (50 ≤ gb)%Z ∧ (size + GiB < 2 ^ 63 → size ≤ gb * GiB)%Z.
Proof.
  intros Hs. eexists. split; [done|]. assert (RoundUpMinSize = 50%Z) as -> by by vm_compute.
  split; [case_decide; lia|]. intros Hb. rewrite RoundUpSize_exact by (done || lia). rewrite Z.mul_1_l.
  assert (0 < GiB)%Z as Hg by done. revert Hb Hg. generalize GiB. intros g Hb Hg.
  pose proof (Z.div_mod (size + g - 1) g ltac:(lia)). pose proof (Z.mod_pos_bound (size + g - 1) g Hg).
  case_decide; nia.
Qed.

(** A step that creates at most one volume, and answers it. *)
Definition attempt (n c : string) (size : Z) (w : W) (o : outcome Volume) (w' : W) : Prop :=
  (still w w' ∧ is_ret o = false) ∨
  (creates n c size w w' ∧ ∀ v, o = Ret v → volume_named n c v ∧ ∃ id, vols w' !! id = Some v).

Lemma attempt_still n c size w w1 o w' : still w w1 → attempt n c size w1 o w' → attempt n c size w o w'.
Proof.
  intros Hs [[H1 H2]|[(id & v & gb & H1 & H2 & H3 & H4) Hv]]; [left; split; [by trans w1|done]|right].
  destruct Hs as [Hs1 Hs2]. split; [|done]. exists id, v, gb. rewrite Hs1 in *. rewrite Hs2 in *. done.
Qed.

Lemma attempt_report n c size w (run : M W Volume) w1 o1 (f : error → M W Volume) o w' :
  run w = (o1, w1) → report run f w = (o, w') → attempt n c size w o1 w1 →
  (∀ e, o1 = Err e → attempt n c size w o w') → attempt n c size w o w'.
Proof.
  intros Hr Hp Ha He. unfold report, mbind, M_bind, try in Hp. rewrite Hr in Hp. destruct o1 as [v|e|].
  - injection Hp as <- <-. done.
  - by apply (He e).
  - injection Hp as <- <-. destruct Ha as [[]|[]]; [by left|right; by split].
Qed.

Lemma provision_attempt n size ad c b s k vp tags w o w' :
  (0 ≤ size)%Z → provision n size ad c b s k vp tags w = (o, w') →
  attempt n c size w o w' ∧
  (∀ e code message, o = Err e → error_cause e = ServiceError 400 code message → still w w').
Proof.
  intros Hs Hr. unfold provision, CreateVolume, limited in Hr. destruct (limits_still w) as [_ Hl].
  destruct (Writer_TryAccept w) as [[] w1]; simpl in Hl; [|injection Hr as <- <-; split; [by left|done]].
  destruct (sized_details_enough n size ad c b s k vp tags Hs) as (gb & Egb & H50 & Hsz).
  apply CreateVolume_law in Hr as [Hr|(id & v & Hnew & Hins & Ha & Hn & Hc & Hgb & _ & Hv & H400)].
  - split; [apply (attempt_still _ _ _ _ w1); [done|by left]|]. intros e code message -> _. destruct Hr. by trans w1.
  - split; [|intros e code message -> He; by destruct (H400 e code message)].
    apply (attempt_still _ _ _ _ w1); [done|]. right. split.
    + exists id, v, gb. split_and!; auto. by split.
    + intros v' ->%Hv. split; [by split|]. exists id. by rewrite Hins, lookup_insert_eq.
Qed.

Lemma system_tag_400 e :
  IsSystemTagNotFoundOrNotAuthorisedError (Some e) = true → ∃ code message, error_cause e = ServiceError 400 code message.
Proof.
  unfold IsSystemTagNotFoundOrNotAuthorisedError. simpl. destruct (error_cause e) as [| |st code msg| | | | |]; try done.
  case_decide as Hd; [|done]. destruct Hd as [-> _]. eauto.
Qed.

Lemma find_domain_still c n : frames still (GetAvailabilityDomainByName c n).
Proof.
  apply (limited_frames still); [done|]. apply frames_bind; [apply _|apply domains_still|]. intros ads.
  apply frames_bind; [apply _|apply (frames_lift still)|]. intros [ad|]; [apply (frames_lift still (Ret ad))|apply (frames_lift still (Err _))].
Qed.

Lemma create_new_attempt d n size vp src short full w o w' :
  (0 ≤ size)%Z → create_new d n size vp src short full w = (o, w') → attempt n (d_CompartmentID d) size w o w'.
Proof.
  intros Hs Hr. unfold create_new, mbind, M_bind in Hr.
  match type of Hr with context [match ?c w with _ => _ end] => destruct (c w) as [o1 w1] eqn:E1 end.
  assert (still w w1) as Hs1.
  { destruct (d_ipv6SingleStackCluster d); [by injection E1 as _ <-|].
    eapply (frames_report still); [apply find_domain_still| |exact E1]. intros e. apply (frames_lift still (Err _)). }
  destruct o1 as [ad|e|]; [|by injection Hr as <- <-; left|by injection Hr as <- <-; left].
  apply (attempt_still _ _ _ _ w1); [done|]. clear E1 Hs1 w.
  match type of Hr with report (report (provision _ _ _ _ _ _ _ _ ?tags) _) _ _ = _ =>
    destruct (provision n size ad (d_CompartmentID d) (src_snapshotId src) (src_volumeId src)
      (vp_diskEncryptionKey vp) (vp_vpusPerGB vp) tags w1) as [o2 w2] eqn:E2 end.
  destruct (provision_attempt _ _ _ _ _ _ _ _ _ _ _ _ Hs E2) as [Ha H400].
  match type of Hr with report ?run _ _ = _ => destruct (run w1) as [o3 w3] eqn:E3 end.
  assert (attempt n (d_CompartmentID d) size w1 o3 w3) as Ha3.
  { eapply attempt_report; [exact E2|exact E3|exact Ha|]. intros e ->.
    rewrite (report_Err _ _ _ _ _ E2) in E3.
    destruct (IsSystemTagNotFoundOrNotAuthorisedError (Some e)) eqn:Et.
    - apply system_tag_400 in Et as (code & message & He). apply (attempt_still _ _ _ _ w2); [by eapply H400|].
      by eapply provision_attempt.
    - injection E3 as <- <-. done. }
  eapply attempt_report; [exact E3|exact Hr|exact Ha3|]. intros e ->.
  rewrite (report_Err _ _ _ _ _ E3) in Hr. injection Hr as <- <-. destruct Ha3 as [[]|[]]; [by left|by right].
Qed.

(** ** Requests that only read *)

Lemma content_source_aged d s size : frames aged (content_source d s size).
Proof.
  assert (∀ A e, frames aged (@fail W A e)) as Hfail by (intros A e; apply (frames_lift aged (Err e))).
  assert (∀ A o, frames aged (@lift W A o)) as Hlift by (intros A o; apply (frames_lift aged)).
  assert (∀ A (a : A), frames aged (mret a : M W A)) as Hret by (intros A a; apply (frames_lift aged (Ret a))).
  unfold content_source, snapshot_source, volume_source, status.
  destruct s as [[[id|]|[id|]|]|]; auto.
  - apply (frames_bind aged); [|intros vb; apply (frames_bind aged); auto].
    apply (frames_report aged); [|intros e; destruct (k8sapierrors_IsNotFound (Some e)); auto].
    apply (limited_frames aged); [apply still_aged|].
    eapply frames_weaken; [exact still_aged|apply backup_still].
  - destruct (IsBootVolume id); [auto|]. apply (frames_bind aged).
    + apply (frames_report aged); [apply GetVolume_aged|]. intros e. destruct (IsNotFound (Some e)); auto.
    + intros v. apply (frames_bind aged); [auto|]. intros short. apply (frames_bind aged); auto.
Qed.

Lemma aged_volume w w' id v : aged w w' → vols w !! id = Some v → ∃ v', vols w' !! id = Some v' ∧ same_volume v v'.
Proof. intros [Hv _] Hid. specialize (Hv id). rewrite Hid in Hv. destruct (vols w' !! id) as [v'|]; [eauto|done]. Qed.

Lemma aged_attachment w w' id a :
  aged w w' → atts w !! id = Some a → ∃ a', atts w' !! id = Some a' ∧ same_attachment a a'.
Proof. intros [_ Ha] Hid. specialize (Ha id). rewrite Hid in Ha. destruct (atts w' !! id) as [a'|]; [eauto|done]. Qed.

Lemma aged_attachment_inv w w' id a' :
  aged w w' → atts w' !! id = Some a' → ∃ a, atts w !! id = Some a ∧ same_attachment a a'.
Proof. intros [_ Ha] Hid. specialize (Ha id). rewrite Hid in Ha. destruct (atts w !! id) as [a|]; [eauto|done]. Qed.

Lemma check_create_request_still site req : frames still (check_create_request (W := W) site req).
Proof.
  assert (∀ A e, frames still (@fail W A e)) as Hfail by (intros A e; apply (frames_lift still (Err e))).
  assert (∀ A (o : outcome A) c g args, frames still (report (lift o) (λ e, status c g (args e)))) as Hrep.
  { intros A o c g args. apply (frames_report still); [apply (frames_lift still)|]. intros e. apply Hfail. }
  unfold check_create_request. repeat case_decide; try apply Hfail.
  apply (frames_bind still); [apply Hrep|]. intros _. apply (frames_bind still); [apply Hrep|]. intros size.
  apply (frames_bind still); [apply Hrep|]. intros vp. case_decide; [apply Hfail|apply (frames_lift still (Ret _))].
Qed.

Lemma ExtractStorage_nonneg r size : ExtractStorage r = Ret size → (0 ≤ size)%Z.
Proof.
  destruct r as [r|]; [|by intros [= <-]]. rewrite ExtractStorage_spec. case_decide; [done|]. intros [= <-].
  assert (0 ≤ MinimumVolumeSizeInBytes)%Z by done. lia.
Qed.

Lemma check_create_request_size site req w size vp w' :
  check_create_request (W := W) site req w = (Ret (size, vp), w') →
  ExtractStorage (cvr_CapacityRange req) = Ret size ∧ (0 ≤ size)%Z.
Proof.
  intros Hr. unfold check_create_request in Hr. case_decide; [done|]. case_decide; [done|].
  apply M_bind_Ret_inv in Hr as ([] & w1 & _ & Hr). apply M_bind_Ret_inv in Hr as (size' & w2 & He & Hr).
  apply M_bind_Ret_inv in Hr as (vp' & w3 & _ & Hr). case_decide; [done|]. injection Hr as <- <- _.
  apply report_fails_Ret in He; [|done]. injection He as He _. split; [done|].
  by eapply ExtractStorage_nonneg.
Qed.

(** The volume of the request: at most one is created, and only if there is none. *)
Lemma find_or_create_spec d fuel n size vp src short full w o w' :
  (0 ≤ size)%Z → find_or_create d fuel n size vp src short full w = (o, w') →
  (aged w w' ∨ (∀ id v, vols w !! id = Some v → ¬ (live_volume v ∧ volume_named n (d_CompartmentID d) v)) ∧
               creates n (d_CompartmentID d) size w w') ∧
  (∀ v, o = Ret v → volume_named n (d_CompartmentID d) v ∧ ∃ id, vols w' !! id = Some v).
Proof.
  intros Hs Hr. apply M_bind_cases in Hr as [(l & w1 & Hl & Hr)|(o1 & Hl & Ho)].
  - apply report_fails_Ret in Hl; [|done]. pose proof (GetVolumesByName_Ret _ _ _ _ _ _ Hl) as Hin.
    apply GetVolumesByName_still in Hl as Hst. destruct l as [|v [|v2 l]].
    + apply (create_new_attempt _ _ _ _ _ _ _ _ _ _ Hs) in Hr. apply (attempt_still _ _ _ w) in Hr; [|done].
      destruct Hr as [[Hr Ho]|[Hc Hv]].
      * split; [left; by apply still_aged|]. by intros v ->.
      * split; [|done]. right. split; [|done]. intros id v Hv' [Hlv Hn].
        assert (v ∈ @nil Volume) as Hv0 by (apply Hin; eauto). by apply elem_of_nil in Hv0.
    + injection Hr as <- <-. split; [left; by apply still_aged|]. intros v' [= <-].
      destruct (proj1 (Hin v) ltac:(by left)) as (_ & Hn & id & Hid). split; [done|]. exists id. by rewrite (proj1 Hst).
    + injection Hr as <- <-. split; [left; by apply still_aged|done].
  - split; [left|by intros v ->]. apply still_aged. eapply (frames_report still); [apply GetVolumesByName_still| |done].
    intros e. apply (frames_lift still (Err _)).
Qed.

Lemma volume_named_same n c v v' : same_volume v v' → volume_named n c v → volume_named n c v'.
Proof. intros E [H1 H2]. unfold same_volume, vol_identity in E. injection E as _ E1 E2 _. split; congruence. Qed.

Lemma volume_available_true v : volume_available v = Ret true → vol_LifecycleState v = VolumeAvailable.
Proof. unfold volume_available. by repeat case_decide. Qed.
Lemma volume_hydrated_true v : volume_hydrated v = Ret true → vol_LifecycleState v = VolumeAvailable.
Proof. unfold volume_hydrated. repeat case_decide; try done. by destruct (vol_IsHydrated v). Qed.

(** C13: whatever the outcome, a request to create a volume creates
    at most one volume, and only at a moment when there is no available or provisioning
    volume with its name in the compartment; the new volume has the name and is as large
    as asked for, unless the size in bytes overflows.  A successful answer names a volume
    with that name which is available. *)
Theorem CreateVolume_idempotent d fuel site ctx req w o w' :
  Controller_CreateVolume d fuel site ctx req w = (o, w') →
  let n := cvr_Name req in let c := d_CompartmentID d in
  (aged w w' ∨
   ∃ size w1 w2, ExtractStorage (cvr_CapacityRange req) = Ret size ∧ aged w w1 ∧
     (∀ id v, vols w1 !! id = Some v → ¬ (live_volume v ∧ volume_named n c v)) ∧ creates n c size w1 w2 ∧ aged w2 w') ∧
  (∀ r, o = Ret r →
     ∃ v, vols w' !! cv_VolumeId r = Some v ∧ volume_named n c v ∧ vol_LifecycleState v = VolumeAvailable).
Proof.
  intros Hr n c. unfold Controller_CreateVolume in Hr.
  apply M_bind_cases in Hr as [([size vp] & w1 & Hc & Hr)|(o1 & Hc & Ho)];
    apply check_create_request_still in Hc as Hst; [|split; [left; by apply still_aged|by intros r ->]].
  apply check_create_request_size in Hc as [Hsize Hs0].
  apply M_bind_cases in Hr as [(src & w2 & Hc2 & Hr)|(o1 & Hc2 & Ho)];
    apply content_source_aged in Hc2 as Ha.
  2: { split; [left; trans w1; [by apply still_aged|done]|by intros r ->]. }
  assert (aged w w2) as Ha2 by (trans w1; [by apply still_aged|done]). clear Ha Hst Hc2 w1.
  destruct (choose_domain (cvr_AccessibilityRequirements req) (src_short src) (src_full src)) as [short full].
  case_decide as Hshort; [injection Hr as <- <-; split; [by left|done]|].
  apply M_bind_cases in Hr as [(v & w3 & Hf & Hr)|(o1 & Hf & Ho)];
    apply (find_or_create_spec _ _ _ _ _ _ _ _ _ _ _ Hs0) in Hf as [Hf Hv].
  2: { split; [|by intros r ->]. destruct Hf as [Hf|[Hn Hf]]; [left; by trans w2|right; by exists size, w2, w']. }
  destruct (Hv v eq_refl) as [Hn [id Hid]]. clear Hv. pose proof (vols_id _ _ _ Hid) as Hvid.
  assert (aged w3 w' → aged w w' ∨ ∃ size w1 w2, ExtractStorage (cvr_CapacityRange req) = Ret size ∧ aged w w1 ∧
     (∀ id v, vols w1 !! id = Some v → ¬ (live_volume v ∧ volume_named n c v)) ∧ creates n c size w1 w2 ∧ aged w2 w') as Hfinal.
  { intros Ha. destruct Hf as [Hf|[Hnone Hf]]; [left; trans w2; [done|by trans w3]|right; by exists size, w2, w3]. }
  rewrite Hvid in Hr. apply M_bind_cases in Hr as [(id' & w4 & Hl & Hr)|(o1 & Hl & Ho)]; [|by injection Hl as _ <-; split; [apply Hfinal|intros r ->]].
  injection Hl as <- <-.
  apply M_bind_cases in Hr as [(v' & w4 & Hw & Hr)|(o1 & Hw & Ho)].
  - apply report_fails_Ret in Hw; [|done]. injection Hr as Hr <-.
    assert (aged w3 w4 ∧ vols w4 !! id = Some v' ∧ vol_LifecycleState v' = VolumeAvailable) as (Ha & Hv' & Hstate).
    { case_decide; apply AwaitVolume_Ret in Hw as (? & ? & ?); split_and!; try done;
        [by apply volume_hydrated_true|by apply volume_available_true]. }
    split; [by apply Hfinal|]. intros r ->. unfold created_volume in Hr. rewrite Hvid in Hr. simpl in Hr.
    apply bind_Ret_inv in Hr as (mbs & _ & Hr). apply bind_Ret_inv in Hr as (ad & _ & Hr). injection Hr as <-. simpl.
    exists v'. split_and!; [done| |done]. destruct (aged_volume _ _ _ _ Ha Hid) as (v2 & Hv2 & Hsame).
    rewrite Hv' in Hv2. injection Hv2 as <-. by eapply volume_named_same.
  - split; [|by intros r ->]. apply Hfinal. eapply (frames_report aged); [| |exact Hw].
    + case_decide; apply (PollImmediateUntil_frames aged), (poll_state_frames aged), GetVolume_aged.
    + intros e. apply (frames_lift aged (Err _)).
Qed.

(** ** Expansion *)

(** No volume is smaller. *)
Definition no_smaller (w w' : W) : Prop := ∀ id v gb,
  vols w !! id = Some v → vol_SizeInGBs v = Some gb →
  ∃ v' gb', vols w' !! id = Some v' ∧ vol_SizeInGBs v' = Some gb' ∧ (gb ≤ gb')%Z.

#[global] Instance no_smaller_preorder : PreOrder no_smaller.
Proof.
  split.
  - intros w id v gb Hv Hgb. by exists v, gb.
  - intros w1 w2 w3 H12 H23 id v gb Hv Hgb. destruct (H12 _ _ _ Hv Hgb) as (v2 & gb2 & Hv2 & Hgb2 & Hle).
    destruct (H23 _ _ _ Hv2 Hgb2) as (v3 & gb3 & Hv3 & Hgb3 & Hle3). exists v3, gb3. split_and!; [done..|lia].
Qed.

Lemma aged_no_smaller w w' : aged w w' → no_smaller w w'.
Proof.
  intros Ha id v gb Hv Hgb. destruct (aged_volume _ _ _ _ Ha Hv) as (v' & Hv' & Hs).
  unfold same_volume, vol_identity in Hs. injection Hs as _ _ _ Hs. exists v', gb. split_and!; [done|congruence|lia].
Qed.

(** The volume becomes [gb] large, or nothing changes. *)
Lemma UpdateVolume_spec id d w o w' v old :
  vols w !! id = Some v → vol_SizeInGBs v = Some old → (old ≤ uvd_SizeInGBs d)%Z → UpdateVolume id d w = (o, w') →
  no_smaller w w' ∧ (is_ret o = true → ∃ v', vols w' !! id = Some v' ∧ vol_SizeInGBs v' = Some (uvd_SizeInGBs d)).
Proof.
  intros Hv Hold Hle Hr. unfold UpdateVolume, limited in Hr. destruct (limits_still w) as [_ Hs].
  destruct (Writer_TryAccept w) as [[] w1]; simpl in Hs; [|injection Hr as <- <-; split; [by apply aged_no_smaller, still_aged|done]].
  apply UpdateVolume_law in Hr as [[Hs' Ho]|(v0 & v' & Hv0 & Hins & _ & Hsz)].
  - split; [|by rewrite Ho]. apply aged_no_smaller, still_aged. by trans w1.
  - split; [|intros _; exists v'; by rewrite Hins, lookup_insert_eq].
    destruct Hs as [Hs _]. rewrite Hs in Hv0, Hins. intros id' v2 gb Hv2 Hgb. rewrite Hins.
    destruct (decide (id' = id)) as [->|Hne].
    + exists v', (uvd_SizeInGBs d). rewrite lookup_insert_eq. split_and!; [done..|]. congruence.
    + exists v2, gb. by rewrite lookup_insert_ne.
Qed.

Lemma RoundUpSize_enough size gb :
  (0 ≤ size)%Z → (size + GiB < 2 ^ 63)%Z → (RoundUpSize size (1 * GiB) ≤ gb)%Z → (size ≤ gb * GiB)%Z.
Proof.
  intros Hs Hb Hle. rewrite Z.mul_1_l, RoundUpSize_exact in Hle by (done || lia).
  assert (0 < GiB)%Z as Hg by done. revert Hb Hg Hle. generalize GiB. intros g Hb Hg Hle.
  pose proof (Z.div_mod (size + g - 1) g ltac:(lia)). pose proof (Z.mod_pos_bound (size + g - 1) g Hg). nia.
Qed.

(** A request to expand a volume makes no volume smaller,
    whatever its outcome; if it succeeds the volume is as large as asked for, unless the
    size in bytes overflows. *)
Lemma ControllerExpandVolume_grows ctx id capacity w o w' :
  ControllerExpandVolume ctx id capacity w = (o, w') →
  no_smaller w w' ∧
  (is_ret o = true → ∃ size v gb, ExtractStorage capacity = Ret size ∧ vols w' !! id = Some v ∧
     vol_SizeInGBs v = Some gb ∧ (size + GiB < 2 ^ 63 → size ≤ gb * GiB)%Z).
Proof.
  intros Hr. unfold ControllerExpandVolume in Hr. case_decide; [by injection Hr as <- <-|].
  destruct (IsBootVolume id); [by injection Hr as <- <-|].
  apply M_bind_cases in Hr as [(size & w1 & He & Hr)|(o1 & He & Ho)]; [|split; [|by rewrite Ho]].
  2: { apply aged_no_smaller, still_aged. eapply (frames_report still); [apply (frames_lift still)| |exact He].
       intros e. apply (frames_lift still (Err _)). }
  apply report_fails_Ret in He; [|done]. injection He as He <-. pose proof (ExtractStorage_nonneg _ _ He) as Hs0.
  apply M_bind_cases in Hr as [(v & w1 & Hg & Hr)|(o1 & Hg & Ho)].
  2: { split; [|by rewrite Ho]. apply aged_no_smaller. eapply (frames_report aged); [apply GetVolume_aged| |exact Hg].
       intros e. apply (frames_lift aged (Err _)). }
  apply report_fails_Ret in Hg; [|done]. apply GetVolume_aged in Hg as Ha.
  unfold GetVolume in Hg. apply limited_Ret in Hg as (w2 & _ & [_ Hv]%GetVolume_law).
  specialize (Hv v eq_refl). apply aged_no_smaller in Ha.
  apply M_bind_cases in Hr as [(old & w3 & Hold & Hr)|(o1 & Hold & Ho)]; injection Hold as Hold <-; [|by rewrite Ho].
  destruct (vol_SizeInGBs v) as [old'|] eqn:Eold; [injection Hold as ->|done].
  case_decide as Hle.
  { injection Hr as <- <-. split; [done|]. intros _. exists size, v, old. split_and!; [done..|]. intros Hb. by apply RoundUpSize_enough. }
  match type of Hr with context [UpdateVolume id ?d] => destruct (UpdateVolume id d w1) as [ou w2u] eqn:Eu end.
  eapply UpdateVolume_spec in Eu as Hu0; [|exact Hv|exact Eold|by apply Z.lt_le_incl, Z.nle_gt]. destruct Hu0 as [Hns Hbig].
  apply M_bind_cases in Hr as [(vu & w3 & Hu & Hr)|(o1 & Hu & Ho)].
  2: { split; [|by rewrite Ho]. trans w1; [done|]. apply (f_equal snd) in Hu. rewrite report_world, Eu in Hu by done.
       simpl in Hu. by subst. }
  apply report_fails_Ret in Hu; [|done]. rewrite Eu in Hu. injection Hu as -> ->.
  destruct (Hbig eq_refl) as (v3 & Hv3 & Hsz3).
  assert (aged w3 w') as Ha3.
  { eapply (frames_bind aged); [| |exact Hr]; [|intros r; apply (frames_lift aged (Ret _))].
    apply (frames_report aged); [|intros e; apply (frames_lift aged (Err _))].
    apply (PollImmediateUntil_frames aged), (poll_state_frames aged), GetVolume_aged. }
  split; [trans w1; [done|]; trans w3; [done|by apply aged_no_smaller]|]. intros _.
  destruct (aged_volume _ _ _ _ Ha3 Hv3) as (v4 & Hv4 & Hs4). unfold same_volume, vol_identity in Hs4.
  injection Hs4 as _ _ _ Hs4. exists size, v4, (RoundUpSize size (1 * GiB)).
  split_and!; [done..|by rewrite Hs4|]. intros Hb. by apply RoundUpSize_enough.
Qed.
End facts.
