(* ===== verification/AttachmentFacts.v ===== *)
(** * Attaching and detaching block volumes

    Over the laws of [StorageLaws]: an attachment that is not shareable stays exclusive
    whatever the outcome of a request is, a volume that is published is attached to the
    instance of the node, and one that is unpublished is not. *)
From stdpp Require Import base tactics list gmap sets strings.
From S2P Require Import Prelude GoStrings Types ClientErrors ClientCalls Annotations CsiUtil CsiUtilFacts StorageClient BlockVolume BlockVolumeFacts.

Section facts.
Context {W : Type} `{!StorageSdk W, !Limits W, !KubeNodes W, !StorageLaws W} {TJ : TagJson} {MR : MapRange} {ET : ErrorText}.

(** Attachments of a volume that the listing of a compartment shows. *)
Definition attached_in (vol c : string) (a : VolumeAttachment) : Prop :=
  live_attachment a ∧ va_VolumeId a = Some vol ∧ va_CompartmentId a = Some c.

(** At most one of them. *)
Definition exclusive (vol c : string) (w : W) : Prop :=
  ∀ id1 id2 a1 a2, atts w !! id1 = Some a1 → atts w !! id2 = Some a2 →
    attached_in vol c a1 → attached_in vol c a2 → id1 = id2.

(** At most one of them is to the instance [i]. *)
Definition exclusive_to (vol c i : string) (w : W) : Prop :=
  ∀ id1 id2 a1 a2, atts w !! id1 = Some a1 → atts w !! id2 = Some a2 →
    attached_in vol c a1 → attached_in vol c a2 → va_InstanceId a1 = Some i → va_InstanceId a2 = Some i → id1 = id2.

(** The volume is attached to the instance. *)
Definition attached_to (vol i : string) (w : W) : Prop :=
  ∃ id a, atts w !! id = Some a ∧ va_VolumeId a = Some vol ∧ va_InstanceId a = Some i ∧ va_LifecycleState a = Attached.

Lemma attached_in_aged vol c w w' id a' :
  aged w w' → atts w' !! id = Some a' → attached_in vol c a' → ∃ a, atts w !! id = Some a ∧ attached_in vol c a.
Proof.
  intros Ha Hid (Hl & Hv & Hc). destruct (aged_attachment_inv _ _ _ _ Ha Hid) as (a & Haid & Hi & Hlive).
  unfold att_identity in Hi. injection Hi as _ _ E1 E2. exists a. unfold attached_in. split_and!; [done|auto|congruence|congruence].
Qed.

Lemma exclusive_aged vol c w w' : aged w w' → exclusive vol c w → exclusive vol c w'.
Proof.
  intros Ha He id1 id2 a1 a2 H1 H2 HA1 HA2.
  destruct (attached_in_aged _ _ _ _ _ _ Ha H1 HA1) as (b1 & ? & ?).
  destruct (attached_in_aged _ _ _ _ _ _ Ha H2 HA2) as (b2 & ? & ?). eauto.
Qed.

Lemma attached_to_aged_still vol i w w' : still w w' → attached_to vol i w → attached_to vol i w'.
Proof. intros [_ Hs] (id & a & Hid & Ha). exists id, a. by rewrite Hs. Qed.

(** ** Listings of attachments *)

Lemma list_page_still c v i page : frames still (limited false "ListVolumeAttachments" (ssdk_ListVolumeAttachments c v i page)).
Proof. apply (limited_frames still); [done|apply ListAttachments_still]. Qed.

Lemma ListVolumeAttachments_still fuel c v : frames still (ListVolumeAttachments fuel c v).
Proof.
  apply (frames_bind still).
  - apply (pages_frames still); [intros page; apply list_page_still|]. intros b l. apply (frames_lift still (Ret _)).
  - intros l. case_decide; [apply (frames_lift still (Err _))|apply (frames_lift still (Ret _))].
Qed.

Lemma ListVolumeAttachments_all fuel c v w l w' :
  pages fuel (λ page, limited false "ListVolumeAttachments" (ssdk_ListVolumeAttachments c v None page))
    (λ acc items, mret (inl (acc ++ filter live_attachment items))) [] None w = (Ret l, w') →
  ∀ a, a ∈ l ↔ attached_in v c a ∧ ∃ id, atts w !! id = Some a.
Proof.
  intros Hr. destruct (ListAttachments_complete c v None w) as (f & Hf & Hps).
  destruct (collect_pages live_attachment
    (λ page, limited false "ListVolumeAttachments" (ssdk_ListVolumeAttachments c v None page)) f
    (λ w1, atts w1 = atts w) fuel None [] w l w') as (_ & ps & Hc & ->); [| |done|done|].
  - intros page w1 o w2 Hw Hl. apply list_page_still in Hl as [_ Hl]. congruence.
  - intros page w1 items next w2 Hw (w3 & [_ Hs] & Hl)%limited_Ret. eapply Hf; [|done]. congruence.
  - intros a. simpl. rewrite list_elem_of_filter, (Hps _ Hc). unfold attached_in. naive_solver.
Qed.

Lemma ListVolumeAttachments_Ret fuel c v w l w' :
  ListVolumeAttachments fuel c v w = (Ret l, w') → ∀ a, a ∈ l ↔ attached_in v c a ∧ ∃ id, atts w !! id = Some a.
Proof.
  intros (l' & w1 & Hp & Hr)%M_bind_Ret_inv. case_decide; [done|]. injection Hr as <- <-.
  by eapply ListVolumeAttachments_all.
Qed.

(** A page that is not found lists a volume without attachments. *)
Lemma pages_missing {B} (visit : B → list VolumeAttachment → B + B) fuel c v i acc w e w' :
  pages fuel (λ page, limited false "ListVolumeAttachments" (ssdk_ListVolumeAttachments c v i page))
    (λ acc items, mret (visit acc items)) acc None w = (Err e, w') →
  IsNotFound (Some e) = true → ∀ id a, atts w !! id = Some a → ¬ attached_in v c a.
Proof.
  intros Hr He id a Hid (Hl & Hv & Hc). apply (pages_Err _ _ (λ w1, atts w1 = atts w)) in Hr as [->|(page & w1 & w2 & Hw & Hp)].
  - done.
  - unfold limited in Hp. destruct (limits_still w1) as [[_ Hs] _].
    destruct (Reader_TryAccept w1) as [[] w3]; simpl in Hs; [|injection Hp as <- _; done].
    eapply ListAttachments_missing; [exact Hp|done| |done..|done]. by rewrite Hs, Hw.
  - intros page w1 o w2 Hw [_ Hp]%list_page_still. congruence.
  - done.
Qed.

Lemma ListVolumeAttachments_missing fuel c v w e w' :
  ListVolumeAttachments fuel c v w = (Err e, w') → IsNotFound (Some e) = true →
  ∀ id a, atts w !! id = Some a → ¬ attached_in v c a.
Proof.
  intros Hr He id a Hid Ha. apply M_bind_Err in Hr as [Hp|(l & w1 & Hp & Hr)].
  - by eapply (pages_missing (λ acc items, inl (acc ++ filter live_attachment items))).
  - case_decide as Hl; [|done]. pose proof (ListVolumeAttachments_all _ _ _ _ _ _ Hp a) as [_ Hin].
    destruct l; [|done]. specialize (Hin ltac:(eauto)). by apply elem_of_nil in Hin.
Qed.

(** ** Attaching *)

(** One attachment of the volume to the instance is added. *)
Definition attaches (vol i : string) (w w' : W) : Prop := ∃ id a,
  atts w !! id = None ∧ atts w' = <[id := a]> (atts w) ∧ vols w' = vols w ∧
  va_VolumeId a = Some vol ∧ va_InstanceId a = Some i.

Lemma attaches_still vol i w w1 w' : still w w1 → attaches vol i w1 w' → attaches vol i w w'.
Proof. intros [H1 H2] (id & a & H). rewrite H1, H2 in H. by exists id, a. Qed.

Lemma exclusive_attaches vol c i w w' :
  (∀ id a, atts w !! id = Some a → ¬ attached_in vol c a) → attaches vol i w w' → exclusive vol c w'.
Proof.
  intros Hno (id & a & _ & Hins & _) id1 id2 a1 a2. rewrite Hins. intros H1 H2 HA1 HA2.
  apply lookup_insert_Some in H1 as [[<- _]|[_ H1]]; [|by destruct (Hno _ _ H1)].
  by apply lookup_insert_Some in H2 as [[<- _]|[_ H2]]; [|by destruct (Hno _ _ H2)].
Qed.

(** A request to attach adds at most one attachment, the one it answers. *)
Definition attach_attempt (vol i : string) (w : W) (o : outcome VolumeAttachment) (w' : W) : Prop :=
  (still w w' ∧ is_ret o = false) ∨
  (attaches vol i w w' ∧ ∀ a, o = Ret a →
     ∃ id, atts w' !! id = Some a ∧ va_VolumeId a = Some vol ∧ va_InstanceId a = Some i).

Lemma attach_attempt_still vol i w w1 o w' :
  still w w1 → attach_attempt vol i w1 o w' → attach_attempt vol i w o w'.
Proof. intros Hs [[H1 H2]|[H1 H2]]; [left; split; [by trans w1|done]|right; split; [by eapply attaches_still|done]]. Qed.

Lemma ssdk_AttachVolume_attempt d w o w' :
  ssdk_AttachVolume d w = (o, w') → attach_attempt (avd_VolumeId d) (avd_InstanceId d) w o w'.
Proof.
  intros [Hr|(id & a & Hnew & Hins & Hvols & Hv & Hi & Ha)]%AttachVolume_law; [by left|right].
  split; [by exists id, a|]. intros a' ->%Ha. exists id. by rewrite Hins, lookup_insert_eq.
Qed.

Lemma writer_limited_attempt vol i err (c : M W VolumeAttachment) w o w' :
  (∀ w o w', c w = (o, w') → attach_attempt vol i w o w') →
  writer_limited err c w = (o, w') → attach_attempt vol i w o w'.
Proof.
  intros Hc Hr. unfold writer_limited in Hr. destruct (limits_still w) as [_ Hs].
  destruct (Writer_TryAccept w) as [[] w1]; simpl in Hs; [|injection Hr as <- <-; by left].
  by eapply attach_attempt_still, Hc.
Qed.

Lemma bind_attempt {A} vol i (c : M W A) (f : A → M W VolumeAttachment) w o w' :
  frames still c → (∀ a w o w', f a w = (o, w') → attach_attempt vol i w o w') →
  (c ≫= f) w = (o, w') → attach_attempt vol i w o w'.
Proof.
  intros Hc Hf [(a & w1 & Hr & Hfa)|(o1 & Hr & Ho)]%M_bind_cases; apply Hc in Hr; [|by left].
  by eapply attach_attempt_still, Hf.
Qed.

Lemma getDevicePath_still i : frames still (getDevicePath i).
Proof.
  apply (frames_bind still); [apply devices_still|]. intros l. case_decide; [apply (frames_lift still (Err _))|].
  by intros w o w' [= _ <-].
Qed.

Lemma report_attempt vol i (c : M W VolumeAttachment) f w o w' :
  (∀ w o w', c w = (o, w') → attach_attempt vol i w o w') → (∀ e w, f e w = (fst (f e w), w) ∧ is_ret (fst (f e w)) = false) →
  report c f w = (o, w') → attach_attempt vol i w o w'.
Proof.
  intros Hc Hf Hr. unfold report, mbind, M_bind, try in Hr. destruct (c w) as [[a|e|] w1] eqn:E; apply Hc in E.
  - by injection Hr as <- <-.
  - destruct (Hf e w1) as [Hf1 Hf2]. rewrite Hf1 in Hr. injection Hr as <- <-. destruct E as [[]|[]]; [by left|right].
    split; [done|]. intros a Ha. by rewrite Ha in Hf2.
  - by injection Hr as <- <-.
Qed.

Lemma publish_context_still req i vpus options a : frames still (publish_context req i vpus options a).
Proof.
  apply (frames_report still); [apply (frames_lift still)|]. intros e. apply (frames_lift still (Err _)).
Qed.

Lemma attachment_attached_true a : attachment_attached a = Ret true → va_LifecycleState a = Attached.
Proof. unfold attachment_attached. repeat case_decide; try done. by destruct (va_Id a). Qed.

(** The requests to attach. *)
Lemma AttachVolume_attempt i vol shareable w o w' :
  AttachVolume i vol shareable w = (o, w') → attach_attempt vol i w o w'.
Proof.
  intros Hr. eapply writer_limited_attempt; [|exact Hr]. clear. intros w o w' Hr. eapply bind_attempt; [| |exact Hr].
  - destruct (IsBootVolume vol); [apply (frames_lift still (Ret _))|apply getDevicePath_still].
  - intros dev w1 o1 w2 Hr1. by apply ssdk_AttachVolume_attempt in Hr1.
Qed.
Lemma AttachParavirtualizedVolume_attempt i vol encrypted shareable w o w' :
  AttachParavirtualizedVolume i vol encrypted shareable w = (o, w') → attach_attempt vol i w o w'.
Proof.
  intros Hr. eapply writer_limited_attempt; [|exact Hr]. clear. intros w o w' Hr.
  eapply bind_attempt; [apply getDevicePath_still| |exact Hr]. intros dev w1 o1 w2 Hr1. by apply ssdk_AttachVolume_attempt in Hr1.
Qed.

(** The attachment that is awaited is the one that was added. *)
Lemma WaitForVolumeAttached_Ret ctx vol i id a w b w' :
  atts w !! id = Some a → va_VolumeId a = Some vol → va_InstanceId a = Some i →
  WaitForVolumeAttached ctx id w = (Ret b, w') →
  atts w' !! id = Some b ∧ va_VolumeId b = Some vol ∧ va_InstanceId b = Some i ∧ va_LifecycleState b = Attached.
Proof.
  intros Hid Hv Hi (Haged & Hb & Hstate)%AwaitAttachment_Ret.
  destruct (aged_attachment _ _ _ _ Haged Hid) as (b' & Hb' & Hident & _). rewrite Hb in Hb'. injection Hb' as <-.
  unfold att_identity in Hident. injection Hident as _ E1 E2 _.
  split_and!; [done|congruence|congruence|by apply attachment_attached_true].
Qed.

(** The attachment is added and awaited. *)
Lemma attach_new_spec ctx req i vpus options w o w' :
  attach_new ctx req i vpus options w = (o, w') →
  (still w w' ∨ ∃ w1, attaches (pr_VolumeId req) i w w1 ∧ aged w1 w') ∧
  (is_ret o = true → attached_to (pr_VolumeId req) i w').
Proof.
  intros Hr. unfold attach_new, mbind, M_bind in Hr.
  match type of Hr with context [match ?c w with _ => _ end] => destruct (c w) as [o1 w1] eqn:E1 end.
  assert (attach_attempt (pr_VolumeId req) i w o1 w1) as Ha.
  { destruct (useParavirtualizedAttachment options); (eapply report_attempt; [| |exact E1]; [|done]); clear; intros w o w' Hr;
      [by eapply AttachParavirtualizedVolume_attempt|by eapply AttachVolume_attempt]. }
  destruct o1 as [a|e|];
    [|injection Hr as <- <-; split; [|done]; destruct Ha as [[]|[]]; [by left|right; by exists w1]..].
  destruct Ha as [[_ ?]|[Hatt Ha]]; [done|]. destruct (Ha a eq_refl) as (id & Hid & Hv & Hi). clear Ha.
  rewrite (atts_id _ _ _ Hid) in Hr. simpl in Hr.
  assert (aged w1 w' ∧ (is_ret o = true → attached_to (pr_VolumeId req) i w')) as [Haged Hto];
    [|split; [right; by exists w1|done]].
  match type of Hr with context [match ?c w1 with _ => _ end] => destruct (c w1) as [o2 w2] eqn:E2 end.
  assert (aged w1 w2) as Haged.
  { eapply (frames_report aged); [| |exact E2].
    - apply (PollImmediateUntil_frames aged), (poll_state_frames aged), GetVolumeAttachment_aged.
    - intros e. apply (frames_lift aged (Err _)). }
  destruct o2 as [b|e|]; [|by injection Hr as <- <-..]. apply report_fails_Ret in E2; [|done].
  apply (WaitForVolumeAttached_Ret _ (pr_VolumeId req) i id a) in E2 as (Hb & HbV & HbI & HbS); [|done..].
  apply publish_context_still in Hr as Hs. split; [trans w2; [done|by apply still_aged]|]. intros _.
  apply (attached_to_aged_still _ _ w2); [done|]. by exists id, b.
Qed.
Lemma WaitForVolumeDetached_aged ctx id : frames aged (WaitForVolumeDetached ctx id).
Proof.
  apply (frames_bind aged); [|intros a; apply (frames_lift aged (Ret _))].
  apply (PollImmediateUntil_frames aged), (poll_state_frames aged), GetVolumeAttachment_aged.
Qed.

Lemma WaitForVolumeAttached_aged ctx id : frames aged (WaitForVolumeAttached ctx id).
Proof. apply (PollImmediateUntil_frames aged), (poll_state_frames aged), GetVolumeAttachment_aged. Qed.

Lemma WaitForVolumeDetached_Ret ctx id w w' :
  WaitForVolumeDetached ctx id w = (Ret (), w') → ∃ a, atts w' !! id = Some a ∧ va_LifecycleState a = Detached.
Proof.
  intros (a & w1 & Hw & Hr)%M_bind_Ret_inv. injection Hr as <-.
  apply AwaitAttachment_Ret in Hw as (_ & Ha & Hd). injection Hd as Hd%bool_decide_eq_true. eauto.
Qed.

(** An attachment to the instance that is not being detached. *)
Lemma reuse_attachment_spec ctx req i vpus options a w o w' id :
  atts w !! id = Some a → live_attachment a → va_LifecycleState a ≠ Detaching →
  va_VolumeId a = Some (pr_VolumeId req) → va_InstanceId a = Some i →
  reuse_attachment ctx req i vpus options a w = (o, w') →
  aged w w' ∧ (∀ context, o = Ret (Some context) → attached_to (pr_VolumeId req) i w') ∧ o ≠ Ret None.
Proof.
  intros Hid Hlive Hnd Hvol Hi Ha. unfold reuse_attachment in Ha. rewrite (atts_id _ _ _ Hid) in Ha.
  apply M_bind_cases in Ha as [(id' & w0 & Hl & Ha)|(o1 & Hl & Ho)]; [|injection Hl as _ <-; by destruct o].
  injection Hl as <- <-. apply M_bind_cases in Ha as [(node & w2 & Hn & Ha)|(o1 & Hn & Ho)].
  2: { split; [|by destruct o]. destruct (decide (va_LifecycleState a = Attaching)); [|by injection Hn as _ <-].
       eapply (frames_report aged); [apply WaitForVolumeAttached_aged| |exact Hn]. intros ?. apply (frames_fail aged). }
  assert (aged w w2 ∧ atts w2 !! id = Some node ∧ va_LifecycleState node = Attached) as (Haged & Hnode & Hstate).
  { destruct (decide (va_LifecycleState a = Attaching)) as [Hatt|Hatt].
    - apply report_fails_Ret in Hn; [|done]. apply AwaitAttachment_Ret in Hn as (? & ? & ?).
      split_and!; [done..|by apply attachment_attached_true].
    - injection Hn as <- <-. split_and!; [done..|]. destruct Hlive as [|[|]]; by auto. }
  rewrite decide_True in Ha by done.
  assert (still w2 w') as Hs.
  { eapply (frames_bind still); [apply publish_context_still| |exact Ha]. intros c. apply (frames_lift still (Ret _)). }
  split; [trans w2; [done|by apply still_aged]|]. split.
  - intros context _. apply (attached_to_aged_still _ _ w2); [done|]. exists id, node.
    destruct (aged_attachment _ _ _ _ Haged Hid) as (b & Hb & Hident & _). rewrite Hnode in Hb. injection Hb as <-.
    unfold att_identity in Hident. injection Hident as _ E1 E2 _. split_and!; [done|congruence|congruence|done].
  - intros ->. by apply M_bind_Ret_inv in Ha as (c & w3 & _ & Ha).
Qed.

(** What is done when the volume has an attachment and is not shareable. *)
Lemma existing_attachment_spec ctx req i vpus options first l w o w' fid :
  isShareable options = false → atts w !! fid = Some first → live_attachment first →
  va_VolumeId first = Some (pr_VolumeId req) →
  existing_attachment ctx req i vpus options first l w = (o, w') →
  aged w w' ∧ (∀ context, o = Ret (Some context) → attached_to (pr_VolumeId req) i w') ∧
  (o = Ret None → ∃ b, atts w' !! fid = Some b ∧ va_LifecycleState b = Detached) ∧
  (va_LifecycleState first ≠ Detaching → va_InstanceId first ≠ Some i → is_ret o = false).
Proof.
  intros Hopt Hfid Hlive Hvol Hr. unfold existing_attachment in Hr. rewrite Hopt, (atts_id _ _ _ Hfid) in Hr.
  apply M_bind_cases in Hr as [(id' & w0 & Hl & Hr)|(o1 & Hl & Ho)]; [|by injection Hl as <- <-; destruct o].
  injection Hl as <- <-.
  match type of Hr with (?c ≫= ?f) w = _ => set (answer := c) in Hr; set (rest := f) in Hr end.
  assert (∀ r w1, rest r w1 = (Ret r, w1)) as Hrest by (intros [] w1; done).
  assert (aged w (answer w).2 ∧ (∀ context, (answer w).1 = Ret (Some context) → attached_to (pr_VolumeId req) i (answer w).2) ∧
    ((answer w).1 = Ret None → ∃ b, atts (answer w).2 !! fid = Some b ∧ va_LifecycleState b = Detached) ∧
    (va_LifecycleState first ≠ Detaching → va_InstanceId first ≠ Some i → is_ret (answer w).1 = false)) as Hans; [|].
  2: { unfold mbind, M_bind in Hr. destruct (answer w) as [[r|e|] w1]; simpl in Hans; [|by injection Hr as <- <-..].
       rewrite Hrest in Hr. by injection Hr as <- <-. }
  clear rest Hrest Hr. destruct (answer w) as [r w1] eqn:Ha. unfold answer in Ha. clear answer o w'. simpl.
  case_decide as Hd.
  - destruct Hd as [_ Hd]. apply M_bind_cases in Ha as [(inst & w2 & Hi & Ha)|(o1 & Hi & Ho)];
      [|injection Hi as _ <-; by destruct r].
    injection Hi as _ <-. apply M_bind_cases in Ha as [([] & w2 & Hw & Ha)|(o1 & Hw & Ho)].
    + injection Ha as <- <-. apply report_fails_Ret in Hw; [|done].
      split; [by eapply WaitForVolumeDetached_aged|]. split; [done|]. split; [|done]. intros _.
      by eapply WaitForVolumeDetached_Ret.
    + split; [|by destruct r]. eapply (frames_report aged); [apply WaitForVolumeDetached_aged| |exact Hw].
      intros e. apply (frames_fail aged).
  - assert (va_LifecycleState first ≠ Detaching) as Hnd by tauto.
    apply M_bind_cases in Ha as [(inst & w2 & Hi & Ha)|(o1 & Hi & Ho)]; [|split; [|by destruct r]].
    2: { destruct (va_InstanceId first) as [inst|]; [|by injection Hi as _ <-].
         unfold mbind, M_bind in Hi. simpl in Hi. by case_decide; injection Hi as _ <-. }
    apply M_bind_Ret_inv in Hi as (inst' & w3 & Hi & Hi2). apply lift_Ret_inv in Hi as [Hi ->].
    destruct (va_InstanceId first) as [inst''|] eqn:Einst; [injection Hi as ->|done].
    case_decide as Hinst; [|done]. subst inst'. injection Hi2 as <- <-.
    destruct (reuse_attachment_spec _ _ _ _ _ _ _ _ _ _ Hfid Hlive Hnd Hvol Einst Ha) as (H1 & H2 & H3).
    split_and!; [done..| |by intros _ []]. by intros ->.
Qed.
Lemma LookupNodeID_still n : frames still (LookupNodeID n).
Proof.
  apply (frames_bind still); [apply (frames_try still), Nodes_still|]. intros [e|node]; [apply (frames_fail still)|].
  case_decide; [apply (frames_fail still)|apply (frames_lift still (Ret _))].
Qed.

Lemma LookupNodeCompartment_still n : frames still (LookupNodeCompartment n).
Proof.
  apply (frames_bind still); [apply Nodes_still|]. intros node. destruct (_ !! _); [case_decide|];
    apply (frames_fail still) || apply (frames_lift still (Ret _)).
Qed.

Lemma check_boot_volume_still req cap attach vpus : frames still (check_boot_volume (W := W) req cap attach vpus).
Proof.
  unfold check_boot_volume. destruct (IsBootVolume _); [|apply (frames_lift still (Ret _))].
  apply (frames_bind still).
  - apply (frames_report still); [apply (frames_lift still)|]. intros e. apply (frames_fail still).
  - intros []. repeat case_decide; apply (frames_fail still) || apply (frames_lift still (Ret _)).
Qed.

Lemma publish_options_still req cap shareable : frames still (publish_options req cap shareable).
Proof.
  apply (frames_bind still).
  { apply (frames_report still); [apply LookupNodeID_still|]. intros e. apply (frames_fail still). }
  intros provider. apply (frames_bind still); [apply check_boot_volume_still|]. intros []. apply (frames_bind still).
  { apply (frames_report still); [|intros e; apply (frames_fail still)]. apply (frames_bind still).
    - apply (limited_frames still); [done|apply instance_still].
    - intros inst. apply (frames_bind still); [apply (frames_lift still)|]. intros opts.
      apply (frames_bind still); [apply (frames_lift still)|]. intros enc. apply (frames_lift still (Ret _)). }
  intros options. destruct (_ && _); [apply (frames_fail still)|]. apply (frames_bind still).
  { apply (frames_report still); [apply LookupNodeCompartment_still|]. intros e. apply (frames_fail still). }
  intros c. apply (frames_lift still (Ret _)).
Qed.

(** What the Kubernetes API says of a node does not change. *)
Definition node_stable (name : string) (node : Node) : Prop :=
  ∀ w n w', Nodes_Get name w = (Ret n, w') → n = node.

Definition instance_of (node : Node) : string := MapProviderIDToInstanceID (node_ProviderID node).

Lemma LookupNodeID_Ret name node w p w' :
  node_stable name node → LookupNodeID name w = (Ret p, w') → p = node_ProviderID node ∧ p ≠ "".
Proof.
  intros Hst (r & w1 & Ht & Hr)%M_bind_Ret_inv. unfold try in Ht.
  destruct (Nodes_Get name w) as [[n|e|] w2] eqn:E; [..|done]; injection Ht as <- <-; [|done].
  apply Hst in E as ->. case_decide; [done|]. by injection Hr as <- _.
Qed.

Lemma LookupNodeCompartment_Ret name node w c w' :
  node_stable name node → LookupNodeCompartment name w = (Ret c, w') →
  node_Annotations node !! CompartmentIDAnnotation = Some c.
Proof.
  intros Hst (n & w1 & Hn & Hr)%M_bind_Ret_inv. apply Hst in Hn as ->.
  destruct (_ !! _) as [c'|]; [|done]. case_decide; [|done]. by injection Hr as <- _.
Qed.

Lemma publish_options_Ret req cap shareable node w i options c vpus w' :
  node_stable (pr_NodeId req) node →
  publish_options req cap shareable w = (Ret (i, options, c, vpus), w') →
  i = instance_of node ∧ isShareable options = shareable ∧ node_Annotations node !! CompartmentIDAnnotation = Some c.
Proof.
  intros Hst (p & w1 & Hp & Hr)%M_bind_Ret_inv. apply report_fails_Ret in Hp; [|done].
  apply (LookupNodeID_Ret _ node) in Hp as [-> _]; [|done].
  apply M_bind_Ret_inv in Hr as ([] & w2 & _ & Hr). apply M_bind_Ret_inv in Hr as (opts & w3 & Ho & Hr).
  destruct (_ && _); [done|]. apply M_bind_Ret_inv in Hr as (c' & w4 & Hc & Hr). injection Hr as <- <- <- _ _.
  apply report_fails_Ret in Hc, Ho; [|done..]. split; [done|]. split; [|by eapply LookupNodeCompartment_Ret].
  apply M_bind_Ret_inv in Ho as (inst & w5 & _ & Ho). apply M_bind_Ret_inv in Ho as (l & w6 & _ & Ho).
  apply M_bind_Ret_inv in Ho as (enc & w7 & _ & Ho). by injection Ho as <- _.
Qed.

(** What a request to attach [vol] to the instance [i] achieves. *)
Definition publish_outcome {A} (vol c i : string) (w : W) (o : outcome A) (w' : W) : Prop :=
  exclusive vol c w' ∧ (is_ret o = true → attached_to vol i w') ∧
  (∀ id a, atts w !! id = Some a → attached_in vol c a → va_LifecycleState a ≠ Detaching →
     va_InstanceId a ≠ Some i → is_ret o = false ∧ aged w w').

Lemma publish_failed {A} vol c i w (o : outcome A) w' :
  exclusive vol c w → aged w w' → is_ret o = false → publish_outcome vol c i w o w'.
Proof. intros He Ha Ho. split; [by eapply exclusive_aged|]. split; [by rewrite Ho|done]. Qed.

Lemma publish_still {A} vol c i w w1 (o : outcome A) w' :
  still w w1 → publish_outcome vol c i w1 o w' → publish_outcome vol c i w o w'.
Proof.
  intros Hs (H1 & H2 & H3). split_and!; [done..|]. intros id a Hid. destruct Hs as [Hs1 Hs2] eqn:E. intros Ha Hd Hi.
  destruct (H3 id a) as [? Haged]; [by rewrite Hs2|done..|]. split; [done|]. trans w1; [by apply still_aged|done].
Qed.

Lemma attach_new_outcome ctx req i vpus options c w o w' :
  (∀ id a, atts w !! id = Some a → ¬ attached_in (pr_VolumeId req) c a) →
  attach_new ctx req i vpus options w = (o, w') → publish_outcome (pr_VolumeId req) c i w o w'.
Proof.
  intros Hno [Hw Hto]%attach_new_spec. split; [|split; [done|]].
  - destruct Hw as [[_ Hs]|(w1 & Ha & Hw)].
    + intros id1 id2 a1 a2 H1 _ HA1. rewrite Hs in H1. by destruct (Hno _ _ H1).
    + by eapply exclusive_aged, exclusive_attaches.
  - intros id a Hid Ha. by destruct (Hno _ _ Hid).
Qed.

(** The volume has live attachments. *)
Lemma publish_existing ctx req i vpus options first l c w o w' :
  isShareable options = false → exclusive (pr_VolumeId req) c w →
  (∀ a, a ∈ first :: l ↔ attached_in (pr_VolumeId req) c a ∧ ∃ id, atts w !! id = Some a) →
  (existing ← existing_attachment ctx req i vpus options first (first :: l);
   match existing with Some context => mret context | None => attach_new ctx req i vpus options end) w = (o, w') →
  publish_outcome (pr_VolumeId req) c i w o w'.
Proof.
  intros Hopt Hex Hl Hr. destruct (proj1 (Hl first) ltac:(by left)) as [Hfirst [fid Hfid]].
  assert (∀ id a, atts w !! id = Some a → attached_in (pr_VolumeId req) c a → id = fid ∧ a = first) as Hone.
  { intros id a Hid Ha. assert (id = fid) as -> by eauto. split; congruence. }
  destruct Hfirst as (Hlive & Hvol & Hcomp).
  apply M_bind_cases in Hr as [(existing & w1 & He & Hr)|(o1 & He & Ho)];
    destruct (existing_attachment_spec _ _ _ _ _ _ _ _ _ _ _ Hopt Hfid Hlive Hvol He) as (Haged & Hto & Hgone & Helse).
  2: { by apply publish_failed, Ho. }
  destruct existing as [context|].
  - injection Hr as <- <-. split; [by eapply exclusive_aged|]. split; [eauto|].
    intros id a Hid Ha Hnd Hi. destruct (Hone id a Hid Ha) as [-> ->]. by specialize (Helse Hnd Hi).
  - destruct (Hgone eq_refl) as (b & Hb & Hdet).
    assert (∀ id a, atts w1 !! id = Some a → ¬ attached_in (pr_VolumeId req) c a) as Hno.
    { intros id a Hid Ha. destruct (attached_in_aged _ _ _ _ _ _ Haged Hid Ha) as (a0 & Ha0 & Hin).
      destruct (Hone _ _ Ha0 Hin) as [-> _]. rewrite Hb in Hid. injection Hid as <-.
      destruct Ha as [[Hd|[Hd|Hd]] _]; by rewrite Hd in Hdet. }
    destruct (attach_new_outcome _ _ _ _ _ _ _ _ _ Hno Hr) as (H1 & H2 & _). split_and!; [done..|].
    intros id a Hid Ha Hnd Hi. destruct (Hone id a Hid Ha) as [-> ->]. by specialize (Helse Hnd Hi).
Qed.

Lemma publish_listed fuel ctx req i vpus options c w o w' :
  isShareable options = false → exclusive (pr_VolumeId req) c w →
  (attachments ← report (ListVolumeAttachments fuel c (pr_VolumeId req))
     (λ err, if IsNotFound (Some err) then mret []
             else truncated Internal "Failed to list volume attachments for volume %s. error :  %s"
                    [pr_VolumeId req; GetOCIServiceError (Some err)]);
   match attachments with
   | [] => attach_new ctx req i vpus options
   | first :: _ =>
       existing ← existing_attachment ctx req i vpus options first attachments;
       match existing with Some context => mret context | None => attach_new ctx req i vpus options end
   end) w = (o, w') →
  publish_outcome (pr_VolumeId req) c i w o w'.
Proof.
  intros Hopt Hex Hr. unfold mbind at 1, M_bind at 1 in Hr.
  destruct (ListVolumeAttachments fuel c (pr_VolumeId req) w) as [[l|e|] w1] eqn:El;
    apply ListVolumeAttachments_still in El as Hs.
  - rewrite (report_done _ _ _ _ _ El) in Hr. apply (publish_still _ _ _ _ w1); [done|].
    pose proof (ListVolumeAttachments_Ret _ _ _ _ _ _ El) as Hl. destruct Hs as [Hs1 Hs2] eqn:E. rewrite <-Hs2 in Hl.
    assert (exclusive (pr_VolumeId req) c w1) as Hex1 by (by eapply exclusive_aged; [apply still_aged|]).
    destruct l as [|first l]; [|by eapply publish_existing].
    eapply attach_new_outcome; [|exact Hr]. intros id a Hid Ha. apply (not_elem_of_nil a), Hl. eauto.
  - rewrite (report_Err _ _ _ _ _ El) in Hr. destruct (IsNotFound (Some e)) eqn:He.
    + apply (publish_still _ _ _ _ w1); [done|]. eapply attach_new_outcome; [|exact Hr].
      destruct Hs as [_ Hs]. rewrite Hs. by eapply ListVolumeAttachments_missing.
    + injection Hr as <- <-. by apply publish_failed; [|apply still_aged|].
  - rewrite (report_Panic _ _ _ _ El) in Hr. injection Hr as <- <-. by apply publish_failed; [|apply still_aged|].
Qed.

(** C14: a request to attach a volume with an access mode
    other than MULTI_NODE_MULTI_WRITER keeps, whatever its outcome, at most one live
    attachment of the volume in the compartment of the node.  If it succeeds the volume is
    attached to the instance of the node; if the volume is attached, or being attached, to
    another instance the request fails and attaches nothing. *)
Theorem ControllerPublishVolume_exclusive fuel ctx req cap node c w o w' :
  pr_VolumeCapability req = Some cap → cap_AccessMode cap ≠ Some MULTI_NODE_MULTI_WRITER →
  node_stable (pr_NodeId req) node → node_Annotations node !! CompartmentIDAnnotation = Some c →
  exclusive (pr_VolumeId req) c w → ControllerPublishVolume fuel ctx req w = (o, w') →
  publish_outcome (pr_VolumeId req) c (instance_of node) w o w'.
Proof.
  intros Hcap Hmode Hst Hc Hex Hr. unfold ControllerPublishVolume in Hr. rewrite Hcap in Hr.
  case_decide; [injection Hr as <- <-; by apply publish_failed|].
  case_decide; [injection Hr as <- <-; by apply publish_failed|]. rewrite bool_decide_eq_false_2 in Hr by done.
  apply M_bind_cases in Hr as [([[[i options] c'] vpus] & w1 & Hp & Hr)|(o1 & Hp & Ho)];
    apply publish_options_still in Hp as Hs; [|by apply publish_failed, Ho; [|apply still_aged]].
  apply (publish_options_Ret _ _ _ node) in Hp as (-> & Hopt & Hc'); [|done].
  rewrite Hc in Hc'. injection Hc' as <-. apply (publish_still _ _ _ _ w1); [done|].
  assert (exclusive (pr_VolumeId req) c w1) as Hex1 by (by eapply exclusive_aged; [apply still_aged|]).
  clear Hex Hs w. by eapply publish_listed.
Qed.
(** ** Detaching *)

Lemma first_attachment_Some items a err :
  first_attachment items = Some (a, err) →
  a ∈ items ∧ live_attachment a ∧
  (err = None ∧ (va_LifecycleState a = Attaching ∨ va_LifecycleState a = Attached) ∨
   err = Some NotFoundErr ∧ va_LifecycleState a = Detaching).
Proof.
  induction items as [|b items IH]; simpl; [done|]. case_decide as H1.
  - intros [= <- <-]. split; [by left|]. split; [|by left]. unfold live_attachment. tauto.
  - case_decide as H2.
    + intros [= <- <-]. split; [by left|]. split; [|by right]. unfold live_attachment. tauto.
    + intros (? & ? & ?)%IH. split; [by right|done].
Qed.

Lemma first_attachment_None items a : first_attachment items = None → a ∈ items → ¬ live_attachment a.
Proof.
  induction items as [|b items IH]; simpl; [by intros _ ?%elem_of_nil|]. case_decide; [done|]. case_decide; [done|].
  intros Hn [->|Ha]%elem_of_cons; [unfold live_attachment; tauto|by apply IH].
Qed.

(** The search ends at a page with a live attachment, or has seen all pages. *)
Lemma first_pages (list_page : option string → M W (list VolumeAttachment * option string))
    (f : option string → list VolumeAttachment * option string) (I : W → Prop) fuel page w r w' :
  (∀ page w o w', I w → list_page page w = (o, w') → I w') →
  (∀ page w items next w', I w → list_page page w = (Ret (items, next), w') → f page = (items, next)) →
  I w →
  pages fuel list_page (λ _ items, mret (match first_attachment items with Some r => inr (Some r) | None => inl None end))
    None page w = (Ret r, w') →
  (∃ page w1 items next w2, I w1 ∧ list_page page w1 = (Ret (items, next), w2) ∧ r = first_attachment items ∧ is_Some r) ∨
  (r = None ∧ ∃ ps, page_chain f page ps ∧ ∀ a, a ∈ concat ps → ¬ live_attachment a).
Proof.
  intros HI Hf. revert page w. induction fuel as [|fuel IH]; intros page w Hw Hr; [done|]. simpl in Hr.
  apply M_bind_Ret_inv in Hr as ([items next] & w1 & Hl & Hr). apply M_bind_Ret_inv in Hr as (b & w2 & Hv & Hr).
  injection Hv as <- <-. destruct (first_attachment items) as [x|] eqn:E.
  { injection Hr as <- _. left. exists page, w, items, next, w1. by rewrite E. }
  pose proof (Hf _ _ _ _ _ Hw Hl) as Hp. destruct next as [next|].
  - apply IH in Hr as [Hr|(-> & ps & Hc & Hno)]; [by left| |by eapply HI]. right. split; [done|].
    exists (items :: ps). split; [by econstructor|]. simpl. intros a [Ha|Ha]%elem_of_app; [by eapply first_attachment_None|auto].
  - injection Hr as <- _. right. split; [done|]. exists [items]. split; [by constructor|]. simpl. intros a.
    rewrite app_nil_r. by apply first_attachment_None.
Qed.

Lemma FindVolumeAttachment_still fuel c v i : frames still (FindVolumeAttachment fuel c v i).
Proof.
  apply (frames_bind still); [apply (frames_try still), (pages_frames still)|].
  - intros page. apply list_page_still.
  - intros b l. apply (frames_lift still (Ret _)).
  - intros r. apply (frames_lift still (Ret _)).
Qed.

(** The search finds a live attachment, to the instance if there is one to look for, or
    there is none unless another error is answered. *)
Lemma FindVolumeAttachment_found fuel c v i w found err w' :
  FindVolumeAttachment fuel c v i w = (Ret (found, err), w') →
  (∃ a id, found = Some a ∧ atts w !! id = Some a ∧ attached_in v c a ∧ (∀ i', i = Some i' → va_InstanceId a = Some i') ∧
     (err = None ∧ (va_LifecycleState a = Attaching ∨ va_LifecycleState a = Attached) ∨
      err = Some NotFoundErr ∧ va_LifecycleState a = Detaching)) ∨
  (∃ e, found = None ∧ err = Some e ∧
     (IsNotFound (Some e) = true → ∀ id a, atts w !! id = Some a → attached_in v c a →
      ∃ i', i = Some i' ∧ va_InstanceId a ≠ Some i')).
Proof.
  intros (r & w1 & Ht & Hr)%M_bind_Ret_inv. unfold try in Ht.
  match type of Ht with context [match ?c w with _ => _ end] => destruct (c w) as [[x|e|] w2] eqn:Ep end; [..|done];
    injection Ht as <- <-; simpl in Hr.
  - destruct (ListAttachments_complete c v i w) as (f & Hf & Hps).
    apply (first_pages _ f (λ w1, atts w1 = atts w)) in Ep as [(page & w3 & items & next & w4 & Hw & Hl & Hx & [[a ea] Ha])|(-> & ps & Hc & Hno)].
    + rewrite Hx in Ha. left. rewrite Hx, Ha in Hr. injection Hr as <- <- _.
      apply first_attachment_Some in Ha as (Hin & Hlive & Herr). apply limited_Ret in Hl as (w5 & [_ Hs] & Hl).
      destruct (ListAttachments_sound _ _ _ _ _ _ _ _ Hl a Hin) as (Hv & Hcm & Hi & id & Hid).
      exists a, id. split_and!; [done|by rewrite <-Hw, <-Hs|by split|done|done].
    + right. exists NotFoundErr. injection Hr as <- <- _. split_and!; [done..|]. intros _ id a Hid (Hlive & Hv & Hcm).
      destruct i as [i|]; [exists i; split; [done|]; intros Hi|exfalso]; (apply (Hno a); [|done]); apply (Hps _ Hc);
        (split_and!; [done..| |by exists id]); by intros i' [= <-].
    + intros page w3 o w4 Hw [_ Hl]%list_page_still. congruence.
    + intros page w3 items next w4 Hw (w5 & [_ Hs] & Hl)%limited_Ret. eapply Hf; [|done]. congruence.
    + done.
  - right. exists e. injection Hr as <- <- _. split_and!; [done..|]. intros He id a Hid Ha. exfalso.
    by eapply (pages_missing (λ _ items, match first_attachment items with Some r => inr (Some r) | None => inl None end)).
Qed.

(** The search for the attachment to one instance. *)
Lemma FindVolumeAttachment_Ret fuel c v i w found err w' :
  FindVolumeAttachment fuel c v (Some i) w = (Ret (found, err), w') →
  (∃ a id, found = Some a ∧ atts w !! id = Some a ∧ attached_in v c a ∧ va_InstanceId a = Some i ∧
     (err = None ∨ err = Some NotFoundErr)) ∨
  (∃ e, found = None ∧ err = Some e ∧
     (IsNotFound (Some e) = true → ∀ id a, atts w !! id = Some a → attached_in v c a → va_InstanceId a ≠ Some i)).
Proof.
  intros [(a & id & -> & Hid & Ha & Hi & Herr)|(e & -> & -> & Hno)]%FindVolumeAttachment_found; [left|right].
  - exists a, id. split_and!; [done..|by apply Hi|naive_solver].
  - exists e. split_and!; [done..|]. intros He id a Hid Ha. by destruct (Hno He id a Hid Ha) as (i' & [= <-] & ?).
Qed.

Lemma detach_request_aged a id vol inst :
  frames aged (if decide (va_LifecycleState a = Detaching) then mret ()
               else _ ← lift (deref (va_InstanceId a)); id ← lift (deref (Some id));
                    report (DetachVolume id)
                      (λ err, truncated (W := W) Internal "failed to detach volume %s from instance %s. error : %s"
                                [vol; inst; GetOCIServiceError (Some err)])).
Proof.
  case_decide; [apply (frames_lift aged (Ret _))|]. apply (frames_bind aged); [apply (frames_lift aged)|]. intros _.
  apply (frames_bind aged); [apply (frames_lift aged)|]. intros id'.
  apply (frames_report aged); [|intros e; apply (frames_fail aged)].
  apply (writer_limited_frames aged); [apply still_aged|apply DetachVolume_law].
Qed.

Lemma detach_spec ctx vol inst a id w o w' :
  atts w !! id = Some a → detach ctx vol inst a w = (o, w') →
  aged w w' ∧ (o = Ret () → ∀ b, atts w' !! id = Some b → ¬ live_attachment b).
Proof.
  intros Hid Hr. unfold detach in Hr. rewrite (atts_id _ _ _ Hid) in Hr.
  apply M_bind_cases in Hr as [([] & w1 & Hd & Hr)|(o1 & Hd & Ho)].
  2: { split; [|by intros ->]. revert Hd. apply detach_request_aged. }
  apply detach_request_aged in Hd.
  apply M_bind_cases in Hr as [(inst' & w2 & Hl & Hr)|(o1 & Hl & Ho)]; injection Hl as _ <-; [|split; [done|by intros ->]].
  apply M_bind_cases in Hr as [(id' & w2 & Hl & Hr)|(o1 & Hl & Ho)]; injection Hl as <- <-; [|split; [done|by intros ->]].
  apply M_bind_cases in Hr as [([] & w2 & Hw & Hr)|(o1 & Hw & Ho)].
  2: { split; [|by intros ->]. trans w1; [done|].
       eapply (frames_report aged); [apply WaitForVolumeDetached_aged| |exact Hw]. intros e. apply (frames_fail aged). }
  apply report_fails_Ret in Hw; [|done]. apply WaitForVolumeDetached_aged in Hw as Hw2.
  apply WaitForVolumeDetached_Ret in Hw as (b & Hb & Hstate).
  assert (aged w2 w') as Hlast.
  { destruct (va_IsMultipath a) as [[]|]; [|by injection Hr as _ <-..].
    eapply (frames_bind aged); [| |exact Hr]; [apply (frames_try aged)|intros r; apply (frames_lift aged (Ret _))].
    apply (frames_bind aged); [|intros r; apply (frames_lift aged (Ret _))].
    apply (PollImmediateUntil_frames aged), (poll_state_frames aged), GetVolumeAttachment_aged. }
  split; [trans w1; [done|by trans w2]|]. intros _ b' Hb' Hlive.
  destruct (aged_attachment _ _ _ _ Hlast Hb) as (b2 & Hb2 & _ & Hl). rewrite Hb' in Hb2. injection Hb2 as <-.
  destruct (Hl Hlive) as [Hx|[Hx|Hx]]; by rewrite Hx in Hstate.
Qed.

Lemma LookupNodeID_answers name node w :
  (∀ w, ∃ w', Nodes_Get name w = (Ret node, w')) → node_ProviderID node ≠ "" →
  ∃ w', LookupNodeID name w = (Ret (node_ProviderID node), w') ∧ still w w'.
Proof.
  intros Hnode Hp. destruct (Hnode w) as [w1 Hw1]. exists w1. split; [|by eapply Nodes_still].
  unfold LookupNodeID, mbind, M_bind, try. by rewrite Hw1, decide_False.
Qed.

(** The attachment to the instance, if there is one, is detached. *)
Lemma unpublish_found fuel ctx vol i c w o w' :
  exclusive_to vol c i w →
  ('(found, err) ← FindVolumeAttachment fuel c vol (Some i);
   _ ← match found with
       | Some attached => if decide (is_Some (va_Id attached)) then _ ← lift (deref (va_IsShareable attached)); mret () else mret ()
       | None => mret ()
       end;
   match found, err with
   | None, Some err =>
       if IsNotFound (Some err) then mret ()
       else truncated Internal "Failed to find volume attachment for volume %s to instance %s. error : %s"
              [vol; i; GetOCIServiceError (Some err)]
   | Some attached, Some err =>
       if IsNotFound (Some err) then detach ctx vol i attached
       else truncated Internal "Failed to find volume attachment for volume %s to instance %s. error : %s"
              [vol; i; GetOCIServiceError (Some err)]
   | Some attached, None => detach ctx vol i attached
   | None, None => lift Panic
   end) w = (o, w') →
  aged w w' ∧ (o = Ret () → ∀ id a, atts w' !! id = Some a → attached_in vol c a → va_InstanceId a ≠ Some i).
Proof.
  intros Hone Hr. apply M_bind_cases in Hr as [([found err] & w1 & Hf & Hr)|(o1 & Hf & Ho)];
    apply FindVolumeAttachment_still in Hf as Hs; [|split; [by apply still_aged|by intros ->]].
  apply FindVolumeAttachment_Ret in Hf as [(a & id & -> & Hid & Ha & Hi & Herr)|(e & -> & -> & Hnone)].
  - apply M_bind_cases in Hr as [([] & w2 & Hsh & Hr)|(o1 & Hsh & Ho)].
    2: { assert (w' = w1) as ->; [|split; [by apply still_aged|by intros ->]].
         case_decide; [|by injection Hsh]. unfold mbind, M_bind in Hsh. destruct (va_IsShareable a); by injection Hsh. }
    assert (w2 = w1) as ->.
    { case_decide; [|by injection Hsh]. unfold mbind, M_bind in Hsh. destruct (va_IsShareable a); by injection Hsh. }
    assert (detach ctx vol i a w1 = (o, w')) as Hd by (by destruct Herr as [-> | ->]).
    apply (detach_spec _ _ _ _ id) in Hd as [Haged Hgone]; [|destruct Hs as [_ Hs]; by rewrite Hs].
    assert (aged w w') as Haged' by (trans w1; [by apply still_aged|done]). split; [done|].
    intros -> id' a' Hid' Ha' Hi'. destruct (attached_in_aged _ _ _ _ _ _ Haged' Hid' Ha') as (a0 & Ha0 & Hin0).
    destruct (aged_attachment _ _ _ _ Haged' Ha0) as (a2 & Ha2 & Hident & _). rewrite Hid' in Ha2. injection Ha2 as <-.
    unfold att_identity in Hident. injection Hident as _ E1 _ _.
    assert (id' = id) as -> by (eapply Hone; [exact Ha0|exact Hid|done..|congruence|done]).
    by apply (Hgone eq_refl a'), Ha'.
  - assert (w' = w1) as ->.
    { apply M_bind_cases in Hr as [([] & w2 & Hl & Hr)|(o1 & Hl & Ho)]; injection Hl as <-; [|done..].
      destruct (IsNotFound (Some e)); by injection Hr. }
    split; [by apply still_aged|]. intros -> id a Hid. destruct Hs as [_ Hs]. rewrite Hs in Hid. revert Hid.
    apply Hnone. unfold mbind, M_bind in Hr. simpl in Hr. by destruct (IsNotFound (Some e)).
Qed.

(** C15: a request to detach a volume from a node that
    the Kubernetes API knows adds and removes nothing, whatever its outcome, and if it
    succeeds no attachment of the volume to the instance of the node is left in the
    compartment of the node.  (There is at most one before, and the node has a provider
    id: without it the request succeeds and detaches nothing.) *)
Theorem ControllerUnpublishVolume_detaches fuel ctx vol name node c w o w' :
  (∀ w, ∃ w', Nodes_Get name w = (Ret node, w')) → node_Annotations node !! CompartmentIDAnnotation = Some c →
  node_ProviderID node ≠ "" → exclusive_to vol c (instance_of node) w →
  ControllerUnpublishVolume fuel ctx vol name w = (o, w') →
  aged w w' ∧
  (o = Ret () → ∀ id a, atts w' !! id = Some a → attached_in vol c a → va_InstanceId a ≠ Some (instance_of node)).
Proof.
  intros Hnode Hc Hp Hone Hr. unfold ControllerUnpublishVolume in Hr. case_decide; [by injection Hr as <- <-|].
  assert (node_stable name node) as Hst.
  { intros w1 n w2 Hn. destruct (Hnode w1) as [w3 Hw3]. congruence. }
  unfold mbind at 1, M_bind at 1, try in Hr.
  destruct (LookupNodeCompartment name w) as [[c'|e|] w1] eqn:Ec; apply LookupNodeCompartment_still in Ec as Hs.
  - apply (LookupNodeCompartment_Ret _ node) in Ec; [|done]. rewrite Hc in Ec. injection Ec as <-.
    destruct (LookupNodeID_answers name node w1 Hnode Hp) as (w2 & Hid & Hs2).
    unfold mbind at 1, M_bind at 1 in Hr. rewrite Hid in Hr.
    assert (still w w2) as Hs' by (by trans w1). clear Hs Hs2 Hid w1.
    destruct (unpublish_found fuel ctx vol (instance_of node) c w2 o w') as [Haged Hno]; [|exact Hr|].
    { destruct Hs' as [_ Hs']. unfold exclusive_to. by rewrite Hs'. }
    split; [|done]. trans w2; [by apply still_aged|done].
  - unfold LookupNodeCompartment, mbind, M_bind in Ec. destruct (Hnode w) as [w2 Hw2]. rewrite Hw2, Hc in Ec.
    case_decide; [done|]. injection Ec as <- <-. injection Hr as <- <-. split; [by apply still_aged|done].
  - injection Hr as <- <-. split; [by apply still_aged|done].
Qed.
End facts.
