(* ===== verification/StorageMemory.v ===== *)
(** * Block storage in memory

    A block storage and compute service that satisfies [StorageLaws], and runs of the
    volume controller on it. *)
From stdpp Require Import base tactics list gmap sets strings.
From S2P Require Import Prelude GoStrings Types ClientErrors ClientCalls Annotations CsiUtil CsiUtilFacts StorageClient BlockVolume BlockParameters BlockVolumeFacts AttachmentFacts.

Record storage_world := {
  sw_vols : gmap string Volume;
  sw_atts : gmap string VolumeAttachment;
}.

(** A resource is known by the key it is stored under. *)
Definition with_vol_id (id : string) (v : Volume) : Volume := {|
  vol_Id := Some id; vol_DisplayName := vol_DisplayName v; vol_CompartmentId := vol_CompartmentId v;
  vol_AvailabilityDomain := vol_AvailabilityDomain v; vol_LifecycleState := vol_LifecycleState v;
  vol_SizeInGBs := vol_SizeInGBs v; vol_SizeInMBs := vol_SizeInMBs v; vol_IsHydrated := vol_IsHydrated v |}.
Definition with_att_id (id : string) (a : VolumeAttachment) : VolumeAttachment := {|
  va_Id := Some id; va_InstanceId := va_InstanceId a; va_VolumeId := va_VolumeId a;
  va_CompartmentId := va_CompartmentId a; va_LifecycleState := va_LifecycleState a;
  va_IsShareable := va_IsShareable a; va_IsMultipath := va_IsMultipath a; va_Device := va_Device a;
  va_IscsiLoginState := va_IscsiLoginState a; va_iscsi := va_iscsi a |}.

Definition memory_vols (w : storage_world) : gmap string Volume :=
  map_imap (λ id v, Some (with_vol_id id v)) (sw_vols w).
Definition memory_atts (w : storage_world) : gmap string VolumeAttachment :=
  map_imap (λ id a, Some (with_att_id id a)) (sw_atts w).

Definition put_vol (id : string) (v : Volume) (w : storage_world) : storage_world :=
  {| sw_vols := <[id := v]> (sw_vols w); sw_atts := sw_atts w |}.
Definition put_att (id : string) (a : VolumeAttachment) (w : storage_world) : storage_world :=
  {| sw_vols := sw_vols w; sw_atts := <[id := a]> (sw_atts w) |}.

Definition missing_resource : error := ServiceError 404 "NotAuthorizedOrNotFound" "".

(** Reading a resource lets it reach the state it is on the way to. *)
Definition vol_settled (v : Volume) : Volume := {|
  vol_Id := vol_Id v; vol_DisplayName := vol_DisplayName v; vol_CompartmentId := vol_CompartmentId v;
  vol_AvailabilityDomain := vol_AvailabilityDomain v;
  vol_LifecycleState := if decide (vol_LifecycleState v = VolumeProvisioning) then VolumeAvailable else vol_LifecycleState v;
  vol_SizeInGBs := vol_SizeInGBs v; vol_SizeInMBs := vol_SizeInMBs v; vol_IsHydrated := vol_IsHydrated v |}.
Definition att_in_state (s : string) (a : VolumeAttachment) : VolumeAttachment := {|
  va_Id := va_Id a; va_InstanceId := va_InstanceId a; va_VolumeId := va_VolumeId a;
  va_CompartmentId := va_CompartmentId a; va_LifecycleState := s;
  va_IsShareable := va_IsShareable a; va_IsMultipath := va_IsMultipath a; va_Device := va_Device a;
  va_IscsiLoginState := va_IscsiLoginState a; va_iscsi := va_iscsi a |}.
Definition att_settled (a : VolumeAttachment) : VolumeAttachment :=
  let s := va_LifecycleState a in
  att_in_state (if decide (s = Attaching) then Attached else if decide (s = Detaching) then Detached else s) a.

Definition new_volume (id : string) (d : CreateVolumeDetails) : Volume := {|
  vol_Id := Some id; vol_DisplayName := Some (cvd_DisplayName d); vol_CompartmentId := Some (cvd_CompartmentId d);
  vol_AvailabilityDomain := Some (cvd_AvailabilityDomain d); vol_LifecycleState := VolumeProvisioning;
  vol_SizeInGBs := match cvd_SizeInGBs d with Some gb => Some gb | None => (λ mb, mb `div` 1024)%Z <$> cvd_SizeInMBs d end;
  vol_SizeInMBs := match cvd_SizeInMBs d with Some mb => Some mb | None => (λ gb, 1024 * gb)%Z <$> cvd_SizeInGBs d end;
  vol_IsHydrated := Some true |}.
Definition resized (d : UpdateVolumeDetails) (v : Volume) : Volume := {|
  vol_Id := vol_Id v; vol_DisplayName := uvd_DisplayName d; vol_CompartmentId := vol_CompartmentId v;
  vol_AvailabilityDomain := vol_AvailabilityDomain v; vol_LifecycleState := VolumeProvisioning;
  vol_SizeInGBs := Some (uvd_SizeInGBs d); vol_SizeInMBs := Some (1024 * uvd_SizeInGBs d)%Z; vol_IsHydrated := vol_IsHydrated v |}.
Definition new_attachment (id : string) (d : AttachVolumeDetails) : VolumeAttachment := {|
  va_Id := Some id; va_InstanceId := Some (avd_InstanceId d); va_VolumeId := Some (avd_VolumeId d);
  va_CompartmentId := Some "compartment"; va_LifecycleState := Attaching; va_IsShareable := Some (avd_IsShareable d);
  va_IsMultipath := Some false; va_Device := avd_Device d; va_IscsiLoginState := "";
  va_iscsi := Some {| iscsi_Iqn := Some "iqn.2015-12.com.oracleiaas:1"; iscsi_Ipv4 := Some "169.254.2.2";
                      iscsi_Port := Some 3260%Z; iscsi_MultipathDevices := [] |} |}.

Definition memory_volumes (c n : string) (w : storage_world) : list Volume :=
  filter (λ v, vol_DisplayName v = Some n ∧ vol_CompartmentId v = Some c) (map_to_list (memory_vols w)).*2.
Definition memory_attachments (c v : string) (i : option string) (w : storage_world) : list VolumeAttachment :=
  filter (λ a, va_VolumeId a = Some v ∧ va_CompartmentId a = Some c ∧ (i = None ∨ va_InstanceId a = i))
    (map_to_list (memory_atts w)).*2.

Definition memory_storage : StorageSdk storage_world := {|
  ssdk_GetVolume id w := match memory_vols w !! id with
                         | Some v => (Ret (vol_settled v), put_vol id (vol_settled v) w)
                         | None => (Err missing_resource, w)
                         end;
  ssdk_GetBootVolume id w := (Ret {| bv_Id := Some id |}, w);
  ssdk_GetVolumeBackup id w := (Err missing_resource, w);
  ssdk_CreateVolume d w := let id := fresh (dom (sw_vols w)) in (Ret (new_volume id d), put_vol id (new_volume id d) w);
  ssdk_CreateVolumeBackup d w := (Err missing_resource, w);
  ssdk_UpdateVolume id d w := match memory_vols w !! id with
                              | Some v => (Ret (resized d v), put_vol id (resized d v) w)
                              | None => (Err missing_resource, w)
                              end;
  ssdk_DeleteVolume id w := (Ret (), {| sw_vols := delete id (sw_vols w); sw_atts := sw_atts w |});
  ssdk_DeleteVolumeBackup id w := (Err missing_resource, w);
  ssdk_ListVolumes c n page w := (Ret (memory_volumes c n w, None), w);
  ssdk_ListVolumeBackups c n page w := (Ret ([], None), w);
  ssdk_ListVolumeAttachments c v i page w := (Ret (memory_attachments c v i w, None), w);
  ssdk_GetVolumeAttachment id w := match memory_atts w !! id with
                                   | Some a => (Ret (att_settled a), put_att id (att_settled a) w)
                                   | None => (Err missing_resource, w)
                                   end;
  ssdk_AttachVolume d w := let id := fresh (dom (sw_atts w)) in (Ret (new_attachment id d), put_att id (new_attachment id d) w);
  ssdk_DetachVolume id w := match memory_atts w !! id with
                            | Some a => if decide (live_attachment a) then (Ret (), put_att id (att_in_state Detaching a) w)
                                        else (Err missing_resource, w)
                            | None => (Err missing_resource, w)
                            end;
  ssdk_ListInstanceDevices id w := (Ret [Some "/dev/oracleoci/oraclevdb"], w);
  ssdk_GetInstance id w := (Ret {| inst_PvEncryption := Some (Some false) |}, w);
  ssdk_ListAvailabilityDomains c w := (Ret [Some "zkJl:PHX-AD-1"], w);
  rand_Intn n w := 0;
|}.

Definition storage_limits : Limits storage_world := {|
  Reader_TryAccept w := (true, w); Writer_TryAccept w := (true, w); poll_ticks w := 3 |}.

Definition memory_node : Node := {|
  node_Name := "node"; node_Labels := ∅; node_Annotations := {[CompartmentIDAnnotation := "compartment"]};
  node_ProviderID := "oci://instance"; node_Addresses := []; node_Conditions := [] |}.

Definition memory_nodes : KubeNodes storage_world := {|
  Nodes_Get name w := if decide (name = "node") then (Ret memory_node, w) else (Err (KubeNotFound name), w) |}.

(** ** The laws *)

Lemma memory_vols_Some w id v :
  memory_vols w !! id = Some v ↔ ∃ v0, sw_vols w !! id = Some v0 ∧ v = with_vol_id id v0.
Proof.
  unfold memory_vols. rewrite map_lookup_imap. destruct (sw_vols w !! id) as [v0|]; simpl; [|naive_solver].
  split; [intros [= <-]; eauto|]. by intros (v1 & [= <-] & ->).
Qed.

Lemma memory_atts_Some w id a :
  memory_atts w !! id = Some a ↔ ∃ a0, sw_atts w !! id = Some a0 ∧ a = with_att_id id a0.
Proof.
  unfold memory_atts. rewrite map_lookup_imap. destruct (sw_atts w !! id) as [a0|]; simpl; [|naive_solver].
  split; [intros [= <-]; eauto|]. by intros (a1 & [= <-] & ->).
Qed.

Lemma memory_put_vol id v w : vol_Id v = Some id → memory_vols (put_vol id v w) = <[id := v]> (memory_vols w).
Proof.
  intros Hid. unfold memory_vols, put_vol; simpl. rewrite (map_imap_insert_Some _ _ _ _ (with_vol_id id v)) by done.
  f_equal. destruct v; simpl in *. by rewrite Hid.
Qed.

Lemma memory_put_att id a w : va_Id a = Some id → memory_atts (put_att id a w) = <[id := a]> (memory_atts w).
Proof.
  intros Hid. unfold memory_atts, put_att; simpl. rewrite (map_imap_insert_Some _ _ _ _ (with_att_id id a)) by done.
  f_equal. destruct a; simpl in *. by rewrite Hid.
Qed.

Lemma memory_vols_id w id v : memory_vols w !! id = Some v → vol_Id v = Some id.
Proof. by intros (v0 & _ & ->)%memory_vols_Some. Qed.
Lemma memory_atts_id w id a : memory_atts w !! id = Some a → va_Id a = Some id.
Proof. by intros (a0 & _ & ->)%memory_atts_Some. Qed.

Lemma memory_fresh {A} (m : gmap string A) : m !! (fresh (dom m)) = None.
Proof. apply not_elem_of_dom, is_fresh. Qed.

Lemma values_elem {A} (m : gmap string A) a : a ∈ (map_to_list m).*2 ↔ ∃ id, m !! id = Some a.
Proof.
  rewrite list_elem_of_fmap. split.
  - intros ([id b] & -> & Hb%elem_of_map_to_list). eauto.
  - intros [id Hid%elem_of_map_to_list]. by exists (id, a).
Qed.

(** Replacing a resource by one that is the same. *)
Lemma related_insert {A} (R : A → A → Prop) `{!Reflexive R} (m : gmap string A) id a b :
  m !! id = Some a → R a b → map_relation (λ _, R) (λ _ _, False) (λ _ _, False) m (<[id := b]> m).
Proof.
  intros Hid HR k. destruct (decide (k = id)) as [->|Hk].
  - by rewrite Hid, lookup_insert_eq.
  - rewrite lookup_insert_ne by done. by destruct (m !! k); simpl.
Qed.

(** A listing of one page. *)
Lemma one_page {A} (items : list A) page ps : page_chain (λ _, (items, None)) page ps → ps = [items].
Proof. intros Hc. inversion Hc as [? ? E|? ? ? ? E]; [by injection E as ->|done]. Qed.

Lemma memory_attachments_elem c v i w a :
  a ∈ memory_attachments c v i w ↔
  va_VolumeId a = Some v ∧ va_CompartmentId a = Some c ∧ (∀ i', i = Some i' → va_InstanceId a = Some i') ∧
  ∃ id, memory_atts w !! id = Some a.
Proof.
  unfold memory_attachments. rewrite list_elem_of_filter, values_elem.
  destruct i as [i|]; naive_solver.
Qed.

Definition memory_storage_laws :
  let _ := memory_storage in let _ := storage_limits in let _ := memory_nodes in StorageLaws storage_world.
Proof.
  intros S L N.
  assert (∀ w, map_relation (λ _, same_volume) (λ _ _, False) (λ _ _, False) (memory_vols w) (memory_vols w)) as Hv0.
  { intros w. apply related_refl, _. }
  assert (∀ w, map_relation (λ _, same_attachment) (λ _ _, False) (λ _ _, False) (memory_atts w) (memory_atts w)) as Ha0.
  { intros w. apply related_refl, _. }
  refine {| vols := memory_vols; atts := memory_atts |}.
  - exact memory_vols_id.
  - exact memory_atts_id.
  - done.
  - intros n w o w'. simpl. by case_decide; intros [= _ <-].
  - by intros id w o w' [= _ <-].
  - by intros id w o w' [= _ <-].
  - by intros id w o w' [= _ <-].
  - by intros id w o w' [= _ <-].
  - by intros c n page w o w' [= _ <-].
  - intros c n w. exists (λ _, (memory_volumes c n w, None)). split.
    + intros w1 page items next w2 Hw [= <- <- _]. unfold memory_volumes. by rewrite Hw.
    + intros ps ->%one_page v. simpl. rewrite app_nil_r. unfold memory_volumes. rewrite list_elem_of_filter, values_elem. tauto.
  - by intros c v i page w o w' [= _ <-].
  - intros c v i w. exists (λ _, (memory_attachments c v i w, None)). split.
    + intros w1 page items next w2 Hw [= <- <- _]. unfold memory_attachments. by rewrite Hw.
    + intros ps ->%one_page a. simpl. rewrite app_nil_r. apply memory_attachments_elem.
  - intros c v i page w items next w' [= <- _ _] a Ha. by apply memory_attachments_elem.
  - done.
  - intros id w o w'. simpl. destruct (memory_vols w !! id) as [v|] eqn:E; intros [= <- <-]; [|by split].
    rewrite memory_put_vol by (simpl; by eapply memory_vols_id).
    split; [split; [by eapply related_insert; [apply _|done|]|exact (Ha0 w)]|]. intros v' [= <-]. by rewrite lookup_insert_eq.
  - intros id w o w'. simpl. destruct (memory_atts w !! id) as [a|] eqn:E; intros [= <- <-]; [|by split].
    rewrite memory_put_att by (simpl; by eapply memory_atts_id).
    split; [split; [exact (Hv0 w)|]|intros a' [= <-]; by rewrite lookup_insert_eq].
    eapply related_insert; [apply _|done|]. split; [done|]. unfold live_attachment; simpl. repeat case_decide; tauto.
  - intros d w o w' [= <- <-]. right. exists (fresh (dom (sw_vols w))), (new_volume (fresh (dom (sw_vols w))) d).
    rewrite memory_put_vol by done. split_and!; try done; [| | |by intros v' [= <-]]; [|by simpl; intros ? ->..].
    unfold memory_vols. by rewrite map_lookup_imap, memory_fresh.
  - intros id d w o w'. simpl. destruct (memory_vols w !! id) as [v|] eqn:E; intros [= <- <-]; [right|by left].
    exists v, (resized d v). by rewrite memory_put_vol by (simpl; by eapply memory_vols_id).
  - intros d w o w' [= <- <-]. right. exists (fresh (dom (sw_atts w))), (new_attachment (fresh (dom (sw_atts w))) d).
    rewrite memory_put_att by done. split_and!; try done; [|by intros v' [= <-]].
    unfold memory_atts. by rewrite map_lookup_imap, memory_fresh.
  - intros id w o w'. simpl. destruct (memory_atts w !! id) as [a|] eqn:E; [|by intros [= _ <-]].
    case_decide; intros [= _ <-]; [|by split]. rewrite memory_put_att by (simpl; by eapply memory_atts_id).
    split; [exact (Hv0 w)|]. eapply related_insert; [apply _|done|by split].
  - intros id w o w' [= _ <-].
    assert (memory_vols {| sw_vols := delete id (sw_vols w); sw_atts := sw_atts w |} !! id = None) as Hid.
    { unfold memory_vols. simpl. by rewrite map_lookup_imap, lookup_delete_eq. }
    split_and!; [done| |by rewrite Hid..]. intros k Hk. unfold memory_vols. simpl. by rewrite !map_lookup_imap, lookup_delete_ne by done.
Defined.

(** ** Runs *)

Definition no_json : TagJson := {|
  json_freeform _ := inr None; json_defined _ := inr None; json_devices _ := inr "[]" |}.

#[local] Existing Instances memory_storage storage_limits memory_nodes memory_storage_laws no_json list_range plain_text.

Definition empty_storage : storage_world := {| sw_vols := ∅; sw_atts := ∅ |}.
Definition block_driver : BlockVolumeControllerDriver := {|
  d_CompartmentID := "compartment"; d_Tags := None; d_enableOkeSystemTags := false; d_ipv6SingleStackCluster := false |}.
Definition single_writer : VolumeCapability := {| cap_AccessType := Mount; cap_AccessMode := Some SINGLE_NODE_WRITER |}.
Definition create_request : CreateVolumeRequest := {|
  cvr_Name := "pvc"; cvr_VolumeCapabilities := [single_writer];
  cvr_CapacityRange := Some {| RequiredBytes := 100 * GiB; LimitBytes := 0 |}; cvr_Parameters := ∅;
  cvr_VolumeContentSource := None;
  cvr_AccessibilityRequirements := Some {| Preferred := [{[LabelTopologyZone := "PHX-AD-1"]}]; Requisite := [] |} |}.

Definition created := Controller_CreateVolume block_driver 3 0 None create_request empty_storage.
(** A retry of the request. *)
Definition created_again := Controller_CreateVolume block_driver 3 0 None create_request created.2.

Lemma CreateVolume_idempotent_witness :
  is_ret created_again.1 = true ∧ vols created_again.2 = vols created.2 ∧
  (∀ r, created_again.1 = Ret r → ∃ v, vols created_again.2 !! cv_VolumeId r = Some v ∧
     volume_named "pvc" "compartment" v ∧ vol_LifecycleState v = VolumeAvailable).
Proof.
  split; [vm_compute; reflexivity|]. split; [vm_compute; reflexivity|].
  apply (CreateVolume_idempotent block_driver 3 0 None create_request created.2).
  apply surjective_pairing.
Defined.

Definition expanded :=
  ControllerExpandVolume None "volume" (Some {| RequiredBytes := 200 * GiB; LimitBytes := 0 |})
    (put_vol "volume" (new_volume "volume" (sized_details "pvc" (100 * GiB) "zkJl:PHX-AD-1" "compartment" "" "" "" 10
       {| tag_FreeformTags := ∅; tag_DefinedTags := ∅ |})) empty_storage).

Lemma ControllerExpandVolume_grows_witness :
  is_ret expanded.1 = true ∧
  ∃ size v gb, ExtractStorage (Some {| RequiredBytes := 200 * GiB; LimitBytes := 0 |}) = Ret size ∧
    vols expanded.2 !! "volume" = Some v ∧ vol_SizeInGBs v = Some gb ∧ (size + GiB < 2 ^ 63 → size ≤ gb * GiB)%Z.
Proof.
  split; [vm_compute; reflexivity|].
  apply (ControllerExpandVolume_grows None "volume" (Some {| RequiredBytes := 200 * GiB; LimitBytes := 0 |})
           _ expanded.1 expanded.2 (surjective_pairing _)).
  vm_compute; reflexivity.
Defined.

Definition publish_request : PublishRequest := {|
  pr_VolumeId := "volume"; pr_NodeId := "node"; pr_VolumeCapability := Some single_writer; pr_VolumeContext := ∅ |}.
Definition published := ControllerPublishVolume 3 None publish_request empty_storage.

Lemma memory_node_stable : node_stable "node" memory_node.
Proof. by intros w n w' [= <- _]. Qed.

(** No attachment, hence at most one. *)
Lemma empty_exclusive vol c : exclusive vol c empty_storage.
Proof. intros id1 id2 a1 a2 H. change (memory_atts empty_storage !! id1 = Some a1) in H. by apply memory_atts_Some in H as (a & H & _). Qed.

Lemma ControllerPublishVolume_exclusive_witness :
  is_ret published.1 = true ∧ exclusive "volume" "compartment" published.2 ∧ attached_to "volume" "instance" published.2.
Proof.
  split; [vm_compute; reflexivity|].
  destruct (ControllerPublishVolume_exclusive 3 None publish_request single_writer memory_node "compartment"
    empty_storage published.1 published.2) as (H1 & H2 & _).
  - reflexivity.
  - discriminate.
  - exact memory_node_stable.
  - reflexivity.
  - apply empty_exclusive.
  - apply surjective_pairing.
  - split; [exact H1|]. apply H2. vm_compute; reflexivity.
Defined.

Definition one_attachment : storage_world := {|
  sw_vols := ∅;
  sw_atts := {["attachment" := att_in_state Attached (new_attachment "attachment"
    {| avd_InstanceId := "instance"; avd_VolumeId := "volume"; avd_IsShareable := false; avd_Device := None;
       avd_IsPvEncryptionInTransitEnabled := None |})]} |}.
Definition unpublished := ControllerUnpublishVolume 3 None "volume" "node" one_attachment.

Lemma one_attachment_exclusive : exclusive_to "volume" "compartment" "instance" one_attachment.
Proof.
  assert (∀ id a, memory_atts one_attachment !! id = Some a → id = "attachment") as H.
  { intros id a (b & Hb & _)%memory_atts_Some. simpl in Hb. by apply lookup_singleton_Some in Hb as [<- _]. }
  intros id1 id2 a1 a2 H1%H H2%H _ _ _ _. by subst.
Qed.

Lemma ControllerUnpublishVolume_detaches_witness :
  unpublished.1 = Ret () ∧
  ∀ id a, atts unpublished.2 !! id = Some a → attached_in "volume" "compartment" a → va_InstanceId a ≠ Some "instance".
Proof.
  split; [vm_compute; reflexivity|].
  apply (ControllerUnpublishVolume_detaches 3 None "volume" "node" memory_node "compartment"
    one_attachment unpublished.1 unpublished.2).
  - intros w. exists w. reflexivity.
  - reflexivity.
  - discriminate.
  - exact one_attachment_exclusive.
  - apply surjective_pairing.
  - vm_compute; reflexivity.
Defined.

Definition iscsi_options : VolumeAttachmentOption := {|
  useParavirtualizedAttachment := false; enableInTransitEncryption := false; isShareable := false;
  enforceLimit := true; maxVolumeAttachments := 1 |}.
Definition an_attachment : VolumeAttachment := new_attachment "attachment"
  {| avd_InstanceId := "instance"; avd_VolumeId := "volume"; avd_IsShareable := false; avd_Device := None;
     avd_IsPvEncryptionInTransitEnabled := None |}.
Definition iscsi_context : gmap string string :=
  match generatePublishContext iscsi_options an_attachment "10" "" "" with Ret ctx => ctx | _ => ∅ end.

Lemma publish_context_roundtrip_witness :
  generatePublishContext iscsi_options an_attachment "10" "" "" = Ret iscsi_context ∧
  ∃ d iqn ip port, va_iscsi an_attachment = Some d ∧ iscsi_Iqn d = Some iqn ∧ iscsi_Ipv4 d = Some ip ∧
    iscsi_Port d = Some port ∧
    ((- 2 ^ 63 ≤ port < 2 ^ 63)%Z →
     ExtractISCSIInformation iscsi_context = Ret {| disk_IQN := iqn; disk_IscsiIp := ip; disk_Port := port |}).
Proof.
  assert (generatePublishContext iscsi_options an_attachment "10" "" "" = Ret iscsi_context) as H by (vm_compute; reflexivity).
  split; [exact H|]. apply (publish_context_roundtrip iscsi_options an_attachment "10" "" "" iscsi_context H). reflexivity.
Defined.
