(* ===== verification/FileStorageClient.v ===== *)
(** * The client of file storage (src/pkg/oci/client/file_storage.go)

    File systems, mount targets and exports over the class [FssSdk].  The loops that look
    resources up by name never pass the page they were answered: a listing with more than
    one page repeats the first. *)
From stdpp Require Import base tactics list gmap sets strings.
From S2P Require Import Prelude GoStrings ClientErrors ClientCalls.

(** ** Types of the SDK *)

Record FileSystem := {
  fs_Id : option string;
  fs_CompartmentId : option string;
  fs_DisplayName : option string;
  fs_LifecycleState : string;
  fs_FreeformTags : option (gmap string string);
}.

(** [filestorage.FileSystemSummary] and [filestorage.MountTargetSummary]. *)
Record Summary := {
  sum_Id : option string;
  sum_LifecycleState : string;
}.

Record MountTarget := {
  mt_Id : option string;
  mt_DisplayName : option string;
  mt_LifecycleState : string;
  mt_PrivateIpIds : list string;
  mt_ExportSetId : option string;
}.

Record Export := {
  ex_Id : option string;
  ex_Path : option string;
  ex_LifecycleState : string;
}.

Record ExportSummary := {
  es_Id : option string;
  es_Path : option string;
  es_LifecycleState : string;
}.

Record CreateFileSystemDetails := {
  cfd_AvailabilityDomain : string;
  cfd_CompartmentId : string;
  cfd_DisplayName : string;
  cfd_FreeformTags : option (gmap string string);
  cfd_DefinedTags : option (gmap string (gmap string string));
  cfd_KmsKeyId : option string;
}.

Record CreateMountTargetDetails := {
  cmd_AvailabilityDomain : string;
  cmd_CompartmentId : string;
  cmd_DisplayName : string;
  cmd_SubnetId : string;
  cmd_FreeformTags : option (gmap string string);
  cmd_DefinedTags : option (gmap string (gmap string string));
  cmd_NsgIds : list string;
}.

(** [CO] is [filestorage.ClientOptions]. *)
Record CreateExportDetails (CO : Type) := {
  ced_ExportSetId : string;
  ced_FileSystemId : string;
  ced_Path : string;
  ced_ExportOptions : option (list CO);
}.
Arguments Build_CreateExportDetails {CO}.
Arguments ced_ExportSetId {CO}. Arguments ced_FileSystemId {CO}.
Arguments ced_Path {CO}. Arguments ced_ExportOptions {CO}.

Class FssSdk (W CO : Type) := {
  fsdk_CreateFileSystem : CreateFileSystemDetails → M W FileSystem;
  fsdk_GetFileSystem : string → M W FileSystem;
  fsdk_ListFileSystems : string → string → string → option string → M W (list Summary * option string);
  fsdk_DeleteFileSystem : string → M W ();
  fsdk_GetMountTarget : string → M W MountTarget;
  fsdk_CreateMountTarget : CreateMountTargetDetails → M W MountTarget;
  fsdk_DeleteMountTarget : string → M W ();
  fsdk_ListMountTargets : string → string → string → option string → M W (list Summary * option string);
  fsdk_CreateExport : CreateExportDetails CO → M W Export;
  fsdk_GetExport : string → M W Export;
  fsdk_ListExports : string → string → option string → M W (list ExportSummary * option string);
  fsdk_DeleteExport : string → M W ();
}.

(** Whether the array of a slice of [n] elements has room for one more, which the
    runtime decides. *)
Class SliceRoom := { room : nat → bool }.

Definition Active : string := "ACTIVE".
Definition Creating : string := "CREATING".
Definition Deleting : string := "DELETING".
Definition Deleted : string := "DELETED".
Definition Failed : string := "FAILED".
Definition defaultInterval : Z := 5.

(** ** Looking up by name *)

(** What the loops keep: the resources that are active or being created, the others,
    whether there are others, and whether the array of the former holds the last of the
    latter just behind its elements. *)
Record Found := {
  fnd_summaries : list Summary;
  fnd_conflicting : list Summary;
  fnd_foundConflicting : bool;
  fnd_aliased : bool;
}.
Definition nothing_found : Found := {|
  fnd_summaries := []; fnd_conflicting := []; fnd_foundConflicting := false; fnd_aliased := false |}.

Definition usable (s : Summary) : Prop := sum_LifecycleState s = Active ∨ sum_LifecycleState s = Creating.
#[global] Instance usable_dec s : Decision (usable s).
Proof. unfold usable. apply _. Defined.

(** Conflicting file systems are appended to the usable ones: an element that is appended
    to those later overwrites the last of them if they share an array. *)
Definition file_system_step `{!SliceRoom} (f : Found) (s : Summary) : Found :=
  let n := length (fnd_summaries f) in
  if decide (usable s) then
    {| fnd_summaries := fnd_summaries f ++ [s];
       fnd_conflicting := if fnd_aliased f then <[n := s]> (fnd_conflicting f) else fnd_conflicting f;
       fnd_foundConflicting := fnd_foundConflicting f; fnd_aliased := false |}
  else
    {| fnd_summaries := fnd_summaries f; fnd_conflicting := fnd_summaries f ++ [s];
       fnd_foundConflicting := true; fnd_aliased := room n |}.

Definition mount_target_step (f : Found) (s : Summary) : Found :=
  if decide (usable s) then
    {| fnd_summaries := fnd_summaries f ++ [s]; fnd_conflicting := fnd_conflicting f;
       fnd_foundConflicting := fnd_foundConflicting f; fnd_aliased := false |}
  else
    {| fnd_summaries := fnd_summaries f; fnd_conflicting := fnd_conflicting f ++ [s];
       fnd_foundConflicting := true; fnd_aliased := false |}.

Section client.
Context {W CO : Type} `{!FssSdk W CO, !Limits W, !SliceRoom}.

(** The loop over pages, which asks for the first page again and again until the answer
    has no next page.  An error ends it with what was found so far. *)
Fixpoint by_name (fuel : nat) (step : Found → Summary → Found) (list_page : option string → M W (list Summary * option string))
    (f : Found) : M W (Found * option error) :=
  match fuel with
  | 0 => fail (Errorf "out of fuel" [])
  | S fuel =>
      r ← try (limited false "ListFileSystems" (list_page None));
      match r with
      | inl err => mret (f, Some err)
      | inr (items, next) =>
          let f := fold_left step items f in
          match next with None => mret (f, None) | Some _ => by_name fuel step list_page f end
      end
  end.

Definition by_name_answer (message : string) (r : Found * option error) : bool * list Summary * option error :=
  match r with
  | (f, Some err) => (fnd_foundConflicting f, [], Some err)
  | (f, None) => if fnd_foundConflicting f then (true, fnd_conflicting f, Some (Errorf message []))
                 else (false, fnd_summaries f, None)
  end.

Definition GetFileSystemSummaryByDisplayName (fuel : nat) (compartmentID ad displayName : string)
    : M W (bool * list Summary * option error) :=
  r ← by_name fuel file_system_step (fsdk_ListFileSystems compartmentID ad displayName) nothing_found;
  mret (by_name_answer "Found file system summary neither active nor creating state" r).

Definition GetMountTargetSummaryByDisplayName (fuel : nat) (compartmentID ad mountTargetName : string)
    : M W (bool * list Summary * option error) :=
  r ← by_name fuel mount_target_step (fsdk_ListMountTargets compartmentID ad mountTargetName) nothing_found;
  mret (by_name_answer "Found mount target summary neither active nor creating state" r).

(** ** File systems, mount targets and exports *)

Definition CreateFileSystem (details : CreateFileSystemDetails) : M W FileSystem :=
  writer_limited (RateLimitError false "CreateFileSystem") (fsdk_CreateFileSystem details).
Definition GetFileSystem (id : string) : M W FileSystem := limited false "GetFileSystem" (fsdk_GetFileSystem id).
Definition DeleteFileSystem (id : string) : M W () := limited true "DeleteFileSystem" (fsdk_DeleteFileSystem id).
Definition GetMountTarget (id : string) : M W MountTarget := limited false "GetMountTarget" (fsdk_GetMountTarget id).
Definition CreateMountTarget (details : CreateMountTargetDetails) : M W MountTarget :=
  writer_limited (RateLimitError false "CreateMountTarget") (fsdk_CreateMountTarget details).
Definition DeleteMountTarget (id : string) : M W () := limited true "DeleteMountTarget" (fsdk_DeleteMountTarget id).
Definition CreateExport (details : CreateExportDetails CO) : M W Export :=
  writer_limited (RateLimitError false "CreateExport") (fsdk_CreateExport details).
Definition GetExport (id : string) : M W Export := limited false "GetExport" (fsdk_GetExport id).
Definition DeleteExport (id : string) : M W () := limited true "DeleteExport" (fsdk_DeleteExport id).

(** The condition that is polled: every error ends the wait, a state decides. *)
Definition poll_active {A} (get : M W A) (decision : A → outcome bool) : M W (option A) :=
  a ← get;
  done ← lift (decision a);
  mret (if done : bool then Some a else None).

Definition file_system_active (fs : FileSystem) : outcome bool :=
  let state := fs_LifecycleState fs in
  if decide (state = Active) then mret true
  else if decide (state = Deleting ∨ state = Deleted)
  then id ← deref (fs_Id fs); Err (Errorf "file system %q is in lifecycle state %q" [id; state])
  else mret false.
Definition AwaitFileSystemActive (ctx : context) (id : string) : M W FileSystem :=
  PollImmediateUntil ctx defaultInterval (poll_active (GetFileSystem id) file_system_active).

Definition mount_target_active (mt : MountTarget) : outcome bool :=
  let state := mt_LifecycleState mt in
  if decide (state = Active) then mret true
  else if decide (state = Failed ∨ state = Deleting ∨ state = Deleted)
  then id ← deref (mt_Id mt); Err (Errorf "mount target %q is in lifecycle state %q and will not become ACTIVE" [id; state])
  else mret false.
Definition AwaitMountTargetActive (ctx : context) (id : string) : M W MountTarget :=
  PollImmediateUntil ctx defaultInterval (poll_active (GetMountTarget id) mount_target_active).

Definition export_active (export : Export) : outcome bool :=
  let state := ex_LifecycleState export in
  if decide (state = Active) then mret true
  else if decide (state = Deleting ∨ state = Deleted)
  then id ← deref (ex_Id export); Err (Errorf "export %q is in lifecycle state %q" [id; state])
  else mret false.
Definition AwaitExportActive (ctx : context) (id : string) : M W Export :=
  PollImmediateUntil ctx defaultInterval (poll_active (GetExport id) export_active).

(** The export of a path; one in another state is answered with an error.  A nil path
    panics. *)
Fixpoint export_of_path (path : string) (items : list ExportSummary) : outcome (option (ExportSummary * option error)) :=
  match items with
  | [] => mret None
  | export :: items =>
      p ← deref (es_Path export);
      if decide (p = path) then
        if decide (es_LifecycleState export = Creating ∨ es_LifecycleState export = Active)
        then mret (Some (export, None))
        else id ← deref (es_Id export);
             mret (Some (export, Some (Errorf "Found export in conflicting state %s: %s" [id; es_LifecycleState export])))
      else export_of_path path items
  end.

Definition FindExport (fuel : nat) (fsID path exportSetID : string) : M W (option ExportSummary * option error) :=
  r ← try (pages fuel
        (λ page, limited false "ListExports" (fsdk_ListExports fsID exportSetID page))
        (λ _ items, found ← lift (export_of_path path items);
                    mret (match found with Some r => inr (Some r) | None => inl None end)) None None);
  mret match r with
       | inl err => (None, Some err)
       | inr (Some (export, err)) => (Some export, err)
       | inr None => (None, Some NotFoundErr)
       end.
End client.
