(* ===== verification/FileStorage.v ===== *)
(** * The controller of the file storage CSI driver (src/pkg/csi/driver/fss_controller.go)

    Every request of the controller service: creating a file system with its mount target
    and export, deleting them, and confirming capabilities, over [FileStorageClient].  The
    tags of the configuration are shared by all requests and changed by them, so they are
    part of the state.  Metrics and log messages are left out. *)
From stdpp Require Import base tactics list gmap sets strings.
From Stdlib Require Import Ascii.
From S2P Require Import Prelude GoStrings GoNet Types ClientErrors ClientCalls CsiUtil StorageClient BlockVolume FileStorageClient.

Definition fssSupportedVolumeCapabilities : list string :=
  ["SINGLE_NODE_WRITER"; "SINGLE_NODE_READER_ONLY"; "MULTI_NODE_READER_ONLY"; "MULTI_NODE_SINGLE_WRITER";
   "MULTI_NODE_MULTI_WRITER"].
Definition fss_serviceAccountTokenExpiry : Z := 3600.

(** [config.TagConfig]; its maps may be nil. *)
Record FssTags := {
  ft_Freeform : option (gmap string string);
  ft_Defined : option (gmap string (gmap string string));
}.

(** The tags of a request: a pointer to those of the configuration, or its own. *)
Inductive TagsRef :=
| SharedTags
| OwnTags (tags : FssTags).

Record StorageClassParameters (CO : Type) := {
  scp_availabilityDomain : string;
  scp_compartmentOcid : string;
  scp_kmsKey : string;
  scp_exportPath : string;
  scp_exportOptions : option (list CO);
  scp_mountTargetOcid : string;
  scp_mountTargetSubnetOcid : string;
  scp_encryptInTransit : string;
  scp_scTags : TagsRef;
  scp_nsgOcids : list string;
}.
Arguments Build_StorageClassParameters {CO}.
Arguments scp_availabilityDomain {CO}. Arguments scp_compartmentOcid {CO}. Arguments scp_kmsKey {CO}.
Arguments scp_exportPath {CO}. Arguments scp_exportOptions {CO}. Arguments scp_mountTargetOcid {CO}.
Arguments scp_mountTargetSubnetOcid {CO}. Arguments scp_encryptInTransit {CO}. Arguments scp_scTags {CO}.
Arguments scp_nsgOcids {CO}.

Record SecretParameters := {
  sec_serviceAccountNamespace : string;
  sec_serviceAccount : string;
  sec_parentRptURL : string;
}.

(** [FSSControllerDriver]: its configuration and what it reads of the environment. *)
Record FSSControllerDriver := {
  f_CompartmentID : string;
  f_clusterIpFamily : string;
  f_ipv6SingleStackCluster : bool;
}.

(** [json.Unmarshal] of security groups and of export options. *)
Class FssJson (CO : Type) := {
  json_nsgOcids : string → error + list string;
  json_exportOptions : string → error + option (list CO);
}.

(** The service accounts of the cluster, which clients can be made for a token and a
    parent URL, and the networking client. *)
Class FssEnvironment (W : Type) := {
  fss_ServiceAccounts_Get : string → string → M W ();
  fss_CreateToken : string → string → Z → M W string;
  fss_Networking : option string → string → bool;
  fss_Identity : option string → string → bool;
  fss_FSS : option string → string → bool;
  fss_GetSubnet : string → M W CsiSubnet;
  fss_GetPrivateIp : string → M W (option string);
}.

Definition extractSecretParameters (parameters : gmap string string) : SecretParameters := {|
  sec_serviceAccount := default "" (parameters !! "serviceAccount");
  sec_serviceAccountNamespace := default "" (parameters !! "serviceAccountNamespace");
  sec_parentRptURL := default "" (parameters !! "parentRptURL") |}.

Definition fss_has_support (cap : VolumeCapability) : outcome () :=
  if decide (cap_AccessType cap = Block) then Err (Errorf "driver does not support block volumes" [])
  else if decide (cap_Mode cap ∈ fssSupportedVolumeCapabilities) then mret ()
  else Err (Errorf "driver does not support access mode %v" [cap_Mode cap]).

Fixpoint checkForSupportedVolumeCapabilities (volumeCaps : list VolumeCapability) : outcome () :=
  match volumeCaps with
  | [] => mret ()
  | c :: volumeCaps => _ ← fss_has_support c; checkForSupportedVolumeCapabilities volumeCaps
  end.

Record FssCreateRequest := {
  fcr_Name : string;
  fcr_VolumeCapabilities : list VolumeCapability;
  fcr_Parameters : gmap string string;
  fcr_Secrets : gmap string string;
}.

Section handlers.
Context {W CO : Type} `{!FssSdk W CO, !Limits W, !SliceRoom, !StorageSdk W, !FssEnvironment W}.
Context `{!FssJson CO, !TagJson, !ErrorText}.
Implicit Types (d : FSSControllerDriver) (ctx : context).

(** The tags of the configuration, a nil pointer is [None], and the world. *)
Abbreviation state := (option FssTags * W)%type.

(** ** Credentials *)

Definition getServiceAccountToken (saName saNamespace : string) : M W string :=
  if decide (saName = "" ∨ saNamespace = "")
  then status InvalidArgument "Failed to get service account token. Missing service account or namespaces in request." []
  else
  _ ← report (fss_ServiceAccounts_Get saNamespace saName)
        (λ _, status Internal "Error fetching service account %v in the namespace %v" [saName; saNamespace]);
  report (fss_CreateToken saNamespace saName fss_serviceAccountTokenExpiry)
    (λ _, status Internal "Error creating service account token for service account %v in the namespace %v" [saName; saNamespace]).

Definition request_token (secrets : SecretParameters) : M W (option string) :=
  if decide (sec_serviceAccount secrets ≠ "" ∨ sec_serviceAccountNamespace secrets ≠ "")
  then token ← getServiceAccountToken (sec_serviceAccount secrets) (sec_serviceAccountNamespace secrets); mret (Some token)
  else mret None.

(** ** Parameters of the storage class *)

Definition fss_availability_domain d (compartmentId : string) (parameters : gmap string string) : M W string :=
  match parameters !! "availabilityDomain" with
  | None => status InvalidArgument "AvailabilityDomain not provided in storage class" []
  | Some availabilityDomain =>
      if f_ipv6SingleStackCluster d then
        if has_byte ":"%char availabilityDomain then mret availabilityDomain
        else status InvalidArgument "Full AvailabilityDomain with prefix not provided in storage class for IPv6 single stack cluster." []
      else
        report (GetAvailabilityDomainByName compartmentId availabilityDomain)
          (λ err, status InvalidArgument "invalid available domain: %s or compartment ID: %s, error: %s"
                    [availabilityDomain; compartmentId; Error err])
  end.

(** The mount target, or the subnet and the groups of a new one. *)
Definition fss_mount_target (parameters : gmap string string) : M W (string * string * list string) :=
  match parameters !! "mountTargetOcid" with
  | Some mountTargetOcid => mret (mountTargetOcid, "", [])
  | None =>
      match parameters !! "mountTargetSubnetOcid" with
      | None => status InvalidArgument "Neither Mount Target Ocid nor Mount Target Subnet Ocid provided in storage class" []
      | Some subnet =>
          match parameters !! "nsgOcids" with
          | None => mret ("", subnet, [])
          | Some nsgOcidsStr =>
              match json_nsgOcids nsgOcidsStr with
              | inl _ => status InvalidArgument "Failed to parse nsgOcids provided in storage class. Please provide valid input." []
              | inr nsgOcids => mret ("", subnet, nsgOcids)
              end
          end
      end
  end.

Definition fss_export_options (parameters : gmap string string) : M W (option (list CO)) :=
  match parameters !! "exportOptions" with
  | Some s =>
      if decide (s = "") then mret None else
      match json_exportOptions s with
      | inl _ => status InvalidArgument "failed to parse exportOptions provided for storage class. please check the exportOptions in parameters section of storage class" []
      | inr options => mret options
      end
  | None => mret None
  end.

(** A tag setting that is given and not empty. *)
Definition fss_tags_override {A} (json : string → error + option A) (message : string) (value : option string) : M W (option A) :=
  match value with
  | Some s => if decide (s = "") then mret None
              else match json s with inl _ => status InvalidArgument message [] | inr tags => mret tags end
  | None => mret None
  end.

(** [d.config.Tags != nil && d.config.Tags.FSS != nil]. *)
Definition config_tags : M state bool := λ '(config, w), (Ret (bool_decide (is_Some config)), (config, w)).

Definition extractStorageClassParameters d (volumeName : string) (parameters : gmap string string)
    : M state (StorageClassParameters CO) :=
  let compartmentId := default (f_CompartmentID d) (parameters !! "compartmentOcid") in
  availabilityDomain ← on_world (fss_availability_domain d compartmentId parameters);
  '(mountTargetOcid, subnetOcid, nsgOcids) ← on_world (fss_mount_target parameters);
  let exportPath := default ("/" +:+ volumeName) (parameters !! "exportPath") in
  exportOptions ← on_world (fss_export_options parameters);
  freeformTags ← on_world (fss_tags_override json_freeform
    "failed to parse freeform tags provided for storageclass. please check the parameters section on the storage class"
    (parameters !! initialFreeformTagsOverride));
  definedTags ← on_world (fss_tags_override json_defined
    "failed to parse defined tags provided for storageclass. please check the parameters section on the storage class"
    (parameters !! initialDefinedTagsOverride));
  shared ← config_tags;
  mret {| scp_availabilityDomain := availabilityDomain; scp_compartmentOcid := compartmentId;
          scp_kmsKey := default "" (parameters !! "kmsKeyOcid"); scp_exportPath := exportPath;
          scp_exportOptions := exportOptions; scp_mountTargetOcid := mountTargetOcid;
          scp_mountTargetSubnetOcid := subnetOcid;
          scp_encryptInTransit := if decide (parameters !! "encryptInTransit" = Some "true") then "true" else "false";
          scp_scTags := match freeformTags, definedTags, shared with
                        | None, None, true => SharedTags
                        | f, t, _ => OwnTags {| ft_Freeform := f; ft_Defined := t |}
                        end;
          scp_nsgOcids := nsgOcids |}.

(** ** Tags *)

Definition no_tags : FssTags := {| ft_Freeform := None; ft_Defined := None |}.

Definition read_tags (ref : TagsRef) : M state FssTags := λ '(config, w),
  (Ret (match ref with SharedTags => default no_tags config | OwnTags tags => tags end), (config, w)).

(** The tags that let a deletion find the resources; a nil map becomes a new one. *)
Definition resource_tags (isDelete mountTargetOCID exportSetId : string) (tags : FssTags) : FssTags := {|
  ft_Freeform := Some (<["exportSetId" := exportSetId]> (<["mountTargetOCID" := mountTargetOCID]>
                        (<["isDeleteMountTarget" := isDelete]> (default ∅ (ft_Freeform tags)))));
  ft_Defined := ft_Defined tags |}.

(** They are written in place. *)
Definition write_tags (isDelete mountTargetOCID exportSetId : string) (ref : TagsRef) : M state TagsRef := λ '(config, w),
  match ref with
  | SharedTags => (Ret SharedTags, (resource_tags isDelete mountTargetOCID exportSetId <$> config, w))
  | OwnTags tags => (Ret (OwnTags (resource_tags isDelete mountTargetOCID exportSetId tags)), (config, w))
  end.

(** ** Mount targets *)

Definition provisionMountTarget (volumeName : string) (p : StorageClassParameters CO) : M state MountTarget :=
  tags ← read_tags (scp_scTags p);
  on_world (CreateMountTarget
    {| cmd_AvailabilityDomain := scp_availabilityDomain p; cmd_CompartmentId := scp_compartmentOcid p;
       cmd_DisplayName := volumeName; cmd_SubnetId := scp_mountTargetSubnetOcid p;
       cmd_FreeformTags := ft_Freeform tags; cmd_DefinedTags := ft_Defined tags; cmd_NsgIds := scp_nsgOcids p |}).

Definition validateMountTargetSubnetWithClusterIpFamily d (mountTargetSubnetId : string) : M W () :=
  subnet ← report (fss_GetSubnet mountTargetSubnetId)
    (λ err, status Internal "Failed to get mount target subnet, error: %s" [Error err]);
  let family := f_clusterIpFamily d in
  if IsIpv4SingleStackSubnet subnet && negb (Contains family Ipv4Stack)
  then status InvalidArgument "Invalid mount target subnet. For using IPv4 mount target subnet, cluster needs to be IPv4 or dual stack but found to be %s." [family]
  else if IsDualStackSubnet subnet && negb (Contains family Ipv4Stack)
  then status InvalidArgument "Invalid mount target subnet. For using dual stack mount target subnet, cluster needs to IPv4 or dual stack but found to be %s." [family]
  else if IsIpv6SingleStackSubnet subnet && negb (Contains family Ipv6Stack)
  then status InvalidArgument "Invalid mount target subnet. For using ipv6 mount target subnet, cluster needs to be IPv6 or dual stack but found to be %s." [family]
  else mret ().

Definition validateMountTargetWithClusterIpFamily d (mtIpv6Ids privateIpIds : list string) : outcome () :=
  let family := f_clusterIpFamily d in
  if decide (0 < length mtIpv6Ids ∧ Contains family Ipv6Stack = false)
  then Err (StatusError InvalidArgument "Invalid mount target. For using IPv6 mount target, cluster needs to be IPv6 or dual stack but found to be %s." [family])
  else if decide (0 < length privateIpIds ∧ Contains family Ipv4Stack = false)
  then Err (StatusError InvalidArgument "Invalid mount target. For using IPv4 mount target, cluster needs to IPv4 or dual stack but found to be %s." [family])
  else mret ().

(** The text of the conflicts; a nil id panics. *)
Fixpoint conflict_text (l : list Summary) : outcome string :=
  match l with
  | [] => mret ""
  | s :: l => id ← deref (sum_Id s); rest ← conflict_text l; mret (id +:+ ": " +:+ sum_LifecycleState s +:+ ", " +:+ rest)
  end.

(** A search by name that ended with an error other than not found. *)
Definition search_failed {A} (kind : string) (conflicting : bool) (summaries : list Summary) (err : error) : M W A :=
  message ← (if conflicting then conflictMsg ← lift (conflict_text summaries); mret ("conflicting " +:+ kind +:+ "(s) " +:+ conflictMsg)
             else mret ("failed to check existence of " +:+ kind));
  status Internal "%s, error: %s" [message; Error err].

(** The resources with the name of the volume. *)
Definition search {A} (kind : string) (found : M W (bool * list Summary * option error))
    (use : list Summary → M state A) : M state A :=
  '(conflicting, summaries, err) ← on_world found;
  match err with
  | Some e => if IsNotFound (Some e) then use summaries else on_world (search_failed kind conflicting summaries e)
  | None => use summaries
  end.

(** The mount target that is used, and whether it existed before. *)
Definition choose_mount_target d (fuel : nat) (volumeName : string) (p : StorageClassParameters CO)
    : M state (option string * bool) :=
  if decide (scp_mountTargetOcid p ≠ "") then mret (Some (scp_mountTargetOcid p), true) else
  search "Mount Target" (GetMountTargetSummaryByDisplayName fuel (scp_compartmentOcid p) (scp_availabilityDomain p) volumeName)
    (λ mountTargets,
       match mountTargets with
       | [] =>
           _ ← (if IsValidIpFamilyPresentInClusterIpFamily (f_clusterIpFamily d)
                then on_world (validateMountTargetSubnetWithClusterIpFamily d (scp_mountTargetSubnetOcid p))
                else mret ());
           mt ← report (provisionMountTarget volumeName p)
                  (λ err, status Internal "New Mount Target creation failed, error: %s" [Error err]);
           mret (mt_Id mt, false)
       | [mt] => mret (sum_Id mt, true)
       | _ => status Internal "duplicate Mount Target %s exists" [volumeName]
       end).

(** The OCID, the address and the export set of the mount target. *)
Definition getOrCreateMountTarget d (fuel : nat) ctx (volumeName : string) (p : StorageClassParameters CO)
    : M state (string * string * string) :=
  '(mtId, isExistingMountTargetUsed) ← choose_mount_target d fuel volumeName p;
  mountTargetOCID ← lift (deref mtId);
  on_world (
    mt ← report (AwaitMountTargetActive ctx mountTargetOCID)
      (λ err, status CodeDeadlineExceeded "await mount target to be available failed with time out, error: %s" [Error err]);
    _ ← lift (deref (mt_DisplayName mt));
    match mt_PrivateIpIds mt with
    | [] => status Internal "IP not assigned to mount target" []
    | mountTargetIpId :: _ =>
        _ ← (if isExistingMountTargetUsed && IsValidIpFamilyPresentInClusterIpFamily (f_clusterIpFamily d)
             then lift (validateMountTargetWithClusterIpFamily d [] (mt_PrivateIpIds mt)) else mret ());
        ip ← report (fss_GetPrivateIp mountTargetIpId)
          (λ err, status Internal "Failed to get mount target %s ip from ip id %s, error: %s" ["privateIp"; mountTargetIpId; Error err]);
        ip ← lift (deref ip);
        match mt_ExportSetId mt with
        | Some exportSetId =>
            if decide (exportSetId = "") then status Internal "ExportSetId not assigned to mount target" []
            else mret (mountTargetOCID, ip, exportSetId)
        | None => status Internal "ExportSetId not assigned to mount target" []
        end
    end).

(** ** File systems *)

Definition provisionFileSystem (volumeName : string) (p : StorageClassParameters CO) : M state FileSystem :=
  tags ← read_tags (scp_scTags p);
  on_world (CreateFileSystem
    {| cfd_AvailabilityDomain := scp_availabilityDomain p; cfd_CompartmentId := scp_compartmentOcid p;
       cfd_DisplayName := volumeName; cfd_FreeformTags := ft_Freeform tags; cfd_DefinedTags := ft_Defined tags;
       cfd_KmsKeyId := if decide (scp_kmsKey p = "") then None else Some (scp_kmsKey p) |}).

Definition choose_file_system (fuel : nat) (volumeName : string) (p : StorageClassParameters CO) : M state (option string) :=
  search "File System" (GetFileSystemSummaryByDisplayName fuel (scp_compartmentOcid p) (scp_availabilityDomain p) volumeName)
    (λ fileSystemSummaries,
       match fileSystemSummaries with
       | [] => fs ← report (provisionFileSystem volumeName p)
                      (λ err, status Internal "New File System creation failed, error: %s" [Error err]);
               mret (fs_Id fs)
       | [s] => mret (sum_Id s)
       | _ => fail (Errorf "duplicate File system %q exists" [volumeName])
       end).

Definition getOrCreateFileSystem (fuel : nat) ctx (volumeName : string) (p : StorageClassParameters CO) : M state string :=
  fsId ← choose_file_system fuel volumeName p;
  filesystemOCID ← lift (deref fsId);
  _ ← report (on_world (AwaitFileSystemActive ctx filesystemOCID))
        (λ err, status CodeDeadlineExceeded "Await File System failed with time out, error: %s" [Error err]);
  mret filesystemOCID.

(** ** Exports *)

Definition provisionExport (filesystemOCID exportSetId : string) (p : StorageClassParameters CO) : M W Export :=
  CreateExport {| ced_ExportSetId := exportSetId; ced_FileSystemId := filesystemOCID; ced_Path := scp_exportPath p;
                  ced_ExportOptions := scp_exportOptions p |}.

(** An export without id is awaited by its path. *)
Definition getOrCreateExport (fuel : nat) ctx (p : StorageClassParameters CO) (filesystemOCID exportSetId : string) : M W () :=
  '(exportSummary, err) ← FindExport fuel filesystemOCID (scp_exportPath p) exportSetId;
  exportId ←
    match err, exportSummary with
    | Some e, _ =>
        if IsNotFound (Some e) then
          match exportSummary with
          | Some s => mret (es_Id s)
          | None => export ← report (provisionExport filesystemOCID exportSetId p)
                      (λ err, status Internal "New Export creation failed, error: %s" [Error err]);
                    mret (ex_Id export)
          end
        else match exportSummary with
             | Some s => path ← lift (deref (es_Path s));
                         status Internal "%s, error: %s" ["conflicting Export " +:+ path; Error e]
             | None => status Internal "%s, error: %s" ["failed to check existence of export"; Error e]
             end
    | None, Some s => mret (es_Id s)
    | None, None => export ← report (provisionExport filesystemOCID exportSetId p)
                      (λ err, status Internal "New Export creation failed, error: %s" [Error err]);
                    mret (ex_Id export)
    end;
  _ ← report (AwaitExportActive ctx (default (scp_exportPath p) exportId))
        (λ err, status CodeDeadlineExceeded "await export failed with time out, error: %s" [Error err]);
  mret ().

(** ** Creating *)

(** The clients of a request. *)
Definition request_clients (networking identity : bool) (secrets : SecretParameters) (token : option string) : M W () :=
  let url := sec_parentRptURL secrets in
  if networking && negb (fss_Networking token url) then status Internal "Unable to create networking client" []
  else if identity && negb (fss_Identity token url) then status Internal "Unable to create identity client" []
  else if fss_FSS token url then mret () else status Internal "Unable to create fss client" [].

Definition volume_handle (filesystemOCID mountTargetIp exportPath : string) : string :=
  filesystemOCID +:+ ":" +:+ FormatValidIp mountTargetIp +:+ ":" +:+ exportPath.

(** The mount target, the file system and the export of the volume; the tags of the
    resources are written in between. *)
Definition create_resources d (fuel : nat) ctx (volumeName : string) (p : StorageClassParameters CO) : M state CsiVolume :=
  '(mountTargetOCID, mountTargetIp, exportSetId) ← getOrCreateMountTarget d fuel ctx volumeName p;
  let isDeleteMountTarget := if decide (scp_mountTargetOcid p = "") then "true" else "false" in
  ref ← write_tags isDeleteMountTarget mountTargetOCID exportSetId (scp_scTags p);
  let p := {| scp_availabilityDomain := scp_availabilityDomain p; scp_compartmentOcid := scp_compartmentOcid p;
              scp_kmsKey := scp_kmsKey p; scp_exportPath := scp_exportPath p; scp_exportOptions := scp_exportOptions p;
              scp_mountTargetOcid := scp_mountTargetOcid p; scp_mountTargetSubnetOcid := scp_mountTargetSubnetOcid p;
              scp_encryptInTransit := scp_encryptInTransit p; scp_scTags := ref; scp_nsgOcids := scp_nsgOcids p |} in
  filesystemOCID ← getOrCreateFileSystem fuel ctx volumeName p;
  _ ← on_world (getOrCreateExport fuel ctx p filesystemOCID exportSetId);
  mret {| cv_VolumeId := volume_handle filesystemOCID mountTargetIp (scp_exportPath p); cv_CapacityBytes := 0;
          cv_AccessibleTopology := []; cv_VolumeContext := {["encryptInTransit" := scp_encryptInTransit p]};
          cv_ContentSource := None |}.

Definition Fss_CreateVolume d (fuel : nat) ctx (req : FssCreateRequest) : M state CsiVolume :=
  if decide (fcr_Name req = "") then status InvalidArgument "CreateVolume Name must be provided" [] else
  if decide (length (fcr_VolumeCapabilities req) = 0)
  then status InvalidArgument "VolumeCapabilities must be provided in CreateVolumeRequest" [] else
  let secrets := extractSecretParameters (fcr_Secrets req) in
  _ ← on_world (token ← request_token secrets; request_clients true true secrets token);
  _ ← report (lift (checkForSupportedVolumeCapabilities (fcr_VolumeCapabilities req)))
        (λ _, status InvalidArgument "Requested Volume Capability not supported" []);
  p ← extractStorageClassParameters d (fcr_Name req) (fcr_Parameters req);
  create_resources d fuel ctx (fcr_Name req) p.

(** ** Deleting *)

(** The mount target is deleted; one that is missing is deleted. *)
Definition delete_mount_target (mountTargetOCID : string) : M W () :=
  report (DeleteMountTarget mountTargetOCID)
    (λ err, if IsNotFound (Some err) then mret ()
            else status Internal "failed to delete mount target, mountTargetOcid: %s, error: %s" [mountTargetOCID; Error err]).

(** The export is deleted; one in a conflicting state is left alone. *)
Definition delete_export (fuel : nat) (filesystemOcid exportPath exportSetId : string) : M W () :=
  '(exportSummary, err) ← FindExport fuel filesystemOcid exportPath exportSetId;
  match err with
  | Some e =>
      if IsNotFound (Some e) then mret ()
      else match exportSummary with
           | Some s => _ ← lift (deref (es_Id s)); mret ()
           | None => status Internal "failed to find export, exportPath: %s, error: %s" [exportPath; Error e]
           end
  | None =>
      s ← lift (deref exportSummary);
      id ← lift (deref (es_Id s));
      report (DeleteExport id) (λ err, status Internal "failed to delete export, exportId: %s, error: %s" [id; Error err])
  end.

(** The values of the tags do not depend on the order in which they are visited. *)
Definition tag_of (tags : option (gmap string string)) (key : string) : string := default "" (default ∅ tags !! key).

Definition Fss_DeleteVolume (fuel : nat) (volumeId : string) (secrets : gmap string string) : M W () :=
  let h := ValidateFssId volumeId in
  let secrets := extractSecretParameters secrets in
  _ ← (token ← request_token secrets; request_clients false false secrets token);
  if decide (FilesystemOcid h = "" ∨ MountTargetIPAddress h = "" ∨ FsExportPath h = "")
  then status InvalidArgument "Invalid Volume ID provided %s" [volumeId] else
  r ← try (GetFileSystem (FilesystemOcid h));
  match r with
  | inl err => if IsNotFound (Some err) then mret ()
               else status Internal "failed to delete filesystem, volumeId: %s ERROR: %v" [volumeId; Error err]
  | inr fileSystem =>
      _ ← lift (deref (fs_CompartmentId fileSystem));
      _ ← lift (deref (fs_DisplayName fileSystem));
      let tags := fs_FreeformTags fileSystem in
      _ ← (if decide (tag_of tags "isDeleteMountTarget" = "true")
           then delete_mount_target (tag_of tags "mountTargetOCID") else mret ());
      _ ← (if decide (tag_of tags "exportSetId" = "") then mret ()
           else delete_export fuel (FilesystemOcid h) (FsExportPath h) (tag_of tags "exportSetId"));
      report (DeleteFileSystem (FilesystemOcid h))
        (λ err, if IsNotFound (Some err) then mret ()
                else status Internal "failed to delete file system, volumeId: %s, error: %s" [volumeId; Error err])
  end.

(** ** Other requests *)

(** A nil access mode panics; experimental modes are not confirmed. *)
Fixpoint confirmed (caps : list VolumeCapability) : outcome bool :=
  match caps with
  | [] => mret true
  | cap :: caps =>
      mode ← deref (cap_AccessMode cap);
      if decide (mode = "SINGLE_NODE_SINGLE_WRITER" ∨ mode = "SINGLE_NODE_MULTI_WRITER") then mret false
      else confirmed caps
  end.

(** The mount target has the address of the handle. *)
Definition check_mount_target (mountTargetOCID mountTargetIP : string) : M W () :=
  mountTarget ← (if decide (mountTargetOCID = "")
                 then mret {| mt_Id := None; mt_DisplayName := None; mt_LifecycleState := ""; mt_PrivateIpIds := [];
                              mt_ExportSetId := None |}
                 else report (GetMountTarget mountTargetOCID)
                        (λ err, if IsNotFound (Some err) then status NotFound "Mount Target not found" []
                                else status NotFound "Failed to get mount target, error: %s" [Error err]));
  match mt_PrivateIpIds mountTarget with
  | [] => status NotFound "IP not assigned to mount target." []
  | mountTargetIpId :: _ =>
      ip ← report (fss_GetPrivateIp mountTargetIpId)
        (λ err, status NotFound "Failed to fetch Mount Target Private IP from IP ID: %s, error: %s" [mountTargetIpId; Error err]);
      ip ← lift (deref ip);
      if EqualFold (FormatValidIp ip) mountTargetIP then mret () else status NotFound "Mount Target IP mismatch." []
  end.

Definition Fss_ValidateVolumeCapabilities (fuel : nat) (volumeId : string) (caps : option (list VolumeCapability))
    (secrets : gmap string string) : M W (option (list VolumeCapability)) :=
  if decide (volumeId = "") then status InvalidArgument "Volume ID must be provided" [] else
  match caps with
  | None => status InvalidArgument "Volume Capabilities must be provided" []
  | Some caps =>
      let h := ValidateFssId volumeId in
      let secrets := extractSecretParameters secrets in
      _ ← (token ← request_token secrets; request_clients true false secrets token);
      if decide (FilesystemOcid h = "" ∨ MountTargetIPAddress h = "" ∨ FsExportPath h = "")
      then status InvalidArgument "Invalid Volume ID provided" [] else
      fileSystem ← report (GetFileSystem (FilesystemOcid h))
        (λ err, status NotFound "File system not found. error: %s" [Error err]);
      let tags := fs_FreeformTags fileSystem in
      _ ← check_mount_target (tag_of tags "mountTargetOCID") (MountTargetIPAddress h);
      exportSummary ←
        (if decide (tag_of tags "exportSetId" = "") then mret None
         else '(s, err) ← FindExport fuel (FilesystemOcid h) (FsExportPath h) (tag_of tags "exportSetId");
              match err with
              | Some e => status NotFound "export not found. error: %s" [Error e]
              | None => mret s
              end);
      if decide (exportSummary ≫= es_Path = Some (FsExportPath h))
      then ok ← lift (confirmed caps); mret (if ok : bool then Some caps else None)
      else status NotFound "ExportPath mis-match." []
  end.

Definition Fss_ControllerGetCapabilities : list string := ["CREATE_DELETE_VOLUME"].
Definition Fss_unimplemented : M W () := status Unimplemented "" [].
Definition Fss_ControllerModifyVolume : M W () := status Unimplemented "ControllerModifyVolume is not supported yet" [].
End handlers.
