(* ===== verification/FileStorageFacts.v ===== *)
(** * What the file storage controller achieves

    Given laws of the file storage service ([FssLaws]): creating a volume twice creates one
    file system and one mount target, a file system carries the tags by which it is
    deleted, and a deletion removes the mount target only if it was made for the volume,
    and before the file system.  Looking up by name ends only if the listing has one
    page. *)
From stdpp Require Import base tactics list gmap sets strings.
From S2P Require Import Prelude GoStrings GoNet Types ClientErrors ClientCalls CsiUtil StorageClient BlockVolume FileStorageClient FileStorage.

(** ** The laws of the service *)

(** What does not change while time passes. *)
Record Resource := {
  res_Name : string;
  res_Compartment : string;
  res_Domain : string;
  res_Tags : option (gmap string string);
}.

Definition res_named (c ad n : string) (r : Resource) : Prop :=
  res_Name r = n ∧ res_Compartment r = c ∧ res_Domain r = ad.

(** A first page lists resources with the name, and all of them if there is no next. *)
Definition listed (c ad n : string) (m : gmap string Resource) (items : list Summary) (next : option string) : Prop :=
  (∀ s, s ∈ items → ∃ id r, sum_Id s = Some id ∧ m !! id = Some r ∧ res_named c ad n r) ∧
  (next = None → ∀ id r, m !! id = Some r → res_named c ad n r → ∃ s, s ∈ items ∧ sum_Id s = Some id).

Definition unnamed (c ad n : string) (m : gmap string Resource) : Prop :=
  ∀ id r, m !! id = Some r → ¬ res_named c ad n r.

(** The file systems and the mount targets that exist, by OCID.  Reading changes nothing
    of them.  An answer without a next page is complete, and resources are not found only
    if there are none.  A request to create adds at most the resource that it answers; a
    deletion removes the resource if it succeeds, and finds it missing only if it is. *)
Class FssLaws (W CO : Type) `{!FssSdk W CO, !Limits W, !StorageSdk W, !FssEnvironment W} := {
  file_systems : W → gmap string Resource;
  mount_targets : W → gmap string Resource;
  fss_still w w' := file_systems w' = file_systems w ∧ mount_targets w' = mount_targets w;
  fss_limits : ∀ w, fss_still w (Reader_TryAccept w).2 ∧ fss_still w (Writer_TryAccept w).2;
  fss_reads :
    (∀ id, frames fss_still (fsdk_GetFileSystem (CO := CO) id)) ∧ (∀ id, frames fss_still (fsdk_GetMountTarget (CO := CO) id)) ∧
    (∀ id, frames fss_still (fsdk_GetExport (CO := CO) id)) ∧ (∀ f s page, frames fss_still (fsdk_ListExports (CO := CO) f s page)) ∧
    (∀ d, frames fss_still (fsdk_CreateExport (CO := CO) d)) ∧ (∀ id, frames fss_still (fsdk_DeleteExport (CO := CO) id)) ∧
    (∀ c ad n page, frames fss_still (fsdk_ListFileSystems (CO := CO) c ad n page)) ∧
    (∀ c ad n page, frames fss_still (fsdk_ListMountTargets (CO := CO) c ad n page)) ∧
    (∀ c, frames fss_still (ssdk_ListAvailabilityDomains c)) ∧
    (∀ ns n, frames fss_still (fss_ServiceAccounts_Get ns n)) ∧ (∀ ns n e, frames fss_still (fss_CreateToken ns n e)) ∧
    (∀ id, frames fss_still (fss_GetSubnet id)) ∧ (∀ id, frames fss_still (fss_GetPrivateIp id));
  ListFileSystems_answer : ∀ c ad n w items next w', fsdk_ListFileSystems (CO := CO) c ad n None w = (Ret (items, next), w') →
    listed c ad n (file_systems w) items next;
  ListFileSystems_missing : ∀ c ad n w e w', fsdk_ListFileSystems (CO := CO) c ad n None w = (Err e, w') →
    IsNotFound (Some e) = true → unnamed c ad n (file_systems w);
  ListMountTargets_answer : ∀ c ad n w items next w', fsdk_ListMountTargets (CO := CO) c ad n None w = (Ret (items, next), w') →
    listed c ad n (mount_targets w) items next;
  ListMountTargets_missing : ∀ c ad n w e w', fsdk_ListMountTargets (CO := CO) c ad n None w = (Err e, w') →
    IsNotFound (Some e) = true → unnamed c ad n (mount_targets w);
  GetFileSystem_law : ∀ id w fs w', fsdk_GetFileSystem (CO := CO) id w = (Ret fs, w') →
    ∃ r, file_systems w !! id = Some r ∧ fs_FreeformTags fs = res_Tags r ∧ fs_Id fs = Some id;
  GetFileSystem_missing : ∀ id w e w', fsdk_GetFileSystem (CO := CO) id w = (Err e, w') → IsNotFound (Some e) = true →
    file_systems w !! id = None;
  CreateFileSystem_law : ∀ d w o w', fsdk_CreateFileSystem (CO := CO) d w = (o, w') →
    (fss_still w w' ∧ is_ret o = false) ∨
    ∃ id r, file_systems w !! id = None ∧ file_systems w' = <[id := r]> (file_systems w) ∧ mount_targets w' = mount_targets w ∧
      res_named (cfd_CompartmentId d) (cfd_AvailabilityDomain d) (cfd_DisplayName d) r ∧ res_Tags r = cfd_FreeformTags d ∧
      (∀ fs, o = Ret fs → fs_Id fs = Some id);
  CreateMountTarget_law : ∀ d w o w', fsdk_CreateMountTarget (CO := CO) d w = (o, w') →
    (fss_still w w' ∧ is_ret o = false) ∨
    ∃ id r, mount_targets w !! id = None ∧ mount_targets w' = <[id := r]> (mount_targets w) ∧ file_systems w' = file_systems w ∧
      res_named (cmd_CompartmentId d) (cmd_AvailabilityDomain d) (cmd_DisplayName d) r ∧
      (∀ mt, o = Ret mt → mt_Id mt = Some id);
  DeleteFileSystem_law : ∀ id w o w', fsdk_DeleteFileSystem (CO := CO) id w = (o, w') →
    mount_targets w' = mount_targets w ∧
    (file_systems w' = file_systems w ∨ file_systems w' = delete id (file_systems w)) ∧
    (o = Ret () ∨ (∃ e, o = Err e ∧ IsNotFound (Some e) = true) → file_systems w' !! id = None);
  DeleteMountTarget_law : ∀ id w o w', fsdk_DeleteMountTarget (CO := CO) id w = (o, w') →
    file_systems w' = file_systems w ∧
    (mount_targets w' = mount_targets w ∨ mount_targets w' = delete id (mount_targets w)) ∧
    (o = Ret () ∨ (∃ e, o = Err e ∧ IsNotFound (Some e) = true) → mount_targets w' !! id = None);
}.

(** ** Looking up by name *)

Section by_name.
Context {W : Type} `{!Limits W}.

(** The loop never ends while the answers have a next page. *)
Lemma by_name_repeats step (list_page : option string → M W (list Summary * option string)) fuel f w :
  (∀ w, ∃ items next w', limited false "ListFileSystems" (list_page None) w = (Ret (items, Some next), w')) →
  ∃ w', by_name fuel step list_page f w = (Err (Errorf "out of fuel" []), w').
Proof.
  intros Hp. revert f w. induction fuel as [|fuel IH]; intros f w; [by exists w|].
  destruct (Hp w) as (items & next & w1 & E). simpl. unfold mbind, M_bind, try. rewrite E. apply IH.
Qed.

Lemma by_name_one_page step (list_page : option string → M W (list Summary * option string)) fuel f w items w' :
  limited false "ListFileSystems" (list_page None) w = (Ret (items, None), w') →
  by_name (S fuel) step list_page f w = (Ret (fold_left step items f, None), w').
Proof. intros E. simpl. unfold mbind, M_bind, try. by rewrite E. Qed.
End by_name.

(** C37: Looking up file systems or mount targets by name ends after one
    call if the answer has no next page, with what this answer has; while every answer has one it never ends: no
    number of calls is enough. *)
Theorem lookup_by_name_pages {W CO : Type} `{!FssSdk W CO, !Limits W, !SliceRoom} c ad n :
  let file_systems_page := limited false "ListFileSystems" (fsdk_ListFileSystems c ad n None) in
  let mount_targets_page := limited false "ListFileSystems" (fsdk_ListMountTargets c ad n None) in
  (∀ fuel w items w', file_systems_page w = (Ret (items, None), w') →
     GetFileSystemSummaryByDisplayName (S fuel) c ad n w = (Ret (by_name_answer
       "Found file system summary neither active nor creating state" (fold_left file_system_step items nothing_found, None)), w')) ∧
  (∀ fuel w items w', mount_targets_page w = (Ret (items, None), w') →
     GetMountTargetSummaryByDisplayName (S fuel) c ad n w = (Ret (by_name_answer
       "Found mount target summary neither active nor creating state" (fold_left mount_target_step items nothing_found, None)), w')) ∧
  ((∀ w, ∃ items next w', file_systems_page w = (Ret (items, Some next), w')) →
     ∀ fuel w, ∃ w', GetFileSystemSummaryByDisplayName fuel c ad n w = (Err (Errorf "out of fuel" []), w')) ∧
  ((∀ w, ∃ items next w', mount_targets_page w = (Ret (items, Some next), w')) →
     ∀ fuel w, ∃ w', GetMountTargetSummaryByDisplayName fuel c ad n w = (Err (Errorf "out of fuel" []), w')).
Proof.
  split_and!.
  - intros fuel w items w' E. unfold GetFileSystemSummaryByDisplayName, mbind, M_bind. by rewrite (by_name_one_page _ _ _ _ _ _ _ E).
  - intros fuel w items w' E. unfold GetMountTargetSummaryByDisplayName, mbind, M_bind. by rewrite (by_name_one_page _ _ _ _ _ _ _ E).
  - intros Hp fuel w. destruct (by_name_repeats file_system_step _ fuel nothing_found w Hp) as [w' E].
    exists w'. unfold GetFileSystemSummaryByDisplayName, mbind, M_bind. by rewrite E.
  - intros Hp fuel w. destruct (by_name_repeats mount_target_step _ fuel nothing_found w Hp) as [w' E].
    exists w'. unfold GetMountTargetSummaryByDisplayName, mbind, M_bind. by rewrite E.
Qed.

Section facts.
Context {W CO : Type} `{!FssSdk W CO, !Limits W, !StorageSdk W, !FssEnvironment W, !FssLaws W CO} {SR : SliceRoom}.
Context {FJ : FssJson CO} {TJ : TagJson} {ET : ErrorText}.

#[global] Instance fss_still_preorder : PreOrder fss_still.
Proof. split; [done|]. intros w1 w2 w3 [] []. split; congruence. Qed.

Lemma fss_limited {A} isWrite op (c : M W A) : frames fss_still c → frames fss_still (limited isWrite op c).
Proof. apply (limited_frames_of fss_still); intros w; apply fss_limits. Qed.
Lemma fss_writer_limited {A} err (c : M W A) : frames fss_still c → frames fss_still (writer_limited err c).
Proof. apply (writer_limited_frames_of fss_still). intros w; apply fss_limits. Qed.

(** ** Requests that only read *)

Lemma poll_active_still {A} (get : M W A) dec : frames fss_still get → frames fss_still (poll_active get dec).
Proof.
  intros Hg. apply (frames_bind fss_still); [done|]. intros a.
  apply (frames_bind fss_still); [apply (frames_lift fss_still)|]. intros b. apply (frames_lift fss_still (Ret _)).
Qed.

Lemma fss_awaits :
  (∀ ctx id, frames fss_still (AwaitFileSystemActive ctx id)) ∧ (∀ ctx id, frames fss_still (AwaitMountTargetActive ctx id)) ∧
  (∀ ctx id, frames fss_still (AwaitExportActive ctx id)).
Proof.
  destruct fss_reads as (H1 & H2 & H3 & _).
  split_and!; intros ctx id; apply (PollImmediateUntil_frames fss_still), poll_active_still, fss_limited; auto.
Qed.

Lemma FindExport_still fuel f p s : frames fss_still (FindExport fuel f p s).
Proof.
  destruct fss_reads as (_ & _ & _ & H & _).
  apply (frames_bind fss_still); [apply (frames_try fss_still), (pages_frames fss_still)|].
  - intros page. apply fss_limited. auto.
  - intros b l. apply (frames_bind fss_still); [apply (frames_lift fss_still)|]. intros r. apply (frames_lift fss_still (Ret _)).
  - intros r. apply (frames_lift fss_still (Ret _)).
Qed.

Lemma request_token_still sec : frames fss_still (request_token sec).
Proof.
  destruct fss_reads as (_ & _ & _ & _ & _ & _ & _ & _ & _ & H1 & H2 & _).
  unfold request_token, getServiceAccountToken. case_decide; [|apply (frames_lift fss_still (Ret _))].
  apply (frames_bind fss_still); [|intros t; apply (frames_lift fss_still (Ret _))].
  case_decide; [apply (frames_fail fss_still)|]. apply (frames_bind fss_still).
  - apply (frames_report fss_still); [auto|]. intros e. apply (frames_fail fss_still).
  - intros _. apply (frames_report fss_still); [auto|]. intros e. apply (frames_fail fss_still).
Qed.

Lemma request_clients_still b1 b2 sec t : frames fss_still (request_clients b1 b2 sec t).
Proof.
  unfold request_clients. destruct (_ && _); [apply (frames_fail fss_still)|].
  destruct (_ && _); [apply (frames_fail fss_still)|].
  destruct (fss_FSS _ _); [apply (frames_lift fss_still (Ret _))|apply (frames_fail fss_still)].
Qed.

(** ** Deleting *)

Lemma delete_export_still fuel f p s : frames fss_still (delete_export fuel f p s).
Proof.
  destruct fss_reads as (_ & _ & _ & _ & _ & H & _). apply (frames_bind fss_still); [apply FindExport_still|].
  intros [sum [e|]].
  - destruct (IsNotFound (Some e)); [apply (frames_lift fss_still (Ret _))|]. destruct sum; [|apply (frames_fail fss_still)].
    apply (frames_bind fss_still); [apply (frames_lift fss_still)|]. intros id. apply (frames_lift fss_still (Ret _)).
  - apply (frames_bind fss_still); [apply (frames_lift fss_still)|]. intros x.
    apply (frames_bind fss_still); [apply (frames_lift fss_still)|]. intros id.
    apply (frames_report fss_still); [apply fss_limited; auto|]. intros e. apply (frames_fail fss_still).
Qed.

(** A deletion that takes a missing resource for deleted. *)
Lemma delete_tolerant (c : M W ()) (f : error → error) w o w' :
  report c (λ err, if IsNotFound (Some err) then mret () else fail (f err)) w = (o, w') →
  ∃ o1, c w = (o1, w') ∧ (o = Ret () → o1 = Ret () ∨ ∃ e, o1 = Err e ∧ IsNotFound (Some e) = true).
Proof.
  intros Hr. unfold report, mbind, M_bind, try in Hr. destruct (c w) as [[[]|e|] w1].
  - injection Hr as <- <-. eauto.
  - destruct (IsNotFound (Some e)) eqn:E; injection Hr as <- <-; eexists; (split; [done|]); [|done]. intros _. eauto.
  - injection Hr as <- <-. eauto.
Qed.

Definition only_at {A} (id : string) (m m' : gmap string A) : Prop := m' = m ∨ m' = delete id m.

Lemma only_at_lookup {A} id (m m' : gmap string A) k : only_at id m m' → k ≠ id → m' !! k = m !! k.
Proof. intros [-> | ->] Hk; [done|by rewrite lookup_delete_ne]. Qed.

Lemma delete_mount_target_spec mt w o w' :
  delete_mount_target mt w = (o, w') →
  file_systems w' = file_systems w ∧ only_at mt (mount_targets w) (mount_targets w') ∧
  (o = Ret () → mount_targets w' !! mt = None).
Proof.
  intros (o1 & Hr & Ho)%delete_tolerant. unfold DeleteMountTarget, limited in Hr.
  destruct (fss_limits w) as [_ [Hs1 Hs2]]. destruct (Writer_TryAccept w) as [[] w1]; simpl in *.
  - apply DeleteMountTarget_law in Hr as (H1 & H2 & H3). rewrite Hs1 in H1. rewrite Hs2 in H2.
    split_and!; [done..|]. intros ->. apply H3. by destruct (Ho eq_refl) as [-> |He]; [left|right].
  - injection Hr as <- <-. split_and!; [done|by left|]. intros ->. by destruct (Ho eq_refl) as [?|(e & [= <-] & ?)].
Qed.

Lemma delete_file_system_spec id (f : error → error) w o w' :
  report (DeleteFileSystem id) (λ err, if IsNotFound (Some err) then mret () else fail (f err)) w = (o, w') →
  mount_targets w' = mount_targets w ∧ only_at id (file_systems w) (file_systems w') ∧
  (o = Ret () → file_systems w' !! id = None).
Proof.
  intros (o1 & Hr & Ho)%delete_tolerant. unfold DeleteFileSystem, limited in Hr.
  destruct (fss_limits w) as [_ [Hs1 Hs2]]. destruct (Writer_TryAccept w) as [[] w1]; simpl in *.
  - apply DeleteFileSystem_law in Hr as (H1 & H2 & H3). rewrite Hs2 in H1. rewrite Hs1 in H2.
    split_and!; [done..|]. intros ->. apply H3. by destruct (Ho eq_refl) as [-> |He]; [left|right].
  - injection Hr as <- <-. split_and!; [done|by left|]. intros ->. by destruct (Ho eq_refl) as [?|(e & [= <-] & ?)].
Qed.

(** What is deleted of a file system with these tags. *)
Definition deletes (id : string) (tags : option (gmap string string)) (w : W) (o : outcome ()) (w' : W) : Prop :=
  only_at id (file_systems w) (file_systems w') ∧
  (mount_targets w' = mount_targets w ∨
   tag_of tags "isDeleteMountTarget" = "true" ∧ only_at (tag_of tags "mountTargetOCID") (mount_targets w) (mount_targets w')) ∧
  (file_systems w' = file_systems w ∨ tag_of tags "isDeleteMountTarget" ≠ "true" ∨
   mount_targets w' !! tag_of tags "mountTargetOCID" = None) ∧
  (o = Ret () → file_systems w' !! id = None).

Lemma deletes_still id tags w w1 o w' : fss_still w w1 → deletes id tags w1 o w' → deletes id tags w o w'.
Proof. intros [H1 H2]. unfold deletes. by rewrite H1, H2. Qed.

Lemma delete_resources_spec fuel id path tags (f : error → error) w o w' :
  (_ ← (if decide (tag_of tags "isDeleteMountTarget" = "true")
        then delete_mount_target (tag_of tags "mountTargetOCID") else mret ());
   _ ← (if decide (tag_of tags "exportSetId" = "") then mret ()
        else delete_export fuel id path (tag_of tags "exportSetId"));
   report (DeleteFileSystem id) (λ err, if IsNotFound (Some err) then mret () else fail (f err))) w = (o, w') →
  deletes id tags w o w'.
Proof.
  assert (frames fss_still (if decide (tag_of tags "exportSetId" = "") then mret ()
                            else delete_export fuel id path (tag_of tags "exportSetId"))) as Hexport.
  { case_decide; [apply (frames_lift fss_still (Ret _))|apply delete_export_still]. }
  intros Hr. apply M_bind_cases in Hr as [([] & w1 & Hm & Hr)|(o1 & Hm & Ho)].
  - assert (file_systems w1 = file_systems w ∧
      (mount_targets w1 = mount_targets w ∧ tag_of tags "isDeleteMountTarget" ≠ "true" ∨
       tag_of tags "isDeleteMountTarget" = "true" ∧ only_at (tag_of tags "mountTargetOCID") (mount_targets w) (mount_targets w1) ∧
       mount_targets w1 !! tag_of tags "mountTargetOCID" = None)) as [Hf1 Hm1].
    { destruct (decide (tag_of tags "isDeleteMountTarget" = "true")).
      - apply delete_mount_target_spec in Hm as (H1 & H2 & H3). eauto 10.
      - injection Hm as <-. auto. }
    apply M_bind_cases in Hr as [([] & w2 & He & Hr)|(o1 & He & Ho)]; apply Hexport in He as [He1 He2].
    + apply delete_file_system_spec in Hr as (H1 & H2 & H3). unfold deletes. rewrite H1, He2. rewrite He1, Hf1 in H2.
      split_and!; [done| | |done]; destruct Hm1 as [[-> ?]|(? & ? & ?)]; auto.
    + unfold deletes. rewrite He1, He2, Hf1. split_and!; [by left| |by left|by intros ->].
      destruct Hm1 as [[-> ?]|(? & ? & ?)]; auto.
  - assert (file_systems w' = file_systems w ∧
      (mount_targets w' = mount_targets w ∨
       tag_of tags "isDeleteMountTarget" = "true" ∧ only_at (tag_of tags "mountTargetOCID") (mount_targets w) (mount_targets w')))
      as [Hf1 Hm1].
    { destruct (decide (tag_of tags "isDeleteMountTarget" = "true")).
      - apply delete_mount_target_spec in Hm as (H1 & H2 & H3). eauto.
      - injection Hm as _ <-. auto. }
    unfold deletes. rewrite Hf1. split_and!; [by left|done|by left|by intros ->].
Qed.

(** A request to delete a volume removes at most the file system of
    its handle and, of mount targets, at most the one that the file system is tagged with,
    and that only if it is tagged as made for the volume; the file system is removed only
    after that mount target is gone.  If the request succeeds the file system is gone. *)
Lemma Fss_DeleteVolume_safe fuel volumeId secrets w o w' :
  Fss_DeleteVolume fuel volumeId secrets w = (o, w') →
  let id := FilesystemOcid (ValidateFssId volumeId) in
  match file_systems w !! id with
  | Some r => deletes id (res_Tags r) w o w'
  | None => fss_still w w'
  end.
Proof.
  intros Hr id. unfold Fss_DeleteVolume in Hr.
  assert (∀ w1 : W, fss_still w w1 → fss_still w1 w' → is_ret o = false →
    match file_systems w !! id with Some r => deletes id (res_Tags r) w o w' | None => fss_still w w' end) as Hfail.
  { intros w1 Hs1 Hs2 Ho. assert (fss_still w w') as [H1 H2] by (by trans w1).
    destruct (file_systems w !! id) as [r|]; [|done]. split_and!; [left|left|left|intros ->]; done. }
  apply M_bind_cases in Hr as [([] & w1 & Hc & Hr)|(o1 & Hc & Ho)];
    (eapply (frames_bind fss_still) in Hc as Hs; [|apply request_token_still|intros t; apply request_clients_still]);
    [|by eapply (Hfail w)].
  case_decide; [injection Hr as <- <-; by eapply (Hfail w1)|].
  fold id in Hr. clear Hc. unfold mbind at 1, M_bind at 1, try, GetFileSystem, limited in Hr.
  destruct (fss_limits w1) as [Hs2 _]. destruct (Reader_TryAccept w1) as [[] w2]; simpl in Hs2, Hr.
  2: { injection Hr as <- <-. by eapply (Hfail w1). }
  assert (fss_still w w2) as Hs3 by (by trans w1). destruct fss_reads as (Hread & _).
  destruct (fsdk_GetFileSystem id w2) as [[fs|e|] w3] eqn:Eg; apply (Hread id) in Eg as Hs4.
  - destruct (GetFileSystem_law _ _ _ _ Eg) as (r & Hr1 & Htags & _). assert (fss_still w w3) as Hs5 by (by trans w2).
    apply M_bind_cases in Hr as [(c & w4 & Hl & Hr)|(o1 & Hl & Ho)]; injection Hl as _ <-; [|by eapply (Hfail w3)].
    apply M_bind_cases in Hr as [(dn & w4 & Hl & Hr)|(o1 & Hl & Ho)]; injection Hl as _ <-; [|by eapply (Hfail w3)].
    apply delete_resources_spec in Hr. rewrite (proj1 Hs3) in Hr1. rewrite Hr1, <-Htags. by eapply deletes_still.
  - destruct (IsNotFound (Some e)) eqn:He; injection Hr as <- <-; [|by eapply (Hfail w2)].
    rewrite <-(proj1 Hs3), (GetFileSystem_missing _ _ _ _ Eg He). by trans w2.
  - injection Hr as <- <-. by eapply (Hfail w2).
Qed.

(** ** Searching by name *)

(** Every element that a step sees is kept. *)
Definition keeps (step : Found → Summary → Found) : Prop := ∀ f s,
  fnd_summaries (step f s) = (if decide (usable s) then fnd_summaries f ++ [s] else fnd_summaries f) ∧
  (fnd_foundConflicting (step f s) = false ↔ fnd_foundConflicting f = false ∧ usable s).

Lemma file_system_step_keeps : keeps file_system_step.
Proof. intros f s. unfold file_system_step. case_decide; simpl; naive_solver. Qed.
Lemma mount_target_step_keeps : keeps mount_target_step.
Proof. intros f s. unfold mount_target_step. case_decide; simpl; naive_solver. Qed.

Lemma keeps_fold step items f :
  keeps step →
  fnd_summaries (fold_left step items f) = fnd_summaries f ++ filter usable items ∧
  (fnd_foundConflicting (fold_left step items f) = false ↔ fnd_foundConflicting f = false ∧ Forall usable items).
Proof.
  intros Hk. revert f. induction items as [|s items IH]; intros f; simpl.
  { rewrite app_nil_r, Forall_nil. tauto. }
  destruct (IH (step f s)) as [-> ->]. destruct (Hk f s) as [-> ->]. rewrite Forall_cons, filter_cons. split; [|tauto].
  case_decide; [by rewrite <-(assoc (++))|done].
Qed.

Section search.
Context (res : W → gmap string Resource) (c ad n : string) (step : Found → Summary → Found)
  (list_page : option string → M W (list Summary * option string)).
Hypothesis (res_still : ∀ w w', fss_still w w' → res w' = res w) (Hstep : keeps step)
  (list_still : frames fss_still (list_page None))
  (list_answer : ∀ w items next w', list_page None w = (Ret (items, next), w') → listed c ad n (res w) items next)
  (list_missing : ∀ w e w', list_page None w = (Err e, w') → IsNotFound (Some e) = true → unnamed c ad n (res w)).

Lemma by_name_still fuel f : frames fss_still (by_name fuel step list_page f).
Proof using list_still.
  revert f. induction fuel as [|fuel IH]; intros f; simpl; [apply (frames_fail fss_still)|].
  apply (frames_bind fss_still); [by apply (frames_try fss_still), fss_limited|].
  intros [e|[items [next|]]]; [apply (frames_lift fss_still (Ret _))|apply IH|apply (frames_lift fss_still (Ret _))].
Qed.

(** The usable resources are named; without conflicts they are all there are. *)
Lemma by_name_Ret fuel f w f' err w' :
  by_name fuel step list_page f w = (Ret (f', err), w') →
  (∀ s, s ∈ fnd_summaries f → ∃ id r, sum_Id s = Some id ∧ res w !! id = Some r ∧ res_named c ad n r) →
  (∀ s, s ∈ fnd_summaries f' → ∃ id r, sum_Id s = Some id ∧ res w !! id = Some r ∧ res_named c ad n r) ∧
  match err with
  | None => fnd_foundConflicting f' = false → fnd_summaries f' = [] → unnamed c ad n (res w)
  | Some e => IsNotFound (Some e) = true → unnamed c ad n (res w)
  end.
Proof using res_still Hstep list_still list_answer list_missing.
  revert f w. induction fuel as [|fuel IH]; intros f w Hr Hf; [done|]. simpl in Hr.
  unfold mbind, M_bind, try in Hr. unfold limited in Hr at 1. destruct (fss_limits w) as [Hs _].
  destruct (Reader_TryAccept w) as [[] w1]; simpl in Hs; [|injection Hr as <- <- <-; split; [done|done]].
  apply res_still in Hs. destruct (list_page None w1) as [[[items next]|e|] w2] eqn:E; [..|done].
  - apply list_answer in E as Hl. apply list_still, res_still in E as Hs2. rewrite Hs in Hl.
    destruct Hl as [Hsound Hcomp]. destruct (keeps_fold step items f Hstep) as [Hsum Hconf].
    assert (∀ s, s ∈ fnd_summaries (fold_left step items f) →
      ∃ id r, sum_Id s = Some id ∧ res w !! id = Some r ∧ res_named c ad n r) as Hf1.
    { intros s. rewrite Hsum. intros [?|[_ ?]%list_elem_of_filter]%elem_of_app; auto. }
    destruct next as [next|].
    + apply IH in Hr; rewrite Hs2, Hs in *; done.
    + injection Hr as <- <- <-. split; [done|]. rewrite Hsum, Hconf. intros [_ Hall] [_ Hnil]%app_nil.
      intros id r Hid Hn. destruct (Hcomp eq_refl id r Hid Hn) as (s & Hs3 & _).
      assert (s ∈ filter usable items) as Hin by (apply list_elem_of_filter; rewrite Forall_forall in Hall; auto).
      rewrite Hnil in Hin. by apply elem_of_nil in Hin.
  - injection Hr as <- <- <-. split; [done|]. intros He. rewrite <-Hs. by eapply list_missing.
Qed.

(** The search by name: what the answer says when it is used. *)
Lemma search_answer fuel message w conflicting l err w' :
  (r ← by_name fuel step list_page nothing_found; mret (by_name_answer message r)) w = (Ret (conflicting, l, err), w') →
  fss_still w w' ∧
  (err = None ∨ IsNotFound err = true →
   (∀ s, s ∈ l → ∃ id r, sum_Id s = Some id ∧ res w !! id = Some r ∧ res_named c ad n r) ∧
   (l = [] → unnamed c ad n (res w))).
Proof using res_still Hstep list_still list_answer list_missing.
  intros ([f e] & w1 & Hb & Hr)%M_bind_Ret_inv. apply by_name_still in Hb as Hs.
  apply by_name_Ret in Hb as [Hsum Hn]; [|by intros s ?%elem_of_nil]. injection Hr as Hr <-. split; [done|].
  unfold by_name_answer in Hr. destruct e as [e|].
  - injection Hr as <- <- <-. intros [?|He]; [done|]. split; [by intros s ?%elem_of_nil|auto].
  - destruct (fnd_foundConflicting f); injection Hr as <- <- <-; [by intros [?|?]|]. auto.
Qed.
End search.

(** ** Creating *)

Lemma on_world_pair {S A} (c : M W A) (s : S) w o s' w' : on_world c (s, w) = (o, (s', w')) → s' = s ∧ c w = (o, w').
Proof. apply (on_world_cache c (s, w) o (s', w')). Qed.

(** A resource with the name is added, where there was none. *)
Definition adds (res : W → gmap string Resource) (c ad n : string) (w w' : W) : Prop :=
  unnamed c ad n (res w) ∧ ∃ id r, res w !! id = None ∧ res w' = <[id := r]> (res w) ∧ res_named c ad n r.

(** The step of a request that gets or creates a mount target. *)
Definition mount_target_part (c ad n : string) (w w' : W) : Prop :=
  file_systems w' = file_systems w ∧ (mount_targets w' = mount_targets w ∨ adds mount_targets c ad n w w').

Lemma search_failed_still {A} kind b l e : frames fss_still (search_failed (A := A) kind b l e).
Proof.
  apply (frames_bind fss_still); [|intros m; apply (frames_fail fss_still)]. destruct b; [|apply (frames_lift fss_still (Ret _))].
  apply (frames_bind fss_still); [apply (frames_lift fss_still)|]. intros t. apply (frames_lift fss_still (Ret _)).
Qed.

(** A search that is not used fails and changes nothing. *)
Lemma search_cases {A} kind (found : M W (bool * list Summary * option error)) (use : list Summary → M (option FssTags * W) A)
    config w o config' w' :
  frames fss_still found → search kind found use (config, w) = (o, (config', w')) →
  (config' = config ∧ fss_still w w' ∧ is_ret o = false) ∨
  ∃ conflicting l err w1, found w = (Ret (conflicting, l, err), w1) ∧ (err = None ∨ IsNotFound err = true) ∧
    use l (config, w1) = (o, (config', w')).
Proof.
  intros Hf Hr. apply M_bind_cases in Hr as [([[conflicting l] err] & [config1 w1] & Hs & Hr)|(o1 & Hs & Ho)];
    apply on_world_pair in Hs as [Hc Hs]; [|apply Hf in Hs; auto].
  subst config1. destruct err as [e|]; [destruct (IsNotFound (Some e)) eqn:He|].
  - right. exists conflicting, l, (Some e), w1. auto.
  - left. apply on_world_pair in Hr as [Hc Hr]. apply search_failed_still in Hr as Hs2. apply Hf in Hs.
    split_and!; [done|by trans w1|]. unfold search_failed in Hr.
    apply M_bind_cases in Hr as [(m & w2 & _ & Hr)|(o1 & _ & Ho)]; [by injection Hr as <- _|done].
  - right. exists conflicting, l, None, w1. auto.
Qed.

Lemma subnet_check_still d id : frames fss_still (validateMountTargetSubnetWithClusterIpFamily d id).
Proof.
  destruct fss_reads as (_ & _ & _ & _ & _ & _ & _ & _ & _ & _ & _ & H & _).
  apply (frames_bind fss_still); [apply (frames_report fss_still); [auto|intros e; apply (frames_fail fss_still)]|].
  intros subnet. cbv zeta. repeat (destruct (_ && _); [apply (frames_fail fss_still)|]). apply (frames_lift fss_still (Ret _)).
Qed.

Lemma provisionMountTarget_spec n (p : StorageClassParameters CO) config w o config' w' :
  provisionMountTarget n p (config, w) = (o, (config', w')) →
  config' = config ∧ file_systems w' = file_systems w ∧
  ((mount_targets w' = mount_targets w ∧ is_ret o = false) ∨
   ∃ id r, mount_targets w !! id = None ∧ mount_targets w' = <[id := r]> (mount_targets w) ∧
     res_named (scp_compartmentOcid p) (scp_availabilityDomain p) n r ∧ (∀ mt, o = Ret mt → mt_Id mt = Some id)).
Proof.
  intros Hr. unfold provisionMountTarget, mbind, M_bind, read_tags in Hr. apply on_world_pair in Hr as [Hc Hr].
  unfold CreateMountTarget, writer_limited in Hr. destruct (fss_limits w) as [_ [Hs1 Hs2]].
  destruct (Writer_TryAccept w) as [[] w1]; simpl in *; [|injection Hr as <- <-; auto].
  apply CreateMountTarget_law in Hr as [[[H1 H2] Ho]|(id & r & H1 & H2 & H3 & H4 & H5)].
  - split_and!; [done|congruence|]. left. split; [congruence|done].
  - rewrite Hs2 in H1, H2. split_and!; [done|congruence|]. right. by exists id, r.
Qed.

(** The mount target that is used: the one that is given, else one with the name of the
    volume. *)
Definition mount_target_of (p : StorageClassParameters CO) (n id : string) (w : W) : Prop :=
  if decide (scp_mountTargetOcid p = "")
  then ∃ r, mount_targets w !! id = Some r ∧ res_named (scp_compartmentOcid p) (scp_availabilityDomain p) n r
  else id = scp_mountTargetOcid p.

Lemma mount_target_of_named p n id r w :
  scp_mountTargetOcid p = "" → mount_targets w !! id = Some r →
  res_named (scp_compartmentOcid p) (scp_availabilityDomain p) n r → mount_target_of p n id w.
Proof. intros Hp Hr Hn. unfold mount_target_of. rewrite decide_True by done. by exists r. Qed.

Lemma mount_target_part_still c ad n w w1 w' :
  fss_still w w1 → mount_target_part c ad n w1 w' → mount_target_part c ad n w w'.
Proof. intros [H1 H2]. unfold mount_target_part, adds. by rewrite H1, H2. Qed.

Lemma still_mount_target_part c ad n w w' : fss_still w w' → mount_target_part c ad n w w'.
Proof. intros [H1 H2]. split; auto. Qed.

(** A new mount target, where there is none with the name. *)
Lemma new_mount_target_spec d n (p : StorageClassParameters CO) config w o config' w' :
  scp_mountTargetOcid p = "" →
  unnamed (scp_compartmentOcid p) (scp_availabilityDomain p) n (mount_targets w) →
  (_ ← (if IsValidIpFamilyPresentInClusterIpFamily (f_clusterIpFamily d)
        then on_world (validateMountTargetSubnetWithClusterIpFamily d (scp_mountTargetSubnetOcid p)) else mret ());
   mt ← report (provisionMountTarget n p)
          (λ err, status Internal "New Mount Target creation failed, error: %s" [Error err]);
   mret (mt_Id mt, false)) (config, w) = (o, (config', w')) →
  config' = config ∧ mount_target_part (scp_compartmentOcid p) (scp_availabilityDomain p) n w w' ∧
  (∀ id b, o = Ret (Some id, b) → mount_target_of p n id w').
Proof.
  intros Hp Hn Hr.
  apply M_bind_cases in Hr as [(u & [config1 w1] & Hv & Hr)|(o1 & Hv & Ho)].
  2: { assert (config' = config ∧ fss_still w w') as [-> Hs].
       { destruct (IsValidIpFamilyPresentInClusterIpFamily _); [|by injection Hv as _ <- <-].
         apply on_world_pair in Hv as [-> Hv]. by apply subnet_check_still in Hv. }
       split_and!; [done|by apply still_mount_target_part|by intros id b ->]. }
  assert (config1 = config ∧ fss_still w w1) as [-> Hs].
  { destruct (IsValidIpFamilyPresentInClusterIpFamily _); [|by injection Hv as _ <- <-].
    apply on_world_pair in Hv as [-> Hv]. by apply subnet_check_still in Hv. }
  clear Hv. destruct Hs as [Hs1 Hs2]. destruct (provisionMountTarget n p (config, w1)) as [om [config2 w2]] eqn:Em.
  apply provisionMountTarget_spec in Em as Hm. destruct Hm as (-> & Hf & Hm).
  assert (mount_target_part (scp_compartmentOcid p) (scp_availabilityDomain p) n w w2) as Hpart.
  { split; [congruence|]. destruct Hm as [[Hm _]|(id & r & H1 & H2 & H3 & _)]; [left; congruence|right].
    split; [done|]. exists id, r. by rewrite <-Hs2. }
  apply M_bind_cases in Hr as [(mt & [config3 w3] & Hr1 & Hr)|(o1 & Hr1 & Ho)].
  - apply report_fails_Ret in Hr1; [|done]. rewrite Em in Hr1. injection Hr1 as -> <- <-. injection Hr as <- <- <-.
    split_and!; [done..|]. intros id b [= Hid]. destruct Hm as [[_ ?]|(id' & r & H1 & H2 & H3 & H4)]; [done|].
    rewrite (H4 mt eq_refl) in Hid. injection Hid as <-.
    apply (mount_target_of_named _ _ _ r); [done|by rewrite H2, lookup_insert_eq|done].
  - apply (f_equal snd) in Hr1. rewrite report_world, Em in Hr1 by done. injection Hr1 as <- <-.
    split_and!; [done..|]. by intros id b ->.
Qed.

Lemma choose_mount_target_spec d fuel n (p : StorageClassParameters CO) config w o config' w' :
  choose_mount_target d fuel n p (config, w) = (o, (config', w')) →
  config' = config ∧ mount_target_part (scp_compartmentOcid p) (scp_availabilityDomain p) n w w' ∧
  (∀ id b, o = Ret (Some id, b) → mount_target_of p n id w').
Proof.
  intros Hr. unfold choose_mount_target in Hr. destruct fss_reads as (_ & _ & _ & _ & _ & _ & _ & Hlist & _).
  case_decide as Hp.
  { injection Hr as <- <- <-. split_and!; [done|by apply still_mount_target_part|]. intros id b [= <- <-].
    unfold mount_target_of. by rewrite decide_False. }
  assert (scp_mountTargetOcid p = "") as Hp' by (destruct (decide (scp_mountTargetOcid p = "")); tauto).
  pose proof (λ w w' (H : fss_still w w'), proj2 H) as Hres.
  apply search_cases in Hr as [(-> & Hs & Ho)|(cf & l & err & w1 & Hf & Herr & Hr)].
  - split_and!; [done|by apply still_mount_target_part|]. by intros id b ->.
  - apply (search_answer mount_targets _ _ _ _ _ Hres mount_target_step_keeps (Hlist _ _ _ _)
      (ListMountTargets_answer _ _ _) (ListMountTargets_missing _ _ _)) in Hf as [Hs Hl].
    destruct (Hl Herr) as [Hin Hno]. destruct Hs as [Hs1 Hs2]. destruct l as [|s [|s2 l]].
    + apply new_mount_target_spec in Hr as (-> & Hpart & Hid); [|done|rewrite Hs2; auto].
      split_and!; [done|by eapply mount_target_part_still; [split|]|done].
    + injection Hr as <- <- <-. split_and!; [done|by apply still_mount_target_part|]. intros id b [= Hid].
      destruct (Hin s ltac:(by left)) as (id' & r & Hs & Hr & Hn). rewrite Hid in Hs. injection Hs as <-.
      apply (mount_target_of_named _ _ _ r); [done|by rewrite Hs2|done].
    + injection Hr as <- <- <-. split_and!; [done|by apply still_mount_target_part|done].
  - unfold GetMountTargetSummaryByDisplayName. apply (frames_bind fss_still); [|intros r; apply (frames_lift fss_still (Ret _))].
    apply by_name_still. auto.
Qed.

Lemma mount_target_part_then c ad n w w1 w' :
  mount_target_part c ad n w w1 → fss_still w1 w' → mount_target_part c ad n w w'.
Proof. intros [H1 H2] [H3 H4]. unfold mount_target_part, adds. by rewrite H3, H4. Qed.

Lemma mount_target_of_still p n id w w' : fss_still w w' → mount_target_of p n id w → mount_target_of p n id w'.
Proof. intros [_ Hs]. unfold mount_target_of. by rewrite Hs. Qed.

(** What is read of the mount target when it is active. *)
Lemma mount_target_read_still d ctx id b :
  frames fss_still
    (mt ← report (AwaitMountTargetActive ctx id)
       (λ err, status CodeDeadlineExceeded "await mount target to be available failed with time out, error: %s" [Error err]);
     _ ← lift (deref (mt_DisplayName mt));
     match mt_PrivateIpIds mt with
     | [] => status Internal "IP not assigned to mount target" []
     | mountTargetIpId :: _ =>
         _ ← (if b && IsValidIpFamilyPresentInClusterIpFamily (f_clusterIpFamily d)
              then lift (validateMountTargetWithClusterIpFamily d [] (mt_PrivateIpIds mt)) else mret ());
         ip ← report (fss_GetPrivateIp mountTargetIpId)
           (λ err, status Internal "Failed to get mount target %s ip from ip id %s, error: %s" ["privateIp"; mountTargetIpId; Error err]);
         ip ← lift (deref ip);
         match mt_ExportSetId mt with
         | Some exportSetId =>
             if decide (exportSetId = "") then status Internal "ExportSetId not assigned to mount target" []
             else mret (id, ip, exportSetId)
         | None => status Internal "ExportSetId not assigned to mount target" []
         end
     end).
Proof.
  destruct fss_reads as (_ & _ & _ & _ & _ & _ & _ & _ & _ & _ & _ & _ & Hip).
  apply (frames_bind fss_still); [apply (frames_report fss_still); [apply fss_awaits|intros e; apply (frames_fail fss_still)]|].
  intros mt. apply (frames_bind fss_still); [apply (frames_lift fss_still)|]. intros _.
  destruct (mt_PrivateIpIds mt); [apply (frames_fail fss_still)|]. apply (frames_bind fss_still).
  { destruct (_ && _); [apply (frames_lift fss_still)|apply (frames_lift fss_still (Ret _))]. }
  intros _. apply (frames_bind fss_still); [apply (frames_report fss_still); [auto|intros e; apply (frames_fail fss_still)]|].
  intros ip. apply (frames_bind fss_still); [apply (frames_lift fss_still)|]. intros ip'.
  destruct (mt_ExportSetId mt); [case_decide|]; apply (frames_fail fss_still) || apply (frames_lift fss_still (Ret _)).
Qed.

Lemma getOrCreateMountTarget_spec d fuel ctx n (p : StorageClassParameters CO) config w o config' w' :
  getOrCreateMountTarget d fuel ctx n p (config, w) = (o, (config', w')) →
  config' = config ∧ mount_target_part (scp_compartmentOcid p) (scp_availabilityDomain p) n w w' ∧
  (∀ id ip set, o = Ret (id, ip, set) → mount_target_of p n id w').
Proof.
  intros Hr. apply M_bind_cases in Hr as [([mtId b] & [config1 w1] & Hc & Hr)|(o1 & Hc & Ho)];
    apply choose_mount_target_spec in Hc as (-> & Hpart & Hof); [|split_and!; [done..|by intros id ip set ->]].
  apply M_bind_cases in Hr as [(id & [config2 w2] & Hl & Hr)|(o1 & Hl & Ho)];
    [|by injection Hl as _ <- <-; split_and!; [..|intros id ip set ->]].
  apply lift_Ret_inv in Hl as [Hl E]. injection E as -> ->. destruct mtId as [id'|]; [injection Hl as ->|done].
  specialize (Hof id b eq_refl). apply on_world_pair in Hr as [-> Hr].
  apply mount_target_read_still in Hr as Hs. split_and!; [done|by eapply mount_target_part_then|].
  intros id' ip set ->. apply (mount_target_of_still _ _ _ w1); [done|]. assert (id' = id) as ->; [|done].
  apply M_bind_Ret_inv in Hr as (mt & w3 & _ & Hr). apply M_bind_Ret_inv in Hr as (x & w4 & _ & Hr).
  destruct (mt_PrivateIpIds mt); [done|]. apply M_bind_Ret_inv in Hr as (y & w5 & _ & Hr).
  apply M_bind_Ret_inv in Hr as (z & w6 & _ & Hr). apply M_bind_Ret_inv in Hr as (z' & w7 & _ & Hr).
  destruct (mt_ExportSetId mt); [case_decide|]; try done. by injection Hr as ->.
Qed.

(** A file system is added, with the tags. *)
Definition adds_tagged (p : StorageClassParameters CO) (n : string) (tags : option (gmap string string)) (w w' : W) : Prop :=
  unnamed (scp_compartmentOcid p) (scp_availabilityDomain p) n (file_systems w) ∧
  ∃ id r, file_systems w !! id = None ∧ file_systems w' = <[id := r]> (file_systems w) ∧
    res_named (scp_compartmentOcid p) (scp_availabilityDomain p) n r ∧ res_Tags r = tags.

Lemma provisionFileSystem_spec n (p : StorageClassParameters CO) config w o config' w' tags :
  read_tags (scp_scTags p) (config, w) = (Ret tags, (config, w)) →
  provisionFileSystem n p (config, w) = (o, (config', w')) →
  config' = config ∧ mount_targets w' = mount_targets w ∧
  ((file_systems w' = file_systems w ∧ is_ret o = false) ∨
   ∃ id r, file_systems w !! id = None ∧ file_systems w' = <[id := r]> (file_systems w) ∧
     res_named (scp_compartmentOcid p) (scp_availabilityDomain p) n r ∧ res_Tags r = ft_Freeform tags ∧
     (∀ fs, o = Ret fs → fs_Id fs = Some id)).
Proof.
  intros Ht Hr. unfold provisionFileSystem, mbind, M_bind in Hr. rewrite Ht in Hr. apply on_world_pair in Hr as [Hc Hr].
  unfold CreateFileSystem, writer_limited in Hr. destruct (fss_limits w) as [_ [Hs1 Hs2]].
  destruct (Writer_TryAccept w) as [[] w1]; simpl in *; [|injection Hr as <- <-; auto].
  apply CreateFileSystem_law in Hr as [[[H1 H2] Ho]|(id & r & H1 & H2 & H3 & H4 & H5 & H6)].
  - split_and!; [done|congruence|]. left. split; [congruence|done].
  - rewrite Hs1 in H1, H2. split_and!; [done|congruence|]. right. by exists id, r.
Qed.

(** The step of a request that gets or creates a file system. *)
Definition file_system_part (p : StorageClassParameters CO) (n : string) (tags : FssTags) (w w' : W) : Prop :=
  mount_targets w' = mount_targets w ∧ (file_systems w' = file_systems w ∨ adds_tagged p n (ft_Freeform tags) w w').

Lemma choose_file_system_spec fuel n (p : StorageClassParameters CO) config w o config' w' tags :
  (∀ w : W, read_tags (scp_scTags p) (config, w) = (Ret tags, (config, w))) →
  choose_file_system fuel n p (config, w) = (o, (config', w')) →
  config' = config ∧ file_system_part p n tags w w' ∧
  (∀ id, o = Ret (Some id) →
     ∃ r, file_systems w' !! id = Some r ∧ res_named (scp_compartmentOcid p) (scp_availabilityDomain p) n r).
Proof.
  intros Ht Hr. unfold choose_file_system in Hr. destruct fss_reads as (_ & _ & _ & _ & _ & _ & Hlist & _).
  assert (∀ w w', fss_still w w' → file_system_part p n tags w w') as Hstill by (intros ?? [? ?]; split; auto).
  pose proof (λ w w' (H : fss_still w w'), proj1 H) as Hres.
  apply search_cases in Hr as [(-> & Hs & Ho)|(cf & l & err & w1 & Hf & Herr & Hr)].
  - split_and!; [done|by apply Hstill|]. by intros id ->.
  - apply (search_answer file_systems _ _ _ _ _ Hres file_system_step_keeps (Hlist _ _ _ _)
      (ListFileSystems_answer _ _ _) (ListFileSystems_missing _ _ _)) in Hf as [Hs Hl].
    destruct (Hl Herr) as [Hin Hno]. pose proof (Hstill _ _ Hs) as Hpart1. destruct Hs as [Hs1 Hs2]. destruct l as [|s [|s2 l]].
    + destruct (provisionFileSystem n p (config, w1)) as [om [config2 w2]] eqn:Em.
      apply (provisionFileSystem_spec _ _ _ _ _ _ _ tags) in Em as Hm; [|done]. destruct Hm as (-> & Hf & Hm).
      rewrite Hs1 in Hm. assert (file_system_part p n tags w w2) as Hpart.
      { split; [congruence|]. destruct Hm as [[Hm _]|(id & r & H1 & H2 & H3 & H4 & _)]; [left; congruence|right].
        split; [auto|]. by exists id, r. }
      apply M_bind_cases in Hr as [(fs & [config3 w3] & Hr1 & Hr)|(o1 & Hr1 & Ho)].
      * apply report_fails_Ret in Hr1; [|done]. rewrite Em in Hr1. injection Hr1 as -> <- <-. injection Hr as <- <- <-.
        split_and!; [done..|]. intros id [= Hid]. destruct Hm as [[_ ?]|(id' & r & H1 & H2 & H3 & H4 & H5)]; [done|].
        rewrite (H5 fs eq_refl) in Hid. injection Hid as <-. exists r. by rewrite H2, lookup_insert_eq.
      * apply (f_equal snd) in Hr1. rewrite report_world, Em in Hr1 by done. injection Hr1 as <- <-.
        split_and!; [done..|]. by intros id ->.
    + injection Hr as <- <- <-. split_and!; [done..|]. intros id [= Hid].
      destruct (Hin s ltac:(by left)) as (id' & r & Hs & Hr & Hn). rewrite Hid in Hs. injection Hs as <-.
      exists r. by rewrite Hs1.
    + injection Hr as <- <- <-. by split_and!.
  - unfold GetFileSystemSummaryByDisplayName. apply (frames_bind fss_still); [|intros r; apply (frames_lift fss_still (Ret _))].
    apply by_name_still. auto.
Qed.

Lemma file_system_part_then p n tags w w1 w' : file_system_part p n tags w w1 → fss_still w1 w' → file_system_part p n tags w w'.
Proof. intros [H1 H2] [H3 H4]. unfold file_system_part, adds_tagged. by rewrite H3, H4. Qed.

Lemma getOrCreateFileSystem_spec fuel ctx n (p : StorageClassParameters CO) config w o config' w' tags :
  (∀ w : W, read_tags (scp_scTags p) (config, w) = (Ret tags, (config, w))) →
  getOrCreateFileSystem fuel ctx n p (config, w) = (o, (config', w')) →
  config' = config ∧ file_system_part p n tags w w' ∧
  (∀ id, o = Ret id →
     ∃ r, file_systems w' !! id = Some r ∧ res_named (scp_compartmentOcid p) (scp_availabilityDomain p) n r).
Proof.
  intros Ht Hr. apply M_bind_cases in Hr as [(fsId & [config1 w1] & Hc & Hr)|(o1 & Hc & Ho)];
    apply (choose_file_system_spec _ _ _ _ _ _ _ _ _ Ht) in Hc as (-> & Hpart & Hof); [|split_and!; [done..|by intros id ->]].
  apply M_bind_cases in Hr as [(id & [config2 w2] & Hl & Hr)|(o1 & Hl & Ho)];
    [|by injection Hl as _ <- <-; split_and!; [..|intros id ->]].
  apply lift_Ret_inv in Hl as [Hl E]. injection E as -> ->. destruct fsId as [id'|]; [injection Hl as ->|done].
  apply M_bind_cases in Hr as [(fs & [config2 w2] & Hw & Hr)|(o1 & Hw & Ho)].
  - apply report_fails_Ret in Hw; [|done]. apply on_world_pair in Hw as [-> Hs%(proj1 fss_awaits)]. injection Hr as <- <- <-.
    split_and!; [done|by eapply file_system_part_then|]. intros id' [= <-]. destruct Hs as [Hs1 _]. rewrite Hs1. auto.
  - apply (f_equal snd) in Hw. rewrite report_world in Hw by done.
    destruct (on_world (AwaitFileSystemActive ctx id) (config, w1)) as [o2 [config2 w2]] eqn:Ew.
    apply on_world_pair in Ew as [-> Hs%(proj1 fss_awaits)]. injection Hw as <- <-.
    split_and!; [done|by eapply file_system_part_then|]. by intros id' ->.
Qed.

Lemma getOrCreateExport_still fuel ctx (p : StorageClassParameters CO) f set : frames fss_still (getOrCreateExport fuel ctx p f set).
Proof.
  destruct fss_reads as (_ & _ & _ & _ & Hc & _). apply (frames_bind fss_still); [apply FindExport_still|]. intros [sum err].
  assert (frames fss_still (export ← report (provisionExport f set p)
    (λ err, status Internal "New Export creation failed, error: %s" [Error err]); mret (ex_Id export))) as Hnew.
  { apply (frames_bind fss_still); [|intros x; apply (frames_lift fss_still (Ret _))].
    apply (frames_report fss_still); [apply fss_writer_limited; auto|]. intros e. apply (frames_fail fss_still). }
  apply (frames_bind fss_still).
  - destruct err as [e|], sum as [sum|]; try apply (frames_lift fss_still (Ret _)); try done.
    + destruct (IsNotFound (Some e)); [apply (frames_lift fss_still (Ret _))|].
      apply (frames_bind fss_still); [apply (frames_lift fss_still)|]. intros path. apply (frames_fail fss_still).
    + destruct (IsNotFound (Some e)); [done|apply (frames_fail fss_still)].
  - intros id. apply (frames_bind fss_still); [|intros x; apply (frames_lift fss_still (Ret _))].
    apply (frames_report fss_still); [apply fss_awaits|]. intros e. apply (frames_fail fss_still).
Qed.

(** Computations that only read, on the state with the configuration. *)
Definition config_still (s s' : option FssTags * W) : Prop := s'.1 = s.1 ∧ fss_still s.2 s'.2.
#[global] Instance config_still_preorder : PreOrder config_still.
Proof. split; [done|]. intros s1 s2 s3 [H1 H2] [H3 H4]. split; [congruence|by trans s2.2]. Qed.
Lemma on_world_still {A} (c : M W A) : frames fss_still c → frames config_still (on_world c).
Proof. intros Hc s o s' [H1 H2]%on_world_cache. split; [done|by eapply Hc]. Qed.

Lemma extractStorageClassParameters_still d n params : frames config_still (extractStorageClassParameters d n params).
Proof.
  destruct fss_reads as (_ & _ & _ & _ & _ & _ & _ & _ & Hdom & _).
  assert (∀ A json msg v, frames fss_still (@fss_tags_override W A json msg v)) as Htags.
  { intros A json msg [v|]; [|apply (frames_lift fss_still (Ret _))]. unfold fss_tags_override. case_decide; [apply (frames_lift fss_still (Ret _))|].
    destruct (json v); [apply (frames_fail fss_still)|apply (frames_lift fss_still (Ret _))]. }
  unfold extractStorageClassParameters. cbv zeta. apply (frames_bind config_still).
  { apply on_world_still. unfold fss_availability_domain. destruct (params !! _); [|apply (frames_fail fss_still)].
    destruct (f_ipv6SingleStackCluster d); [destruct (has_byte _ _); [apply (frames_lift fss_still (Ret _))|apply (frames_fail fss_still)]|].
    apply (frames_report fss_still); [|intros e; apply (frames_fail fss_still)]. apply fss_limited.
    apply (frames_bind fss_still); [apply Hdom|]. intros ads. apply (frames_bind fss_still); [apply (frames_lift fss_still)|].
    intros [x|]; [apply (frames_lift fss_still (Ret _))|apply (frames_fail fss_still)]. }
  intros domain. apply (frames_bind config_still).
  { apply on_world_still. unfold fss_mount_target. destruct (params !! _); [apply (frames_lift fss_still (Ret _))|].
    destruct (params !! _); [|apply (frames_fail fss_still)]. destruct (params !! _); [|apply (frames_lift fss_still (Ret _))].
    destruct (json_nsgOcids _); [apply (frames_fail fss_still)|apply (frames_lift fss_still (Ret _))]. }
  intros [[mt subnet] nsgs]. apply (frames_bind config_still).
  { apply on_world_still. unfold fss_export_options. destruct (params !! _); [|apply (frames_lift fss_still (Ret _))].
    case_decide; [apply (frames_lift fss_still (Ret _))|].
    destruct (json_exportOptions _); [apply (frames_fail fss_still)|apply (frames_lift fss_still (Ret _))]. }
  intros opts. apply (frames_bind config_still); [apply on_world_still, Htags|]. intros f.
  apply (frames_bind config_still); [apply on_world_still, Htags|]. intros t.
  apply (frames_bind config_still); [|intros sh; apply (frames_lift config_still (Ret _))].
  by intros [config w] o s' [= _ <-].
Qed.

(** What the storage class and the configuration say of a volume. *)
Definition parameters_of d (n : string) (params : gmap string string) (p : StorageClassParameters CO) : Prop :=
  scp_compartmentOcid p = default (f_CompartmentID d) (params !! "compartmentOcid") ∧
  scp_mountTargetOcid p = default "" (params !! "mountTargetOcid") ∧
  scp_exportPath p = default ("/" +:+ n) (params !! "exportPath").

Lemma extractStorageClassParameters_Ret d n params config w (p : StorageClassParameters CO) s' :
  extractStorageClassParameters d n params (config, w) = (Ret p, s') →
  parameters_of d n params p ∧ (scp_scTags p = SharedTags → is_Some config).
Proof.
  intros (domain & [c1 w1] & H1 & Hr)%M_bind_Ret_inv. apply M_bind_Ret_inv in Hr as ([[mt subnet] nsgs] & [c2 w2] & H2 & Hr).
  apply M_bind_Ret_inv in Hr as (opts & [c3 w3] & H3 & Hr). apply M_bind_Ret_inv in Hr as (f & [c4 w4] & H4 & Hr).
  apply M_bind_Ret_inv in Hr as (t & [c5 w5] & H5 & Hr). apply M_bind_Ret_inv in Hr as (sh & [c6 w6] & H6 & Hr).
  apply on_world_pair in H1 as [-> _]. apply on_world_pair in H2 as [-> H2]. apply on_world_pair in H3 as [-> _].
  apply on_world_pair in H4 as [-> _]. apply on_world_pair in H5 as [-> _]. injection H6 as <- _ _. injection Hr as <- _.
  unfold parameters_of. simpl. split_and!; [done| |done|].
  - unfold fss_mount_target in H2. destruct (params !! "mountTargetOcid") as [m|]; [by injection H2 as <-|].
    destruct (params !! "mountTargetSubnetOcid"); [|done]. destruct (params !! "nsgOcids"); [|by injection H2 as <-].
    destruct (json_nsgOcids _); [done|by injection H2 as <-].
  - destruct f, t; try done. case_bool_decide; done.
Qed.

(** The tags by which a deletion finds the mount target of a new file system. *)
Definition tagged_for (p : StorageClassParameters CO) (n : string) (tags : option (gmap string string)) (w : W) : Prop :=
  tag_of tags "isDeleteMountTarget" = (if decide (scp_mountTargetOcid p = "") then "true" else "false") ∧
  mount_target_of p n (tag_of tags "mountTargetOCID") w.

Lemma resource_tags_for p n isDelete mt set tags w :
  isDelete = (if decide (scp_mountTargetOcid p = "") then "true" else "false") → mount_target_of p n mt w →
  tagged_for p n (ft_Freeform (resource_tags isDelete mt set tags)) w.
Proof. intros -> Hm. unfold tagged_for, tag_of, resource_tags. simpl. by simplify_map_eq. Qed.

(** The tags that are read after they are written. *)
Lemma write_then_read isDelete mt set ref config (w : W) :
  (ref = SharedTags → is_Some config) →
  ∃ ref' config' tags, write_tags isDelete mt set ref (config, w) = (Ret ref', (config', w)) ∧
    ∀ w : W, read_tags ref' (config', w) = (Ret (resource_tags isDelete mt set tags), (config', w)).
Proof.
  intros Hc. destruct ref as [|tags].
  - destruct (Hc eq_refl) as [tags ->]. by exists SharedTags, (Some (resource_tags isDelete mt set tags)), tags.
  - by exists (OwnTags (resource_tags isDelete mt set tags)), config, tags.
Qed.

(** What a request to create the volume [n] adds: at most one mount target and at most one
    file system, each only where none has the name. *)
Definition volume_added (p : StorageClassParameters CO) (n : string) (w w' : W) : Prop :=
  (mount_targets w' = mount_targets w ∨ adds mount_targets (scp_compartmentOcid p) (scp_availabilityDomain p) n w w') ∧
  (file_systems w' = file_systems w ∨ ∃ tags, adds_tagged p n tags w w' ∧ tagged_for p n tags w').

Lemma volume_added_still p n w w' : fss_still w w' → volume_added p n w w'.
Proof. intros [H1 H2]. split; by left. Qed.

(** The file system is chosen after the mount target. *)
Lemma volume_added_parts p n (tags : FssTags) w w1 w' :
  mount_target_part (scp_compartmentOcid p) (scp_availabilityDomain p) n w w1 →
  file_system_part p n tags w1 w' → tagged_for p n (ft_Freeform tags) w1 → volume_added p n w w'.
Proof.
  intros [Hf1 Hm1] [Hm2 Hf2] Ht. unfold volume_added, adds. rewrite Hm2. split; [done|].
  destruct Hf2 as [Hf2|Hf2]; [left; congruence|right]. exists (ft_Freeform tags). split.
  - unfold adds_tagged in *. by rewrite <-Hf1.
  - unfold tagged_for, mount_target_of in *. by rewrite Hm2.
Qed.

Lemma create_resources_spec d fuel ctx n (p : StorageClassParameters CO) config w o config' w' :
  (scp_scTags p = SharedTags → is_Some config) → create_resources d fuel ctx n p (config, w) = (o, (config', w')) →
  volume_added p n w w' ∧
  (∀ r, o = Ret r → ∃ id ip x, cv_VolumeId r = volume_handle id ip (scp_exportPath p) ∧ file_systems w' !! id = Some x ∧
     res_named (scp_compartmentOcid p) (scp_availabilityDomain p) n x).
Proof.
  intros Hshared Hr. apply M_bind_cases in Hr as [([[mt ip] set] & [config1 w1] & Hm & Hr)|(o1 & Hm & Ho)];
    apply getOrCreateMountTarget_spec in Hm as (-> & Hpart & Hof).
  2: { split; [|by intros r ->]. destruct Hpart as [Hf Hmt]. split; [done|by left]. }
  specialize (Hof _ _ _ eq_refl). cbv zeta in Hr.
  match type of Hr with context [write_tags ?i] => set (isDelete := i) in Hr end.
  destruct (write_then_read isDelete mt set (scp_scTags p) config w1 Hshared) as (ref & config2 & tags & Hw & Hread).
  unfold mbind at 1, M_bind at 1 in Hr. rewrite Hw in Hr.
  match type of Hr with context [getOrCreateFileSystem _ _ _ ?p'] => set (p1 := p') in Hr end.
  assert (tagged_for p n (ft_Freeform (resource_tags isDelete mt set tags)) w1) as Htag by (by apply resource_tags_for).
  assert (∀ w', file_system_part p1 n (resource_tags isDelete mt set tags) w1 w' → volume_added p n w w') as Hadded.
  { intros w2 Hp2. by eapply volume_added_parts. }
  apply M_bind_cases in Hr as [(id & [config3 w3] & Hf & Hr)|(o1 & Hf & Ho)];
    apply (getOrCreateFileSystem_spec fuel ctx n p1 config2 w1 _ _ _ _ Hread) in Hf as (-> & Hfs & Hid); [|split; [auto|by intros r ->]].
  destruct (Hid id eq_refl) as (x & Hx & Hn).
  apply M_bind_cases in Hr as [(u & [config4 w4] & He & Hr)|(o1 & He & Ho)];
    apply on_world_pair in He as [-> Hs%getOrCreateExport_still].
  - injection Hr as <- _ <-. split; [by eapply Hadded, file_system_part_then|]. intros r [= <-]. exists id, ip, x.
    destruct Hs as [Hs _]. by rewrite Hs.
  - split; [by eapply Hadded, file_system_part_then|]. by intros r ->.
Qed.

Lemma parameters_of_inhabited d n params : ∃ p : StorageClassParameters CO, parameters_of d n params p.
Proof.
  by exists {| scp_availabilityDomain := ""; scp_compartmentOcid := default (f_CompartmentID d) (params !! "compartmentOcid");
    scp_kmsKey := ""; scp_exportPath := default ("/" +:+ n) (params !! "exportPath"); scp_exportOptions := None;
    scp_mountTargetOcid := default "" (params !! "mountTargetOcid"); scp_mountTargetSubnetOcid := "";
    scp_encryptInTransit := ""; scp_scTags := SharedTags; scp_nsgOcids := [] |}.
Qed.

(** C29: whatever the outcome, a request to create a volume adds at
    most one mount target and at most one file system, and each only where none with its
    name exists in the compartment and availability domain.  A new file system is tagged
    with its mount target, and as owning it exactly if the storage class names none; a
    mount target that it owns carries the name of the volume.  If the request succeeds
    the handle it answers is that of a file system with the name, with the export path of
    the storage class. *)
Theorem Fss_CreateVolume_idempotent d fuel ctx req config w o config' w' :
  Fss_CreateVolume d fuel ctx req (config, w) = (o, (config', w')) →
  let n := fcr_Name req in
  ∃ p : StorageClassParameters CO,
    parameters_of d n (fcr_Parameters req) p ∧ volume_added p n w w' ∧
    (∀ r, o = Ret r → ∃ id ip x, cv_VolumeId r = volume_handle id ip (scp_exportPath p) ∧
       file_systems w' !! id = Some x ∧ res_named (scp_compartmentOcid p) (scp_availabilityDomain p) n x).
Proof.
  intros Hr n.
  assert (config_still (config, w) (config', w') → is_ret o = false → ∃ p : StorageClassParameters CO,
    parameters_of d n (fcr_Parameters req) p ∧ volume_added p n w w' ∧
    (∀ r, o = Ret r → ∃ id ip x, cv_VolumeId r = volume_handle id ip (scp_exportPath p) ∧
       file_systems w' !! id = Some x ∧ res_named (scp_compartmentOcid p) (scp_availabilityDomain p) n x)) as Hearly.
  { intros [_ Hs] Ho. destruct (parameters_of_inhabited d n (fcr_Parameters req)) as [p Hp]. exists p.
    split_and!; [done|by apply volume_added_still|by intros r ->]. }
  unfold Fss_CreateVolume in Hr. case_decide; [injection Hr as <- <- <-; by apply Hearly|].
  case_decide; [injection Hr as <- <- <-; by apply Hearly|]. cbv zeta in Hr.
  apply M_bind_cases in Hr as [([] & [config1 w1] & Hc & Hr)|(o1 & Hc & Ho)];
    (eapply on_world_still in Hc as Hs1; [|eapply (frames_bind fss_still); [apply request_token_still|intros t; apply request_clients_still]]);
    [|by apply Hearly].
  apply M_bind_cases in Hr as [([] & [config2 w2] & Hc2 & Hr)|(o1 & Hc2 & Ho)];
    (eapply (frames_report config_still) in Hc2 as Hs2; [|apply (frames_lift config_still)|intros e; apply (frames_fail config_still)]);
    [|apply Hearly; [by trans (config1, w1)|done]].
  apply M_bind_cases in Hr as [(p & [config3 w3] & Hp & Hr)|(o1 & Hp & Ho)];
    apply extractStorageClassParameters_still in Hp as Hs3;
    [|apply Hearly; [trans (config1, w1); [done|]; by trans (config2, w2)|done]].
  assert (config_still (config, w) (config3, w3)) as [Hconfig Hs] by (trans (config1, w1); [done|]; by trans (config2, w2)).
  apply extractStorageClassParameters_Ret in Hp as (Hpc & Hpt). destruct Hs3 as [Hc3 _]. simpl in Hc3, Hconfig, Hs. subst config3.
  subst config2. clear Hearly Hc Hc2 Hs1 Hs2. exists p. split; [done|].
  apply create_resources_spec in Hr as [[Hm Hf] Hok]; [|done]. destruct Hs as [Hs1 Hs2]. split; [|done].
  unfold volume_added, adds, adds_tagged in *. by rewrite Hs1, Hs2 in *.
Qed.
End facts.
