(* ===== verification/FileStorageMemory.v ===== *)
(** * File storage in memory

    A file storage service that satisfies [FssLaws], and runs of the controller on it. *)
From stdpp Require Import base tactics list gmap sets strings.
From S2P Require Import Prelude GoStrings GoNet Types ClientErrors ClientCalls CsiUtil CsiUtilFacts StorageClient BlockVolume StorageMemory FileStorageClient FileStorage FileStorageFacts.

(** An export: its file system, its export set and its path. *)
Record fss_world := {
  fw_systems : gmap string Resource;
  fw_targets : gmap string Resource;
  fw_exports : gmap string (string * string * string);
}.

Definition with_systems (f : gmap string Resource → gmap string Resource) (w : fss_world) : fss_world :=
  {| fw_systems := f (fw_systems w); fw_targets := fw_targets w; fw_exports := fw_exports w |}.
Definition with_targets (f : gmap string Resource → gmap string Resource) (w : fss_world) : fss_world :=
  {| fw_systems := fw_systems w; fw_targets := f (fw_targets w); fw_exports := fw_exports w |}.
Definition with_exports (f : gmap string (string * string * string) → gmap string (string * string * string)) (w : fss_world)
    : fss_world := {| fw_systems := fw_systems w; fw_targets := fw_targets w; fw_exports := f (fw_exports w) |}.

#[global] Instance res_named_dec c ad n r : Decision (res_named c ad n r).
Proof. unfold res_named. apply _. Defined.

(** Every resource is active at once. *)
Definition memory_system (id : string) (r : Resource) : FileSystem := {|
  fs_Id := Some id; fs_CompartmentId := Some (res_Compartment r); fs_DisplayName := Some (res_Name r);
  fs_LifecycleState := Active; fs_FreeformTags := res_Tags r |}.
Definition memory_target (id : string) (r : Resource) : MountTarget := {|
  mt_Id := Some id; mt_DisplayName := Some (res_Name r); mt_LifecycleState := Active;
  mt_PrivateIpIds := ["ip"]; mt_ExportSetId := Some ("set of " +:+ id) |}.
Definition memory_summaries (c ad n : string) (m : gmap string Resource) : list Summary :=
  (λ x, {| sum_Id := Some x.1; sum_LifecycleState := Active |}) <$> filter (λ x, res_named c ad n x.2) (map_to_list m).
Definition system_resource (d : CreateFileSystemDetails) : Resource := {|
  res_Name := cfd_DisplayName d; res_Compartment := cfd_CompartmentId d; res_Domain := cfd_AvailabilityDomain d;
  res_Tags := cfd_FreeformTags d |}.
Definition target_resource (d : CreateMountTargetDetails) : Resource := {|
  res_Name := cmd_DisplayName d; res_Compartment := cmd_CompartmentId d; res_Domain := cmd_AvailabilityDomain d;
  res_Tags := cmd_FreeformTags d |}.
Definition memory_exports (f s : string) (m : gmap string (string * string * string)) : list ExportSummary :=
  (λ x, {| es_Id := Some x.1; es_Path := Some x.2.2; es_LifecycleState := Active |}) <$>
    filter (λ x, x.2.1 = (f, s)) (map_to_list m).

(** Answers what is stored under an id. *)
Definition stored {S A B} (m : gmap string A) (f : string → A → B) (id : string) (w : S) : outcome B * S :=
  match m !! id with Some a => (Ret (f id a), w) | None => (Err missing_resource, w) end.
Definition removed {S} (m : gmap string Resource) (id : string) (w w' : S) : outcome () * S :=
  match m !! id with Some _ => (Ret (), w') | None => (Err missing_resource, w) end.

Definition memory_fss : FssSdk fss_world () := {|
  fsdk_CreateFileSystem d w :=
    let id := fresh (dom (fw_systems w)) in
    (Ret (memory_system id (system_resource d)), with_systems <[id := system_resource d]> w);
  fsdk_GetFileSystem id w := stored (fw_systems w) memory_system id w;
  fsdk_ListFileSystems c ad n page w := (Ret (memory_summaries c ad n (fw_systems w), None), w);
  fsdk_DeleteFileSystem id w := removed (fw_systems w) id w (with_systems (delete id) w);
  fsdk_GetMountTarget id w := stored (fw_targets w) memory_target id w;
  fsdk_CreateMountTarget d w :=
    let id := fresh (dom (fw_targets w)) in
    (Ret (memory_target id (target_resource d)), with_targets <[id := target_resource d]> w);
  fsdk_DeleteMountTarget id w := removed (fw_targets w) id w (with_targets (delete id) w);
  fsdk_ListMountTargets c ad n page w := (Ret (memory_summaries c ad n (fw_targets w), None), w);
  fsdk_CreateExport d w :=
    let id := fresh (dom (fw_exports w)) in
    (Ret {| ex_Id := Some id; ex_Path := Some (ced_Path d); ex_LifecycleState := Creating |},
     with_exports <[id := (ced_FileSystemId d, ced_ExportSetId d, ced_Path d)]> w);
  fsdk_GetExport id w := stored (fw_exports w) (λ id e, {| ex_Id := Some id; ex_Path := Some e.2; ex_LifecycleState := Active |}) id w;
  fsdk_ListExports f s page w := (Ret (memory_exports f s (fw_exports w), None), w);
  fsdk_DeleteExport id w := (Ret (), with_exports (delete id) w);
|}.

(** No block storage, and one availability domain. *)
Definition domains_only {S} : StorageSdk S :=
  let missing {A} w : outcome A * S := (Err missing_resource, w) in {|
  ssdk_GetVolume id := missing; ssdk_GetBootVolume id := missing; ssdk_GetVolumeBackup id := missing;
  ssdk_CreateVolume d := missing; ssdk_CreateVolumeBackup d := missing; ssdk_UpdateVolume id d := missing;
  ssdk_DeleteVolume id := missing; ssdk_DeleteVolumeBackup id := missing; ssdk_ListVolumes c n page := missing;
  ssdk_ListVolumeBackups c n page := missing; ssdk_ListVolumeAttachments c v i page := missing;
  ssdk_GetVolumeAttachment id := missing; ssdk_AttachVolume d := missing; ssdk_DetachVolume id := missing;
  ssdk_ListInstanceDevices id := missing; ssdk_GetInstance id := missing;
  ssdk_ListAvailabilityDomains c w := (Ret [Some "zkJl:PHX-AD-1"], w);
  rand_Intn n w := 0;
|}.
Definition fss_limits_open {S} : Limits S := {|
  Reader_TryAccept w := (true, w); Writer_TryAccept w := (true, w); poll_ticks w := 3 |}.
Definition fss_cluster : FssEnvironment fss_world := {|
  fss_ServiceAccounts_Get ns n w := (Ret (), w); fss_CreateToken ns n e w := (Ret "token", w);
  fss_Networking _ _ := true; fss_Identity _ _ := true; fss_FSS _ _ := true;
  fss_GetSubnet id w := (Ret {| cs_CidrBlock := Some "10.0.0.0/24"; cs_Ipv6CidrBlock := None; cs_Ipv6CidrBlocks := [] |}, w);
  fss_GetPrivateIp id w := (Ret (Some "10.0.0.5"), w);
|}.

(** ** The laws *)

Lemma memory_summaries_listed c ad n m next : listed c ad n m (memory_summaries c ad n m) next.
Proof.
  unfold listed, memory_summaries. split.
  - intros s ([id r] & -> & [Hn Hm%elem_of_map_to_list]%list_elem_of_filter)%list_elem_of_fmap. eauto.
  - intros _ id r Hm%elem_of_map_to_list Hn. exists {| sum_Id := Some id; sum_LifecycleState := Active |}.
    split; [|done]. apply list_elem_of_fmap. exists (id, r). split; [done|]. by apply list_elem_of_filter.
Qed.

Lemma stored_frames {S A B} (R : S → S → Prop) `{!Reflexive R} (m : S → gmap string A) (f : string → A → B) id :
  frames R (λ w, stored (m w) f id w).
Proof. intros w o w'. unfold stored. by destruct (m w !! id); intros [= _ <-]. Qed.

Definition memory_fss_laws :
  let _ := memory_fss in let _ := domains_only in let _ := fss_limits_open in let _ := fss_cluster in FssLaws fss_world ().
Proof.
  intros F S L E. refine {| file_systems := fw_systems; mount_targets := fw_targets |}.
  - done.
  - split_and!; intros; try (by apply stored_frames; split); by intros w o w' [= _ <-].
  - intros c ad n w items next w' [= <- <- _]. apply memory_summaries_listed.
  - done.
  - intros c ad n w items next w' [= <- <- _]. apply memory_summaries_listed.
  - done.
  - intros id w fs w'. simpl. unfold stored. destruct (fw_systems w !! id) as [r|]; [|done]. intros [= <- _]. by exists r.
  - intros id w e w'. simpl. unfold stored. by destruct (fw_systems w !! id).
  - intros d w o w' [= <- <-]. right. exists (fresh (dom (fw_systems w))), (system_resource d).
    split_and!; try done; [apply memory_fresh|by intros fs [= <-]].
  - intros d w o w' [= <- <-]. right. exists (fresh (dom (fw_targets w))), (target_resource d).
    split_and!; try done; [apply memory_fresh|by intros mt [= <-]].
  - intros id w o w'. simpl. unfold removed. destruct (fw_systems w !! id) eqn:Eid; intros [= <- <-]; simpl.
    + split_and!; [done|by right|]. intros _. apply lookup_delete_eq.
    + by split_and!; [|left|].
  - intros id w o w'. simpl. unfold removed. destruct (fw_targets w !! id) eqn:Eid; intros [= <- <-]; simpl.
    + split_and!; [done|by right|]. intros _. apply lookup_delete_eq.
    + by split_and!; [|left|].
Defined.

(** ** Runs *)

Definition no_fss_json : FssJson () := {| json_nsgOcids _ := inr []; json_exportOptions _ := inr None |}.
Definition full_slices : SliceRoom := {| room _ := false |}.

#[local] Existing Instances memory_fss domains_only fss_limits_open fss_cluster memory_fss_laws no_fss_json full_slices.
#[local] Existing Instances no_json list_range plain_text.

Definition empty_fss : fss_world := {| fw_systems := ∅; fw_targets := ∅; fw_exports := ∅ |}.
Definition fss_driver : FSSControllerDriver := {|
  f_CompartmentID := "compartment"; f_clusterIpFamily := "IPv4"; f_ipv6SingleStackCluster := false |}.
Definition fss_request (name : string) : FssCreateRequest := {|
  fcr_Name := name; fcr_VolumeCapabilities := [single_writer];
  fcr_Parameters := {["availabilityDomain" := "PHX-AD-1"; "mountTargetSubnetOcid" := "subnet"]}; fcr_Secrets := ∅ |}.
Definition fss_create config name w := Fss_CreateVolume (CO := ()) fss_driver 3 None (fss_request name) (config, w).
Definition fss_created := fss_create None "pvc" empty_fss.
(** A retry of the request. *)
Definition fss_created_again := fss_create None "pvc" fss_created.2.2.

Lemma Fss_CreateVolume_idempotent_witness :
  is_ret fss_created_again.1 = true ∧ file_systems fss_created_again.2.2 = file_systems fss_created.2.2 ∧
  ∃ p : StorageClassParameters (),
    parameters_of fss_driver "pvc" (fcr_Parameters (fss_request "pvc")) p ∧ volume_added p "pvc" fss_created.2.2 fss_created_again.2.2.
Proof.
  split; [vm_compute; reflexivity|]. split; [vm_compute; reflexivity|].
  destruct (Fss_CreateVolume_idempotent fss_driver 3 None (fss_request "pvc") None fss_created.2.2
    fss_created_again.1 fss_created_again.2.1 fss_created_again.2.2) as (p & Hp & Ha & _); [|by exists p].
  vm_compute; reflexivity.
Defined.

(** The handle of the volume that was created. *)
Definition created_handle : string := match fss_created.1 with Ret v => cv_VolumeId v | _ => "" end.
Definition fss_deleted := Fss_DeleteVolume (CO := ()) 3 created_handle ∅ fss_created.2.2.

(** The volume is created, found by its handle, and deleted with its mount target. *)
Lemma Fss_DeleteVolume_safe_witness :
  fss_deleted.1 = Ret () ∧ mount_targets fss_deleted.2 = ∅ ∧
  match file_systems fss_created.2.2 !! FilesystemOcid (ValidateFssId created_handle) with
  | Some r => deletes (FilesystemOcid (ValidateFssId created_handle)) (res_Tags r) fss_created.2.2 fss_deleted.1 fss_deleted.2
  | None => fss_still fss_created.2.2 fss_deleted.2
  end.
Proof.
  split; [vm_compute; reflexivity|]. split; [vm_compute; reflexivity|].
  apply (Fss_DeleteVolume_safe 3 created_handle ∅ fss_created.2.2 fss_deleted.1 fss_deleted.2). apply surjective_pairing.
Defined.

(** Where the storage class has no tags of its own, the tags of one volume are given to the
    mount target of the next. *)
Definition configured_tags : option FssTags := Some {| ft_Freeform := None; ft_Defined := None |}.
Definition fss_first := fss_create configured_tags "first" empty_fss.
Definition fss_second := fss_create fss_first.2.1 "second" fss_first.2.2.

Example tags_of_another_volume :
  ∃ id r, fw_targets fss_second.2.2 !! id = Some r ∧ res_Name r = "second" ∧ tag_of (res_Tags r) "mountTargetOCID" ≠ "" ∧
    tag_of (res_Tags r) "mountTargetOCID" ≠ id.
Proof.
  exists (fresh (dom (fw_targets fss_first.2.2))). eexists. split; [vm_compute; reflexivity|].
  split_and!; [vm_compute; reflexivity|vm_compute; discriminate..].
Qed.

(** A service whose listings never end. *)
Definition endless_fss : FssSdk fss_world () := {|
  fsdk_CreateFileSystem := fsdk_CreateFileSystem (CO := ()); fsdk_GetFileSystem := fsdk_GetFileSystem (CO := ());
  fsdk_ListFileSystems c ad n page w := (Ret ([], Some "next"), w);
  fsdk_DeleteFileSystem := fsdk_DeleteFileSystem (CO := ()); fsdk_GetMountTarget := fsdk_GetMountTarget (CO := ());
  fsdk_CreateMountTarget := fsdk_CreateMountTarget (CO := ()); fsdk_DeleteMountTarget := fsdk_DeleteMountTarget (CO := ());
  fsdk_ListMountTargets c ad n page w := (Ret ([], Some "next"), w);
  fsdk_CreateExport := fsdk_CreateExport; fsdk_GetExport := fsdk_GetExport (CO := ());
  fsdk_ListExports := fsdk_ListExports (CO := ()); fsdk_DeleteExport := fsdk_DeleteExport (CO := ());
|}.

Lemma lookup_by_name_pages_witness :
  (∃ r, GetFileSystemSummaryByDisplayName (CO := ()) 1 "c" "ad" "n" empty_fss = (Ret r, empty_fss)) ∧
  (∃ r, GetMountTargetSummaryByDisplayName (CO := ()) 1 "c" "ad" "n" empty_fss = (Ret r, empty_fss)) ∧
  (∀ fuel w, ∃ w', @GetFileSystemSummaryByDisplayName fss_world () endless_fss _ _ fuel "c" "ad" "n" w =
     (Err (Errorf "out of fuel" []), w')).
Proof.
  destruct (lookup_by_name_pages (CO := ()) "c" "ad" "n") as (Hf & Hm & _).
  split; [eexists; apply (Hf 0 empty_fss []); reflexivity|]. split; [eexists; apply (Hm 0 empty_fss []); reflexivity|].
  apply (@lookup_by_name_pages fss_world () endless_fss _ _ "c" "ad" "n"). intros w.
  exists [], "next", w. reflexivity.
Defined.
