(* ===== verification/NetworkingClient.v ===== *)
(** * The client of the networking service (src/pkg/oci/client/networking.go)

    Subnets with their cache, security lists, addresses and network security groups over
    the class [NetworkSdk].  The cache is a TTL store of the Kubernetes client library, the
    class [Store]. *)
From stdpp Require Import base tactics list gmap sets strings.
From Stdlib Require Import Ascii.
From S2P Require Import Prelude GoStrings GoNet Types ClientErrors ClientCalls NetworkSecurityGroups SecurityListManager LoadBalancer Handlers.

(** ** Types of the SDK *)

(** [core.Subnet]: what the load balancer reads, and what only the clients read. *)
Record CoreSubnet := {
  cs_subnet : Subnet;
  cs_AvailabilityDomain : option string;
  cs_VcnId : option string;
}.

(** [core.Vnic]. *)
Record CoreVnic := {
  cv_vnic : Vnic;
  cv_IsPrimary : option bool;
  cv_PublicIp : option string;
  cv_HostnameLabel : option string;
  cv_DefinedTags : option (gmap string (gmap string string));
}.

Record Vcn := { vcn_Id : option string; vcn_DnsLabel : option string }.
Record PrivateIp := { prip_Id : option string; prip_IpAddress : option string }.
Record Ipv6 := { ipv6_Id : option string; ipv6_IpAddress : option string }.

(** The fields of a new rule and the id of the rule that is replaced. *)
Record UpdateSecurityRuleDetails := { ur_Id : string; ur_rule : AddSecurityRuleDetails }.

Class NetworkSdk (W : Type) := {
  nsdk_GetVnic : string → M W CoreVnic;
  nsdk_GetSubnet : string → M W CoreSubnet;
  nsdk_GetVcn : string → M W Vcn;
  nsdk_GetSecurityList : string → M W (SecurityList * option string);
  nsdk_UpdateSecurityList : string → string → list IngressSecurityRule → list EgressSecurityRule → M W ();
  nsdk_GetPrivateIp : string → M W PrivateIp;
  nsdk_GetPublicIpByIpAddress : string → M W PublicIp;
  nsdk_ListPrivateIps : string → option string → M W (list PrivateIp * option string);
  nsdk_CreatePrivateIp : string → M W PrivateIp;
  nsdk_GetIpv6 : string → M W Ipv6;
  nsdk_CreateNetworkSecurityGroup : string → string → string → gmap string string → string → M W NetworkSecurityGroup;
  nsdk_GetNetworkSecurityGroup : string → M W (NetworkSecurityGroup * option string);
  nsdk_ListNetworkSecurityGroups : string → string → string → option string → M W (list NetworkSecurityGroup * option string);
  nsdk_UpdateNetworkSecurityGroup : string → string → gmap string string → M W NetworkSecurityGroup;
  nsdk_DeleteNetworkSecurityGroup : string → string → M W (option string);
  nsdk_AddSecurityRules : string → list AddSecurityRuleDetails → M W ();
  nsdk_RemoveSecurityRules : string → list string → M W ();
  nsdk_ListSecurityRules : string → string → option string → M W (list SecurityRule * option string);
  nsdk_UpdateSecurityRules : string → list UpdateSecurityRuleDetails → M W ();
}.

(** [cache.Store] of the Kubernetes client library. *)
Class Store (W A : Type) := {
  store_GetByKey : string → M W (option A);
  store_Add : A → M W ();
  store_List : M W (list A);
}.

Definition subnetCacheKeyFn (s : CoreSubnet) : string := subnet_Id (cs_subnet s).

(** ** Blocks of a subnet *)

(** A block that is read, and whether it holds the address. *)
Definition block_holds (s : Subnet) (block : string) (ip : option (list Z)) : outcome bool :=
  match net_ParseCIDR block with
  | None => Err (Errorf "unable to parse CIDR block %q for subnet %q: %v" [block; subnet_Id s])
  | Some cidr => mret (Contains_IP cidr ip)
  end.

(** The loop over IPv6 blocks; empty ones are skipped. *)
Fixpoint any_block_holds (s : Subnet) (blocks : list string) (ip : option (list Z)) : outcome bool :=
  match blocks with
  | [] => mret false
  | block :: blocks =>
      held ← (if decide (block = "") then mret false else block_holds s block ip);
      if held : bool then mret true else any_block_holds s blocks ip
  end.

(** The body of the loop over the cached subnets. *)
Definition subnet_holds (s : Subnet) (ipAddrV4 ipAddrV6 : option (list Z)) : outcome bool :=
  v4 ← match subnet_CidrBlock s with
       | Some block => if Contains block "null" then mret false else block_holds s block ipAddrV4
       | None => mret false
       end;
  if v4 : bool then mret true else
  v6 ← match subnet_Ipv6CidrBlock s with
       | Some block => block_holds s block ipAddrV6
       | None => mret false
       end;
  if v6 : bool then mret true else any_block_holds s (default [] (subnet_Ipv6CidrBlocks s)) ipAddrV6.

Fixpoint find_subnet (subnets : list CoreSubnet) (ipAddrV4 ipAddrV6 : option (list Z)) : outcome (option CoreSubnet) :=
  match subnets with
  | [] => mret None
  | s :: subnets =>
      held ← subnet_holds (cs_subnet s) ipAddrV4 ipAddrV6;
      if held : bool then mret (Some s) else find_subnet subnets ipAddrV4 ipAddrV6
  end.

Section client.
Context {W : Type} `{!NetworkSdk W, !Limits W, !Store W CoreSubnet}.

(** ** Subnets, VCNs and VNICs *)

Definition GetVNIC (id : string) : M W CoreVnic := limited false "GetVNIC" (nsdk_GetVnic id).

(** An error of adding to the cache is ignored. *)
Definition GetSubnet (id : string) : M W CoreSubnet :=
  item ← store_GetByKey id;
  match item with
  | Some subnet => mret subnet
  | None =>
      subnet ← limited false "GetSubnet" (nsdk_GetSubnet id);
      _ ← try (store_Add subnet);
      mret subnet
  end.

Definition GetSubnetFromCacheByIP (ip : IpAddresses) : M W (option CoreSubnet) :=
  subnets ← store_List;
  lift (find_subnet subnets (net_ParseIP (V4 ip)) (net_ParseIP (V6 ip))).

Definition IsRegionalSubnet (id : string) : M W bool :=
  subnet ← GetSubnet id;
  mret (bool_decide (cs_AvailabilityDomain subnet = None)).

Definition GetVcn (id : string) : M W Vcn := limited false "GetVcn" (nsdk_GetVcn id).

(** ** Security lists *)

Definition GetSecurityList (id : string) : M W (SecurityList * option string) :=
  limited false "GetSecurityList" (nsdk_GetSecurityList id).
Definition UpdateSecurityList (id etag : string) (ingressRules : list IngressSecurityRule)
    (egressRules : list EgressSecurityRule) : M W () :=
  limited true "UpdateSecurityList" (nsdk_UpdateSecurityList id etag ingressRules egressRules).

(** ** Addresses *)

Definition GetPrivateIp (id : string) : M W PrivateIp := limited false "GetPrivateIp" (nsdk_GetPrivateIp id).
Definition GetPublicIpByIpAddress (ip : string) : M W PublicIp :=
  limited false "GetPublicIpByIpAddress" (nsdk_GetPublicIpByIpAddress ip).

(** The loop asks for the first page until an answer has no next page. *)
Fixpoint list_private_ips (fuel : nat) (vnicId : string) (privateIps : list PrivateIp) : M W (list PrivateIp) :=
  match fuel with
  | 0 => fail (Errorf "out of fuel" [])
  | S fuel =>
      '(items, next) ← limited false "ListPrivateIp" (nsdk_ListPrivateIps vnicId None);
      let privateIps := privateIps ++ items in
      match next with None => mret privateIps | Some _ => list_private_ips fuel vnicId privateIps end
  end.
Definition ListPrivateIps (fuel : nat) (vnicId : string) : M W (list PrivateIp) := list_private_ips fuel vnicId [].

Definition CreatePrivateIp (vnicId : string) : M W PrivateIp :=
  writer_limited (RateLimitError false "CreatePrivateIp") (nsdk_CreatePrivateIp vnicId).
Definition GetIpv6 (id : string) : M W Ipv6 := limited false "GetIpv6" (nsdk_GetIpv6 id).

(** ** Network security groups *)

Definition CreateNetworkSecurityGroup (compartmentId vcnId displayName serviceUid : string) : M W NetworkSecurityGroup :=
  writer_limited (RateLimitError false "CreateNetworkSecurityGroup")
    (nsdk_CreateNetworkSecurityGroup compartmentId vcnId displayName {["CreatedBy" := "CCM"; "ServiceUid" := serviceUid]} serviceUid).
Definition GetNetworkSecurityGroup (id : string) : M W (NetworkSecurityGroup * option string) :=
  limited false "GetNSG" (nsdk_GetNetworkSecurityGroup id).

(** All items of a listing. *)
Definition all_pages {A} (fuel : nat) (op : string) (list_page : option string → M W (list A * option string)) : M W (list A) :=
  pages fuel (λ page, limited false op (list_page page)) (λ acc items, mret (inl (acc ++ items))) [] None.

Definition ListNetworkSecurityGroups (fuel : nat) (displayName compartmentId vcnId : string) : M W (list NetworkSecurityGroup) :=
  all_pages fuel "ListNSG" (nsdk_ListNetworkSecurityGroups displayName compartmentId vcnId).
Definition UpdateNetworkSecurityGroup (id etag : string) (freeformTags : gmap string string) : M W NetworkSecurityGroup :=
  writer_limited (RateLimitError false "UpdateNSG") (nsdk_UpdateNetworkSecurityGroup id etag freeformTags).
Definition DeleteNetworkSecurityGroup (id etag : string) : M W (option string) :=
  writer_limited (RateLimitError false "DeleteNetworkSecurityGroup") (nsdk_DeleteNetworkSecurityGroup id etag).

Definition AddNetworkSecurityGroupSecurityRules (id : string) (details : list AddSecurityRuleDetails) : M W () :=
  writer_limited (RateLimitError false "AddNSGRules") (nsdk_AddSecurityRules id details).
Definition RemoveNetworkSecurityGroupSecurityRules (id : string) (details : list string) : M W () :=
  writer_limited (RateLimitError false "RemoveNSGRules") (nsdk_RemoveSecurityRules id details).
Definition ListNetworkSecurityGroupSecurityRules (fuel : nat) (id direction : string) : M W (list SecurityRule) :=
  all_pages fuel "ListNetworkSecurityGroupSecurityRules" (nsdk_ListSecurityRules id direction).
Definition UpdateNetworkSecurityGroupSecurityRules (id : string) (details : list UpdateSecurityRuleDetails) : M W () :=
  writer_limited (RateLimitError false "UpdateNSGSecurityRules") (nsdk_UpdateSecurityRules id details).
End client.

(** ** The interfaces of the load balancer controller *)

Section interfaces.
Context {W : Type} `{!NetworkSdk W, !Limits W, !Store W CoreSubnet} (fuel : nat).

Definition networking_nsgs : NsgClient W := {|
  NetworkSecurityGroups.GetNetworkSecurityGroup := GetNetworkSecurityGroup;
  NetworkSecurityGroups.ListNetworkSecurityGroupSecurityRules := ListNetworkSecurityGroupSecurityRules fuel;
  NetworkSecurityGroups.AddNetworkSecurityGroupSecurityRules := AddNetworkSecurityGroupSecurityRules;
  NetworkSecurityGroups.RemoveNetworkSecurityGroupSecurityRules := RemoveNetworkSecurityGroupSecurityRules;
|}.
Definition networking_security_lists : SecurityListClient W := {|
  SecurityListManager.GetSecurityList := GetSecurityList;
  SecurityListManager.UpdateSecurityList := UpdateSecurityList;
|}.
(** The client is the one that was made for the token. *)
Definition networking_nsg_admin : NsgAdminClient W := {|
  Handlers.CreateNetworkSecurityGroup := CreateNetworkSecurityGroup;
  Handlers.ListNetworkSecurityGroups := ListNetworkSecurityGroups fuel;
  Handlers.UpdateNetworkSecurityGroup := UpdateNetworkSecurityGroup;
  Handlers.DeleteNetworkSecurityGroup := DeleteNetworkSecurityGroup;
  Handlers.GetPublicIpByIpAddress _ := GetPublicIpByIpAddress;
|}.
Definition networking_regional : Provider.RegionalClient W := {| Provider.IsRegionalSubnet := IsRegionalSubnet |}.
End interfaces.
