(* ===== verification/ComputeClient.v ===== *)
(** * The client of the compute service (src/pkg/oci/client/compute.go)

    Instances and their VNICs over the class [ComputeSdk]. *)
From stdpp Require Import base tactics list gmap sets strings.
From Stdlib Require Import Ascii.
From S2P Require Import Prelude GoStrings Types ClientErrors ClientCalls LoadBalancer NetworkingClient.

(** ** Types of the SDK *)

(** [core.Instance]. *)
Record CoreInstance := {
  ci_Id : option string;
  ci_CompartmentId : option string;
  ci_DisplayName : option string;
  ci_AvailabilityDomain : option string;
  ci_FaultDomain : option string;
  ci_Region : option string;
  ci_Shape : option string;
  ci_LifecycleState : string;
  ci_FreeformTags : option (gmap string string);
  ci_DefinedTags : option (gmap string (gmap string string));
}.

Record VnicAttachment := {
  vat_Id : option string;
  vat_InstanceId : option string;
  vat_VnicId : option string;
  vat_LifecycleState : string;
}.

Record UpdateInstanceDetails := {
  uid_FreeformTags : gmap string string;
  uid_DefinedTags : gmap string (gmap string string);
}.

(** Listings by compartment, and by availability domain, name or instance if given. *)
Class ComputeSdk (W : Type) := {
  csdk_GetInstance : string → M W CoreInstance;
  csdk_ListInstances : string → option string → option string → option string → M W (list CoreInstance * option string);
  csdk_ListVnicAttachments : string → option string → option string → M W (list VnicAttachment * option string);
  csdk_UpdateInstance : option string → UpdateInstanceDetails → M W CoreInstance;
}.

Definition VnicAttached : string := "ATTACHED".

Definition IsInstanceInTerminalState (i : CoreInstance) : bool :=
  bool_decide (ci_LifecycleState i = "TERMINATED" ∨ ci_LifecycleState i = "TERMINATING").
Definition IsInstanceInStoppedState (i : CoreInstance) : bool :=
  bool_decide (ci_LifecycleState i = "STOPPED" ∨ ci_LifecycleState i = "STOPPING").
Definition getNonTerminalInstances (instances : list CoreInstance) : list CoreInstance :=
  filter (λ i, IsInstanceInTerminalState i = false) instances.

(** The VNIC of an attachment in use; the id of one that is skipped is read for the log. *)
Definition attached_vnic (a : VnicAttachment) : outcome (option string) :=
  if decide (vat_LifecycleState a ≠ VnicAttached) then _ ← deref (vat_Id a); mret None
  else match vat_VnicId a with
       | Some id => mret (Some id)
       | None => _ ← deref (vat_Id a); mret None
       end.

(** Whether a VNIC has the name of the node, as an address or as a prefix. *)
Definition vnic_of_node (nodeName : string) (v : CoreVnic) : bool :=
  bool_decide (cv_PublicIp v = Some nodeName) || bool_decide (vnic_PrivateIp (cv_vnic v) = Some nodeName) ||
  bool_decide (head (vnic_Ipv6Addresses (cv_vnic v)) = Some (replace_byte "-" ":" nodeName)) ||
  match cv_HostnameLabel v with Some h => bool_decide (h ≠ "") && HasPrefix nodeName h | None => false end.

Section client.
Context {W : Type} `{!ComputeSdk W, !NetworkSdk W, !Limits W, !Store W CoreSubnet}.

(** ** Instances *)

Definition GetInstance (id : string) : M W CoreInstance := limited false "GetInstance" (csdk_GetInstance id).

Definition ListInstancesByCompartmentAndAD (fuel : nat) (compartmentID availabilityDomain : string) : M W (list CoreInstance) :=
  all_pages fuel "ListInstances" (csdk_ListInstances compartmentID (Some availabilityDomain) None).

Definition getInstanceByDisplayName (fuel : nat) (compartmentID displayName : string) : M W CoreInstance :=
  instances ← pages fuel (λ page, limited false "ListInstances" (csdk_ListInstances compartmentID None (Some displayName) page))
    (λ acc items, mret (inl (acc ++ getNonTerminalInstances items))) [] None;
  match instances with
  | [] => fail NotFoundErr
  | [i] => mret i
  | _ => fail (Errorf "too many instances returned for display name %q: %d" [displayName; Itoa (Z.of_nat (length instances))])
  end.

(** The request is not rate limited. *)
Definition UpdateInstance (instanceId : option string) (details : UpdateInstanceDetails) : M W CoreInstance :=
  csdk_UpdateInstance instanceId details.

(** ** VNICs *)

Definition listVNICAttachments (compartmentID : string) (instanceID page : option string)
    : M W (list VnicAttachment * option string) :=
  limited false "ListVnicAttachments" (csdk_ListVnicAttachments compartmentID instanceID page).

(** The first primary VNIC of the attachments. *)
Fixpoint primary_of (attachments : list VnicAttachment) : M W (option CoreVnic) :=
  match attachments with
  | [] => mret None
  | a :: attachments =>
      id ← lift (attached_vnic a);
      match id with
      | None => primary_of attachments
      | Some id =>
          vnic ← GetVNIC id;
          if decide (cv_IsPrimary vnic = Some true) then mret (Some vnic) else primary_of attachments
      end
  end.

Definition GetPrimaryVNICForInstance (fuel : nat) (compartmentID instanceID : string) : M W CoreVnic :=
  found ← pages fuel (listVNICAttachments compartmentID (Some instanceID))
    (λ _ items, r ← primary_of items; mret (match r with Some v => inr (Some v) | None => inl None end)) None None;
  match found with Some v => mret v | None => fail NotFoundErr end.

(** The VNICs that are not primary; a VNIC that does not say panics. *)
Fixpoint secondary_of (attachments : list VnicAttachment) (vnics : list CoreVnic) : M W (list CoreVnic) :=
  match attachments with
  | [] => mret vnics
  | a :: attachments =>
      id ← lift (attached_vnic a);
      match id with
      | None => secondary_of attachments vnics
      | Some id =>
          vnic ← GetVNIC id;
          primary ← lift (deref (cv_IsPrimary vnic));
          secondary_of attachments (if primary : bool then vnics else vnics ++ [vnic])
      end
  end.

Definition GetSecondaryVNICsForInstance (fuel : nat) (compartmentID instanceID : string) : M W (list CoreVnic) :=
  pages fuel (listVNICAttachments compartmentID (Some instanceID))
    (λ acc items, r ← secondary_of items acc; mret (inl r)) [] None.

(** ** Instances by node *)

(** The instance of one attachment, if it has the name of the node: the VNIC is in the VCN
    of the cluster and the instance is not terminal. *)
Definition instance_of_attachment (vcnID nodeName : string) (a : VnicAttachment) : M W (option (string * CoreInstance)) :=
  id ← lift (attached_vnic a);
  match id with
  | None => mret None
  | Some id =>
      vnic ← GetVNIC id;
      subnetId ← lift (deref (vnic_SubnetId (cv_vnic vnic)));
      subnet ← GetSubnet subnetId;
      vcn ← lift (deref (cs_VcnId subnet));
      if decide (vcn ≠ vcnID) then mret None else
      if vnic_of_node nodeName vnic then
        instanceId ← lift (deref (vat_InstanceId a));
        instance ← GetInstance instanceId;
        key ← lift (deref (ci_Id instance));
        mret (if IsInstanceInTerminalState instance then None else Some (key, instance))
      else mret None
  end.

(** An instance with several VNICs of the name is counted once. *)
Definition instances_of_node (vcnID nodeName : string) (instances : gmap string CoreInstance) (items : list VnicAttachment)
    : M W (gmap string CoreInstance) :=
  foldM (λ instances a,
    found ← instance_of_attachment vcnID nodeName a;
    mret (match found with Some (key, i) => <[key := i]> instances | None => instances end)) instances items.

(** First by display name; any error of that leads to the search by VNICs. *)
Definition GetInstanceByNodeName (fuel : nat) (compartmentID vcnID nodeName : string) : M W CoreInstance :=
  r ← try (getInstanceByDisplayName fuel compartmentID nodeName);
  match r with
  | inr instance => mret instance
  | inl _ =>
      instances ← pages fuel (listVNICAttachments compartmentID None)
        (λ acc items, r ← instances_of_node vcnID nodeName acc items; mret (inl r)) ∅ None;
      match map_to_list instances with
      | [] => fail NotFoundErr
      | [(_, instance)] => mret instance
      | _ => fail (Errorf "too many instances returned for node name %q: %d" [nodeName; Itoa (Z.of_nat (size instances))])
      end
  end.
End client.

(** The calls by which the load balancer controller finds subnets. *)
Definition network_subnets {W : Type} `{!ComputeSdk W, !NetworkSdk W, !Limits W, !Store W CoreSubnet} (fuel : nat) : SubnetClient W := {|
  LoadBalancer.GetSubnet id := s ← GetSubnet id; mret (cs_subnet s);
  LoadBalancer.GetSubnetFromCacheByIP ip := s ← GetSubnetFromCacheByIP ip; mret (cs_subnet <$> s);
  LoadBalancer.GetPrimaryVNICForInstance c i := v ← GetPrimaryVNICForInstance fuel c i; mret (Some (cv_vnic v));
|}.
