(* ===== verification/NetworkingFacts.v ===== *)
(** * What the networking client promises

    Given laws of the networking service, the client implements the interfaces on which the
    security list managers and the network security groups are verified; the cache of
    subnets only holds what the service answered; and subnets are found by the blocks that
    hold an address. *)
From stdpp Require Import base tactics list gmap sets strings.
From S2P Require Import Prelude GoStrings GoNet Types ClientErrors ClientCalls NetworkSecurityGroups SecurityListManager LoadBalancer Handlers NetworkingClient.

(** ** Rules of groups and lists *)

(** The rules of each group and the security lists, as [NsgLaws] and [SecurityListLaws] see
    them.  Reading changes nothing; the pages of a listing belong together as long as the
    rules do not change. *)
Class NetworkLaws (W : Type) `{!NetworkSdk W, !Limits W} := {
  net_rules : W → string → list SecurityRule;
  net_lists : W → string → option SecurityList;
  net_still w w' := (∀ i, net_rules w' i = net_rules w i) ∧ ∀ i, net_lists w' i = net_lists w i;
  net_rule_ids : ∀ w id, Forall (λ r, is_Some (nr_Id r)) (net_rules w id) ∧ NoDup (nr_Id <$> net_rules w id);
  net_list_id : ∀ w id sl, net_lists w id = Some sl → sl_Id sl = id;
  net_limits : ∀ w, net_still w (Reader_TryAccept w).2 ∧ net_still w (Writer_TryAccept w).2;
  net_GetGroup : ∀ id w g etag w', nsdk_GetNetworkSecurityGroup id w = (Ret (g, etag), w') →
    nsg_Id g = Some id ∧ net_still w w';
  net_ListRules : ∀ id dir page, frames net_still (nsdk_ListSecurityRules id dir page);
  net_ListRules_pages : ∀ id dir w, ∃ f,
    (∀ w1 page items next w2, net_rules w1 id = net_rules w id →
       nsdk_ListSecurityRules id dir page w1 = (Ret (items, next), w2) → f page = (items, next)) ∧
    ∀ ps, page_chain f None ps → concat ps = filter (λ r, nr_Direction r = dir) (net_rules w id);
  net_AddRules : ∀ id ds w w', nsdk_AddSecurityRules id ds w = (Ret (), w') →
    (∃ new, rule_details <$> new = ds ∧ net_rules w' id ≡ₚ net_rules w id ++ new) ∧
    ∀ i, i ≠ id → net_rules w' i = net_rules w i;
  net_RemoveRules : ∀ id ids w w', nsdk_RemoveSecurityRules id ids w = (Ret (), w') →
    net_rules w' id ≡ₚ filter (λ r, nr_Id r ∉ Some <$> ids) (net_rules w id) ∧
    ∀ i, i ≠ id → net_rules w' i = net_rules w i;
  net_GetList : ∀ id w sl etag w', nsdk_GetSecurityList id w = (Ret (sl, etag), w') →
    net_lists w id = Some sl ∧ net_still w w';
  net_UpdateList : ∀ id etag ing eg w w', nsdk_UpdateSecurityList id etag ing eg w = (Ret (), w') →
    ∃ sl, net_lists w id = Some sl ∧
      ∀ i, net_lists w' i = if decide (i = id) then Some (with_rules sl ing eg) else net_lists w i;
}.

Section pages.
Context {W : Type} `{!Limits W}.

(** All pages of one listing. *)
Lemma all_pages_Ret {A} (list_page : option string → M W (list A * option string)) op fuel
    (f : option string → list A * option string) (I : W → Prop) w l w' :
  (∀ w, I w → I (Reader_TryAccept w).2) →
  (∀ page w o w', I w → list_page page w = (o, w') → I w') →
  (∀ page w items next w', I w → list_page page w = (Ret (items, next), w') → f page = (items, next)) →
  I w → all_pages fuel op list_page w = (Ret l, w') → I w' ∧ ∃ ps, page_chain f None ps ∧ l = concat ps.
Proof.
  intros Hlim HI Hf Hw Hr.
  assert (∀ fuel page acc w, I w →
    pages fuel (λ page, limited false op (list_page page)) (λ acc items, mret (inl (acc ++ items))) acc page w = (Ret l, w') →
    I w' ∧ ∃ ps, page_chain f page ps ∧ l = acc ++ concat ps) as H; [|by apply (H fuel None [] w Hw) in Hr].
  clear fuel w Hw Hr. intros fuel. induction fuel as [|fuel IH]; intros page acc w Hw Hr; [done|]. simpl in Hr.
  apply M_bind_Ret_inv in Hr as ([items next] & w1 & Hl & Hr). unfold limited in Hl. specialize (Hlim w Hw).
  destruct (Reader_TryAccept w) as [[] w0]; [|done]. simpl in Hlim.
  pose proof (HI _ _ _ _ Hlim Hl) as Hw1. pose proof (Hf _ _ _ _ _ Hlim Hl) as Hp.
  apply M_bind_Ret_inv in Hr as (r & w2 & Hv & Hr). injection Hv as <- <-. destruct next as [next|].
  - apply IH in Hr as (Hw' & ps & Hc & ->); [|done]. split; [done|]. exists (items :: ps). split; [by econstructor|].
    simpl. by rewrite (assoc (++)).
  - injection Hr as <- <-. split; [done|]. exists [items]. split; [by constructor|]. simpl. by rewrite app_nil_r.
Qed.

(** With fuel for every page the loop ends with all items. *)
Lemma all_pages_listing {A} (list_page : option string → M W (list A * option string)) op fuel w ps w' :
  listing (λ page, limited false op (list_page page)) None w ps w' → length ps ≤ fuel →
  all_pages fuel op list_page w = (Ret (concat ps), w').
Proof.
  intros Hl Hf. refine (pages_collect _ Ret _ _ _ _ _ [] ps Hl Hf _).
  clear. induction ps as [|p ps IH]; [done|]. simpl. by rewrite IH.
Qed.
End pages.

Section refinement.
Context {W : Type} `{!NetworkSdk W, !Limits W, !Store W CoreSubnet, !NetworkLaws W} (fuel : nat).

#[global] Instance net_still_preorder : PreOrder net_still.
Proof. split; [done|]. intros w1 w2 w3 [H1 H2] [H3 H4]. split; intros i; [by rewrite H3|by rewrite H4]. Qed.

(** A request that was accepted was made after the limiter. *)
Lemma net_limited {A} isWrite op (c : M W A) w a w' :
  limited isWrite op c w = (Ret a, w') → ∃ w1, net_still w w1 ∧ c w1 = (Ret a, w').
Proof. intros (w1 & Hw1 & Hr)%limited_Ret_of. exists w1. split; [destruct Hw1 as [-> | ->]; apply net_limits|done]. Qed.
Lemma net_writer_limited {A} err (c : M W A) w a w' :
  writer_limited err c w = (Ret a, w') → ∃ w1, net_still w w1 ∧ c w1 = (Ret a, w').
Proof.
  unfold writer_limited. destruct (net_limits w) as [_ Hw]. destruct (Writer_TryAccept w) as [[] w1]; [|done]. eauto.
Qed.

Lemma ListRules_Ret id dir w rs w' :
  ListNetworkSecurityGroupSecurityRules fuel id dir w = (Ret rs, w') →
  rs = filter (λ r, nr_Direction r = dir) (net_rules w id) ∧ net_still w w'.
Proof.
  intros Hr. destruct (net_ListRules_pages id dir w) as (f & Hf & Hall).
  destruct (all_pages_Ret (nsdk_ListSecurityRules id dir) "ListNetworkSecurityGroupSecurityRules" fuel f (net_still w) w rs w') as (Hs & ps & Hc & ->); [..|by rewrite (Hall ps Hc)]; try done.
  - intros w1 Hw1. trans w1; [done|apply net_limits].
  - intros page w1 o w2 Hw1 Hl. trans w1; [done|by eapply net_ListRules].
  - intros page w1 items next w2 [Hw1 _] Hl. exact (Hf _ _ _ _ _ (Hw1 id) Hl).
Qed.

Definition networking_nsg_laws : let _ := networking_nsgs fuel in NsgLaws W.
Proof.
  intros C. refine {| nsg_rules := net_rules |}; simpl;
    unfold GetNetworkSecurityGroup, AddNetworkSecurityGroupSecurityRules, RemoveNetworkSecurityGroupSecurityRules.
  - exact net_rule_ids.
  - intros id w g etag w' (w1 & [H1 _] & Hr)%net_limited. apply net_GetGroup in Hr as [Hid [H2 _]].
    split; [done|]. intros i. by rewrite H2.
  - intros id dir w rs w' [-> [Hs _]]%ListRules_Ret. done.
  - intros id ds w w' (w1 & [H1 _] & Hr)%net_writer_limited. apply net_AddRules in Hr as [(new & Hd & Hp) Hi].
    split; [exists new; by rewrite <-H1|]. intros i Hne. by rewrite Hi.
  - intros id ids w w' (w1 & [H1 _] & Hr)%net_writer_limited. apply net_RemoveRules in Hr as [Hp Hi].
    split; [by rewrite <-H1|]. intros i Hne. by rewrite Hi.
Defined.

Definition networking_security_list_laws : let _ := networking_security_lists in SecurityListLaws W.
Proof.
  intros C. refine {| seclist := net_lists |}; simpl; unfold GetSecurityList, UpdateSecurityList.
  - exact net_list_id.
  - intros id w sl etag w' (w1 & [_ H1] & Hr)%net_limited. apply net_GetList in Hr as [Hsl [_ H2]].
    split; [by rewrite <-H1|]. intros i. by rewrite H2.
  - intros id etag ing eg w w' (w1 & [_ H1] & Hr)%net_limited. apply net_UpdateList in Hr as (sl & Hsl & Hi).
    exists sl. split; [by rewrite <-H1|]. intros i. rewrite Hi. by case_decide.
Defined.

(** C30: given the laws of the networking service, the client implements
    the interfaces on which the rules of network security groups and of security lists are
    verified, and with fuel for all its pages the listing of rules ends with the rules of
    all pages. *)
Theorem networking_refines :
  (let _ := networking_nsgs fuel in ∃ L : NsgLaws W, ∀ w id, nsg_rules w id = net_rules w id) ∧
  (let _ := networking_security_lists in ∃ L : SecurityListLaws W, ∀ w id, seclist w id = net_lists w id) ∧
  (∀ id dir w ps w',
     listing (λ page, limited false "ListNetworkSecurityGroupSecurityRules" (nsdk_ListSecurityRules id dir page)) None w ps w' →
     length ps ≤ fuel → ListNetworkSecurityGroupSecurityRules fuel id dir w = (Ret (concat ps), w')).
Proof.
  split_and!.
  - intros C. by exists networking_nsg_laws.
  - intros C. by exists networking_security_list_laws.
  - intros id dir w ps w'. apply all_pages_listing.
Qed.
End refinement.

(** ** Subnets by address *)

(** A block that is written in the subnet holds the address of its family. *)
Definition holds (block : string) (ip : option (list Z)) : Prop := ∃ n, net_ParseCIDR block = Some n ∧ Contains_IP n ip = true.
Definition in_subnet (v4 v6 : option (list Z)) (s : Subnet) : Prop :=
  (∃ block, subnet_CidrBlock s = Some block ∧ Contains block "null" = false ∧ holds block v4) ∨
  (∃ block, subnet_Ipv6CidrBlock s = Some block ∧ holds block v6) ∨
  (∃ block, block ∈ default [] (subnet_Ipv6CidrBlocks s) ∧ block ≠ "" ∧ holds block v6).

Lemma block_holds_Ret s block ip b : block_holds s block ip = Ret b → (b = true ↔ holds block ip).
Proof.
  unfold block_holds, holds. destruct (net_ParseCIDR block) as [n|]; [|done]. intros [= <-]. naive_solver.
Qed.

Lemma any_block_holds_Ret s blocks ip b :
  any_block_holds s blocks ip = Ret b → (b = true ↔ ∃ block, block ∈ blocks ∧ block ≠ "" ∧ holds block ip).
Proof.
  revert b. induction blocks as [|block blocks IH]; intros b Hr.
  { injection Hr as <-. split; [done|]. by intros (? & ?%elem_of_nil & _). }
  apply bind_Ret_inv in Hr as (held & Hh & Hr).
  assert (held = true ↔ block ≠ "" ∧ holds block ip) as Hheld.
  { case_decide; [injection Hh as <-; naive_solver|]. apply block_holds_Ret in Hh. naive_solver. }
  destruct held.
  - injection Hr as <-. split; [|done]. intros _. exists block. split; [by left|by apply Hheld].
  - rewrite (IH _ Hr). setoid_rewrite elem_of_cons. naive_solver.
Qed.

Lemma subnet_holds_Ret s v4 v6 b : subnet_holds s v4 v6 = Ret b → (b = true ↔ in_subnet v4 v6 s).
Proof.
  intros (h4 & H4 & Hr)%bind_Ret_inv.
  assert (h4 = true ↔ ∃ block, subnet_CidrBlock s = Some block ∧ Contains block "null" = false ∧ holds block v4) as E4.
  { destruct (subnet_CidrBlock s) as [block|]; [|injection H4 as <-; naive_solver].
    destruct (Contains block "null") eqn:En; [injection H4 as <-; naive_solver|]. apply block_holds_Ret in H4. naive_solver. }
  destruct h4; [injection Hr as <-; unfold in_subnet; naive_solver|].
  apply bind_Ret_inv in Hr as (h6 & H6 & Hr).
  assert (h6 = true ↔ ∃ block, subnet_Ipv6CidrBlock s = Some block ∧ holds block v6) as E6.
  { destruct (subnet_Ipv6CidrBlock s) as [block|]; [|injection H6 as <-; naive_solver]. apply block_holds_Ret in H6. naive_solver. }
  destruct h6; [injection Hr as <-; unfold in_subnet; naive_solver|].
  apply any_block_holds_Ret in Hr as ->. unfold in_subnet. naive_solver.
Qed.

Lemma find_subnet_Ret subnets v4 v6 r :
  find_subnet subnets v4 v6 = Ret r →
  match r with
  | Some s => s ∈ subnets ∧ in_subnet v4 v6 (cs_subnet s)
  | None => ∀ s, s ∈ subnets → ¬ in_subnet v4 v6 (cs_subnet s)
  end.
Proof.
  induction subnets as [|s subnets IH]; intros Hr.
  { injection Hr as <-. by intros s ?%elem_of_nil. }
  apply bind_Ret_inv in Hr as (held & Hh%subnet_holds_Ret & Hr). destruct held.
  - injection Hr as <-. split; [by left|by apply Hh].
  - specialize (IH Hr). destruct r as [s'|]; [split; [right|]; apply IH|].
    intros s' [->|Hs']%elem_of_cons; [naive_solver|by apply IH].
Qed.

(** ** The cache *)

(** A store only answers what was added under the key, and may drop entries. *)
Class StoreLaws (W A : Type) `{!Store W A} (key : A → option string) := {
  cached : W → gmap string A;
  store_GetByKey_law : ∀ k w o w', store_GetByKey k w = (o, w') →
    cached w' ⊆ cached w ∧ ∀ a, o = Ret (Some a) → cached w !! k = Some a;
  store_Add_law : ∀ a w o w', store_Add a w = (o, w') →
    ∀ k b, cached w' !! k = Some b → cached w !! k = Some b ∨ key a = Some k ∧ b = a;
  store_List_law : ∀ w o w', store_List w = (o, w') →
    cached w' ⊆ cached w ∧ ∀ l a, o = Ret l → a ∈ l → ∃ k, cached w !! k = Some a;
}.
#[global] Hint Mode StoreLaws - ! - - : typeclass_instances.

(** What is known of the subnet of an id whenever the service answers it. *)
Class SubnetFacts (W : Type) `{!NetworkSdk W, !Limits W, !Store W CoreSubnet} (P : string → CoreSubnet → Prop) := {
  subnet_store :: StoreLaws W CoreSubnet (λ s, Some (subnetCacheKeyFn s));
  subnet_answer : ∀ id w s w', nsdk_GetSubnet id w = (Ret s, w') → subnetCacheKeyFn s = id ∧ P id s;
  subnet_limits : ∀ w, cached (Reader_TryAccept w).2 ⊆ cached w;
  subnet_frames : ∀ id w o w', nsdk_GetSubnet id w = (o, w') → cached w' ⊆ cached w;
}.

Section cache.
Context {W : Type} `{!NetworkSdk W, !Limits W, !Store W CoreSubnet} (P : string → CoreSubnet → Prop) `{!SubnetFacts W P}.

Definition cache_known (w : W) : Prop := map_Forall P (cached (A := CoreSubnet) w).

Lemma cache_known_shrink w w' : cached (A := CoreSubnet) w' ⊆ cached w → cache_known w → cache_known w'.
Proof. intros Hs Hw k s Hk. apply Hw. by eapply lookup_weaken. Qed.

Lemma GetSubnet_known id w o w' :
  cache_known w → GetSubnet id w = (o, w') → cache_known w' ∧ ∀ s, o = Ret s → P id s.
Proof.
  intros Hw Hr. apply M_bind_cases in Hr as [(item & w1 & Hg & Hr)|(o1 & Hg & Ho)];
    destruct (store_GetByKey_law _ _ _ _ Hg) as [Hs1 Hk]; [|split; [by eapply cache_known_shrink|by intros s ->]].
  pose proof (cache_known_shrink _ _ Hs1 Hw) as Hw1. destruct item as [s|].
  { injection Hr as <- <-. split; [done|]. intros s' [= <-]. by apply Hw, Hk. }
  assert (∀ o2 w2, limited false "GetSubnet" (nsdk_GetSubnet id) w1 = (o2, w2) →
    cache_known w2 ∧ ∀ s, o2 = Ret s → subnetCacheKeyFn s = id ∧ P id s) as Hservice.
  { intros o2 w2. unfold limited. pose proof (subnet_limits w1) as Hl. destruct (Reader_TryAccept w1) as [[] w0]; simpl in Hl.
    - intros Hget. split; [|intros s ->; by eapply subnet_answer].
      apply (cache_known_shrink w0); [by eapply subnet_frames|by eapply cache_known_shrink].
    - intros [= <- <-]. split; [by eapply cache_known_shrink|done]. }
  apply M_bind_cases in Hr as [(s & w2 & Hget & Hr)|(o1 & Hget & Ho)]; destruct (Hservice _ _ Hget) as [Hw2 Hs2];
    [|split; [done|by intros s ->]].
  destruct (Hs2 _ eq_refl) as [Hid HP].
  assert (∀ o3 w3, store_Add s w2 = (o3, w3) → cache_known w3) as Hadd.
  { intros o3 w3 Ha k b Hb. destruct (store_Add_law _ _ _ _ Ha _ _ Hb) as [Hb'|[[= <-] ->]]; [by apply Hw2|by rewrite Hid]. }
  unfold mbind, M_bind, try in Hr. destruct (store_Add s w2) as [[u|e|] w3] eqn:Ha; injection Hr as <- <-;
    (split; [by eapply Hadd|]); try done; by intros s' [= <-].
Qed.

(** What is known of every subnet that the service answers (its VCN,
    its availability domain) is known of every cached one, also after further requests, so
    [GetSubnet] and [IsRegionalSubnet] answer right from the cache; a subnet that is found
    by an address is a cached one with a block of the family that holds the address, and
    none is found only if no block of the cached subnets does. *)
Lemma subnet_cache_correct w :
  cache_known w →
  (∀ id o w', GetSubnet id w = (o, w') → cache_known w' ∧ ∀ s, o = Ret s → P id s) ∧
  (∀ id o w', IsRegionalSubnet id w = (o, w') →
     cache_known w' ∧ ∀ b, o = Ret b → ∃ s, P id s ∧ (b = true ↔ cs_AvailabilityDomain s = None)) ∧
  (∀ ip o w', GetSubnetFromCacheByIP ip w = (o, w') →
     let inside s := in_subnet (net_ParseIP (V4 ip)) (net_ParseIP (V6 ip)) (cs_subnet s) in
     cache_known w' ∧ (∀ s, o = Ret (Some s) → inside s ∧ ∃ id, P id s) ∧
     (o = Ret None → ∃ subnets, store_List w = (Ret subnets, w') ∧ ∀ s, s ∈ subnets → ¬ inside s)).
Proof.
  intros Hw. split_and!.
  - intros id o w' Hr. by eapply GetSubnet_known.
  - intros id o w' Hr. apply M_bind_cases in Hr as [(s & w1 & Hg & Hr)|(o1 & Hg & Ho)];
      destruct (GetSubnet_known _ _ _ _ Hw Hg) as [Hw1 Hs]; [|split; [done|by intros b ->]].
    injection Hr as <- <-. split; [done|]. intros b [= <-]. exists s. split; [by apply Hs|]. apply bool_decide_eq_true.
  - intros ip o w' Hr inside. apply M_bind_cases in Hr as [(l & w1 & Hl & Hr)|(o1 & Hl & Ho)];
      destruct (store_List_law _ _ _ Hl) as [Hs Hin]; (split; [|split]).
    + injection Hr as _ <-. by eapply cache_known_shrink.
    + intros s ->. injection Hr as Hf _. apply find_subnet_Ret in Hf as [Hs1 Hi]. split; [done|].
      destruct (Hin _ _ eq_refl Hs1) as [id Hid]. exists id. by apply Hw.
    + intros ->. injection Hr as Hf <-. exists l. split; [done|]. by apply find_subnet_Ret in Hf.
    + by eapply cache_known_shrink.
    + by intros s ->.
    + by intros ->.
Qed.
End cache.
