(* ===== verification/Instances.v ===== *)
(** * Instances and zones (src/pkg/cloudprovider/providers/oci/instances.go, zones.go)

    What the controllers of the cluster ask the cloud provider about nodes: addresses,
    instance ids, types, zones, and whether an instance still exists.  [fuel] bounds the
    pages of listings; the cache of instances is a [Store]. *)
From stdpp Require Import base tactics list gmap sets strings.
From Stdlib Require Import Ascii.
From S2P Require Import Prelude GoStrings GoNet Types ClientErrors ClientCalls Annotations Spec Handlers StorageClient NetworkingClient ComputeClient.

Definition IPv4NodeIPFamilyLabel : string := "oci.oraclecloud.com/ip-family-ipv4".
Definition IPv6NodeIPFamilyLabel : string := "oci.oraclecloud.com/ip-family-ipv6".
Definition OpenShiftTagNamesapcePrefix : string := "openshift-".
Definition OpenShiftBootVolumeType : string := "boot-volume-type".
Definition OpenShiftBootVolumeISCSI : string := "ISCSI".

(** [cloudprovider.InstanceNotFound] and [cloudprovider.NotImplemented]. *)
Definition InstanceNotFound : error := Errorf "instance not found" [].
Definition NotImplemented : error := Errorf "unimplemented" [].

Definition mapNodeNameToInstanceName (nodeName : string) : string := nodeName.
Definition instanceCacheKeyFn (i : CoreInstance) : outcome string := deref (ci_Id i).

Record Zone := { FailureDomain : string; Region : string }.

(** The part behind the first colon, or all of it. *)
Definition mapAvailabilityDomainToFailureDomain (AD : string) : string :=
  match Index AD ":" with
  | Some i => String.substring (i + 1) (String.length AD - (i + 1)) AD
  | None => AD
  end.

Definition zone_of (i : CoreInstance) : outcome Zone :=
  ad ← deref (ci_AvailabilityDomain i);
  region ← deref (ci_Region i);
  mret {| FailureDomain := mapAvailabilityDomainToFailureDomain ad; Region := region |}.

(** ** Nodes *)

(** [cp.NodeLister.Get(nodeName)]. *)
Definition lister_Get (cp : CloudProvider) (nodeName : string) : outcome Node :=
  match cp_NodeLister cp with
  | inl e => Err e
  | inr nodes => match list_find (λ n, node_Name n = nodeName) nodes with
                 | Some (_, n) => mret n
                 | None => Err (KubeNotFound nodeName)
                 end
  end.
Definition lister_List (cp : CloudProvider) : outcome (list Node) :=
  match cp_NodeLister cp with inl e => Err e | inr nodes => mret nodes end.

Definition annotation_missing : error := Errorf "compartmentID annotation missing in the node. Would retry" [].

(** The loop over the nodes: a node whose provider id is not valid ends it. *)
Fixpoint compartment_of_node (nodes : list Node) (instanceID : string) : outcome string :=
  match nodes with
  | [] => Err annotation_missing
  | node :: nodes =>
      match MapProviderIDToResourceID (node_ProviderID node) with
      | Ret providerID =>
          match node_Annotations node !! CompartmentIDAnnotation with
          | Some compartmentID => if decide (providerID = instanceID ∧ compartmentID ≠ "") then mret compartmentID
                                  else compartment_of_node nodes instanceID
          | None => compartment_of_node nodes instanceID
          end
      | _ => Err (Errorf "Failed to map providerID to instanceID" [])
      end
  end.

(** The families of the first node with the instance. *)
Fixpoint families_of_node (nodes : list Node) (instanceId : string) : outcome (list string) :=
  match nodes with
  | [] => mret []
  | node :: nodes =>
      match MapProviderIDToResourceID (node_ProviderID node) with
      | Ret providerID =>
          if decide (providerID = instanceId) then
            mret ((if decide (is_Some (node_Labels node !! IPv4NodeIPFamilyLabel)) then [IPv4] else []) ++
                  (if decide (is_Some (node_Labels node !! IPv6NodeIPFamilyLabel)) then [IPv6] else []))
          else families_of_node nodes instanceId
      | _ => Err (Errorf "Failed to map providerID to instanceID" [])
      end
  end.

Definition getNodeIpFamily (cp : CloudProvider) (instanceId : string) : outcome (list string) :=
  nodes ← wrap_err (lister_List cp) "error listing nodes using node informer" [];
  families_of_node nodes instanceId.

Definition getCompartmentIDByNodeName (cp : CloudProvider) (nodeName : string) : outcome string :=
  node ← wrap_err (lister_Get cp nodeName) "error getting node using node informer" [];
  match node_Annotations node !! CompartmentIDAnnotation with
  | Some compartmentID => if decide (compartmentID ≠ "") then mret compartmentID else Err annotation_missing
  | None => Err annotation_missing
  end.

(** ** Addresses *)

(** An address that is given and not empty, in its canonical form. *)
Definition address_of (type message : string) (address : option string) : outcome (list NodeAddress) :=
  match address with
  | Some a =>
      if decide (a = "") then mret [] else
      match net_ParseIP a with
      | Some ip => mret [{| addr_Type := type; addr_Address := IP_String ip |}]
      | None => Err (Errorf message [a])
      end
  | None => mret []
  end.

Definition ipv6_address (first a : string) : outcome (list NodeAddress) :=
  if decide (a = "") then mret [] else
  match net_ParseIP a with
  | Some ip => mret [{| addr_Type := if IsPrivate ip then NodeInternalIPType else NodeExternalIPType;
                        addr_Address := IP_String ip |}]
  | None => Err (Errorf "instance has invalid ipv6 address: %q" [first])
  end.

(** The IPv6 addresses, if the node has the family. *)
Definition ipv6_addresses (family : list string) (addresses : list string) : outcome (list NodeAddress) :=
  if contains family IPv6 then @concat _ <$> mapM (ipv6_address (default "" (head addresses))) addresses else mret [].

Definition checkOpenShiftISCSIBootVolumeTagByVnic (vnic : CoreVnic) (namespace : string) : bool :=
  bool_decide (default ∅ (default ∅ (cv_DefinedTags vnic) !! namespace) !! OpenShiftBootVolumeType = Some OpenShiftBootVolumeISCSI).

Definition private_address (v : CoreVnic) : outcome (list NodeAddress) :=
  address_of NodeInternalIPType "instance has invalid private address: %q" (LoadBalancer.vnic_PrivateIp (cv_vnic v)).
Definition public_address (v : CoreVnic) : outcome (list NodeAddress) :=
  address_of NodeExternalIPType "instance has invalid public address: %q" (cv_PublicIp v).

(** The addresses of a secondary VNIC of a boot volume. *)
Definition secondary_addresses (namespace : string) (v : CoreVnic) : outcome (list NodeAddress) :=
  if checkOpenShiftISCSIBootVolumeTagByVnic v namespace && negb (default false (cv_IsPrimary v)) then
    private ← private_address v;
    public ← public_address v;
    mret (private ++ public)
  else mret [].

Section instances.
Context {W : Type} `{!ComputeSdk W, !NetworkSdk W, !StorageSdk W, !Limits W, !Store W CoreSubnet, !Store W CoreInstance, !MapRange}.
Implicit Types (cp : CloudProvider).

Definition getCompartmentIDByInstanceID cp (instanceID : string) : M W string :=
  item ← wrapM (store_GetByKey instanceID) "error fetching instance from instanceCache" [];
  match item with
  | Some i => lift (deref (ci_CompartmentId i))
  | None =>
      nodes ← lift (wrap_err (lister_List cp) "error listing all the nodes using node informer" []);
      lift (compartment_of_node nodes instanceID)
  end.

(** The first namespace that is visited and has the prefix; none on an error. *)
Definition getOpenShiftTagNamespaceByInstance (instanceID : string) : M W string :=
  r ← try (GetInstance instanceID);
  mret match r with
       | inl _ => ""
       | inr i => match list_find (λ kv : string * gmap string string, HasPrefix kv.1 OpenShiftTagNamesapcePrefix = true)
                          (range 0 (default ∅ (ci_DefinedTags i))) with
                  | Some (_, (namespace, _)) => namespace
                  | None => ""
                  end
       end.

Definition extractNodeAddresses cp (fuel : nat) (instanceID : string) : M W (list NodeAddress) :=
  compartmentID ← getCompartmentIDByInstanceID cp instanceID;
  vnic ← wrapM (GetPrimaryVNICForInstance fuel compartmentID instanceID) "GetPrimaryVNICForInstance" [];
  private ← lift (private_address vnic);
  public ← lift (public_address vnic);
  nodeIpFamily ← lift (getNodeIpFamily cp instanceID);
  v6 ← lift (ipv6_addresses nodeIpFamily (LoadBalancer.vnic_Ipv6Addresses (cv_vnic vnic)));
  let addresses := private ++ public ++ v6 in
  namespace ← getOpenShiftTagNamespaceByInstance instanceID;
  if decide (namespace = "") then mret addresses else
  secondaryVnics ← GetSecondaryVNICsForInstance fuel compartmentID instanceID;
  match secondaryVnics with
  | [] => mret addresses
  | _ =>
      more ← lift (@concat _ <$> mapM (secondary_addresses namespace) secondaryVnics);
      nodeIpFamily ← lift (getNodeIpFamily cp instanceID);
      again ← lift (ipv6_addresses nodeIpFamily (LoadBalancer.vnic_Ipv6Addresses (cv_vnic vnic)));
      mret (addresses ++ more ++ again)
  end.

(** ** Requests by node name *)

Definition node_compartment cp (name : string) : M W string :=
  lift (wrap_err (getCompartmentIDByNodeName cp (mapNodeNameToInstanceName name)) "error getting CompartmentID from Node Name" []).

Definition NodeAddresses cp (fuel : nat) (name : string) : M W (list NodeAddress) :=
  compartmentID ← node_compartment cp name;
  inst ← wrapM (GetInstanceByNodeName fuel compartmentID (cp_VCNID cp) (mapNodeNameToInstanceName name)) "GetInstanceByNodeName" [];
  id ← lift (deref (ci_Id inst));
  extractNodeAddresses cp fuel id.

Definition InstanceID cp (fuel : nat) (nodeName : string) : M W string :=
  let name := mapNodeNameToInstanceName nodeName in
  compartmentID ← report (lift (getCompartmentIDByNodeName cp name))
    (λ err, if decide (cp_CompartmentID cp ≠ "") then mret (cp_CompartmentID cp)
            else fail (Wrap err "error getting CompartmentID from Node Name" []));
  inst ← report (GetInstanceByNodeName fuel compartmentID (cp_VCNID cp) name)
    (λ err, if IsNotFound (Some err) then fail InstanceNotFound else fail (Wrap err "GetInstanceByNodeName" []));
  lift (deref (ci_Id inst)).

Definition InstanceType cp (fuel : nat) (name : string) : M W string :=
  compartmentID ← node_compartment cp name;
  inst ← wrapM (GetInstanceByNodeName fuel compartmentID (cp_VCNID cp) (mapNodeNameToInstanceName name)) "GetInstanceByNodeName" [];
  lift (deref (ci_Shape inst)).

Definition GetZoneByNodeName cp (fuel : nat) (nodeName : string) : M W Zone :=
  compartmentID ← lift (wrap_err (getCompartmentIDByNodeName cp (mapNodeNameToInstanceName nodeName))
                          "Error getting CompartmentID from Node Name" []);
  instance ← GetInstanceByNodeName fuel compartmentID (cp_VCNID cp) (mapNodeNameToInstanceName nodeName);
  lift (zone_of instance).

(** ** Requests by provider id *)

Definition NodeAddressesByProviderID cp (fuel : nat) (providerID : string) : M W (list NodeAddress) :=
  resourceID ← lift (wrap_err (MapProviderIDToResourceID providerID) "MapProviderIDToResourceOCID" []);
  extractNodeAddresses cp fuel resourceID.

Definition InstanceTypeByProviderID (providerID : string) : M W string :=
  resourceID ← lift (wrap_err (MapProviderIDToResourceID providerID) "MapProviderIDToResourceOCID" []);
  item ← wrapM (store_GetByKey resourceID) "error fetching instance from instanceCache, will retry" [];
  match item with
  | Some i => lift (deref (ci_Shape i))
  | None =>
      inst ← wrapM (GetInstance resourceID) "GetInstance" [];
      _ ← wrapM (store_Add inst) "failed to add instance in instanceCache" [];
      lift (deref (ci_Shape inst))
  end.

Definition GetZoneByProviderID (providerID : string) : M W Zone :=
  instanceID ← lift (MapProviderIDToResourceID providerID);
  item ← wrapM (store_GetByKey instanceID) "Error fetching instance from instanceCache, will retry" [];
  match item with
  | Some i => lift (zone_of i)
  | None =>
      instance ← GetInstance instanceID;
      _ ← wrapM (store_Add instance) "Failed to add instance in instanceCache" [];
      lift (zone_of instance)
  end.

(** Whether a listing has the instance; a nil id panics. *)
Fixpoint has_instance (instances : list CoreInstance) (instanceId : string) : outcome bool :=
  match instances with
  | [] => mret false
  | i :: instances => id ← deref (ci_Id i); if decide (id = instanceId) then mret true else has_instance instances instanceId
  end.

(** The loop over the availability domains. *)
Fixpoint listed_in_domains (fuel : nat) (compartmentId instanceId : string) (domains : list (option string)) : M W bool :=
  match domains with
  | [] => mret false
  | domain :: domains =>
      name ← lift (deref domain);
      instances ← ListInstancesByCompartmentAndAD fuel compartmentId name;
      found ← lift (has_instance instances instanceId);
      if found : bool then mret true else listed_in_domains fuel compartmentId instanceId domains
  end.

(** The error of listing the availability domains is not looked at. *)
Definition checkForAuthorizationError cp (fuel : nat) (instanceId : string) : M W bool :=
  compartmentId ← getCompartmentIDByInstanceID cp instanceId;
  r ← try (ListAvailabilityDomains compartmentId);
  listed_in_domains fuel compartmentId instanceId match r with inl _ => [] | inr domains => domains end.

(** The check after a missing instance is given the provider id. *)
Definition InstanceExistsByProviderID cp (fuel : nat) (providerID : string) : M W bool :=
  resourceID ← lift (MapProviderIDToResourceID providerID);
  r ← try (GetInstance resourceID);
  match r with
  | inl err => if IsNotFound (Some err) then checkForAuthorizationError cp fuel providerID else fail err
  | inr instance => mret (negb (IsInstanceInTerminalState instance))
  end.

Definition InstanceShutdownByProviderID (providerID : string) : M W bool :=
  resourceID ← lift (MapProviderIDToResourceID providerID);
  instance ← GetInstance resourceID;
  mret (IsInstanceInStoppedState instance).

(** ** Requests that are not supported *)

Definition AddSSHKeyToAllInstances : M W () := fail NotImplemented.
Definition CurrentNodeName : M W string := fail NotImplemented.
Definition GetZone : M W Zone := fail NotImplemented.
End instances.
