(* ===== verification/InstancesFacts.v ===== *)
(** * What the cloud provider answers about nodes

    Given laws of the compute service ([ComputeLaws]): an instance is reported missing only
    if it is terminal or the listings do not have it, the instance of a node name is alive
    and the only one of the name, and the addresses of a node are well formed and those of
    the VNICs of its instance. *)
From stdpp Require Import base tactics list gmap sets strings.
From Stdlib Require Import Ascii.
From S2P Require Import Prelude GoStrings GoNet Types ClientErrors ClientCalls Annotations Spec Handlers StorageClient NetworkingClient ComputeClient NetworkingFacts Instances.

(** ** Addresses are bytes *)

Definition is_byte (z : Z) : Prop := (0 ≤ z < 256)%Z.

Lemma digits_nonneg acc s v : digits acc s = Some v → (0 ≤ acc)%Z → (0 ≤ v)%Z.
Proof.
  revert acc. induction s as [|c s IH]; intros acc Hr Hacc; simpl in Hr; [by injection Hr as <-|].
  destruct (digit c) as [d|] eqn:Ed; [|done]. simpl in Hr. apply IH in Hr; [done|].
  unfold digit in Ed. apply fmap_Some in Ed as (n & _ & ->). lia.
Qed.

Lemma parseIPv4_bytes s ip : parseIPv4 s = Some ip → length ip = 4 ∧ Forall is_byte ip.
Proof.
  unfold parseIPv4. intros (fields & Hf & Hr)%bind_Some. case_decide; [|done]. injection Hr as <-. split; [done|].
  apply mapM_Some in Hf. apply Forall_forall. intros v Hv. apply list_elem_of_lookup in Hv as [i Hi].
  destruct (Forall2_lookup_r _ _ _ _ _ Hf Hi) as (x & _ & Hx). unfold ipv4_field in Hx.
  apply bind_Some in Hx as (d & Hd & Hx). case_decide; [|done]. injection Hx as <-.
  case_decide; [done|]. apply digits_nonneg in Hd; [|done]. unfold is_byte. lia.
Qed.

Lemma hex_digit_range c d : hex_digit c = Some d → (0 ≤ d < 16)%Z.
Proof. unfold hex_digit. repeat case_decide; intros [= <-]; lia. Qed.

Lemma hex_number_range acc s n v rest :
  hex_number acc s = (n, v, rest) → (0 ≤ acc)%Z → (0 ≤ v < (acc + 1) * 16 ^ Z.of_nat n)%Z.
Proof.
  revert acc n v rest. induction s as [|c s IH]; intros acc n v rest Hr Hacc; simpl in Hr.
  { injection Hr as <- <- <-. lia. }
  destruct (hex_digit c) as [d|] eqn:Ed; [|injection Hr as <- <- <-; lia]. apply hex_digit_range in Ed.
  destruct (hex_number (acc * 16 + d) s) as [[n' v'] rest'] eqn:E. injection Hr as <- <- <-.
  apply IH in E; [|lia]. rewrite Nat2Z.inj_succ, Z.pow_succ_r by lia. nia.
Qed.

(** A group of at most four digits. *)
Lemma hex_group_bytes s n v rest :
  hex_number 0 s = (n, v, rest) → ¬ (n = 0 ∨ 4 < n) → Forall is_byte [v `div` 256; v `mod` 256]%Z.
Proof.
  intros Hr Hn. apply hex_number_range in Hr; [|done].
  assert (16 ^ Z.of_nat n ≤ 16 ^ 4)%Z by (apply Z.pow_le_mono_r; lia). change (16 ^ 4)%Z with 65536%Z in *.
  repeat constructor; unfold is_byte; try (apply Z.mod_pos_bound; lia).
  - apply Z.div_pos; lia.
  - apply Z.div_lt_upper_bound; lia.
Qed.

Lemma ipv6_fields_bytes fuel s bytes ellipsis r e :
  ipv6_fields fuel s bytes ellipsis = Some (r, e) → length bytes + 2 * fuel ≤ 16 → Forall is_byte bytes →
  (∀ k, ellipsis = Some k → k ≤ length bytes) →
  length r ≤ 16 ∧ Forall is_byte r ∧ ∀ k, e = Some k → k ≤ length r.
Proof.
  revert s bytes ellipsis. induction fuel as [|fuel IH]; intros s bytes ellipsis Hr Hl Hb He; cbn [ipv6_fields] in Hr.
  { case_decide; [|done]. injection Hr as <- <-. split_and!; [lia|done..]. }
  destruct (hex_number 0 s) as [[n v] rest] eqn:Eh. case_decide as Hn; [done|].
  pose proof (hex_group_bytes _ _ _ _ Eh Hn) as Hv.
  assert (Forall is_byte (bytes ++ [v `div` 256; v `mod` 256]%Z)) as Hb' by (by apply Forall_app).
  assert (length (bytes ++ [v `div` 256; v `mod` 256]%Z) = length bytes + 2) as Hl' by by rewrite length_app.
  assert (∀ k, ellipsis = Some k → k ≤ length bytes + 2) as He' by (intros k ?%He; lia).
  destruct rest as [|c rest].
  { injection Hr as <- <-. rewrite Hl'. split_and!; [lia|done..]. }
  destruct (decide (c = "."%char)) as [->|Hdot].
  { case_decide; [done|]. case_decide; [done|]. apply bind_Some in Hr as (v4 & [Hl4 H4]%parseIPv4_bytes & Hr).
    injection Hr as <- <-. rewrite length_app, Hl4. split_and!; [lia|by apply Forall_app|]. intros k ?%He. lia. }
  destruct (decide (c = ":"%char)) as [->|Hcolon].
  2: { exfalso. clear -Hr Hdot Hcolon. destruct c as [[] [] [] [] [] [] [] []]; done. }
  destruct rest as [|c rest]; [done|]. destruct (decide (c = ":"%char)) as [->|Hc].
  - destruct ellipsis; [done|]. case_decide.
    + injection Hr as <- <-. rewrite Hl'. split_and!; [lia|done|]. intros k [= <-]. lia.
    + apply IH in Hr; [done|lia|done|]. intros k [= <-]. lia.
  - apply (IH (String c rest) (bytes ++ [v `div` 256; v `mod` 256]%Z) ellipsis); [|lia|done|by rewrite Hl'].
    clear -Hr Hc. destruct c as [[] [] [] [] [] [] [] []]; first [exact Hr|done].
Qed.

Lemma zeros_bytes n : Forall is_byte (zeros n).
Proof. apply Forall_replicate. unfold is_byte. lia. Qed.

(** An address that is parsed has 16 bytes. *)
Lemma net_ParseIP_bytes s ip : net_ParseIP s = Some ip → length ip = 16 ∧ Forall is_byte ip.
Proof.
  unfold net_ParseIP. destruct (ip_family s) as [c|]; [|done]. intros Hr.
  assert ((∃ v4, parseIPv4 s = Some v4 ∧ ip = v4_prefix ++ v4) ∨ parseIPv6 s = Some ip) as [(v4 & [Hl H4]%parseIPv4_bytes & ->)|Hp].
  { destruct c as [[] [] [] [] [] [] [] []]; try done.
    - left. apply bind_Some in Hr as (v4 & H4 & [= <-]). eauto.
    - right. by destruct (has_byte "%" s). }
  { split; [by rewrite length_app, Hl|]. apply Forall_app. split; [|done]. apply Forall_app. split; [apply zeros_bytes|].
    repeat constructor; unfold is_byte; lia. }
  unfold parseIPv6 in Hp. apply bind_Some in Hp as ([bytes e] & Hf & Hp).
  assert (length bytes ≤ 16 ∧ Forall is_byte bytes ∧ ∀ k, e = Some k → k ≤ length bytes) as (Hl & Hb & He).
  { clear Hp. destruct (strip_prefix "::" s) as [rest|]; [case_decide|].
    - injection Hf as <- <-. split_and!; [simpl; lia|constructor|]. by intros k [= <-].
    - apply ipv6_fields_bytes in Hf; [done|simpl; lia|constructor|]. by intros k [= <-].
    - by apply ipv6_fields_bytes in Hf; [|simpl; lia|constructor|]. }
  case_decide.
  - apply bind_Some in Hp as (k & -> & [= <-]). specialize (He k eq_refl). split.
    + rewrite !length_app, length_take, length_drop. unfold zeros. rewrite length_replicate. lia.
    + repeat apply Forall_app_2; [by apply Forall_take|apply zeros_bytes|by apply Forall_drop].
  - destruct e; [done|]. injection Hp as <-. split; [lia|done].
Qed.

(** ** The laws of the service *)

(** A relation that the requests which only read, the stores and the limits keep. *)
Class ReadFrames (W : Type) `{!ComputeSdk W, !NetworkSdk W, !StorageSdk W, !Limits W, !Store W CoreSubnet, !Store W CoreInstance}
    (R : W → W → Prop) := {
  rf_preorder :: PreOrder R;
  rf_limits : ∀ w, R w (Reader_TryAccept w).2 ∧ R w (Writer_TryAccept w).2;
  rf_GetInstance : ∀ id, frames R (csdk_GetInstance id);
  rf_ListInstances : ∀ c ad n page, frames R (csdk_ListInstances c ad n page);
  rf_ListVnicAttachments : ∀ c i page, frames R (csdk_ListVnicAttachments c i page);
  rf_GetVnic : ∀ id, frames R (nsdk_GetVnic id);
  rf_GetSubnet : ∀ id, frames R (nsdk_GetSubnet id);
  rf_ListAvailabilityDomains : ∀ c, frames R (ssdk_ListAvailabilityDomains c);
  rf_subnets : (∀ k, frames R (store_GetByKey (A := CoreSubnet) k)) ∧ ∀ s : CoreSubnet, frames R (store_Add s);
  rf_instances : (∀ k, frames R (store_GetByKey (A := CoreInstance) k)) ∧ ∀ i : CoreInstance, frames R (store_Add i);
}.

(** The instances that exist, by OCID.  Reading changes nothing of them, and a listing
    whose pages are all answered has exactly the instances that are asked for.  A missing
    instance may also be one that the caller is not allowed to see. *)
Class ComputeLaws (W : Type) `{!ComputeSdk W, !NetworkSdk W, !StorageSdk W, !Limits W, !Store W CoreSubnet, !Store W CoreInstance} := {
  instances : W → gmap string CoreInstance;
  inst_still w w' := instances w' = instances w;
  instances_id : ∀ w id i, instances w !! id = Some i → ci_Id i = Some id;
  inst_frames :: ReadFrames W inst_still;
  GetInstance_law : ∀ id w i w', csdk_GetInstance id w = (Ret i, w') → instances w !! id = Some i;
  ListInstances_pages : ∀ c ad n w, ∃ f,
    (∀ w1 page items next w2, instances w1 = instances w →
       csdk_ListInstances c ad n page w1 = (Ret (items, next), w2) → f page = (items, next)) ∧
    ∀ ps, page_chain f None ps → ∀ i, i ∈ concat ps ↔
      (∃ id, instances w !! id = Some i) ∧ ci_CompartmentId i = Some c ∧
      (∀ a, ad = Some a → ci_AvailabilityDomain i = Some a) ∧ (∀ x, n = Some x → ci_DisplayName i = Some x);
}.

(** An invariant of a loop over pages. *)
Lemma pages_invariant {W A B} (list_page : option string → M W (list A * option string)) (visit : B → list A → M W (B + B))
    (I : B → W → Prop) fuel acc page w b w' :
  (∀ b page w r w', I b w → list_page page w = (Ret r, w') → I b w') →
  (∀ b items w r w', I b w → visit b items w = (Ret r, w') → I (match r with inl b => b | inr b => b end) w') →
  I acc w → pages fuel list_page visit acc page w = (Ret b, w') → I b w'.
Proof.
  intros Hl Hv. revert acc page w. induction fuel as [|fuel IH]; intros acc page w Hw Hr; [done|]. simpl in Hr.
  apply M_bind_Ret_inv in Hr as ([items next] & w1 & Hp & Hr). apply M_bind_Ret_inv in Hr as (r & w2 & Hvisit & Hr).
  apply (Hl _ _ _ _ _ Hw) in Hp as Hw1. apply (Hv _ _ _ _ _ Hw1) in Hvisit as Hw2.
  destruct r as [b1|b1]; [destruct next as [next|]; [by eapply IH|]|]; by injection Hr as <- <-.
Qed.

(** The items that a loop over pages visits are listed. *)
Lemma pages_listed {W A B} (list_page : option string → M W (list A * option string)) (visit : B → list A → M W (B + B))
    (Q : A → Prop) (I : B → Prop) fuel acc page w b w' :
  (∀ page w items next w', list_page page w = (Ret (items, next), w') → Forall Q items) →
  (∀ b items w r w', I b → Forall Q items → visit b items w = (Ret r, w') → I (match r with inl b => b | inr b => b end)) →
  I acc → pages fuel list_page visit acc page w = (Ret b, w') → I b.
Proof.
  intros Hl Hv. revert acc page w. induction fuel as [|fuel IH]; intros acc page w Hw Hr; [done|]. simpl in Hr.
  apply M_bind_Ret_inv in Hr as ([items next] & w1 & Hp & Hr). apply M_bind_Ret_inv in Hr as (r & w2 & Hvisit & Hr).
  apply Hl in Hp. apply (Hv _ _ _ _ _ Hw Hp) in Hvisit as Hw2.
  destruct r as [b1|b1]; [destruct next as [next|]; [by eapply IH|]|]; by injection Hr as <- _.
Qed.

(** ** Requests that only read *)

Section reads.
Context {W : Type} `{!ComputeSdk W, !NetworkSdk W, !StorageSdk W, !Limits W, !Store W CoreSubnet, !Store W CoreInstance}.
Context (R : W → W → Prop) {RF : ReadFrames W R}.

Lemma limited_reads {A} isWrite op (c : M W A) : frames R c → frames R (limited isWrite op c).
Proof. apply (limited_frames_of R); intros w; apply (rf_limits (R := R)). Qed.

Lemma GetInstance_reads id : frames R (GetInstance id).
Proof. apply limited_reads, rf_GetInstance. Qed.
Lemma GetVNIC_reads id : frames R (GetVNIC id).
Proof. apply limited_reads, rf_GetVnic. Qed.
Lemma listVNICAttachments_reads c i page : frames R (listVNICAttachments c i page).
Proof. apply limited_reads, rf_ListVnicAttachments. Qed.
Lemma ListAvailabilityDomains_reads c : frames R (ListAvailabilityDomains c).
Proof. apply limited_reads, rf_ListAvailabilityDomains. Qed.

Lemma GetSubnet_reads id : frames R (GetSubnet id).
Proof.
  apply (frames_bind R); [apply (rf_subnets (R := R))|]. intros [s|]; [apply (frames_lift R (Ret s))|].
  apply (frames_bind R); [apply limited_reads, rf_GetSubnet|]. intros s.
  apply (frames_bind R); [apply (frames_try R), (rf_subnets (R := R))|]. intros _. apply (frames_lift R (Ret s)).
Qed.

Lemma getInstanceByDisplayName_reads fuel c name : frames R (getInstanceByDisplayName fuel c name).
Proof.
  apply (frames_bind R).
  - apply (pages_frames R); [intros page; apply limited_reads, rf_ListInstances|]. intros acc l. apply (frames_lift R (Ret _)).
  - intros [|i [|]]; first [apply (frames_lift R (Ret _))|apply (frames_fail R)].
Qed.

Lemma instance_of_attachment_reads vcn name a : frames R (instance_of_attachment vcn name a).
Proof.
  apply (frames_bind R); [apply (frames_lift R)|]. intros [vid|]; [|apply (frames_lift R (Ret _))].
  apply (frames_bind R); [apply GetVNIC_reads|]. intros v. apply (frames_bind R); [apply (frames_lift R)|].
  intros sid. apply (frames_bind R); [apply GetSubnet_reads|]. intros s.
  apply (frames_bind R); [apply (frames_lift R)|]. intros vcn'. case_decide; [apply (frames_lift R (Ret _))|].
  destruct (vnic_of_node name v); [|apply (frames_lift R (Ret _))].
  apply (frames_bind R); [apply (frames_lift R)|]. intros iid.
  apply (frames_bind R); [apply GetInstance_reads|]. intros i.
  apply (frames_bind R); [apply (frames_lift R)|]. intros k. apply (frames_lift R (Ret _)).
Qed.

Lemma GetInstanceByNodeName_reads fuel c vcn name : frames R (GetInstanceByNodeName fuel c vcn name).
Proof.
  apply (frames_bind R); [apply (frames_try R), getInstanceByDisplayName_reads|].
  intros [e|i]; [|apply (frames_lift R (Ret _))]. apply (frames_bind R).
  - apply (pages_frames R); [intros page; apply listVNICAttachments_reads|]. intros m items.
    apply (frames_bind R); [|intros m'; apply (frames_lift R (Ret _))]. apply (frames_foldM R). intros m' a.
    apply (frames_bind R); [apply instance_of_attachment_reads|]. intros found. apply (frames_lift R (Ret _)).
  - intros m. destruct (map_to_list m) as [|[k i] [|]]; first [apply (frames_lift R (Ret _))|apply (frames_fail R)].
Qed.

Lemma InstanceID_reads cp fuel name : frames R (InstanceID cp fuel name).
Proof.
  apply (frames_bind R).
  - apply (frames_report R); [apply (frames_lift R)|]. intros e. case_decide; first [apply (frames_lift R (Ret _))|apply (frames_fail R)].
  - intros c. apply (frames_bind R); [|intros i; apply (frames_lift R)].
    apply (frames_report R); [apply GetInstanceByNodeName_reads|]. intros e. destruct (IsNotFound _); apply (frames_fail R).
Qed.

Lemma getCompartmentIDByInstanceID_reads cp id : frames R (getCompartmentIDByInstanceID cp id).
Proof.
  apply (frames_bind R); [apply (frames_wrapM R), (rf_instances (R := R))|].
  intros [i|]; [apply (frames_lift R)|]. apply (frames_bind R); [apply (frames_lift R)|].
  intros nodes. apply (frames_lift R).
Qed.
End reads.

Section facts.
Context {W : Type} `{!ComputeSdk W, !NetworkSdk W, !StorageSdk W, !Limits W, !Store W CoreSubnet, !Store W CoreInstance}.
Context {CL : ComputeLaws W} {MR : MapRange}.

(** A request that was accepted was made in a state with the same instances. *)
Lemma inst_limited_Ret {A} isWrite op (c : M W A) w a w' :
  limited isWrite op c w = (Ret a, w') → ∃ w1, inst_still w w1 ∧ c w1 = (Ret a, w').
Proof. intros (w1 & Hw1 & Hr)%limited_Ret_of. exists w1. split; [destruct Hw1 as [-> | ->]; apply (rf_limits (R := inst_still))|done]. Qed.

Lemma GetInstance_Ret id w i w' : GetInstance id w = (Ret i, w') → instances w !! id = Some i.
Proof. unfold GetInstance. intros (w1 & Hs & Hr)%inst_limited_Ret. rewrite <-Hs. by eapply GetInstance_law. Qed.

Lemma ListInstances_Ret fuel c ad w l w' :
  ListInstancesByCompartmentAndAD fuel c ad w = (Ret l, w') →
  inst_still w w' ∧ ∀ i, i ∈ l ↔ (∃ id, instances w !! id = Some i) ∧ ci_CompartmentId i = Some c ∧ ci_AvailabilityDomain i = Some ad.
Proof.
  intros Hr. destruct (ListInstances_pages c (Some ad) None w) as (f & Hf & Hall).
  destruct (all_pages_Ret (csdk_ListInstances c (Some ad) None) "ListInstances" fuel f (inst_still w) w l w')
    as (Hs & ps & Hc & ->); try done.
  - intros w1 Hw1. trans w1; [done|apply (rf_limits (R := inst_still))].
  - intros page w1 o w2 Hw1 Hl. trans w1; [done|by eapply rf_ListInstances].
  - intros page w1 items next w2 Hw1 Hl. by eapply Hf.
  - split; [done|]. intros i. rewrite (Hall ps Hc). naive_solver.
Qed.

(** ** Does an instance exist? *)

Lemma has_instance_Ret l id b : has_instance l id = Ret b → (b = true ↔ ∃ i, i ∈ l ∧ ci_Id i = Some id).
Proof.
  induction l as [|i l IH]; intros Hr; [injection Hr as <-; split; [done|]; by intros (i & ?%elem_of_nil & _)|].
  apply bind_Ret_inv in Hr as (k & Hk & Hr). destruct (ci_Id i) as [k'|] eqn:Ei; [injection Hk as ->|done].
  case_decide as Hd.
  - injection Hr as <-. split; [|done]. intros _. exists i. rewrite <-Hd. split; [by left|done].
  - rewrite (IH Hr). setoid_rewrite elem_of_cons. naive_solver.
Qed.

(** The instance is in none of the domains. *)
Definition not_in_domains (id c : string) (domains : list (option string)) (w : W) : Prop :=
  ∀ name i, Some name ∈ domains → instances w !! id = Some i → ci_CompartmentId i = Some c → ci_AvailabilityDomain i ≠ Some name.

Lemma listed_in_domains_Ret fuel c id domains w b w' :
  listed_in_domains fuel c id domains w = (Ret b, w') →
  if b then is_Some (instances w !! id) else not_in_domains id c domains w.
Proof.
  revert w. induction domains as [|d domains IH]; intros w Hr.
  { injection Hr as <- _. by intros name i ?%elem_of_nil. }
  apply M_bind_Ret_inv in Hr as (name & w1 & Hn & Hr). apply lift_Ret_inv in Hn as [Hn ->]. destruct d as [d|]; [injection Hn as ->|done].
  apply M_bind_Ret_inv in Hr as (l & w2 & Hl & Hr). apply ListInstances_Ret in Hl as [Hs Hl].
  apply M_bind_Ret_inv in Hr as (found & w3 & Hf & Hr). apply lift_Ret_inv in Hf as [Hf ->]. apply has_instance_Ret in Hf.
  destruct found.
  - injection Hr as <- _. destruct Hf as [(i & Hi & Hid) _]; [done|]. apply Hl in Hi as ((k & Hk) & _ & _).
    apply instances_id in Hk as Hk'. rewrite Hid in Hk'. injection Hk' as ->. by exists i.
  - apply IH in Hr. rewrite Hs in Hr. destruct b; [done|]. unfold not_in_domains in *. rewrite Hs in Hr.
    intros name' i Hin Hi Hc Had. apply elem_of_cons in Hin as [[= ->]|Hin]; [|by apply (Hr name' i)].
    destruct Hf as [_ Hf]. assert (false = true); [|done]. apply Hf. exists i. split; [apply Hl; eauto|by eapply instances_id].
Qed.

(** A node is found by an id with the prefix only if its provider id has it twice. *)
Lemma compartment_of_node_prefixed nodes id c :
  compartment_of_node nodes id = Ret c → HasPrefix id Spec.providerPrefix = true →
  ∃ node, node ∈ nodes ∧ node_ProviderID node = Spec.providerPrefix +:+ id.
Proof.
  intros Hr Hid. induction nodes as [|node nodes IH]; [done|]. simpl in Hr.
  destruct (MapProviderIDToResourceID (node_ProviderID node)) as [p| |] eqn:Ep; [|done..].
  assert (compartment_of_node nodes id = Ret c → ∃ n, n ∈ node :: nodes ∧ node_ProviderID n = Spec.providerPrefix +:+ id) as Hnext.
  { intros H. destruct (IH H) as (n & Hn & E). exists n. split; [by right|done]. }
  destruct (node_Annotations node !! CompartmentIDAnnotation) as [c'|]; [|by apply Hnext].
  case_decide as Hd; [|by apply Hnext]. destruct Hd as [-> _]. exists node. split; [by left|].
  unfold MapProviderIDToResourceID in Ep. case_decide; [done|]. destruct (HasPrefix _ Spec.providerPrefix) eqn:E1.
  - injection Ep as Ep. unfold TrimPrefix in Ep. unfold HasPrefix in E1. destruct (strip_prefix Spec.providerPrefix _) as [rest|] eqn:E2; [|done].
    simpl in Ep. subst rest. by apply strip_prefix_Some in E2.
  - destruct (HasPrefix _ "ocid1"); [|done]. simpl in Ep. injection Ep as Ep. by rewrite Ep, Hid in E1.
Qed.

(** C31: an instance is reported not to exist only if it is terminal, or it
    was not found and then its compartment was listed without it in every availability
    domain that was answered; but the error of listing the availability domains is
    dropped, and then nothing was listed.  It is reported to exist only if it does.  After
    an instance was not found, a provider id with the prefix never leads to an answer,
    unless it is cached under that id or a node has the prefix twice. *)
Theorem InstanceExists_safe cp fuel pid w o w' :
  InstanceExistsByProviderID cp fuel pid w = (o, w') →
  (o = Ret false → ∃ id, MapProviderIDToResourceID pid = Ret id ∧
     ((∃ i, instances w !! id = Some i ∧ IsInstanceInTerminalState i = true) ∨
      (∃ e w1, GetInstance id w = (Err e, w1) ∧ IsNotFound (Some e) = true) ∧
      ∃ c w1 w2, getCompartmentIDByInstanceID cp pid w1 = (Ret c, w2) ∧
        ((∃ e w3, ListAvailabilityDomains c w2 = (Err e, w3)) ∨
         ∃ domains w3, ListAvailabilityDomains c w2 = (Ret domains, w3) ∧ not_in_domains pid c domains w))) ∧
  (o = Ret true → ∃ id, is_Some (instances w !! id) ∧ (id = pid ∨ MapProviderIDToResourceID pid = Ret id)) ∧
  (∀ id e w1 b, MapProviderIDToResourceID pid = Ret id → GetInstance id w = (Err e, w1) → IsNotFound (Some e) = true →
     HasPrefix pid Spec.providerPrefix = true → o = Ret b →
     (∃ i w2, store_GetByKey pid w1 = (Ret (Some i), w2) ∧ i.(ci_CompartmentId) ≠ None) ∨
     ∃ nodes node, lister_List cp = Ret nodes ∧ node ∈ nodes ∧ node_ProviderID node = Spec.providerPrefix +:+ pid).
Proof.
  intros Hr. apply M_bind_cases in Hr as [(id & w0 & Hid & Hr)|(o1 & Hid & Ho)].
  2: { split_and!; [by intros ->..|]. by intros id e w1 b Hid' _ _ _ ->. }
  apply lift_Ret_inv in Hid as [Hid ->]. unfold mbind at 1, M_bind at 1, try in Hr.
  destruct (GetInstance id w) as [[i|e|] w1] eqn:Eg.
  - apply GetInstance_Ret in Eg as Hi. injection Hr as <- _. split_and!.
    + intros [= Hb]. exists id. split; [done|]. left. exists i. split; [done|]. by destruct (IsInstanceInTerminalState i).
    + intros _. exists id. split; [by exists i|by right].
    + intros id' e w2 b Hid' Eg'. rewrite Hid in Hid'. injection Hid' as ->. by rewrite Eg in Eg'.
  - apply (GetInstance_reads inst_still) in Eg as Hs1. destruct (IsNotFound (Some e)) eqn:He.
    2: { injection Hr as <- _. split_and!; [done..|]. by intros id' e' w2 b _ _ _ _. }
    apply M_bind_cases in Hr as [(c & w2 & Hc & Hr)|(o1 & Hc & Ho)].
    2: { split_and!; [by intros ->..|]. by intros id' e' w3 b _ _ _ _ ->. }
    apply (getCompartmentIDByInstanceID_reads inst_still) in Hc as Hs2.
    assert (∃ domains w3, inst_still w2 w3 ∧ listed_in_domains fuel c pid domains w3 = (o, w') ∧
      ((∃ e, ListAvailabilityDomains c w2 = (Err e, w3)) ∨ ListAvailabilityDomains c w2 = (Ret domains, w3)) ∨ is_ret o = false)
      as (domains & w3 & [(Hs3 & Hl & Hdom)|Ho]).
    { unfold mbind, M_bind, try in Hr. destruct (ListAvailabilityDomains c w2) as [[ds|e2|] w3] eqn:Ed;
        [exists ds, w3|exists [], w3|exists [], w3; right; by injection Hr as <- _]; left;
        (split; [revert Ed; apply ListAvailabilityDomains_reads, _|eauto]). }
    2: { split_and!; [by intros ->..|]. by intros id' e' w4 b _ _ _ _ ->. }
    assert (instances w3 = instances w) as Hs by (unfold inst_still in *; congruence). split_and!.
    + intros ->. exists id. split; [done|]. right. split; [eauto|]. exists c, w1, w2. split; [done|].
      apply listed_in_domains_Ret in Hl. destruct Hdom as [[e2 Hd]|Hd]; [eauto|]. right. exists domains, w3.
      split; [done|]. unfold not_in_domains in *. by rewrite <-Hs.
    + intros ->. exists pid. apply listed_in_domains_Ret in Hl. rewrite Hs in Hl. auto.
    + intros id' e' w4 b Hid' Eg' _ Hp _. rewrite Hid in Hid'. injection Hid' as ->. rewrite Eg in Eg'. injection Eg' as <- <-.
      apply M_bind_Ret_inv in Hc as (item & w5 & Hitem & Hc). unfold wrapM in Hitem.
      destruct (store_GetByKey pid w1) as [[it| |] w6] eqn:Es; [|done..]. injection Hitem as -> ->. destruct item as [i|].
      * left. exists i, w5. split; [done|]. apply lift_Ret_inv in Hc as [Hc _]. by destruct (ci_CompartmentId i).
      * right. apply M_bind_Ret_inv in Hc as (nodes & w6 & Hn & Hc). apply lift_Ret_inv in Hn as [Hn ->].
        apply lift_Ret_inv in Hc as [Hc _]. exists nodes. destruct (lister_List cp) as [ns| |]; [|done..]. injection Hn as ->.
        destruct (compartment_of_node_prefixed _ _ _ Hc Hp) as (node & Hin & Hnode). eauto.
  - injection Hr as <- _. split_and!; [done..|]. by intros id' e' w2 b _ _ _ _.
Qed.

(** ** Instances by node name *)

(** A VNIC in use of the instance is in the VCN and has the name of the node. *)
Definition named_by_vnic (vcn name : string) (i : CoreInstance) : Prop :=
  ∃ a vid iid v sid s (w1 w2 w3 w4 : W),
    attached_vnic a = Ret (Some vid) ∧ GetVNIC vid w1 = (Ret v, w2) ∧ vnic_of_node name v = true ∧
    LoadBalancer.vnic_SubnetId (cv_vnic v) = Some sid ∧ GetSubnet sid w3 = (Ret s, w4) ∧ cs_VcnId s = Some vcn ∧
    vat_InstanceId a = Some iid ∧ ci_Id i = Some iid.

(** The instance is the only live one of the display name in the compartment. *)
Definition only_named (c name : string) (i : CoreInstance) (w : W) : Prop :=
  ci_DisplayName i = Some name ∧ ci_CompartmentId i = Some c ∧
  ∀ id j, instances w !! id = Some j → ci_CompartmentId j = Some c → ci_DisplayName j = Some name →
    IsInstanceInTerminalState j = false → j = i.

Definition alive (i : CoreInstance) (w : W) : Prop :=
  IsInstanceInTerminalState i = false ∧ ∃ id, instances w !! id = Some i.

Lemma getInstanceByDisplayName_Ret fuel c name w i w' :
  getInstanceByDisplayName fuel c name w = (Ret i, w') → alive i w ∧ only_named c name i w.
Proof.
  intros (l & w1 & Hl & Hr)%M_bind_Ret_inv. destruct l as [|i' [|]]; try done. injection Hr as -> _.
  destruct (ListInstances_pages c None (Some name) w) as (f & Hf & Hall).
  destruct (collect_pages (λ i, IsInstanceInTerminalState i = false)
    (λ page, limited false "ListInstances" (csdk_ListInstances c None (Some name) page)) f (inst_still w) fuel None [] w [i] w1)
    as (_ & ps & Hc & Hps); [| |done|exact Hl|].
  3: { specialize (Hall ps Hc). simpl in Hps.
    assert (∀ j, j ∈ [i] ↔ IsInstanceInTerminalState j = false ∧ j ∈ concat ps) as Hin.
    { intros j. by rewrite Hps, list_elem_of_filter. }
    destruct (Hin i) as [[Ht Hi] _]; [by left|]. apply Hall in Hi as (Hex & Hcomp & _ & Hname).
    split; [done|]. split_and!; [auto..|]. intros id j Hj Hjc Hjn Hjt. apply list_elem_of_singleton, Hin. split; [done|].
    apply Hall. split_and!; [eauto|done|done|by intros x [= <-]]. }
  - intros page w2 o w3 Hw2 Hp. trans w2; [done|]. revert Hp. apply (limited_reads inst_still), rf_ListInstances.
  - intros page w2 items next w3 Hw2 (w4 & Hs & Hp)%inst_limited_Ret. eapply Hf; [|done]. unfold inst_still in *. congruence.
Qed.

Lemma instance_of_attachment_Ret vcn name a w k i w' :
  instance_of_attachment vcn name a w = (Ret (Some (k, i)), w') → alive i w ∧ named_by_vnic vcn name i.
Proof.
  intros Hr. unfold instance_of_attachment in Hr.
  apply M_bind_Ret_inv in Hr as (vid & w1 & Hv & Hr). apply lift_Ret_inv in Hv as [Hv ->]. destruct vid as [vid|]; [|done].
  apply M_bind_Ret_inv in Hr as (v & w2 & Hg & Hr). apply (GetVNIC_reads inst_still) in Hg as Hs1.
  apply M_bind_Ret_inv in Hr as (sid & w3 & Hsid & Hr). apply lift_Ret_inv in Hsid as [Hsid ->].
  destruct (LoadBalancer.vnic_SubnetId (cv_vnic v)) as [sid'|] eqn:Esid; [injection Hsid as ->|done].
  apply M_bind_Ret_inv in Hr as (s & w4 & Hsub & Hr). apply (GetSubnet_reads inst_still) in Hsub as Hs2.
  apply M_bind_Ret_inv in Hr as (vcn' & w5 & Hvcn & Hr). apply lift_Ret_inv in Hvcn as [Hvcn ->].
  destruct (cs_VcnId s) as [vcn2|] eqn:Evcn; [injection Hvcn as ->|done]. case_decide as Hne; [done|]. subst vcn'.
  destruct (vnic_of_node name v) eqn:En; [|done].
  apply M_bind_Ret_inv in Hr as (iid & w6 & Hiid & Hr). apply lift_Ret_inv in Hiid as [Hiid ->].
  destruct (vat_InstanceId a) as [iid'|] eqn:Eiid; [injection Hiid as ->|done].
  apply M_bind_Ret_inv in Hr as (i' & w7 & Hi & Hr). apply GetInstance_Ret in Hi as Hex.
  apply M_bind_Ret_inv in Hr as (k' & w8 & Hk & Hr). injection Hr as Hr _.
  destruct (IsInstanceInTerminalState i') eqn:Et; [done|]. injection Hr as -> ->.
  assert (instances w4 = instances w) as Hs by (unfold inst_still in *; congruence). rewrite Hs in Hex. split; [by split; [|exists iid]|].
  exists a, vid, iid, v, sid, s, w, w2, w2, w4. split_and!; try done. by eapply instances_id.
Qed.

(** The instance that is answered for the name of a node is
    alive, and either it is the only live instance of the compartment with that display
    name, or the search by display name failed and a VNIC of it in the VCN of the cluster
    has the name of the node. *)
Lemma GetInstanceByNodeName_correct fuel c vcn name w i w' :
  GetInstanceByNodeName fuel c vcn name w = (Ret i, w') →
  alive i w ∧
  (only_named c name i w ∨
   (∃ e w1, getInstanceByDisplayName fuel c name w = (Err e, w1)) ∧ named_by_vnic vcn name i).
Proof.
  intros Hr. unfold GetInstanceByNodeName, mbind at 1, M_bind at 1, try in Hr.
  destruct (getInstanceByDisplayName fuel c name w) as [[i'|e|] w1] eqn:E.
  - injection Hr as -> _. apply getInstanceByDisplayName_Ret in E as [Ha Ho]. auto.
  - assert (inst_still w w1) as Hs1.
    { revert E. apply (getInstanceByDisplayName_reads inst_still). }
    apply M_bind_Ret_inv in Hr as (m & w2 & Hp & Hr).
    apply (pages_invariant _ _ (λ m w2, inst_still w w2 ∧ map_Forall (λ _ i, alive i w ∧ named_by_vnic vcn name i) m)) in Hp as [_ Hm].
    + destruct (map_to_list m) as [|[k j] [|]] eqn:Em; try done. injection Hr as -> _.
      assert (m !! k = Some i) as Hk by (apply elem_of_map_to_list; rewrite Em; by left).
      apply Hm in Hk as [Ha Hn]. eauto 8.
    + intros b page w3 r w4 [Hs Hb] Hl. split; [|done]. trans w3; [done|by eapply (listVNICAttachments_reads inst_still)].
    + intros b items w3 r w4 Hb Hv. apply M_bind_Ret_inv in Hv as (m' & w5 & Hv & Hret). injection Hret as <- <-.
      revert b w3 Hb Hv. induction items as [|a items IH]; intros b w3 Hb Hv; [by injection Hv as <- <-|]. simpl in Hv.
      apply M_bind_Ret_inv in Hv as (b' & w6 & Hv1 & Hv). eapply IH; [|exact Hv]. clear IH Hv.
      apply M_bind_Ret_inv in Hv1 as (found & w7 & Hf & Hret). injection Hret as <- <-. destruct Hb as [Hs Hb].
      apply (instance_of_attachment_reads inst_still) in Hf as Hs2. split; [by trans w3|]. destruct found as [[k j]|]; [|done].
      apply instance_of_attachment_Ret in Hf as [[Ht Hex] Hn]. rewrite Hs in Hex. by apply map_Forall_insert_2.
    + split; [done|]. apply map_Forall_empty.
  - done.
Qed.

(** ** Addresses of nodes *)

(** An address as nodes have it: internal or external, and the text of 16 bytes. *)
Definition well_formed (a : NodeAddress) : Prop :=
  (addr_Type a = NodeInternalIPType ∨ addr_Type a = NodeExternalIPType) ∧
  ∃ ip, length ip = 16 ∧ Forall is_byte ip ∧ addr_Address a = IP_String ip.

Lemma address_of_well_formed t m a l :
  t = NodeInternalIPType ∨ t = NodeExternalIPType → address_of t m a = Ret l → Forall well_formed l.
Proof.
  intros Ht. unfold address_of. destruct a as [a|]; [|by intros [= <-]]. case_decide; [by intros [= <-]|].
  destruct (net_ParseIP a) as [ip|] eqn:E; [|done]. intros [= <-]. apply net_ParseIP_bytes in E as [Hl Hb].
  apply Forall_singleton. split; [done|by exists ip].
Qed.

Lemma concat_mapM_Forall {A B} (P : B → Prop) (f : A → outcome (list B)) l r :
  (∀ a bs, f a = Ret bs → Forall P bs) → (@concat _ <$> mapM f l) = Ret r → Forall P r.
Proof.
  intros Hf. destruct (mapM f l) as [bss| |] eqn:E; [|done..]. intros [= <-]. revert bss E.
  induction l as [|a l IH]; intros bss Hr; simpl in Hr; [by injection Hr as <-|].
  apply bind_Ret_inv in Hr as (bs & Hb & Hr). apply bind_Ret_inv in Hr as (bss' & Hbs & Hr). injection Hr as <-.
  simpl. apply Forall_app. split; [by eapply Hf|by apply IH].
Qed.

Lemma ipv6_addresses_well_formed family addresses l : ipv6_addresses family addresses = Ret l → Forall well_formed l.
Proof.
  unfold ipv6_addresses. destruct (contains family IPv6); [|by intros [= <-]]. apply concat_mapM_Forall.
  intros a bs. unfold ipv6_address. case_decide; [by intros [= <-]|].
  destruct (net_ParseIP a) as [ip|] eqn:E; [|done]. intros [= <-]. apply net_ParseIP_bytes in E as [Hl Hb].
  apply Forall_singleton. split; [destruct (IsPrivate ip); simpl; auto|by exists ip].
Qed.

Lemma vnic_addresses_well_formed v l : private_address v = Ret l ∨ public_address v = Ret l → Forall well_formed l.
Proof. intros [H|H]; apply address_of_well_formed in H; auto. Qed.

Lemma secondary_addresses_well_formed ns v l : secondary_addresses ns v = Ret l → Forall well_formed l.
Proof.
  unfold secondary_addresses. destruct (_ && _); [|by intros [= <-]].
  intros (p & Hp & Hr)%bind_Ret_inv. apply bind_Ret_inv in Hr as (q & Hq & Hr). injection Hr as <-.
  apply Forall_app. split; eapply vnic_addresses_well_formed; eauto.
Qed.

(** A VNIC that an attachment names which is listed for the instance. *)
Definition listed_for (c id : string) (a : VnicAttachment) : Prop := ∃ page items next w w',
  csdk_ListVnicAttachments c (Some id) page w = (Ret (items, next), w') ∧ a ∈ items.
Definition attached_to (c id : string) (v : CoreVnic) : Prop := ∃ a vid w w',
  listed_for c id a ∧ attached_vnic a = Ret (Some vid) ∧ GetVNIC vid w = (Ret v, w').

Lemma listVNICAttachments_listed c id page w items next w' :
  listVNICAttachments c (Some id) page w = (Ret (items, next), w') → Forall (listed_for c id) items.
Proof.
  unfold listVNICAttachments. intros (w1 & _ & Hr)%limited_Ret_of. apply Forall_forall. intros a Ha. by exists page, items, next, w1, w'.
Qed.

Lemma primary_of_Ret c id atts w v w' : Forall (listed_for c id) atts →
  primary_of atts w = (Ret (Some v), w') → cv_IsPrimary v = Some true ∧ attached_to c id v.
Proof.
  intros Hall. revert w. induction Hall as [|a atts Ha Hall IH]; intros w Hr; [done|]. simpl in Hr.
  apply M_bind_Ret_inv in Hr as (vid & w1 & Hv & Hr). apply lift_Ret_inv in Hv as [Hv ->]. destruct vid as [vid|]; [|by eapply IH].
  apply M_bind_Ret_inv in Hr as (v' & w2 & Hg & Hr). case_decide; [|by eapply IH].
  injection Hr as -> _. split; [done|]. by exists a, vid, w, w2.
Qed.

Lemma GetPrimaryVNIC_Ret fuel c id w v w' :
  GetPrimaryVNICForInstance fuel c id w = (Ret v, w') → cv_IsPrimary v = Some true ∧ attached_to c id v.
Proof.
  intros (found & w1 & Hp & Hr)%M_bind_Ret_inv.
  apply (pages_listed _ _ (listed_for c id) (from_option (λ v, cv_IsPrimary v = Some true ∧ attached_to c id v) True)) in Hp.
  - destruct found as [v'|]; [|done]. by injection Hr as -> _.
  - intros page w2 items next w3. apply listVNICAttachments_listed.
  - intros b items w2 r w3 _ Hl Hv. apply M_bind_Ret_inv in Hv as (r' & w4 & Hv & Hret). injection Hret as <- _.
    destruct r' as [v'|]; [|done]. by eapply primary_of_Ret.
  - done.
Qed.

Lemma secondary_of_Ret c id atts acc w l w' : Forall (listed_for c id) atts →
  let secondary v := cv_IsPrimary v = Some false ∧ attached_to c id v in
  Forall secondary acc → secondary_of atts acc w = (Ret l, w') → Forall secondary l.
Proof.
  intros Hall secondary. revert acc w. induction Hall as [|a atts Ha Hall IH]; intros acc w Hacc Hr; [by injection Hr as <- _|]. simpl in Hr.
  apply M_bind_Ret_inv in Hr as (vid & w1 & Hv & Hr). apply lift_Ret_inv in Hv as [Hv ->]. destruct vid as [vid|]; [|by eapply IH].
  apply M_bind_Ret_inv in Hr as (v & w2 & Hg & Hr). apply M_bind_Ret_inv in Hr as (b & w3 & Hb & Hr). apply lift_Ret_inv in Hb as [Hb ->].
  destruct (cv_IsPrimary v) as [b'|] eqn:Ev; [injection Hb as ->|done]. apply IH in Hr; [done|]. destruct b; [done|].
  apply Forall_app. split; [done|]. apply Forall_singleton. split; [done|]. by exists a, vid, w, w2.
Qed.

Lemma GetSecondaryVNICs_Ret fuel c id w l w' : GetSecondaryVNICsForInstance fuel c id w = (Ret l, w') →
  Forall (λ v, cv_IsPrimary v = Some false ∧ attached_to c id v) l.
Proof.
  intros Hp. eapply (pages_listed _ _ (listed_for c id)); [| | |exact Hp]; [apply listVNICAttachments_listed| |done].
  intros b items w2 r w3 Hb Hl Hv. apply M_bind_Ret_inv in Hv as (r' & w4 & Hv & Hret). injection Hret as <- _. by eapply secondary_of_Ret.
Qed.

(** The namespace of tags of OpenShift, empty if the instance has none or cannot be read. *)
Lemma tag_namespace_Ret id w ns w' : getOpenShiftTagNamespaceByInstance id w = (Ret ns, w') → ns ≠ "" →
  ∃ i, GetInstance id w = (Ret i, w') ∧ is_Some (default ∅ (ci_DefinedTags i) !! ns) ∧ HasPrefix ns OpenShiftTagNamesapcePrefix = true.
Proof.
  intros (r & w1 & Ht & Hr)%M_bind_Ret_inv Hns. injection Hr as <- <-.
  unfold try in Ht. destruct (GetInstance id w) as [[i|e|] w2]; simplify_eq. exists i. split; [done|].
  destruct (list_find _ _) as [[n [ns tags]]|] eqn:E; [|done]. apply list_find_Some in E as (Hl%list_elem_of_lookup_2 & Hp & _).
  apply elem_of_range in Hl. split; [by exists tags|done].
Qed.

(** The private and the public address of a VNIC. *)
Definition own_addresses (v : CoreVnic) : outcome (list NodeAddress) :=
  private ← private_address v; public ← public_address v; mret (private ++ public).
(** The secondary VNICs that OpenShift tags for an iSCSI boot volume. *)
Definition boot_vnics (ns : string) (vs : list CoreVnic) : list CoreVnic :=
  filter (λ v, default ∅ (default ∅ (cv_DefinedTags v) !! ns) !! OpenShiftBootVolumeType = Some OpenShiftBootVolumeISCSI) vs.

Lemma own_addresses_well_formed v l : own_addresses v = Ret l → Forall well_formed l.
Proof.
  intros (p & Hp & Hr)%bind_Ret_inv. apply bind_Ret_inv in Hr as (q & Hq & Hr). injection Hr as <-.
  apply Forall_app. split; eapply vnic_addresses_well_formed; eauto.
Qed.

Lemma boot_addresses ns vs l : Forall (λ v, cv_IsPrimary v = Some false) vs → (@concat _ <$> mapM (secondary_addresses ns) vs) = Ret l →
  ∃ boots, mapM own_addresses (boot_vnics ns vs) = Ret boots ∧ l = concat boots.
Proof.
  intros Hall. revert l. induction Hall as [|v vs Hv Hall IH]; intros l Hr; [by injection Hr as <-; exists []|].
  unfold secondary_addresses, checkOpenShiftISCSIBootVolumeTagByVnic in Hr, IH.
  destruct (mapM _ (v :: vs)) as [bss| |] eqn:Hm; [injection Hr as <-|done..]. simpl in Hm. rename Hm into Hr.
  rewrite Hv in Hr. apply bind_Ret_inv in Hr as (b & Hb & Hr). apply bind_Ret_inv in Hr as (bs & Hbs & Hr). injection Hr as <-.
  destruct (IH (concat bs)) as (boots & Hm & Hc); [by rewrite Hbs|]. unfold boot_vnics. rewrite filter_cons.
  simpl in Hb. case_bool_decide; simpl in Hb.
  - rewrite decide_True by done. exists (b :: boots). split; [|simpl; by rewrite Hc]. simpl. fold (boot_vnics ns vs).
    change (own_addresses v) with (private ← private_address v; public ← public_address v; mret (private ++ public)). by rewrite Hb; simpl; rewrite Hm.
  - rewrite decide_False by done. injection Hb as <-. by exists boots.
Qed.

(** The addresses of a node: of its own primary VNIC, and of the boot volumes of OpenShift. *)
Definition addresses_of cp (fuel : nat) (id : string) (w : W) (l : list NodeAddress) w' : Prop :=
  ∃ c v own family v6 ns secondary boots w1 w2 w3,
    getCompartmentIDByInstanceID cp id w = (Ret c, w1) ∧
    GetPrimaryVNICForInstance fuel c id w1 = (Ret v, w2) ∧ cv_IsPrimary v = Some true ∧ attached_to c id v ∧
    own_addresses v = Ret own ∧
    getNodeIpFamily cp id = Ret family ∧ ipv6_addresses family (LoadBalancer.vnic_Ipv6Addresses (cv_vnic v)) = Ret v6 ∧
    getOpenShiftTagNamespaceByInstance id w2 = (Ret ns, w3) ∧
    (if decide (ns = "") then secondary = [] ∧ w' = w3
     else (∃ i, GetInstance id w2 = (Ret i, w3) ∧ is_Some (default ∅ (ci_DefinedTags i) !! ns) ∧ HasPrefix ns OpenShiftTagNamesapcePrefix = true) ∧
       GetSecondaryVNICsForInstance fuel c id w3 = (Ret secondary, w')) ∧
    Forall (λ v, cv_IsPrimary v = Some false ∧ attached_to c id v) secondary ∧
    mapM own_addresses (boot_vnics ns secondary) = Ret boots ∧
    l = own ++ v6 ++ if decide (secondary = []) then [] else concat boots ++ v6.

(** C32: Every address of a node is internal or external and is the
    text of an address of 16 bytes.  They are the private and the public address of the
    primary VNIC that is attached to the instance, and its IPv6 addresses if the node has that family.  If the
    instance can be read and has a defined tag in a namespace of OpenShift, and has secondary VNICs, the private and public addresses
    of those secondary VNICs of the instance that have the tag of an iSCSI boot volume in this namespace
    follow, and then the IPv6 addresses of the primary VNIC once more. *)
Theorem extractNodeAddresses_typed cp fuel id w l w' :
  extractNodeAddresses cp fuel id w = (Ret l, w') →
  Forall well_formed l ∧ addresses_of cp fuel id w l w'.
Proof.
  intros Hr. cut (addresses_of cp fuel id w l w').
  { intros Ha. split; [|done]. destruct Ha as (c & v & own & family & v6 & ns & sec & boots & w1 & w2 & w3 & _ & _ & _ & _ & Hown & _ & H6 & _ & _ & _ & Hb & ->).
    apply own_addresses_well_formed in Hown. apply ipv6_addresses_well_formed in H6. repeat apply Forall_app_2; [done..|]. case_decide; [done|].
    apply Forall_app_2; [|done]. eapply (concat_mapM_Forall well_formed own_addresses); [apply own_addresses_well_formed|]. by rewrite Hb. }
  unfold extractNodeAddresses in Hr.
  apply M_bind_Ret_inv in Hr as (c & w1 & Hc & Hr). apply M_bind_Ret_inv in Hr as (v & w2 & Hv%wrapM_Ret_inv & Hr).
  apply GetPrimaryVNIC_Ret in Hv as Hprimary. destruct Hprimary as [Hprimary Hatt].
  apply M_bind_Ret_inv in Hr as (private & w3 & Hpr & Hr). apply lift_Ret_inv in Hpr as [Hpr ->].
  apply M_bind_Ret_inv in Hr as (public & w4 & Hpu & Hr). apply lift_Ret_inv in Hpu as [Hpu ->].
  assert (own_addresses v = Ret (private ++ public)) as Hown by (unfold own_addresses; rewrite Hpr; simpl; by rewrite Hpu).
  apply M_bind_Ret_inv in Hr as (family & w5 & Hfa & Hr). apply lift_Ret_inv in Hfa as [Hfa ->].
  apply M_bind_Ret_inv in Hr as (v6 & w6 & H6 & Hr). apply lift_Ret_inv in H6 as [H6 ->].
  cbv zeta in Hr. apply M_bind_Ret_inv in Hr as (ns & w7 & Hns & Hr). pose proof (tag_namespace_Ret _ _ _ _ Hns) as Htag. case_decide as Hempty.
  { injection Hr as <- <-. exists c, v, (private ++ public), family, v6, ns, [], [], w1, w2, w7. rewrite decide_True by done.
    split_and!; try done. by rewrite !app_nil_r, <-(assoc (++)). }
  specialize (Htag Hempty). apply M_bind_Ret_inv in Hr as (vs & w8 & Hsec & Hr). apply GetSecondaryVNICs_Ret in Hsec as Hall. destruct vs as [|v2 vs].
  { injection Hr as <- <-. exists c, v, (private ++ public), family, v6, ns, [], [], w1, w2, w7. rewrite decide_False by done.
    split_and!; try done. by rewrite !app_nil_r, <-(assoc (++)). }
  apply M_bind_Ret_inv in Hr as (more & w9 & Hmore & Hr). apply lift_Ret_inv in Hmore as [Hmore ->].
  apply M_bind_Ret_inv in Hr as (family' & w10 & Hfa' & Hr). apply lift_Ret_inv in Hfa' as [Hfa' ->].
  apply M_bind_Ret_inv in Hr as (again & w11 & Hag & Hr). apply lift_Ret_inv in Hag as [Hag ->]. injection Hr as <- <-.
  rewrite Hfa in Hfa'. injection Hfa' as <-. rewrite H6 in Hag. injection Hag as <-.
  apply boot_addresses in Hmore as (boots & Hb & ->); [|eapply Forall_impl; [exact Hall|]; by intros ? [? _]].
  exists c, v, (private ++ public), family, v6, ns, (v2 :: vs), boots, w1, w2, w7. rewrite decide_False by done.
  split_and!; try done; by rewrite <-!(assoc (++)), decide_False by done.
Qed.
End facts.
