(* ===== verification/NodeControllers.v ===== *)
(** * The controllers of nodes (node_info_controller.go, tagging_controller.go)

    The node info controller labels nodes with what the compute service says of their
    instances; the tagging controller gives the instances of an OpenShift cluster their
    tags.  Work queues, patches of nodes and retries are those of the Kubernetes client
    library. *)
From stdpp Require Import base tactics list gmap sets strings.
From Stdlib Require Import Ascii.
From S2P Require Import Prelude GoStrings Types ClientErrors ClientCalls Annotations Spec Handlers StorageClient NetworkingClient ComputeClient Instances FileStorage.

Definition FaultDomainLabel : string := "oci.oraclecloud.com/fault-domain".
Definition AvailabilityDomainLabel : string := "csi-ipv6-full-ad-name".

(** The API server merges the text of a patch into a node; [conflict] is
    [apierrors.IsConflict]. *)
Class NodePatcher (W : Type) := {
  Nodes_Patch : string → string → M W ();
  conflict : error → bool;
}.

(** [workqueue.RateLimitingInterface]: no key is answered when it is shut down. *)
Class WorkQueue (W : Type) := {
  queue_Get : M W (option string);
  queue_Done : string → M W ();
  queue_AddRateLimited : string → M W ();
  queue_Forget : string → M W ();
}.

(** ** Labels of nodes *)

(** [ipv6] is [client.IsIpv6SingleStackCluster()]. *)
Definition validateNodeHasRequiredLabels (ipv6 : bool) (node : Node) : bool :=
  bool_decide (is_Some (node_Labels node !! FaultDomainLabel)) &&
  bool_decide (is_Some (node_Annotations node !! CompartmentIDAnnotation)) &&
  (negb ipv6 || bool_decide (is_Some (node_Labels node !! AvailabilityDomainLabel))).

(** What is added: labels and annotations. *)
Definition node_patch (ipv6 : bool) (node : Node) (i : CoreInstance) : outcome (list (string * string) * list (string * string)) :=
  let faultDomainPresent := bool_decide (is_Some (node_Labels node !! FaultDomainLabel)) in
  let availabilityDomainPresent := bool_decide (is_Some (node_Labels node !! AvailabilityDomainLabel)) in
  let compartmentPresent := bool_decide (is_Some (node_Annotations node !! CompartmentIDAnnotation)) in
  ad ← deref (ci_AvailabilityDomain i);
  let availabilityDomainLabelValue := replace_byte ":" "." ad in
  let labels faultDomain :=
    (FaultDomainLabel, faultDomain) :: (if ipv6 then [(AvailabilityDomainLabel, availabilityDomainLabelValue)] else []) in
  if faultDomainPresent && (negb ipv6 || availabilityDomainPresent) then
    c ← deref (ci_CompartmentId i);
    mret ([], [(CompartmentIDAnnotation, c)])
  else if compartmentPresent then
    faultDomain ← deref (ci_FaultDomain i);
    mret (labels faultDomain, [])
  else
    faultDomain ← deref (ci_FaultDomain i);
    c ← deref (ci_CompartmentId i);
    mret (labels faultDomain, [(CompartmentIDAnnotation, c)]).

(** The JSON text of a patch. *)
Definition json_quote : string := String "034" "".
Definition json_string (s : string) : string := json_quote +:+ s +:+ json_quote.
Definition json_map (name : string) (entries : list (string * string)) : list string :=
  match entries with
  | [] => []
  | _ => [json_string name +:+ ": {" +:+ join "," ((λ kv, json_string kv.1 +:+ ":" +:+ json_string kv.2) <$> entries) +:+ "}"]
  end.
Definition patch_json (labels annotations : list (string * string)) : string :=
  "{" +:+ json_string "metadata" +:+ ": {" +:+ join "," (json_map "labels" labels ++ json_map "annotations" annotations) +:+ "}}".

Definition getNodePatchBytes (ipv6 : bool) (node : Node) (i : CoreInstance) : outcome (option string) :=
  if validateNodeHasRequiredLabels ipv6 node then mret None
  else '(labels, annotations) ← node_patch ipv6 node i; mret (Some (patch_json labels annotations)).

(** ** Tags of instances *)

Definition openshiftTagNamespace : string := "openshift-tags".
Definition openshiftTagKey : string := "openshift-resource".
Definition openshiftTagValue : string := "openshift-resource-infra".
Definition definedTagLimit : nat := 64.

Abbreviation tag_map := (gmap string (gmap string string)).

Definition hasRequiredDefinedTags (instanceDefinedTags : tag_map) (requiredDefinedTags : option tag_map) : bool :=
  match requiredDefinedTags with
  | None => true
  | Some required =>
      if decide (required = ∅) then true
      else if decide (instanceDefinedTags = ∅) then false
      else forallb (λ '(namespace, tags),
             match instanceDefinedTags !! namespace with
             | None => false
             | Some existing => forallb (λ '(key, value), bool_decide (existing !! key = Some value)) (map_to_list tags)
             end) (map_to_list required)
  end.

Definition countDefinedTags (tags : tag_map) : nat := sum_list (size <$> (map_to_list tags).*2).

(** The tag of OpenShift is added to the namespace, which is made if there is none. *)
Definition with_openshift_tag (tags : tag_map) : tag_map :=
  <[openshiftTagNamespace := <[openshiftTagKey := openshiftTagValue]> (default ∅ (tags !! openshiftTagNamespace))]> tags.

Section controllers.
Context {W : Type} `{!ComputeSdk W, !NetworkSdk W, !StorageSdk W, !Limits W, !Store W CoreSubnet, !Store W CoreInstance}.
Context `{!MapRange, !NodePatcher W, !WorkQueue W}.
Implicit Types (cp : CloudProvider).

(** ** The node info controller *)

Definition getInstanceByNode cp (fuel : nat) (node : Node) : M W CoreInstance :=
  providerID ← (if decide (node_ProviderID node = "") then InstanceID cp fuel (node_Name node) else mret (node_ProviderID node));
  instanceID ← lift (MapProviderIDToResourceID providerID);
  GetInstance instanceID.

(** [retry.RetryOnConflict]: the last error is answered when no step is left. *)
Fixpoint RetryOnConflict (steps : nat) (f : M W ()) : M W () :=
  match steps with
  | 0 => fail WaitTimeout
  | S steps =>
      report f (λ err, if conflict err then match steps with 0 => fail err | _ => RetryOnConflict steps f end else fail err)
  end.
(** The steps of [retry.DefaultBackoff]. *)
Definition DefaultBackoff_Steps : nat := 4.

Definition processItem cp (ipv6 : bool) (fuel : nat) (key : string) : M W () :=
  cacheNode ← lift (lister_Get cp key);
  if validateNodeHasRequiredLabels ipv6 cacheNode then mret () else
  instance ← getInstanceByNode cp fuel cacheNode;
  _ ← store_Add instance;
  patch ← lift (getNodePatchBytes ipv6 cacheNode instance);
  match patch with
  | None => mret ()
  | Some patch => RetryOnConflict DefaultBackoff_Steps (Nodes_Patch (node_Name cacheNode) patch)
  end.

(** A key that fails is tried again later. *)
Definition processNextItem cp (ipv6 : bool) (fuel : nat) : M W bool :=
  key ← queue_Get;
  match key with
  | None => mret false
  | Some key =>
      r ← try (processItem cp ipv6 fuel key);
      _ ← match r with inl _ => queue_AddRateLimited key | inr _ => queue_Forget key end;
      _ ← queue_Done key;
      mret true
  end.

(** ** The tagging controller *)

(** The common tags of the configuration, a nil pointer is [None], and the world. *)
Abbreviation state := (option FssTags * W)%type.

(** The tags that an instance needs; those of the configuration are changed in place, and
    a nil map panics.  Without common tags a new configuration is used. *)
Definition required_tags : M state FssTags := λ '(config, w),
  match config with
  | None => (Ret {| ft_Freeform := Some ∅; ft_Defined := Some (with_openshift_tag ∅) |}, (config, w))
  | Some t =>
      match ft_Defined t with
      | None => (Panic, (config, w))
      | Some d => let t' := {| ft_Freeform := ft_Freeform t; ft_Defined := Some (with_openshift_tag d) |} in
                  (Ret t', (Some t', w))
      end
  end.

(** Errors are only logged. *)
Definition ReconcileNodeTags (node : option Node) : M state () :=
  match node with
  | None => mret ()
  | Some node =>
      match MapProviderIDToResourceID (node_ProviderID node) with
      | Ret instanceOCID =>
          r ← try (on_world (GetInstance instanceOCID));
          match r with
          | inl _ => mret ()
          | inr instance =>
              t ← required_tags;
              let definedTags := default ∅ (ci_DefinedTags instance) in
              if hasRequiredDefinedTags definedTags (ft_Defined t) then mret () else
              let tags := MergeTagConfig
                {| tag_FreeformTags := default ∅ (ci_FreeformTags instance); tag_DefinedTags := definedTags |}
                {| tag_FreeformTags := default ∅ (ft_Freeform t); tag_DefinedTags := default ∅ (ft_Defined t) |} in
              if decide (definedTagLimit ≤ countDefinedTags definedTags) then mret () else
              _ ← try (on_world (UpdateInstance (Some instanceOCID)
                     {| uid_FreeformTags := tag_FreeformTags tags; uid_DefinedTags := tag_DefinedTags tags |}));
              mret ()
          end
      | _ => mret ()
      end
  end.

(** What the worker does at a tick: all nodes, one after the other. *)
Definition reconcile_nodes cp : M state () :=
  nodes ← lift (lister_List cp);
  forM nodes (λ node, ReconcileNodeTags (Some node)).
End controllers.
