(* ===== verification/NodeControllersFacts.v ===== *)
(** * What the controllers of nodes achieve

    After the node info controller processed a node it has the labels and the annotation
    that the other components read; the tagging controller leaves an instance with the
    required tags, and then leaves it alone. *)
From stdpp Require Import base tactics list gmap sets strings.
From Stdlib Require Import Ascii.
From S2P Require Import Prelude GoStrings Types ClientErrors ClientCalls Annotations Spec Handlers StorageClient NetworkingClient ComputeClient Instances InstancesFacts FileStorage NodeControllers.

(** ** The text of a patch *)

(** Text that JSON writes as it is. *)
Fixpoint json_plain (s : string) : bool :=
  match s with
  | EmptyString => true
  | String c s' => bool_decide (32 ≤ nat_of_ascii c) && bool_decide (c ≠ "034"%char) && bool_decide (c ≠ "092"%char) && json_plain s'
  end.
Definition plain_entry (kv : string * string) : Prop := json_plain kv.1 = true ∧ json_plain kv.2 = true.

(** A node with the labels and annotations of a patch. *)
Definition patched (labels annotations : list (string * string)) (n : Node) : Node := {|
  node_Name := node_Name n; node_Labels := list_to_map labels ∪ node_Labels n;
  node_Annotations := list_to_map annotations ∪ node_Annotations n; node_ProviderID := node_ProviderID n;
  node_Addresses := node_Addresses n; node_Conditions := node_Conditions n |}.

(** The nodes of the API server: a patch that is accepted merges its labels and
    annotations, one that is refused because of a conflict changes nothing. *)
Class PatchLaws (W : Type) `{!NodePatcher W} := {
  api_nodes : W → gmap string Node;
  nodes_still w w' := api_nodes w' = api_nodes w;
  Nodes_Patch_law : ∀ name labels annotations w o w',
    Forall plain_entry labels → Forall plain_entry annotations → labels ++ annotations ≠ [] →
    Nodes_Patch name (patch_json labels annotations) w = (o, w') →
    (o = Ret () → ∃ n, api_nodes w !! name = Some n ∧ api_nodes w' = <[name := patched labels annotations n]> (api_nodes w)) ∧
    (∀ e, o = Err e → conflict e = true → nodes_still w w');
}.

(** ** Labels *)

Lemma plain_replace old new s :
  json_plain s = true → json_plain (String new "") = true → json_plain (replace_byte old new s) = true.
Proof.
  intros Hs Hnew. induction s as [|c s IH]; [done|]. cbn [json_plain] in Hs. apply andb_true_iff in Hs as [Hc Hs].
  cbn [json_plain replace_byte]. rewrite (IH Hs), andb_true_r. destruct (decide (c = old)); [|done]. cbn [json_plain] in Hnew. by rewrite andb_true_r in Hnew.
Qed.

(** The text of the values that nodes are labelled with needs no escapes. *)
Definition plain_instance (i : CoreInstance) : Prop :=
  ∀ s, ci_AvailabilityDomain i = Some s ∨ ci_FaultDomain i = Some s ∨ ci_CompartmentId i = Some s → json_plain s = true.

Lemma node_patch_plain ipv6 node i labels annotations :
  plain_instance i → node_patch ipv6 node i = Ret (labels, annotations) →
  Forall plain_entry labels ∧ Forall plain_entry annotations ∧ labels ++ annotations ≠ [].
Proof.
  intros Hi. unfold node_patch. intros (ad & Had & Hr)%bind_Ret_inv. destruct (ci_AvailabilityDomain i) as [ad'|] eqn:Ead; [injection Had as ->|done].
  assert (json_plain (replace_byte ":" "." ad) = true) as Hplain by (apply plain_replace; [apply Hi; auto|done]).
  assert (∀ c, ci_CompartmentId i = Some c → Forall plain_entry [(CompartmentIDAnnotation, c)]) as Hc.
  { intros c Hc. apply Forall_singleton. split; [done|]. simpl. apply Hi. auto. }
  assert (∀ fd, ci_FaultDomain i = Some fd → Forall plain_entry ((FaultDomainLabel, fd) ::
    (if ipv6 then [(AvailabilityDomainLabel, replace_byte ":" "." ad)] else []))) as Hl.
  { intros fd Hfd. apply Forall_cons. split; [split; [done|simpl; apply Hi; auto]|]. destruct ipv6; [|done]. by apply Forall_singleton. }
  cbv zeta in Hr. destruct (_ && _).
  - apply bind_Ret_inv in Hr as (c & Hcd & Hr). destruct (ci_CompartmentId i) as [c'|]; [injection Hcd as ->|done].
    injection Hr as <- <-. auto.
  - destruct (bool_decide _); apply bind_Ret_inv in Hr as (fd & Hfd & Hr);
      (destruct (ci_FaultDomain i) as [fd'|]; [injection Hfd as ->|done]).
    + injection Hr as <- <-. auto.
    + apply bind_Ret_inv in Hr as (c & Hcd & Hr). destruct (ci_CompartmentId i) as [c'|]; [injection Hcd as ->|done].
      injection Hr as <- <-. auto.
Qed.

(** A node that is at least labelled like the one that was looked at has all labels after
    the patch. *)
Lemma node_patch_complete ipv6 node n i labels annotations :
  validateNodeHasRequiredLabels ipv6 node = false → node_Labels node ⊆ node_Labels n →
  node_Annotations node ⊆ node_Annotations n → node_patch ipv6 node i = Ret (labels, annotations) →
  validateNodeHasRequiredLabels ipv6 (patched labels annotations n) = true.
Proof.
  intros Hv Hl Ha. unfold node_patch. intros (ad & _ & Hr)%bind_Ret_inv.
  assert (∀ k, is_Some (node_Labels node !! k) → is_Some ((list_to_map labels ∪ node_Labels n : gmap string string) !! k)) as Hold.
  { intros k [v Hk]. eapply lookup_weaken in Hk; [|exact Hl]. rewrite lookup_union_is_Some. right. eauto. }
  assert (∀ k, is_Some (node_Annotations node !! k) → is_Some ((list_to_map annotations ∪ node_Annotations n : gmap string string) !! k)) as Holda.
  { intros k [v Hk]. eapply lookup_weaken in Hk; [|exact Ha]. rewrite lookup_union_is_Some. right. eauto. }
  assert (∀ k v l (m : gmap string string), (k, v) ∈ l → is_Some ((list_to_map l ∪ m : gmap string string) !! k)) as Hnew.
  { intros k v l m Hin. rewrite lookup_union_is_Some. left. apply elem_of_dom. rewrite dom_list_to_map_L.
    apply elem_of_list_to_set, list_elem_of_fmap. by exists (k, v). }
  unfold validateNodeHasRequiredLabels in *. simpl. cbv zeta in Hr.
  destruct (bool_decide (is_Some (node_Labels node !! FaultDomainLabel)) &&
    (negb ipv6 || bool_decide (is_Some (node_Labels node !! AvailabilityDomainLabel)))) eqn:E1.
  - apply bind_Ret_inv in Hr as (c & _ & Hr). injection Hr as <- <-. apply andb_true_iff in E1 as [E1 E2].
    apply bool_decide_eq_true in E1. rewrite !andb_true_iff, orb_true_iff, !bool_decide_eq_true.
    split_and!; [by apply Hold|apply (Hnew _ c); by left|]. destruct ipv6; [right|by left].
    apply Hold. simpl in E2. by apply bool_decide_eq_true in E2.
  - assert (∃ fd more, labels = (FaultDomainLabel, fd) :: (if ipv6 then [(AvailabilityDomainLabel, replace_byte ":" "." ad)] else []) ∧
      annotations = more ∧ (bool_decide (is_Some (node_Annotations node !! CompartmentIDAnnotation)) = true ∨
        ∃ c, (CompartmentIDAnnotation, c) ∈ more)) as (fd & more & -> & -> & Hc).
    { destruct (bool_decide (is_Some (node_Annotations node !! CompartmentIDAnnotation))).
      - apply bind_Ret_inv in Hr as (fd & _ & Hr). injection Hr as <- <-. exists fd, []. auto.
      - apply bind_Ret_inv in Hr as (fd & _ & Hr). apply bind_Ret_inv in Hr as (c & _ & Hr). injection Hr as <- <-.
        exists fd, [(CompartmentIDAnnotation, c)]. split_and!; [done..|]. right. exists c. by left. }
    rewrite !andb_true_iff, orb_true_iff, !bool_decide_eq_true. split_and!.
    + apply (Hnew _ fd). by left.
    + destruct Hc as [Hc%bool_decide_eq_true|[c Hc]]; [by apply Holda|by eapply Hnew].
    + destruct ipv6; [right|by left]. apply (Hnew _ (replace_byte ":" "." ad)). right. by left.
Qed.

(** Which keys a patch has. *)
Lemma node_patch_keys ipv6 node i labels annotations k :
  node_patch ipv6 node i = Ret (labels, annotations) →
  (k ∈ labels.*1 → k = FaultDomainLabel ∨ k = AvailabilityDomainLabel) ∧ (k ∈ annotations.*1 → k = CompartmentIDAnnotation).
Proof.
  unfold node_patch. intros (ad & _ & Hr)%bind_Ret_inv. cbv zeta in Hr.
  destruct (_ && _); [apply bind_Ret_inv in Hr as (c & _ & Hr); injection Hr as <- <-; set_solver|].
  destruct (bool_decide _); [|].
  - apply bind_Ret_inv in Hr as (fd & _ & Hr). injection Hr as <- <-. destruct ipv6; set_solver.
  - apply bind_Ret_inv in Hr as (fd & _ & Hr). apply bind_Ret_inv in Hr as (c & _ & Hr). injection Hr as <- <-.
    destruct ipv6; set_solver.
Qed.

Section facts.
Context {W : Type} `{!ComputeSdk W, !NetworkSdk W, !StorageSdk W, !Limits W, !Store W CoreSubnet, !Store W CoreInstance}.
Context {MR : MapRange} {NP : NodePatcher W} {PL : PatchLaws W} {RF : ReadFrames W nodes_still}.

Lemma getInstanceByNode_reads cp fuel node : frames nodes_still (getInstanceByNode cp fuel node).
Proof.
  apply (frames_bind nodes_still).
  - case_decide; [apply (InstanceID_reads nodes_still)|apply (frames_lift nodes_still (Ret _))].
  - intros pid. apply (frames_bind nodes_still); [apply (frames_lift nodes_still)|]. intros id. apply (GetInstance_reads nodes_still).
Qed.

(** A patch that is tried again on conflicts is applied once if it succeeds. *)
Lemma RetryOnConflict_patch steps name labels annotations w w' :
  Forall plain_entry labels → Forall plain_entry annotations → labels ++ annotations ≠ [] →
  RetryOnConflict steps (Nodes_Patch name (patch_json labels annotations)) w = (Ret (), w') →
  ∃ n, api_nodes w !! name = Some n ∧ api_nodes w' = <[name := patched labels annotations n]> (api_nodes w).
Proof.
  intros H1 H2 H3. revert w. induction steps as [|steps IH]; intros w Hr; [done|]. simpl in Hr.
  unfold report, mbind, M_bind, try in Hr.
  destruct (Nodes_Patch name (patch_json labels annotations) w) as [o w1] eqn:E.
  apply Nodes_Patch_law in E as [Hret Herr]; [|done..]. destruct o as [[]|e|]; [|..|done].
  - injection Hr as <-. auto.
  - destruct (conflict e) eqn:He; [|done]. destruct steps as [|steps]; [done|]. rewrite <-(Herr e eq_refl He). by apply IH.
Qed.

(** If a node is processed without an error, and the API server knows
    at least the labels and annotations of the node that was looked at, then afterwards it
    has the labels of the fault domain (and, in a cluster of IPv6 only, of the availability
    domain) and the annotation of the compartment; other nodes, other labels and other
    annotations are as before.  A patch that meets conflicts is tried at most four times
    and has its effect once. *)
Lemma processItem_labels cp ipv6 fuel key node n w w' :
  (∀ id w i w', csdk_GetInstance id w = (Ret i, w') → plain_instance i) →
  lister_Get cp key = Ret node → api_nodes w !! node_Name node = Some n →
  node_Labels node ⊆ node_Labels n → node_Annotations node ⊆ node_Annotations n →
  processItem cp ipv6 fuel key w = (Ret (), w') →
  ∃ n', api_nodes w' = <[node_Name node := n']> (api_nodes w) ∧ validateNodeHasRequiredLabels ipv6 n' = true ∧
    (∀ k, k ≠ FaultDomainLabel → k ≠ AvailabilityDomainLabel → node_Labels n' !! k = node_Labels n !! k) ∧
    (∀ k, k ≠ CompartmentIDAnnotation → node_Annotations n' !! k = node_Annotations n !! k).
Proof.
  intros Hplain Hget Hn Hl Ha Hr. unfold processItem in Hr. rewrite Hget in Hr. unfold mbind at 1, M_bind at 1, lift in Hr.
  destruct (validateNodeHasRequiredLabels ipv6 node) eqn:Hv.
  { injection Hr as <-. exists n. split_and!; [by rewrite insert_id| |done..]. unfold validateNodeHasRequiredLabels in *.
    rewrite !andb_true_iff, orb_true_iff, !bool_decide_eq_true in *. destruct Hv as [[[x Hx] [y Hy]] Hz].
    split_and!; [exists x; by eapply lookup_weaken|exists y; by eapply lookup_weaken|].
    destruct Hz as [Hz|[z Hz]]; [by left|right; exists z; by eapply lookup_weaken]. }
  apply M_bind_Ret_inv in Hr as (i & w1 & Hi & Hr). apply getInstanceByNode_reads in Hi as Hs1.
  assert (plain_instance i) as Hpi.
  { apply M_bind_Ret_inv in Hi as (pid & w2 & _ & Hi). apply M_bind_Ret_inv in Hi as (id & w3 & _ & Hi).
    unfold GetInstance in Hi. apply limited_Ret_of in Hi as (w4 & _ & Hi). by eapply Hplain. }
  apply M_bind_Ret_inv in Hr as (u & w2 & Hadd & Hr). apply (rf_instances (R := nodes_still)) in Hadd as Hs2.
  apply M_bind_Ret_inv in Hr as (patch & w3 & Hp & Hr). apply lift_Ret_inv in Hp as [Hp ->].
  unfold getNodePatchBytes in Hp. rewrite Hv in Hp. apply bind_Ret_inv in Hp as ([labels annotations] & Hp & Hret).
  injection Hret as <-. destruct (node_patch_plain _ _ _ _ _ Hpi Hp) as (P1 & P2 & P3).
  apply RetryOnConflict_patch in Hr as (n' & Hn' & Hw'); [|done..]. rewrite Hs2, Hs1 in Hn', Hw'. rewrite Hn in Hn'. injection Hn' as <-.
  exists (patched labels annotations n). split_and!; [done|by eapply node_patch_complete|..].
  - intros k H1 H2. simpl. apply lookup_union_r. apply not_elem_of_list_to_map_1.
    intros [?|?]%(proj1 (node_patch_keys _ _ _ _ _ _ Hp)); done.
  - intros k H1. simpl. apply lookup_union_r. apply not_elem_of_list_to_map_1.
    by intros ?%(proj2 (node_patch_keys _ _ _ _ _ _ Hp)).
Qed.
End facts.

(** ** Tags *)

Definition retagged (d : UpdateInstanceDetails) (i : CoreInstance) : CoreInstance := {|
  ci_Id := ci_Id i; ci_CompartmentId := ci_CompartmentId i; ci_DisplayName := ci_DisplayName i;
  ci_AvailabilityDomain := ci_AvailabilityDomain i; ci_FaultDomain := ci_FaultDomain i; ci_Region := ci_Region i;
  ci_Shape := ci_Shape i; ci_LifecycleState := ci_LifecycleState i; ci_FreeformTags := Some (uid_FreeformTags d);
  ci_DefinedTags := Some (uid_DefinedTags d) |}.

Lemma with_openshift_tag_idemp d : with_openshift_tag (with_openshift_tag d) = with_openshift_tag d.
Proof. unfold with_openshift_tag. rewrite lookup_insert_eq. simpl. by rewrite !insert_insert_eq. Qed.

Lemma with_openshift_tag_nonempty d : with_openshift_tag d ≠ ∅.
Proof. apply insert_non_empty. Qed.

(** An instance with all required namespaces has the required tags. *)
Lemma hasRequiredDefinedTags_union (required existing : gmap string (gmap string string)) :
  required ≠ ∅ → hasRequiredDefinedTags (required ∪ existing) (Some required) = true.
Proof.
  intros Hr. unfold hasRequiredDefinedTags. rewrite decide_False by done.
  rewrite decide_False by (intros ?%map_positive_l; done). apply forallb_forall. intros [ns tags] Hin.
  apply list_elem_of_In, elem_of_map_to_list in Hin. rewrite (lookup_union_Some_l _ _ _ _ Hin).
  apply forallb_forall. intros [k v] Hk. apply list_elem_of_In, elem_of_map_to_list in Hk. by apply bool_decide_eq_true.
Qed.

(** What the configuration requires of an instance. *)
Definition required_of (config : option FssTags) : option (gmap string (gmap string string)) :=
  match config with None => Some (with_openshift_tag ∅) | Some t => with_openshift_tag <$> ft_Defined t end.

Section tags.
Context {W : Type} `{!ComputeSdk W, !NetworkSdk W, !StorageSdk W, !Limits W, !Store W CoreSubnet, !Store W CoreInstance}.
Context {CL : ComputeLaws W}.
(** An update that is made changes the tags of the instance. *)
Hypothesis UpdateInstance_law : ∀ id d w o w', csdk_UpdateInstance (Some id) d w = (o, w') →
  inst_still w w' ∨ ∃ i, instances w !! id = Some i ∧ instances w' = <[id := retagged d i]> (instances w).

Lemma required_tags_spec config w o config' w' :
  required_tags (config, w) = (o, (config', w' : W)) →
  w' = w ∧ match required_of config with
           | Some r => required_of config' = Some r ∧ r ≠ ∅ ∧ ∃ t, o = Ret t ∧ ft_Defined t = Some r
           | None => o = Panic ∧ config' = config
           end.
Proof.
  unfold required_tags, required_of. destruct config as [t|]; [destruct (ft_Defined t) as [d|] eqn:Ed|]; intros [= <- <- <-].
  - split; [done|]. simpl. split_and!; [by rewrite with_openshift_tag_idemp|apply with_openshift_tag_nonempty|eauto].
  - done.
  - split; [done|]. split_and!; [done|apply with_openshift_tag_nonempty|eauto].
Qed.

(** The instance is looked at, and then left alone or given the required tags. *)
Lemma ReconcileNodeTags_cases node id config w o config' w' :
  MapProviderIDToResourceID (node_ProviderID node) = Ret id →
  ReconcileNodeTags (Some node) (config, w) = (o, (config', w')) →
  match required_of config with
  | Some r => (config' = config ∨ required_of config' = Some r) ∧ r ≠ ∅ ∧
      (inst_still w w' ∨ ∃ i f, instances w !! id = Some i ∧ countDefinedTags (default ∅ (ci_DefinedTags i)) < definedTagLimit ∧
         hasRequiredDefinedTags (default ∅ (ci_DefinedTags i)) (Some r) = false ∧
         instances w' = <[id := retagged {| uid_FreeformTags := f; uid_DefinedTags := r ∪ default ∅ (ci_DefinedTags i) |} i]> (instances w))
  | None => inst_still w w' ∧ config' = config ∧ ∀ i w1, GetInstance id w = (Ret i, w1) → o = Panic
  end.
Proof using UpdateInstance_law.
  intros Hid Hr. cbn [ReconcileNodeTags] in Hr. rewrite Hid in Hr.
  assert (match required_of config with Some r => r ≠ ∅ | None => True end) as Hne.
  { destruct config as [t|]; simpl; [destruct (ft_Defined t); simpl; [apply with_openshift_tag_nonempty|done]|apply with_openshift_tag_nonempty]. }
  unfold mbind at 1, M_bind at 1, try, on_world in Hr. destruct (GetInstance id w) as [[i|e|] w1] eqn:Eg;
    apply (GetInstance_reads inst_still) in Eg as Hs1.
  2-3: injection Hr as <- <- <-; destruct (required_of config); split_and!; auto; by intros.
  apply GetInstance_Ret in Eg as Hi.
  unfold mbind at 1, M_bind at 1 in Hr. destruct (required_tags (config, w1)) as [ot [config2 w2]] eqn:Ht.
  apply required_tags_spec in Ht as [-> Ht]. destruct (required_of config) as [r|].
  - destruct Ht as (Hreq & _ & t & -> & Hdef). cbv zeta in Hr. rewrite Hdef in Hr.
    destruct (hasRequiredDefinedTags (default ∅ (ci_DefinedTags i)) (Some r)) eqn:Eh; [injection Hr as _ <- <-; split_and!; auto|].
    case_decide as Hlimit; [injection Hr as _ <- <-; split_and!; auto|].
    unfold mbind, M_bind, try, on_world, UpdateInstance in Hr.
    destruct (csdk_UpdateInstance _ _ w1) as [o2 w3] eqn:Eu. assert (config' = config2 ∧ w' = w3) as [-> ->].
    { destruct o2; by injection Hr as _ <- <-. }
    split_and!; [auto|done|]. apply UpdateInstance_law in Eu as [Hs2|(i' & Hi' & Hw3)]; [left; by trans w1|].
    rewrite Hs1, Hi in Hi'. injection Hi' as <-. right. eexists i, _. split_and!; [done|lia|done|].
    by rewrite Hw3, Hs1.
  - destruct Ht as [-> ->]. injection Hr as <- <- <-. by split_and!.
Qed.

(** The tagging controller works on the instance of the node
    and no other.  With a map of defined tags in the configuration the instance is left
    as it is, or, when it has fewer than 64 defined tags and lacks a required one, gets
    the required tags: namespaces that are not required are kept, a required namespace
    replaces what the instance had under that name, and a second pass over the node
    changes nothing more, whatever the compute service answers.  A configuration whose
    map of defined tags is nil panics as soon as the instance is found. *)
Lemma ReconcileNodeTags_correct node id config w o config' w' :
  MapProviderIDToResourceID (node_ProviderID node) = Ret id →
  ReconcileNodeTags (Some node) (config, w) = (o, (config', w')) →
  match required_of config with
  | Some r =>
      (inst_still w w' ∨ ∃ i i', instances w !! id = Some i ∧ instances w' = <[id := i']> (instances w) ∧
         countDefinedTags (default ∅ (ci_DefinedTags i)) < definedTagLimit ∧
         hasRequiredDefinedTags (default ∅ (ci_DefinedTags i')) (Some r) = true ∧
         (∀ ns, default ∅ (ci_DefinedTags i') !! ns = match r !! ns with Some t => Some t | None => default ∅ (ci_DefinedTags i) !! ns end) ∧
         ∀ o2 config2 w2, ReconcileNodeTags (Some node) (config', w') = (o2, (config2, w2)) → inst_still w' w2)
  | None => inst_still w w' ∧ config' = config ∧ ∀ i w1, GetInstance id w = (Ret i, w1) → o = Panic
  end.
Proof using UpdateInstance_law.
  intros Hid Hr. pose proof (ReconcileNodeTags_cases _ _ _ _ _ _ _ Hid Hr) as Hcases.
  destruct (required_of config) as [r|] eqn:Er; [|done].
  destruct Hcases as (Hc & Hne & [Hs|(i & f & Hi & Hlimit & Hhas & Hw')]); [by left|right].
  eexists i, _. split_and!; [done|exact Hw'|done|by apply hasRequiredDefinedTags_union|..].
  - intros ns. simpl. rewrite lookup_union. by destruct (r !! ns), (default ∅ (ci_DefinedTags i) !! ns).
  - intros o2 config2 w2 H2. pose proof (ReconcileNodeTags_cases _ _ _ _ _ _ _ Hid H2) as Hcases.
    replace (required_of config') with (Some r) in Hcases by (destruct Hc as [->| ->]; done).
    destruct Hcases as (_ & _ & [Hs|(i2 & f2 & Hi2 & _ & Hhas2 & _)]); [done|exfalso].
    rewrite Hw', lookup_insert_eq in Hi2. injection Hi2 as <-.
    pose proof (hasRequiredDefinedTags_union r (default ∅ (ci_DefinedTags i)) Hne) as Hu. cbn in Hhas2, Hu. congruence.
Qed.
End tags.
