(* ===== verification/CloudMemory.v ===== *)
(** * Compute, networking and nodes in memory

    A cloud that satisfies the laws of [NetworkingFacts], [InstancesFacts] and
    [NodeControllersFacts], and runs of the provider on it.  Its API server reads the text
    of a patch. *)
From stdpp Require Import base tactics list gmap sets strings.
From Stdlib Require Import Ascii.
From S2P Require Import Prelude GoStrings GoNet Types ClientErrors ClientCalls NetworkSecurityGroups SecurityListManager Annotations Spec LoadBalancer Handlers StorageClient StorageMemory FileStorage FileStorageMemory NetworkingClient ComputeClient NetworkingFacts Instances InstancesFacts NodeControllers NodeControllersFacts.

(** ** Reading a patch *)

(** The entries of the sections of a patch: what is between quotes, and what is between
    those.  An entry ends with a comma, with the next section or with the text. *)
Fixpoint patch_entries (section : string) (fields : list string) : option (list (string * (string * string))) :=
  match fields with
  | k :: _ :: v :: sep :: rest =>
      cons (section, (k, v)) <$>
        (if decide (sep = ",") then patch_entries section rest
         else if decide (sep = "},") then match rest with name :: _ :: rest => patch_entries name rest | _ => None end
         else Some [])
  | _ => None
  end.

Definition section_of (name : string) (entries : list (string * (string * string))) : list (string * string) :=
  (filter (λ e, e.1 = name) entries).*2.

Definition read_patch (text : string) : option (list (string * string) * list (string * string)) :=
  match split_on "034" text with
  | _ :: _ :: _ :: name :: _ :: rest =>
      entries ← patch_entries name rest; Some (section_of "labels" entries, section_of "annotations" entries)
  | _ => None
  end.

Fixpoint entry_fields (entries : list (string * string)) : list string :=
  match entries with
  | [] => []
  | [(k, v)] => [k; ":"; v]
  | (k, v) :: entries => k :: ":" :: v :: "," :: entry_fields entries
  end.

Lemma json_plain_no_quote s : json_plain s = true → has_byte "034" s = false.
Proof.
  induction s as [|c s IH]; [done|]. cbn [json_plain has_byte]. rewrite !andb_true_iff, !bool_decide_eq_true.
  intros [[[_ Hc] _] Hs]. rewrite (bool_decide_eq_false_2 _ Hc). by apply IH.
Qed.

Lemma split_json_string s rest :
  has_byte "034" s = false → split_on "034" (json_string s +:+ rest) = "" :: s :: split_on "034" rest.
Proof.
  intros Hs. unfold json_string, json_quote. rewrite <-!append_assoc. simpl. f_equal. by apply split_on_app.
Qed.

Lemma split_byte c s f fs : c ≠ "034"%char → split_on "034" s = f :: fs → split_on "034" (String c s) = String c f :: fs.
Proof. intros Hc Hs. simpl. rewrite decide_False by done. by rewrite Hs. Qed.

Lemma split_entry k v rest :
  plain_entry (k, v) →
  split_on "034" ((json_string k +:+ ":" +:+ json_string v) +:+ rest) = "" :: k :: ":" :: v :: split_on "034" rest.
Proof.
  intros [Hk Hv]. rewrite <-!append_assoc, split_json_string by (by apply json_plain_no_quote). do 2 f_equal.
  eapply (split_byte ":"); [done|]. apply split_json_string. by apply json_plain_no_quote.
Qed.

Abbreviation json_entries e := (join "," ((λ kv : string * string, json_string kv.1 +:+ ":" +:+ json_string kv.2) <$> e)).

Lemma split_entries e rest :
  e ≠ [] → Forall plain_entry e →
  split_on "034" (json_entries e +:+ rest) = "" :: entry_fields e ++ split_on "034" rest.
Proof.
  intros Hne He. revert rest. induction He as [|[k v] e Hkv He IH]; intros rest; [done|].
  destruct e as [|kv e]; [by apply split_entry|].
  rewrite fmap_cons, join_cons by done. rewrite <-append_assoc, split_entry by done.
  change (entry_fields ((k, v) :: kv :: e)) with (k :: ":" :: v :: "," :: entry_fields (kv :: e)).
  cbn [fst snd app]. do 4 f_equal. rewrite <-append_assoc. apply (split_byte ","); [done|]. by apply IH.
Qed.

(** Entries that end with the text or with the next section. *)
Lemma patch_entries_fields name e sep rest more :
  e ≠ [] → sep ≠ "," →
  (if decide (sep = "},") then match rest with name :: _ :: rest => patch_entries name rest | _ => None end else Some []) = Some more →
  patch_entries name (entry_fields e ++ sep :: rest) = Some ((pair name <$> e) ++ more).
Proof.
  intros Hne Hsep Hmore. induction e as [|[k v] e IH]; [done|]. destruct e as [|kv e].
  - simpl. rewrite (decide_False (P := sep = ",")) by done. by rewrite Hmore.
  - change (entry_fields ((k, v) :: kv :: e)) with (k :: ":" :: v :: "," :: entry_fields (kv :: e)).
    cbn [app patch_entries]. rewrite decide_True, IH by done. done.
Qed.

Lemma section_of_pair name c l : section_of name (pair c <$> l) = if decide (c = name) then l else [].
Proof.
  unfold section_of. case_decide as Hc; induction l as [|x l IH]; [done| |done|]; rewrite fmap_cons.
  - rewrite filter_cons_True by done. rewrite fmap_cons. by f_equal.
  - by rewrite filter_cons_False.
Qed.

Lemma section_of_app name l k : section_of name (l ++ k) = section_of name l ++ section_of name k.
Proof. unfold section_of. by rewrite filter_app, fmap_app. Qed.

(** The text of a patch is read as it was meant. *)
Lemma read_patch_json labels annotations :
  Forall plain_entry labels → Forall plain_entry annotations → labels ++ annotations ≠ [] →
  read_patch (patch_json labels annotations) = Some (labels, annotations).
Proof.
  intros Hl Ha Hne. unfold read_patch, patch_json.
  assert (∀ name e rest, has_byte "034" name = false → e ≠ [] → Forall plain_entry e →
    split_on "034" ((json_string name +:+ ": {" +:+ json_entries e +:+ "}") +:+ rest)
    = "" :: name :: ": {" :: entry_fields e ++ split_on "034" ("}" +:+ rest)) as Hsec.
  { intros name e rest Hname He Hp. rewrite <-!append_assoc, split_json_string by done. do 2 f_equal.
    do 3 (eapply split_byte; [done|]). by apply split_entries. }
  assert (∀ text name rest, split_on "034" text = "" :: name :: rest →
    split_on "034" ("{" +:+ json_string "metadata" +:+ ": {" +:+ text) = "{" :: "metadata" :: ": {" :: name :: rest) as Hhead.
  { intros text name rest Ht. apply (split_byte "{" _ ""); [done|]. rewrite split_json_string by done. do 2 f_equal.
    by do 3 (apply split_byte; [done|]). }
  destruct labels as [|l labels], annotations as [|a annotations]; [done|..]; cbn [json_map app join].
  - erewrite Hhead by by apply Hsec. cbn [app]. change (split_on "034" ("}" +:+ "}}")) with ["}}}"].
    rewrite (patch_entries_fields _ _ _ _ []) by done. unfold mbind, option_bind.
    by rewrite app_nil_r, !section_of_pair.
  - erewrite Hhead by by apply Hsec. cbn [app]. change (split_on "034" ("}" +:+ "}}")) with ["}}}"].
    rewrite (patch_entries_fields _ _ _ _ []) by done. unfold mbind, option_bind.
    by rewrite app_nil_r, !section_of_pair.
  - rewrite <-(append_assoc _ _ "}}"). erewrite Hhead by by apply Hsec. cbn [app].
    rewrite <-(append_assoc "," _ "}}"). assert (∀ text name rest, split_on "034" text = "" :: name :: rest →
      split_on "034" ("}" +:+ "," +:+ text) = "}," :: name :: rest) as Hnext.
    { intros text name rest Ht. by do 2 (apply split_byte; [done|]). }
    erewrite Hnext by by apply Hsec. change (split_on "034" ("}" +:+ "}}")) with ["}}}"].
    rewrite (patch_entries_fields _ _ _ _ (pair "annotations" <$> a :: annotations)); [|done..|].
    + unfold mbind, option_bind. by rewrite !section_of_app, !section_of_pair, app_nil_r.
    + rewrite decide_True by done. cbn [app]. by rewrite (patch_entries_fields _ _ _ _ []), app_nil_r.
Qed.

(** ** A cloud *)

Record cloud := {
  cl_rules : nsg_store;
  cl_lists : gmap string SecurityList;
  cl_subnet_cache : gmap string CoreSubnet;
  cl_instances : gmap string CoreInstance;
  cl_instance_cache : gmap string CoreInstance;
  cl_nodes : gmap string Node;
}.

Definition with_rules_of w rules : cloud := {|
  cl_rules := rules; cl_lists := cl_lists w; cl_subnet_cache := cl_subnet_cache w; cl_instances := cl_instances w;
  cl_instance_cache := cl_instance_cache w; cl_nodes := cl_nodes w |}.
Definition with_lists_of w lists : cloud := {|
  cl_rules := cl_rules w; cl_lists := lists; cl_subnet_cache := cl_subnet_cache w; cl_instances := cl_instances w;
  cl_instance_cache := cl_instance_cache w; cl_nodes := cl_nodes w |}.
Definition with_caches w subnets instances : cloud := {|
  cl_rules := cl_rules w; cl_lists := cl_lists w; cl_subnet_cache := subnets; cl_instances := cl_instances w;
  cl_instance_cache := instances; cl_nodes := cl_nodes w |}.
Definition with_instances w instances : cloud := {|
  cl_rules := cl_rules w; cl_lists := cl_lists w; cl_subnet_cache := cl_subnet_cache w; cl_instances := instances;
  cl_instance_cache := cl_instance_cache w; cl_nodes := cl_nodes w |}.
Definition with_nodes w nodes : cloud := {|
  cl_rules := cl_rules w; cl_lists := cl_lists w; cl_subnet_cache := cl_subnet_cache w; cl_instances := cl_instances w;
  cl_instance_cache := cl_instance_cache w; cl_nodes := nodes |}.

(** Instances whose id is the one they are stored under, and whose values JSON writes as
    they are. *)
Definition plain_value (o : option string) : bool := match o with Some s => json_plain s | None => true end.
Definition cloud_instances (w : cloud) : gmap string CoreInstance :=
  filter (λ x, ci_Id x.2 = Some x.1 ∧ forallb plain_value [ci_AvailabilityDomain x.2; ci_FaultDomain x.2; ci_CompartmentId x.2] = true)
    (cl_instances w).

(** What a search by a value asks for, if it is given. *)
Definition asked (wanted : option string) (value : option string) : Prop :=
  match wanted with Some _ => value = wanted | None => True end.
#[global] Instance asked_dec wanted value : Decision (asked wanted value).
Proof. destruct wanted; simpl; apply _. Defined.

Definition listed_instances (c : string) (ad n : option string) (w : cloud) : list CoreInstance :=
  filter (λ i, ci_CompartmentId i = Some c ∧ asked ad (ci_AvailabilityDomain i) ∧ asked n (ci_DisplayName i))
    (map_to_list (cloud_instances w)).*2.

Definition answer {A} (o : cloud → option A) : M cloud A := λ w,
  (match o w with Some a => Ret a | None => Err missing_resource end, w).

(** Networks do not change: a subnet, and three VNICs of each instance; one is of a boot
    volume of OpenShift. *)
Definition cloud_subnets : gmap string CoreSubnet := {["subnet" := {|
  cs_subnet := {| subnet_Id := "subnet"; subnet_CidrBlock := Some "10.0.0.0/24"; subnet_Ipv6CidrBlock := None;
                  subnet_Ipv6CidrBlocks := Some ["fd00::/64"]; subnet_SecurityListIds := ["sl-nodes"] |};
  cs_AvailabilityDomain := None; cs_VcnId := Some "vcn" |} ]}.
Definition cloud_vnic : CoreVnic := {|
  cv_vnic := {| vnic_PrivateIp := Some "10.0.0.7"; vnic_Ipv6Addresses := ["fd00:0::7"]; vnic_SubnetId := Some "subnet" |};
  cv_IsPrimary := Some true; cv_PublicIp := Some "192.0.2.7"; cv_HostnameLabel := Some "node"; cv_DefinedTags := None |}.
Definition secondary_vnic (address : string) (tags : option (gmap string (gmap string string))) : CoreVnic := {|
  cv_vnic := {| vnic_PrivateIp := Some address; vnic_Ipv6Addresses := []; vnic_SubnetId := Some "subnet" |};
  cv_IsPrimary := Some false; cv_PublicIp := None; cv_HostnameLabel := None; cv_DefinedTags := tags |}.
Definition vnic_with_id (id : string) : CoreVnic :=
  if decide (id = "boot") then secondary_vnic "10.0.1.7" (Some {[openshiftTagNamespace := {[OpenShiftBootVolumeType := OpenShiftBootVolumeISCSI]}]})
  else if decide (id = "spare") then secondary_vnic "10.0.2.7" None else cloud_vnic.
Definition attachment_of (vnic instance : string) : VnicAttachment := {|
  vat_Id := Some ("attachment of " +:+ instance); vat_InstanceId := Some instance; vat_VnicId := Some vnic;
  vat_LifecycleState := VnicAttached |}.
Definition cloud_attachment (instance : string) : VnicAttachment := attachment_of "vnic" instance.

Definition cloud_compute : ComputeSdk cloud := {|
  csdk_GetInstance id := answer (λ w, cloud_instances w !! id);
  csdk_ListInstances c ad n _ w := (Ret (listed_instances c ad n w, None), w);
  csdk_ListVnicAttachments c i _ w :=
    (Ret (match i with Some i => [attachment_of "spare" i; cloud_attachment i; attachment_of "boot" i] | None => cloud_attachment <$> (map_to_list (cloud_instances w)).*1 end, None), w);
  csdk_UpdateInstance id d w :=
    match id with
    | Some id =>
        match cloud_instances w !! id with
        | Some i => (Ret (retagged d i), with_instances w (<[id := retagged d i]> (cl_instances w)))
        | None => (Err missing_resource, w)
        end
    | None => (Err missing_resource, w)
    end;
|}.

(** Runs a step of a part of the cloud. *)
Definition on_part {S A} (get : cloud → S) (set : cloud → S → cloud) (c : M S A) : M cloud A := λ w,
  let '(o, s) := c (get w) in (o, set w s).

Definition cloud_network : NetworkSdk cloud :=
  let missing {A} w : outcome A * cloud := (Err missing_resource, w) in {|
  nsdk_GetVnic id w := (Ret (vnic_with_id id), w);
  nsdk_GetSubnet id := answer (λ _, cloud_subnets !! id);
  nsdk_GetVcn id w := (Ret {| vcn_Id := Some id; vcn_DnsLabel := None |}, w);
  nsdk_GetSecurityList id := on_part cl_lists with_lists_of (SecurityListManager.GetSecurityList id);
  nsdk_UpdateSecurityList id etag ing eg := on_part cl_lists with_lists_of (SecurityListManager.UpdateSecurityList id etag ing eg);
  nsdk_GetPrivateIp id := missing; nsdk_GetPublicIpByIpAddress ip := missing; nsdk_ListPrivateIps v page := missing;
  nsdk_CreatePrivateIp v := missing; nsdk_GetIpv6 id := missing;
  nsdk_CreateNetworkSecurityGroup c v n tags uid := missing;
  nsdk_GetNetworkSecurityGroup id := on_part cl_rules with_rules_of (NetworkSecurityGroups.GetNetworkSecurityGroup id);
  nsdk_ListNetworkSecurityGroups n c v page := missing; nsdk_UpdateNetworkSecurityGroup id etag tags := missing;
  nsdk_DeleteNetworkSecurityGroup id etag := missing;
  nsdk_AddSecurityRules id ds :=
    on_part cl_rules with_rules_of (NetworkSecurityGroups.AddNetworkSecurityGroupSecurityRules id ds);
  nsdk_RemoveSecurityRules id ids :=
    on_part cl_rules with_rules_of (NetworkSecurityGroups.RemoveNetworkSecurityGroupSecurityRules id ids);
  nsdk_ListSecurityRules id dir _ w :=
    (Ret (filter (λ r, nr_Direction r = dir) (store_view (cl_rules w) id), None), w);
  nsdk_UpdateSecurityRules id ds := missing;
|}.

Definition cloud_subnet_cache : Store cloud CoreSubnet := {|
  store_GetByKey k w := (Ret (cl_subnet_cache w !! k), w);
  store_Add s w := (Ret (), with_caches w (<[subnetCacheKeyFn s := s]> (cl_subnet_cache w)) (cl_instance_cache w));
  store_List w := (Ret (map_to_list (cl_subnet_cache w)).*2, w);
|}.
Definition cloud_instance_cache : Store cloud CoreInstance := {|
  store_GetByKey k w := (Ret (cl_instance_cache w !! k), w);
  store_Add i w :=
    match ci_Id i with
    | Some id => (Ret (), with_caches w (cl_subnet_cache w) (<[id := i]> (cl_instance_cache w)))
    | None => (Err missing_resource, w)
    end;
  store_List w := (Ret (map_to_list (cl_instance_cache w)).*2, w);
|}.
Definition cloud_patcher : NodePatcher cloud := {|
  Nodes_Patch name text w :=
    match cl_nodes w !! name, read_patch text with
    | Some n, Some (labels, annotations) => (Ret (), with_nodes w (<[name := patched labels annotations n]> (cl_nodes w)))
    | _, _ => (Err (KubeNotFound name), w)
    end;
  conflict _ := false;
|}.
#[local] Existing Instances cloud_compute cloud_network cloud_subnet_cache cloud_instance_cache cloud_patcher.
#[local] Existing Instances domains_only fss_limits_open list_range.

(** ** The laws *)

Lemma answer_inv {A} (o : cloud → option A) w r w' : answer o w = (r, w') → w' = w ∧ ∀ a, r = Ret a → o w = Some a.
Proof. unfold answer. intros [= <- <-]. split; [done|]. intros a. destruct (o w); naive_solver. Qed.

Lemma on_part_inv {S A} get set (c : M S A) w o w' :
  on_part get set c w = (o, w') → ∃ s, c (get w) = (o, s) ∧ w' = set w s.
Proof. unfold on_part. destruct (c (get w)) as [o1 s]. intros [= <- <-]. eauto. Qed.

Definition cloud_network_laws : NetworkLaws cloud.
Proof.
  refine {| net_rules w := store_view (cl_rules w); net_lists w := memory_lookup (cl_lists w) |}.
  - intros w id. apply store_ids.
  - intros w id sl. exact (seclist_id (W := gmap string SecurityList) (cl_lists w) id sl).
  - done.
  - intros id w g etag w' (s & Hs & ->)%on_part_inv. by injection Hs as <- <- <-.
  - intros id dir page w o w' [= _ <-]. done.
  - intros id dir w. exists (λ _, (filter (λ r, nr_Direction r = dir) (store_view (cl_rules w) id), None)). split.
    + intros w1 page items next w2 Hw [= <- <- _]. by rewrite Hw.
    + intros ps ->%one_page. simpl. by rewrite app_nil_r.
  - intros id ds w w' (s & Hs & ->)%on_part_inv. by apply (AddNsg_law (W := nsg_store)) in Hs.
  - intros id ids w w' (s & Hs & ->)%on_part_inv. by apply (RemoveNsg_law (W := nsg_store)) in Hs.
  - intros id w sl etag w' (s & Hs & ->)%on_part_inv. simpl in *. by destruct (memory_lookup (cl_lists w) id); simplify_eq.
  - intros id etag ing eg w w' (s & Hs & ->)%on_part_inv. by apply (UpdateSecurityList_law (W := gmap string SecurityList)) in Hs.
Defined.

(** The cache of a map. *)
Definition cloud_subnet_store : StoreLaws cloud CoreSubnet (λ s, Some (subnetCacheKeyFn s)).
Proof.
  refine {| cached := cl_subnet_cache |}.
  - intros k w o w' [= <- <-]. split; [done|]. by intros a [= Ha].
  - intros s w o w' [= _ <-] k b. simpl. intros [[<- <-]|[_ ?]]%lookup_insert_Some; auto.
  - intros w o w' [= <- <-]. split; [done|]. intros l s [= <-] ([k s'] & -> & Hk%elem_of_map_to_list)%list_elem_of_fmap. eauto.
Defined.

(** What is known of a subnet: it is the one that the service has. *)
Definition in_service (id : string) (s : CoreSubnet) : Prop := cloud_subnets !! id = Some s.

Definition cloud_subnet_facts : SubnetFacts cloud in_service.
Proof.
  refine {| subnet_store := cloud_subnet_store |}.
  - intros id w s w' [_ Hs]%answer_inv. specialize (Hs s eq_refl). split; [|done].
    unfold cloud_subnets in Hs. apply lookup_singleton_Some in Hs as [<- <-]. done.
  - done.
  - intros id w o w' [-> _]%answer_inv. done.
Defined.

(** Reads see only the caches change. *)
Lemma cloud_reads (R : cloud → cloud → Prop) `{!PreOrder R} :
  (∀ w s i, R w (with_caches w s i)) → ReadFrames cloud R.
Proof.
  intros HR. constructor; [done|done|..]; try by intros; intros w o w' [= _ <-].
  - split; [by intros k w o w' [= _ <-]|]. intros s w o w' [= _ <-]. apply HR.
  - split; [by intros k w o w' [= _ <-]|]. intros i w o w'. simpl. destruct (ci_Id i); intros [= _ <-]; [apply HR|done].
Qed.

Definition cloud_compute_laws : ComputeLaws cloud.
Proof.
  refine {| instances := cloud_instances |}.
  - intros w id i [_ [Hid _]]%map_lookup_filter_Some. done.
  - apply cloud_reads; [|done]. split; [done|]. intros w1 w2 w3 H1 H2. by trans (cloud_instances w2).
  - intros id w i w' [_ Hi]%answer_inv. auto.
  - intros c ad n w. exists (λ _, (listed_instances c ad n w, None)). split.
    + intros w1 page items next w2 Hw [= <- <- _]. unfold listed_instances. by rewrite Hw.
    + intros ps ->%one_page i. unfold listed_instances. simpl. rewrite app_nil_r, list_elem_of_filter, list_elem_of_fmap. split.
      * intros ((Hc & Had & Hn) & [id j] & -> & Hj%elem_of_map_to_list). split_and!; [eauto|done|by intros a ->..].
      * intros ([id Hi] & Hc & Had & Hn). split; [|exists (id, i); split; [done|by apply elem_of_map_to_list]].
        split_and!; [done|destruct ad; [by apply Had|done]|destruct n; [by apply Hn|done]].
Defined.

Definition cloud_patch_laws : PatchLaws cloud.
Proof.
  refine {| api_nodes := cl_nodes |}. intros name labels annotations w o w' Hl Ha Hne. simpl.
  rewrite read_patch_json by done. destruct (cl_nodes w !! name) as [n|] eqn:En; intros [= <- <-]; [|done].
  split; [|done]. intros _. by exists n.
Defined.

Lemma cloud_node_reads : let _ := cloud_patch_laws in ReadFrames cloud nodes_still.
Proof. intros P. apply cloud_reads; [|done]. split; [done|]. intros w1 w2 w3 H1 H2. by trans (api_nodes w2). Qed.

Lemma cloud_update : let _ := cloud_compute_laws in ∀ id d (w : cloud) o w', csdk_UpdateInstance (Some id) d w = (o, w') →
  inst_still w w' ∨ ∃ i, instances w !! id = Some i ∧ instances w' = <[id := retagged d i]> (instances w).
Proof.
  intros L id d w o w'. simpl. destruct (cloud_instances w !! id) as [i|] eqn:Ei; intros [= _ <-]; [right|by left].
  exists i. split; [done|]. unfold cloud_instances in *. simpl. apply map_filter_insert_True. simpl.
  by apply map_lookup_filter_Some in Ei as [_ ?].
Qed.

Lemma cloud_plain id (w : cloud) i w' : csdk_GetInstance id w = (Ret i, w') → plain_instance i.
Proof.
  intros [_ Hi]%answer_inv s Hs. specialize (Hi i eq_refl). apply map_lookup_filter_Some in Hi as [_ [_ Hi]].
  cbn [forallb fst snd] in Hi. rewrite !andb_true_iff in Hi. destruct Hi as (H1 & H2 & H3 & _).
  destruct Hs as [Hs|[Hs|Hs]]; [by rewrite Hs in H1|by rewrite Hs in H2|by rewrite Hs in H3].
Qed.

(** ** Runs *)

#[local] Existing Instances cloud_network_laws cloud_subnet_facts cloud_compute_laws cloud_patch_laws cloud_node_reads.

Definition cloud_node : Node := {|
  node_Name := "node"; node_Labels := {[IPv6NodeIPFamilyLabel := "true"]}; node_Annotations := {[CompartmentIDAnnotation := "compartment"]};
  node_ProviderID := "oci://instance"; node_Addresses := []; node_Conditions := [] |}.
Definition cloud_instance : CoreInstance := {|
  ci_Id := Some "instance"; ci_CompartmentId := Some "compartment"; ci_DisplayName := Some "node";
  ci_AvailabilityDomain := Some "zkJl:PHX-AD-1"; ci_FaultDomain := Some "FAULT-DOMAIN-1"; ci_Region := Some "phx";
  ci_Shape := Some "VM"; ci_LifecycleState := "RUNNING"; ci_FreeformTags := None;
  ci_DefinedTags := Some {["team" := {["name" := "storage"]}; openshiftTagNamespace := {["role" := "worker"]}]} |}.
Definition cloud_provider : CloudProvider := {|
  cp_CompartmentID := "compartment"; cp_VCNID := "vcn"; cp_Subnet1 := "subnet"; cp_Subnet2 := "";
  cp_Tags := None; cp_prefixEnv := ""; cp_enableOkeSystemTags := false; cp_NodeLister := inr [cloud_node];
  cp_Secrets _ _ := inl NotFoundErr; cp_securityListManagerFactory _ := securityListManagerNOOP |}.
Definition cloud_start : cloud := {|
  cl_rules := []; cl_lists := ∅; cl_subnet_cache := ∅; cl_instances := {["instance" := cloud_instance]};
  cl_instance_cache := ∅; cl_nodes := {["node" := cloud_node]} |}.

(** The groups of the cloud are those that the load balancer controller is verified for. *)
Lemma networking_refines_witness :
  let _ := networking_nsgs (W := cloud) 1 in ∃ L : NsgLaws cloud, ∀ w id, nsg_rules w id = store_view (cl_rules w) id.
Proof. exact (proj1 (networking_refines (W := cloud) 1)). Defined.

(** The subnet of the service is cached and found by an address in it. *)
Definition cached_cloud := (GetSubnet "subnet" cloud_start).2.
Lemma subnet_cache_correct_witness :
  cache_known in_service cloud_start ∧
  GetSubnetFromCacheByIP {| V4 := "10.0.0.9"; V6 := "" |} cached_cloud = (Ret (cloud_subnets !! "subnet"), cached_cloud) ∧
  ∀ s, GetSubnet "subnet" cloud_start = (Ret s, cached_cloud) → in_service "subnet" s.
Proof.
  assert (cache_known in_service cloud_start) as Hw by apply map_Forall_empty.
  split; [done|]. split; [vm_compute; reflexivity|]. intros s Hs.
  destruct (subnet_cache_correct in_service cloud_start Hw) as [Hget _]. by apply (Hget "subnet" (Ret s) cached_cloud Hs).
Defined.

(** An instance that exists, and one that is asked for by its provider id and is gone: the
    compartment is looked for under the provider id, and none is found. *)
Definition gone : cloud := with_instances cloud_start ∅.
Lemma InstanceExists_safe_witness :
  InstanceExistsByProviderID cloud_provider 1 "oci://instance" cloud_start = (Ret true, cloud_start) ∧
  InstanceExistsByProviderID cloud_provider 1 "oci://instance" gone = (Err annotation_missing, gone) ∧
  ∃ id, is_Some (instances cloud_start !! id) ∧ (id = "oci://instance" ∨ MapProviderIDToResourceID "oci://instance" = Ret id).
Proof.
  split; [vm_compute; reflexivity|]. split; [vm_compute; reflexivity|].
  apply (InstanceExists_safe cloud_provider 1 "oci://instance" cloud_start (Ret true) cloud_start); [|reflexivity].
  vm_compute; reflexivity.
Defined.

Lemma GetInstanceByNodeName_correct_witness :
  GetInstanceByNodeName 1 "compartment" "vcn" "node" cloud_start = (Ret cloud_instance, cloud_start) ∧ alive cloud_instance cloud_start.
Proof.
  split; [vm_compute; reflexivity|].
  apply (GetInstanceByNodeName_correct 1 "compartment" "vcn" "node" cloud_start cloud_instance cloud_start).
  vm_compute; reflexivity.
Defined.

(** The private and the public address, the IPv6 address in its shortest form, the address
    of the boot volume and the IPv6 address again. *)
Lemma extractNodeAddresses_typed_witness :
  let v6 := {| addr_Type := NodeInternalIPType; addr_Address := "fd00::7" |} in
  let l := [{| addr_Type := NodeInternalIPType; addr_Address := "10.0.0.7" |}; {| addr_Type := NodeExternalIPType; addr_Address := "192.0.2.7" |};
            v6; {| addr_Type := NodeInternalIPType; addr_Address := "10.0.1.7" |}; v6] in
  extractNodeAddresses cloud_provider 1 "instance" cloud_start = (Ret l, cloud_start) ∧ Forall well_formed l ∧
  addresses_of cloud_provider 1 "instance" cloud_start l cloud_start.
Proof.
  intros v6 l. assert (extractNodeAddresses cloud_provider 1 "instance" cloud_start = (Ret l, cloud_start)) as Hr by (vm_compute; reflexivity).
  split; [done|]. exact (extractNodeAddresses_typed cloud_provider 1 "instance" cloud_start l cloud_start Hr).
Defined.

(** The node has the annotation, and gets the labels. *)
Definition labelled := (processItem cloud_provider true 1 "node" cloud_start).2.
Lemma processItem_labels_witness :
  validateNodeHasRequiredLabels true cloud_node = false ∧
  ∃ n, api_nodes labelled = <["node" := n]> (api_nodes cloud_start) ∧ validateNodeHasRequiredLabels true n = true ∧
    node_Labels n !! IPv6NodeIPFamilyLabel = Some "true".
Proof.
  split; [reflexivity|].
  destruct (processItem_labels cloud_provider true 1 "node" cloud_node cloud_node cloud_start labelled) as (n & Hn & Hv & Hl & _).
  - exact cloud_plain.
  - reflexivity.
  - reflexivity.
  - reflexivity.
  - reflexivity.
  - vm_compute; reflexivity.
  - exists n. split; [exact Hn|]. split; [exact Hv|]. rewrite Hl; [reflexivity|vm_compute; discriminate..].
Defined.

(** The tags of another team are kept; the role that the instance had in the namespace of
    OpenShift is lost. *)
Definition cloud_tagged := (ReconcileNodeTags (Some cloud_node) (None, cloud_start)).2.2.
Lemma ReconcileNodeTags_correct_witness :
  ci_DefinedTags <$> instances cloud_tagged !! "instance" =
    Some (Some {["team" := {["name" := "storage"]}; openshiftTagNamespace := {[openshiftTagKey := openshiftTagValue]}]}) ∧
  ∀ o config w, ReconcileNodeTags (Some cloud_node) (None, cloud_tagged) = (o, (config, w)) → inst_still cloud_tagged w.
Proof.
  split; [vm_compute; reflexivity|].
  destruct (ReconcileNodeTags_correct cloud_update cloud_node "instance" None cloud_start (Ret ()) None cloud_tagged) as [Hs|(i & i' & _ & _ & _ & _ & _ & Hagain)].
  - reflexivity.
  - vm_compute; reflexivity.
  - exfalso. apply (f_equal (λ m, ci_FreeformTags <$> m !! "instance")) in Hs. vm_compute in Hs. discriminate Hs.
  - exact Hagain.
Defined.
