(* ===== verification/LustreClient.v ===== *)
(** * The client of the Lustre service (src/pkg/oci/client/lustre.go)

    Lustre file systems and their work requests over the class [LustreSdk]. *)
From stdpp Require Import base tactics list gmap sets strings.
From S2P Require Import Prelude GoStrings ClientErrors ClientCalls NetworkingClient FileStorageClient.

(** ** Types of the SDK *)

Record LustreFileSystem := {
  lfs_Id : option string;
  lfs_LifecycleState : string;
  lfs_ManagementServiceAddress : option string;
  lfs_Lnet : option string;
  lfs_FileSystemName : option string;
  lfs_CapacityInGBs : option Z;
}.

Record LustreFileSystemSummary := { lsum_Id : option string }.
Record LustreWorkRequest := { lwr_Id : option string; lwr_OperationType : string }.
Record LustreWorkRequestError := { lwe_Message : option string }.

Record RootSquashConfiguration := {
  rsc_IdentitySquash : string;
  rsc_ClientExceptions : list string;
  rsc_SquashUid : option Z;
  rsc_SquashGid : option Z;
}.

Record CreateLustreFileSystemDetails := {
  lcd_DisplayName : string;
  lcd_CompartmentId : string;
  lcd_AvailabilityDomain : string;
  lcd_FileSystemName : string;
  lcd_CapacityInGBs : Z;
  lcd_SubnetId : string;
  lcd_PerformanceTier : string;
  lcd_RootSquash : RootSquashConfiguration;
  lcd_FreeformTags : option (gmap string string);
  lcd_DefinedTags : option (gmap string (gmap string string));
  lcd_KmsKeyId : option string;
  lcd_NsgIds : list string;
}.

(** Creation has a retry token; listings are by compartment, and by availability domain
    and name if given. *)
Class LustreSdk (W : Type) := {
  lsdk_Create : CreateLustreFileSystemDetails → string → M W LustreFileSystem;
  lsdk_Get : string → M W LustreFileSystem;
  lsdk_List : string → option string → option string → option string → M W (list LustreFileSystemSummary * option string);
  lsdk_Delete : string → M W ();
  lsdk_ListWorkRequests : string → string → option string → M W (list LustreWorkRequest * option string);
  lsdk_ListWorkRequestErrors : string → option string → M W (list LustreWorkRequestError * option string);
}.

Definition lustreDefaultCreateInterval : Z := 30.
Definition lustreDefaultDeleteInterval : Z := 45.

Section client.
Context {W : Type} `{!LustreSdk W, !Limits W}.

Definition CreateLustreFileSystem (details : CreateLustreFileSystemDetails) : M W LustreFileSystem :=
  writer_limited (RateLimitError false "CreateLustreFileSystem") (lsdk_Create details (lcd_DisplayName details)).
Definition GetLustreFileSystem (id : string) : M W LustreFileSystem := limited false "GetLustreFileSystem" (lsdk_Get id).
Definition DeleteLustreFileSystem (id : string) : M W () := limited true "DeleteLustreFileSystem" (lsdk_Delete id).

(** A filter that is given and not empty. *)
Definition given (s : string) : option string := if decide (s = "") then None else Some s.

Definition ListLustreFileSystems (fuel : nat) (compartmentID ad displayName : string) : M W (list LustreFileSystemSummary) :=
  all_pages fuel "ListLustreFileSystems" (lsdk_List compartmentID (given ad) (given displayName)).
Definition Lustre_ListWorkRequests (fuel : nat) (compartmentID resourceID : string) : M W (list LustreWorkRequest) :=
  all_pages fuel "ListWorkRequests" (lsdk_ListWorkRequests compartmentID resourceID).
Definition ListWorkRequestErrors (fuel : nat) (workRequestID : string) : M W (list LustreWorkRequestError) :=
  all_pages fuel "ListWorkRequestErrors" (lsdk_ListWorkRequestErrors workRequestID).

(** [wait.PollUntilContextCancel], which tries the condition at once: the error of the
    context is answered when it is done. *)
Fixpoint poll_context {A} (ticks : nat) (condition : M W (option A)) : M W A :=
  done ← condition;
  match done, ticks with
  | Some a, _ => mret a
  | None, 0 => fail DeadlineExceeded
  | None, S ticks => poll_context ticks condition
  end.
Definition PollUntilContextCancel {A} (ctx : context) (interval : Z) (condition : M W (option A)) : M W A := λ w,
  poll_context (ctx_ticks ctx interval w) condition w.

Definition lustre_active (fs : LustreFileSystem) : outcome bool :=
  let state := lfs_LifecycleState fs in
  if decide (state = Active) then mret true
  else if decide (state = Deleting ∨ state = Deleted ∨ state = Failed)
  then Err (Errorf "LustreFileSystem is in lifecycle state %q" [state])
  else mret false.
Definition AwaitLustreFileSystemActive (ctx : context) (id : string) : M W LustreFileSystem :=
  PollUntilContextCancel ctx lustreDefaultCreateInterval (poll_active (GetLustreFileSystem id) lustre_active).

(** A file system that is not found is deleted. *)
Definition lustre_deleted (id : string) : M W (option ()) :=
  r ← try (GetLustreFileSystem id);
  match r with
  | inl err => if IsNotFound (Some err) then mret (Some ()) else fail err
  | inr fs => mret (if decide (lfs_LifecycleState fs = Deleted) then Some () else None)
  end.
Definition AwaitLustreFileSystemDeleted (ctx : context) (id : string) : M W () :=
  PollUntilContextCancel ctx lustreDefaultDeleteInterval (lustre_deleted id).
End client.
