(* ===== verification/Lustre.v ===== *)
(** * The controller of the Lustre CSI driver

    The parameters of a storage class (src/pkg/csi/driver/lustre_params.go), the requests of
    the controller service (lustre_controller.go), and the volume handles that both it and
    the node service read (lustre_lnet_helper.go of src/pkg/csi-util, lustre_node.go).
    [d.client.Identity(nil)] and [d.client.Lustre()] are never nil (client.go).  Metrics and
    log messages are left out. *)
From stdpp Require Import base tactics list gmap sets strings.
From Stdlib Require Import Ascii.
From S2P Require Import Prelude GoStrings GoNet Types ClientErrors ClientCalls Annotations CsiUtil StorageClient BlockVolume FileStorageClient FileStorage LustreClient.

Definition lustreSupportedVolumeCapabilities : list string := fssSupportedVolumeCapabilities.
Definition GB : Z := 1000 * 1000 * 1000.
Definition Aborted : string := "Aborted".

Record LustreStorageClassParameters := {
  lsp_SubnetId : string;
  lsp_CompartmentId : string;
  lsp_AvailabilityDomain : string;
  lsp_NSGIds : list string;
  lsp_FileSystemName : string;
  lsp_PerformanceTier : string;
  lsp_KmsKeyId : string;
  lsp_RootSquashEnabled : bool;
  lsp_RootSquashUid : option Z;
  lsp_RootSquashGid : option Z;
  lsp_RootSquashClientExceptions : list string;
  lsp_SetupLnet : string;
  lsp_LustreSubnetCidr : string;
  lsp_LustrePostMountParameters : string;
  lsp_SCTags : FssTags;
}.

(** [LustreControllerDriver]: its configuration and what it reads of the environment. *)
Record LustreControllerDriver := {
  l_CompartmentID : string;
  l_LustreTags : option FssTags;
  l_CommonTags : option FssTags;
  l_enableOkeSystemTags : bool;
}.

(** [json.Unmarshal] of lists of strings, and of lists of Lustre parameters; the values of
    parameters are those that [%v] writes. *)
Class LustreJson := {
  json_strings : string → error + list string;
  json_parameters : string → error + list (gmap string string);
}.

(** ** Shell input *)

(** Spaces, and the forbidden characters. *)
Definition forbiddenChars : list ascii := [";"; "&"; "|"; "<"; ">"; "("; ")"; "`"; "'"; "034"; "$"; "!"]%char.
Definition isValidShellInput (input : string) : bool :=
  negb (has_byte " " input) && forallb (λ c, negb (has_byte c input)) forbiddenChars.

(** ** Names of file systems *)

Definition validateLustreFileSystemName (name : string) : option error :=
  if decide (name = "") then Some (Errorf "empty" [])
  else if decide (8 < String.length name) then Some (Errorf "length must be <= 8" [])
  else if all_bytes (λ c, is_alphanumeric c || bool_decide (c = "_"%char)) name then None
  else Some (Errorf "allowed characters are [A-Za-z0-9_]" []).

(** The loop from the end of the name, over the reversed name. *)
Fixpoint collect_allowed (reversed allowed : string) : string :=
  match reversed with
  | EmptyString => allowed
  | String ch reversed =>
      if decide (String.length allowed ≤ 6)
      then collect_allowed reversed (if is_alphanumeric ch then String ch allowed else allowed)
      else allowed
  end.

Definition deriveDefaultFSName (volumeName : string) : string :=
  if decide (volumeName = "") then "pvlustre" else
  let fs := collect_allowed (String.rev volumeName) "" in
  let fs := if decide (6 < String.length fs) then String.substring (String.length fs - 6) 6 fs else fs in
  let fs := "pv" +:+ fs in
  match validateLustreFileSystemName fs with None => fs | Some _ => "pvlustre" end.

(** ** Volume handles *)

Definition buildLustreVolumeHandle (fs : LustreFileSystem) : string :=
  default "" (lfs_Id fs) +:+ ":" +:+ default "" (lfs_ManagementServiceAddress fs) +:+ "@" +:+ default "" (lfs_Lnet fs) +:+
  ":/" +:+ default "" (lfs_FileSystemName fs).

(** [s[n:]] for [n <= len(s)]. *)
Definition string_from (n : nat) (s : string) : string := String.substring n (String.length s - n) s.

Definition extractLustreFilesystemId (volumeID : string) : string :=
  if decide (volumeID = "") then "" else
  if HasPrefix volumeID "ocid" then
    match Index volumeID ":" with Some idx => truncate idx volumeID | None => "" end
  else "".

(** A colon before the first at sign ends the OCID. *)
Definition stripLustreOCIDPrefix (volumeID : string) : string :=
  match Index volumeID "@", Index volumeID ":" with
  | Some atIdx, Some colonIdx => if decide (0 < atIdx ∧ colonIdx < atIdx) then string_from (colonIdx + 1) volumeID else volumeID
  | _, _ => volumeID
  end.

(** The loop over all parts but the last: the label so far, or the answer. *)
Fixpoint check_nids (parts : list string) (lnetLabel : string) : (bool * string) + string :=
  match parts with
  | [] => inr lnetLabel
  | part :: parts =>
      match split_on "@" part with
      | [ip; label] =>
          if decide (net_ParseIP ip = None) then inl (false, lnetLabel)
          else if isValidShellInput label then check_nids parts label else inl (false, "")
      | _ => inl (false, lnetLabel)
      end
  end.

Definition ValidateLustreVolumeId (lusterVolumeId : string) : bool * string :=
  let splits := split_on ":" lusterVolumeId in
  if decide (length splits < 2) then (false, "") else
  match check_nids (take (length splits - 1) splits) "" with
  | inl answer => answer
  | inr lnetLabel =>
      let fsname := List.last splits "" in
      (HasPrefix fsname "/" && isValidShellInput fsname, lnetLabel)
  end.

(** ** Lustre parameters *)

Section parameters.
Context `{!LustreJson, !MapRange}.

(** The texts of the parameters of one map that are not valid. *)
Definition invalid_params (site : nat) (param : gmap string string) : list string :=
  (λ kv, kv.1 +:+ "=" +:+ kv.2) <$>
    filter (λ kv, isValidShellInput kv.1 && isValidShellInput kv.2 = false) (range site param).

Definition ValidateLustreParameters (lustreParamsJson : string) : option error :=
  if decide (lustreParamsJson = "") then None else
  match json_parameters lustreParamsJson with
  | inl err => Some err
  | inr lustreParams =>
      match concat (imap invalid_params lustreParams) with
      | [] => None
      | invalidParams => Some (Errorf "%v" [join "," invalidParams])
      end
  end.
End parameters.

Definition lustre_tiers : list string := ["MBPS_PER_TB_125"; "MBPS_PER_TB_250"; "MBPS_PER_TB_500"; "MBPS_PER_TB_1000"].
(** [lustre.GetMappingCreateLustreFileSystemDetailsPerformanceTierEnum]. *)
Definition tier_of (val : string) : option string :=
  snd <$> list_find (λ tier, ToLower tier = ToLower val) lustre_tiers.

Record LustreCreateRequest := {
  lcr_Name : string;
  lcr_VolumeCapabilities : list VolumeCapability;
  lcr_Parameters : gmap string string;
  lcr_RequiredBytes : Z;
}.

Section controller.
Context {W : Type} `{!LustreSdk W, !Limits W, !StorageSdk W, !LustreJson, !TagJson, !MapRange, !ErrorText}.
Implicit Types (d : LustreControllerDriver) (ctx : context) (parameters : gmap string string).

(** ** Parameters of the storage class *)

(** A parameter that is given and not blank. *)
Definition parameter parameters (key : string) : option string :=
  match parameters !! key with
  | Some v => if decide (TrimSpace v = "") then None else Some v
  | None => None
  end.
Definition invalid {A} (format : string) (args : list string) : M W A := status InvalidArgument format args.

Definition lustre_strings parameters (key message : string) : M W (list string) :=
  match parameter parameters key with
  | None => mret []
  | Some v => match json_strings v with inl err => invalid message [Error err] | inr l => mret l end
  end.

Definition lustre_tier parameters : M W string :=
  match parameter parameters "performanceTier" with
  | None => invalid "Missing required parameter: performanceTier" []
  | Some tier =>
      match tier_of (TrimSpace tier) with
      | Some t => mret t
      | None => invalid "Invalid performanceTier: %s. Supported values: %s" [TrimSpace tier; join "," lustre_tiers]
      end
  end.

(** A parameter that is true or false: its lower-case text. *)
Definition lustre_flag parameters (key message : string) : M W string :=
  match parameter parameters key with
  | None => mret ""
  | Some v =>
      let lower := ToLower (TrimSpace v) in
      if decide (lower = "true" ∨ lower = "false") then mret lower else invalid message [v]
  end.

Definition lustre_id parameters (key message : string) : M W (option Z) :=
  match parameter parameters key with
  | None => mret None
  | Some v =>
      match Atoi (TrimSpace v) with
      | Some id => if decide (0 ≤ id)%Z then mret (Some id) else invalid message [v]
      | None => invalid message [v]
      end
  end.

Definition lustre_exceptions parameters : M W (list string) :=
  exceptions ← lustre_strings parameters "rootSquashClientExceptions"
    "Failed to parse rootSquashClientExceptions (expect JSON array of strings) : %s";
  if decide (10 < length exceptions) then invalid "rootSquashClientExceptions supports max 10 entries" [] else mret exceptions.

Definition lustre_cidr parameters : M W string :=
  match parameter parameters "lustreSubnetCidr" with
  | None => mret ""
  | Some v => if decide (net_ParseCIDR (TrimSpace v) = None) then invalid "Invalid lustreSubnetCidr: %s" [TrimSpace v]
              else mret (TrimSpace v)
  end.

Definition lustre_post_mount parameters : M W string :=
  match parameter parameters "lustrePostMountParameters" with
  | None => mret ""
  | Some v => match ValidateLustreParameters (TrimSpace v) with
              | Some err => invalid "Invalid lustrePostMountParameters: %v" [Error err]
              | None => mret (TrimSpace v)
              end
  end.

Definition lustre_file_system_name (volumeName : string) parameters : M W string :=
  match parameter parameters "fileSystemName" with
  | None => mret (deriveDefaultFSName volumeName)
  | Some v => match validateLustreFileSystemName (TrimSpace v) with
              | Some err => invalid "Invalid fileSystemName: %v" [Error err]
              | None => mret (TrimSpace v)
              end
  end.

(** A tag setting that is given replaces those of the configuration. *)
Definition lustre_tags {A} (json : string → error + option A) (message : string) (value : option string) (configured : option A)
    : M W (option A) :=
  match value with
  | None => mret configured
  | Some v => match json v with inl err => invalid message [Error err] | inr tags => mret tags end
  end.

Definition lustre_domain (compartmentId : string) parameters : M W string :=
  match parameter parameters "availabilityDomain" with
  | None => invalid "Missing required parameter: availabilityDomain" []
  | Some v => report (GetAvailabilityDomainByName compartmentId (TrimSpace v))
                (λ err, invalid "Invalid availabilityDomain: %s for compartment %s, error: %v" [TrimSpace v; compartmentId; Error err])
  end.

Definition extractLustreStorageClassParameters d (volumeName : string) parameters : M W LustreStorageClassParameters :=
  subnetId ← match parameter parameters "subnetId" with
             | Some v => mret v
             | None => invalid "Missing required parameter: subnetId" []
             end;
  let compartmentId := default (l_CompartmentID d) (parameter parameters "compartmentId") in
  nsgIds ← lustre_strings parameters "nsgIds" "Failed to parse nsgIds (expect JSON array of strings) : %s";
  tier ← lustre_tier parameters;
  let kms := TrimSpace (default "" (parameter parameters "kmsKeyId")) in
  squash ← lustre_flag parameters "rootSquashEnabled" "Invalid rootSquashEnabled: %s. Allowed values: true or false";
  uid ← lustre_id parameters "rootSquashUid" "Invalid rootSquashUid: %s";
  gid ← lustre_id parameters "rootSquashGid" "Invalid rootSquashGid: %s";
  exceptions ← lustre_exceptions parameters;
  setupLnet ← lustre_flag parameters "setupLnet" "Invalid setupLnet: %s. Allowed values: true or false";
  cidr ← lustre_cidr parameters;
  postMount ← lustre_post_mount parameters;
  fileSystemName ← lustre_file_system_name volumeName parameters;
  let configured := default no_tags (l_LustreTags d) in
  freeform ← lustre_tags json_freeform "failed to parse freeform tags provided for storageclass : %s"
               (parameter parameters initialFreeformTagsOverride) (ft_Freeform configured);
  defined ← lustre_tags json_defined "failed to parse defined tags provided for storageclass : %s"
              (parameter parameters initialDefinedTagsOverride) (ft_Defined configured);
  availabilityDomain ← lustre_domain compartmentId parameters;
  mret {| lsp_SubnetId := subnetId; lsp_CompartmentId := compartmentId; lsp_AvailabilityDomain := availabilityDomain;
          lsp_NSGIds := nsgIds; lsp_FileSystemName := fileSystemName; lsp_PerformanceTier := tier; lsp_KmsKeyId := kms;
          lsp_RootSquashEnabled := bool_decide (squash = "true"); lsp_RootSquashUid := uid; lsp_RootSquashGid := gid;
          lsp_RootSquashClientExceptions := exceptions; lsp_SetupLnet := setupLnet; lsp_LustreSubnetCidr := cidr;
          lsp_LustrePostMountParameters := postMount; lsp_SCTags := {| ft_Freeform := freeform; ft_Defined := defined |} |}.

(** ** Requests *)

(** [MakeCSIPanicRecoveryWithError]: a panic becomes an error, what was done stays done. *)
Definition recovered {A} (c : M W A) : M W A := λ w,
  match c w with
  | (Panic, w) => (Err (StatusError Internal "Internal error occurred while processing request." []), w)
  | r => r
  end.

Definition lustre_has_support (cap : VolumeCapability) : outcome () :=
  if decide (cap_AccessType cap = Block)
  then Err (StatusError InvalidArgument "Lustre contoller driver does not support volume mode block" [])
  else if decide (cap_Mode cap ∈ lustreSupportedVolumeCapabilities) then mret ()
  else Err (StatusError InvalidArgument "Lustre contoller driver does not support access mode %v" [cap_Mode cap]).

Fixpoint checkLustreSupportedVolumeCapabilities (volumeCaps : list VolumeCapability) : outcome () :=
  match volumeCaps with
  | [] => mret ()
  | c :: volumeCaps => _ ← lustre_has_support c; checkLustreSupportedVolumeCapabilities volumeCaps
  end.

(** Merged with the common tags, if these are set and the feature is on. *)
Definition lustre_merged_tags d (p : LustreStorageClassParameters) : FssTags :=
  match l_CommonTags d with
  | Some common =>
      if l_enableOkeSystemTags d then
        let merged := MergeTagConfig
          {| tag_FreeformTags := default ∅ (ft_Freeform (lsp_SCTags p)); tag_DefinedTags := default ∅ (ft_Defined (lsp_SCTags p)) |}
          {| tag_FreeformTags := default ∅ (ft_Freeform common); tag_DefinedTags := default ∅ (ft_Defined common) |} in
        {| ft_Freeform := Some (tag_FreeformTags merged); ft_Defined := Some (tag_DefinedTags merged) |}
      else lsp_SCTags p
  | None => lsp_SCTags p
  end.

Definition createLustreFilesystemRequest (displayName : string) (sc : LustreStorageClassParameters) (tags : FssTags)
    (capacityInGbs : Z) : CreateLustreFileSystemDetails := {|
  lcd_DisplayName := displayName; lcd_CompartmentId := lsp_CompartmentId sc;
  lcd_AvailabilityDomain := lsp_AvailabilityDomain sc; lcd_FileSystemName := lsp_FileSystemName sc;
  lcd_CapacityInGBs := capacityInGbs; lcd_SubnetId := lsp_SubnetId sc; lcd_PerformanceTier := lsp_PerformanceTier sc;
  lcd_RootSquash :=
    if lsp_RootSquashEnabled sc
    then {| rsc_IdentitySquash := "ROOT"; rsc_ClientExceptions := lsp_RootSquashClientExceptions sc;
            rsc_SquashUid := lsp_RootSquashUid sc; rsc_SquashGid := lsp_RootSquashGid sc |}
    else {| rsc_IdentitySquash := "NONE"; rsc_ClientExceptions := []; rsc_SquashUid := None; rsc_SquashGid := None |};
  lcd_FreeformTags := ft_Freeform tags; lcd_DefinedTags := ft_Defined tags; lcd_KmsKeyId := given (lsp_KmsKeyId sc);
  lcd_NsgIds := lsp_NSGIds sc |}.

(** An entry of the volume context, if it is not empty. *)
Definition context_entry (key value : string) (m : gmap string string) : gmap string string :=
  if decide (value = "") then m else <[key := value]> m.

Definition sendCreateVolumeSuccessResponse (fs : LustreFileSystem) (sc : LustreStorageClassParameters) : outcome CsiVolume :=
  _ ← deref (lfs_Id fs);
  capacity ← deref (lfs_CapacityInGBs fs);
  mret {| cv_VolumeId := buildLustreVolumeHandle fs; cv_CapacityBytes := int64 (capacity * GB); cv_AccessibleTopology := [];
          cv_VolumeContext := context_entry "lustrePostMountParameters" (lsp_LustrePostMountParameters sc)
                                (context_entry "lustreSubnetCidr" (lsp_LustreSubnetCidr sc)
                                  (context_entry "setupLnet" (lsp_SetupLnet sc) ∅));
          cv_ContentSource := None |}.

(** The latest error of the work request that created the file system; what cannot be read
    is left out. *)
Definition work_request_error (fuel : nat) (compartmentId id : string) : M W string :=
  wrs ← try (Lustre_ListWorkRequests fuel compartmentId id);
  match wrs with
  | inl _ => mret ""
  | inr wrs =>
      match snd <$> list_find (λ wr, lwr_OperationType wr = "CREATE_LUSTRE_FILE_SYSTEM") wrs with
      | Some wr =>
          match lwr_Id wr with
          | Some wrId =>
              errs ← try (ListWorkRequestErrors fuel wrId);
              mret match errs with inr (err :: _) => default "" (lwe_Message err) | _ => "" end
          | None => mret ""
          end
      | None => mret ""
      end
  end.

(** A file system with the name of the volume. *)
Definition use_existing (fuel : nat) ctx (sc : LustreStorageClassParameters) (existing : LustreFileSystemSummary) : M W CsiVolume :=
  existingId ← lift (deref (lsum_Id existing));
  fs ← report (GetLustreFileSystem existingId) (λ err, status Internal "Failed to fetch existing filesystem: %v" [Error err]);
  let state := lfs_LifecycleState fs in
  if decide (state = Active) then lift (sendCreateVolumeSuccessResponse fs sc) else
  if decide (state = Creating) then
    fs ← report (AwaitLustreFileSystemActive ctx existingId)
      (λ err, status CodeDeadlineExceeded "deadline reached while waiting for LustreFilesystem to become active, error : %v" [Error err]);
    lift (sendCreateVolumeSuccessResponse fs sc)
  else
  errorFromWorkRequest ←
    (if decide (state = Failed) then id ← lift (deref (lfs_Id fs)); work_request_error fuel (lsp_CompartmentId sc) id else mret "");
  if decide (errorFromWorkRequest = "")
  then status Aborted "LustreFileSystem provisioning failed. Filesystem is in %v state and not usable." [state]
  else status Aborted "LustreFileSystem provisioning failed. Filesystem is in %v state and not usable. Error from workrequest : %s"
         [state; errorFromWorkRequest].

Definition create_file_system ctx (displayName : string) (sc : LustreStorageClassParameters) (tags : FssTags) (requiredBytes : Z)
    : M W CsiVolume :=
  let capacityInGbs := if decide (0 < requiredBytes)%Z then RoundUpSize requiredBytes (1 * GB) else 31200%Z in
  fs ← report (CreateLustreFileSystem (createLustreFilesystemRequest displayName sc tags capacityInGbs))
    (λ err, status Internal "Lustre filesystem creation failed, error :  %v" [Error err]);
  id ← lift (deref (lfs_Id fs));
  fs ← report (AwaitLustreFileSystemActive ctx id)
    (λ err, status CodeDeadlineExceeded "deadline reached while waiting for LustreFilesystem to become active, error : %v" [Error err]);
  lift (sendCreateVolumeSuccessResponse fs sc).

(** The file systems with the name; that none is found is not an error. *)
Definition existing_file_systems (fuel : nat) (sc : LustreStorageClassParameters) (displayName : string)
    : M W (list LustreFileSystemSummary) :=
  report (ListLustreFileSystems fuel (lsp_CompartmentId sc) (lsp_AvailabilityDomain sc) displayName)
    (λ err, if IsNotFound (Some err) then mret [] else status Internal "Failed to check existing file systems: %v" [Error err]).

Definition Lustre_CreateVolume d (fuel : nat) ctx (req : LustreCreateRequest) : M W CsiVolume := recovered (
  if decide (lcr_Name req = "") then status InvalidArgument "Name must be provided in CreateVolumeRequest" [] else
  if decide (length (lcr_VolumeCapabilities req) = 0)
  then status InvalidArgument "VolumeCapabilities must be provided in CreateVolumeRequest" [] else
  _ ← report (lift (checkLustreSupportedVolumeCapabilities (lcr_VolumeCapabilities req)))
        (λ err, status InvalidArgument "Requested Volume Capability not supported: %v" [Error err]);
  sc ← extractLustreStorageClassParameters d (lcr_Name req) (lcr_Parameters req);
  existing ← existing_file_systems fuel sc (lcr_Name req);
  match existing with
  | [] => create_file_system ctx (lcr_Name req) sc (lustre_merged_tags d sc) (lcr_RequiredBytes req)
  | [fs] => use_existing fuel ctx sc fs
  | _ => status AlreadyExists "Duplicate Lustre file systems with displayName %v exist" [lcr_Name req]
  end).

Definition Lustre_DeleteVolume ctx (volumeId : string) : M W () := recovered (
  if decide (volumeId = "") then status InvalidArgument "Volume ID must be provided" [] else
  let id := extractLustreFilesystemId volumeId in
  if decide (id = "") then status InvalidArgument "Invalid Volume ID provided %s" [volumeId] else
  r ← try (GetLustreFileSystem id);
  match r with
  | inl err => if IsNotFound (Some err) then mret ()
               else status Internal "Failed to get Lustre filesystem for deletion, error: %v" [Error err]
  | inr fs =>
      if decide (lfs_LifecycleState fs = Deleted) then mret () else
      _ ← (if decide (lfs_LifecycleState fs = Deleting) then mret ()
           else report (DeleteLustreFileSystem id) (λ err, status Internal "Failed to delete Lustre filesystem, error :  %v" [Error err]));
      report (AwaitLustreFileSystemDeleted ctx id)
        (λ err, status CodeDeadlineExceeded "Error while waiting for Lustre Filesystem to be Deleted, error : %v" [Error err])
  end).

Definition Lustre_ValidateVolumeCapabilities (volumeId : string) (caps : option (list VolumeCapability))
    : M W (list VolumeCapability) := recovered (
  if decide (volumeId = "") then status InvalidArgument "Volume ID must be provided" [] else
  match caps with
  | None => status InvalidArgument "VolumeCapabilities must be provided" []
  | Some caps =>
      _ ← report (lift (checkLustreSupportedVolumeCapabilities caps))
            (λ err, status InvalidArgument "Requested Volume Capability not supported: %v" [Error err]);
      let id := extractLustreFilesystemId volumeId in
      if decide (id = "") then status InvalidArgument "Invalid Volume ID provided" [] else
      fs ← report (GetLustreFileSystem id) (λ err, status NotFound "Lustre filesystem not found: %v" [Error err]);
      if decide (volumeId = buildLustreVolumeHandle fs) then mret caps else status NotFound "Volume identity mismatch" []
  end).

Definition Lustre_ControllerGetCapabilities : list string := ["CREATE_DELETE_VOLUME"].
Definition Lustre_unimplemented : M W () := status Unimplemented "" [].
End controller.
