(* ===== verification/LustreFacts.v ===== *)
(** * What the Lustre controller achieves

    Names of file systems are valid, volume handles are read back by the controller and by
    the node service, and, given laws of the service ([LustreLaws]), a volume is created
    once and deleted for good. *)
From stdpp Require Import base tactics list gmap sets strings.
From Stdlib Require Import Ascii.
From S2P Require Import Prelude GoStrings GoNet Types ClientErrors ClientCalls Annotations CsiUtil CsiUtilFacts StorageClient BlockVolume FileStorageClient FileStorage FileStorageFacts NetworkingClient LustreClient Lustre.

(** ** Names of file systems *)

Lemma all_bytes_app p a b : all_bytes p (a +:+ b) = all_bytes p a && all_bytes p b.
Proof. induction a as [|c a IH]; [done|]. simpl. by rewrite IH, andb_assoc. Qed.

Lemma all_bytes_substring p s n k : all_bytes p s = true → all_bytes p (String.substring n k s) = true.
Proof.
  revert n k. induction s as [|c s IH]; intros [|n] [|k] Hs; try done; simpl in Hs; apply andb_true_iff in Hs as [Hc Hs];
    [|by apply IH..]. simpl. by rewrite Hc, IH.
Qed.

Lemma all_bytes_impl (p q : ascii → bool) s : (∀ c, p c = true → q c = true) → all_bytes p s = true → all_bytes q s = true.
Proof. intros Hpq. induction s as [|c s IH]; [done|]. simpl. rewrite !andb_true_iff. naive_solver. Qed.

Lemma collect_allowed_bytes r a :
  all_bytes is_alphanumeric a = true → all_bytes is_alphanumeric (collect_allowed r a) = true.
Proof.
  revert a. induction r as [|c r IH]; intros a Ha; [done|]. simpl. case_decide; [|done]. apply IH.
  destruct (is_alphanumeric c) eqn:Ec; [|done]. simpl. by rewrite Ec.
Qed.

Lemma length_substring_le n k s : String.length (String.substring n k s) ≤ k.
Proof. revert n k. induction s as [|c s IH]; intros [|n] [|k]; simpl; try lia; [specialize (IH 0 k)|specialize (IH n 0)|specialize (IH n (S k))]; lia. Qed.

Lemma derived_suffix_bounded fs :
  String.length (if decide (6 < String.length fs) then String.substring (String.length fs - 6) 6 fs else fs) ≤ 6.
Proof. case_decide; [apply length_substring_le|lia]. Qed.

(** The name that is derived is never refused: the fallback is not needed. *)
Lemma deriveDefaultFSName_eq v :
  v ≠ "" → let fs := collect_allowed (String.rev v) "" in
  ∃ s, deriveDefaultFSName v = "pv" +:+ s ∧ String.length s ≤ 6 ∧ all_bytes is_alphanumeric s = true ∧
    s = if decide (6 < String.length fs) then String.substring (String.length fs - 6) 6 fs else fs.
Proof.
  intros Hv. cbv zeta. unfold deriveDefaultFSName. rewrite decide_False by done. cbv zeta.
  set (fs := collect_allowed _ _). pose proof (derived_suffix_bounded fs) as Hl.
  assert (all_bytes is_alphanumeric (if decide (6 < String.length fs) then String.substring (String.length fs - 6) 6 fs else fs) = true) as Ha.
  { case_decide; [apply all_bytes_substring|]; by apply collect_allowed_bytes. }
  set (s := if decide (6 < String.length fs) then _ else _) in *. exists s. split; [|done]. clearbody s.
  unfold validateLustreFileSystemName. rewrite decide_False by done.
  rewrite decide_False by (change (String.length ("pv" +:+ s)) with (S (S (String.length s))); lia).
  rewrite all_bytes_app. erewrite (all_bytes_impl is_alphanumeric _ s); [done| |done]. intros c ->. done.
Qed.

(** Reversed strings. *)
Lemma rev_app_spec s a : String.rev_app s a = String.rev s +:+ a.
Proof.
  unfold String.rev. revert a. induction s as [|c s IH]; intros a; [done|]. simpl. rewrite (IH (String c a)), (IH (String c "")).
  by rewrite <-append_assoc.
Qed.
Lemma rev_cons c s : String.rev (String c s) = String.rev s +:+ String c "".
Proof. unfold String.rev at 1. simpl. apply rev_app_spec. Qed.
Lemma rev_append a b : String.rev (a +:+ b) = String.rev b +:+ String.rev a.
Proof.
  induction a as [|c a IH]; [by rewrite append_nil_r|]. change (String c a +:+ b) with (String c (a +:+ b)).
  by rewrite !rev_cons, IH, append_assoc.
Qed.
Lemma rev_rev s : String.rev (String.rev s) = s.
Proof. induction s as [|c s IH]; [done|]. by rewrite rev_cons, rev_append, IH. Qed.
Lemma length_rev s : String.length (String.rev s) = String.length s.
Proof. induction s as [|c s IH]; [done|]. rewrite rev_cons, length_append, IH. simpl. lia. Qed.

Lemma filter_string_app p a b : filter_string p (a +:+ b) = filter_string p a +:+ filter_string p b.
Proof. induction a as [|c a IH]; [done|]. simpl. destruct (p c); simpl; by rewrite IH. Qed.
Lemma filter_string_rev p s : filter_string p (String.rev s) = String.rev (filter_string p s).
Proof.
  induction s as [|c s IH]; [done|]. rewrite rev_cons, filter_string_app, IH. simpl. destruct (p c); [by rewrite rev_cons|].
  by rewrite append_nil_r.
Qed.

(** What the loop has collected: all that is allowed, or at least seven characters. *)
Lemma collect_allowed_spec r a : ∃ f g, filter_string is_alphanumeric r = f +:+ g ∧
  collect_allowed r a = String.rev f +:+ a ∧ (g = "" ∨ 6 < String.length (collect_allowed r a)).
Proof.
  revert a. induction r as [|c r IH]; intros a; [exists "", ""; auto|]. simpl. case_decide as Ha.
  - destruct (is_alphanumeric c).
    + destruct (IH (String c a)) as (f & g & -> & Hc & Hg). exists (String c f), g. split_and!; [done| |done].
      by rewrite Hc, rev_cons, <-append_assoc.
    + destruct (IH a) as (f & g & -> & Hc & Hg). by exists f, g.
  - eexists "", _. split_and!; [done|done|right; lia].
Qed.

Lemma substring_skip a b n k : String.substring (String.length a + n) k (a +:+ b) = String.substring n k b.
Proof. by induction a. Qed.

(** The last characters of a string, or all of it. *)
Definition last_bytes (n : nat) (s : string) : string := String.substring (String.length s - n) n s.

Lemma substring_short s n : String.length s ≤ n → String.substring 0 n s = s.
Proof. revert n. induction s as [|c s IH]; intros [|n] Hn; simpl in *; try done; [lia|]. f_equal. apply IH. lia. Qed.

Lemma last_bytes_short n s : String.length s ≤ n → last_bytes n s = s.
Proof. intros Hn. unfold last_bytes. replace (String.length s - n) with 0 by lia. by apply substring_short. Qed.

Lemma last_bytes_app n a b : n ≤ String.length b → last_bytes n (a +:+ b) = last_bytes n b.
Proof.
  intros Hn. unfold last_bytes. rewrite length_append.
  replace (String.length a + String.length b - n) with (String.length a + (String.length b - n)) by lia. apply substring_skip.
Qed.

Lemma derived_suffix v : let fs := collect_allowed (String.rev v) "" in
  (if decide (6 < String.length fs) then String.substring (String.length fs - 6) 6 fs else fs)
  = last_bytes 6 (filter_string is_alphanumeric v).
Proof.
  cbv zeta. destruct (collect_allowed_spec (String.rev v) "") as (f & g & Hf & -> & Hg). rewrite append_nil_r in *.
  rewrite filter_string_rev in Hf. apply (f_equal String.rev) in Hf. rewrite rev_rev, rev_append in Hf. rewrite Hf.
  case_decide as Hl.
  - symmetry. apply last_bytes_app. lia.
  - destruct Hg as [->|]; [|lia]. symmetry. apply last_bytes_short. simpl. lia.
Qed.

(** The file system name that is derived from the name of a volume
    is "pv" and the last six letters and digits of the name, or all of them if there are
    fewer; it is always one that the service allows: of at most 8 characters, all of them
    letters or digits. *)
Lemma deriveDefaultFSName_valid v :
  let name := deriveDefaultFSName v in
  validateLustreFileSystemName name = None ∧ String.length name ≤ 8 ∧ all_bytes is_alphanumeric name = true ∧
  (v ≠ "" → name = "pv" +:+ last_bytes 6 (filter_string is_alphanumeric v)).
Proof.
  cbv zeta. destruct (decide (v = "")) as [->|Hv]; [done|].
  destruct (deriveDefaultFSName_eq v Hv) as (s & Hs & Hl & Ha & Heq). rewrite Hs.
  assert (all_bytes is_alphanumeric ("pv" +:+ s) = true) as Hall by (rewrite all_bytes_app; by rewrite Ha).
  assert (String.length ("pv" +:+ s) ≤ 8) by (change (String.length ("pv" +:+ s)) with (S (S (String.length s))); lia).
  split_and!; [|done|done|].
  - unfold validateLustreFileSystemName. rewrite decide_False by done. rewrite decide_False by lia.
    erewrite all_bytes_impl; [done| |done]. by intros c ->.
  - intros _. by rewrite <-derived_suffix, Heq.
Qed.

(** ** Volume handles *)

Lemma string_from_app a b : string_from (String.length a) (a +:+ b) = b.
Proof.
  unfold string_from. rewrite length_append. replace (String.length a + String.length b - String.length a) with (String.length b) by lia.
  rewrite <-(append_nil_r b) at 2. apply substring_app.
Qed.
Lemma truncate_app a b : truncate (String.length a) (a +:+ b) = a.
Proof. apply (substring_app "" a b). Qed.

(** A handle: the id, and the rest that the node service mounts. *)
Definition mount_source (addr lnet name : string) : string := addr +:+ "@" +:+ lnet +:+ ":/" +:+ name.

Lemma HasPrefix_app_l s t p : HasPrefix s p = true → HasPrefix (s +:+ t) p = true.
Proof.
  intros [r Hr]%bool_decide_eq_true. apply strip_prefix_Some in Hr as ->. rewrite <-append_assoc. apply HasPrefix_app.
Qed.

Lemma has_byte_split c s : has_byte c s = true → ∃ a b, s = a +:+ String c b ∧ has_byte c a = false.
Proof.
  induction s as [|d s IH]; [done|]. simpl. case_bool_decide as Hd; [subst; intros _; by exists "", s|].
  intros (a & b & -> & Ha)%IH. exists (String d a), b. split; [done|]. simpl. by rewrite bool_decide_eq_false_2.
Qed.

Lemma handle_id id rest : HasPrefix id "ocid" = true → has_byte ":" id = false →
  extractLustreFilesystemId (id +:+ ":" +:+ rest) = id.
Proof.
  intros Hp Hc. unfold extractLustreFilesystemId. destruct id as [|c id]; [done|].
  rewrite decide_False by done. rewrite HasPrefix_app_l by done. change (":" +:+ rest) with (String ":" rest).
  rewrite Index_app by done. apply truncate_app.
Qed.

Lemma handle_source id addr rest : has_byte ":" id = false → has_byte "@" id = false → has_byte "@" addr = false →
  stripLustreOCIDPrefix (id +:+ ":" +:+ addr +:+ "@" +:+ rest) = addr +:+ "@" +:+ rest.
Proof.
  intros Hc Ha Had. unfold stripLustreOCIDPrefix.
  assert (Index (id +:+ ":" +:+ addr +:+ "@" +:+ rest) "@" = Some (String.length id + S (String.length addr))) as ->.
  { rewrite (append_assoc ":"), (append_assoc id). change ("@" +:+ rest) with (String "@" rest). rewrite Index_app.
    - rewrite !length_append. done.
    - rewrite !has_byte_app, Ha, Had. done. }
  change (":" +:+ addr +:+ "@" +:+ rest) with (String ":" (addr +:+ "@" +:+ rest)). rewrite Index_app by done.
  rewrite decide_True by lia. rewrite Nat.add_1_r.
  replace (S (String.length id)) with (String.length (id +:+ ":")) by (rewrite length_append; simpl; lia).
  change (String ":" (addr +:+ "@" +:+ rest)) with (":" +:+ (addr +:+ "@" +:+ rest)). rewrite append_assoc. apply string_from_app.
Qed.

(** The handle of a volume is read back: the controller finds the id of
    the file system in it, and the node service the source that it mounts, which it accepts
    together with the network of the file system, if the address is an IPv4 address and the
    names hold nothing that the shell reads.  A handle with an IPv6 address is never
    accepted. *)
Lemma lustre_handle_roundtrip fs id addr lnet name :
  lfs_Id fs = Some id → lfs_ManagementServiceAddress fs = Some addr → lfs_Lnet fs = Some lnet → lfs_FileSystemName fs = Some name →
  HasPrefix id "ocid" = true → has_byte ":" id = false → has_byte "@" id = false → has_byte "@" addr = false →
  let handle := buildLustreVolumeHandle fs in
  extractLustreFilesystemId handle = id ∧ stripLustreOCIDPrefix handle = mount_source addr lnet name ∧
  (net_ParseIP addr ≠ None → has_byte ":" addr = false → has_byte ":" lnet = false → has_byte "@" lnet = false →
   has_byte ":" name = false → isValidShellInput lnet = true → isValidShellInput name = true →
   ValidateLustreVolumeId (stripLustreOCIDPrefix handle) = (true, lnet)) ∧
  (has_byte ":" addr = true → (ValidateLustreVolumeId (stripLustreOCIDPrefix handle)).1 = false).
Proof.
  intros Hi Ha Hl Hn Hp Hc1 Hc2 Hc3. cbv zeta. unfold buildLustreVolumeHandle. rewrite Hi, Ha, Hl, Hn. cbn [default from_option Datatypes.id].
  rewrite handle_id, handle_source by done. split_and!; [done|done|..].
  - intros Hip H1 H2 H3 H4 Hsl Hsn.
    unfold ValidateLustreVolumeId.
    assert (split_on ":" (addr +:+ "@" +:+ lnet +:+ ":/" +:+ name) = [addr +:+ "@" +:+ lnet; "/" +:+ name]) as ->.
    { rewrite (append_assoc "@"), (append_assoc addr). change (":/" +:+ name) with (String ":" ("/" +:+ name)).
      rewrite split_on_app by (rewrite !has_byte_app, H1, H2; done). rewrite split_on_no_byte; [done|]. by rewrite has_byte_app, H4. }
    simpl. change ("@" +:+ lnet) with (String "@" lnet). rewrite split_on_app, split_on_no_byte by done.
    rewrite decide_False by done. rewrite Hsl. f_equal.
    unfold isValidShellInput in *. by rewrite !andb_true_iff in *.
  - intros (a & b & -> & Hab)%has_byte_split. unfold ValidateLustreVolumeId. rewrite <-append_assoc.
    change (String ":" b +:+ ?x) with (String ":" (b +:+ x)). rewrite split_on_app by done. rewrite has_byte_app in Hc3.
    apply orb_false_iff in Hc3 as [Hc3 _]. pose proof (split_on_nonempty ":" (b +:+ "@" +:+ lnet +:+ ":/" +:+ name)) as Hne.
    destruct (split_on ":" (b +:+ "@" +:+ lnet +:+ ":/" +:+ name)) as [|x l]; [done|]. rewrite decide_False by (simpl; lia).
    simpl. by rewrite split_on_no_byte.
Qed.

(** ** The laws of the service *)

(** A file system and whether it is being deleted. *)
Record Lustre_fs := { lr_Resource : Resource; lr_Deleting : bool }.

Definition lustre_named (c ad n : string) (m : gmap string Lustre_fs) (id : string) : Prop :=
  ∃ r, m !! id = Some r ∧ res_named c ad n (lr_Resource r).

Definition named_if_there (c ad n : string) (m : gmap string Lustre_fs) (id : string) : Prop :=
  is_Some (m !! id) → lustre_named c ad n m id.

(** The file systems that exist, by OCID.  While time passes only those that are being
    deleted vanish.  A listing has only file systems with the name, or that are gone, and
    all with the name that still exist when it ends; a file system is answered as active only if it is not being
    deleted, and as deleted or not found only if it is gone.  A request to create adds at
    most the file system that it answers, or, if the retry token is known, answers one with
    the name; a deletion concerns only its file system. *)
Class LustreLaws (W : Type) `{!LustreSdk W, !Limits W, !StorageSdk W} := {
  lustres : W → gmap string Lustre_fs;
  lustre_aged w w' :=
    lustres w' ⊆ lustres w ∧ ∀ id r, lustres w !! id = Some r → lr_Deleting r = false → lustres w' !! id = Some r;
  lustre_limits : ∀ w, lustre_aged w (Reader_TryAccept w).2 ∧ lustre_aged w (Writer_TryAccept w).2;
  lustre_reads :
    (∀ id, frames lustre_aged (lsdk_Get id)) ∧ (∀ c ad n page, frames lustre_aged (lsdk_List c ad n page)) ∧
    (∀ c r page, frames lustre_aged (lsdk_ListWorkRequests c r page)) ∧
    (∀ wr page, frames lustre_aged (lsdk_ListWorkRequestErrors wr page)) ∧
    (∀ c, frames lustre_aged (ssdk_ListAvailabilityDomains c));
  lustre_List_law : ∀ c ad n w ps w',
    listing (λ page, limited false "ListLustreFileSystems" (lsdk_List c (Some ad) (Some n) page)) None w ps w' →
    (∀ s, s ∈ concat ps → ∃ id, lsum_Id s = Some id ∧ named_if_there c ad n (lustres w) id) ∧
    (∀ id, lustre_named c ad n (lustres w') id → ∃ s, s ∈ concat ps ∧ lsum_Id s = Some id);
  lustre_List_missing : ∀ c ad n page w e w', lsdk_List c (Some ad) (Some n) page w = (Err e, w') →
    IsNotFound (Some e) = true → ∀ id, ¬ lustre_named c ad n (lustres w') id;
  lustre_Get_law : ∀ id w fs w', lsdk_Get id w = (Ret fs, w') →
    lfs_Id fs = Some id ∧ (lfs_LifecycleState fs = Deleted → lustres w' !! id = None) ∧
    (lfs_LifecycleState fs = Active → ∃ r, lustres w !! id = Some r ∧ lr_Deleting r = false);
  lustre_Get_missing : ∀ id w e w', lsdk_Get id w = (Err e, w') → IsNotFound (Some e) = true → lustres w' !! id = None;
  lustre_Create_law : ∀ d token w o w', lsdk_Create d token w = (o, w') →
    let named m id := lustre_named (lcd_CompartmentId d) (lcd_AvailabilityDomain d) (lcd_DisplayName d) m id in
    (lustre_aged w w' ∧ ∀ fs, o = Ret fs → ∃ id, lfs_Id fs = Some id ∧ named (lustres w) id) ∨
    ∃ w1 id r, lustre_aged w w1 ∧ lustres w1 !! id = None ∧ lustres w' = <[id := r]> (lustres w1) ∧
      named (lustres w') id ∧ (∀ fs, o = Ret fs → lfs_Id fs = Some id);
  lustre_Delete_law : ∀ id w o w', lsdk_Delete id w = (o, w') →
    ∃ w1, lustre_aged w w1 ∧ ∀ i, i ≠ id → lustres w' !! i = lustres w1 !! i;
}.

Section facts.
Context {W : Type} `{!LustreSdk W, !Limits W, !StorageSdk W} {LL : LustreLaws W}.
Context {LJ : LustreJson} {TJ : TagJson} {MR : MapRange} {ET : ErrorText}.

#[global] Instance lustre_aged_preorder : PreOrder lustre_aged.
Proof.
  split; [done|]. intros w1 w2 w3 [H1 H2] [H3 H4]. split; [by trans (lustres w2)|]. intros id r Hr Hd. apply H4; [|done]. by apply H2.
Qed.

Lemma lustre_limited {A} isWrite op (c : M W A) : frames lustre_aged c → frames lustre_aged (limited isWrite op c).
Proof. apply (limited_frames_of lustre_aged); intros w; apply lustre_limits. Qed.

Lemma GetLustre_aged id : frames lustre_aged (GetLustreFileSystem id).
Proof. apply lustre_limited. apply lustre_reads. Qed.

Lemma all_pages_aged {A} fuel op (list_page : option string → M W (list A * option string)) :
  (∀ page, frames lustre_aged (list_page page)) → frames lustre_aged (all_pages fuel op list_page).
Proof.
  intros Hp. unfold all_pages. apply (pages_frames lustre_aged).
  - intros page. apply lustre_limited, Hp.
  - intros acc items. apply (frames_lift lustre_aged (Ret _)).
Qed.

Lemma poll_context_aged {A} n (c : M W (option A)) : frames lustre_aged c → frames lustre_aged (poll_context n c).
Proof.
  intros Hc. induction n as [|n IH]; simpl; (apply (frames_bind lustre_aged); [done|]); intros [a|];
    [apply (frames_lift lustre_aged (Ret a))|apply (frames_fail lustre_aged)|apply (frames_lift lustre_aged (Ret a))|done].
Qed.

(** The condition was met in the state that a wait ends in. *)
Lemma poll_context_Ret {A} n (c : M W (option A)) w a w' :
  frames lustre_aged c → poll_context n c w = (Ret a, w') → ∃ w1, lustre_aged w w1 ∧ c w1 = (Ret (Some a), w').
Proof.
  intros Hc. revert w. induction n as [|n IH]; intros w Hr; simpl in Hr; apply M_bind_Ret_inv in Hr as ([b|] & w1 & Hb & Hr);
    try done; try (injection Hr as <- <-; by exists w).
  apply IH in Hr as (w2 & H2 & Hr). exists w2. split; [|done]. trans w1; [by eapply Hc|done].
Qed.

Lemma poll_active_aged {A} (get : M W A) dec : frames lustre_aged get → frames lustre_aged (poll_active get dec).
Proof.
  intros Hg. apply (frames_bind lustre_aged); [done|]. intros a.
  apply (frames_bind lustre_aged); [apply (frames_lift lustre_aged)|]. intros b. apply (frames_lift lustre_aged (Ret _)).
Qed.

Lemma AwaitActive_aged ctx id : frames lustre_aged (AwaitLustreFileSystemActive ctx id).
Proof. intros w o w' Hr. eapply poll_context_aged; [|exact Hr]. apply poll_active_aged, GetLustre_aged. Qed.

Lemma lustre_deleted_aged id : frames lustre_aged (lustre_deleted id).
Proof.
  apply (frames_bind lustre_aged); [apply (frames_try lustre_aged), GetLustre_aged|]. intros [e|fs].
  - destruct (IsNotFound (Some e)); [apply (frames_lift lustre_aged (Ret _))|apply (frames_fail lustre_aged)].
  - apply (frames_lift lustre_aged (Ret _)).
Qed.

(** What an answer of the service says about the file system afterwards. *)
Definition active_fs (w : W) (fs : LustreFileSystem) (id : string) : Prop :=
  lfs_Id fs = Some id ∧ lfs_LifecycleState fs = Active ∧ ∃ r, lustres w !! id = Some r ∧ lr_Deleting r = false.

Lemma GetLustre_Ret id w fs w' : GetLustreFileSystem id w = (Ret fs, w') →
  lfs_Id fs = Some id ∧ (lfs_LifecycleState fs = Deleted → lustres w' !! id = None) ∧
  (lfs_LifecycleState fs = Active → active_fs w' fs id).
Proof.
  unfold GetLustreFileSystem. intros (w1 & _ & Hr)%limited_Ret_of. destruct (lustre_Get_law _ _ _ _ Hr) as (Hid & Hdel & Hact). split_and!; [done|done|].
  intros Ha. destruct (Hact Ha) as (r & Hr1 & Hd). split_and!; [done|done|]. exists r. split; [|done].
  destruct lustre_reads as (Hg & _). apply Hg in Hr as [_ Hr]. by apply Hr.
Qed.

Lemma GetLustre_missing id w e w' : GetLustreFileSystem id w = (Err e, w') → IsNotFound (Some e) = true → lustres w' !! id = None.
Proof.
  unfold GetLustreFileSystem, limited. destruct (Reader_TryAccept w) as [[] w1]; [apply lustre_Get_missing|]. by intros [= <- _].
Qed.

Lemma AwaitActive_Ret ctx id w fs w' : AwaitLustreFileSystemActive ctx id w = (Ret fs, w') → active_fs w' fs id.
Proof.
  intros (w1 & _ & Hr)%poll_context_Ret; [|apply poll_active_aged, GetLustre_aged].
  apply M_bind_Ret_inv in Hr as (fs' & w2 & Hg & Hr). apply M_bind_Ret_inv in Hr as (b & w3 & Hb & Hr).
  apply lift_Ret_inv in Hb as [Hb ->]. destruct b; [|done]. injection Hr as <- <-. apply GetLustre_Ret in Hg as (_ & _ & Ha).
  apply Ha. unfold lustre_active in Hb. by repeat case_decide.
Qed.

(** ** Listings by name *)

(** A loop over pages that succeeds has read one listing; one that fails has an error of a
    page, or no fuel. *)
Lemma pages_read {A} (list_page : option string → M W (list A * option string)) fuel acc page w o w' :
  pages fuel list_page (λ acc items, mret (inl (acc ++ items))) acc page w = (o, w') →
  (∀ l, o = Ret l → ∃ ps, listing list_page page w ps w' ∧ l = acc ++ concat ps) ∧
  (∀ e, o = Err e → e = Errorf "out of fuel" [] ∨ ∃ page w1, list_page page w1 = (Err e, w')).
Proof.
  revert acc page w. induction fuel as [|fuel IH]; intros acc page w Hr; [by injection Hr as <- <-; split; [|intros e [= <-]; left]|].
  simpl in Hr. unfold mbind, M_bind in Hr. destruct (list_page page w) as [[[items next]|e|] w1] eqn:E; simpl in Hr.
  - destruct next as [next|].
    + apply IH in Hr as [Hret Herr]. split; [|done]. intros l (ps & Hl & ->)%Hret. exists (items :: ps). split; [by econstructor|].
      simpl. by rewrite (assoc (++)).
    + injection Hr as <- <-. split; [|done]. intros l [= <-]. exists [items]. split; [by constructor|]. simpl. by rewrite app_nil_r.
  - injection Hr as <- <-. split; [done|]. intros e' [= <-]. right. by exists page, w.
  - injection Hr as <- <-. done.
Qed.

Definition lists_named (c ad n : string) (w w' : W) (l : list LustreFileSystemSummary) : Prop :=
  (∀ s, s ∈ l → ∃ id, lsum_Id s = Some id ∧ named_if_there c ad n (lustres w) id) ∧
  (∀ id, lustre_named c ad n (lustres w') id → ∃ s, s ∈ l ∧ lsum_Id s = Some id).

Lemma given_Some s : s ≠ "" → given s = Some s.
Proof. intros Hs. unfold given. by rewrite decide_False. Qed.

Lemma existing_file_systems_spec fuel sc n w o w' :
  lsp_AvailabilityDomain sc ≠ "" → n ≠ "" → existing_file_systems fuel sc n w = (o, w') →
  lustre_aged w w' ∧ ∀ l, o = Ret l → lists_named (lsp_CompartmentId sc) (lsp_AvailabilityDomain sc) n w w' l.
Proof.
  intros Had Hne Hr. unfold existing_file_systems, ListLustreFileSystems in Hr. rewrite !given_Some in Hr by done. split.
  - revert Hr. apply (frames_report lustre_aged).
    + apply all_pages_aged. intros page. apply lustre_reads.
    + intros e. destruct (IsNotFound _); [apply (frames_lift lustre_aged (Ret _))|apply (frames_fail lustre_aged)].
  - intros l ->. apply report_Ret in Hr as [Hr|(e & w1 & He & Hr)].
    + apply pages_read in Hr as [Hret _]. destruct (Hret l eq_refl) as (ps & Hl & ->). by apply lustre_List_law in Hl.
    + destruct (IsNotFound (Some e)) eqn:Hn; [|done]. injection Hr as <- <-. split; [set_solver|].
      intros id Hid. exfalso. apply pages_read in He as [_ Herr]. destruct (Herr e eq_refl) as [->|(page & w2 & Hp)]; [done|].
      unfold limited in Hp. destruct (Reader_TryAccept w2) as [[] w3]; [|by injection Hp as <- _].
      by eapply lustre_List_missing.
Qed.

Lemma named_aged c ad n w w' id :
  lustre_aged w w' → named_if_there c ad n (lustres w) id → is_Some (lustres w' !! id) → lustre_named c ad n (lustres w') id.
Proof.
  intros [Hs _] Hn [r' Hr']. eapply lookup_weaken in Hr' as Hr2; [|exact Hs]. destruct Hn as (r & Hr & Hn); [by eexists|].
  exists r. split; [congruence|done].
Qed.

(** ** Parameters *)

Ltac aged :=
  repeat first
    [ apply (frames_fail lustre_aged) | apply (frames_lift lustre_aged (Ret _)) | apply (frames_lift lustre_aged)
    | match goal with
      | |- frames _ (report _ _) => apply (frames_report lustre_aged); [|intros ?]
      | |- frames _ (mbind _ _) => apply (frames_bind lustre_aged); [|intros ?]
      end
    | case_match | progress unfold invalid, status ].

Lemma lustre_parameters_aged d n params : frames lustre_aged (extractLustreStorageClassParameters d n params).
Proof.
  unfold extractLustreStorageClassParameters, lustre_strings, lustre_tier, lustre_flag, lustre_id, lustre_exceptions, lustre_strings,
    lustre_cidr, lustre_post_mount, lustre_file_system_name, lustre_tags, lustre_domain. aged.
  apply lustre_limited. aged. apply lustre_reads.
Qed.

Lemma ToLower_cons c s : ∃ c' s', ToLower (String c s) = String c' s'.
Proof. simpl. repeat case_match; eauto. Qed.

(** A domain is found only if its name is not empty. *)
Lemma find_domain_nonempty name ads ad : name ≠ "" → find_domain name ads = Ret (Some ad) → ad ≠ "".
Proof.
  intros Hn. induction ads as [|x ads IH]; [done|]. simpl. intros (full & _ & Hr)%bind_Ret_inv.
  destruct (HasSuffix (ToLower full) (ToLower name)) eqn:Hs; [|auto]. injection Hr as <-. intros ->. destruct name as [|c name]; [done|].
  destruct (ToLower_cons c name) as (c' & s & Heq). rewrite Heq, (HasSuffix_no_byte c') in Hs; [done| |done]. simpl. by rewrite bool_decide_eq_true_2.
Qed.

Lemma lustre_domain_Ret c params w ad w' : lustre_domain c params w = (Ret ad, w') → ad ≠ "".
Proof.
  unfold lustre_domain, parameter. destruct (params !! "availabilityDomain") as [v|]; [|done]. case_decide as Hv; [done|].
  intros [Hr|(e & w1 & _ & Hr)]%report_Ret; [|done].
  unfold GetAvailabilityDomainByName in Hr. apply limited_Ret_of in Hr as (w1 & _ & Hr).
  apply M_bind_Ret_inv in Hr as (ads & w2 & _ & Hr). apply M_bind_Ret_inv in Hr as ([a|] & w3 & Hf & Hr); [|done].
  injection Hr as <- _. apply lift_Ret_inv in Hf as [Hf _]. by eapply find_domain_nonempty.
Qed.

Lemma lustre_parameters_Ret d n params w sc w' :
  extractLustreStorageClassParameters d n params w = (Ret sc, w') →
  lsp_CompartmentId sc = default (l_CompartmentID d) (parameter params "compartmentId") ∧ lsp_AvailabilityDomain sc ≠ "".
Proof.
  intros Hr. unfold extractLustreStorageClassParameters in Hr.
  repeat (apply M_bind_Ret_inv in Hr as (? & ? & Hlast & Hr); cbv zeta in Hr; [idtac]; try (apply lustre_domain_Ret in Hlast; injection Hr as <- _; done); clear Hlast).
Qed.

(** ** Creation *)

(** One file system with the name is added, where there was none. *)
Definition lustre_created (c ad n : string) (w w' : W) : Prop := ∃ w1 w2 id r,
  lustre_aged w w1 ∧ (∀ i, ¬ lustre_named c ad n (lustres w1) i) ∧ lustres w1 !! id = None ∧
  lustres w2 = <[id := r]> (lustres w1) ∧ lustre_named c ad n (lustres w2) id ∧ lustre_aged w2 w'.
Definition lustre_part (c ad n : string) (w w' : W) : Prop := lustre_aged w w' ∨ lustre_created c ad n w w'.

(** The answer stands for an active file system with the name. *)
Definition lustre_answer (c ad n : string) (w' : W) (o : outcome CsiVolume) : Prop :=
  ∀ v, o = Ret v → ∃ fs id, cv_VolumeId v = buildLustreVolumeHandle fs ∧ active_fs w' fs id ∧ lustre_named c ad n (lustres w') id.

Lemma success_answer c ad n fs sc w0 w id o w' :
  lustre_aged w0 w → named_if_there c ad n (lustres w0) id → active_fs w fs id →
  lift (sendCreateVolumeSuccessResponse fs sc) w = (o, w') → w' = w ∧ lustre_answer c ad n w' o.
Proof.
  intros Hag Hn Hact Hr. injection Hr as Ho <-. split; [done|]. intros v ->. unfold sendCreateVolumeSuccessResponse in Ho.
  apply bind_Ret_inv in Ho as (i & _ & Ho). apply bind_Ret_inv in Ho as (cap & _ & Ho). injection Ho as <-.
  exists fs, id. split_and!; [done|done|]. eapply named_aged; [done|done|]. destruct Hact as (_ & _ & r & Hr & _). eauto.
Qed.

(** A wait for a file system with the name, and the answer. *)
Lemma await_answer c ad n ctx id sc fail_ w0 w o w' :
  lustre_aged w0 w → named_if_there c ad n (lustres w0) id →
  (fs ← report (AwaitLustreFileSystemActive ctx id) (λ err, status CodeDeadlineExceeded fail_ [Error err]);
   lift (sendCreateVolumeSuccessResponse fs sc)) w = (o, w') →
  lustre_aged w w' ∧ lustre_answer c ad n w' o.
Proof.
  intros Hag Hn Hr. apply M_bind_cases in Hr as [(fs & w1 & Hw & Hr)|(o1 & Hw & Ho)].
  - apply report_Ret in Hw as [Hw|(e & w2 & _ & Hw)]; [|done]. apply AwaitActive_aged in Hw as Hag1. apply AwaitActive_Ret in Hw.
    eapply (success_answer c ad n) in Hr as [-> Ha]; [done| |done|done]. by trans w.
  - split; [|by intros v ->]. revert Hw. apply (frames_report lustre_aged); [apply AwaitActive_aged|]. intros e. apply (frames_fail lustre_aged).
Qed.

Lemma work_request_error_aged fuel c id : frames lustre_aged (work_request_error fuel c id).
Proof.
  apply (frames_bind lustre_aged).
  - apply (frames_try lustre_aged), all_pages_aged. intros page. apply lustre_reads.
  - intros [e|wrs]; [apply (frames_lift lustre_aged (Ret _))|]. destruct (snd <$> list_find _ wrs) as [wr|]; [|apply (frames_lift lustre_aged (Ret _))].
    destruct (lwr_Id wr); [|apply (frames_lift lustre_aged (Ret _))]. apply (frames_bind lustre_aged).
    + apply (frames_try lustre_aged), all_pages_aged. intros page. apply lustre_reads.
    + intros errs. apply (frames_lift lustre_aged (Ret _)).
Qed.

Lemma lift_Ret_bind {A B} (a : A) (f : A → M W B) w : (lift (deref (Some a)) ≫= f) w = f a w.
Proof. done. Qed.

Lemma use_existing_spec c ad n fuel ctx sc s id w o w' :
  lsum_Id s = Some id → ∀ w0, lustre_aged w0 w → named_if_there c ad n (lustres w0) id →
  use_existing fuel ctx sc s w = (o, w') → lustre_aged w w' ∧ lustre_answer c ad n w' o.
Proof.
  intros Hid w0 Hag Hn Hr. unfold use_existing in Hr. rewrite Hid in Hr.
  rewrite lift_Ret_bind in Hr. apply M_bind_cases in Hr as [(fs & w1 & Hg & Hr)|(o1 & Hg & Ho)].
  2: { split; [|by intros v ->]. revert Hg. apply (frames_report lustre_aged); [apply GetLustre_aged|]. intros e. apply (frames_fail lustre_aged). }
  apply report_Ret in Hg as [Hg|(e & w2 & _ & Hg)]; [|done]. apply GetLustre_aged in Hg as Hag1.
  apply GetLustre_Ret in Hg as (_ & _ & Hact). assert (lustre_aged w0 w1) as Hag2 by (by trans w). cbv zeta in Hr.
  case_decide; [eapply (success_answer c ad n) in Hr as [-> Ha]; [by split|done|done|by apply Hact]|].
  case_decide; [eapply (await_answer c ad n) in Hr as [Ha1 Ha2]; [split; [by trans w1|done]|done|done]|].
  assert (∀ o1 w2, ((if decide (lfs_LifecycleState fs = Failed) then id ← lift (deref (lfs_Id fs)); work_request_error fuel (lsp_CompartmentId sc) id else mret "") w1
    = (o1, w2)) → lustre_aged w w2) as Hwr.
  { intros o1 w2 Hw. trans w1; [done|]. case_decide; [|by injection Hw as _ <-]. revert Hw. apply (frames_bind lustre_aged); [apply (frames_lift lustre_aged)|].
    intros i. apply work_request_error_aged. }
  apply M_bind_cases in Hr as [(m & w2 & Hw & Hr)|(o1 & Hw & Ho)]; [|split; [by eapply Hwr|by intros v ->]].
  apply Hwr in Hw. unfold status, fail in Hr. assert (w' = w2 ∧ ∃ e, o = Err e) as [-> [e ->]]; [|split; [done|by intros v]].
  destruct (decide (m = "")); injection Hr as <- <-; eauto.
Qed.

Lemma create_file_system_spec ctx n sc tags bytes w o w' :
  let c := lsp_CompartmentId sc in let ad := lsp_AvailabilityDomain sc in
  (∀ i, ¬ lustre_named c ad n (lustres w) i) → create_file_system ctx n sc tags bytes w = (o, w') →
  lustre_part c ad n w w' ∧ lustre_answer c ad n w' o.
Proof.
  intros c ad Hnone Hr. unfold create_file_system in Hr. cbv zeta in Hr.
  set (d := createLustreFilesystemRequest n sc tags _) in Hr.
  assert (∀ o1 w1, CreateLustreFileSystem d w = (o1, w1) →
    lustre_part c ad n w w1 ∧ ∀ fs, o1 = Ret fs → ∃ id w0, lfs_Id fs = Some id ∧ lustre_aged w0 w1 ∧ lustre_named c ad n (lustres w0) id) as Hcreate.
  { intros o1 w1 H1. unfold CreateLustreFileSystem, writer_limited in H1. destruct (lustre_limits w) as [_ Hlim].
    destruct (Writer_TryAccept w) as [[] w2]; simpl in Hlim; [|injection H1 as <- <-; by split; [left|]].
    destruct (lustre_Create_law _ _ _ _ _ H1) as [[Hag Hfs]|(w3 & id & r & Hag & Hnew & Hins & Hn & Hfs)].
    - split; [left; by trans w2|]. intros fs (id & Hid & Hn)%Hfs. eauto 10.
    - split; [|intros fs ?%Hfs; by exists id, w1]. right. exists w3, w1, id, r. assert (lustre_aged w w3) as [Hsub Hkeep] by (by trans w2).
      split_and!; try done. intros i (r' & Hr' & Hn'). apply (Hnone i). exists r'. split; [by eapply lookup_weaken|done]. }
  assert (∀ w1 w2, lustre_part c ad n w w1 → lustre_aged w1 w2 → lustre_part c ad n w w2) as Hthen.
  { intros w1 w2 [H1|(wa & wb & id & r & Ha & H1 & H2 & H3 & H4 & H5)] H; [left; by trans w1|right].
    exists wa, wb, id, r. split_and!; try done. by trans w1. }
  apply M_bind_cases in Hr as [(fs & w1 & Hc & Hr)|(o1 & Hc & Ho)].
  - apply report_Ret in Hc as [Hc|(e & w2 & _ & Hc)]; [|done]. apply Hcreate in Hc as [Hpart Hfs].
    destruct (Hfs fs eq_refl) as (id & w0 & Hid & Hag & Hn). rewrite Hid in Hr.
    rewrite lift_Ret_bind in Hr. eapply (await_answer c ad n) in Hr as [Ha1 Ha2]; [|done|by intros _]. split; [by eapply Hthen|done].
  - split; [|by intros v ->]. destruct (Hcreate _ _ (surjective_pairing _)) as [Hpart _]. destruct (CreateLustreFileSystem d w) as [o2 w2] eqn:E.
    assert (w' = w2) as -> by (unfold report, mbind, M_bind, try in Hc; rewrite E in Hc; by destruct o2; injection Hc as _ <-). done.
Qed.

Lemma recovered_inv {A} (c : M W A) w o w' : recovered c w = (o, w') → ∃ o1, c w = (o1, w') ∧ o ≠ Panic ∧ ∀ a, o = Ret a → o1 = Ret a.
Proof. unfold recovered. destruct (c w) as [[a|e|] w1]; intros [= <- <-]; eexists; split_and!; try done. Qed.

Lemma listed_empty c ad n w w' : lists_named c ad n w w' [] → ∀ i, ¬ lustre_named c ad n (lustres w') i.
Proof. intros [_ Hl] i (s & Hs & _)%Hl. by apply elem_of_nil in Hs. Qed.

Lemma lustre_part_after c ad n w w1 w' : lustre_aged w w1 → lustre_part c ad n w1 w' → lustre_part c ad n w w'.
Proof.
  intros Hag [H|(wa & wb & id & r & Ha & Hrest)]; [left; by trans w1|right]. exists wa, wb, id, r. split; [by trans w1|done].
Qed.

(** What a request does once the parameters are read and the listing is there. *)
Lemma provision_spec d fuel ctx req sc existing w w1 o w' :
  let c := lsp_CompartmentId sc in let ad := lsp_AvailabilityDomain sc in let n := lcr_Name req in
  lustre_aged w w1 → lists_named c ad n w w1 existing →
  match existing with
  | [] => create_file_system ctx n sc (lustre_merged_tags d sc) (lcr_RequiredBytes req)
  | [fs] => use_existing fuel ctx sc fs
  | _ => status AlreadyExists "Duplicate Lustre file systems with displayName %v exist" [n]
  end w1 = (o, w') →
  lustre_part c ad n w w' ∧ lustre_answer c ad n w' o.
Proof.
  intros c ad n Hag Hl Hr. destruct existing as [|s [|s2 l]].
  - apply create_file_system_spec in Hr as [Hp Ha]; [|by eapply listed_empty]. split; [by eapply lustre_part_after|done].
  - destruct (proj1 Hl s) as (id & Hid & Hn); [by left|]. eapply (use_existing_spec c ad n) in Hr as [Hg Ha]; [|done..].
    split; [|done]. left. by trans w1.
  - injection Hr as <- <-. split; [by left|by intros v].
Qed.

Lemma lustre_caps_aged caps :
  frames lustre_aged (report (lift (checkLustreSupportedVolumeCapabilities caps))
    (λ err, status (A := ()) InvalidArgument "Requested Volume Capability not supported: %v" [Error err])).
Proof. aged. Qed.

(** C36: a request for a volume never creates a second file system with the
    name of the volume in its compartment and availability domain: it changes nothing, or
    adds one file system with the name at a time at which there is none.  A success answers
    the handle of a file system with the name that is active and not being deleted; a retried
    request thus answers the one that the first request created.  The request never
    panics. *)
Theorem Lustre_CreateVolume_idempotent d fuel ctx req w o w' :
  Lustre_CreateVolume d fuel ctx req w = (o, w') →
  o ≠ Panic ∧ ∃ ad, let c := default (l_CompartmentID d) (parameter (lcr_Parameters req) "compartmentId") in
  lustre_part c ad (lcr_Name req) w w' ∧ lustre_answer c ad (lcr_Name req) w' o.
Proof.
  intros (o1 & Hr & Hp & Ho)%recovered_inv. split; [done|]. cbv zeta.
  set (c := default _ _).
  assert (∃ ad, lustre_part c ad (lcr_Name req) w w' ∧ lustre_answer c ad (lcr_Name req) w' o1) as (ad & Hpart & Ha).
  2: { exists ad. split; [done|]. intros v Hv. by apply Ha, Ho. }
  assert (lustre_aged w w' → is_ret o1 = false → ∃ ad, lustre_part c ad (lcr_Name req) w w' ∧ lustre_answer c ad (lcr_Name req) w' o1) as Hstop.
  { intros Hag Hne. exists "". split; [by left|]. intros v Hv. by rewrite Hv in Hne. }
  destruct (decide (lcr_Name req = "")); [injection Hr as <- <-; by apply Hstop|].
  destruct (decide (length (lcr_VolumeCapabilities req) = 0)); [injection Hr as <- <-; by apply Hstop|].
  apply M_bind_cases in Hr as [(u & w1 & Hc & Hr)|(o2 & Hc & Hne)]; apply lustre_caps_aged in Hc as Hag0; [|by apply Hstop].
  apply M_bind_cases in Hr as [(sc & w2 & Hsc & Hr)|(o2 & Hsc & Hne)]; apply lustre_parameters_aged in Hsc as Hag1;
    [|apply Hstop; [by trans w1|done]].
  apply lustre_parameters_Ret in Hsc as [Hsc Had]. assert (lustre_aged w w2) as Hag2 by (by trans w1).
  apply M_bind_cases in Hr as [(l & w3 & Hl & Hr)|(o2 & Hl & Hne)]; (apply existing_file_systems_spec in Hl as [Hag3 Hl]; [|done..]);
    [|apply Hstop; [by trans w2|done]].
  eapply provision_spec in Hr as [Hpart Ha]; [|done|by apply Hl]. rewrite Hsc in Hpart, Ha.
  eexists. split; [by eapply lustre_part_after|done].
Qed.

(** ** Deletion *)

(** Only one file system is concerned, apart from what happens while time passes. *)
Definition only_deletes (id : string) (w w' : W) : Prop :=
  ∃ w1 w2, lustre_aged w w1 ∧ (∀ i, i ≠ id → lustres w2 !! i = lustres w1 !! i) ∧ lustre_aged w2 w'.

Lemma aged_only_deletes id w w' : lustre_aged w w' → only_deletes id w w'.
Proof. intros H. by exists w, w. Qed.

Lemma poll_deleted_Ret ctx id w u w' : AwaitLustreFileSystemDeleted ctx id w = (Ret u, w') → lustres w' !! id = None.
Proof.
  intros (w1 & _ & Hr)%poll_context_Ret; [|apply lustre_deleted_aged].
  unfold lustre_deleted in Hr. apply M_bind_Ret_inv in Hr as ([e|fs] & w2 & Ht & Hr).
  - destruct (IsNotFound (Some e)) eqn:Hn; [|done]. injection Hr as _ <-. apply (GetLustre_missing id w1 e); [|done].
    unfold try in Ht. destruct (GetLustreFileSystem id w1) as [[|e'|] w3]; by simplify_eq.
  - injection Hr as Hd <-. case_decide; [|done]. unfold try in Ht.
    destruct (GetLustreFileSystem id w1) as [[fs'|e'|] w3] eqn:Hg; try done. simplify_eq.
    apply GetLustre_Ret in Hg as (_ & Hgone & _). by apply Hgone.
Qed.

Lemma AwaitDeleted_aged ctx id : frames lustre_aged (AwaitLustreFileSystemDeleted ctx id).
Proof. intros w o w' Hr. eapply poll_context_aged; [|exact Hr]. apply lustre_deleted_aged. Qed.

(** The wait after a deletion. *)
Lemma await_deleted_spec ctx id message w o w' :
  report (AwaitLustreFileSystemDeleted ctx id) (λ err, status CodeDeadlineExceeded message [Error err]) w = (o, w') →
  lustre_aged w w' ∧ (is_ret o = true → lustres w' !! id = None).
Proof.
  intros Hr. split.
  - revert Hr. apply (frames_report lustre_aged); [apply AwaitDeleted_aged|]. intros e. apply (frames_fail lustre_aged).
  - destruct o as [u| |]; [intros _|done..]. apply report_Ret in Hr as [Hr|(e & w1 & _ & Hr)]; [|done]. by eapply poll_deleted_Ret.
Qed.

Lemma delete_call_spec id message w o w' :
  report (DeleteLustreFileSystem id) (λ err, status Internal message [Error err]) w = (o, w') →
  ∃ w1, lustre_aged w w1 ∧ ∀ i, i ≠ id → lustres w' !! i = lustres w1 !! i.
Proof.
  intros Hr. destruct (DeleteLustreFileSystem id w) as [o1 w1] eqn:E.
  assert (w' = w1) as -> by (unfold report, mbind, M_bind, try in Hr; rewrite E in Hr; by destruct o1; injection Hr as _ <-).
  unfold DeleteLustreFileSystem, limited in E. destruct (lustre_limits w) as [_ Hlim].
  destruct (Writer_TryAccept w) as [[] w2]; simpl in Hlim; [|injection E as <- <-; by exists w2].
  apply lustre_Delete_law in E as (w3 & Hag & Hoth). exists w3. split; [by trans w2|done].
Qed.

(** A request to delete a volume concerns no file system but the one that
    its handle names; if it succeeds, that file system is gone, also if it was not found, or
    was already being deleted; a handle that names none is refused.  The request never
    panics. *)
Lemma Lustre_DeleteVolume_correct ctx volumeId w o w' :
  Lustre_DeleteVolume ctx volumeId w = (o, w') →
  let id := extractLustreFilesystemId volumeId in
  o ≠ Panic ∧ only_deletes id w w' ∧ (is_ret o = true → id ≠ "" ∧ lustres w' !! id = None).
Proof.
  intros (o1 & Hr & Hp & Ho)%recovered_inv. cbv zeta. split; [done|].
  set (id := extractLustreFilesystemId volumeId) in *.
  enough (only_deletes id w w' ∧ (is_ret o1 = true → id ≠ "" ∧ lustres w' !! id = None)) as [H1 H2].
  { split; [done|]. intros Hret. apply H2. destruct o as [a| |]; [|done..]. by rewrite (Ho a). }
  destruct (decide (volumeId = "")); [injection Hr as <- <-; by split; [apply aged_only_deletes|]|]. cbv zeta in Hr.
  destruct (decide (id = "")); [injection Hr as <- <-; by split; [apply aged_only_deletes|]|].
  apply M_bind_cases in Hr as [(r & w1 & Ht & Hr)|(o2 & Ht & Hne)].
  2: { split; [|by rewrite Hne]. apply aged_only_deletes. revert Ht. apply (frames_try lustre_aged), GetLustre_aged. }
  apply (frames_try lustre_aged) in Ht as Hag; [|apply GetLustre_aged]. unfold try in Ht.
  destruct (GetLustreFileSystem id w) as [[fs|e|] w2] eqn:Hg; try done; injection Ht as <- ->.
  - apply GetLustre_Ret in Hg as (_ & Hgone & _).
    destruct (decide (lfs_LifecycleState fs = Deleted)); [injection Hr as <- <-; split; [by apply aged_only_deletes|naive_solver]|].
    apply M_bind_cases in Hr as [(u & w2 & Hd & Hr)|(o2 & Hd & Hne)].
    + apply await_deleted_spec in Hr as [Hag2 Hend]. split; [|naive_solver].
      destruct (decide (lfs_LifecycleState fs = Deleting)); [injection Hd as _ <-; apply aged_only_deletes; by trans w1|].
      apply delete_call_spec in Hd as (w3 & Hag3 & Hoth). exists w3, w2. split_and!; [by trans w1|done|done].
    + split; [|by rewrite Hne]. destruct (decide (lfs_LifecycleState fs = Deleting)); [by injection Hd as _ <-; apply aged_only_deletes|].
      apply delete_call_spec in Hd as (w3 & Hag3 & Hoth). exists w3, w'. split_and!; [by trans w1|done|done].
  - destruct (IsNotFound (Some e)) eqn:Hn; injection Hr as <- <-; (split; [by apply aged_only_deletes|]); [|done].
    intros _. split; [done|]. by eapply GetLustre_missing.
Qed.
End facts.
