(* ===== verification/LustreMemory.v ===== *)
(** * Lustre file systems in memory

    A service that satisfies [LustreLaws], and runs of the Lustre controller on it. *)
From stdpp Require Import base tactics list gmap sets strings.
From S2P Require Import Prelude GoStrings GoNet Types ClientErrors ClientCalls Annotations CsiUtil CsiUtilFacts StorageClient BlockVolume NetworkingClient FileStorageClient FileStorage FileStorageFacts StorageMemory FileStorageMemory LustreClient Lustre LustreFacts.

(** File systems by OCID; those that are being deleted are gone when they are read. *)
#[local] Abbreviation lustre_world := (gmap string Lustre_fs).

Definition memory_lustre_fs (id : string) (state : string) : LustreFileSystem := {|
  lfs_Id := Some id; lfs_LifecycleState := state; lfs_ManagementServiceAddress := Some "10.0.2.6"; lfs_Lnet := Some "tcp";
  lfs_FileSystemName := Some "pvabc123"; lfs_CapacityInGBs := Some 31200%Z |}.
Definition lustre_resource (d : CreateLustreFileSystemDetails) : Lustre_fs := {|
  lr_Resource := {| res_Name := lcd_DisplayName d; res_Compartment := lcd_CompartmentId d;
                    res_Domain := lcd_AvailabilityDomain d; res_Tags := lcd_FreeformTags d |};
  lr_Deleting := false |}.

Definition memory_lustre_list (c ad n : string) (w : lustre_world) : list LustreFileSystemSummary :=
  (λ kv, {| lsum_Id := Some kv.1 |}) <$> filter (λ kv, res_named c ad n (lr_Resource kv.2)) (map_to_list w).

(** An OCID that is not in use. *)
Definition fresh_lustre (w : lustre_world) : string := fresh (dom w : gset string).

Definition memory_lustre : LustreSdk lustre_world := {|
  lsdk_Create d token w := let id := fresh_lustre w in (Ret (memory_lustre_fs id Creating), <[id := lustre_resource d]> w);
  lsdk_Get id w := match w !! id with
                   | Some r => if lr_Deleting r then (Ret (memory_lustre_fs id Deleting), delete id w)
                               else (Ret (memory_lustre_fs id Active), w)
                   | None => (Err missing_resource, w)
                   end;
  lsdk_List c ad n page w := match ad, n with
                             | Some ad, Some n => (Ret (memory_lustre_list c ad n w, None), w)
                             | _, _ => (Ret ([], None), w)
                             end;
  lsdk_Delete id w := match w !! id with
                      | Some r => (Ret (), <[id := {| lr_Resource := lr_Resource r; lr_Deleting := true |}]> w)
                      | None => (Err missing_resource, w)
                      end;
  lsdk_ListWorkRequests c r page w := (Ret ([], None), w);
  lsdk_ListWorkRequestErrors wr page w := (Ret ([], None), w);
|}.

Lemma memory_lustre_list_spec c ad n w :
  (∀ s, s ∈ memory_lustre_list c ad n w → ∃ id, lsum_Id s = Some id ∧ lustre_named c ad n w id) ∧
  (∀ id, lustre_named c ad n w id → ∃ s, s ∈ memory_lustre_list c ad n w ∧ lsum_Id s = Some id).
Proof.
  unfold memory_lustre_list, lustre_named. split.
  - intros s ([id r] & -> & [Hn Hm%elem_of_map_to_list]%list_elem_of_filter)%list_elem_of_fmap. simpl in *. eauto.
  - intros id (r & Hm%elem_of_map_to_list & Hn). exists {| lsum_Id := Some id |}. split; [|done]. apply list_elem_of_fmap. exists (id, r).
    split; [done|]. by apply list_elem_of_filter.
Qed.

Definition memory_lustre_laws :
  let _ := memory_lustre in let _ := @fss_limits_open lustre_world in let _ := @domains_only lustre_world in LustreLaws lustre_world.
Proof.
  intros S L D. refine {| lustres := λ w, w |}.
  - by intros w.
  - split_and!.
    + intros id w o w'. simpl. destruct (w !! id) as [r|] eqn:E; [|by intros [= _ <-]]. destruct (lr_Deleting r) eqn:Ed; intros [= _ <-]; [|done].
      split; [apply delete_subseteq|]. intros i r' Hr' Hd. rewrite lookup_delete_ne; [done|]. congruence.
    + intros c [ad|] [n|] page w o w'; by intros [= _ <-].
    + by intros c r page w o w' [= _ <-].
    + by intros wr page w o w' [= _ <-].
    + by intros c w o w' [= _ <-].
  - intros c ad n w ps w' Hl. inversion Hl as [? items ? ? E|? ? ? ? ? ? ? E]; subst; [|done]. injection E as <- <-. simpl.
    rewrite app_nil_r. destruct (memory_lustre_list_spec c ad n w) as [H1 H2]. split; [|done].
    intros s (id & Hid & Hn)%H1. exists id. split; [done|]. by intros _.
  - done.
  - intros id w fs w'. simpl. destruct (w !! id) as [r|] eqn:E; [|done]. destruct (lr_Deleting r) eqn:Ed; intros [= <- <-]; [done|].
    split_and!; [done..|]. eauto.
  - intros id w e w'. simpl. destruct (w !! id) as [r|] eqn:E; [by destruct (lr_Deleting r)|]. by intros [= _ <-].
  - intros d token w o w' [= <- <-]. cbv zeta. right. exists w, (fresh_lustre w), (lustre_resource d). split_and!; try done.
    + apply memory_fresh.
    + exists (lustre_resource d). by rewrite lookup_insert_eq.
    + by intros fs [= <-].
  - intros id w o w'. simpl. exists w. split; [done|]. intros i Hi. destruct (w !! id); simplify_eq/=; [|done]. by rewrite lookup_insert_ne.
Defined.

(** ** Runs *)

Definition no_lustre_json : LustreJson := {| json_strings _ := inr []; json_parameters _ := inr [] |}.

#[local] Existing Instances memory_lustre fss_limits_open domains_only memory_lustre_laws no_lustre_json no_json list_range plain_text.

Definition lustre_driver : LustreControllerDriver := {|
  l_CompartmentID := "compartment"; l_LustreTags := None; l_CommonTags := None; l_enableOkeSystemTags := false |}.
Definition lustre_request : LustreCreateRequest := {|
  lcr_Name := "pvc-abc123"; lcr_VolumeCapabilities := [{| cap_AccessType := Mount; cap_AccessMode := Some "MULTI_NODE_MULTI_WRITER" |}];
  lcr_Parameters := {["availabilityDomain" := "PHX-AD-1"; "subnetId" := "subnet"; "performanceTier" := "MBPS_PER_TB_125"]};
  lcr_RequiredBytes := 31200000000000 |}.
Definition lustre_run := Lustre_CreateVolume lustre_driver 3 None lustre_request (∅ : lustre_world).
(** A retry of the request. *)
Definition lustre_retried := Lustre_CreateVolume lustre_driver 3 None lustre_request lustre_run.2.

Lemma Lustre_CreateVolume_idempotent_witness :
  is_ret lustre_run.1 = true ∧ is_ret lustre_retried.1 = true ∧ lustre_retried.2 = lustre_run.2 ∧
  ∃ ad, lustre_part "compartment" ad "pvc-abc123" lustre_run.2 lustre_retried.2 ∧
    lustre_answer "compartment" ad "pvc-abc123" lustre_retried.2 lustre_retried.1.
Proof.
  split; [vm_compute; reflexivity|]. split; [vm_compute; reflexivity|]. split; [vm_compute; reflexivity|].
  destruct (Lustre_CreateVolume_idempotent lustre_driver 3 None lustre_request lustre_run.2 lustre_retried.1 lustre_retried.2
    (surjective_pairing _)) as [_ H]. exact H.
Defined.

Definition stored_lustre : lustre_world :=
  {["ocid1.lustrefilesystem.a" := {| lr_Resource := {| res_Name := "pvc-abc123"; res_Compartment := "compartment";
      res_Domain := "zkJl:PHX-AD-1"; res_Tags := None |}; lr_Deleting := false |}]}.
Definition lustre_deleted_run := Lustre_DeleteVolume None "ocid1.lustrefilesystem.a:10.0.2.6@tcp:/pvabc123" stored_lustre.

Lemma Lustre_DeleteVolume_correct_witness :
  lustre_deleted_run.1 = Ret () ∧ only_deletes "ocid1.lustrefilesystem.a" stored_lustre lustre_deleted_run.2 ∧
  lustres lustre_deleted_run.2 !! "ocid1.lustrefilesystem.a" = None.
Proof.
  destruct (Lustre_DeleteVolume_correct None "ocid1.lustrefilesystem.a:10.0.2.6@tcp:/pvabc123" stored_lustre
    lustre_deleted_run.1 lustre_deleted_run.2 (surjective_pairing _)) as (_ & H1 & H2).
  split; [vm_compute; reflexivity|]. split; [exact H1|]. apply H2. vm_compute; reflexivity.
Defined.

Definition handle_fs : LustreFileSystem := memory_lustre_fs "ocid1.lustrefilesystem.a" Active.

Lemma lustre_handle_roundtrip_witness :
  buildLustreVolumeHandle handle_fs = "ocid1.lustrefilesystem.a:10.0.2.6@tcp:/pvabc123" ∧
  extractLustreFilesystemId (buildLustreVolumeHandle handle_fs) = "ocid1.lustrefilesystem.a" ∧
  ValidateLustreVolumeId (stripLustreOCIDPrefix (buildLustreVolumeHandle handle_fs)) = (true, "tcp").
Proof.
  split; [reflexivity|].
  destruct (lustre_handle_roundtrip handle_fs "ocid1.lustrefilesystem.a" "10.0.2.6" "tcp" "pvabc123") as (H1 & _ & H2 & _);
    [reflexivity..|].
  split; [exact H1|]. apply H2; [vm_compute; discriminate|reflexivity..].
Defined.
