(* ===== verification/Host.v ===== *)
(** * The host of a node (src/pkg/util/disk/mount_helper.go)

    The node services mount and unmount file systems, make and remove directories and run
    commands on the host.  The mounter of the Kubernetes libraries, the file system and the
    commands are the class [Host]; the helpers of mount_helper.go, and those of
    src/pkg/csi-util/utils.go that run commands, are modelled on it. *)
From stdpp Require Import base tactics list gmap sets strings.
From Stdlib Require Import Ascii.
From S2P Require Import Prelude GoStrings Types ClientErrors CsiUtil.

(** [os.ProcessState] and the error of [CombinedOutput]; the state is nil if the process
    was not waited for. *)
Record ProcessState := { ps_Success : bool; ps_String : string }.
Record exec_error := {
  xe_Error : string;
  xe_ProcessState : option ProcessState;
  xe_ExitStatus : option Z;
}.

Record MountPoint := { mp_Device : string; mp_Path : string }.

(** [golang.org/x/sync/semaphore]: the two semaphores of the driver of file systems. *)
Inductive semaphore := fssMountSemaphore | fssUnmountSemaphore.
Global Instance semaphore_eq_dec : EqDecision semaphore.
Proof. solve_decision. Defined.

(** Mounting has the path that was given to [mount.New]. *)
Class Host (W : Type) := {
  exec_Command : string → list string → W → (string * option exec_error) * W;
  IsLikelyNotMountPoint : string → M W bool;
  mount_IsNotMountPoint : string → M W bool;
  mounter_IsMountPoint : string → M W bool;
  mounter_List : M W (list MountPoint);
  mounter_Mount : string → string → string → string → list string → M W ();
  mounter_Unmount : string → M W ();
  mount_PathExists : string → M W bool;
  hostutil_PathExists : string → M W bool;
  hostutil_DeviceOpened : string → M W bool;
  os_MkdirAll : string → M W ();
  os_Remove : string → M W ();
  os_RemoveAll : string → M W ();
  os_IsNotExist : error → bool;
  Semaphore_Acquire : semaphore → M W ();
  Semaphore_Release : semaphore → W → W;
}.

Definition EncryptedUmountCommand : string := "encrypt-umount".
Definition EncryptionMountCommand : string := "encrypt-mount".
Definition UnmountCommand : string := "umount".
Definition FindMountCommand : string := "findmnt".
Definition errNotMounted : string := "not mounted".
Definition InTransitEncryptionPackageName : string := "oci-fss-utils".
Definition FIPS_ENABLED_FILE_PATH : string := "/host/proc/sys/crypto/fips_enabled".
Definition CAT_COMMAND : string := "cat".
Definition RPM_COMMAND : string := "rpm-host".

(** [strings.Fields], on the ASCII white space. *)
Fixpoint Fields_from (s word : string) : list string :=
  match s with
  | EmptyString => if decide (word = "") then [] else [word]
  | String c s' =>
      if Ascii.is_space c then (if decide (word = "") then [] else [word]) ++ Fields_from s' ""
      else Fields_from s' (word +:+ String c "")
  end.
Definition Fields (s : string) : list string := Fields_from s "".

Definition MakeMountArgs (source target fstype : string) (options : list string) : list string :=
  (if decide (fstype = "") then [] else ["-t"; fstype]) ++
  (if decide (options = []) then [] else ["-o"; join "," options]) ++
  (if decide (source = "") then [] else [source]) ++ [target].

Section host.
Context {W : Type} `{!Host W, !ErrorText}.

(** A command, its output and its error. *)
Definition run_command (name : string) (args : list string) : M W (string * option exec_error) := λ w,
  let '(r, w) := exec_Command name args w in (Ret r, w).

Definition command_failed {A} (format : string) (err : exec_error) (args : list string) : M W A :=
  fail (Errorf format (xe_Error err :: args)).

(** A process that was reaped by another is not an error if it succeeded. *)
Definition MountWithEncrypt (source target fstype : string) (options : list string) : M W () :=
  let mountArgs := MakeMountArgs source target fstype options in
  '(output, err) ← run_command EncryptionMountCommand mountArgs;
  match err with
  | None => mret ()
  | Some err =>
      if decide (xe_Error err = "wait: no child processes") then
        state ← lift (deref (xe_ProcessState err));
        if ps_Success state then mret ()
        else fail (Errorf "mount failed: %v\nMounting command: %s\nMounting arguments: %s\nOutput: %s"
                     [ps_String state; EncryptionMountCommand; join " " mountArgs; output])
      else command_failed "mount failed: %v\nMounting command: %s\nMounting arguments: %s\nOutput: %s" err
             [EncryptionMountCommand; join " " mountArgs; output]
  end.

Definition UnmountWithEncrypt (target : string) : M W () :=
  '(output, err) ← run_command EncryptedUmountCommand [target];
  match err with
  | None => mret ()
  | Some err => command_failed "Unmount failed: %v\nUnmounting command: %s\nUnmounting arguments: %s\nOutput: %v\n" err
                  [EncryptedUmountCommand; target; output]
  end.

Definition UnmountWithForce (targetPath : string) : M W () :=
  '(output, err) ← run_command UnmountCommand ["-f"; targetPath];
  match err with
  | None => mret ()
  | Some err => if Contains output errNotMounted then mret () else status Internal "%s" [xe_Error err]
  end.

Definition FindMount (target : string) : M W (list string) :=
  '(output, err) ← run_command FindMountCommand ["-n"; "-o"; "SOURCE"; "-T"; target];
  match err with
  | None => mret (Fields output)
  | Some err => command_failed "findmnt failed: %v\narguments: %s\nOutput: %v\n" err [target; output]
  end.

(** The directory is removed, with three attempts; that it cannot be removed is not an
    error. *)
Fixpoint remove_attempts (n : nat) (mountPath : string) : M W () :=
  match n with
  | 0 => mret ()
  | S n => r ← try (os_Remove mountPath); match r with inr _ => mret () | inl _ => remove_attempts n mountPath end
  end.
Definition WaitForDirectoryDeletion (mountPath : string) : M W () := remove_attempts 3 mountPath.

(** After an unmount, an error of the check is dropped: the error that is returned is that
    of the check before, which is nil. *)
Definition UnmountPath (mountPath : string) : M W () :=
  pathExists ← report (mount_PathExists mountPath) (λ err, fail (Errorf "Error checking if path exists: %v" [Error err]));
  if negb pathExists then mret () else
  notMnt ← IsLikelyNotMountPoint mountPath;
  if notMnt : bool then os_Remove mountPath else
  _ ← mounter_Unmount mountPath;
  r ← try (IsLikelyNotMountPoint mountPath);
  match r with
  | inl _ => mret ()
  | inr true => WaitForDirectoryDeletion mountPath
  | inr false => fail (Errorf "Failed to unmount path %v" [mountPath])
  end.

(** The lines that blkid prints: the type of the file system and that of the partition
    table. *)
Fixpoint blkid_lines (lines : list string) (types : string * string) : option (string * string) :=
  match lines with
  | [] => Some types
  | l :: lines =>
      if decide (l = "") then blkid_lines lines types else
      match split_on "=" l with
      | [key; value] =>
          blkid_lines lines (if decide (key = "TYPE") then (value, types.2)
                             else if decide (key = "PTTYPE") then (types.1, value) else types)
      | _ => None
      end
  end.

(** The status 2 of blkid says that the disk is not formatted. *)
Definition getDiskFormat (disk : string) : M W string :=
  '(output, err) ← run_command "blkid" ["-p"; "-s"; "TYPE"; "-s"; "PTTYPE"; "-o"; "export"; disk];
  match err with
  | Some err => if decide (xe_ExitStatus err = Some 2%Z) then mret "" else fail (Errorf "%v" [xe_Error err])
  | None =>
      match blkid_lines (split_on "010" output) ("", "") with
      | None => fail (Errorf "blkid returns invalid output: %s" [output])
      | Some (fstype, pttype) => mret (if decide (pttype = "") then fstype else "unknown data, probably partitions")
      end
  end.

Definition deviceOpened (pathname : string) : M W bool :=
  exists_ ← hostutil_PathExists pathname;
  if exists_ : bool then hostutil_DeviceOpened pathname else mret false.

(** ** Commands of utils.go *)

Definition IsFipsEnabled : M W string :=
  '(output, err) ← run_command CAT_COMMAND [FIPS_ENABLED_FILE_PATH];
  match err with
  | None => mret output
  | Some err => command_failed "command failed: %v\narguments: %s\nOutput: %v\n" err [CAT_COMMAND; output]
  end.

Definition IsInTransitEncryptionPackageInstalled : M W bool :=
  '(output, err) ← run_command RPM_COMMAND ["-q"; InTransitEncryptionPackageName];
  match err with
  | None => mret (Contains output InTransitEncryptionPackageName && negb (Contains output "not installed"))
  | Some err => command_failed "command failed: %v\narguments: %s\nOutput: %v\n" err [RPM_COMMAND; output]
  end.

Definition GetBlockSizeBytes (devicePath : string) : M W Z :=
  '(output, err) ← run_command "blockdev" ["--getsize64"; devicePath];
  match err with
  | None => match Atoi (TrimSpace output) with
            | Some size => mret size
            | None => fail (Errorf "failed to parse size %s into an int64 size" [TrimSpace output])
            end
  | Some err => command_failed "command failed: %v\narguments: %s\nOutput: %v\n" err ["blockdev"; output]
  end.
End host.
