(* ===== verification/LustreNet.v ===== *)
(** * The network of Lustre clients (src/pkg/csi-util/lustre_lnet_helper.go)

    The node service of the Lustre driver loads the kernel module of LNet, configures the
    network interfaces of the worker node and sets parameters of the client, with commands
    that a shell of the node runs.  Every part of a command that comes from a request is
    checked before ([isValidShellInput] in Lustre). *)
From stdpp Require Import base tactics list gmap sets strings.
From Stdlib Require Import Ascii.
From S2P Require Import Prelude GoStrings GoNet Types ClientErrors CsiUtil BlockVolume FileStorageClient FileStorage LustreClient Lustre Host.

Record LocalNI := {
  ni_NID : string;
  ni_Status : string;
  ni_Interfaces : gmap Z string;
}.
Record Net := { net_NetType : string; net_LocalNI : list LocalNI }.
Record NetInfo := { info_Net : list Net }.

Record NetInterface := {
  InterfaceIPv4 : string;
  InterfaceName : string;
  LnetConfigured : bool;
}.

(** The interfaces of the node by name, the texts of their addresses, and
    [yaml.Unmarshal] of what lnetctl prints. *)
Class LnetHost (W : Type) := {
  net_Interfaces : M W (list string);
  Interface_Addrs : string → M W (list string);
  yaml_NetInfo : string → error + NetInfo;
}.

Definition LOAD_LNET_KERNEL_MODULE_COMMAND : string := "modprobe lnet".
Definition CONFIGURE_LNET_KERNEL_SERVICE_COMMAND : string := "lnetctl lnet configure".
Definition SHOW_CONFIGURED_LNET (net : string) : string := "lnetctl net show --net " +:+ net.
Definition DELETE_LNET_INTERFACE (net : string) : string := "lnetctl net del --net " +:+ net.
Definition CONFIGURE_LNET_INTERFACE (net interface : string) : string :=
  "lnetctl net add --net " +:+ net +:+ " --if " +:+ interface +:+ " --peer-timeout 180 --peer-credits 120 --credits 1024".
Definition LCTL_SET_PARAM (key value : string) : string := "lctl set_param " +:+ key +:+ "=" +:+ value.
Definition LFS_VERSION_COMMAND : string := "lfs --version".

(** The address in a block that [net.ParseCIDR] accepts. *)
Definition cidr_ip (s : string) : option (list Z) :=
  match net_ParseCIDR s, Index s "/" with
  | Some _, Some i => net_ParseIP (String.substring 0 i s)
  | _, _ => None
  end.

Definition local_nis (info : NetInfo) : list LocalNI := concat (net_LocalNI <$> info_Net info).

(** What an entry says of an interface: that it is configured, or that it is stale. *)
Definition ni_configures (lnetLabel : string) (i : NetInterface) (ni : LocalNI) : bool :=
  bool_decide (ni_Interfaces ni !! 0%Z = Some (InterfaceName i)) && bool_decide (ni_Status ni = "up") &&
  bool_decide (ni_NID ni = InterfaceIPv4 i +:+ "@" +:+ lnetLabel).
Definition ni_stale (lnetLabel : string) (i : NetInterface) (ni : LocalNI) : option string :=
  match ni_Interfaces ni !! 0%Z with
  | None => None
  | Some existing =>
      if decide (ni_Status ni = "up" ∧ existing = InterfaceName i) then
        if decide (ni_NID ni = InterfaceIPv4 i +:+ "@" +:+ lnetLabel) then None else Some existing
      else if decide (ni_Status ni = "down") then Some existing else None
  end.

Definition mark_configured (lnetLabel : string) (info : NetInfo) (i : NetInterface) : NetInterface := {|
  InterfaceIPv4 := InterfaceIPv4 i; InterfaceName := InterfaceName i;
  LnetConfigured := LnetConfigured i || existsb (ni_configures lnetLabel i) (local_nis info) |}.
Definition stale_interfaces (lnetLabel : string) (info : NetInfo) (l : list NetInterface) : list string :=
  concat ((λ i, omap (ni_stale lnetLabel i) (local_nis info)) <$> l).

Section lnet.
Context {W : Type} `{!Host W, !LnetHost W, !ErrorText, !LustreJson, !MapRange}.

Definition ExecuteCommandOnWorkerNode (arg : string) : M W string :=
  '(output, err) ← run_command "chroot-bash" [arg];
  match err with
  | None => mret output
  | Some _ => fail (Errorf "Command failed: %v\nOutput: %v\n" [arg; output])
  end.

Definition IsLustreClientPackagesInstalled : M W bool :=
  r ← try (ExecuteCommandOnWorkerNode LFS_VERSION_COMMAND);
  mret match r with inl _ => false | inr _ => true end.

(** The addresses of one interface that are IPv4 addresses of the subnet. *)
Definition matching_addresses (subnet : IPNet) (name : string) (addrs : list string) : list NetInterface :=
  omap (λ addr,
    match cidr_ip addr with
    | Some ip => if bool_decide (is_Some (To4 (Some ip))) && Contains_IP subnet (Some ip)
                 then Some {| InterfaceIPv4 := IP_String ip; InterfaceName := name; LnetConfigured := false |} else None
    | None => None
    end) addrs.

(** An interface whose addresses cannot be read is skipped. *)
Fixpoint matching_interfaces (subnet : IPNet) (interfaces : list string) : M W (list NetInterface) :=
  match interfaces with
  | [] => mret []
  | name :: interfaces =>
      addrs ← try (Interface_Addrs name);
      rest ← matching_interfaces subnet interfaces;
      mret (match addrs with inl _ => [] | inr addrs => matching_addresses subnet name addrs end ++ rest)
  end.

Definition GetNetInterfacesInSubnet (subnetCIDR : string) : M W (list NetInterface) :=
  match net_ParseCIDR subnetCIDR with
  | None => fail (Errorf "Failed to parse subnetCIDR %v  with error : %v" [subnetCIDR])
  | Some subnet =>
      interfaces ← report net_Interfaces (λ err, fail (Errorf "Failed to get net interfaces on host with error : %v" [Error err]));
      matching_interfaces subnet interfaces
  end.

Definition GetLnetInfoByLnetLabel (lnetLabel : string) : M W NetInfo :=
  output ← report (ExecuteCommandOnWorkerNode (SHOW_CONFIGURED_LNET lnetLabel))
             (λ err, fail (Errorf "Failed to get existing configured lnet information with error : %v" [Error err]));
  match yaml_NetInfo output with
  | inl err => fail (Errorf "Failed to parse lnet information with error : %v" [Error err])
  | inr info => mret info
  end.

Definition ConfigureLnet (interfaces : list NetInterface) (lnetLabel : string) (netInfo : NetInfo) : M W () :=
  let stale := stale_interfaces lnetLabel netInfo interfaces in
  let interfaces := mark_configured lnetLabel netInfo <$> interfaces in
  _ ← (if decide (stale = []) then mret ""
       else report (ExecuteCommandOnWorkerNode (DELETE_LNET_INTERFACE lnetLabel))
              (λ _, fail (Errorf "Failed to delete stale lnet interface %v" stale)));
  forM interfaces (λ i,
    if negb (LnetConfigured i) || negb (bool_decide (stale = [])) then
      _ ← report (ExecuteCommandOnWorkerNode (CONFIGURE_LNET_INTERFACE lnetLabel (InterfaceName i)))
            (λ _, fail (Errorf "Lnet configuration failed for interface %s." [InterfaceName i]));
      mret ()
    else mret ()).

(** What is found is only logged. *)
Definition VerifyLnetConfiguration (lnetLabel : string) : M W () :=
  _ ← GetLnetInfoByLnetLabel lnetLabel;
  mret ().

Definition package_hint (lustreClientPackagesInstalled : bool) : string :=
  if lustreClientPackagesInstalled then "" else "Please make sure that lustre client packages are installed on worker nodes.".

Definition SetupLnet (lustreSubnetCIDR lnetLabel : string) : M W () :=
  interfaces ← GetNetInterfacesInSubnet lustreSubnetCIDR;
  if decide (interfaces = []) then fail (Errorf "No VNIC identified on worker node to configure lnet." []) else
  installed ← IsLustreClientPackagesInstalled;
  _ ← report (ExecuteCommandOnWorkerNode LOAD_LNET_KERNEL_MODULE_COMMAND)
        (λ err, fail (Errorf "Failed to load lnet kernel module with error : %v. %s" [Error err; package_hint installed]));
  _ ← report (ExecuteCommandOnWorkerNode CONFIGURE_LNET_KERNEL_SERVICE_COMMAND)
        (λ err, fail (Errorf "Failed to configure lnet kernel service with error : %v. %s" [Error err; package_hint installed]));
  netInfo ← GetLnetInfoByLnetLabel lnetLabel;
  _ ← ConfigureLnet interfaces lnetLabel netInfo;
  VerifyLnetConfiguration lnetLabel.

(** LNet is active if one of its interfaces is up; what cannot be read is not. *)
Definition IsLnetActive (lnetLabel : string) : M W bool :=
  r ← try (GetLnetInfoByLnetLabel lnetLabel);
  mret match r with
       | inl _ => false
       | inr info => existsb (λ ni, bool_decide (ni_Status ni = "up")) (local_nis info)
       end.

Definition ApplyLustreParameters (lustreParamsJson : string) : M W () :=
  if decide (lustreParamsJson = "") then mret () else
  match json_parameters lustreParamsJson with
  | inl err => fail err
  | inr lustreParams =>
      forM (imap (λ site param, range site param) lustreParams) (λ param,
        forM param (λ kv, _ ← ExecuteCommandOnWorkerNode (LCTL_SET_PARAM kv.1 kv.2); mret ()))
  end.
End lnet.
