(* ===== verification/NodeServices.v ===== *)
(** * The node services of file systems (src/pkg/csi/driver)

    Staging, publication and their reverses by the driver of the file storage service
    (fss_node.go) and the Lustre driver (lustre_node.go), on the host of the node.  The
    state of a driver (driver.go) has the locks on volumes, what is known of the node and
    the configuration of the drivers, which is read once. *)
From stdpp Require Import base tactics list gmap sets strings.
From S2P Require Import Prelude GoStrings GoNet Types ClientErrors CsiUtil BlockVolume FileStorageClient FileStorage LustreClient Lustre Host LustreNet.

(** src/pkg/util/commons.go. *)
Record DriverConfig := {
  SkipNodeUnstage : bool;
  SkipLustreParameters : bool;
  SkipBrokenSymLinks : bool;
}.
Record CSIConfig := {
  cfg_Lustre : option DriverConfig;
  cfg_Bv : option DriverConfig;
  cfg_IsLoaded : bool;
}.

(** Configuration maps of the namespace kube-system, and [yaml.Unmarshal] into a driver
    configuration, which may change it although it fails. *)
Class KubeConfigMaps (W : Type) := {
  ConfigMaps_Get : string → M W (gmap string string);
  yaml_DriverConfig : string → option DriverConfig → option DriverConfig;
}.

Definition CSIConfigMapName : string := "oci-csi-config".
Definition FipsEnabled : string := "1".
Definition volumeOperationAlreadyExistsFmt : string := "An operation for the volume: %s already exists.".
Definition fssMountSemaphore_weight : Z := 2.
Definition fssUnmountSemaphore_weight : Z := 4.

(** [NodeDriver], with the state of the host. *)
Record NodeDriver (W : Type) := {
  nd_volumeLocks : VolumeLocks;
  nd_nodeMetadata : NodeMetadata;
  nd_csiConfig : CSIConfig;
  nd_host : W;
}.
Arguments nd_volumeLocks {_} _.
Arguments nd_nodeMetadata {_} _.
Arguments nd_csiConfig {_} _.
Arguments nd_host {_} _.

(** The fields that the drivers read of a capability with access type mount. *)
Record MountVolume := { mv_FsType : string; mv_MountFlags : list string }.

Record NodeStageRequest := {
  nsr_VolumeId : string;
  nsr_StagingTargetPath : string;
  nsr_Mount : option MountVolume;
  nsr_VolumeContext : gmap string string;
}.
Record NodePublishRequest := {
  npr_VolumeId : string;
  npr_StagingTargetPath : string;
  npr_TargetPath : string;
  npr_Readonly : bool;
  npr_VolumeContext : gmap string string;
}.

Section node.
Context {W : Type} `{!Host W, !LnetHost W, !KubeNodes W, !KubeConfigMaps W, !ErrorText, !LustreJson, !MapRange}.
Context (nodeID : string).

Abbreviation D := (NodeDriver W).

(** ** The state *)

Definition host {A} (c : M W A) : M D A := λ s,
  let '(o, w) := c (nd_host s) in
  (o, {| nd_volumeLocks := nd_volumeLocks s; nd_nodeMetadata := nd_nodeMetadata s; nd_csiConfig := nd_csiConfig s; nd_host := w |}).
Definition set_locks (locks : VolumeLocks) (s : D) : D := {|
  nd_volumeLocks := locks; nd_nodeMetadata := nd_nodeMetadata s; nd_csiConfig := nd_csiConfig s; nd_host := nd_host s |}.
Definition set_metadata (m : NodeMetadata) (s : D) : D := {|
  nd_volumeLocks := nd_volumeLocks s; nd_nodeMetadata := m; nd_csiConfig := nd_csiConfig s; nd_host := nd_host s |}.
Definition set_config (c : CSIConfig) (s : D) : D := {|
  nd_volumeLocks := nd_volumeLocks s; nd_nodeMetadata := nd_nodeMetadata s; nd_csiConfig := c; nd_host := nd_host s |}.
Definition modify (f : D → D) : M D () := λ s, (Ret (), f s).
Definition get {A} (f : D → A) : M D A := λ s, (Ret (f s), s).

(** The lock is released on every path. *)
Definition with_volume_lock {A} (volumeID : string) (c : M D A) : M D A := λ s,
  let '(acquired, locks) := VolumeLocks_TryAcquire (nd_volumeLocks s) volumeID in
  if acquired : bool then
    let '(o, s) := c (set_locks locks s) in (o, set_locks (VolumeLocks_Release (nd_volumeLocks s) volumeID) s)
  else status Aborted volumeOperationAlreadyExistsFmt [volumeID] s.

(** So is the semaphore, if it was acquired before the deadline. *)
Definition releasing {A} (sem : semaphore) (c : M D A) : M D A := λ s,
  let '(o, s) := c s in
  (o, {| nd_volumeLocks := nd_volumeLocks s; nd_nodeMetadata := nd_nodeMetadata s; nd_csiConfig := nd_csiConfig s;
         nd_host := Semaphore_Release sem (nd_host s) |}).
Definition with_semaphore {A} (sem : semaphore) (message : string) (c : M D A) : M D A :=
  _ ← report (host (Semaphore_Acquire sem)) (λ _, status Aborted message []);
  releasing sem c.

(** What cannot be read is left as it is. *)
Definition LoadCSIConfigFromConfigMap (csiConfig : CSIConfig) : M W CSIConfig :=
  r ← try (ConfigMaps_Get CSIConfigMapName);
  mret match r with
       | inl _ => csiConfig
       | inr data =>
           {| cfg_Lustre := match data !! "lustre" with Some y => yaml_DriverConfig y (cfg_Lustre csiConfig) | None => cfg_Lustre csiConfig end;
              cfg_Bv := match data !! "blockVolume" with Some y => yaml_DriverConfig y (cfg_Bv csiConfig) | None => cfg_Bv csiConfig end;
              cfg_IsLoaded := cfg_IsLoaded csiConfig |}
       end.

Definition loadCSIConfig : M D () :=
  cfg ← get nd_csiConfig;
  if cfg_IsLoaded cfg then mret () else
  cfg ← host (LoadCSIConfigFromConfigMap cfg);
  modify (set_config {| cfg_Lustre := cfg_Lustre cfg; cfg_Bv := cfg_Bv cfg; cfg_IsLoaded := true |}).

(** An error leaves the metadata as they are; the file system drivers do not look at it. *)
Definition load_metadata : M D (option error) :=
  m ← get nd_nodeMetadata;
  if IsNodeMetadataLoaded m then mret None else
  r ← try (host (LoadNodeMetadataFromApiServer nodeID m));
  match r with inl err => mret (Some err) | inr m => _ ← modify (set_metadata m); mret None end.

(** ** Mount points *)

Definition isMountPoint (path : string) : M W bool :=
  notMnt ← IsLikelyNotMountPoint path;
  mret (negb notMnt).

(** Is there a mount point?  A path that does not exist is created. *)
Definition mounted_at (check : M W bool) (path message : string) : M W bool :=
  r ← try check;
  match r with
  | inr mounted => mret mounted
  | inl err =>
      if os_IsNotExist err then _ ← report (os_MkdirAll path) (λ _, status Internal message []); mret false
      else status Internal "%s" [Error err]
  end.

Definition is_mount_point (path : string) : M W bool :=
  notMnt ← mount_IsNotMountPoint path;
  mret (negb notMnt).

(** What is done at a path that may be a mount point: a path that does not exist is left
    alone, one that is no mount point is removed, and a mount point is unmounted. *)
Definition unmount_or_remove (check : M W bool) (path : string) (unmount : M W ()) : M W () :=
  r ← try check;
  match r with
  | inl err => if os_IsNotExist err then mret () else status Internal "%s" [Error err]
  | inr false => report (os_RemoveAll path) (λ _, status Internal "Failed to remove target path" [])
  | inr true => unmount
  end.

Definition bind_mount (mounter : string) (source target : string) (readonly : bool) : M W () :=
  report (mounter_Mount mounter source target "" ("bind" :: if readonly then ["ro"] else []))
    (λ err, status Internal "%s" [Error err]).

(** ** The file storage service *)

Definition isInTransitEncryptionEnabled (volumeContext : gmap string string) : option bool :=
  match volumeContext !! "encryptInTransit" with Some v => ParseBool v | None => Some false end.

(** With encryption: the type of the file system and whether FIPS is enabled. *)
Definition encryption_options (options : list string) : M W (list string) :=
  installed ← report IsInTransitEncryptionPackageInstalled
    (λ _, status Internal "FSS in-transit encryption Package installation check failed" []);
  if negb installed
  then status "FailedPrecondition" "Package %s not installed for in-transit encryption" [InTransitEncryptionPackageName] else
  content ← report IsFipsEnabled (λ _, status Internal "Could not verify if FIPS enabled" []);
  mret (if bool_decide (0 < String.length content) && Contains content FipsEnabled then options ++ ["fips"] else options).

Definition fss_source (mountTargetIP exportPath : string) : string := FormatValidIp mountTargetIP +:+ ":" +:+ exportPath.

(** The mount itself, with the lock and the semaphore. *)
Definition fss_stage (encryptInTransit : bool) (source targetPath fsType : string) (options : list string) : M W () :=
  mountPoint ← mounted_at (isMountPoint targetPath) targetPath "Failed to create StagingTargetPath directory";
  if mountPoint : bool then mret () else
  report (if encryptInTransit then MountWithEncrypt source targetPath fsType options
          else mounter_Mount "" source targetPath fsType options)
    (λ err, status Internal "%s" [Error err]).

Definition check_ip_family (mountTargetIP : string) (m : NodeMetadata) : M D () :=
  if IsIpv4 mountTargetIP && negb (Ipv4Enabled m)
  then status InvalidArgument "Ipv4 mount target identified in volume id, but worker node does not support ipv4 ip family." []
  else if IsIpv6 mountTargetIP && negb (Ipv6Enabled m)
  then status InvalidArgument "Ipv6 mount target identified in volume id, but worker node does not support ipv6 ip family." []
  else mret ().

Definition Fss_NodeStageVolume (req : NodeStageRequest) : M D () :=
  if decide (nsr_VolumeId req = "") then status InvalidArgument "Volume ID must be provided" [] else
  if decide (nsr_StagingTargetPath req = "") then status InvalidArgument "Staging path must be provided" [] else
  let handler := ValidateFssId (nsr_VolumeId req) in
  let mountTargetIP := MountTargetIPAddress handler in let exportPath := FsExportPath handler in
  if decide (mountTargetIP = "" ∨ exportPath = "") then status InvalidArgument "Invalid Volume ID provided" [] else
  _ ← load_metadata;
  m ← get nd_nodeMetadata;
  _ ← check_ip_family mountTargetIP m;
  let options := match nsr_Mount req with Some mnt => mv_MountFlags mnt | None => [] end in
  let fsType := match nsr_Mount req with Some mnt => mv_FsType mnt | None => "" end in
  match isInTransitEncryptionEnabled (nsr_VolumeContext req) with
  | None => status InvalidArgument "EncryptInTransit must be a boolean value" []
  | Some encryptInTransit =>
      options ← (if encryptInTransit then host (encryption_options options) else mret options);
      let fsType := if encryptInTransit then "oci-fss" else fsType in
      with_volume_lock (nsr_VolumeId req)
        (with_semaphore fssMountSemaphore "Too many mount requests."
           (host (fss_stage encryptInTransit (fss_source mountTargetIP exportPath) (nsr_StagingTargetPath req) fsType options)))
  end.

Definition Fss_NodePublishVolume (req : NodePublishRequest) : M D () :=
  if decide (npr_VolumeId req = "") then status InvalidArgument "Volume ID must be provided" [] else
  if decide (npr_StagingTargetPath req = "") then status InvalidArgument "Staging path must be provided" [] else
  if decide (npr_TargetPath req = "") then status InvalidArgument "Target Path must be provided" [] else
  mounted ← host (mounted_at (is_mount_point (npr_TargetPath req)) (npr_TargetPath req) "Failed to create TargetPath directory");
  if mounted : bool then mret () else
  with_semaphore fssMountSemaphore "Too many mount requests."
    (host (bind_mount "" (npr_StagingTargetPath req) (npr_TargetPath req) (npr_Readonly req))).

(** The semaphore is acquired only before an unmount. *)
Definition Fss_NodeUnpublishVolume (volumeId targetPath : string) : M D () :=
  if decide (volumeId = "") then status InvalidArgument "NodeUnpublishVolume: Volume ID must be provided" [] else
  if decide (targetPath = "") then status InvalidArgument "NodeUnpublishVolume: Target Path must be provided" [] else
  r ← try (host (is_mount_point targetPath));
  match r with
  | inl err => if os_IsNotExist err then mret () else status Internal "%s" [Error err]
  | inr false => host (report (os_RemoveAll targetPath) (λ _, status Internal "Failed to remove target path" []))
  | inr true =>
      with_semaphore fssUnmountSemaphore "To many unmount requests."
        (host (report (mounter_Unmount targetPath) (λ err, status Internal "%s" [Error err])))
  end.

(** A source that ends with the export path but does not start with the address of the
    mount target is an encrypted one. *)
Definition encrypted_source (exportPath mountTargetIP device : string) : bool :=
  HasSuffix device exportPath && negb (HasPrefix device mountTargetIP).

Definition unmountAndCleanup (targetPath exportPath mountTargetIP : string) : M W () :=
  unmount_or_remove (is_mount_point targetPath) targetPath
    (sources ← report (FindMount targetPath) (λ _, status Internal "Find Mount failed for target path" []);
     report (if existsb (encrypted_source exportPath mountTargetIP) sources then UnmountWithEncrypt targetPath
             else mounter_Unmount targetPath)
       (λ err, status Internal "%s" [Error err])).

Definition Fss_NodeUnstageVolume (volumeId stagingTargetPath : string) : M D () :=
  if decide (volumeId = "") then status InvalidArgument "Volume ID must be provided" [] else
  if decide (stagingTargetPath = "") then status InvalidArgument "Staging path must be provided" [] else
  let handler := ValidateFssId volumeId in
  let mountTargetIP := MountTargetIPAddress handler in let exportPath := FsExportPath handler in
  if decide (mountTargetIP = "" ∨ exportPath = "") then status InvalidArgument "Invalid Volume ID provided" [] else
  with_volume_lock volumeId
    (with_semaphore fssUnmountSemaphore "To many unmount requests."
       (host (unmountAndCleanup stagingTargetPath exportPath mountTargetIP))).

Definition NodeGetCapabilities : list string := ["STAGE_UNSTAGE_VOLUME"].

(** The zone of the node under both labels; the Lustre driver answers the same. *)
Definition NodeGetInfo : M D (string * gmap string string) :=
  loaded ← get (λ s, IsNodeMetadataLoaded (nd_nodeMetadata s));
  err ← load_metadata;
  m ← get nd_nodeMetadata;
  if negb loaded && (bool_decide (is_Some err) || bool_decide (AvailabilityDomain m = ""))
  then status Internal "Failed to get availability domain of node from kube api server." []
  else mret (nodeID, {[LabelZoneFailureDomain := AvailabilityDomain m; LabelTopologyZone := AvailabilityDomain m]}).

Definition Fss_NodeGetVolumeStats : M D () := status Unimplemented "NodeGetVolumeStats is not supported yet" [].
Definition Fss_NodeExpandVolume : M D () := status Unimplemented "NodeExpandVolume is not supported yet" [].

(** ** Lustre *)

Definition mountPath : string := "mount".

Definition isSkipLustreParams (csiConfig : CSIConfig) : bool :=
  match cfg_Lustre csiConfig with Some c => SkipLustreParameters c | None => false end.

(** LNet is set up if the volume asks for it; without a subnet, for the address of the
    node alone. *)
Definition setup_lnet (volumeContext : gmap string string) (lnetLabel : string) : M D () :=
  if decide (volumeContext !! "setupLnet" = Some "true") then
    m ← get nd_nodeMetadata;
    let lustreSubnetCIDR := default (nm_NodeInternalIP m +:+ "/32") (volumeContext !! "lustreSubnetCidr") in
    host (report (SetupLnet lustreSubnetCIDR lnetLabel) (λ err, status Internal "Failed to setup lnet with error : %v" [Error err]))
  else mret ().

(** Parameters are set after the mount, which is undone if they cannot be set. *)
Definition apply_parameters (targetPath : string) (parameters : option string) : M D () :=
  match parameters with
  | None => mret ()
  | Some parameters =>
      _ ← loadCSIConfig;
      cfg ← get nd_csiConfig;
      if isSkipLustreParams cfg then mret () else
      host (report (ApplyLustreParameters parameters) (λ err,
        _ ← try (mounter_Unmount targetPath);
        status Internal "Failed to apply lustre post mount parameters : %v. Please make sure correct lustre parameter is used." [Error err]))
  end.

Definition lustre_stage (mnt : MountVolume) (source targetPath lnetLabel : string) (volumeContext : gmap string string) : M D () :=
  _ ← setup_lnet volumeContext lnetLabel;
  mountPoint ← host (mounted_at (isMountPoint targetPath) targetPath "Failed to create StagingTargetPath directory");
  if mountPoint : bool then mret () else
  _ ← host (report (mounter_Mount mountPath source targetPath (mv_FsType mnt) (mv_MountFlags mnt))
              (λ err, status Internal "Failed to mount volume to staging target path with error : %v" [Error err]));
  apply_parameters targetPath (volumeContext !! "lustrePostMountParameters").

Definition Lustre_NodeStageVolume (req : NodeStageRequest) : M D () :=
  if decide (nsr_VolumeId req = "") then status InvalidArgument "Volume ID must be provided" [] else
  if decide (nsr_StagingTargetPath req = "") then status InvalidArgument "Staging path must be provided" [] else
  match nsr_Mount req with
  | None => status InvalidArgument "Invalid fsType provided. Only lustre fsType is supported on this driver." []
  | Some mnt =>
      if decide (mv_FsType mnt ≠ "lustre")
      then status InvalidArgument "Invalid fsType provided. Only lustre fsType is supported on this driver." [] else
      let normalizedVolID := stripLustreOCIDPrefix (nsr_VolumeId req) in
      let '(isValid, lnetLabel) := ValidateLustreVolumeId normalizedVolID in
      if negb isValid then status InvalidArgument "Invalid Volume Handle provided." [] else
      _ ← loadCSIConfig;
      _ ← load_metadata;
      cfg ← get nd_csiConfig;
      match nsr_VolumeContext req !! "lustrePostMountParameters" with
      | Some parameters =>
          match (if isSkipLustreParams cfg then None else ValidateLustreParameters parameters) with
          | Some err => status InvalidArgument "Invalid lustre parameters provided : %v" [Error err]
          | None => with_volume_lock (nsr_VolumeId req)
                      (lustre_stage mnt normalizedVolID (nsr_StagingTargetPath req) lnetLabel (nsr_VolumeContext req))
          end
      | None => with_volume_lock (nsr_VolumeId req)
                  (lustre_stage mnt normalizedVolID (nsr_StagingTargetPath req) lnetLabel (nsr_VolumeContext req))
      end
  end.

(** Without an active LNet a plain unmount would hang. *)
Definition lustre_unmount (lnetLabel targetPath message : string) : M W () :=
  active ← IsLnetActive lnetLabel;
  if negb active
  then report (UnmountWithForce targetPath) (λ err, status Internal "Failed to unmount target path with error : %v" [Error err]) else
  unmount_or_remove (mounter_IsMountPoint targetPath) targetPath
    (report (mounter_Unmount targetPath) (λ err, status Internal message [Error err])).

Definition Lustre_NodeUnstageVolume (volumeId stagingTargetPath : string) : M D () :=
  if decide (volumeId = "") then status InvalidArgument "Volume ID must be provided" [] else
  if decide (stagingTargetPath = "") then status InvalidArgument "Staging path must be provided" [] else
  let '(isValid, lnetLabel) := ValidateLustreVolumeId (stripLustreOCIDPrefix volumeId) in
  if negb isValid then status InvalidArgument "Invalid Volume Handle provided." [] else
  _ ← loadCSIConfig;
  cfg ← get nd_csiConfig;
  if (match cfg_Lustre cfg with Some c => SkipNodeUnstage c | None => false end) then mret () else
  with_volume_lock volumeId
    (host (lustre_unmount lnetLabel stagingTargetPath "Failed to unmount staging target path with error : %v")).

Definition Lustre_NodePublishVolume (req : NodePublishRequest) : M D () :=
  if decide (npr_VolumeId req = "") then status InvalidArgument "Volume ID must be provided" [] else
  if decide (npr_StagingTargetPath req = "") then status InvalidArgument "Staging path must be provided" [] else
  if decide (npr_TargetPath req = "") then status InvalidArgument "Target Path must be provided" [] else
  let '(isValid, lnetLabel) := ValidateLustreVolumeId (stripLustreOCIDPrefix (npr_VolumeId req)) in
  if negb isValid then status InvalidArgument "Invalid Volume Handle provided." [] else
  _ ← load_metadata;
  _ ← setup_lnet (npr_VolumeContext req) lnetLabel;
  mounted ← host (mounted_at (is_mount_point (npr_TargetPath req)) (npr_TargetPath req) "Failed to create TargetPath directory");
  if mounted : bool then mret () else
  host (bind_mount mountPath (npr_StagingTargetPath req) (npr_TargetPath req) (npr_Readonly req)).

Definition Lustre_NodeUnpublishVolume (volumeId targetPath : string) : M D () :=
  if decide (volumeId = "") then status InvalidArgument "NodeUnpublishVolume: Volume ID must be provided" [] else
  if decide (targetPath = "") then status InvalidArgument "NodeUnpublishVolume: Target Path must be provided" [] else
  let '(isValid, lnetLabel) := ValidateLustreVolumeId (stripLustreOCIDPrefix volumeId) in
  if negb isValid then status InvalidArgument "Invalid Volume Handle provided." [] else
  host (lustre_unmount lnetLabel targetPath "Failed to unmount target path with error : %v").

Definition Lustre_NodeGetVolumeStats : M D () := status Unimplemented "NodeGetVolumeStats is not supported." [].
Definition Lustre_NodeExpandVolume : M D () := status Unimplemented "NodeExpandVolume is not supported." [].
End node.
