(* ===== verification/NodeServicesFacts.v ===== *)
(** * What the node services achieve

    Given laws of the host ([HostLaws]), a staged or published volume is mounted, nothing is
    mounted over a published volume, unmounting frees the path, other mount points and the
    contents of volumes are left alone, and locks and semaphores are given back. *)
From stdpp Require Import base tactics list gmap sets strings.
From Stdlib Require Import Ascii.
From S2P Require Import Prelude GoStrings GoNet Types ClientErrors CsiUtil BlockVolume FileStorageClient FileStorage LustreClient Lustre LustreFacts Host LustreNet NodeServices.

(** A mount, as the arguments of the request that made it. *)
Abbreviation mount_entry := (list string).

(** What a request to mount with the options [os] does to the mounts of a path, the last one
    first.  A bind mount is made by two commands, of which the second one sets the options:
    the first mount is left if the second one fails.  Without [bind], [remount] only changes
    the options of a mount. *)
Definition mount_step (os : list string) (e : mount_entry) (done : bool) (l l' : list mount_entry) : Prop :=
  if decide ("bind" ∈ os) then if done then l' = e :: l else l' = l ∨ l' = e :: l
  else if decide ("remount" ∈ os) then l' = l ∧ (done = true → l ≠ [])
  else if done then l' = e :: l else l' = l.

Lemma mount_step_may os e done l l' :
  mount_step os e done l l' → (l' = l ∨ l' = e :: l) ∧ (done = true → l' ≠ []).
Proof. unfold mount_step. repeat case_decide; destruct done; naive_solver. Qed.
Lemma mount_step_bind os e l l' : "bind" ∈ os → mount_step os e true l l' → l' = e :: l.
Proof. intros Hb. unfold mount_step. by rewrite decide_True. Qed.
Lemma mount_step_plain os e done l l' : "remount" ∉ os → mount_step os e done l l' →
  if done then l' = e :: l else l' = l ∨ ("bind" ∈ os ∧ l' = e :: l).
Proof. intros Hr. unfold mount_step. case_decide; [|rewrite decide_False by done]; destruct done; naive_solver. Qed.

Definition below (p q : string) : Prop := ∃ rest, q = p +:+ "/" +:+ rest.

(** A mount that does as it is told. *)
Definition mount_on (os : list string) (e : mount_entry) (l : list mount_entry) : option (list mount_entry) :=
  if decide ("bind" ∈ os ∨ "remount" ∉ os) then Some (e :: l) else if decide (l = []) then None else Some l.
Lemma mount_on_step os e l : mount_step os e (bool_decide (is_Some (mount_on os e l))) l (default l (mount_on os e l)).
Proof. unfold mount_step, mount_on. repeat case_decide; destruct_or?; try done; try tauto. Qed.

(** The commands of LNet and of the client, with words that [isValidShellInput] accepts. *)
Inductive lustre_command : string → Prop :=
| load_command : lustre_command LOAD_LNET_KERNEL_MODULE_COMMAND
| service_command : lustre_command CONFIGURE_LNET_KERNEL_SERVICE_COMMAND
| version_command : lustre_command LFS_VERSION_COMMAND
| show_command l : isValidShellInput l = true → lustre_command (SHOW_CONFIGURED_LNET l)
| delete_command l : isValidShellInput l = true → lustre_command (DELETE_LNET_INTERFACE l)
| add_command l i : isValidShellInput l = true → isValidShellInput i = true → lustre_command (CONFIGURE_LNET_INTERFACE l i)
| param_command k v : isValidShellInput k = true → isValidShellInput v = true → lustre_command (LCTL_SET_PARAM k v).

(** The commands that mount nothing. *)
Inductive query_command : string → list string → Prop :=
| findmnt_query t : query_command FindMountCommand ["-n"; "-o"; "SOURCE"; "-T"; t]
| fips_query : query_command CAT_COMMAND [FIPS_ENABLED_FILE_PATH]
| package_query : query_command RPM_COMMAND ["-q"; InTransitEncryptionPackageName]
| shell_query c : lustre_command c → query_command "chroot-bash" [c].

(** The mounts at every path, the last one first; what the volumes hold; and the free
    permits of the semaphores. *)
Class HostLaws (W : Type) `{!Host W, !LnetHost W, !KubeNodes W, !KubeConfigMaps W} := {
  mounts : W → string → list mount_entry;
  contents : W → gmap string string;
  permits : W → semaphore → Z;
  (** The mounts at one path change. *)
  at_path p (f : list mount_entry → list mount_entry) w w' :=
    mounts w' p = f (mounts w p) ∧ (∀ q, q ≠ p → mounts w' q = mounts w q) ∧
    contents w' = contents w ∧ (∀ s, permits w' s = permits w s);
  kept w w' :=
    (∀ q, mounts w' q = mounts w q) ∧ contents w' = contents w ∧ (∀ s, permits w' s = permits w s);
  query_law : ∀ name args w, query_command name args → kept w (exec_Command name args w).2;
  host_reads :
    (∀ p, frames kept (IsLikelyNotMountPoint p)) ∧ (∀ p, frames kept (mount_IsNotMountPoint p)) ∧
    (∀ p, frames kept (mounter_IsMountPoint p)) ∧ (∀ p, frames kept (os_MkdirAll p)) ∧ frames kept net_Interfaces ∧
    (∀ i, frames kept (Interface_Addrs i)) ∧ (∀ n, frames kept (Nodes_Get n)) ∧ (∀ n, frames kept (ConfigMaps_Get n));
  interfaces_law : ∀ w l w', net_Interfaces w = (Ret l, w') → ∀ i, i ∈ l → isValidShellInput i = true;
  likely_law : ∀ p w w', IsLikelyNotMountPoint p w = (Ret false, w') → mounts w p ≠ [];
  not_mounted_law : ∀ p w b w', mount_IsNotMountPoint p w = (Ret b, w') → b = bool_decide (mounts w p = []);
  not_mounted_missing : ∀ p w e w', mount_IsNotMountPoint p w = (Err e, w') → os_IsNotExist e = true → mounts w p = [];
  mounted_law : ∀ p w b w', mounter_IsMountPoint p w = (Ret b, w') → b = negb (bool_decide (mounts w p = []));
  mounted_missing : ∀ p w e w', mounter_IsMountPoint p w = (Err e, w') → os_IsNotExist e = true → mounts w p = [];
  (** A directory is removed with what is below it, unless something is mounted there. *)
  remove_law : ∀ p w o w', os_RemoveAll p w = (o, w') →
    (∀ q, mounts w' q = mounts w q) ∧ (∀ s, permits w' s = permits w s) ∧
    (mounts w p = [] → (∀ q, below p q → mounts w q = []) → contents w' = contents w);
  mount_law : ∀ m src p t os w o w', mounter_Mount m src p t os w = (o, w') →
    (∀ q, q ≠ p → mounts w' q = mounts w q) ∧ contents w' = contents w ∧ (∀ s, permits w' s = permits w s) ∧
    mount_step os (MakeMountArgs src p t os) (is_ret o) (mounts w p) (mounts w' p);
  unmount_law : ∀ p w o w', mounter_Unmount p w = (o, w') → if is_ret o then at_path p tail w w' else kept w w';
  encrypt_mount_law : ∀ src p t os w r w', exec_Command EncryptionMountCommand (MakeMountArgs src p t os) w = (r, w') →
    let mounted := at_path p (λ l, MakeMountArgs src p t os :: l) w w' in
    (kept w w' ∨ mounted) ∧
    (r.2 = None ∨ (∃ e st, r.2 = Some e ∧ xe_ProcessState e = Some st ∧ ps_Success st = true) → mounted);
  encrypt_umount_law : ∀ p w r w', exec_Command EncryptedUmountCommand [p] w = (r, w') →
    (kept w w' ∨ at_path p tail w w') ∧ (r.2 = None → at_path p tail w w');
  force_umount_law : ∀ p w r w', exec_Command UnmountCommand ["-f"; p] w = (r, w') →
    (kept w w' ∨ at_path p tail w w') ∧ (r.2 = None → at_path p tail w w') ∧
    (r.2 ≠ None → Contains r.1 errNotMounted = true → mounts w p = []);
  acquire_law : ∀ sem w o w', Semaphore_Acquire sem w = (o, w') →
    (∀ q, mounts w' q = mounts w q) ∧ contents w' = contents w ∧
    (∀ s, permits w' s = permits w s - (if is_ret o then if decide (s = sem) then 1 else 0 else 0))%Z;
  release_law : ∀ sem w, let w' := Semaphore_Release sem w in
    (∀ q, mounts w' q = mounts w q) ∧ contents w' = contents w ∧
    (∀ s, permits w' s = permits w s + (if decide (s = sem) then 1 else 0))%Z;
}.

Section facts.
Context {W : Type} `{!Host W, !LnetHost W, !KubeNodes W, !KubeConfigMaps W} {HL : HostLaws W}.
Context {ET : ErrorText} {LJ : LustreJson} {MR : MapRange}.
Abbreviation D := (NodeDriver W).
Implicit Types (w : W) (s : D) (p : string).

#[global] Instance kept_preorder : PreOrder kept.
Proof.
  split; [done|]. intros w1 w2 w3 (Hm1 & Hc1 & Hp1) (Hm2 & Hc2 & Hp2). split_and!; [|congruence|].
  - intros q. by rewrite Hm2.
  - intros s. by rewrite Hp2.
Qed.

Lemma kept_at_path p f w1 w2 w3 w4 : kept w1 w2 → at_path p f w2 w3 → kept w3 w4 → at_path p f w1 w4.
Proof.
  intros (Hm1 & Hc1 & Hp1) (Hf & Hm2 & Hc2 & Hp2) (Hm3 & Hc3 & Hp3). split_and!; [by rewrite Hm3, Hf, Hm1| |congruence|].
  - intros q Hq. by rewrite Hm3, Hm2, Hm1.
  - intros s. by rewrite Hp3, Hp2.
Qed.
Lemma kept_id p w w' : kept w w' → at_path p id w w'.
Proof. intros (Hm & Hc & Hp). split_and!; [by rewrite Hm|auto|done|done]. Qed.

(** ** Commands *)

Lemma run_query name args : query_command name args → frames kept (run_command name args).
Proof.
  intros Hq w o w'. unfold run_command. pose proof (query_law name args w Hq) as Hk. destruct (exec_Command name args w) as [r w1].
  by intros [= _ <-].
Qed.

Ltac keep :=
  repeat first
    [ assumption | apply (frames_fail kept) | apply (frames_lift kept (Ret _)) | apply (frames_lift kept)
    | match goal with
      | |- frames _ (report _ _) => apply (frames_report kept); [|intros ?]
      | |- frames _ (try _) => apply (frames_try kept)
      | |- frames _ (mbind _ _) => apply (frames_bind kept); [|intros ?]
      | |- frames _ (forM _ _) => apply (frames_forM kept); intros ?
      | |- frames _ (run_command _ _) => apply run_query; by constructor
      end
    | case_match | progress unfold status, command_failed, mret ].

Lemma execute_kept c : lustre_command c → frames kept (ExecuteCommandOnWorkerNode c).
Proof. intros Hc. unfold ExecuteCommandOnWorkerNode. keep. Qed.

(** The second part may use what the first part answers. *)
Lemma kept_bind_given {A B} (c : M W A) (f : A → M W B) (P : A → Prop) :
  frames kept c → (∀ w a w1, c w = (Ret a, w1) → P a) → (∀ a, P a → frames kept (f a)) → frames kept (c ≫= f).
Proof.
  intros Hc HP Hf w o w' Hr. apply M_bind_cases in Hr as [(a & w1 & Ha & Hr)|(o1 & Ho & _)]; [|by eapply Hc].
  trans w1; [by eapply Hc|]. by eapply Hf; [eapply HP|].
Qed.

Lemma kept_forM_in {A} (l : list A) (body : A → M W ()) : (∀ a, a ∈ l → frames kept (body a)) → frames kept (forM l body).
Proof.
  induction l as [|x l IH]; intros Hb; simpl; [apply (frames_lift kept (Ret ()))|].
  apply (frames_bind kept); [apply Hb; by left|]. intros _. apply IH. intros a Ha. apply Hb. by right.
Qed.

(** ** LNet *)

Lemma matching_addresses_name subnet name addrs i : i ∈ matching_addresses subnet name addrs → InterfaceName i = name.
Proof.
  unfold matching_addresses. intros (addr & _ & Hi)%list_elem_of_omap. destruct (cidr_ip addr); [|done].
  case_match; [|done]. by injection Hi as <-.
Qed.

Lemma matching_interfaces_names subnet names w l w' :
  matching_interfaces subnet names w = (Ret l, w') → ∀ i, i ∈ l → InterfaceName i ∈ names.
Proof.
  revert w l w'. induction names as [|name names IH]; intros w l w' Hr i Hi; [injection Hr as <- _; by apply elem_of_nil in Hi|].
  simpl in Hr. apply M_bind_Ret_inv in Hr as (addrs & w1 & _ & Hr). apply M_bind_Ret_inv in Hr as (rest & w2 & Hrest & Hr).
  injection Hr as <- _. apply elem_of_app in Hi as [Hi|Hi]; [|right; by eapply IH]. destruct addrs as [e|addrs]; [by apply elem_of_nil in Hi|].
  apply matching_addresses_name in Hi as Hn. rewrite Hn. apply elem_of_cons. by left.
Qed.

Lemma matching_interfaces_kept subnet names : frames kept (matching_interfaces subnet names).
Proof. induction names as [|name names IH]; simpl; keep. apply host_reads. Qed.

Lemma GetNetInterfaces_valid cidr w l w' : GetNetInterfacesInSubnet cidr w = (Ret l, w') → ∀ i, i ∈ l → isValidShellInput (InterfaceName i) = true.
Proof.
  unfold GetNetInterfacesInSubnet. destruct (net_ParseCIDR cidr); [|done]. intros (names & w1 & Hn & Hr)%M_bind_Ret_inv j Hj.
  apply report_Ret in Hn as [Hn|(e & w2 & _ & Hn)]; [|done]. eapply matching_interfaces_names in Hr; [|done]. by eapply interfaces_law.
Qed.

Lemma GetNetInterfaces_kept cidr : frames kept (GetNetInterfacesInSubnet cidr).
Proof. unfold GetNetInterfacesInSubnet. keep; [apply host_reads|apply matching_interfaces_kept]. Qed.

Lemma GetLnetInfo_kept label : isValidShellInput label = true → frames kept (GetLnetInfoByLnetLabel label).
Proof. intros Hl. unfold GetLnetInfoByLnetLabel. keep. by apply execute_kept, show_command. Qed.

Lemma ConfigureLnet_kept label info l :
  isValidShellInput label = true → (∀ i, i ∈ l → isValidShellInput (InterfaceName i) = true) → frames kept (ConfigureLnet l label info).
Proof.
  intros Hl Hv. unfold ConfigureLnet. apply (frames_bind kept); [|intros _].
  - case_decide; keep. by apply execute_kept, delete_command.
  - apply kept_forM_in. intros i (j & -> & Hj)%list_elem_of_fmap. case_match; keep. apply execute_kept, add_command; [done|]. exact (Hv j Hj).
Qed.

(** Setting up LNet runs only commands with checked words. *)
Lemma SetupLnet_kept cidr label : isValidShellInput label = true → frames kept (SetupLnet cidr label).
Proof.
  intros Hl. unfold SetupLnet. eapply kept_bind_given; [apply GetNetInterfaces_kept|exact (GetNetInterfaces_valid cidr)|]. intros l Hv.
  case_decide; [keep|]. unfold IsLustreClientPackagesInstalled. keep; try by apply execute_kept; constructor.
  - by apply GetLnetInfo_kept.
  - by apply ConfigureLnet_kept.
  - unfold VerifyLnetConfiguration. keep. by apply GetLnetInfo_kept.
Qed.

Lemma IsLnetActive_kept label : isValidShellInput label = true → frames kept (IsLnetActive label).
Proof. intros Hl. unfold IsLnetActive. keep. by apply GetLnetInfo_kept. Qed.

(** Parameters that were found valid are valid words. *)
Lemma validated_parameters j l :
  ValidateLustreParameters j = None → j ≠ "" → json_parameters j = inr l →
  ∀ site param kv, l !! site = Some param → kv ∈ range site param → isValidShellInput kv.1 = true ∧ isValidShellInput kv.2 = true.
Proof.
  unfold ValidateLustreParameters. intros Hv Hj Hl site param kv Hs Hkv. rewrite decide_False, Hl in Hv by done.
  assert (concat (imap invalid_params l) = []) as Hnil by (by destruct (concat _)).
  assert (invalid_params site param = []) as Hp.
  { assert (invalid_params site param ∈ imap invalid_params l) as Hin.
    { apply list_elem_of_lookup. exists site. by rewrite list_lookup_imap, Hs. }
    apply list_elem_of_split in Hin as (l1 & l2 & Heq). rewrite Heq, concat_app in Hnil. by apply app_nil in Hnil as [_ [-> _]%app_nil]. }
  unfold invalid_params in Hp. apply fmap_nil_inv in Hp.
  destruct (isValidShellInput kv.1 && isValidShellInput kv.2) eqn:E; [by apply andb_true_iff in E|].
  assert (kv ∈ []) as []%elem_of_nil. rewrite <-Hp. by apply list_elem_of_filter.
Qed.

Lemma ApplyLustreParameters_kept j : ValidateLustreParameters j = None → frames kept (ApplyLustreParameters j).
Proof.
  intros Hv. unfold ApplyLustreParameters. case_decide as Hj; [keep|]. destruct (json_parameters j) as [e|l] eqn:El; [keep|].
  apply kept_forM_in. intros kvs (site & Hs)%list_elem_of_lookup. rewrite list_lookup_imap in Hs.
  destruct (l !! site) as [param|] eqn:Ep; [|done]. injection Hs as <-. apply kept_forM_in. intros kv Hkv.
  destruct (validated_parameters j l Hv Hj El site param kv Ep Hkv). keep. by apply execute_kept, param_command.
Qed.

(** ** Mounting *)

Lemma M_bind_split {S A B} (c : M S A) (f : A → M S B) x o x' :
  (c ≫= f) x = (o, x') →
  (∃ a y, c x = (Ret a, y) ∧ f a y = (o, x')) ∨ (∃ o1, c x = (o1, x') ∧ is_ret o1 = false ∧ is_ret o = false).
Proof. unfold mbind, M_bind. destruct (c x) as [[a|e|] y]; [by eauto|..]; intros [= <- <-]; right; eauto. Qed.

Lemma report_spec {A} (c : M W A) f w o w' : report c f w = (o, w') →
  (∃ a, o = Ret a ∧ c w = (Ret a, w')) ∨ (∃ e w1, c w = (Err e, w1) ∧ f e w1 = (o, w')) ∨ (c w = (Panic, w') ∧ o = Panic).
Proof.
  unfold report, mbind, M_bind, try. destruct (c w) as [[a|e|] w1]; intros Hr; [left|right; left|right; right].
  - injection Hr as <- <-. eauto.
  - eauto.
  - by injection Hr as <- <-.
Qed.

Lemma try_spec {A} (c : M W A) w o w' : try c w = (o, w') →
  (∃ a, o = Ret (inr a) ∧ c w = (Ret a, w')) ∨ (∃ e, o = Ret (inl e) ∧ c w = (Err e, w')) ∨ (c w = (Panic, w') ∧ o = Panic).
Proof. unfold try. destruct (c w) as [[a|e|] w1]; intros [= <- <-]; eauto. Qed.

Lemma isMountPoint_kept p : frames kept (isMountPoint p).
Proof. unfold isMountPoint. keep. apply host_reads. Qed.
Lemma is_mount_point_kept p : frames kept (is_mount_point p).
Proof. unfold is_mount_point. keep. apply host_reads. Qed.

Lemma isMountPoint_true p w w' : isMountPoint p w = (Ret true, w') → mounts w' p ≠ [].
Proof.
  intros (b & w1 & Hb & Hr)%M_bind_Ret_inv. injection Hr as Hn <-. destruct b; [done|].
  destruct host_reads as (Hk & _). destruct (Hk _ _ _ _ Hb) as (-> & _). by eapply likely_law.
Qed.
Lemma is_mount_point_Ret p w b w' : is_mount_point p w = (Ret b, w') → b = negb (bool_decide (mounts w p = [])).
Proof. intros (n & w1 & Hn & Hr)%M_bind_Ret_inv. injection Hr as <- _. by apply not_mounted_law in Hn as ->. Qed.
Lemma is_mount_point_missing p w e w' : is_mount_point p w = (Err e, w') → os_IsNotExist e = true → mounts w p = [].
Proof.
  unfold is_mount_point, mbind, M_bind. destruct (mount_IsNotMountPoint p w) as [[b|e'|] w1] eqn:E; try done.
  intros [= -> <-]. by eapply not_mounted_missing.
Qed.

Lemma mounted_at_kept check p message : frames kept check → frames kept (mounted_at check p message).
Proof. intros Hk. unfold mounted_at. keep. apply host_reads. Qed.

(** A check that is positive, or the path is (made to be) there. *)
Lemma mounted_at_spec check p message w o w' : frames kept check → mounted_at check p message w = (o, w') →
  kept w w' ∧ (∀ b, o = Ret b → check w = (Ret b, w') ∨ b = false ∧ ∃ e w1, check w = (Err e, w1) ∧ os_IsNotExist e = true).
Proof.
  intros Hk Hr. split; [by eapply mounted_at_kept|unfold mounted_at in Hr].
  - intros b ->. apply M_bind_Ret_inv in Hr as (r & w1 & Ht & Hr).
    apply try_spec in Ht as [(a & [= ->] & Ht)|[(e & [= ->] & Ht)|[_ ?]]]; [|clear Hk|done].
    + injection Hr as -> ->. by left.
    + destruct (os_IsNotExist e) eqn:He; [|done]. apply M_bind_Ret_inv in Hr as ([] & w2 & _ & Hr). injection Hr as <- _.
      right. eauto.
Qed.

(** Nothing happens, or something is mounted at the path. *)
Definition may_mount p (e : mount_entry) w w' : Prop := kept w w' ∨ at_path p (cons e) w w'.

Lemma may_mount_after p e w1 w2 w3 : kept w1 w2 → may_mount p e w2 w3 → may_mount p e w1 w3.
Proof. intros H1 [H2|H2]; [left; by trans w2|right]. by eapply kept_at_path. Qed.

Lemma at_path_mounted p e w w' : at_path p (cons e) w w' → mounts w' p ≠ [].
Proof. by intros (-> & _). Qed.

Lemma mounter_Mount_spec m src p t os w o w' : mounter_Mount m src p t os w = (o, w') →
  let e := MakeMountArgs src p t os in
  may_mount p e w w' ∧ (is_ret o = true → mounts w' p ≠ []) ∧
  ("bind" ∈ os → is_ret o = true → at_path p (cons e) w w') ∧
  ("remount" ∉ os → if is_ret o then at_path p (cons e) w w' else kept w w' ∨ ("bind" ∈ os ∧ at_path p (cons e) w w')).
Proof.
  intros (Ho & Hc & Hp & Hs)%mount_law e.
  assert (mounts w' p = mounts w p → kept w w') as Hkept.
  { intros Hm. split_and!; [|done|done]. intros q. destruct (decide (q = p)) as [->|]; [done|by apply Ho]. }
  assert (mounts w' p = e :: mounts w p → at_path p (cons e) w w') as Hat by (intros Hm; by split_and!).
  split_and!.
  - apply mount_step_may in Hs as [[Hs|Hs] _]; [left|right]; auto.
  - by apply mount_step_may in Hs as [_ Hs].
  - intros Hb Hret. rewrite Hret in Hs. apply Hat. by eapply mount_step_bind.
  - intros Hr. apply mount_step_plain in Hs; [|done]. destruct (is_ret o); [auto|]. destruct Hs as [Hs|[? Hs]]; auto.
Qed.

Lemma MountWithEncrypt_spec src p t os w o w' : MountWithEncrypt src p t os w = (o, w') →
  may_mount p (MakeMountArgs src p t os) w w' ∧ (is_ret o = true → at_path p (cons (MakeMountArgs src p t os)) w w').
Proof.
  unfold MountWithEncrypt, run_command, mbind, M_bind. destruct (exec_Command _ _ w) as [[output err] w1] eqn:E.
  apply encrypt_mount_law in E as [Hmay Hok]. simpl in Hok.
  destruct err as [err|]; [|intros [= <- <-]; split; [done|intros _; apply Hok; by left]].
  case_decide; [|intros [= <- <-]; by split].
  destruct (xe_ProcessState err) as [st|] eqn:Est; [|intros [= <- <-]; by split]. simpl.
  destruct (ps_Success st) eqn:Es; intros [= <- <-]; split; try done. intros _. apply Hok. right. eauto.
Qed.

(** Staging: one mount at most, and a mount if it succeeds. *)
Lemma fss_stage_spec enc src p t os w o w' : fss_stage enc src p t os w = (o, w') →
  may_mount p (MakeMountArgs src p t os) w w' ∧ (is_ret o = true → mounts w' p ≠ []).
Proof.
  unfold fss_stage. intros Hr. apply M_bind_cases in Hr as [(b & w1 & Hc & Hr)|(o1 & Hc & Hne)];
    apply mounted_at_spec in Hc as [Hk Hb]; try apply isMountPoint_kept; [|split; [by left|by rewrite Hne]].
  destruct b.
  - injection Hr as <- <-. split; [by left|]. intros _. destruct (Hb true eq_refl) as [Ht|[? _]]; [|done].
    by eapply isMountPoint_true.
  - assert (∀ o2 w2, (if enc then MountWithEncrypt src p t os else mounter_Mount "" src p t os) w1 = (o2, w2) →
      may_mount p (MakeMountArgs src p t os) w1 w2 ∧ (is_ret o2 = true → mounts w2 p ≠ [])) as Hm.
    { intros o2 w2. destruct enc; [|by intros (? & ? & _)%mounter_Mount_spec].
      intros [? Hok]%MountWithEncrypt_spec. split; [done|]. intros Hret. by eapply at_path_mounted, Hok. }
    apply report_spec in Hr as [(u & -> & Hr)|[(e & w2 & Hr & Hf)|[Hr ->]]]; apply Hm in Hr as [Hmay Hok].
    + split; [by eapply may_mount_after|]. intros _. by apply Hok.
    + injection Hf as <- <-. split; [by eapply may_mount_after|done].
    + split; [by eapply may_mount_after|done].
Qed.

Lemma bind_mount_spec m src p ro w o w' : bind_mount m src p ro w = (o, w') →
  let e := MakeMountArgs src p "" ("bind" :: if ro then ["ro"] else []) in
  may_mount p e w w' ∧ (is_ret o = true → at_path p (cons e) w w').
Proof.
  unfold bind_mount. cbv zeta.
  intros [(u & -> & Hr)|[(e & w2 & Hr & Hf)|[Hr ->]]]%report_spec; apply mounter_Mount_spec in Hr as (Hmay & _ & Hb & _).
  - split; [done|]. apply Hb. by left.
  - by injection Hf as <- <-.
  - done.
Qed.

(** ** Unmounting *)

(** The files are left alone: the contents too, if nothing is mounted below the path. *)
Definition may_unmount p w w' : Prop :=
  (mounts w' p = mounts w p ∨ mounts w' p = tail (mounts w p)) ∧ (∀ q, q ≠ p → mounts w' q = mounts w q) ∧
  (∀ sem, permits w' sem = permits w sem) ∧ ((∀ q, below p q → mounts w q = []) → contents w' = contents w).

Definition unmounts p w (o : outcome ()) w' : Prop :=
  may_unmount p w w' ∧ (is_ret o = true → mounts w' p = tail (mounts w p)).

Lemma kept_may_unmount p w w' : kept w w' → may_unmount p w w'.
Proof. intros (Hm & Hc & Hp). split_and!; [by left|done|done|done]. Qed.
Lemma tail_may_unmount p w w' : at_path p tail w w' → may_unmount p w w'.
Proof. intros (Hm & Ho & Hc & Hp). split_and!; [by right|done|done|done]. Qed.

Lemma kept_unmounts p w1 w2 o w' : kept w1 w2 → unmounts p w2 o w' → unmounts p w1 o w'.
Proof.
  intros (Hm & Hc & Hp) ((Hu & Ho & Hp2 & Hc2) & Hr). rewrite Hm in Hu, Hr. split; [split_and!|done].
  - done.
  - intros q Hq. by rewrite Ho, Hm.
  - intros s. by rewrite Hp2, Hp.
  - intros Hb. rewrite Hc2; [done|]. intros q Hq. rewrite Hm. by apply Hb.
Qed.

Lemma unmount_spec p f w o w' : (∀ e w1, ∃ e', f e w1 = (Err e', w1)) → report (mounter_Unmount p) f w = (o, w') → unmounts p w o w'.
Proof.
  intros Hf [(u & -> & Hr)|[(e & w2 & Hr & He)|[Hr ->]]]%report_spec; apply unmount_law in Hr; simpl in Hr.
  - split; [by apply tail_may_unmount|]. intros _. apply Hr.
  - destruct (Hf e w2) as [e' He']. rewrite He' in He. injection He as <- <-. split; [by apply kept_may_unmount|done].
  - split; [by apply kept_may_unmount|done].
Qed.

(** A directory that is no mount point. *)
Lemma remove_unmounts p f w o w' : mounts w p = [] → (∀ e w1, ∃ e', f e w1 = (Err e', w1)) →
  report (os_RemoveAll p) f w = (o, w') → unmounts p w o w'.
Proof.
  intros Hp Hf Hr.
  assert (∀ o2 w2, os_RemoveAll p w = (o2, w2) → may_unmount p w w2 ∧ mounts w2 p = tail (mounts w p)) as Hrm.
  { intros o2 w2 (Hm & Hs & Hcont)%remove_law. rewrite Hm, Hp. split; [|done].
    split_and!; [left; by rewrite Hm|by intros q Hq; rewrite Hm|done|by apply Hcont]. }
  apply report_spec in Hr as [(x & -> & Hr)|[(e & w2 & Hr & He)|[Hr ->]]]; apply Hrm in Hr as [H1 H2]; [done| |done].
  destruct (Hf e w2) as [e' He']. rewrite He' in He. by injection He as <- <-.
Qed.

(** The common part of unmounting: the check is right, and a directory is removed only if
    it is no mount point. *)
Lemma unmount_or_remove_spec check p u w o w' :
  frames kept check → (∀ w b w', check w = (Ret b, w') → b = negb (bool_decide (mounts w p = []))) →
  (∀ w e w', check w = (Err e, w') → os_IsNotExist e = true → mounts w p = []) →
  (∀ w o w', u w = (o, w') → unmounts p w o w') →
  unmount_or_remove check p u w = (o, w') → unmounts p w o w'.
Proof.
  intros Hk Hc Hmiss Hu Hr. unfold unmount_or_remove in Hr.
  apply M_bind_cases in Hr as [(r & w1 & Ht & Hr)|(o1 & Ht & Hne)]; apply (frames_try kept) in Ht as Hk1; [|done| |done].
  2: { split; [by apply kept_may_unmount|by rewrite Hne]. }
  apply try_spec in Ht as [(b & [= ->] & Ht)|[(e & [= ->] & Ht)|[_ ?]]]; [| |done].
  - apply Hc in Ht. destruct b; [eapply kept_unmounts, Hu; done|]. destruct (mounts w p) eqn:Hp; [|done]. clear Ht.
    assert (mounts w1 p = []) as Hp1 by (destruct Hk1 as (Hm & _); by rewrite Hm).
    eapply kept_unmounts; [done|]. eapply remove_unmounts; [done|by eauto|exact Hr].
  - destruct (os_IsNotExist e) eqn:He; injection Hr as <- <-; (split; [by apply kept_may_unmount|]); [intros _|done].
    destruct Hk1 as (Hm & _). by rewrite Hm, (Hmiss _ _ _ Ht He).
Qed.

(** ** The state of a driver *)

(** The locks are as before, and the host is kept. *)
Definition quiet s s' : Prop := nd_volumeLocks s' = nd_volumeLocks s ∧ kept (nd_host s) (nd_host s').
#[global] Instance quiet_preorder : PreOrder quiet.
Proof. split; [done|]. intros s1 s2 s3 [H1 H2] [H3 H4]. split; [congruence|by trans (nd_host s2)]. Qed.

Lemma host_inv {A} (c : M W A) s o s' : host c s = (o, s') →
  c (nd_host s) = (o, nd_host s') ∧ nd_volumeLocks s' = nd_volumeLocks s ∧ nd_csiConfig s' = nd_csiConfig s.
Proof. unfold host. destruct (c (nd_host s)) as [o1 w1]. by intros [= <- <-]. Qed.

Lemma host_quiet {A} (c : M W A) : frames kept c → frames quiet (host c).
Proof. intros Hc s o s' (Hr & Hl & _)%host_inv. split; [done|by eapply Hc]. Qed.

Lemma load_metadata_quiet nodeID : frames quiet (load_metadata nodeID).
Proof.
  unfold load_metadata. apply (frames_bind quiet); [by intros s o s' [= _ <-]|]. intros m.
  case_match; [apply (frames_lift quiet (Ret None))|]. apply (frames_bind quiet).
  - apply (frames_try quiet), host_quiet. unfold LoadNodeMetadataFromApiServer. keep. apply host_reads.
  - intros [e|m']; [apply (frames_lift quiet (Ret _))|]. apply (frames_bind quiet); [by intros s o s' [= _ <-]|].
    intros _. apply (frames_lift quiet (Ret _)).
Qed.

Lemma load_metadata_config nodeID s o s' : load_metadata nodeID s = (o, s') → nd_csiConfig s' = nd_csiConfig s.
Proof.
  unfold load_metadata, mbind, M_bind, get, try. case_match; [by intros [= _ <-]|].
  destruct (host _ s) as [[m|e|] s1] eqn:E; apply host_inv in E as (_ & _ & Hc); by intros [= _ <-].
Qed.

Lemma loadCSIConfig_quiet : frames quiet loadCSIConfig.
Proof.
  unfold loadCSIConfig. apply (frames_bind quiet); [by intros s o s' [= _ <-]|]. intros cfg.
  case_match; [apply (frames_lift quiet (Ret ()))|]. apply (frames_bind quiet); [|intros cfg'; by intros s o s' [= _ <-]].
  apply host_quiet. unfold LoadCSIConfigFromConfigMap. keep. apply host_reads.
Qed.

(** Once read, the configuration stays. *)
Lemma loadCSIConfig_loaded s o s' : loadCSIConfig s = (o, s') → is_ret o = true → cfg_IsLoaded (nd_csiConfig s') = true.
Proof.
  unfold loadCSIConfig, mbind, M_bind, get. destruct (cfg_IsLoaded (nd_csiConfig s)) eqn:E; [by intros [= <- <-]|].
  destruct (host _ s) as [[cfg| |] s1]; intros [= <- <-]; done.
Qed.
Lemma loadCSIConfig_again s o s' : cfg_IsLoaded (nd_csiConfig s) = true → loadCSIConfig s = (o, s') → s' = s.
Proof. intros Hl. unfold loadCSIConfig, mbind, M_bind, get. rewrite Hl. by intros [= _ <-]. Qed.

(** The lock is given back. *)
Lemma with_volume_lock_spec {A} volumeID (c : M D A) s o s' :
  (∀ s1 o s2, nd_csiConfig s1 = nd_csiConfig s → c s1 = (o, s2) → nd_volumeLocks s2 = nd_volumeLocks s1) → with_volume_lock volumeID c s = (o, s') →
  nd_volumeLocks s' = nd_volumeLocks s ∧
  ((is_ret o = false ∧ s' = s) ∨
   ∃ s1 s2, c s1 = (o, s2) ∧ nd_host s1 = nd_host s ∧ nd_csiConfig s1 = nd_csiConfig s ∧ nd_host s' = nd_host s2).
Proof.
  intros Hc. unfold with_volume_lock, VolumeLocks_TryAcquire. destruct (decide (volumeID ∈ nd_volumeLocks s)).
  - intros [= <- <-]. by split; [|left].
  - destruct (c _) as [o1 s1] eqn:E. intros [= <- <-]. apply Hc in E as Hl; [|done]. simpl in *. split.
    + rewrite Hl. unfold VolumeLocks_Release. set_solver.
    + right. by eexists _, _.
Qed.

(** So is the permit of the semaphore. *)
Lemma with_semaphore_spec {A} sem message (c : M D A) s o s' : with_semaphore sem message c s = (o, s') →
  (is_ret o = false ∧ quiet s s') ∨
  ∃ s1 s2, c s1 = (o, s2) ∧ nd_volumeLocks s1 = nd_volumeLocks s ∧ nd_volumeLocks s' = nd_volumeLocks s2 ∧
    (∀ q, mounts (nd_host s1) q = mounts (nd_host s) q) ∧ contents (nd_host s1) = contents (nd_host s) ∧
    (∀ q, mounts (nd_host s') q = mounts (nd_host s2) q) ∧ contents (nd_host s') = contents (nd_host s2) ∧
    ((∀ x, permits (nd_host s2) x = permits (nd_host s1) x) → ∀ x, permits (nd_host s') x = permits (nd_host s) x).
Proof.
  unfold with_semaphore, report, mbind, M_bind, try. destruct (host (Semaphore_Acquire sem) s) as [[u|e|] s1] eqn:E;
    apply host_inv in E as (E & Hl & _); apply acquire_law in E as (Hm & Hcont & Hp); simpl in Hp; intros Hr.
  - right. unfold mret, M_ret, releasing in Hr. destruct (c s1) as [o2 s2] eqn:E2. injection Hr as <- <-. exists s1, s2. simpl.
    destruct (release_law sem (nd_host s2)) as (Hm2 & Hc2 & Hp2). split_and!; try done. intros Hp3 x. rewrite Hp2, Hp3, Hp. case_decide; lia.
  - left. injection Hr as <- <-. split; [done|]. split; [done|]. split_and!; [done|done|]. intros x. rewrite Hp. lia.
  - left. injection Hr as <- <-. split; [done|]. split; [done|]. split_and!; [done|done|]. intros x. rewrite Hp. lia.
Qed.

Lemma semaphore_may_mount {A} sem message (c : M W A) p e s o s' :
  (∀ w o w', c w = (o, w') → may_mount p e w w' ∧ (is_ret o = true → mounts w' p ≠ [])) →
  with_semaphore sem message (host c) s = (o, s') →
  nd_volumeLocks s' = nd_volumeLocks s ∧ may_mount p e (nd_host s) (nd_host s') ∧ (is_ret o = true → mounts (nd_host s') p ≠ []).
Proof.
  intros Hc [[Hne [Hl Hk]]|(s1 & s2 & Hr & Hl & Hl' & Hm1 & Hc1 & Hm2 & Hc2 & Hp)]%with_semaphore_spec.
  - split_and!; [done|by left|by rewrite Hne].
  - apply host_inv in Hr as (Hr & Hl2 & _). apply Hc in Hr as [Hmay Hret]. split_and!; [congruence| |intros H; rewrite Hm2; auto].
    destruct Hmay as [(Hm & Hk & Hq)|(Hm & Ho & Hk & Hq)]; [left|right].
    + split_and!; [|congruence|auto]. intros q. by rewrite Hm2, Hm, Hm1.
    + split_and!; [by rewrite Hm2, Hm, Hm1| |congruence|auto]. intros q Hq'. by rewrite Hm2, Ho, Hm1.
Qed.

(** ** Staging *)

(** What a request to stage or publish does: locks and permits are given back, other mount
    points and contents are left alone, and a success leaves the path mounted. *)
Definition mounts_once {A} p (P : mount_entry → Prop) s (o : outcome A) s' : Prop :=
  nd_volumeLocks s' = nd_volumeLocks s ∧
  (kept (nd_host s) (nd_host s') ∨ ∃ e, P e ∧ at_path p (cons e) (nd_host s) (nd_host s')) ∧
  (is_ret o = true → mounts (nd_host s') p ≠ []).

Lemma quiet_then {A} (c : M D A) {B} (f : A → M D B) p P s (o : outcome B) s' :
  frames quiet c → (∀ a s1, c s = (Ret a, s1) → ∀ o s', f a s1 = (o, s') → mounts_once p P s1 o s') →
  (c ≫= f) s = (o, s') → mounts_once p P s o s'.
Proof.
  intros Hq Hf Hr. apply M_bind_cases in Hr as [(a & s1 & Hc & Hr)|(o1 & Hc & Hne)]; apply Hq in Hc as Hqs; destruct Hqs as [Hl Hk].
  - destruct (Hf _ _ Hc _ _ Hr) as (Hl2 & Hm & Hret). split_and!; [congruence| |done]. destruct Hm as [Hm|(e & He & Hm)]; [left; by trans (nd_host s1)|].
    right. exists e. split; [done|]. by eapply kept_at_path.
  - split_and!; [done|by left|by rewrite Hne].
Qed.

Lemma refused p P {A} s e (o : outcome A) s' : fail e s = (o, s') → mounts_once p P s o s'.
Proof. intros [= <- <-]. by split_and!; [|left|]. Qed.

Ltac refuse := unfold status; apply refused.

(** The entry of a staged file system: the source of the handle, the flags of the request,
    and the encrypted type if the volume asks for encryption. *)
Definition fss_entry (req : NodeStageRequest) (e : mount_entry) : Prop :=
  let handler := ValidateFssId (nsr_VolumeId req) in
  ∃ fsType options,
    e = MakeMountArgs (fss_source (MountTargetIPAddress handler) (FsExportPath handler)) (nsr_StagingTargetPath req) fsType options ∧
    (match nsr_Mount req with Some mnt => mv_MountFlags mnt | None => [] end) `prefix_of` options ∧
    (isInTransitEncryptionEnabled (nsr_VolumeContext req) = Some true → fsType = "oci-fss").

Lemma encryption_options_kept options : frames kept (encryption_options options).
Proof. unfold encryption_options, IsInTransitEncryptionPackageInstalled, IsFipsEnabled. keep. Qed.

Lemma encryption_options_spec options w o w' : encryption_options options w = (o, w') →
  kept w w' ∧ ∀ os, o = Ret os → options `prefix_of` os.
Proof.
  intros Hr. split; [by eapply encryption_options_kept|].
  intros os ->. apply M_bind_Ret_inv in Hr as (b & w1 & _ & Hr). destruct (negb b); [done|].
  apply M_bind_Ret_inv in Hr as (content & w2 & _ & Hr). injection Hr as <- _. case_match; [by eexists|done].
Qed.

(** A request to stage a file system mounts at most one thing, at the
    staging path: the export of the mount target that the handle names, with the flags of
    the request, and with encryption if the volume asks for it.  If it succeeds, the path is
    mounted.  Other mount points and the contents of volumes are left alone, and the lock of
    the volume and the permit of the semaphore are given back, on every path. *)
Lemma Fss_NodeStageVolume_correct nodeID req s o s' :
  Fss_NodeStageVolume nodeID req s = (o, s') → mounts_once (nsr_StagingTargetPath req) (fss_entry req) s o s'.
Proof.
  unfold Fss_NodeStageVolume. case_decide; [refuse|]. case_decide; [refuse|]. cbv zeta. case_decide; [refuse|].
  apply quiet_then; [apply load_metadata_quiet|]. intros _ s1 _ o1 s1'.
  apply quiet_then; [by intros ? ? ? [= _ <-]|]. intros m s2 _ o2 s2'.
  apply quiet_then; [unfold check_ip_family; repeat case_match; [apply (frames_fail quiet)..|apply (frames_lift quiet (Ret ()))]|].
  intros _ s3 _ o3 s3'. destruct (isInTransitEncryptionEnabled _) as [enc|] eqn:Henc; [|refuse].
  set (flags := match nsr_Mount req with Some mnt => mv_MountFlags mnt | None => [] end).
  assert (∀ s o s', (if enc then host (encryption_options flags) else mret flags) s = (o, s') →
    quiet s s' ∧ ∀ os, o = Ret os → flags `prefix_of` os) as Hopts.
  { intros sa oa sb. destruct enc; [|intros [= <- <-]; split; [done|by intros os [= <-]]].
    intros (Hr & Hl & _)%host_inv. by apply encryption_options_spec in Hr as [Hk Ho]. }
  apply quiet_then; [intros sa oa sb Hr; by apply Hopts in Hr as [? _]|]. intros os s4 Hos o4 s4' Hr. apply Hopts in Hos as [_ Hos].
  set (t := if enc then "oci-fss" else _) in Hr.
  set (src := fss_source _ _) in Hr.
  apply with_volume_lock_spec in Hr as [Hl [[Hne ->]|(sa & sb & Hr & Ha & _ & Hb)]].
  - by split_and!; [|left|rewrite Hne].
  - apply (semaphore_may_mount _ _ _ (nsr_StagingTargetPath req) (MakeMountArgs src (nsr_StagingTargetPath req) t os)) in Hr as (_ & Hmay & Hret);
      [|intros ? ? ?; apply fss_stage_spec]. rewrite Ha, <-Hb in Hmay. rewrite <-Hb in Hret. split_and!; [done| |done].
    destruct Hmay as [Hk|Hm]; [by left|right]. exists (MakeMountArgs src (nsr_StagingTargetPath req) t os). split; [|done].
    exists t, os. split_and!; [done|by apply Hos|].
    intros Ht. rewrite Henc in Ht. by injection Ht as ->.
  - intros sa oa sb _ Hr2. by apply (semaphore_may_mount _ _ _ (nsr_StagingTargetPath req) (MakeMountArgs src (nsr_StagingTargetPath req) t os)) in Hr2 as (? & _ & _);
      [|intros ? ? ?; apply fss_stage_spec].
Qed.

(** *** Lustre *)

Lemma check_nids_valid parts l0 l : isValidShellInput l0 = true → check_nids parts l0 = inr l → isValidShellInput l = true.
Proof.
  revert l0. induction parts as [|part parts IH]; intros l0 H0 Hr; [by injection Hr as <-|]. simpl in Hr.
  destruct (split_on "@" part) as [|ip [|label [|]]]; try done. case_decide; [done|].
  destruct (isValidShellInput label) eqn:E; [|done]. by eapply IH.
Qed.

Lemma valid_label v l : ValidateLustreVolumeId v = (true, l) → isValidShellInput l = true.
Proof.
  unfold ValidateLustreVolumeId. case_decide; [done|]. destruct (check_nids _ "") as [[b l']|l'] eqn:E.
  - intros [= -> ->]. exfalso. revert E. generalize (""). generalize (take (length (split_on ":" v) - 1) (split_on ":" v)).
    intros parts. induction parts as [|part parts IH]; intros l0; [done|]. simpl.
    destruct (split_on "@" part) as [|ip [|label [|]]]; try done. case_decide; [done|]. case_match; [apply IH|done].
  - intros [= _ <-]. by eapply (check_nids_valid _ "").
Qed.

Lemma setup_lnet_spec ctx label s o s' : isValidShellInput label = true → setup_lnet ctx label s = (o, s') →
  quiet s s' ∧ nd_csiConfig s' = nd_csiConfig s.
Proof.
  intros Hl. unfold setup_lnet. case_decide; [|by intros [= _ <-]]. unfold mbind, M_bind, get. intros (Hr & Hlocks & Hcfg)%host_inv.
  split; [|done]. split; [done|]. revert Hr. apply (frames_report kept); [by apply SetupLnet_kept|]. intros e. apply (frames_fail kept).
Qed.

Lemma mounter_Unmount_split p w o w' : mounter_Unmount p w = (o, w') →
  (at_path p tail w w' ∧ is_ret o = true) ∨ (kept w w' ∧ is_ret o = false).
Proof. intros Hu%unmount_law. destruct (is_ret o); [by left|by right]. Qed.

Lemma apply_parameters_spec p ps s o s' :
  cfg_IsLoaded (nd_csiConfig s) = true →
  (∀ j, ps = Some j → isSkipLustreParams (nd_csiConfig s) = true ∨ ValidateLustreParameters j = None) →
  apply_parameters p ps s = (o, s') →
  nd_volumeLocks s' = nd_volumeLocks s ∧
  (kept (nd_host s) (nd_host s') ∨ is_ret o = false ∧ at_path p tail (nd_host s) (nd_host s')) ∧
  (∀ e, o = Err e → at_path p tail (nd_host s) (nd_host s') ∨ ∃ w1 o1, mounter_Unmount p w1 = (o1, nd_host s') ∧ is_ret o1 = false).
Proof.
  intros Hload Hv. destruct ps as [j|]; [|intros [= <- <-]; by split_and!; [|left|]]. unfold apply_parameters. intros Hr.
  apply M_bind_split in Hr as [(u & s1 & Hl & Hr)|(o1 & Hl & Hne & _)].
  2:{ exfalso. revert Hl Hne. unfold loadCSIConfig, mbind, M_bind, get. rewrite Hload. by intros [= <- _]. }
  apply loadCSIConfig_again in Hl as ->; [|done]. unfold get in Hr. unfold mbind, M_bind in Hr.
  destruct (isSkipLustreParams (nd_csiConfig s)) eqn:Hskip; [injection Hr as <- <-; by split_and!; [|left|]|].
  destruct (Hv j eq_refl) as [?|Hvj]; [congruence|]. apply host_inv in Hr as (Hr & Hlocks & _). split; [done|].
  apply report_spec in Hr as [(a & -> & Hr)|[(e & w1 & Hr & Hf)|[Hr ->]]]; apply ApplyLustreParameters_kept in Hr as Hk; try done;
    [by split; [left|]| |by split; [left|]].
  assert (∀ o1, mounter_Unmount p w1 = (o1, nd_host s') → is_ret o = false →
    (kept (nd_host s) (nd_host s') ∨ is_ret o = false ∧ at_path p tail (nd_host s) (nd_host s')) ∧
    (∀ e, o = Err e → at_path p tail (nd_host s) (nd_host s') ∨ ∃ w1 o1, mounter_Unmount p w1 = (o1, nd_host s') ∧ is_ret o1 = false)) as Hun.
  { intros o1 Ht Ho. destruct (mounter_Unmount_split _ _ _ _ Ht) as [[Hu Ho1]|[Hu Ho1]].
    - assert (at_path p tail (nd_host s) (nd_host s')) by by eapply kept_at_path. split; [by right|by left].
    - split; [left; by trans w1|]. right. eauto. }
  apply M_bind_cases in Hf as [(r & w2 & Ht & Hf)|(o1 & Ht & Hne)].
  - unfold status, fail in Hf. injection Hf as <- ->. apply try_spec in Ht as [(a & _ & Ht)|[(e' & _ & Ht)|[Ht _]]]; by eapply Hun.
  - apply try_spec in Ht as [(a & _ & Ht)|[(e' & _ & Ht)|[Ht _]]]; by eapply Hun.
Qed.

Lemma mount_unmount p e w1 w2 w3 : at_path p (cons e) w1 w2 → at_path p tail w2 w3 → kept w1 w3.
Proof.
  intros (H1 & H2 & H3 & H4) (H5 & H6 & H7 & H8). split_and!; [|congruence|intros x; by rewrite H8].
  intros q. destruct (decide (q = p)) as [->|Hq]; [by rewrite H5, H1|by rewrite H6, H2].
Qed.

(** An error leaves no mount behind, unless it could not be unmounted. *)
Definition unmounted_again p s (o : outcome ()) s' : Prop :=
  ∀ e, o = Err e → kept (nd_host s) (nd_host s') ∨ ∃ w1 o1, mounter_Unmount p w1 = (o1, nd_host s') ∧ is_ret o1 = false.

Definition stages p P (Q : Prop) s (o : outcome ()) s' : Prop := mounts_once p P s o s' ∧ (Q ∨ unmounted_again p s o s').

Lemma quiet_stages {A} (c : M D A) (f : A → M D ()) p P Q s o s' :
  frames quiet c → (∀ a s1, c s = (Ret a, s1) → ∀ o s', f a s1 = (o, s') → stages p P Q s1 o s') →
  (c ≫= f) s = (o, s') → stages p P Q s o s'.
Proof.
  intros Hq Hf Hr. split; [by eapply quiet_then; [|intros a s1 Hc o1 s1' Hr1; apply (Hf a s1 Hc _ _ Hr1)|]|].
  apply M_bind_cases in Hr as [(a & s1 & Hc & Hr)|(o1 & Hc & Hne)]; apply Hq in Hc as Hqs; destruct Hqs as [_ Hk].
  - destruct (Hf _ _ Hc _ _ Hr) as [_ [?|Ha]]; [by left|right]. intros e He. destruct (Ha e He) as [?|?]; [left; by trans (nd_host s1)|by right].
  - right. intros e _. by left.
Qed.

Lemma refused_stages p P Q s e (o : outcome ()) s' : fail e s = (o, s') → stages p P Q s o s'.
Proof. intros Hf. split; [by eapply refused|]. injection Hf as <- <-. right. intros e' _. by left. Qed.

Lemma lustre_stage_spec mnt src p label ctx s o s' :
  isValidShellInput label = true → cfg_IsLoaded (nd_csiConfig s) = true → "remount" ∉ mv_MountFlags mnt →
  (∀ j, ctx !! "lustrePostMountParameters" = Some j → isSkipLustreParams (nd_csiConfig s) = true ∨ ValidateLustreParameters j = None) →
  lustre_stage mnt src p label ctx s = (o, s') →
  stages p (λ e, e = MakeMountArgs src p (mv_FsType mnt) (mv_MountFlags mnt)) ("bind" ∈ mv_MountFlags mnt) s o s'.
Proof.
  intros Hl Hload Hre Hv. unfold lustre_stage. apply quiet_stages; [intros ? ? ? Hr; by eapply setup_lnet_spec|].
  intros u1 s1 Hs1 o1 s1'. apply setup_lnet_spec in Hs1 as [_ Hcfg1]; [|done]. rewrite <-Hcfg1 in Hload. setoid_rewrite <-Hcfg1 in Hv.
  pose proof (mounted_at_kept (isMountPoint p) p "Failed to create StagingTargetPath directory" (isMountPoint_kept p)) as Hmk.
  apply quiet_stages; [by apply host_quiet|]. intros b s2 Hs2 o2 s2'. apply host_inv in Hs2 as (Hm & _ & Hcfg2). rewrite <-Hcfg2 in Hload. setoid_rewrite <-Hcfg2 in Hv.
  apply mounted_at_spec in Hm as [_ Hb]; [|apply isMountPoint_kept]. destruct b.
  { intros [= <- <-]. split; [|by right]. split_and!; [done|by left|]. intros _.
    destruct (Hb true eq_refl) as [Ht|[? _]]; [|done]. by eapply isMountPoint_true. }
  set (e := MakeMountArgs src p (mv_FsType mnt) (mv_MountFlags mnt)).
  intros Hr. apply M_bind_split in Hr as [(u & s3 & Hc & Hr)|(o3 & Hc & Hne3 & Hne)]; apply host_inv in Hc as (Hc & Hlocks & Hcfg3).
  - apply report_spec in Hc as [(a & _ & Hc)|[(err & w1 & Hc & Hf)|[Hc ?]]]; try done. apply mounter_Mount_spec in Hc as (_ & _ & _ & Hc). specialize (Hc Hre). simpl in Hc.
    rewrite <-Hcfg3 in Hload. setoid_rewrite <-Hcfg3 in Hv.
    apply apply_parameters_spec in Hr as (Hl2 & Hr & Hun); [|done|done]. split; [split_and!; [congruence| |]|right].
    + destruct Hr as [Hk|[_ Ht]]; [right|left; by eapply mount_unmount]. exists e. split; [done|]. by eapply kept_at_path.
    + intros Hret. destruct Hr as [(Hk & _)|[Hne _]]; [|congruence]. rewrite Hk. by eapply at_path_mounted.
    + intros x Hx. destruct (Hun x Hx) as [Ht|?]; [left; by eapply mount_unmount|by right].
  - assert (kept (nd_host s2) (nd_host s2') ∨ "bind" ∈ mv_MountFlags mnt ∧ at_path p (cons e) (nd_host s2) (nd_host s2')) as Hk.
    { apply report_spec in Hc as [(a & -> & Hc)|[(err & w1 & Hc & Hf)|[Hc ->]]]; [done|..]; apply mounter_Mount_spec in Hc as (_ & _ & _ & Hc);
        specialize (Hc Hre); [by injection Hf as _ <-|done]. }
    split; [split_and!; [done| |by rewrite Hne]|].
    + destruct Hk as [?|[_ ?]]; [by left|right; eauto].
    + destruct Hk as [?|[? _]]; [right; intros x _; by left|by left].
Qed.

(** C33: A request to stage a Lustre volume, whose mount flags do not ask to remount, mounts
    at most the source that its handle names, at the staging path, with the type lustre and
    the flags of the request.  If the request succeeds, the path is mounted.  If it ends
    with an error, also because parameters cannot be set after the mount, nothing has been
    mounted or it is unmounted again, except that the unmount may fail, and that flags may
    ask for a bind mount, which may fail halfway.  Other mount points and the contents of
    volumes are left alone, and the lock of the volume is given back on every path. *)
Theorem Lustre_NodeStageVolume_correct nodeID req s o s' :
  (∀ mnt, nsr_Mount req = Some mnt → "remount" ∉ mv_MountFlags mnt) →
  Lustre_NodeStageVolume nodeID req s = (o, s') →
  mounts_once (nsr_StagingTargetPath req) (λ e, ∃ mnt, nsr_Mount req = Some mnt ∧
    e = MakeMountArgs (stripLustreOCIDPrefix (nsr_VolumeId req)) (nsr_StagingTargetPath req) "lustre" (mv_MountFlags mnt)) s o s' ∧
  ((∃ mnt, nsr_Mount req = Some mnt ∧ "bind" ∈ mv_MountFlags mnt) ∨ unmounted_again (nsr_StagingTargetPath req) s o s').
Proof.
  intros Hre. change (Lustre_NodeStageVolume nodeID req s = (o, s') → stages (nsr_StagingTargetPath req)
    (λ e, ∃ mnt, nsr_Mount req = Some mnt ∧ e = MakeMountArgs (stripLustreOCIDPrefix (nsr_VolumeId req)) (nsr_StagingTargetPath req) "lustre" (mv_MountFlags mnt))
    (∃ mnt, nsr_Mount req = Some mnt ∧ "bind" ∈ mv_MountFlags mnt) s o s').
  unfold Lustre_NodeStageVolume, status. do 2 (case_decide; [apply refused_stages|]). destruct (nsr_Mount req) as [mnt|]; [|apply refused_stages].
  specialize (Hre mnt eq_refl). case_decide as Ht; [apply refused_stages|]. cbv zeta.
  destruct (ValidateLustreVolumeId _) as [[] label] eqn:Ev; [|apply refused_stages]. apply valid_label in Ev. simpl.
  apply quiet_stages; [apply loadCSIConfig_quiet|]. intros u1 s1 Hs1 o1 s1'. apply loadCSIConfig_loaded in Hs1 as Hload; [|done].
  apply quiet_stages; [apply load_metadata_quiet|]. intros u2 s2 Hs2 o2 s2'. apply load_metadata_config in Hs2. rewrite <-Hs2 in Hload.
  apply quiet_stages; [by intros ? ? ? [= _ <-]|]. intros cfg s3 [= <- <-] o3 s3'.
  set (P := λ e, _). set (Q := ∃ mnt, _).
  assert (∀ o s', with_volume_lock (nsr_VolumeId req) (lustre_stage mnt (stripLustreOCIDPrefix (nsr_VolumeId req)) (nsr_StagingTargetPath req)
      label (nsr_VolumeContext req)) s2 = (o, s') →
    (∀ j, nsr_VolumeContext req !! "lustrePostMountParameters" = Some j →
      isSkipLustreParams (nd_csiConfig s2) = true ∨ ValidateLustreParameters j = None) →
    stages (nsr_StagingTargetPath req) P Q s2 o s') as Hstage.
  { intros o4 s4 Hr Hv. apply with_volume_lock_spec in Hr as [Hl [[Hne ->]|(sa & sb & Hr & Ha & Hcfg & Hb)]].
    - split; [by split_and!; [|left|rewrite Hne]|]. right. intros x _. by left.
    - apply lustre_stage_spec in Hr as ((_ & Hm & Hret) & Hun); [|done|by rewrite Hcfg|done|by rewrite Hcfg].
      rewrite Ha, <-Hb in Hm. rewrite <-Hb in Hret. unfold unmounted_again in Hun. rewrite Ha, <-Hb in Hun.
      split; [split_and!; [done| |done]|destruct Hun as [?|?]; [left; by exists mnt|by right]].
      destruct Hm as [Hk|(e & -> & Hm)]; [by left|right]. eexists. split; [|exact Hm]. exists mnt. split; [done|].
      f_equal. by destruct (decide (mv_FsType mnt = "lustre")).
    - intros sa oa sb Hcfg Hr2. rewrite <-Hcfg in Hload, Hv. by apply lustre_stage_spec in Hr2 as ((? & _) & _). }
  destruct (nsr_VolumeContext req !! "lustrePostMountParameters") as [j|] eqn:Ej; [|intros Hr; by apply Hstage].
  destruct (if isSkipLustreParams (nd_csiConfig s2) then None else ValidateLustreParameters j) eqn:Ec; [apply refused_stages|].
  intros Hr. apply Hstage; [done|]. intros j' [= <-]. destruct (isSkipLustreParams (nd_csiConfig s2)); auto.
Qed.

(** ** Publication *)

Definition bind_entry (req : NodePublishRequest) : mount_entry :=
  MakeMountArgs (npr_StagingTargetPath req) (npr_TargetPath req) "" ("bind" :: if npr_Readonly req then ["ro"] else []).

(** A check that is negative is right. *)
Lemma target_free p message w o w' : mounted_at (is_mount_point p) p message w = (o, w') →
  (o = Ret true → mounts w' p ≠ []) ∧ (o = Ret false → mounts w' p = []).
Proof.
  intros [(Hm & _) Hb]%mounted_at_spec; [|apply is_mount_point_kept]. rewrite Hm. split; intros ->.
  - destruct (Hb _ eq_refl) as [H%is_mount_point_Ret|[? _]]; [|done]. by destruct (mounts w p).
  - destruct (Hb _ eq_refl) as [H%is_mount_point_Ret|[_ (e & w1 & He & Hn)]]; [by destruct (mounts w p)|].
    by eapply is_mount_point_missing.
Qed.

(** The common end of a publication. *)
Lemma publish_spec (w0 : W) (publish : M D ()) message req s o s' :
  kept w0 (nd_host s) →
  (∀ s o s', publish s = (o, s') → nd_volumeLocks s' = nd_volumeLocks s ∧
     may_mount (npr_TargetPath req) (bind_entry req) (nd_host s) (nd_host s') ∧
     (is_ret o = true → mounts (nd_host s') (npr_TargetPath req) ≠ [])) →
  (mounted ← host (mounted_at (is_mount_point (npr_TargetPath req)) (npr_TargetPath req) message);
   if mounted : bool then mret () else publish) s = (o, s') →
  mounts_once (npr_TargetPath req) (λ e, mounts w0 (npr_TargetPath req) = [] ∧ e = bind_entry req) s o s'.
Proof.
  intros Hw0 Hpub. pose proof (mounted_at_kept (is_mount_point (npr_TargetPath req)) (npr_TargetPath req) message (is_mount_point_kept _)) as Hmk.
  apply quiet_then; [by apply host_quiet|]. intros b s1 Hs1 o1 s1'. apply host_inv in Hs1 as (Hm & _ & _).
  apply Hmk in Hm as Hk. apply target_free in Hm as [Htrue Hfalse]. destruct b.
  - intros [= <- <-]. split_and!; [done|by left|auto].
  - intros (Hl & Hmay & Hret)%Hpub. split_and!; [done| |done]. destruct Hmay as [Hk2|Hm]; [by left|right]. exists (bind_entry req).
    split; [|done]. split; [|done]. rewrite <-Hfalse by done. destruct Hw0 as (Hw0 & _), Hk as (Hk & _). by rewrite Hk, Hw0.
Qed.

(** C34: publishing a volume of either file system driver binds the staging path to
    the target path, read-only if that is asked for, and only if nothing is mounted there:
    nothing is mounted over a published volume, however often the request is repeated.  If
    it succeeds, the target is mounted; other mount points and the contents of volumes are
    left alone, and the permit of the semaphore is given back. *)
Theorem publish_mounts_once nodeID req s o s' :
  Fss_NodePublishVolume req s = (o, s') ∨ Lustre_NodePublishVolume nodeID req s = (o, s') →
  mounts_once (npr_TargetPath req) (λ e, mounts (nd_host s) (npr_TargetPath req) = [] ∧ e = bind_entry req) s o s'.
Proof.
  assert (∀ m w o w', bind_mount m (npr_StagingTargetPath req) (npr_TargetPath req) (npr_Readonly req) w = (o, w') →
    may_mount (npr_TargetPath req) (bind_entry req) w w' ∧ (is_ret o = true → mounts w' (npr_TargetPath req) ≠ [])) as Hbind.
  { intros m w o1 w' [Hmay Hret]%bind_mount_spec. split; [done|]. intros H. by eapply at_path_mounted, Hret. }
  intros [Hr|Hr]; revert Hr.
  - unfold Fss_NodePublishVolume. do 3 (case_decide; [refuse|]). apply publish_spec; [done|]. intros s1 o1 s1'.
    apply semaphore_may_mount. apply Hbind.
  - unfold Lustre_NodePublishVolume. do 3 (case_decide; [refuse|]). destruct (ValidateLustreVolumeId _) as [[] label] eqn:Ev; [|refuse].
    apply valid_label in Ev. simpl. apply quiet_then; [apply load_metadata_quiet|]. intros u1 s1 [_ Hk1]%load_metadata_quiet o1 s1'.
    apply quiet_then; [intros ? ? ? Hr; by eapply setup_lnet_spec|]. intros u2 s2 [[_ Hk2] _]%setup_lnet_spec o2 s2'; [|done].
    apply publish_spec; [by trans (nd_host s1)|]. intros s3 o3 s3' (Hr & Hl & _)%host_inv. by apply Hbind in Hr as [??].
Qed.

(** ** Unmounting *)

Definition d_unmounts p s (o : outcome ()) s' : Prop :=
  nd_volumeLocks s' = nd_volumeLocks s ∧ unmounts p (nd_host s) o (nd_host s').

Lemma d_refused p s e o s' : fail e s = (o, s') → d_unmounts p s o s'.
Proof. intros [= <- <-]. split; [done|]. split; [by apply kept_may_unmount|done]. Qed.

Lemma quiet_unmounts p s1 s2 o s' : quiet s1 s2 → d_unmounts p s2 o s' → d_unmounts p s1 o s'.
Proof. intros [Hl Hk] [Hl2 Hu]. split; [congruence|]. by eapply kept_unmounts. Qed.

Lemma semaphore_unmounts sem message (c : M W ()) p s o s' :
  (∀ w o w', c w = (o, w') → unmounts p w o w') → with_semaphore sem message (host c) s = (o, s') → d_unmounts p s o s'.
Proof.
  intros Hc [[Hne [Hl Hk]]|(s1 & s2 & Hr & Hl & Hl' & Hm1 & Hc1 & Hm2 & Hc2 & Hp)]%with_semaphore_spec.
  - split; [done|]. split; [by apply kept_may_unmount|by rewrite Hne].
  - apply host_inv in Hr as (Hr & Hl2 & _). apply Hc in Hr as ((Hu & Ho & Hp2 & Hcont) & Hret). split; [congruence|].
    rewrite !Hm1, <-Hm2 in Hu. rewrite !Hm1, <-Hm2 in Hret. split; [|done]. split_and!; [done| |auto|].
    + intros q Hq. by rewrite Hm2, Ho, Hm1.
    + intros Hb. rewrite Hc2, Hcont, Hc1; [done|]. intros q Hq. rewrite Hm1. auto.
Qed.

(** A call that pops the mount, or fails, with an error that is reported. *)
Lemma report_unmounts (c : M W ()) f p w o w' :
  (∀ w o w', c w = (o, w') → unmounts p w o w') → (∀ e w1, ∃ e', f e w1 = (Err e', w1)) → report c f w = (o, w') → unmounts p w o w'.
Proof.
  intros Hc Hf [(u & -> & Hr)|[(e & w2 & Hr & He)|[Hr ->]]]%report_spec; apply Hc in Hr; [done| |done].
  destruct (Hf e w2) as [e' He']. rewrite He' in He. injection He as <- <-. split; [apply Hr|done].
Qed.

Lemma mounter_unmounts p w o w' : mounter_Unmount p w = (o, w') → unmounts p w o w'.
Proof.
  intros Hr%unmount_law. destruct (is_ret o) eqn:E; [|split; [by apply kept_may_unmount|by rewrite E]].
  split; [by apply tail_may_unmount|]. intros _. apply Hr.
Qed.

Lemma encrypted_unmounts p w o w' : UnmountWithEncrypt p w = (o, w') → unmounts p w o w'.
Proof.
  unfold UnmountWithEncrypt, run_command, mbind, M_bind. destruct (exec_Command _ _ w) as [[output err] w1] eqn:E.
  apply encrypt_umount_law in E as [Hmay Hok]. simpl in Hok.
  assert (may_unmount p w w1) by (destruct Hmay; [by apply kept_may_unmount|by apply tail_may_unmount]).
  destruct err; intros [= <- <-]; (split; [done|]); [done|]. intros _. by apply Hok.
Qed.

Lemma forced_unmounts p w o w' : UnmountWithForce p w = (o, w') → unmounts p w o w'.
Proof.
  unfold UnmountWithForce, run_command, mbind, M_bind. destruct (exec_Command _ _ w) as [[output err] w1] eqn:E.
  apply force_umount_law in E as (Hmay & Hok & Hnot). simpl in Hok, Hnot.
  assert (may_unmount p w w1) as Hm by (destruct Hmay; [by apply kept_may_unmount|by apply tail_may_unmount]).
  destruct err as [err|]; [|intros [= <- <-]; split; [done|intros _; by apply Hok]].
  destruct (Contains output errNotMounted) eqn:Ec; intros [= <- <-]; (split; [done|]); [|done]. intros _.
  destruct Hm as ([->| ->] & _); by rewrite Hnot.
Qed.

Lemma unmountAndCleanup_spec p exp ip w o w' : unmountAndCleanup p exp ip w = (o, w') → unmounts p w o w'.
Proof.
  apply unmount_or_remove_spec; [apply is_mount_point_kept|apply is_mount_point_Ret|apply is_mount_point_missing|].
  assert (frames kept (report (FindMount p) (λ _, status (A := list string) Internal "Find Mount failed for target path" []))) as Hfind
    by (unfold FindMount; keep).
  intros w1 o1 w1' Hr. apply M_bind_cases in Hr as [(sources & w2 & Hf & Hr)|(o2 & Hf & Hne)]; apply Hfind in Hf as Hk.
  - eapply kept_unmounts; [done|]. eapply report_unmounts; [|by eauto|exact Hr]. intros w3 o3 w3'.
    destruct (existsb _ sources); [apply encrypted_unmounts|apply mounter_unmounts].
  - split; [by apply kept_may_unmount|by rewrite Hne].
Qed.

Lemma lustre_unmount_spec label p message w o w' :
  isValidShellInput label = true → lustre_unmount label p message w = (o, w') → unmounts p w o w'.
Proof.
  intros Hl Hr. unfold lustre_unmount in Hr.
  apply M_bind_cases in Hr as [(b & w1 & Ha & Hr)|(o2 & Ha & Hne)]; apply IsLnetActive_kept in Ha as Hk; try done.
  2: { split; [by apply kept_may_unmount|by rewrite Hne]. }
  eapply kept_unmounts; [done|]. destruct b; simpl in Hr.
  - eapply unmount_or_remove_spec; [..|exact Hr]; [apply host_reads|apply mounted_law|apply mounted_missing|].
    intros w2 o2 w2'. apply report_unmounts; [apply mounter_unmounts|by eauto].
  - eapply report_unmounts; [apply forced_unmounts|by eauto|exact Hr].
Qed.

(** The four requests that free a path; the configuration, which is read first if it has not
    been read yet, may say that Lustre volumes are not to be unstaged. *)
Inductive frees : string → NodeDriver W → outcome () → NodeDriver W → Prop :=
| fss_unpublish v p s o s' : Fss_NodeUnpublishVolume v p s = (o, s') → frees p s o s'
| fss_unstage v p s o s' : Fss_NodeUnstageVolume v p s = (o, s') → frees p s o s'
| lustre_unpublish v p s o s' : Lustre_NodeUnpublishVolume v p s = (o, s') → frees p s o s'
| lustre_unstage v p s o s' : Lustre_NodeUnstageVolume v p s = (o, s') →
    (∀ c, cfg_Lustre (nd_csiConfig (loadCSIConfig s).2) = Some c → SkipNodeUnstage c = false) → frees p s o s'.

Lemma fss_unpublish_spec v p s o s' : Fss_NodeUnpublishVolume v p s = (o, s') → d_unmounts p s o s'.
Proof.
  unfold Fss_NodeUnpublishVolume, status. do 2 (case_decide; [apply d_refused|]).
  intros Hr. apply M_bind_split in Hr as [(r & s1 & Ht & Hr)|(o1 & Ht & _ & Hne)];
    apply (frames_try quiet) in Ht as Hq; try (apply host_quiet, is_mount_point_kept).
  2: { eapply quiet_unmounts; [done|]. split; [done|]. split; [by apply kept_may_unmount|by rewrite Hne]. }
  unfold try in Ht. destruct (host (is_mount_point p) s) as [[b|e|] s2] eqn:Hh; try done; injection Ht as <- ->; apply host_inv in Hh as (Hh & Hl & _).
  - eapply quiet_unmounts; [done|]. destruct b; [eapply semaphore_unmounts; [|exact Hr]; intros ? ? ?; apply report_unmounts; [apply mounter_unmounts|by eauto]|].
    apply is_mount_point_Ret in Hh. apply host_inv in Hr as (Hr & Hl2 & _). split; [done|]. eapply remove_unmounts; [|by eauto|exact Hr].
    destruct Hq as [_ (Hm & _)]. rewrite Hm. by destruct (mounts (nd_host s) p).
  - destruct (os_IsNotExist e) eqn:He; injection Hr as <- <-; (split; [done|]); (split; [apply kept_may_unmount, Hq|]); [intros _|done].
    destruct Hq as [_ (Hm & _)]. by rewrite Hm, (is_mount_point_missing _ _ _ _ Hh He).
Qed.

Lemma fss_unstage_spec v p s o s' : Fss_NodeUnstageVolume v p s = (o, s') → d_unmounts p s o s'.
Proof.
  unfold Fss_NodeUnstageVolume, status. do 2 (case_decide; [apply d_refused|]). cbv zeta. case_decide; [apply d_refused|].
  intros Hr. apply with_volume_lock_spec in Hr as [Hl [[Hne ->]|(sa & sb & Hr & Ha & _ & Hb)]].
  - split; [done|]. split; [by apply kept_may_unmount|by rewrite Hne].
  - apply semaphore_unmounts with (p := p) in Hr as [_ Hu]; [|apply unmountAndCleanup_spec]. rewrite Ha, <-Hb in Hu. by split.
  - intros s1 o1 s2 _ Hr2. by apply semaphore_unmounts with (p := p) in Hr2 as [? _]; [|apply unmountAndCleanup_spec].
Qed.

Lemma lustre_unpublish_spec v p s o s' : Lustre_NodeUnpublishVolume v p s = (o, s') → d_unmounts p s o s'.
Proof.
  unfold Lustre_NodeUnpublishVolume, status. do 2 (case_decide; [apply d_refused|]).
  destruct (ValidateLustreVolumeId _) as [[] label] eqn:Ev; [|apply d_refused]. apply valid_label in Ev. simpl.
  intros (Hr & Hl & _)%host_inv. split; [done|]. by eapply lustre_unmount_spec.
Qed.

Lemma lustre_unstage_spec v p s o s' : Lustre_NodeUnstageVolume v p s = (o, s') →
  (∀ c, cfg_Lustre (nd_csiConfig (loadCSIConfig s).2) = Some c → SkipNodeUnstage c = false) → d_unmounts p s o s'.
Proof.
  intros Hr Hskip. revert Hr. unfold Lustre_NodeUnstageVolume, status. do 2 (case_decide; [apply d_refused|]).
  destruct (ValidateLustreVolumeId _) as [[] label] eqn:Ev; [|apply d_refused]. apply valid_label in Ev. simpl.
  intros Hr. apply M_bind_split in Hr as [(u & s1 & Hc & Hr)|(o1 & Hc & _ & Hne)]; apply loadCSIConfig_quiet in Hc as Hq.
  2: { eapply quiet_unmounts; [exact Hq|]. split; [done|]. split; [by apply kept_may_unmount|by rewrite Hne]. }
  rewrite Hc in Hskip. simpl in Hskip. eapply quiet_unmounts; [exact Hq|]. clear Hq Hc s.
  unfold mbind, M_bind, get in Hr. replace (match cfg_Lustre (nd_csiConfig s1) with Some c => SkipNodeUnstage c | None => false end) with false in Hr
    by (destruct (cfg_Lustre (nd_csiConfig s1)); [symmetry; by apply Hskip|done]).
  apply with_volume_lock_spec in Hr as [Hl [[Hne ->]|(sa & sb & Hr & Ha & _ & Hb)]].
  - split; [done|]. split; [by apply kept_may_unmount|by rewrite Hne].
  - apply host_inv in Hr as (Hr & _ & _). rewrite Ha, <-Hb in Hr. split; [done|]. by eapply lustre_unmount_spec.
  - by intros s2 o1 s3 _ (_ & ? & _)%host_inv.
Qed.

(** C35: A request to unpublish or to unstage a volume, of either file system driver,
    unmounts at most one thing, at its path.  If it succeeds, the last mount of the path is
    gone, so a path with one mount is free, also if it was not mounted at all, or did not
    exist; unless the configuration, as the request finds or reads it, says that Lustre
    volumes are not to be unstaged.  A
    directory is removed only if it is no mount point: the contents of volumes are left
    alone, if nothing is mounted below the path.  Other mount points are left alone, and
    lock and permit are given back. *)
Theorem unmount_frees_path p s o s' :
  frees p s o s' →
  nd_volumeLocks s' = nd_volumeLocks s ∧ (∀ sem, permits (nd_host s') sem = permits (nd_host s) sem) ∧
  (∀ q, q ≠ p → mounts (nd_host s') q = mounts (nd_host s) q) ∧
  ((∀ q, below p q → mounts (nd_host s) q = []) → contents (nd_host s') = contents (nd_host s)) ∧
  (is_ret o = true → mounts (nd_host s') p = tail (mounts (nd_host s) p)) ∧
  length (mounts (nd_host s) p) - 1 ≤ length (mounts (nd_host s') p) ≤ length (mounts (nd_host s) p).
Proof.
  intros Hf. assert (d_unmounts p s o s') as (Hl & (Hu & Ho & Hp & Hc) & Hret).
  { destruct Hf as [v p s o s' Hr|v p s o s' Hr|v p s o s' Hr|v p s o s' Hr Hskip];
      [by eapply fss_unpublish_spec|by eapply fss_unstage_spec|by eapply lustre_unpublish_spec|by eapply lustre_unstage_spec]. }
  split_and!; try done.
  - destruct Hu as [->| ->]; [lia|]. destruct (mounts (nd_host s) p); simpl; lia.
  - destruct Hu as [->| ->]; [lia|]. destruct (mounts (nd_host s) p); simpl; lia.
Qed.
End facts.

(** ** How a staged file system is unmounted *)

Lemma HasSuffix_app s p : HasSuffix (s +:+ p) p = true.
Proof.
  unfold HasSuffix, strip_suffix. apply bool_decide_eq_true. rewrite rev_append.
  pose proof (HasPrefix_app (String.rev p) (String.rev s)) as [r Hr]%bool_decide_eq_true. rewrite Hr. by eexists.
Qed.

(** An IPv6 address does not start with a bracket. *)
Lemma ipv6_no_bracket s : is_Some (net_ParseIP (String "[" s)) → is_Some (To4 (net_ParseIP (String "[" s))).
Proof.
  unfold net_ParseIP. intros [ip Hip]. destruct (ip_family (String "[" s)) as [f|]; [|done].
  assert (parseIPv6 (String "[" s) = None) as H6 by done.
  destruct f as [[] [] [] [] [] [] [] []]; try done; [|destruct (has_byte "%" (String "[" s)); congruence].
  rewrite Hip. apply bind_Some in Hip as (v4 & _ & [= <-]). by eexists.
Qed.

(** To unstage a file system that it has mounted without encryption, the driver
    calls the plain unmount if the mount target is named by an IPv4 address, a DNS name or
    an IPv6 address in brackets.  For an IPv6 address without brackets, which the handle may
    have and which is put in brackets to mount, it takes its own mount for an encrypted one
    and calls the command for those. *)
Lemma fss_unmount_command mountTargetIP exportPath :
  let own := encrypted_source exportPath mountTargetIP (fss_source mountTargetIP exportPath) in
  (IsIpv4 mountTargetIP = true ∨ net_ParseIP mountTargetIP = None → own = false) ∧
  (IsIpv4 mountTargetIP = false → net_ParseIP mountTargetIP ≠ None → own = true).
Proof.
  cbv zeta. unfold encrypted_source, fss_source, IsIpv4, FormatValidIp, To16. split.
  - intros Hip. assert ((if decide (is_Some (To4 (net_ParseIP mountTargetIP))) then mountTargetIP else
      if decide (is_Some (net_ParseIP mountTargetIP)) then "[" +:+ trim_brackets mountTargetIP +:+ "]" else mountTargetIP) = mountTargetIP) as ->.
    { case_decide; [done|]. destruct Hip as [H4%bool_decide_eq_true|Hn]; [done|]. rewrite Hn. by rewrite decide_False by (by intros [? ?]). }
    rewrite HasPrefix_app. by rewrite andb_false_r.
  - intros H4%bool_decide_eq_false Hip. rewrite decide_False by done. rewrite decide_True by (by apply not_eq_None_Some).
    rewrite append_assoc, HasSuffix_app. simpl. apply negb_true_iff. apply bool_decide_eq_false. intros [r Hr].
    apply strip_prefix_Some in Hr. destruct mountTargetIP as [|c ip]; [done|]. injection Hr as <- _.
    by apply H4, ipv6_no_bracket, not_eq_None_Some.
Qed.
