(* ===== verification/NodeMemory.v ===== *)
(** * A node in memory

    A host that satisfies [HostLaws], and runs of the node services on it. *)
From stdpp Require Import base tactics list gmap sets strings.
From S2P Require Import Prelude GoStrings GoNet Types ClientErrors CsiUtil CsiUtilFacts BlockVolume FileStorageClient FileStorage StorageMemory LustreClient Lustre LustreFacts LustreMemory Host LustreNet NodeServices NodeServicesFacts.

Record host_world := {
  hw_mounts : gmap string (list mount_entry);
  hw_contents : gmap string string;
  hw_mount_permits : Z;
  hw_unmount_permits : Z;
}.

Definition hw_mounts_at (w : host_world) (p : string) : list mount_entry := default [] (hw_mounts w !! p).
Definition hw_permits (w : host_world) (sem : semaphore) : Z :=
  match sem with fssMountSemaphore => hw_mount_permits w | fssUnmountSemaphore => hw_unmount_permits w end.

Definition with_mounts (p : string) (f : list mount_entry → list mount_entry) (w : host_world) : host_world := {|
  hw_mounts := <[p := f (hw_mounts_at w p)]> (hw_mounts w); hw_contents := hw_contents w;
  hw_mount_permits := hw_mount_permits w; hw_unmount_permits := hw_unmount_permits w |}.
Definition with_permits (sem : semaphore) (n : Z) (w : host_world) : host_world := {|
  hw_mounts := hw_mounts w; hw_contents := hw_contents w;
  hw_mount_permits := (hw_mount_permits w + if decide (fssMountSemaphore = sem) then n else 0)%Z;
  hw_unmount_permits := (hw_unmount_permits w + if decide (fssUnmountSemaphore = sem) then n else 0)%Z |}.

Definition no_process : exec_error := {| xe_Error := "exit status 32"; xe_ProcessState := None; xe_ExitStatus := Some 32%Z |}.

(** Mounting and unmounting; other commands print nothing. *)
Definition memory_command (name : string) (args : list string) (w : host_world) : (string * option exec_error) * host_world :=
  let p := List.last args "" in
  if decide (name = EncryptionMountCommand) then ("", None, with_mounts p (cons args) w)
  else if decide (name = EncryptedUmountCommand) then ("", None, with_mounts p tail w)
  else if decide (name = UnmountCommand) then
    match hw_mounts_at w p with
    | [] => ("umount: not mounted", Some no_process, w)
    | _ => ("", None, with_mounts p tail w)
    end
  else (if decide (name = RPM_COMMAND) then "oci-fss-utils-2.0" else "", None, w).

Definition missing_file : error := Errorf "no such file or directory" [].

Definition memory_host : Host host_world := {|
  exec_Command := memory_command;
  IsLikelyNotMountPoint p w := (Ret (bool_decide (hw_mounts_at w p = [])), w);
  mount_IsNotMountPoint p w := if decide (hw_mounts w !! p = None) then (Err missing_file, w) else (Ret (bool_decide (hw_mounts_at w p = [])), w);
  mounter_IsMountPoint p w := (Ret (negb (bool_decide (hw_mounts_at w p = []))), w);
  mounter_List w := (Ret [], w);
  mounter_Mount m src p t os w :=
    match mount_on os (MakeMountArgs src p t os) (hw_mounts_at w p) with
    | Some l => (Ret (), with_mounts p (const l) w)
    | None => (Err missing_file, w)
    end;
  mounter_Unmount p w := match hw_mounts_at w p with [] => (Err missing_file, w) | _ => (Ret (), with_mounts p tail w) end;
  mount_PathExists p w := (Ret true, w);
  hostutil_PathExists p w := (Ret true, w);
  hostutil_DeviceOpened p w := (Ret false, w);
  os_MkdirAll p w := (Ret (), w);
  os_Remove p w := (Ret (), w);
  os_RemoveAll p w := (Ret (), w);
  os_IsNotExist e := bool_decide (e = missing_file);
  Semaphore_Acquire sem w := if decide (0 < hw_permits w sem)%Z then (Ret (), with_permits sem (-1) w) else (Err DeadlineExceeded, w);
  Semaphore_Release sem w := with_permits sem 1 w;
|}.

(** One interface, and LNet that is up. *)
Definition memory_lnet : LnetHost host_world := {|
  net_Interfaces w := (Ret ["ens3"], w);
  Interface_Addrs i w := (Ret ["10.0.10.4/24"], w);
  yaml_NetInfo s := inr {| info_Net := [{| net_NetType := "tcp"; net_LocalNI :=
    [{| ni_NID := "10.0.10.4@tcp"; ni_Status := "up"; ni_Interfaces := {[0%Z := "ens3"]} |}] |}] |};
|}.

Definition a_node : Node := {|
  node_Name := "node"; node_Labels := {[LabelTopologyZone := "PHX-AD-1"]}; node_Annotations := ∅;
  node_ProviderID := "oci://instance"; node_Addresses := []; node_Conditions := [] |}.
Definition host_nodes : KubeNodes host_world := {| Nodes_Get name w := (Ret a_node, w) |}.
Definition host_config : KubeConfigMaps host_world := {|
  ConfigMaps_Get name w := (Ret ∅, w); yaml_DriverConfig s c := c |}.

Lemma with_mounts_same p f w : hw_mounts_at (with_mounts p f w) p = f (hw_mounts_at w p).
Proof. unfold hw_mounts_at at 1. simpl. by rewrite lookup_insert_eq. Qed.
Lemma with_mounts_other p q f w : q ≠ p → hw_mounts_at (with_mounts p f w) q = hw_mounts_at w q.
Proof. intros Hq. unfold hw_mounts_at at 1. simpl. by rewrite lookup_insert_ne. Qed.

Lemma last_MakeMountArgs src p t os : List.last (MakeMountArgs src p t os) "" = p.
Proof. unfold MakeMountArgs. rewrite !app_assoc. apply List.last_last. Qed.

Definition memory_host_laws :
  let _ := memory_host in let _ := memory_lnet in let _ := host_nodes in let _ := host_config in HostLaws host_world.
Proof.
  intros H L N C. refine {| mounts := hw_mounts_at; contents := hw_contents; permits := hw_permits |}.
  - intros name args w Hq. simpl. by destruct Hq.
  - split_and!; try (by intros ? ? ? ? [= _ <-]); [|by intros ? ? ? [= _ <-]].
    intros p w o w'. simpl. by case_decide; intros [= _ <-].
  - intros w l w' [= <- _] i Hi. by apply list_elem_of_singleton in Hi as ->.
  - intros p w w' [= Hb _]. by apply bool_decide_eq_false in Hb.
  - intros p w b w'. simpl. by case_decide; intros [= <- _].
  - intros p w e w'. simpl. case_decide as Hp; [|done]. intros _ _. unfold hw_mounts_at. by rewrite Hp.
  - by intros p w b w' [= <- _].
  - done.
  - by intros p w o w' [= _ <-].
  - intros m src p t os w o w'. simpl. pose proof (mount_on_step os (MakeMountArgs src p t os) (hw_mounts_at w p)) as Hs.
    destruct (mount_on _ _ _) as [l|]; intros [= <- <-]; simpl; [|done].
    split_and!; [intros q; apply with_mounts_other|done|done|by rewrite with_mounts_same].
  - intros p w o w'. simpl. destruct (hw_mounts_at w p) eqn:E; intros [= <- <-]; [done|]. simpl.
    split_and!; [by rewrite with_mounts_same, E|intros q; apply with_mounts_other|done|done].
  - intros src p t os w r w'. simpl. unfold memory_command. rewrite decide_True, last_MakeMountArgs by done. intros [= <- <-]. cbv zeta.
    split; [right|intros _]; (split_and!; [apply with_mounts_same|intros q; apply with_mounts_other|done|done]).
  - intros p w r w' [= <- <-]. simpl. split; [right|intros _];
      (split_and!; [apply with_mounts_same|intros q; apply with_mounts_other|done|done]).
  - intros p w r w'. simpl. unfold memory_command. rewrite decide_False, decide_False, decide_True by done. simpl.
    destruct (hw_mounts_at w p) as [|e l] eqn:E; intros [= <- <-]; simpl.
    + split_and!; [by left|done|done].
    + assert (at_path_in : hw_mounts_at (with_mounts p tail w) p = l) by (by rewrite with_mounts_same, E).
      split_and!; [right|intros _|done]; (split_and!; [done|intros q; apply with_mounts_other|done|done]).
  - intros sem w o w'. simpl. case_decide; intros [= <- <-]; simpl; (split_and!; [done|done|]); intros x; [|lia].
    destruct x, sem; simpl; lia.
  - intros sem w. simpl. split_and!; [done|done|]. intros x. destruct x, sem; simpl; lia.
Defined.

(** ** Runs *)

#[local] Existing Instances memory_host memory_lnet host_nodes host_config memory_host_laws no_lustre_json list_range plain_text.

Definition unknown_node : NodeMetadata := {|
  PreferredNodeIpFamily := ""; Ipv4Enabled := false; Ipv6Enabled := false; AvailabilityDomain := "";
  FullAvailabilityDomain := ""; nm_NodeInternalIP := "10.0.10.4"; IsNodeMetadataLoaded := false |}.
Definition fresh_driver : NodeDriver host_world := {|
  nd_volumeLocks := NewVolumeLocks; nd_nodeMetadata := unknown_node;
  nd_csiConfig := {| cfg_Lustre := None; cfg_Bv := None; cfg_IsLoaded := false |};
  nd_host := {| hw_mounts := ∅; hw_contents := ∅; hw_mount_permits := 2; hw_unmount_permits := 4 |} |}.

Definition fss_request : NodeStageRequest := {|
  nsr_VolumeId := "ocid1.filesystem.a:10.0.10.7:/share"; nsr_StagingTargetPath := "/staging";
  nsr_Mount := Some {| mv_FsType := ""; mv_MountFlags := ["ro"] |}; nsr_VolumeContext := {["encryptInTransit" := "true"]} |}.
Definition fss_staged := Fss_NodeStageVolume "node" fss_request fresh_driver.

Lemma Fss_NodeStageVolume_correct_witness :
  fss_staged.1 = Ret () ∧
  hw_mounts (nd_host fss_staged.2) = {["/staging" := [["-t"; "oci-fss"; "-o"; "ro"; "10.0.10.7:/share"; "/staging"]]]} ∧
  mounts_once "/staging" (fss_entry fss_request) fresh_driver fss_staged.1 fss_staged.2.
Proof.
  split; [vm_compute; reflexivity|]. split; [vm_compute; reflexivity|].
  apply (Fss_NodeStageVolume_correct "node" fss_request fresh_driver fss_staged.1 fss_staged.2 (surjective_pairing _)).
Defined.

Definition lustre_stage_request : NodeStageRequest := {|
  nsr_VolumeId := "ocid1.lustrefilesystem.a:10.0.2.6@tcp:/pvabc123"; nsr_StagingTargetPath := "/staging";
  nsr_Mount := Some {| mv_FsType := "lustre"; mv_MountFlags := [] |};
  nsr_VolumeContext := {["setupLnet" := "true"; "lustreSubnetCidr" := "10.0.10.0/24"; "lustrePostMountParameters" := "[]"]} |}.
Definition lustre_staged := Lustre_NodeStageVolume "node" lustre_stage_request fresh_driver.

Lemma Lustre_NodeStageVolume_correct_witness :
  lustre_staged.1 = Ret () ∧
  mounts_once "/staging" (λ e, ∃ mnt, nsr_Mount lustre_stage_request = Some mnt ∧
    e = MakeMountArgs "10.0.2.6@tcp:/pvabc123" "/staging" "lustre" (mv_MountFlags mnt)) fresh_driver lustre_staged.1 lustre_staged.2.
Proof.
  split; [vm_compute; reflexivity|].
  apply (Lustre_NodeStageVolume_correct "node" lustre_stage_request fresh_driver lustre_staged.1 lustre_staged.2); [|apply surjective_pairing].
  intros mnt [= <-]. apply (bool_decide_unpack _). vm_compute. reflexivity.
Defined.

Definition publish_req : NodePublishRequest := {|
  npr_VolumeId := "ocid1.filesystem.a:10.0.10.7:/share"; npr_StagingTargetPath := "/staging"; npr_TargetPath := "/target";
  npr_Readonly := true; npr_VolumeContext := ∅ |}.
Definition fss_published := Fss_NodePublishVolume publish_req fss_staged.2.

Lemma publish_mounts_once_witness :
  fss_published.1 = Ret () ∧ (Fss_NodePublishVolume publish_req fss_published.2).2 = fss_published.2 ∧
  mounts_once "/target" (λ e, mounts (nd_host fss_staged.2) "/target" = [] ∧ e = bind_entry publish_req)
    fss_staged.2 fss_published.1 fss_published.2.
Proof.
  split; [vm_compute; reflexivity|]. split; [vm_compute; reflexivity|].
  apply (publish_mounts_once "node" publish_req fss_staged.2 fss_published.1 fss_published.2).
  left. apply surjective_pairing.
Defined.

Definition fss_unstaged := Fss_NodeUnstageVolume "ocid1.filesystem.a:10.0.10.7:/share" "/staging" fss_staged.2.

(** After a restart the driver has read no configuration yet. *)
Definition restarted : NodeDriver host_world := set_config (nd_csiConfig fresh_driver) lustre_staged.2.
Definition lustre_unstaged := Lustre_NodeUnstageVolume (nsr_VolumeId lustre_stage_request) "/staging" restarted.

Lemma unmount_frees_path_witness :
  fss_unstaged.1 = Ret () ∧ mounts (nd_host fss_staged.2) "/staging" ≠ [] ∧ mounts (nd_host fss_unstaged.2) "/staging" = [] ∧
  lustre_unstaged.1 = Ret () ∧ mounts (nd_host restarted) "/staging" ≠ [] ∧ mounts (nd_host lustre_unstaged.2) "/staging" = [].
Proof.
  split; [vm_compute; reflexivity|]. split; [vm_compute; discriminate|]. split.
  - destruct (unmount_frees_path "/staging" fss_staged.2 fss_unstaged.1 fss_unstaged.2) as (_ & _ & _ & _ & H & _).
    + apply (fss_unstage "ocid1.filesystem.a:10.0.10.7:/share"). apply surjective_pairing.
    + etransitivity; [apply H; vm_compute; reflexivity|]. vm_compute; reflexivity.
  - split; [vm_compute; reflexivity|]. split; [vm_compute; discriminate|].
    destruct (unmount_frees_path "/staging" restarted lustre_unstaged.1 lustre_unstaged.2) as (_ & _ & _ & _ & H & _).
    + apply (lustre_unstage (nsr_VolumeId lustre_stage_request)); [apply surjective_pairing|]. by vm_compute.
    + etransitivity; [apply H; vm_compute; reflexivity|]. vm_compute; reflexivity.
Defined.
