(* ===== verification/GoRegexp.v ===== *)
(** * Regular expressions and paths

    Package regexp, as far as the code uses it: the syntax of the patterns is compiled to a
    sequence of classes of bytes, repeated or optional, with groups; of several matches the
    leftmost is taken, and repetitions take as much as they can.  Package path/filepath:
    [Clean], [Join], [Dir] and [Base]. *)
From stdpp Require Import base tactics list strings.
From Stdlib Require Import Ascii.
From S2P Require Import Prelude GoStrings.

(** ** Matching *)

(** [Mark] begins or ends a group; [EndOfText] is [$]. *)
Inductive piece :=
| One (p : ascii → bool)
| Many (p : ascii → bool)
| Maybe (p : ascii → bool)
| Mark
| EndOfText.

(** As many as possible, then [k]. *)
Fixpoint many {R} (p : ascii → bool) (k : string → option R) (s : string) : option R :=
  match s with
  | String c s' => if p c then match many p k s' with Some r => Some r | None => k s end else k s
  | EmptyString => k ""
  end.

(** What is left at every mark, and at the end. *)
Fixpoint match_here (r : list piece) (s : string) : option (list string * string) :=
  match r with
  | [] => Some ([], s)
  | One p :: r => match s with String c s' => if p c then match_here r s' else None | EmptyString => None end
  | Many p :: r => match s with String c s' => if p c then many p (match_here r) s' else None | EmptyString => None end
  | Maybe p :: r =>
      match s with
      | String c s' => if p c then match match_here r s' with Some x => Some x | None => match_here r s end else match_here r s
      | EmptyString => match_here r ""
      end
  | Mark :: r => match match_here r s with Some (marks, rest) => Some (s :: marks, rest) | None => None end
  | EndOfText :: r => if decide (s = "") then match_here r s else None
  end.

(** The text between two places, given what is left at each. *)
Definition between (a b : string) : string := String.substring 0 (String.length a - String.length b) a.

Fixpoint group_texts (marks : list string) : list string :=
  match marks with
  | a :: b :: marks => between a b :: group_texts marks
  | _ => []
  end.

(** [FindStringSubmatch]: the match and its groups. *)
Fixpoint FindStringSubmatch (r : list piece) (s : string) : option (list string) :=
  match match_here r s with
  | Some (marks, rest) => Some (between s rest :: group_texts marks)
  | None => match s with String _ s' => FindStringSubmatch r s' | EmptyString => None end
  end.
Definition MatchString (r : list piece) (s : string) : bool := bool_decide (is_Some (FindStringSubmatch r s)).

(** ** Syntax *)

Definition exactly (c : ascii) : ascii → bool := λ d, bool_decide (d = c).
Definition digit_class (c : ascii) : bool := let n := nat_of_ascii c in bool_decide (48 ≤ n ≤ 57).
Definition word_class (c : ascii) : bool := is_alphanumeric c || bool_decide (c = "_"%char).
Definition any_class (c : ascii) : bool := negb (bool_decide (c = "010"%char)).
Definition range_class (lo hi : ascii) (c : ascii) : bool :=
  bool_decide (nat_of_ascii lo ≤ nat_of_ascii c ≤ nat_of_ascii hi).

(** What an escape stands for: a class, or the character itself if it is punctuation. *)
Definition escape (c : ascii) : option (ascii → bool) :=
  if decide (c = "d"%char) then Some digit_class
  else if decide (c = "w"%char) then Some word_class
  else if is_alphanumeric c then None
  else Some (exactly c).

(** The rest of a class in brackets: a closing bracket that comes first is a member.  Named
    classes and ranges that begin or end with an escape are not understood. *)
Fixpoint class_body (fuel : nat) (first : bool) (s : string) : option ((ascii → bool) * string) :=
  match fuel with
  | 0 => None
  | S fuel =>
      let more p s := '(q, s) ← class_body fuel false s; Some ((λ c, p c || q c), s) in
      match s with
      | EmptyString => None
      | String "[" (String ":" _) => None
      | String "\" (String c s') => match escape c, s' with
                                    | None, _ => None
                                    | _, String "-" (String d _) => if decide (d = "]"%char) then p ← escape c; more p s' else None
                                    | Some p, _ => more p s'
                                    end
      | String "]" s' => if first then more (exactly "]") s' else Some ((λ _, false), s')
      | String c (String "-" (String d s')) =>
          if decide (d = "]"%char) then more (exactly c) (String "-" (String d s'))
          else if decide (d = "\"%char ∨ nat_of_ascii d < nat_of_ascii c) then None
          else more (range_class c d) s'
      | String c s' => more (exactly c) s'
      end
  end.
Definition class_text (s : string) : option ((ascii → bool) * string) :=
  match s with
  | String "^" s => '(p, s) ← class_body (S (String.length s)) true s; Some ((λ c, negb (p c)), s)
  | _ => class_body (S (String.length s)) true s
  end.

(** The operator that follows a class: the pieces, and the rest. *)
Definition repetition (p : ascii → bool) (s : string) : option (list piece * string) :=
  match s with
  | String "+" s => Some ([Many p], s)
  | String "?" s => Some ([Maybe p], s)
  | String "*" _ => None
  | String "{" s =>
      i ← Index s "}";
      n ← digits 0 (truncate i s);
      if decide (i = 0) then None
      else Some (replicate (Z.to_nat n) (One p), String.substring (S i) (String.length s - S i) s)
  | _ => Some ([One p], s)
  end.

(** No operator may follow. *)
Definition unrepeated (s : string) : bool :=
  match s with
  | String c _ => negb (bool_decide (c ∈ ["+"; "?"; "*"; "{"]%char))
  | EmptyString => true
  end.

Definition after_class (compile : string → option (list piece)) (c : option ((ascii → bool) * string)) : option (list piece) :=
  '(p, s) ← c;
  '(pieces, s) ← repetition p s;
  if negb (unrepeated s) then None else
  rest ← compile s;
  Some (pieces ++ rest).

(** The pieces of a pattern; [None] if the pattern is malformed or uses alternatives,
    repeated or nested groups, [^], [*] or lazy repetitions. *)
Fixpoint compile_from (fuel : nat) (group : bool) (s : string) : option (list piece) :=
  match fuel with
  | 0 => None
  | S fuel =>
      match s with
      | EmptyString => if group then None else Some []
      | String "(" s' =>
          if group then None else
          let s' := match strip_prefix "?P<" s' with
                    | Some t => match Index t ">" with Some i => String.substring (S i) (String.length t - S i) t | None => s' end
                    | None => s'
                    end in
          if negb (unrepeated s') then None else
          rest ← compile_from fuel true s'; Some (Mark :: rest)
      | String ")" s' =>
          if negb group || negb (unrepeated s') then None else
          rest ← compile_from fuel false s'; Some (Mark :: rest)
      | String "$" s' => if negb (unrepeated s') then None else rest ← compile_from fuel group s'; Some (EndOfText :: rest)
      | String "[" s' => after_class (compile_from fuel group) (class_text s')
      | String "\" (String c s') => after_class (compile_from fuel group) (p ← escape c; Some (p, s'))
      | String "." s' => after_class (compile_from fuel group) (Some (any_class, s'))
      | String c s' =>
          if decide (c ∈ ["|"; "^"; "+"; "?"; "*"; "{"; "\"]%char) then None
          else after_class (compile_from fuel group) (Some (exactly c, s'))
      end
  end.
Definition Compile (pattern : string) : option (list piece) := compile_from (S (String.length pattern)) false pattern.
Definition MustCompile (pattern : string) : outcome (list piece) := deref (Compile pattern).

Definition submatch (pattern s : string) : option (list string) := r ← Compile pattern; FindStringSubmatch r s.

Example submatches :
  submatch "ip-(?P<IscsiIp>[[?\w\.\:]+]?):(?P<Port>\d+)-i" "/x/ip-[fd00::1:2]:3260-iscsi" = Some ["ip-[fd00::1:2]:3260-i"; "[fd00::1:2]"; "3260"] ∧
  submatch "(a.b\d+)" "axb12-a.b7" = Some ["axb12"; "axb12"] ∧
  submatch "\w{2}\.[a-c]+$" "x.yz.abz" = None ∧ submatch "\w{2}\.[a-c]+$" "x.yz.abc" = Some ["yz.abc"] ∧
  submatch "[^-]+-[]x-]" "a--" = Some ["a--"].
Proof. by vm_compute. Qed.

(** ** Paths *)

(** The components that are left, the last one first. *)
Fixpoint clean_components (rooted : bool) (parts : list string) (out : list string) : list string :=
  match parts with
  | [] => out
  | part :: parts =>
      clean_components rooted parts
        (if decide (part = "" ∨ part = ".") then out
         else if decide (part = "..") then
           match out with
           | last :: out' => if decide (last = "..") then ".." :: out else out'
           | [] => if rooted then [] else [".."]
           end
         else part :: out)
  end.

Definition Clean (path : string) : string :=
  if decide (path = "") then "." else
  let rooted := HasPrefix path "/" in
  let text := join "/" (reverse (clean_components rooted (split_on "/" path) [])) in
  if rooted then "/" +:+ text else if decide (text = "") then "." else text.

Definition Join (elems : list string) : string :=
  match filter (λ e, e ≠ "") elems with
  | [] => ""
  | elems => Clean (join "/" elems)
  end.

(** All but the last element, cleaned; the last element. *)
Definition Dir (path : string) : string :=
  match LastIndex path "/" with
  | Some i => Clean (String.substring 0 (i + 1) path)
  | None => "."
  end.
Fixpoint trim_slashes (reversed : string) : string :=
  match reversed with String "/" r => trim_slashes r | _ => reversed end.
Definition Base (path : string) : string :=
  if decide (path = "") then "." else
  let path := String.rev (trim_slashes (String.rev path)) in
  if decide (path = "") then "/" else
  match LastIndex path "/" with
  | Some i => String.substring (i + 1) (String.length path - (i + 1)) path
  | None => path
  end.

Example clean_paths : Clean "/a//b/./../c/" = "/a/c" ∧ Clean "../x/../.." = "../.." ∧ Clean "/.." = "/" ∧ Clean "" = "." ∧
  Join ["/var/lib"; "mountfile"] = "/var/lib/mountfile" ∧ Join ["/dev"; "/sdc"] = "/dev/sdc" ∧ Dir "/a/b" = "/a" ∧ Dir "/a" = "/" ∧ Base "/a/b/" = "b".
Proof. by vm_compute. Qed.
