(* ===== verification/Disk.v ===== *)
(** * Block device handlers (src/pkg/util/disk)

    The three implementations of the interface that attaches block devices to mount points:
    iSCSI (iscsi.go), multipath iSCSI for ultra high performance (iscsi_uhp.go) and
    paravirtualized (paravirtualized.go), with the search for the device paths of a mount
    point.  What they use of the host, besides [Host], is the class [DiskHost]. *)
From stdpp Require Import base tactics list gmap sets strings.
From Stdlib Require Import Ascii.
From S2P Require Import Prelude GoStrings GoRegexp GoNet Types ClientErrors ClientCalls CsiUtil Host NodeServices.

(** [exec_Output] is the standard output of a command, or its error.  [Walk_paths] are the
    paths that [filepath.Walk] visits, in its order.  Formatting and mounting, and resizing
    a file system, are done by the Kubernetes libraries. *)
Class DiskHost (W : Type) := {
  exec_LookPath : string → M W string;
  exec_Output : string → list string → M W string;
  SafeFormatAndMount : string → string → string → string → list string → M W ();
  ResizeFs_Resize : string → string → M W bool;
  EvalSymlinks : string → M W string;
  Walk_paths : string → M W (list string);
  filepath_Glob : string → M W (list string);
  os_Readlink : string → M W string;
  os_ReadDir : string → M W (list string);
  os_Stat : string → M W ();
  os_OpenFile : string → M W ();
  File_Close : string → M W ();
  hostutil_PathIsDevice : string → M W bool;
}.

Definition iscsiadmCommand : string := "iscsiadm".
Definition mountCommand : string := "/bin/mount".
Definition loginPollInterval : Z := 5.
Definition pathPollInterval : Z := 2.
Definition pathPollTimeout : Z := 180.
Definition LIST_PATHS_COMMAND : string := "ls -f /dev/disk/by-path".
Definition DISK_BY_PATH_FOLDER : string := "/dev/disk/by-path/".
Definition volumeLoginTimeout : Z := 180.
Definition pathPollIntervalUHP : Z := 10.
Definition CHROOT_BASH_COMMAND : string := "chroot-bash".
Definition ErrMountPointNotFound : error := Errorf "mount point not found" [].
Definition NoSuchFile : string := "No such file or directory".
Definition diskByPathPattern : string :=
  "/dev/disk/by-path/ip-(?P<IscsiIp>[[?\w\.\:]+]?):(?P<Port>\d+)-iscsi-(?P<IQN>[\w\.\-:]+)-lun-\d+".

(** [core.MultipathDevice]. *)
Record MultipathDevice := {
  mpd_Ipv4 : option string;
  mpd_Port : option Z;
  mpd_Iqn : option string;
}.

(** The handlers.  That of iSCSI keeps the path of iscsiadm once it has been found: an
    operation that runs iscsiadm answers the handler it leaves. *)
Inductive handler :=
| iSCSIMounter (disk : option Disk) (iscsiadmPath : string)
| iSCSIUHPMounter
| pvMounter.

Definition Disk_String (sd : Disk) : string := disk_IscsiIp sd +:+ ":" +:+ Itoa (disk_Port sd) +:+ "-" +:+ disk_IQN sd.

(** [ip:port] for IPv4 and [[ip]:port] otherwise. *)
Definition Target (sd : Disk) : string :=
  if decide (is_Some (To4 (net_ParseIP (disk_IscsiIp sd)))) then disk_IscsiIp sd +:+ ":" +:+ Itoa (disk_Port sd)
  else "[" +:+ disk_IscsiIp sd +:+ "]:" +:+ Itoa (disk_Port sd).

Definition New (iqn iSCSIIp : string) (port : Z) : handler :=
  iSCSIMounter (Some {| disk_IQN := iqn; disk_IscsiIp := iSCSIIp; disk_Port := port |}) "".
Definition NewFromISCSIDisk (sd : option Disk) : handler := iSCSIMounter sd "".
Definition NewISCSIUHPMounter : handler := iSCSIUHPMounter.
Definition NewFromPVDisk : handler := pvMounter.

Definition DefaultMounterFactory (attachment : string) (scsiInfo : option Disk) (multipath : bool) : outcome handler :=
  if decide (attachment = "iscsi") then mret (if multipath then NewISCSIUHPMounter else NewFromISCSIDisk scsiInfo)
  else if decide (attachment = "paravirtualized") then mret NewFromPVDisk
  else Err (Errorf "unknown attachment type when creating mount handler: %s" [attachment]).

(** ** Device paths of iSCSI *)

(** The groups of the pattern in a path: the match, the address, the port and the name. *)
Definition FindFromDevicePath (mountDevice : string) : outcome (list string) :=
  let m := default [] (submatch diskByPathPattern mountDevice) in
  if decide (length m ≠ 4) then Err (Errorf "mount device path %q did not match pattern; got %v" [mountDevice; join " " m])
  else Ret m.

Definition GetScsiInfo (mountDevice : string) : outcome Disk :=
  m ← FindFromDevicePath mountDevice;
  ip ← index m 1; port ← index m 2; iqn ← index m 3;
  match Atoi port with
  | None => Err (Errorf "invalid port: %v" [port])
  | Some port => mret {| disk_IQN := iqn; disk_IscsiIp := ip; disk_Port := port |}
  end.
Definition NewFromDevicePath (mountDevice : string) : outcome handler :=
  sd ← GetScsiInfo mountDevice; mret (New (disk_IQN sd) (disk_IscsiIp sd) (disk_Port sd)).

(** The first path that has the form of a device path. *)
Fixpoint FindFromMountPointPath (diskByPaths : list string) : outcome (list string) :=
  match diskByPaths with
  | [] => Err (Errorf "iSCSI information not found for mount point" [])
  | diskByPath :: rest => match FindFromDevicePath diskByPath with Err _ => FindFromMountPointPath rest | o => o end
  end.

(** src/pkg/csi-util/utils.go. *)
Definition ExtractISCSIInformationFromMountPath (diskPath : list string) : outcome Disk :=
  m ← FindFromMountPointPath diskPath;
  ip ← index m 1; port ← index m 2; iqn ← index m 3;
  match Atoi port with
  | None => Err (Errorf "strconv.Atoi: parsing %q" [port])
  | Some port => mret {| disk_IQN := iqn; disk_IscsiIp := ip; disk_Port := port |}
  end.

Fixpoint first_handler (diskByPaths : list string) : outcome handler :=
  match diskByPaths with
  | [] => Err (Errorf "iSCSI information not found for mount point" [])
  | diskByPath :: rest => match NewFromDevicePath diskByPath with Err _ => first_handler rest | o => o end
  end.

(** The devices of findmnt name the file in brackets. *)
Definition sanitized (dev : string) : option string :=
  i ← Index dev "[";
  Some (Clean (TrimSuffix (String.substring (S i) (String.length dev - S i) dev) "]")).

Definition by_path_name (sd : Disk) : string :=
  "ip-" +:+ disk_IscsiIp sd +:+ ":" +:+ Itoa (disk_Port sd) +:+ "-iscsi-" +:+ disk_IQN sd +:+ "-lun-".

(** A line of [iscsiadm -m session] with the portal and the name. *)
Definition session_line (portal iqn line : string) : bool :=
  let line := TrimSpace line in
  negb (bool_decide (line = "")) && Contains line portal && Contains line iqn.

Section disk.
Context {W : Type} `{!Host W, !DiskHost W, !Limits W, !ErrorText}.

(** ** Paths of mount points *)

Fixpoint find_mount_point (path : string) (mountPoints : list MountPoint) : option MountPoint :=
  match mountPoints with
  | [] => None
  | mountPoint :: rest => if decide (mp_Path mountPoint = path) then Some mountPoint else find_mount_point path rest
  end.
Definition getMountPointForPath (path : string) : M W MountPoint :=
  mountPoints ← mounter_List;
  match find_mount_point path mountPoints with Some mp => mret mp | None => fail ErrMountPointNotFound end.

(** Is there a session with the portal and the name of the path? *)
Definition isISCSISessionActive (path : string) : M W bool :=
  match FindFromDevicePath path with
  | Ret [_; ip; port; iqn] =>
      '(out, err) ← run_command "iscsiadm" ["-m"; "session"];
      match err with
      | Some _ => mret false
      | None => mret (existsb (session_line (ip +:+ ":" +:+ port) iqn) (split_on "010" out))
      end
  | _ => mret false
  end.

(** What a path contributes; broken links to other devices may be skipped, and iSCSI paths
    without a session with them. *)
Definition collect_path (skipBroken : bool) (device : string) (diskByPaths : list string) (path : string) : M W (list string) :=
  r ← try (EvalSymlinks path);
  match r with
  | inl err =>
      if skipBroken && Contains (Error err) "lstat" && negb (Contains (Error err) (device +:+ ":"))
      then mret diskByPaths else fail err
  | inr target =>
      if decide (target ≠ device) then mret diskByPaths else
      if skipBroken && HasPrefix (Base path) "ip-" && Contains (Base path) "-iscsi-" then
        active ← isISCSISessionActive path;
        mret (if active : bool then diskByPaths ++ [path] else diskByPaths)
      else mret (diskByPaths ++ [path])
  end.

Definition skip_broken (config : option CSIConfig) : bool :=
  match config with Some c => match cfg_Bv c with Some bv => SkipBrokenSymLinks bv | None => false end | None => false end.

Definition diskByPathsForMountPoint (mountPoint : MountPoint) (config : option CSIConfig) : M W (list string) :=
  paths ← Walk_paths "/dev/disk/by-path/";
  diskByPaths ← foldM (collect_path (skip_broken config) (mp_Device mountPoint)) [] paths;
  if decide (diskByPaths = []) then fail (Errorf "disk by path link not found" []) else mret diskByPaths.

Definition NewFromMountPointPath (mountPath : string) : M W handler :=
  mountPoint ← getMountPointForPath mountPath;
  diskByPaths ← diskByPathsForMountPoint mountPoint None;
  lift (first_handler diskByPaths).

Definition GetDiskPathFromMountPath (mountPath : string) (config : option CSIConfig) : M W (list string) :=
  mountPoint ← getMountPointForPath mountPath;
  if HasPrefix (mp_Device mountPoint) "/dev/mapper" then mret [mp_Device mountPoint]
  else diskByPathsForMountPoint mountPoint config.

Definition GetDiskPathFromBindDeviceFilePath (mountPath : string) (config : option CSIConfig) : M W (list string) :=
  devices ← FindMount mountPath;
  match omap sanitized devices with
  | [deviceName] => diskByPathsForMountPoint {| mp_Path := mountPath; mp_Device := Join ["/dev"; deviceName] |} config
  | sanitizedDevices => fail (Errorf "did not find exactly a single block device on %s, found devices: %v" [mountPath; join " " sanitizedDevices])
  end.

(** ** iscsiadm *)

Definition getISCSIAdmPath (iscsiadmPath : string) : M W string :=
  if decide (iscsiadmPath = "") then exec_LookPath iscsiadmCommand else mret iscsiadmPath.

(** The handler of iSCSI with the path of iscsiadm; a nil disk is dereferenced for the
    arguments. *)
Definition iscsiadm (disk : option Disk) (iscsiadmPath : string) (parts : Disk → list string) (message : string) : M W handler :=
  sd ← lift (deref disk);
  report
    (path ← getISCSIAdmPath iscsiadmPath;
     _ ← exec_Output path (parts sd);
     mret (iSCSIMounter disk path))
    (λ err, fail (Errorf message [Error err])).

Definition node_args (sd : Disk) : list string := ["-T"; disk_IQN sd; "-p"; Target sd].

Definition AddToDB (h : handler) : M W handler :=
  match h with
  | iSCSIMounter disk adm => iscsiadm disk adm (λ sd, ["-m"; "node"; "-o"; "new"] ++ node_args sd) "iscsi: error adding node record to db: %v"
  | h => mret h
  end.
Definition SetAutomaticLogin (h : handler) : M W handler :=
  match h with
  | iSCSIMounter disk adm =>
      iscsiadm disk adm (λ sd, ["-m"; "node"; "-o"; "update"; "-T"; disk_IQN sd; "-n"; "node.startup"; "-v"; "automatic"])
        "iscsi: error configuring automatic node login: %v"
  | h => mret h
  end.
Definition Login (h : handler) : M W handler :=
  match h with
  | iSCSIMounter disk adm => iscsiadm disk adm (λ sd, ["-m"; "node"] ++ node_args sd ++ ["-l"]) "iscsi: error logging in target: %v"
  | h => mret h
  end.
Definition Logout (h : handler) : M W handler :=
  match h with
  | iSCSIMounter disk adm => iscsiadm disk adm (λ sd, ["-m"; "node"] ++ node_args sd ++ ["-u"]) "iscsi: error logging out target: %v"
  | h => mret h
  end.
Definition UpdateQueueDepth (h : handler) : M W handler :=
  match h with
  | iSCSIMounter disk adm =>
      iscsiadm disk adm (λ sd, ["-m"; "node"] ++ node_args sd ++ ["-o"; "update"; "-n"; "node.session.queue_depth"; "-v"; "128"])
        "iscsi: error updating queue depth in target: %v"
  | h => mret h
  end.
Definition RemoveFromDB (h : handler) : M W handler :=
  match h with
  | iSCSIMounter disk adm => iscsiadm disk adm (λ sd, ["-m"; "node"; "-o"; "delete"] ++ node_args sd) "iscsi: error removing target from database: %v"
  | h => mret h
  end.

Definition ISCSILogoutOnFailure (h : handler) : M W () :=
  match h with
  | iSCSIMounter _ _ =>
      h ← report (Logout h) (λ err, status Internal "%s" [Error err]);
      _ ← report (RemoveFromDB h) (λ err, status Internal "%s" [Error err]);
      mret ()
  | _ => mret ()
  end.

(** ** Waiting for devices *)

(** [context.WithTimeout]. *)
Definition WithTimeout (ctx : context) (timeout : Z) : context :=
  Some match ctx with Some timeLeft => (timeLeft `min` timeout)%Z | None => timeout end.

(** The first line that names a unit of the target.  The address and the name are part of a
    shell pattern and of a regular expression. *)
Fixpoint first_device_name (re : list piece) (lines : list string) : option string :=
  match lines with
  | [] => None
  | line :: rest =>
      match FindStringSubmatch re line with
      | Some (_ :: fileName :: _) => Some fileName
      | _ => first_device_name re rest
      end
  end.
Definition GetIscsiDevicePath (disk : option Disk) : M W string :=
  sd ← lift (deref disk);
  '(output, err) ← run_command "bash" ["-c"; "ls -f /dev/disk/by-path/" +:+ by_path_name sd +:+ "*"];
  match err with
  | Some err => command_failed "command failed: %v\ncommand: %s\nOutput: %s\n" err [LIST_PATHS_COMMAND; output]
  | None =>
      re ← lift (MustCompile ("(" +:+ by_path_name sd +:+ "\d+)"));
      match first_device_name re (split_on "010" output) with
      | Some fileName => mret (DISK_BY_PATH_FOLDER +:+ fileName)
      | None => fail (Errorf "cannot find device path" [])
      end
  end.

Definition WaitForDevicePathToExist (ctx : context) (h : handler) (disk : option Disk) : M W string :=
  match h with
  | iSCSIMounter _ _ =>
      PollImmediateUntil (WithTimeout ctx pathPollTimeout) pathPollInterval
        (r ← try (GetIscsiDevicePath disk);
         match r with
         | inl err => if Contains (Error err) NoSuchFile then mret None else fail err
         | inr devicePath => mret (Some devicePath)
         end)
  | _ => mret ""
  end.

Fixpoint waitForPathToExist (path : string) (maxRetries : nat) : M W bool :=
  match maxRetries with
  | 0 => mret false
  | S n =>
      r ← try (os_Stat path);
      match r with
      | inr _ => mret true
      | inl err => if os_IsNotExist err then waitForPathToExist path n else mret false
      end
  end.
Definition WaitForPathToExist (h : handler) (path : string) (maxRetries : nat) : M W bool :=
  match h with pvMounter => waitForPathToExist path maxRetries | _ => mret true end.

Definition ReadLink (symbolicLink : string) : M W string :=
  files ← filepath_Glob symbolicLink;
  match files with
  | [] => fail (Errorf "%s" ["The linked path for symbolic link " +:+ symbolicLink +:+ " is not found"])
  | file :: _ => os_Readlink file
  end.
Definition GetMultipathFriendlyName (consistentDevicePath : string) : M W string :=
  friendlyName ← report (ReadLink consistentDevicePath) (λ _, fail (Errorf "failed to get friendly name for volume" []));
  if HasPrefix friendlyName "/dev/mapper/" then mret friendlyName else fail (Errorf "failed to get multipath device path" []).

Definition GetMultipathIscsiDevicePath (ctx : context) (h : handler) (consistentDevicePath : string) : M W string :=
  match h with
  | iSCSIUHPMounter =>
      PollImmediateUntil (WithTimeout ctx pathPollTimeout) pathPollIntervalUHP
        (r ← try (GetMultipathFriendlyName consistentDevicePath);
         match r with inl _ => mret None | inr multiDevicePath => mret (Some multiDevicePath) end)
  | _ => mret ""
  end.

(** Every device of the volume has a path with its address, port and name. *)
Fixpoint devices_listed (output : string) (multipathDevices : list MultipathDevice) : outcome bool :=
  match multipathDevices with
  | [] => mret true
  | dev :: rest =>
      ip ← deref (mpd_Ipv4 dev); port ← deref (mpd_Port dev); iqn ← deref (mpd_Iqn dev);
      if Contains output ("ip-" +:+ ip +:+ ":" +:+ Itoa port +:+ "-iscsi-" +:+ iqn) then devices_listed output rest else mret false
  end.
Definition GetISCSILoginState (multipathDevices : list MultipathDevice) : M W bool :=
  '(output, err) ← run_command "ls" ["-f"; DISK_BY_PATH_FOLDER];
  match err with
  | Some err => command_failed "command failed: %v\ncommand: %s\nOutput: %v\n" err [LIST_PATHS_COMMAND; output]
  | None => lift (devices_listed output multipathDevices)
  end.
Definition WaitForVolumeLoginOrTimeout (ctx : context) (h : handler) (multipathDevices : list MultipathDevice) : M W () :=
  match h with
  | iSCSIUHPMounter =>
      PollImmediateUntil (WithTimeout ctx volumeLoginTimeout) loginPollInterval
        (loggedIn ← GetISCSILoginState multipathDevices; mret (if loggedIn : bool then Some () else None))
  | _ => mret ()
  end.

(** ** Mounting *)

Definition FormatAndMount (h : handler) (source target fstype : string) (options : list string) : M W () :=
  SafeFormatAndMount mountCommand source target fstype options.
Definition handler_Mount (h : handler) (source target fstype : string) (options : list string) : M W () :=
  mounter_Mount mountCommand source target fstype options.
Definition handler_UnmountPath (h : handler) (path : string) : M W () := UnmountPath path.
Definition GetDiskFormat (h : handler) (disk : string) : M W string := getDiskFormat disk.
Definition Resize (h : handler) (devicePath volumePath : string) : M W bool := ResizeFs_Resize devicePath volumePath.

(** The handler of iSCSI looks for the path of its own disk. *)
Definition iSCSI_DeviceOpened (disk : option Disk) : M W bool :=
  r ← try (GetIscsiDevicePath disk);
  match r with
  | inl err => if Contains (Error err) NoSuchFile then mret false else fail err
  | inr pathname => deviceOpened pathname
  end.
Definition DeviceOpened (h : handler) (pathname : string) : M W bool :=
  match h with iSCSIMounter disk _ => iSCSI_DeviceOpened disk | _ => deviceOpened pathname end.

(** Is the target a mount point, and of the device that is expected?  The device is looked
    up only if it is. *)
Fixpoint mounted_device (devicePath targetPath : string) (mounts : list MountPoint) : outcome bool :=
  match mounts with
  | [] => mret false
  | m :: rest =>
      if decide (mp_Path m = targetPath) then
        if decide (mp_Device m = devicePath) then mret true
        else Err (Errorf "expected device %s but found %s mounted at %s" [devicePath; mp_Device m; targetPath])
      else mounted_device devicePath targetPath rest
  end.
Definition is_mounted (targetPath : string) (resolve : M W string) : M W bool :=
  r ← try (IsLikelyNotMountPoint targetPath);
  match r with
  | inl err => if os_IsNotExist err then mret false else fail (Errorf "failed to check if %s is a mount point: %v" [targetPath; Error err])
  | inr true => mret false
  | inr false =>
      devicePath ← resolve;
      mounts ← report mounter_List (λ err, fail (Errorf "could not list mount points: %v" [Error err]));
      lift (mounted_device devicePath targetPath mounts)
  end.
Definition iSCSI_resolve (disk : option Disk) : M W string :=
  diskByPath ← report (GetIscsiDevicePath disk) (λ err,
    if Contains (Error err) NoSuchFile
    then fail (Errorf "ISCSI login not complete for volume but staging path is a mount point, mapped to wrong device" [])
    else fail (Errorf "failed to find /dev/disk/by-path path for volume: %v" [match disk with Some sd => Disk_String sd | None => "<nil>" end]));
  report (EvalSymlinks diskByPath) (λ err, fail (Errorf "failed to resolve symlink for /dev/disk/by-path path %s: %v" [diskByPath; Error err])).
Definition pv_resolve (devicePath : string) : M W string :=
  report (EvalSymlinks devicePath) (λ err, fail (Errorf "failed to resolve symlink for consistent device path %s: %v" [devicePath; Error err])).
Definition IsMounted (h : handler) (devicePath targetPath : string) : M W bool :=
  is_mounted targetPath
    match h with
    | iSCSIMounter disk _ => iSCSI_resolve disk
    | iSCSIUHPMounter => mret devicePath
    | pvMounter => pv_resolve devicePath
    end.

(** ** Rescanning *)

Definition run_or_fail (name : string) (args : list string) (shown : string) : M W string :=
  '(output, err) ← run_command name args;
  match err with
  | Some err => command_failed "command failed: %v\narguments: %s\nOutput: %v\n" err [shown; output]
  | None => mret output
  end.

Definition Rescan (devicePath : string) : M W () :=
  '(output, err) ← run_command "lsblk" ["-n"; "-o"; "NAME"; devicePath];
  match err with
  | Some _ => fail (Errorf "Failed to find device name associated with devicePath %s" [devicePath])
  | None =>
      let deviceName := TrimPrefix (TrimSpace output) "/dev/" in
      _ ← run_or_fail "dd" ["iflag=direct"; "if=" +:+ devicePath; "of=/dev/null"; "count=1"] "dd";
      let cmdStr := "echo 1 | tee /sys/class/block/" +:+ deviceName +:+ "/device/rescan" in
      _ ← run_or_fail "bash" ["-c"; cmdStr] cmdStr;
      mret ()
  end.

Definition UHP_Rescan (devicePath : string) : M W () :=
  deviceMapperPath ← report (ReadLink devicePath)
    (λ err, fail (Errorf "failed to obtain device mapper path from multipath device path %v: %v" [devicePath; Error err]));
  let deviceMapperPathBase := Base deviceMapperPath in
  let devicePathsFolder := "/sys/block/" +:+ deviceMapperPathBase +:+ "/slaves" in
  fileNames ← report (os_ReadDir devicePathsFolder)
    (λ err, fail (Errorf "failed to obtain device paths from device paths folder %v: %v" [devicePathsFolder; Error err]));
  _ ← forM (filter (λ name, HasPrefix name "sd" = true) fileNames) (λ name,
        let cmdStr := "echo 1 | tee /sys/block/" +:+ name +:+ "/device/rescan" in
        _ ← run_or_fail "bash" ["-c"; cmdStr] cmdStr; mret ());
  _ ← run_or_fail CHROOT_BASH_COMMAND ["multipathd resize map"; deviceMapperPathBase] CHROOT_BASH_COMMAND;
  mret ().

Definition handler_Rescan (h : handler) (devicePath : string) : M W () :=
  match h with iSCSIUHPMounter => UHP_Rescan devicePath | _ => Rescan devicePath end.
End disk.
