(* ===== verification/BlockNode.v ===== *)
(** * The node service of block volumes (src/pkg/csi/driver/bv_node.go)

    Staging, publication, their reverses, expansion and statistics of block volumes, with the
    block device handlers, on the host of the node. *)
From stdpp Require Import base tactics list gmap sets strings.
From S2P Require Import Prelude GoStrings GoRegexp GoNet Types ClientErrors ClientCalls CsiUtil BlockVolume Host NodeServices Disk.

(** [Capacity], [Available] and the other quantities of the metrics, as the numbers that
    are read of them; and [json.Unmarshal] of multipath devices. *)
Record Metrics := {
  m_Capacity : Z; m_Available : Z; m_Used : Z;
  m_Inodes : Z; m_InodesFree : Z; m_InodesUsed : Z;
}.
Class VolumeMetrics (W : Type) := {
  MetricsBlock : string → M W Z;
  MetricsStatFS : string → M W Metrics;
}.
Class MultipathJson := { json_MultipathDevices : string → error + list MultipathDevice }.

Inductive VolumeUsage :=
| BytesTotal (total : Z)
| Bytes (available total used : Z)
| Inodes (available total used : Z).

Definition maxVolumesPerNode : Z := 32.
Definition FSTypeXfs : string := "xfs".
Definition RawBlockStagingFile : string := "mountfile".
Definition HigherPerformanceOption : Z := 20.
Definition DiskByPathPatternPV : string := "/dev/disk/by-path/pci-\w{4}:\w{2}:\w{2}\.\d+-scsi-\d+:\d+:\d+:\d+$".
Definition DiskByPathPatternISCSI : string := "/dev/disk/by-path/ip-[[?\w\.\:]+]?:\d+-iscsi-[\w\.\-:]+-lun-\d+$".

(** [csi.VolumeCapability]; the mount of a capability with that access type may be nil. *)
Inductive NodeCapability :=
| AccessBlock
| AccessMount (mnt : option MountVolume)
| AccessNone.
Definition GetMount (capability : NodeCapability) : option MountVolume :=
  match capability with AccessMount mnt => mnt | _ => None end.
Definition is_raw_block (capability : NodeCapability) : bool :=
  match capability with AccessBlock => true | _ => false end.

Record BlockStageRequest := {
  bsr_VolumeId : string;
  bsr_PublishContext : gmap string string;
  bsr_StagingTargetPath : string;
  bsr_VolumeCapability : option NodeCapability;
}.
Record BlockPublishRequest := {
  bpr_VolumeId : string;
  bpr_PublishContext : gmap string string;
  bpr_StagingTargetPath : string;
  bpr_TargetPath : string;
  bpr_VolumeCapability : option NodeCapability;
  bpr_Readonly : bool;
}.

(** ** Helpers *)

Definition GetPathForBlock (volumePath : string) : string := Join [volumePath; RawBlockStagingFile].

Definition pattern_matches (pattern s : string) : bool := bool_decide (is_Some (submatch pattern s)).

(** The first path of a paravirtualized device, otherwise the first one of iSCSI. *)
Definition getDevicePathAndAttachmentType (path : list string) : outcome (string * string) :=
  match List.find (pattern_matches DiskByPathPatternPV) path with
  | Some diskByPath => Ret (attachmentTypeParavirtualized, diskByPath)
  | None =>
      match List.find (λ p, pattern_matches DiskByPathPatternISCSI p || HasPrefix p "/dev/mapper") path with
      | Some diskByPath => Ret (attachmentTypeISCSI, diskByPath)
      | None => Err (Errorf "unable to determine the attachment type" [])
      end
  end.

Fixpoint hasMountOption (options : list string) (opt : string) : bool :=
  match options with
  | [] => false
  | o :: options => if decide (o = opt) then true else hasMountOption options opt
  end.

(** XFS does not mount two volumes with the same UUID unless it is told to. *)
Definition xfs_options (fsType : string) (options : list string) : list string :=
  if decide (fsType = FSTypeXfs) then if hasMountOption options "nouuid" then options else options ++ ["nouuid"] else options.

Definition multipath_enabled (publishContext : gmap string string) : option bool :=
  let v := default "" (publishContext !! multipathEnabled) in
  if decide (v = "") then Some false else ParseBool v.

Section block_node.
Context {W : Type} `{!Host W, !DiskHost W, !Limits W, !KubeNodes W, !KubeConfigMaps W, !VolumeMetrics W, !ErrorText, !MultipathJson}.
Context (nodeID : string) (ctx : context).

Abbreviation D := (NodeDriver W).

Definition alreadyDeletedPathCheck (err : error) : bool := Contains (Error err) "does not exist".

(** [logger.Fatal] ends the process, before the error is returned; so it does when the
    file exists and the nil file is closed. *)
Definition CreateFilePath (path : string) : M W () :=
  _ ← report (os_MkdirAll (Dir path)) (λ _, lift Panic);
  _ ← report (os_OpenFile path) (λ _, lift Panic);
  report (File_Close path) (λ _, lift Panic).

(** The devices of the context, and the one of the attachment itself. *)
Definition getMultipathDevicesFromReq (publishContext : gmap string string) : outcome (list MultipathDevice) :=
  match json_MultipathDevices (default "" (publishContext !! multipathDevices)) with
  | inl _ => Err (StatusError Internal "Failed to get multipath devices from publish context." [])
  | inr multipathDevicesList =>
      match Atoi (default "" (publishContext !! ISCSIPORT)) with
      | None => Err (StatusError Internal "Invalid port number received for iscsi session" [])
      | Some port =>
          Ret (multipathDevicesList ++
                 [{| mpd_Ipv4 := Some (default "" (publishContext !! ISCSIIP)); mpd_Port := Some port;
                     mpd_Iqn := Some (default "" (publishContext !! ISCSIIQN)) |}])
      end
  end.

(** ** Staging *)

(** What the publish context says of the device. *)
Record staging := {
  st_handler : handler;
  st_devicePath : string;
  st_scsiInfo : option Disk;
  st_multipathDevices : list MultipathDevice;
}.
Definition new_handler (attachment : string) (scsiInfo : option Disk) (multipath : bool) : M W handler :=
  report (lift (DefaultMounterFactory attachment scsiInfo multipath))
    (λ err, status InvalidArgument "Failed to create mountHandler: %v" [Error err]).

Definition multipath_staging (publishContext : gmap string string) : M W staging :=
  h ← new_handler attachmentTypeISCSI None true;
  devices ← report (lift (getMultipathDevicesFromReq publishContext))
    (λ err, status Internal "Failed to get multipath device list for multipath enabled volume: %v" [Error err]);
  devicePath ← report (GetMultipathIscsiDevicePath ctx h (default "" (publishContext !! device)))
    (λ err, status Internal "Failed to get device path for multipath enabled volume: %v" [Error err]);
  mret {| st_handler := h; st_devicePath := devicePath; st_scsiInfo := None; st_multipathDevices := devices |}.

(** A node that prefers IPv6 reaches the target at the IPv6 address. *)
Definition iscsi_staging (m : NodeMetadata) (publishContext : gmap string string) : M W staging :=
  scsiInfo ← report (lift (ExtractISCSIInformation publishContext))
    (λ err, status InvalidArgument "PublishContext is invalid: %v" [Error err]);
  scsiInfo ←
    (if EqualFold (PreferredNodeIpFamily m) Ipv6Stack then
       ip ← report (lift (ConvertIscsiIpFromIpv4ToIpv6 (disk_IscsiIp scsiInfo)))
         (λ err, status Internal "Failed get ipv6 address for Iscsi Target: %v" [Error err]);
       mret {| disk_IQN := disk_IQN scsiInfo; disk_IscsiIp := ip; disk_Port := disk_Port scsiInfo |}
     else mret scsiInfo);
  h ← new_handler attachmentTypeISCSI (Some scsiInfo) false;
  mret {| st_handler := h; st_devicePath := ""; st_scsiInfo := Some scsiInfo; st_multipathDevices := [] |}.

Definition paravirtualized_staging (multipath : bool) (publishContext : gmap string string) : M W staging :=
  match publishContext !! device with
  | None => status InvalidArgument "Unable to get the device from the attribute list" []
  | Some devicePath =>
      h ← new_handler attachmentTypeParavirtualized None multipath;
      mret {| st_handler := h; st_devicePath := devicePath; st_scsiInfo := None; st_multipathDevices := [] |}
  end.

Definition unknown_attachment {A} : M W A :=
  status InvalidArgument "unknown attachment type. supported attachment types are iscsi and paravirtualized" [].

Definition get_staging (m : NodeMetadata) (attachment : string) (multipath : bool) (publishContext : gmap string string) : M W staging :=
  if decide (attachment = attachmentTypeISCSI) then
    if multipath then multipath_staging publishContext else iscsi_staging m publishContext
  else if decide (attachment = attachmentTypeParavirtualized) then paravirtualized_staging multipath publishContext
  else unknown_attachment.

(** A failure after the login: the target is logged out first. *)
Definition after_logout {A} (h : handler) (message : string) (failure : M W A) : M W A :=
  _ ← report (ISCSILogoutOnFailure h) (λ err, status Internal message [Error err]); failure.

Definition internal {A} (c : M W A) : M W A := report c (λ err, status Internal "%s" [Error err]).

(** The node record, the queue depth and the login; the handler with what it has cached. *)
Definition login (h : handler) (publishContext : gmap string string) : M W handler :=
  h ← internal (AddToDB h);
  vpusPerGB ← report (lift (ExtractBlockVolumePerformanceLevel (default "10" (publishContext !! VpusPerGB))))
    (λ err, status InvalidArgument "%s" [Error err]);
  h ← (if decide (vpusPerGB = HigherPerformanceOption) then internal (UpdateQueueDepth h) else mret h);
  h ← internal (SetAutomaticLogin h);
  internal (Login h).

(** The path of the device, when it is there. *)
Definition wait_for_device (attachment : string) (multipath : bool) (st : staging) (h : handler) : M W string :=
  devicePath ←
    (if bool_decide (attachment = attachmentTypeISCSI) && negb multipath then
       report (WaitForDevicePathToExist ctx h (st_scsiInfo st)) (λ _,
         after_logout h "Failed to iscsi logout after timeout on waiting for device path to exist: %v"
           (status InvalidArgument "Failed to get device path for iscsi volume" []))
     else mret (st_devicePath st));
  _ ← internal (WaitForVolumeLoginOrTimeout ctx h (st_multipathDevices st));
  exists_ ← WaitForPathToExist h devicePath 20;
  if exists_ : bool then mret devicePath else status CodeDeadlineExceeded "Failed to wait for device to exist." [].

(** A raw block volume is bound to a file in the staging directory. *)
Definition stage_raw_block (h : handler) (devicePath stagingTargetFilePath : string) : M W () :=
  _ ← report (CreateFilePath stagingTargetFilePath) (λ err,
        after_logout h "Failed to iscsi logout after mount failure: %v" (status Internal "%s" [Error err]));
  report (handler_Mount h devicePath stagingTargetFilePath "" ["bind"]) (λ err,
    after_logout h "Failed to iscsi logout after mount failure: %v" (status Internal "%s" [Error err])).

Definition staging_directory (h : handler) (path : string) : M W () :=
  r ← try (os_Stat path);
  match r with
  | inr _ => mret ()
  | inl err =>
      if os_IsNotExist err then
        report (os_MkdirAll path) (λ _,
          after_logout h "Failed to iscsi logout after failure to create StagingTargetPath directory: %v"
            (status Internal "Failed to create StagingTargetPath directory" []))
      else after_logout h "Failed to iscsi logout after failure to check if staging path exists: %v"
             (status Internal "%s" ["failed to check if stagingTargetPath " +:+ path +:+ " exists"])
  end.

(** A volume with another file system than the one that is asked for is not mounted. *)
Definition stage_filesystem (h : handler) (devicePath stagingTargetPath : string) (mnt : MountVolume) : M W () :=
  let fsType := ValidateFsType (mv_FsType mnt) in
  _ ← staging_directory h stagingTargetPath;
  let options := xfs_options fsType (mv_MountFlags mnt) in
  r ← try (GetDiskFormat h devicePath);
  let existingFs := match r with inl _ => "" | inr format => format end in
  if decide (existingFs ≠ "" ∧ existingFs ≠ fsType) then
    after_logout h "Failed to iscsi logout after failure due to FS Type mismatch: %v"
      (status Internal "FS Type mismatch detected. The existing fs type on the volume: %q doesn't match the requested fs type: %q. Please change fs type in PV to match the existing fs type." [existingFs; fsType])
  else
    report (FormatAndMount h devicePath stagingTargetPath fsType options) (λ err,
      after_logout h "Failed to iscsi logout after mount failure: %v" (status Internal "%s" [Error err])).

(** What is done with the lock on the volume. *)
Definition block_stage (req : BlockStageRequest) (capability : NodeCapability) (attachment : string) (multipath : bool) (st : staging) : M W () :=
  isMounted ← (if is_raw_block capability then mret false
               else internal (IsMounted (st_handler st) (st_devicePath st) (bsr_StagingTargetPath req)));
  if isMounted : bool then mret () else
  h ← login (st_handler st) (bsr_PublishContext req);
  devicePath ← wait_for_device attachment multipath st h;
  if is_raw_block capability then stage_raw_block h devicePath (GetPathForBlock (bsr_StagingTargetPath req)) else
  mnt ← lift (deref (GetMount capability));
  stage_filesystem h devicePath (bsr_StagingTargetPath req) mnt.

Definition Block_NodeStageVolume (req : BlockStageRequest) : M D () :=
  if decide (bsr_VolumeId req = "") then status InvalidArgument "Volume ID must be provided" [] else
  if decide (bsr_PublishContext req = ∅) then status InvalidArgument "PublishContext must be provided" [] else
  if decide (bsr_StagingTargetPath req = "") then status InvalidArgument "Staging Target Path must be provided" [] else
  match bsr_VolumeCapability req with
  | None => status InvalidArgument "Volume Capability must be provided" []
  | Some capability =>
      let attachment := default attachmentTypeISCSI (bsr_PublishContext req !! attachmentType) in
      match multipath_enabled (bsr_PublishContext req) with
      | None => status Internal "failed to determine if volume is multipath enabled: %v" [default "" (bsr_PublishContext req !! multipathEnabled)]
      | Some multipath =>
          m ← get nd_nodeMetadata;
          st ← host (get_staging m attachment multipath (bsr_PublishContext req));
          with_volume_lock (bsr_VolumeId req) (host (block_stage req capability attachment multipath st))
      end
  end.

(** ** The device of a mount point *)

(** The paths of the device, of a raw block volume or of a file system; [None] if nothing is
    mounted at the path of a file system. *)
Definition disk_paths (cfg : CSIConfig) (isRawBlockVolume : bool) (path : string) : M W (option (list string)) :=
  if isRawBlockVolume then
    diskPath ← internal (GetDiskPathFromBindDeviceFilePath path (Some cfg)); mret (Some diskPath)
  else
    r ← try (GetDiskPathFromMountPath path (Some cfg));
    match r with
    | inr diskPath => mret (Some diskPath)
    | inl err => if decide (err = ErrMountPointNotFound) then mret None else status Internal "%s" [Error err]
    end.

(** A handler by the kind of the device, without the disk of iSCSI. *)
Definition plain_handler (attachment : string) (multipath : bool) : M W handler :=
  if decide (attachment = attachmentTypeISCSI) then mret (if multipath then NewISCSIUHPMounter else NewFromISCSIDisk None)
  else if decide (attachment = attachmentTypeParavirtualized) then mret NewFromPVDisk
  else unknown_attachment.

(** ** Unstaging *)

Definition unstage_handler (attachment devicePath : string) (diskPath : list string) : M W handler :=
  if decide (attachment = attachmentTypeISCSI) then
    if HasPrefix devicePath "/dev/mapper" then mret NewISCSIUHPMounter else
    scsiInfo ← internal (lift (ExtractISCSIInformationFromMountPath diskPath));
    mret (NewFromISCSIDisk (Some scsiInfo))
  else if decide (attachment = attachmentTypeParavirtualized) then mret NewFromPVDisk
  else unknown_attachment.

Definition unmount_and_logout (h : handler) (path : string) : M W () :=
  _ ← internal (handler_UnmountPath h path);
  h ← internal (Logout h);
  _ ← internal (RemoveFromDB h);
  mret ().

Definition block_unstage (cfg : CSIConfig) (stagingTargetPath : string) : M W () :=
  let stagingTargetFilePath := GetPathForBlock stagingTargetPath in
  r ← try (hostutil_PathIsDevice stagingTargetFilePath);
  let isRawBlockVolume := match r with inl _ => false | inr b => b end in
  let path := if isRawBlockVolume then stagingTargetFilePath else stagingTargetPath in
  found ← disk_paths cfg isRawBlockVolume path;
  match found with
  | None => mret ()
  | Some diskPath =>
      '(attachment, devicePath) ← internal (lift (getDevicePathAndAttachmentType diskPath));
      h ← unstage_handler attachment devicePath diskPath;
      opened ← (if isRawBlockVolume then mret true else internal (DeviceOpened h devicePath));
      if opened : bool then unmount_and_logout h path else mret ()
  end.

Definition Block_NodeUnstageVolume (volumeId stagingTargetPath : string) : M D () :=
  if decide (volumeId = "") then status InvalidArgument "Volume ID must be provided" [] else
  if decide (stagingTargetPath = "") then status InvalidArgument "Staging target path must be provided" [] else
  _ ← loadCSIConfig;
  with_volume_lock volumeId (cfg ← get nd_csiConfig; host (block_unstage cfg stagingTargetPath)).

(** ** Publication *)

(** A device is rescanned, its file system resized, and its size compared with what was
    asked for. *)
Definition expand_device (h : handler) (volumeID devicePath volumePath : string) (isRawBlockVolume : bool)
    (requestedSizeGB : Z) (message : string) : M W Z :=
  _ ← report (handler_Rescan h devicePath) (λ err, status Internal "Failed to rescan volume %q (%q):  %v" [volumeID; devicePath; Error err]);
  _ ← (if isRawBlockVolume then mret true
       else report (Resize h devicePath volumePath)
              (λ err, status Internal "Failed to resize volume %q (%q):  %v" [volumeID; devicePath; Error err]));
  allocatedSizeBytes ← report (GetBlockSizeBytes devicePath)
    (λ err, status Internal "Failed to get size of block volume at path %s: %v" [devicePath; Error err]);
  let allocatedSizeGB := RoundUpSize allocatedSizeBytes (1 * GiB) in
  if decide (allocatedSizeGB < requestedSizeGB)%Z then status Internal message [Itoa requestedSizeGB; Itoa allocatedSizeGB]
  else mret allocatedSizeBytes.

(** A volume that was restored from a smaller source is expanded after it was mounted.  An
    error of a mount point that is not there is returned as it is. *)
Definition resize_published (cfg : CSIConfig) (req : BlockPublishRequest) (isRawBlockVolume multipath : bool) : M W () :=
  let needs := default "" (bpr_PublishContext req !! needResize) in
  if decide (needs = "") then mret () else
  match ParseBool needs with
  | None => status Internal "strconv.ParseBool: parsing %q" [needs]
  | Some false => mret ()
  | Some true =>
      match Atoi (default "" (bpr_PublishContext req !! newSize)) with
      | None => status OutOfRange "failed to get new requested size of volume: %v" [default "" (bpr_PublishContext req !! newSize)]
      | Some requestedSize =>
          found ← disk_paths cfg isRawBlockVolume (if isRawBlockVolume then bpr_TargetPath req else bpr_StagingTargetPath req);
          match found with
          | None => fail ErrMountPointNotFound
          | Some diskPath =>
              '(attachment, devicePath) ← internal (lift (getDevicePathAndAttachmentType diskPath));
              h ← plain_handler attachment multipath;
              _ ← expand_device h (bpr_VolumeId req) devicePath (bpr_TargetPath req) isRawBlockVolume (RoundUpSize requestedSize (1 * GiB))
                    "Expand volume after restore from snapshot failed, requested size in GB %d but resize allocated only %d";
              mret ()
          end
      end
  end.

Definition readonly_option (readonly : bool) : list string := if readonly then ["ro"] else [].

Definition publish_handler (attachment : string) (multipath : bool) (publishContext : gmap string string) : M W handler :=
  if decide (attachment = attachmentTypeISCSI) then
    if multipath then mret NewISCSIUHPMounter else
    scsiInfo ← report (lift (ExtractISCSIInformation publishContext)) (λ _, status InvalidArgument "PublishContext is invalid" []);
    mret (NewFromISCSIDisk (Some scsiInfo))
  else if decide (attachment = attachmentTypeParavirtualized) then mret NewFromPVDisk
  else unknown_attachment.

Definition publish_raw_block (h : handler) (req : BlockPublishRequest) : M W () :=
  _ ← internal (CreateFilePath (bpr_TargetPath req));
  internal (handler_Mount h (GetPathForBlock (bpr_StagingTargetPath req)) (bpr_TargetPath req) "" ("bind" :: readonly_option (bpr_Readonly req))).

Definition publish_filesystem (h : handler) (req : BlockPublishRequest) (mnt : MountVolume) : M W () :=
  let fsType := ValidateFsType (mv_FsType mnt) in
  internal (handler_Mount h (bpr_StagingTargetPath req) (bpr_TargetPath req) fsType
              (xfs_options fsType (mv_MountFlags mnt ++ ["bind"] ++ readonly_option (bpr_Readonly req)))).

Definition block_publish (cfg : CSIConfig) (req : BlockPublishRequest) (capability : NodeCapability) : M W () :=
  let isRawBlockVolume := is_raw_block capability in
  _ ← (if isRawBlockVolume then mret ()
       else report (os_MkdirAll (bpr_TargetPath req)) (λ _, status Internal "Failed to create TargetPath directory" []));
  match multipath_enabled (bpr_PublishContext req) with
  | None => status Internal "strconv.ParseBool: parsing %q" [default "" (bpr_PublishContext req !! multipathEnabled)]
  | Some multipath =>
      h ← publish_handler (default attachmentTypeISCSI (bpr_PublishContext req !! attachmentType)) multipath (bpr_PublishContext req);
      _ ← (if isRawBlockVolume then publish_raw_block h req
           else mnt ← lift (deref (GetMount capability)); publish_filesystem h req mnt);
      resize_published cfg req isRawBlockVolume multipath
  end.

Definition Block_NodePublishVolume (req : BlockPublishRequest) : M D () :=
  if decide (bpr_VolumeId req = "") then status InvalidArgument "Volume ID must be provided" [] else
  if decide (bpr_PublishContext req = ∅) then status InvalidArgument "PublishContext must be provided" [] else
  if decide (bpr_StagingTargetPath req = "") then status InvalidArgument "Staging path must be provided" [] else
  if decide (bpr_TargetPath req = "") then status InvalidArgument "Target Path must be provided" [] else
  match bpr_VolumeCapability req with
  | None => status InvalidArgument "Volume Capability must be provided" []
  | Some capability =>
      _ ← loadCSIConfig;
      with_volume_lock (bpr_VolumeId req) (cfg ← get nd_csiConfig; host (block_publish cfg req capability))
  end.

Definition block_unpublish (cfg : CSIConfig) (targetPath : string) (isRawBlockVolume : bool) : M W () :=
  found ← disk_paths cfg isRawBlockVolume targetPath;
  match found with
  | None => mret ()
  | Some diskPath =>
      '(attachment, devicePath) ← internal (lift (getDevicePathAndAttachmentType diskPath));
      h ← plain_handler attachment (HasPrefix devicePath "/dev/mapper");
      internal (handler_UnmountPath h targetPath)
  end.

(** Without the lock: is the target a device? *)
Definition Block_NodeUnpublishVolume (volumeId targetPath : string) : M D () :=
  if decide (volumeId = "") then status InvalidArgument "NodeUnpublishVolume: Volume ID must be provided" [] else
  if decide (targetPath = "") then status InvalidArgument "NodeUnpublishVolume: Target Path must be provided" [] else
  _ ← loadCSIConfig;
  r ← try (host (hostutil_PathIsDevice targetPath));
  match r with
  | inl err => if alreadyDeletedPathCheck err then mret () else status Internal "%s" [Error err]
  | inr isRawBlockVolume =>
      with_volume_lock volumeId (cfg ← get nd_csiConfig; host (block_unpublish cfg targetPath isRawBlockVolume))
  end.

(** ** The node and its volumes *)

Definition Block_NodeGetCapabilities : list string := ["STAGE_UNSTAGE_VOLUME"; "GET_VOLUME_STATS"; "EXPAND_VOLUME"].

(** On a node with IPv6 only, the full name of the availability domain as well. *)
Definition Block_NodeGetInfo : M D (string * Z * gmap string string) :=
  '(id, segments) ← NodeGetInfo nodeID;
  m ← get nd_nodeMetadata;
  if IsIpv6SingleStackNode (Some m) then
    if decide (FullAvailabilityDomain m = "")
    then status Internal "Failed to get full availability domain name of IPv6 single stack node from node labels." []
    else mret (id, maxVolumesPerNode, <[AvailabilityDomainLabel := FullAvailabilityDomain m]> segments)
  else mret (id, maxVolumesPerNode, segments).

Definition Block_NodeGetVolumeStats (volumeID volumePath : string) : M W (list VolumeUsage) :=
  if decide (volumeID = "") then status InvalidArgument "Volume ID not provided" [] else
  if decide (volumePath = "") then status InvalidArgument "volume path must be provided" [] else
  isRawBlockVolume ← internal (hostutil_PathIsDevice volumePath);
  if isRawBlockVolume : bool then
    capacity ← internal (MetricsBlock volumePath); mret [BytesTotal capacity]
  else
    exists_ ← internal (hostutil_PathExists volumePath);
    if negb exists_ then status NotFound "path %s does not exist" [volumePath] else
    metrics ← internal (MetricsStatFS volumePath);
    mret [Bytes (m_Available metrics) (m_Capacity metrics) (m_Used metrics);
          Inodes (m_InodesFree metrics) (m_Inodes metrics) (m_InodesUsed metrics)].

(** [None]: nothing is mounted at the path. *)
Definition block_expand (cfg : CSIConfig) (volumeID volumePath : string) (capacity : option CapacityRange) : M W (option Z) :=
  requestedSize ← report (lift (ExtractStorage capacity)) (λ err, status OutOfRange "invalid capacity range: %v" [Error err]);
  isRawBlockVolume ← internal (hostutil_PathIsDevice volumePath);
  found ← disk_paths cfg isRawBlockVolume volumePath;
  match found with
  | None => mret None
  | Some diskPath =>
      '(attachment, devicePath) ← internal (lift (getDevicePathAndAttachmentType diskPath));
      h ← plain_handler attachment (HasPrefix devicePath "/dev/mapper");
      size ← expand_device h volumeID devicePath volumePath isRawBlockVolume (RoundUpSize requestedSize (1 * GiB))
               "Expand Volume Failed, requested size in GB %d but resize allocated only %d";
      mret (Some size)
  end.

Definition Block_NodeExpandVolume (volumeID volumePath : string) (capacity : option CapacityRange) : M D (option Z) :=
  if decide (volumeID = "") then status InvalidArgument "Volume ID not provided" [] else
  if decide (volumePath = "") then status InvalidArgument "volume path must be provided" [] else
  _ ← loadCSIConfig;
  with_volume_lock volumeID (cfg ← get nd_csiConfig; host (block_expand cfg volumeID volumePath capacity)).
End block_node.
