(* ===== verification/DiskFacts.v ===== *)
(** * Device paths of iSCSI

    The name that a target has under /dev/disk/by-path determines the target: what staging
    looks for is what unstaging reads, whatever bytes the address and the name have. *)
From stdpp Require Import base tactics list gmap strings.
From Stdlib Require Import Ascii.
From S2P Require Import Prelude GoStrings GoRegexp GoNet CsiUtil BlockVolume Host Disk BlockNode.

(** ** Matching *)

Fixpoint all_in (p : ascii → bool) (s : string) : bool :=
  match s with EmptyString => true | String c s => p c && all_in p s end.

Lemma all_in_app p a b : all_in p (a +:+ b) = all_in p a && all_in p b.
Proof. induction a as [|c a IH]; simpl; [done|]. by rewrite IH, andb_assoc. Qed.

Lemma all_in_impl (p q : ascii → bool) s : (∀ c, p c = true → q c = true) → all_in p s = true → all_in q s = true.
Proof. intros Hpq. induction s as [|c s IH]; simpl; [done|]. rewrite !andb_true_iff. naive_solver. Qed.

(** Nothing that starts with some members of the class goes on to match. *)
Definition no_later {R} (p : ascii → bool) (k : string → option R) (s : string) : Prop :=
  ∀ a b, s = a +:+ b → a ≠ "" → all_in p a = true → k b = None.

Lemma no_later_cons {R} p (k : string → option R) c s :
  (p c = true → k s = None ∧ no_later p k s) → no_later p k (String c s).
Proof.
  intros Hs [|c' a] b Hab Ha Hp; [done|]. simpl in Hab, Hp. injection Hab as <- ->. apply andb_true_iff in Hp as [Hc Hp].
  destruct (Hs Hc) as [Hb Hl]. destruct a as [|c' a]; [done|]. by apply (Hl (String c' a) b).
Qed.
Lemma no_later_nil {R} p (k : string → option R) : no_later p k "".
Proof. intros [|c a] b; done. Qed.

Lemma many_none {R} p (k : string → option R) s : k s = None → no_later p k s → many p k s = None.
Proof.
  induction s as [|c s IH]; intros Hs Hl; simpl; [done|]. destruct (p c) eqn:Hc; [|done].
  rewrite IH; [done|..].
  - apply (Hl (String c "") s); [done|done|]. simpl. by rewrite Hc.
  - intros a b -> Ha Hp. apply (Hl (String c a) b); [done|done|]. simpl. by rewrite Hc.
Qed.

Lemma many_stops {R} p (k : string → option R) s r : k s = Some r → no_later p k s → many p k s = Some r.
Proof.
  intros Hs Hl. destruct s as [|c s]; simpl; [done|]. destruct (p c) eqn:Hc; [|done].
  rewrite many_none; [done|..].
  - apply (Hl (String c "") s); [done|done|]. simpl. by rewrite Hc.
  - intros a b -> Ha Hp. apply (Hl (String c a) b); [done|done|]. simpl. by rewrite Hc.
Qed.

Lemma many_app {R} p (k : string → option R) a s r :
  all_in p a = true → k s = Some r → no_later p k s → many p k (a +:+ s) = Some r.
Proof.
  intros Ha Hs Hl. induction a as [|c a IH]; simpl; [by apply many_stops|].
  simpl in Ha. apply andb_true_iff in Ha as [-> Ha]. by rewrite IH.
Qed.

Lemma match_many p r a s x :
  all_in p a = true → a ≠ "" → match_here r s = Some x → no_later p (match_here r) s →
  match_here (Many p :: r) (a +:+ s) = Some x.
Proof.
  intros Ha Hn Hs Hl. destruct a as [|c a]; [done|]. simpl in *. apply andb_true_iff in Ha as [-> Ha]. by apply many_app.
Qed.

Lemma match_one c r t : match_here (One (exactly c) :: r) (String c t) = match_here r t.
Proof. simpl. unfold exactly. by rewrite bool_decide_eq_true_2. Qed.
Lemma match_maybe_not p c r t : p c = false → match_here (Maybe p :: r) (String c t) = match_here r (String c t).
Proof. simpl. by intros ->. Qed.
Lemma match_mark r s ms rest : match_here r s = Some (ms, rest) → match_here (Mark :: r) s = Some (s :: ms, rest).
Proof. simpl. by intros ->. Qed.
Lemma match_mark_None r s : match_here r s = None → match_here (Mark :: r) s = None.
Proof. simpl. by intros ->. Qed.

Definition literal (s : string) : list piece := (λ c, One (exactly c)) <$> String.list_ascii_of_string s.

Lemma match_literal s r t : match_here (literal s ++ r) (s +:+ t) = match_here r t.
Proof.
  unfold literal. induction s as [|c s IH]; simpl; [done|]. unfold exactly at 1. by rewrite bool_decide_eq_true_2.
Qed.

(** A pattern that begins with a byte that the text has not. *)
Lemma no_match_byte c r s : has_byte c s = false → FindStringSubmatch (One (exactly c) :: r) s = None.
Proof.
  induction s as [|d s IH]; simpl; [done|]. intros [Hd Hs]%orb_false_iff. rewrite IH by done.
  unfold exactly. apply bool_decide_eq_false in Hd. rewrite bool_decide_eq_false_2; [done|]. intros ->. done.
Qed.

Lemma between_app a b : between (a +:+ b) b = a.
Proof.
  unfold between. rewrite length_append, Nat.add_sub. induction a as [|c a IH]; simpl.
  - by destruct b.
  - by rewrite IH.
Qed.
Lemma between_nil a : between a "" = a.
Proof. rewrite <-(append_nil_r a) at 1. apply between_app. Qed.

(** ** The patterns *)

Definition ip_class : ascii → bool := λ c,
  exactly "[" c || (exactly "?" c || (word_class c || (exactly "." c || (exactly ":" c || false)))).
Definition iqn_class : ascii → bool := λ c,
  word_class c || (exactly "." c || (exactly "-" c || (exactly ":" c || false))).

Definition lun_pieces (e : list piece) : list piece := literal "-lun-" ++ Many digit_class :: e.

Lemma disk_by_path_pieces : Compile diskByPathPattern =
  Some (literal "/dev/disk/by-path/ip-" ++
        Mark :: Many ip_class :: Maybe (exactly "]") :: Mark :: One (exactly ":") :: Mark :: Many digit_class :: Mark ::
        literal "-iscsi-" ++ Mark :: Many iqn_class :: Mark :: lun_pieces []).
Proof. lazy -[exactly word_class digit_class]. reflexivity. Qed.

Lemma disk_by_path_iscsi_pieces : Compile DiskByPathPatternISCSI =
  Some (literal "/dev/disk/by-path/ip-" ++
        Many ip_class :: Maybe (exactly "]") :: One (exactly ":") :: Many digit_class ::
        literal "-iscsi-" ++ Many iqn_class :: lun_pieces [EndOfText]).
Proof. lazy -[exactly word_class digit_class]. reflexivity. Qed.

Lemma disk_by_path_pv_pieces : Compile DiskByPathPatternPV =
  Some (literal "/dev/disk/by-path/pci-" ++ replicate 4 (One word_class) ++ One (exactly ":") :: replicate 2 (One word_class) ++
        One (exactly ":") :: replicate 2 (One word_class) ++ One (exactly ".") :: Many digit_class :: literal "-scsi-" ++
        Many digit_class :: One (exactly ":") :: Many digit_class :: One (exactly ":") :: Many digit_class :: One (exactly ":") ::
        Many digit_class :: [EndOfText]).
Proof. lazy -[exactly word_class digit_class]. reflexivity. Qed.

(** ** Numbers *)

Lemma digit_classes c : digit_class c = true →
  word_class c = true ∧ exactly "-" c = false ∧ exactly ":" c = false ∧ exactly "]" c = false.
Proof. destruct c as [[] [] [] [] [] [] [] []]; vm_compute; try discriminate; auto. Qed.
Lemma digit_class_in c : digit_class c = true → ip_class c = true ∧ iqn_class c = true.
Proof. intros (Hw & _)%digit_classes. unfold ip_class, iqn_class. by rewrite Hw, !orb_true_r. Qed.

(** A run of digits at which nothing begins to match. *)
Lemma no_later_digits {R} p (k : string → option R) d s :
  all_in digit_class d = true → (∀ c t, digit_class c = true → k (String c t) = None) →
  k s = None → no_later p k s → k (d +:+ s) = None ∧ no_later p k (d +:+ s).
Proof.
  intros Hd Hk Hs Hl. induction d as [|c d IH]; [done|]. simpl in *. apply andb_true_iff in Hd as [Hc Hd].
  split; [by apply Hk|]. apply no_later_cons. auto.
Qed.

Lemma digits_in acc s v : digits acc s = Some v → all_in digit_class s = true.
Proof.
  revert acc. induction s as [|c s IH]; intros acc; simpl; [done|]. destruct (digit c) eqn:Hc; simpl; [|done].
  intros ->%IH. rewrite andb_true_r. revert Hc. destruct c as [[] [] [] [] [] [] [] []]; vm_compute; congruence.
Qed.
Lemma Itoa_in z : (0 ≤ z)%Z → all_in digit_class (Itoa z) = true ∧ Itoa z ≠ "".
Proof.
  intros Hz. pose proof (Itoa_digits z Hz) as Hd. split; [by eapply digits_in|]. intros He. rewrite He in Hd. by injection Hd as <-.
Qed.

(** ** Targets *)

(** The addresses and names that the pattern accepts, with the brackets of an IPv6 address
    or without, and ports. *)
Definition device_disk (sd : Disk) : Prop :=
  all_in ip_class (disk_IscsiIp sd) = true ∧ disk_IscsiIp sd ≠ "" ∧
  all_in iqn_class (disk_IQN sd) = true ∧ disk_IQN sd ≠ "" ∧ (0 ≤ disk_Port sd < 2 ^ 63)%Z.
Definition device_path (sd : Disk) (lun : Z) : string := DISK_BY_PATH_FOLDER +:+ by_path_name sd +:+ Itoa lun.

Lemma no_lun e c t : exactly "-" c = false → match_here (lun_pieces e) (String c t) = None.
Proof. intros Hc. unfold lun_pieces, literal. simpl. by rewrite Hc. Qed.

(** The end of the path: the unit. *)
Lemma match_lun e d : all_in digit_class d = true → d ≠ "" → match_here e "" = Some ([], "") →
  match_here (lun_pieces e) ("-lun-" +:+ d) = Some ([], "").
Proof.
  intros Hd Hn He. unfold lun_pieces. rewrite match_literal, <-(append_nil_r d). apply match_many; [done|done|done|apply no_later_nil].
Qed.
Lemma lun_digits e d : all_in digit_class d = true →
  match_here (lun_pieces e) d = None ∧ no_later iqn_class (match_here (lun_pieces e)) d.
Proof.
  intros Hd. rewrite <-(append_nil_r d). apply no_later_digits; [done| |done|apply no_later_nil].
  intros c t (_ & Hc & _)%digit_classes. by apply no_lun.
Qed.
Lemma lun_no_later e d : all_in digit_class d = true → no_later iqn_class (match_here (lun_pieces e)) ("-lun-" +:+ d).
Proof.
  intros Hd. destruct (lun_digits e d Hd) as [H0 Hl]. change ("-lun-" +:+ d) with (String "-" (String "l" (String "u" (String "n" (String "-" d))))).
  do 3 (apply no_later_cons; intros _; split; [by apply no_lun|]). apply no_later_cons; intros _; split; [|apply no_later_cons; auto].
  destruct d as [|c d]; [done|]. simpl in Hd. apply andb_true_iff in Hd as [Hc _].
  destruct c as [[] [] [] [] [] [] [] []]; vm_compute in Hc; try discriminate; reflexivity.
Qed.

(** The port is what follows the last colon before the first dash. *)
Lemma port_no_later {R} (k : string → option R) port rest :
  all_in digit_class port = true → (∀ c t, exactly "]" c = false → exactly ":" c = false → k (String c t) = None) →
  no_later ip_class k (":" +:+ port +:+ "-" +:+ rest).
Proof.
  intros Hp Hk. apply no_later_cons. intros _. apply no_later_digits; [done| |by apply Hk|].
  - intros c t (_ & _ & H1 & H2)%digit_classes. by apply Hk.
  - by apply no_later_cons.
Qed.

Section target.
Context (sd : Disk) (lun : Z) (Hsd : device_disk sd) (Hlun : (0 ≤ lun)%Z).

Lemma device_path_text : device_path sd lun =
  "/dev/disk/by-path/ip-" +:+ disk_IscsiIp sd +:+ ":" +:+ Itoa (disk_Port sd) +:+ "-iscsi-" +:+ disk_IQN sd +:+ "-lun-" +:+ Itoa lun.
Proof. unfold device_path, by_path_name, DISK_BY_PATH_FOLDER. by rewrite <-!append_assoc. Qed.

Lemma match_iscsi_pattern :
  match_here (literal "/dev/disk/by-path/ip-" ++ Many ip_class :: Maybe (exactly "]") :: One (exactly ":") :: Many digit_class ::
    literal "-iscsi-" ++ Many iqn_class :: lun_pieces [EndOfText]) (device_path sd lun) = Some ([], "").
Proof.
  destruct Hsd as (Hi & Hi0 & Hq & Hq0 & Hp), (Itoa_in (disk_Port sd)) as [Hd Hd0], (Itoa_in lun Hlun) as [Hl Hl0]; [lia|].
  rewrite device_path_text, match_literal. apply match_many; [done|done| |].
  - change (":" +:+ ?t) with (String ":" t). rewrite match_maybe_not, match_one by done.
    apply match_many; [done|done| |by apply no_later_cons].
    rewrite match_literal. apply match_many; [done|done|by apply match_lun|by apply lun_no_later].
  - apply port_no_later; [done|]. intros c t H1 H2. rewrite match_maybe_not by done. simpl. by rewrite H2.
Qed.

Lemma match_disk_pattern :
  match_here (literal "/dev/disk/by-path/ip-" ++
        Mark :: Many ip_class :: Maybe (exactly "]") :: Mark :: One (exactly ":") :: Mark :: Many digit_class :: Mark ::
        literal "-iscsi-" ++ Mark :: Many iqn_class :: Mark :: lun_pieces []) (device_path sd lun) =
  let l3 := "-lun-" +:+ Itoa lun in let l2 := disk_IQN sd +:+ l3 in let l1 := "-iscsi-" +:+ l2 in
  let p := Itoa (disk_Port sd) +:+ l1 in
  Some ([disk_IscsiIp sd +:+ ":" +:+ p; ":" +:+ p; p; l1; l2; l3], "").
Proof.
  destruct Hsd as (Hi & Hi0 & Hq & Hq0 & Hp), (Itoa_in (disk_Port sd)) as [Hd Hd0], (Itoa_in lun Hlun) as [Hl Hl0]; [lia|].
  cbv zeta. rewrite device_path_text, match_literal. apply match_mark, match_many; [done|done| |].
  - change (":" +:+ ?t) with (String ":" t). rewrite match_maybe_not by done. apply match_mark. rewrite match_one.
    apply match_mark, match_many; [done|done| |by apply no_later_cons].
    apply match_mark. rewrite match_literal. apply match_mark, match_many; [done|done|by apply match_mark, match_lun|].
    intros a b Hab Ha Hin. apply match_mark_None. by eapply lun_no_later.
  - apply port_no_later; [done|]. intros c t H1 H2. rewrite match_maybe_not by done. apply match_mark_None. simpl. by rewrite H2.
Qed.
End target.

Lemma submatch_here pattern r s marks rest :
  Compile pattern = Some r → match_here r s = Some (marks, rest) → submatch pattern s = Some (between s rest :: group_texts marks).
Proof. unfold submatch. intros -> Hm. simpl. destruct s; simpl; by rewrite Hm. Qed.
Lemma find_skip r c s : match_here r (String c s) = None → FindStringSubmatch r s = None → FindStringSubmatch r (String c s) = None.
Proof. simpl. by intros ->. Qed.
Lemma all_in_no_byte p c s : all_in p s = true → p c = false → has_byte c s = false.
Proof.
  intros Hs Hn. induction s as [|d s IH]; [done|]. simpl in *. apply andb_true_iff in Hs as [Hd Hs].
  rewrite IH, orb_false_r by done. apply bool_decide_eq_false. intros ->. congruence.
Qed.

Lemma FindFromDevicePath_target sd lun : device_disk sd → (0 ≤ lun)%Z →
  FindFromDevicePath (device_path sd lun) = Ret [device_path sd lun; disk_IscsiIp sd; Itoa (disk_Port sd); disk_IQN sd].
Proof.
  intros Hsd Hlun. unfold FindFromDevicePath.
  erewrite submatch_here; [|exact disk_by_path_pieces|by apply match_disk_pattern]. rewrite between_nil. cbn [group_texts default length].
  rewrite !between_app. case_decide as Hn; [by destruct Hn|done].
Qed.

Lemma port_read sd : device_disk sd → Atoi (Itoa (disk_Port sd)) = Some (disk_Port sd).
Proof. intros (_ & _ & _ & _ & ?). apply Atoi_Itoa. lia. Qed.

Lemma GetScsiInfo_target sd lun : device_disk sd → (0 ≤ lun)%Z → GetScsiInfo (device_path sd lun) = Ret sd.
Proof. intros Hsd Hlun. unfold GetScsiInfo. rewrite FindFromDevicePath_target by done. simpl. rewrite port_read by done. by destruct sd. Qed.

Lemma NewFromDevicePath_target sd lun : device_disk sd → (0 ≤ lun)%Z →
  NewFromDevicePath (device_path sd lun) = Ret (iSCSIMounter (Some sd) "").
Proof. intros Hsd Hlun. unfold NewFromDevicePath. rewrite GetScsiInfo_target by done. by destruct sd. Qed.

(** No other kind of device has such a path. *)
Lemma device_path_not_pv sd lun : device_disk sd → (0 ≤ lun)%Z → pattern_matches DiskByPathPatternPV (device_path sd lun) = false.
Proof.
  intros (Hi & _ & Hq & _ & Hp) Hlun. unfold pattern_matches, submatch. rewrite disk_by_path_pv_pieces, device_path_text.
  apply bool_decide_eq_false_2, eq_None_not_Some. set (t := disk_IscsiIp sd +:+ _). assert (has_byte "/" t = false) as Ht.
  { unfold t. rewrite !has_byte_app, (Itoa_no_byte "/" (disk_Port sd)), (Itoa_no_byte "/" lun) by done.
    by rewrite (all_in_no_byte _ _ _ Hi), (all_in_no_byte _ _ _ Hq). }
  do 21 (eapply find_skip; [reflexivity|]). by apply no_match_byte.
Qed.

(** C28: The name that an iSCSI target has under /dev/disk/by-path, which staging waits for,
    determines the target: a handler that is made of it has the same address, port and name, and the path is
    classified as one of iSCSI from which unstaging reads the target back. *)
Theorem device_path_roundtrip sd lun :
  device_disk sd → (0 ≤ lun)%Z →
  NewFromDevicePath (device_path sd lun) = Ret (iSCSIMounter (Some sd) "") ∧
  getDevicePathAndAttachmentType [device_path sd lun] = Ret (attachmentTypeISCSI, device_path sd lun) ∧
  ∀ rest, ExtractISCSIInformationFromMountPath (device_path sd lun :: rest) = Ret sd.
Proof.
  intros Hsd Hlun. split_and!.
  - by apply NewFromDevicePath_target.
  - unfold getDevicePathAndAttachmentType. simpl List.find. rewrite device_path_not_pv by done. unfold pattern_matches.
    erewrite submatch_here; [|exact disk_by_path_iscsi_pieces|by apply match_iscsi_pattern]. done.
  - intros rest. unfold ExtractISCSIInformationFromMountPath. simpl. rewrite FindFromDevicePath_target by done. simpl.
    rewrite port_read by done. by destruct sd.
Qed.

Definition an_iscsi_disk : Disk := {|
  disk_IQN := "iqn.2015-12.com.oracleiaas:5638bae3-98d1-4e33-b912-lun-7"; disk_IscsiIp := "169.254.2.2"; disk_Port := 3260 |}.

Lemma device_path_roundtrip_witness :
  device_disk an_iscsi_disk ∧
  device_path an_iscsi_disk 2 = "/dev/disk/by-path/ip-169.254.2.2:3260-iscsi-iqn.2015-12.com.oracleiaas:5638bae3-98d1-4e33-b912-lun-7-lun-2" ∧
  NewFromDevicePath (device_path an_iscsi_disk 2) = Ret (iSCSIMounter (Some an_iscsi_disk) "").
Proof.
  assert (device_disk an_iscsi_disk) as Hsd by (split_and!; [vm_compute; reflexivity|done|vm_compute; reflexivity|done|simpl; lia|simpl; lia]).
  split; [exact Hsd|]. split; [vm_compute; reflexivity|]. exact (proj1 (device_path_roundtrip an_iscsi_disk 2 Hsd (Z.le_0_2))).
Defined.
