(* ===== verification/BlockNodeFacts.v ===== *)
(** * What the node service of block volumes achieves

    Given laws of the host ([DiskLaws]), a staged volume is mounted from the device that the
    publish context names, a staging that fails after the login has logged out again or says
    that it could not, and unstaging unmounts and logs out.  Publication binds the staged
    volume once more each time; it does not touch sessions. *)
From stdpp Require Import base tactics list gmap sets strings.
From S2P Require Import Prelude GoStrings GoRegexp GoNet Types ClientErrors ClientCalls CsiUtil BlockVolume Host NodeServices NodeServicesFacts Disk BlockNode.

(** The commands that only read. *)
Inductive disk_query : string → list string → Prop :=
| session_query : disk_query "iscsiadm" ["-m"; "session"]
| device_query pattern : disk_query "bash" ["-c"; "ls -f /dev/disk/by-path/" +:+ pattern]
| paths_query : disk_query "ls" ["-f"; DISK_BY_PATH_FOLDER]
| blkid_query d : disk_query "blkid" ["-p"; "-s"; "TYPE"; "-s"; "PTTYPE"; "-o"; "export"; d]
| source_query t : disk_query FindMountCommand ["-n"; "-o"; "SOURCE"; "-T"; t]
| lsblk_query d : disk_query "lsblk" ["-n"; "-o"; "NAME"; d]
| dd_query d : disk_query "dd" ["iflag=direct"; "if=" +:+ d; "of=/dev/null"; "count=1"]
| rescan_query d : disk_query "bash" ["-c"; "echo 1 | tee /sys/class/block/" +:+ d +:+ "/device/rescan"]
| path_rescan_query d : disk_query "bash" ["-c"; "echo 1 | tee /sys/block/" +:+ d +:+ "/device/rescan"]
| multipath_query d : disk_query CHROOT_BASH_COMMAND ["multipathd resize map"; d]
| size_query d : disk_query "blockdev" ["--getsize64"; d].

Definition portal (sd : Disk) : string * string := (disk_IQN sd, Target sd).
Abbreviation targets := (gset (string * string)).

(** The mounts at every path, as the arguments of the command that made them, the last one
    first; and the iSCSI targets with a session, as names and portals. *)
Class DiskLaws (W : Type) `{!Host W, !DiskHost W, !KubeNodes W, !KubeConfigMaps W} := {
  block_mounts : W → string → list (list string);
  sessions : W → targets;
  unchanged w w' := (∀ q, block_mounts w' q = block_mounts w q) ∧ sessions w' = sessions w;
  mounts_at p (f : list (list string) → list (list string)) w w' :=
    block_mounts w' p = f (block_mounts w p) ∧ (∀ q, q ≠ p → block_mounts w' q = block_mounts w q) ∧ sessions w' = sessions w;
  sessions_by (f : targets → targets) w w' :=
    (∀ q, block_mounts w' q = block_mounts w q) ∧ sessions w' = f (sessions w);
  (** A mount with the options [os]; one that binds may fail halfway, see [mount_step]. *)
  mounting p os e (ok : bool) w w' :=
    (∀ q, q ≠ p → block_mounts w' q = block_mounts w q) ∧ sessions w' = sessions w ∧
    mount_step os e ok (block_mounts w p) (block_mounts w' p);
  disk_query_law : ∀ name args w, disk_query name args → unchanged w (exec_Command name args w).2;
  disk_reads :
    (∀ p, frames unchanged (exec_LookPath p)) ∧ (∀ p, frames unchanged (EvalSymlinks p)) ∧ (∀ p, frames unchanged (Walk_paths p)) ∧
    (∀ p, frames unchanged (filepath_Glob p)) ∧ (∀ p, frames unchanged (os_Readlink p)) ∧ (∀ p, frames unchanged (os_ReadDir p)) ∧
    (∀ p, frames unchanged (os_Stat p)) ∧ (∀ p, frames unchanged (os_OpenFile p)) ∧ (∀ p, frames unchanged (File_Close p)) ∧
    (∀ p, frames unchanged (hostutil_PathIsDevice p)) ∧ (∀ d p, frames unchanged (ResizeFs_Resize d p));
  disk_host_reads :
    (∀ p, frames unchanged (IsLikelyNotMountPoint p)) ∧ frames unchanged mounter_List ∧ (∀ p, frames unchanged (mount_PathExists p)) ∧
    (∀ p, frames unchanged (hostutil_PathExists p)) ∧ (∀ p, frames unchanged (hostutil_DeviceOpened p)) ∧
    (∀ p, frames unchanged (os_MkdirAll p)) ∧ (∀ p, frames unchanged (os_Remove p)) ∧
    (∀ n, frames unchanged (Nodes_Get n)) ∧ (∀ n, frames unchanged (ConfigMaps_Get n));
  (** A mount point is not removed, and does not go unlisted. *)
  block_remove_law : ∀ p w w', os_Remove p w = (Ret (), w') → block_mounts w p = [];
  block_exists_law : ∀ p w w', mount_PathExists p w = (Ret false, w') → block_mounts w p = [];
  block_list_law : ∀ w l w', mounter_List w = (Ret l, w') → ∀ p, block_mounts w p ≠ [] → p ∈ mp_Path <$> l;
  (** The libraries do not know the error of the package. *)
  foreign_errors : ∀ w w' p,
    mounter_List w ≠ (Err ErrMountPointNotFound, w') ∧ EvalSymlinks p w ≠ (Err ErrMountPointNotFound, w') ∧
    Walk_paths p w ≠ (Err ErrMountPointNotFound, w');
  format_mount_law : ∀ m src p t os w o w', SafeFormatAndMount m src p t os w = (o, w') →
    mounting p (os ++ ["defaults"]) (MakeMountArgs src p t (os ++ ["defaults"])) (is_ret o) w w';
  block_mount_law : ∀ m src p t os w o w', mounter_Mount m src p t os w = (o, w') →
    mounting p os (MakeMountArgs src p t os) (is_ret o) w w';
  block_unmount_law : ∀ p w o w', mounter_Unmount p w = (o, w') → if is_ret o then mounts_at p tail w w' else unchanged w w';
  (** iscsiadm: records of nodes have no part in the sessions. *)
  record_law : ∀ adm args sd w o w', exec_Output adm args w = (o, w') →
    args = ["-m"; "node"; "-o"; "new"] ++ node_args sd ∨
    args = ["-m"; "node"; "-o"; "update"; "-T"; disk_IQN sd; "-n"; "node.startup"; "-v"; "automatic"] ∨
    args = ["-m"; "node"] ++ node_args sd ++ ["-o"; "update"; "-n"; "node.session.queue_depth"; "-v"; "128"] ∨
    args = ["-m"; "node"; "-o"; "delete"] ++ node_args sd →
    unchanged w w';
  login_law : ∀ adm sd w o w', exec_Output adm (["-m"; "node"] ++ node_args sd ++ ["-l"]) w = (o, w') →
    if is_ret o then sessions_by (union {[portal sd]}) w w' else unchanged w w';
  logout_law : ∀ adm sd w o w', exec_Output adm (["-m"; "node"] ++ node_args sd ++ ["-u"]) w = (o, w') →
    if is_ret o then sessions_by (.∖ {[portal sd]}) w w' else unchanged w w';
}.

Section facts.
Context {W : Type} `{!Host W, !DiskHost W, !Limits W, !KubeNodes W, !KubeConfigMaps W, !VolumeMetrics W} {DL : DiskLaws W}.
Context {ET : ErrorText} {MJ : MultipathJson}.
Abbreviation D := (NodeDriver W).
Implicit Types (w : W) (s : D) (p : string) (h : handler).

#[global] Instance unchanged_preorder : PreOrder unchanged.
Proof. split; [done|]. intros w1 w2 w3 (Hm1 & Hs1) (Hm2 & Hs2). split; [intros q; by rewrite Hm2|congruence]. Qed.

(** ** What only reads *)

Lemma run_disk_query name args : disk_query name args → frames unchanged (run_command name args).
Proof.
  intros Hq w o w'. unfold run_command. pose proof (disk_query_law name args w Hq) as Hk. destruct (exec_Command name args w) as [r w1].
  by intros [= _ <-].
Qed.

Ltac stay :=
  repeat first
    [ assumption | apply (frames_fail unchanged) | apply (frames_lift unchanged (Ret _)) | apply (frames_lift unchanged)
    | match goal with
      | |- frames _ (report _ _) => apply (frames_report unchanged); [|intros ?]
      | |- frames _ (try _) => apply (frames_try unchanged)
      | |- frames _ (mbind _ _) => apply (frames_bind unchanged); [|intros ?]
      | |- frames _ (forM _ _) => apply (frames_forM unchanged); intros ?
      | |- frames _ (foldM _ _ _) => apply (frames_foldM unchanged); intros ? ?
      | |- frames _ (run_command _ _) => apply run_disk_query; by constructor
      end
    | solve [apply disk_reads | apply disk_host_reads]
    | case_match | progress unfold status, command_failed, mret, internal, run_or_fail ].

(** What a run of a part that only reads leaves. *)
Ltac stays_in H :=
  match type of H with ?c ?w = (?o, ?w') => let F := fresh in assert (unchanged w w'); [revert H; cut (frames unchanged c); [intros F; apply F|]|] end.

Lemma poll_stays {A} ctx interval (c : M W (option A)) : frames unchanged c → frames unchanged (PollImmediateUntil ctx interval c).
Proof.
  intros Hc. unfold PollImmediateUntil. apply (frames_bind unchanged); [done|]. intros [a|]; [stay|].
  intros w. generalize (ctx_ticks ctx interval w). intros n. revert w.
  assert (frames unchanged (PollUntil n c)) as Hp; [|intros w; apply Hp].
  induction n as [|n IH]; simpl; stay.
Qed.

Lemma GetIscsiDevicePath_stays disk : frames unchanged (GetIscsiDevicePath disk).
Proof. unfold GetIscsiDevicePath. stay. Qed.
Lemma ReadLink_stays p : frames unchanged (ReadLink p).
Proof. unfold ReadLink. stay. Qed.
Lemma IsMounted_stays h d p : frames unchanged (IsMounted h d p).
Proof. unfold IsMounted, is_mounted, iSCSI_resolve, pv_resolve. stay; apply GetIscsiDevicePath_stays. Qed.
Lemma DeviceOpened_stays h p : frames unchanged (DeviceOpened h p).
Proof. unfold DeviceOpened, iSCSI_DeviceOpened, deviceOpened. stay; apply GetIscsiDevicePath_stays. Qed.
Lemma WaitForDevicePath_stays ctx h disk : frames unchanged (WaitForDevicePathToExist ctx h disk).
Proof. unfold WaitForDevicePathToExist. stay; apply poll_stays; stay; apply GetIscsiDevicePath_stays. Qed.
Lemma GetMultipath_stays ctx h p : frames unchanged (GetMultipathIscsiDevicePath ctx h p).
Proof. unfold GetMultipathIscsiDevicePath, GetMultipathFriendlyName. stay; apply poll_stays; stay; apply ReadLink_stays. Qed.
Lemma WaitForVolumeLogin_stays ctx h l : frames unchanged (WaitForVolumeLoginOrTimeout ctx h l).
Proof. unfold WaitForVolumeLoginOrTimeout, GetISCSILoginState. stay; apply poll_stays; stay. Qed.
Lemma WaitForPath_stays h p n : frames unchanged (WaitForPathToExist h p n).
Proof. unfold WaitForPathToExist. destruct h; stay. induction n; simpl; stay. Qed.
Lemma getDiskFormat_stays d : frames unchanged (getDiskFormat d).
Proof. unfold getDiskFormat. stay. Qed.
Lemma CreateFilePath_stays p : frames unchanged (CreateFilePath p).
Proof. unfold CreateFilePath. stay. Qed.
Lemma Rescan_stays h d : frames unchanged (handler_Rescan h d).
Proof. unfold handler_Rescan, UHP_Rescan, Rescan. stay; apply ReadLink_stays. Qed.
Lemma disk_by_paths_stays mp cfg : frames unchanged (diskByPathsForMountPoint mp cfg).
Proof. unfold diskByPathsForMountPoint, collect_path, isISCSISessionActive. stay. Qed.
Lemma getMountPoint_stays p : frames unchanged (getMountPointForPath p).
Proof. unfold getMountPointForPath. stay. Qed.
Lemma disk_paths_stays cfg raw p : frames unchanged (disk_paths cfg raw p).
Proof.
  unfold disk_paths, GetDiskPathFromBindDeviceFilePath, GetDiskPathFromMountPath, FindMount.
  stay; first [apply disk_by_paths_stays|apply getMountPoint_stays].
Qed.

(** ** Sessions *)

Definition target_of h : targets :=
  match h with iSCSIMounter (Some sd) _ => {[portal sd]} | _ => ∅ end.

Lemma unchanged_sessions_by f w1 w2 w3 : unchanged w1 w2 → sessions_by f w2 w3 → sessions_by f w1 w3.
Proof. intros (Hm1 & Hs1) (Hm2 & Hs2). split; [intros q; by rewrite Hm2|by rewrite Hs2, Hs1]. Qed.
Lemma unchanged_mounts_at p f w1 w2 w3 : unchanged w1 w2 → mounts_at p f w2 w3 → mounts_at p f w1 w3.
Proof. intros (Hm1 & Hs1) (Hp & Hm2 & Hs2). split_and!; [by rewrite Hp, Hm1|intros q Hq; by rewrite Hm2, Hm1|congruence]. Qed.

(** A mount that does not bind is made or not. *)
Lemma mounting_plain p os e ok w w' : "bind" ∉ os → "remount" ∉ os → mounting p os e ok w w' →
  if ok then mounts_at p (cons e) w w' else unchanged w w'.
Proof.
  intros Hb Hr (Hq & Hs & Hm). apply mount_step_plain in Hm; [|done]. destruct ok; [done|]. destruct Hm as [Hm|[? _]]; [|done].
  split; [|done]. intros q. destruct (decide (q = p)) as [->|]; [done|by apply Hq].
Qed.

Lemma internal_spec {A} (c : M W A) w o w' : internal c w = (o, w') →
  (∃ a, o = Ret a ∧ c w = (Ret a, w')) ∨ (is_ret o = false ∧ ∃ o1, c w = (o1, w') ∧ is_ret o1 = false).
Proof.
  intros [(a & -> & Hc)|[(e & w1 & Hc & Hf)|[Hc ->]]]%report_spec; [eauto| |by right; eauto].
  injection Hf as <- <-. right. by eauto.
Qed.

Lemma iscsiadm_spec (disk : option Disk) (adm : string) (parts : Disk → list string) (message : string) (f : targets → targets) w o w' :
  (∀ sd path w o w', disk = Some sd → exec_Output path (parts sd) w = (o, w') → if is_ret o then sessions_by f w w' else unchanged w w') →
  iscsiadm disk adm parts message w = (o, w') →
  if is_ret o then sessions_by f w w' ∧ ∃ path, o = Ret (iSCSIMounter disk path) else unchanged w w'.
Proof.
  intros Hex. unfold iscsiadm. destruct disk as [sd|]; [|by intros [= <- <-]]. intros Hr.
  change (report (path ← getISCSIAdmPath adm; _ ← exec_Output path (parts sd); mret (iSCSIMounter (Some sd) path))
    (λ err, fail (Errorf message [Error err])) w = (o, w')) in Hr.
  assert (frames unchanged (getISCSIAdmPath adm)) as Hadm by (unfold getISCSIAdmPath; stay).
  assert (∀ o w', (path ← getISCSIAdmPath adm; _ ← exec_Output path (parts sd); mret (iSCSIMounter (Some sd) path)) w = (o, w') →
    if is_ret o then sessions_by f w w' ∧ ∃ path, o = Ret (iSCSIMounter (Some sd) path) else unchanged w w') as Hrun.
  { intros o1 w1 [(path & w2 & Hp & Hr1)|(o2 & Hp & _ & ->)]%M_bind_split; [|by eapply Hadm]. apply Hadm in Hp.
    apply M_bind_split in Hr1 as [(out & w3 & He & [= <- <-])|(o2 & He & Ho & ->)]; apply (Hex sd) in He; try done.
    - split; [by eapply unchanged_sessions_by|eauto].
    - rewrite Ho in He. by trans w2. }
  apply report_spec in Hr as [(a & -> & Hr)|[(e & w1 & Hr & [= <- <-])|[Hr ->]]]; by apply Hrun in Hr.
Qed.

Lemma record_op h (f : handler → M W handler) w o w' (parts : Disk → list string) (message : string) :
  f h = match h with iSCSIMounter disk adm => iscsiadm disk adm parts message | h => mret h end →
  (∀ sd adm w o w', exec_Output adm (parts sd) w = (o, w') → unchanged w w') →
  f h w = (o, w') → unchanged w w' ∧ ∀ h', o = Ret h' → target_of h' = target_of h.
Proof.
  intros -> Hu Hr. destruct h as [disk adm| |]; [|by injection Hr as <- <-; split; [|intros h' [= <-]]..].
  apply (iscsiadm_spec disk adm parts message id) in Hr.
  - destruct (is_ret o) eqn:Ho; [|split; [done|]; by intros h' ->]. destruct Hr as ((Hm & Hs) & path & ->). split; [done|]. by intros h' [= <-].
  - intros sd path w1 o1 w2 _ He. apply Hu in He. by destruct (is_ret o1).
Qed.

Lemma AddToDB_spec h w o w' : AddToDB h w = (o, w') → unchanged w w' ∧ ∀ h', o = Ret h' → target_of h' = target_of h.
Proof. eapply (record_op h AddToDB); [reflexivity|]. intros sd adm w1 o1 w2 He. eapply record_law; eauto 10. Qed.
Lemma SetAutomaticLogin_spec h w o w' : SetAutomaticLogin h w = (o, w') → unchanged w w' ∧ ∀ h', o = Ret h' → target_of h' = target_of h.
Proof. eapply (record_op h SetAutomaticLogin); [reflexivity|]. intros sd adm w1 o1 w2 He. eapply record_law; eauto 10. Qed.
Lemma UpdateQueueDepth_spec h w o w' : UpdateQueueDepth h w = (o, w') → unchanged w w' ∧ ∀ h', o = Ret h' → target_of h' = target_of h.
Proof. eapply (record_op h UpdateQueueDepth); [reflexivity|]. intros sd adm w1 o1 w2 He. eapply record_law; eauto 10. Qed.
Lemma RemoveFromDB_spec h w o w' : RemoveFromDB h w = (o, w') → unchanged w w' ∧ ∀ h', o = Ret h' → target_of h' = target_of h.
Proof. eapply (record_op h RemoveFromDB); [reflexivity|]. intros sd adm w1 o1 w2 He. eapply record_law; eauto 10. Qed.

Lemma Login_spec h w o w' : Login h w = (o, w') →
  match o with Ret h' => sessions_by (union (target_of h)) w w' ∧ target_of h' = target_of h | _ => unchanged w w' end.
Proof.
  destruct h as [disk adm| |]; [|by intros [= <- <-]; split; [split; [done|simpl; set_solver]|]..]. intros Hr.
  apply (iscsiadm_spec disk adm _ _ (union (target_of (iSCSIMounter disk adm)))) in Hr.
  - destruct o; [|done..]. destruct Hr as (Hs & path & [= ->]). done.
  - intros sd path w1 o1 w2 -> He. by apply login_law in He.
Qed.
Lemma Logout_spec h w o w' : Logout h w = (o, w') →
  match o with Ret h' => sessions_by (.∖ target_of h) w w' ∧ target_of h' = target_of h | _ => unchanged w w' end.
Proof.
  destruct h as [disk adm| |]; [|by intros [= <- <-]; split; [split; [done|simpl; set_solver]|]..]. intros Hr.
  apply (iscsiadm_spec disk adm _ _ (.∖ target_of (iSCSIMounter disk adm))) in Hr.
  - destruct o; [|done..]. destruct Hr as (Hs & path & [= ->]). done.
  - intros sd path w1 o1 w2 -> He. by apply logout_law in He.
Qed.

(** ** Logging in, and out after a failure *)

Lemma record_step {A} (op : handler → M W handler) h (f : handler → M W A) w o w' :
  (∀ w o w', op h w = (o, w') → unchanged w w' ∧ ∀ h', o = Ret h' → target_of h' = target_of h) →
  (h ← internal (op h); f h) w = (o, w') →
  (is_ret o = false ∧ unchanged w w') ∨ ∃ h' w1, unchanged w w1 ∧ target_of h' = target_of h ∧ f h' w1 = (o, w').
Proof.
  intros Hop [(h' & w1 & Hi & Hr)|(o1 & Hi & Ho1 & Ho)]%M_bind_split;
    apply internal_spec in Hi as [(a & Ha & Hi)|(Ha & o2 & Hi & Ho2)]; apply Hop in Hi as [Hu Ht]; try (by subst).
  - injection Ha as <-. right. eauto 10.
  - by left.
Qed.

Lemma login_spec h pc w o w' : login h pc w = (o, w') →
  match o with Ret h' => sessions_by (union (target_of h)) w w' ∧ target_of h' = target_of h | _ => unchanged w w' end.
Proof.
  intros Hr. unfold login in Hr. apply (record_step AddToDB) in Hr as [[Ho Hu]|(h1 & w1 & Hu1 & Ht1 & Hr)];
    [by destruct o| |intros; by apply AddToDB_spec].
  apply M_bind_split in Hr as [(v & w2 & Hv & Hr)|(o1 & Hv & _ & Ho)].
  2:{ assert (unchanged w1 w') by (eapply (frames_report unchanged); [apply (frames_lift unchanged)|intros; apply (frames_fail unchanged)|]; eauto).
      destruct o; [done|by trans w1..]. }
  assert (w2 = w1) as ->.
  { apply report_spec in Hv as [(a & _ & [= _ <-])|[(e & w3 & _ & Hf)|[_ Hf]]]; done. }
  assert (∃ h2 w2, unchanged w1 w2 ∧ target_of h2 = target_of h1 ∧ (h ← internal (SetAutomaticLogin h2); internal (Login h)) w2 = (o, w') ∨
    (is_ret o = false ∧ unchanged w1 w')) as (h2 & w2 & [(Hu2 & Ht2 & Hr2)|[Ho Hu2]]).
  { revert Hr. case_decide; intros Hr.
    - apply (record_step UpdateQueueDepth) in Hr as [[Ho Hu]|(h2 & w2 & Hu2 & Ht2 & Hr)]; [by exists h1, w1; right|by exists h2, w2; left|].
      intros; by apply UpdateQueueDepth_spec.
    - exists h1, w1. by left. }
  2:{ destruct o; [done|by trans w1..]. }
  apply (record_step SetAutomaticLogin) in Hr2 as [[Ho Hu3]|(h3 & w3 & Hu3 & Ht3 & Hr3)]; [|..|intros; by apply SetAutomaticLogin_spec].
  { destruct o; [done|trans w1; [done|by trans w2]..]. }
  assert (unchanged w w3) as Hu by (trans w1; [done|by trans w2]).
  apply internal_spec in Hr3 as [(h4 & -> & Hl)|(Ho & o1 & Hl & Ho1)]; apply Login_spec in Hl.
  - destruct Hl as [Hs Ht4]. split; [|congruence]. replace (target_of h) with (target_of h3) by congruence. by eapply unchanged_sessions_by.
  - destruct o1; [done|destruct o; [done|by trans w3..]..].
Qed.

(** The error tells that the session is still there. *)
Definition says_logout_failed (e : error) : Prop :=
  ∃ format args, e = StatusError Internal format args ∧ HasPrefix format "Failed to iscsi logout" = true.

Definition same_sessions w w' : Prop := sessions w' = sessions w.
#[global] Instance same_sessions_preorder : PreOrder same_sessions.
Proof. split; [done|]. unfold same_sessions. intros w1 w2 w3 ? ?. congruence. Qed.

(** An error comes after a logout from [T], or tells that there was none. *)
Definition closes (T : targets) {A} (c : M W A) : Prop := ∀ w o w', c w = (o, w') →
  match o with
  | Ret _ => sessions w' = sessions w
  | Err e => sessions w' = sessions w ∖ T ∨ (sessions w' = sessions w ∧ says_logout_failed e)
  | Panic => True
  end.

Lemma closes_bind T {A B} (c : M W A) (f : A → M W B) : closes T c → (∀ a, closes T (f a)) → closes T (c ≫= f).
Proof.
  intros Hc Hf w o w'. unfold mbind, M_bind. destruct (c w) as [[a|e|] w1] eqn:E; apply Hc in E.
  - intros Hr. apply Hf in Hr. by rewrite E in Hr.
  - by intros [= <- <-].
  - by intros [= <- <-].
Qed.
Lemma closes_ret T {A} (a : A) : closes T (mret a).
Proof. by intros w o w' [= <- <-]. Qed.
Lemma closes_panic T {A} : closes T (lift (@Panic A)).
Proof. by intros w o w' [= <- <-]. Qed.
Lemma closes_none {A} (c : M W A) : frames same_sessions c → closes ∅ c.
Proof. intros Hc w o w' Hr%Hc. unfold same_sessions in Hr. destruct o; [done| |done]. left. set_solver. Qed.
Lemma closes_try T {A} (c : M W A) : frames same_sessions c → closes T (try c).
Proof. intros Hc w o w' [(a & -> & Hr)|[(e & -> & Hr)|[Hr ->]]]%try_spec; [by apply Hc in Hr..|done]. Qed.
Lemma closes_report T {A} (c : M W A) f : frames same_sessions c → (∀ e, closes T (f e)) → closes T (report c f).
Proof. intros Hc Hf. unfold report. apply closes_bind; [by apply closes_try|]. intros [e|a]; [done|apply closes_ret]. Qed.

Lemma unchanged_same {A} (c : M W A) : frames unchanged c → frames same_sessions c.
Proof. intros Hc w o w' Hr%Hc. apply Hr. Qed.

Lemma ISCSILogoutOnFailure_spec h w o w' : ISCSILogoutOnFailure h w = (o, w') →
  (∀ q, block_mounts w' q = block_mounts w q) ∧ (sessions w' = sessions w ∖ target_of h ∨ (is_ret o = false ∧ sessions w' = sessions w)).
Proof.
  destruct h as [disk adm| |]; [|by intros [= <- <-]; split; [|left; set_solver]..]. intros Hr.
  change (h ← internal (Logout (iSCSIMounter disk adm)); (_ ← internal (RemoveFromDB h); mret ())) with
    (h ← internal (Logout (iSCSIMounter disk adm)); (_ ← internal (RemoveFromDB h); mret () : M W ())) in Hr.
  apply M_bind_split in Hr as [(h1 & w1 & Hi & Hr)|(o1 & Hi & Ho1 & Ho)];
    apply internal_spec in Hi as [(a & Ha & Hi)|(Ha & o2 & Hi & Ho2)]; apply Logout_spec in Hi; try (by subst).
  - injection Ha as <-. destruct Hi as [(Hm & Hs) _].
    assert (unchanged w1 w') as [Hm' Hs'].
    { apply (M_bind_split (internal (RemoveFromDB h1)) (λ _, mret ())) in Hr as [(h2 & w2 & Hi & [= _ <-])|(o1 & Hi & _)];
        apply internal_spec in Hi as [(? & _ & Hi)|(_ & ? & Hi & _)]; by apply RemoveFromDB_spec in Hi as [? _]. }
    split; [intros q; by rewrite Hm'|left; congruence].
  - destruct o2; [done|destruct Hi as [Hm Hs]; split; [done|by right]..].
Qed.

Lemma closes_after_logout h message (e : error) {A} :
  HasPrefix message "Failed to iscsi logout" = true → closes (target_of h) (after_logout h message (@fail W A e)).
Proof.
  intros Hp w o w'. unfold after_logout, mbind, M_bind. destruct (report _ _ w) as [o1 w1] eqn:E.
  apply report_spec in E as [([] & -> & Hl)|[(e1 & w2 & Hl & [= <- <-])|[Hl ->]]]; intros [= <- <-]; [..|done];
    apply ISCSILogoutOnFailure_spec in Hl as [_ [Hs|[Hn Hs]]]; try done; [by left..|].
  right. split; [done|]. by eexists _, _.
Qed.

Ltac closing :=
  repeat first
    [ apply closes_ret | apply closes_panic
    | match goal with
      | |- closes _ (after_logout _ _ _) => apply closes_after_logout; vm_compute; reflexivity
      | |- closes _ (report _ _) => apply closes_report; [|intros ?]
      | |- closes _ (try _) => apply closes_try
      | |- closes _ (mbind _ _) => apply closes_bind; [|intros ?]
      end
    | case_match ].

Lemma handler_Mount_sessions h src p t os : frames same_sessions (handler_Mount h src p t os).
Proof. intros w o w' Hr. apply block_mount_law in Hr. apply Hr. Qed.
Lemma FormatAndMount_sessions h src p t os : frames same_sessions (FormatAndMount h src p t os).
Proof. intros w o w' Hr. apply format_mount_law in Hr. apply Hr. Qed.

Lemma after_logout_spec h message (e : error) {A} w (o : outcome A) w' : after_logout h message (fail e) w = (o, w') →
  is_ret o = false ∧ (∀ q, block_mounts w' q = block_mounts w q) ∧ (sessions w' = sessions w ∨ sessions w' = sessions w ∖ target_of h).
Proof.
  unfold after_logout. intros [([] & w1 & Hl & [= <- <-])|(o1 & Hl & Ho1 & Ho)]%M_bind_split;
    apply report_spec in Hl as [([] & _ & Hl)|[(e1 & w2 & Hl & [= <- <-])|[Hl _]]];
    apply ISCSILogoutOnFailure_spec in Hl as [Hm [Hs|[_ Hs]]]; by split_and!; auto.
Qed.

Lemma wait_for_device_closes ctx att mp st h : closes (target_of h) (wait_for_device ctx att mp st h).
Proof.
  unfold wait_for_device. apply closes_bind; [|intros dev; apply closes_bind; [|intros _]].
  - closing. apply unchanged_same, WaitForDevicePath_stays.
  - destruct h; [apply closes_ret|apply closes_none, unchanged_same; unfold internal; stay; apply WaitForVolumeLogin_stays|apply closes_ret].
  - destruct h; [exact (closes_ret _ dev)..|]. apply closes_none, unchanged_same. stay. apply WaitForPath_stays.
Qed.

Lemma stage_raw_block_closes h d p : closes (target_of h) (stage_raw_block h d p).
Proof. unfold stage_raw_block. closing; [apply unchanged_same, CreateFilePath_stays|apply handler_Mount_sessions]. Qed.

Lemma stage_filesystem_closes h d p mnt : closes (target_of h) (stage_filesystem h d p mnt).
Proof.
  unfold stage_filesystem, staging_directory.
  closing; try (apply unchanged_same; solve [apply disk_reads|apply disk_host_reads|apply getDiskFormat_stays]); apply FormatAndMount_sessions.
Qed.

(** ** Mounts *)

Definition same_mounts w w' : Prop := ∀ q, block_mounts w' q = block_mounts w q.
#[global] Instance same_mounts_preorder : PreOrder same_mounts.
Proof. split; [by intros w q|]. intros w1 w2 w3 H1 H2 q. by rewrite H2. Qed.
Lemma unchanged_mounts {A} (c : M W A) : frames unchanged c → frames same_mounts c.
Proof. intros Hc w o w' [Hm _]%Hc. exact Hm. Qed.

(** A mount that satisfies [E] is made at [p]; after an error there is none, or it may be
    there if [half] holds. *)
Definition adds p (half : Prop) (E : list string → Prop) (c : M W ()) : Prop := ∀ w o w', c w = (o, w') →
  (∀ q, q ≠ p → block_mounts w' q = block_mounts w q) ∧
  let made := ∃ e, E e ∧ block_mounts w' p = e :: block_mounts w p in
  if is_ret o then made else block_mounts w' p = block_mounts w p ∨ (half ∧ made).

Lemma adds_fails p half E w (o : outcome ()) w' : is_ret o = false → same_mounts w w' →
  (∀ q, q ≠ p → block_mounts w' q = block_mounts w q) ∧
  let made := ∃ e, E e ∧ block_mounts w' p = e :: block_mounts w p in
  if is_ret o then made else block_mounts w' p = block_mounts w p ∨ (half ∧ made).
Proof. intros -> Hm. split; [intros q _; apply Hm|left; apply Hm]. Qed.
Lemma adds_after {A} p half E (c : M W A) (f : A → M W ()) (P : A → Prop) :
  frames same_mounts c → (∀ w a w', c w = (Ret a, w') → P a) → (∀ a, P a → adds p half E (f a)) → adds p half E (c ≫= f).
Proof.
  intros Hc HP Hf w o w' [(a & w1 & Ha & Hr)|(o1 & Ha & _ & Ho)]%M_bind_split.
  - destruct (Hf a (HP _ _ _ Ha) _ _ _ Hr) as [Hq Hp]. apply Hc in Ha. split; [intros q Hn; by rewrite Hq, Ha by done|].
    by rewrite Ha in Hp.
  - apply Hc in Ha. by apply adds_fails.
Qed.
Lemma adds_then {A} p half E (c : M W A) (f : A → M W ()) :
  frames same_mounts c → (∀ a, adds p half E (f a)) → adds p half E (c ≫= f).
Proof. intros Hc Hf. by apply (adds_after p half E c f (λ _, True)). Qed.

Lemma adds_law p (half : Prop) (E : list string → Prop) os e (c : M W ()) (f : error → M W ()) :
  E e → "remount" ∉ os → ("bind" ∈ os → half) → (∀ w o w', c w = (o, w') → mounting p os e (is_ret o) w w') →
  (∀ err w o w', f err w = (o, w') → is_ret o = false ∧ same_mounts w w') → adds p half E (report c f).
Proof.
  intros He Hre Hhalf Hc Hf w o w' Hr.
  assert (∃ o1 w1, c w = (o1, w1) ∧ is_ret o = is_ret o1 ∧ same_mounts w1 w') as (o1 & w1 & (Hq & _ & Hp)%Hc & -> & Hm).
  { apply report_spec in Hr as [([] & -> & Hr)|[(err & w1 & Hr & [? ?]%Hf)|[Hr ->]]]; by eexists _, _. }
  split; [intros q Hn; by rewrite Hm, Hq|]. apply mount_step_plain in Hp; [|done]. rewrite Hm. cbv zeta. destruct (is_ret o1); [eauto|naive_solver].
Qed.

Lemma after_logout_mounts h message (e : error) {A} : frames same_mounts (after_logout h message (@fail W A e)).
Proof. intros w o w' (_ & Hm & _)%after_logout_spec. exact Hm. Qed.
Lemma after_logout_fails h message (e : error) {A} w (o : outcome A) w' :
  after_logout h message (fail e) w = (o, w') → is_ret o = false ∧ same_mounts w w'.
Proof. by intros (? & ? & _)%after_logout_spec. Qed.

Lemma wait_for_device_mounts ctx att mp st h : frames same_mounts (wait_for_device ctx att mp st h).
Proof.
  unfold wait_for_device. apply (frames_bind same_mounts); [|intros dev; apply unchanged_mounts].
  - case_match; [|apply (frames_lift same_mounts (Ret _))]. apply (frames_report same_mounts); [apply unchanged_mounts, WaitForDevicePath_stays|].
    intros e. apply after_logout_mounts.
  - stay; [apply WaitForVolumeLogin_stays|apply WaitForPath_stays].
Qed.

Lemma stage_raw_block_adds h d p : adds p True (eq (MakeMountArgs d p "" ["bind"])) (stage_raw_block h d p).
Proof.
  unfold stage_raw_block. apply adds_then; [|intros _].
  - apply (frames_report same_mounts); [apply unchanged_mounts, CreateFilePath_stays|intros e; apply after_logout_mounts].
  - eapply adds_law; [reflexivity| |done|intros w o w'; apply block_mount_law|intros err w o w'; apply after_logout_fails]. set_solver.
Qed.

Definition fs_entry (d p : string) (mnt : MountVolume) : list string :=
  let fsType := ValidateFsType (mv_FsType mnt) in MakeMountArgs d p fsType (xfs_options fsType (mv_MountFlags mnt) ++ ["defaults"]).

Lemma xfs_flags fsType opt flags : opt ≠ "nouuid" → opt ≠ "defaults" → opt ∈ xfs_options fsType flags ++ ["defaults"] ↔ opt ∈ flags.
Proof. intros Hn Hd. unfold xfs_options. case_decide; [case_match|]; set_solver. Qed.

Lemma stage_filesystem_adds h d p mnt : "remount" ∉ mv_MountFlags mnt →
  adds p ("bind" ∈ mv_MountFlags mnt) (eq (fs_entry d p mnt)) (stage_filesystem h d p mnt).
Proof.
  intros Hre. unfold stage_filesystem. apply adds_then; [|intros _; apply adds_then; [|intros r]].
  - unfold staging_directory. apply (frames_bind same_mounts); [apply unchanged_mounts; stay|]. intros [e|[]]; [|apply (frames_lift same_mounts (Ret _))].
    case_match; [|apply after_logout_mounts]. apply (frames_report same_mounts); [apply unchanged_mounts; stay|intros e'; apply after_logout_mounts].
  - apply unchanged_mounts. stay. apply getDiskFormat_stays.
  - cbv zeta. case_decide.
    + intros w o w' [Ho Hm]%after_logout_fails. by apply adds_fails.
    + eapply adds_law; [reflexivity| | |intros w o w'; apply format_mount_law|intros err w o w'; apply after_logout_fails]; by rewrite xfs_flags.
Qed.

(** ** The device *)

(** A device of the target, under the name that staging waits for. *)
Definition device_of (sd : Disk) (dev : string) : Prop :=
  ∃ re line whole f groups, Compile ("(" +:+ by_path_name sd +:+ "\d+)") = Some re ∧
    FindStringSubmatch re line = Some (whole :: f :: groups) ∧ dev = DISK_BY_PATH_FOLDER +:+ f.

(** The target of the publish context, at the address that the node reaches it. *)
Definition is_target (m : NodeMetadata) (pc : gmap string string) (sd : Disk) : Prop :=
  ∃ info, ExtractISCSIInformation pc = Ret info ∧ disk_IQN sd = disk_IQN info ∧ disk_Port sd = disk_Port info ∧
    if EqualFold (PreferredNodeIpFamily m) Ipv6Stack then ConvertIscsiIpFromIpv4ToIpv6 (disk_IscsiIp info) = Ret (disk_IscsiIp sd)
    else disk_IscsiIp sd = disk_IscsiIp info.

(** The device that the publish context names. *)
Definition names_device (m : NodeMetadata) (pc : gmap string string) (dev : string) : Prop :=
  if decide (default attachmentTypeISCSI (pc !! attachmentType) = attachmentTypeISCSI) then
    if decide (multipath_enabled pc = Some true) then HasPrefix dev "/dev/mapper/" = true
    else ∃ sd, is_target m pc sd ∧ device_of sd dev
  else pc !! device = Some dev.

Lemma poll_Ret {A} ctx interval (c : M W (option A)) w a w' :
  PollImmediateUntil ctx interval c w = (Ret a, w') → ∃ w1 w2, c w1 = (Ret (Some a), w2).
Proof.
  unfold PollImmediateUntil. intros (r & w1 & Hc & Hr)%M_bind_Ret_inv. destruct r as [b|]; [injection Hr as <- <-; eauto|].
  revert Hr. generalize (ctx_ticks ctx interval w1). intros n. clear Hc. revert w1.
  induction n as [|n IH]; intros w1; [done|]. simpl. intros (r & w2 & Hc & Hr)%M_bind_Ret_inv.
  destruct r as [b|]; [injection Hr as <- <-; eauto|by eapply IH].
Qed.

Lemma first_device_name_Some re lines f : first_device_name re lines = Some f →
  ∃ line whole groups, FindStringSubmatch re line = Some (whole :: f :: groups).
Proof.
  induction lines as [|line lines IH]; simpl; [done|]. destruct (FindStringSubmatch re line) as [[|whole [|g groups]]|] eqn:E; try done.
  intros [= ->]. eauto.
Qed.

Lemma GetIscsiDevicePath_Ret sd w dev w' : GetIscsiDevicePath (Some sd) w = (Ret dev, w') → device_of sd dev.
Proof.
  unfold GetIscsiDevicePath. intros (sd' & w1 & [= <- <-] & Hr)%M_bind_Ret_inv. apply M_bind_Ret_inv in Hr as ([out err] & w2 & _ & Hr).
  destruct err; [done|]. apply M_bind_Ret_inv in Hr as (re & w3 & [Hre ->]%lift_Ret_inv & Hr).
  destruct (first_device_name _ _) as [f|] eqn:Ef; [|done]. injection Hr as <- _.
  apply first_device_name_Some in Ef as (line & whole & groups & Hf). unfold MustCompile in Hre.
  destruct (Compile _) eqn:Ec in Hre; [|done]. injection Hre as ->. by exists re, line, whole, f, groups.
Qed.

Lemma WaitForDevicePath_Ret ctx d sd adm w dev w' :
  WaitForDevicePathToExist ctx (iSCSIMounter d adm) (Some sd) w = (Ret dev, w') → device_of sd dev.
Proof.
  intros (w1 & w2 & Hr)%poll_Ret. apply M_bind_Ret_inv in Hr as (r & w3 & Ht & Hr).
  apply try_spec in Ht as [(a & [= ->] & Ht)|[(e & [= ->] & Ht)|[_ ?]]]; [..|done].
  - injection Hr as -> _. by eapply GetIscsiDevicePath_Ret.
  - by case_match.
Qed.

Lemma GetMultipath_Ret ctx p w dev w' :
  GetMultipathIscsiDevicePath ctx iSCSIUHPMounter p w = (Ret dev, w') → HasPrefix dev "/dev/mapper/" = true.
Proof.
  intros (w1 & w2 & Hr)%poll_Ret. apply M_bind_Ret_inv in Hr as (r & w3 & Ht & Hr).
  apply try_spec in Ht as [(a & [= ->] & Ht)|[(e & [= ->] & Ht)|[_ ?]]]; [..|done|done].
  injection Hr as -> _. apply M_bind_Ret_inv in Ht as (name & w4 & _ & Ht). destruct (HasPrefix name _) eqn:E; [|done]. by injection Ht as <- _.
Qed.

(** What is known of a staging before the lock is taken. *)
Definition staging_of (m : NodeMetadata) (pc : gmap string string) (att : string) (mp : bool) (st : staging) : Prop :=
  if decide (att = attachmentTypeISCSI) then
    if mp then st_handler st = iSCSIUHPMounter ∧ HasPrefix (st_devicePath st) "/dev/mapper/" = true
    else ∃ sd, is_target m pc sd ∧ st_handler st = iSCSIMounter (Some sd) "" ∧ st_scsiInfo st = Some sd
  else st_handler st = pvMounter ∧ pc !! device = Some (st_devicePath st).

Lemma new_handler_Ret att sd mp w h w' : new_handler att sd mp w = (Ret h, w') → DefaultMounterFactory att sd mp = Ret h.
Proof. by intros [[? ?]%lift_Ret_inv|(e & w1 & _ & ?)]%report_Ret. Qed.

Lemma get_staging_stays ctx m att mp pc : frames unchanged (get_staging ctx m att mp pc).
Proof.
  unfold get_staging, multipath_staging, iscsi_staging, paravirtualized_staging, unknown_attachment, new_handler.
  stay; apply GetMultipath_stays.
Qed.

Lemma iscsi_staging_Ret m pc w st w' : iscsi_staging m pc w = (Ret st, w') →
  ∃ sd, is_target m pc sd ∧ st_handler st = iSCSIMounter (Some sd) "" ∧ st_scsiInfo st = Some sd.
Proof.
  unfold iscsi_staging. intros (info & w1 & Hi & Hr)%M_bind_Ret_inv. apply report_Ret in Hi as [[Hi ->]%lift_Ret_inv|(e & w2 & _ & ?)]; [|done].
  apply M_bind_Ret_inv in Hr as (sd & w2 & Hsd & Hr). apply M_bind_Ret_inv in Hr as (h & w3 & [= <-]%new_handler_Ret & Hr).
  injection Hr as <- _. exists sd. split_and!; [|done|done]. exists info. split; [done|].
  destruct (EqualFold _ _); [|by injection Hsd as <- _].
  apply M_bind_Ret_inv in Hsd as (ip & w4 & Hip & Hsd). apply report_Ret in Hip as [[Hip ->]%lift_Ret_inv|(e & w5 & _ & ?)]; [|done].
  by injection Hsd as <- _.
Qed.

Lemma get_staging_Ret ctx m att mp pc w st w' : get_staging ctx m att mp pc w = (Ret st, w') → staging_of m pc att mp st.
Proof.
  unfold get_staging, staging_of. case_decide as Ha; [destruct mp|case_decide as Hp; [|done]].
  - intros (h & w1 & [= <-]%new_handler_Ret & Hr)%M_bind_Ret_inv. apply M_bind_Ret_inv in Hr as (devs & w2 & _ & Hr).
    apply M_bind_Ret_inv in Hr as (dev & w3 & Hd & Hr). apply report_Ret in Hd as [Hd|(e & w4 & _ & ?)]; [|done].
    injection Hr as <- _. split; [done|]. by eapply GetMultipath_Ret.
  - apply iscsi_staging_Ret.
  - unfold paravirtualized_staging. destruct (pc !! device) as [dev|]; [|done].
    intros (h & w1 & Hh%new_handler_Ret & Hr)%M_bind_Ret_inv. subst att. unfold DefaultMounterFactory in Hh. simpl in Hh.
    injection Hh as <-. by injection Hr as <- _.
Qed.
(** ** Staging *)

Definition stage_path (req : BlockStageRequest) (cap : NodeCapability) : string :=
  if is_raw_block cap then GetPathForBlock (bsr_StagingTargetPath req) else bsr_StagingTargetPath req.

Definition stage_entry (m : NodeMetadata) (req : BlockStageRequest) (cap : NodeCapability) (e : list string) : Prop :=
  ∃ dev, names_device m (bsr_PublishContext req) dev ∧
    match cap with
    | AccessBlock => e = MakeMountArgs dev (stage_path req cap) "" ["bind"]
    | AccessMount (Some mnt) => e = fs_entry dev (stage_path req cap) mnt
    | _ => False
    end.

Lemma wait_for_device_Ret ctx m pc mp st h w dev w' :
  let att := default attachmentTypeISCSI (pc !! attachmentType) in
  staging_of m pc att mp st → multipath_enabled pc = Some mp → target_of h = target_of (st_handler st) →
  wait_for_device ctx att mp st h w = (Ret dev, w') → names_device m pc dev.
Proof.
  intros att Hst Hmp Ht. unfold wait_for_device. intros (d & w1 & Hd & Hr)%M_bind_Ret_inv.
  apply M_bind_Ret_inv in Hr as (_ & w2 & _ & Hr). apply M_bind_Ret_inv in Hr as ([] & w3 & _ & Hr); [|done]. injection Hr as -> _.
  unfold names_device. fold att. rewrite Hmp. unfold staging_of in Hst. destruct (decide (att = attachmentTypeISCSI)) as [Ha|Ha].
  - rewrite (bool_decide_eq_true_2 _ Ha) in Hd. destruct mp; simpl in Hd.
    + injection Hd as <- _. rewrite decide_True by done. by apply Hst.
    + rewrite decide_False by done. destruct Hst as (sd & Hsd & Hh & Hinfo). exists sd. split; [done|]. rewrite Hh in Ht. rewrite Hinfo in Hd.
      destruct h as [[d|] adm| |]; [|simpl in Ht; set_solver..].
      apply report_Ret in Hd as [Hd|(e & w4 & _ & Hf)]; [by eapply WaitForDevicePath_Ret|]. by apply after_logout_spec in Hf as [? _].
  - rewrite bool_decide_eq_false_2 in Hd by done. injection Hd as <- _. by apply Hst.
Qed.

Lemma block_stage_sessions ctx req cap att mp st w o w' : block_stage ctx req cap att mp st w = (o, w') →
  match o with
  | Ret _ => sessions w' = sessions w ∨ sessions w' = target_of (st_handler st) ∪ sessions w
  | Err e => sessions w' ⊆ sessions w ∨ says_logout_failed e
  | Panic => True
  end.
Proof.
  unfold block_stage. set (T := target_of (st_handler st)). intros Hr.
  assert (frames unchanged (if is_raw_block cap then mret false else internal (IsMounted (st_handler st) (st_devicePath st) (bsr_StagingTargetPath req)))) as Hm.
  { stay. apply IsMounted_stays. }
  apply M_bind_cases in Hr as [(b & w1 & [_ Hs]%Hm & Hr)|(o1 & [_ Hs]%Hm & Hn)]; [|rewrite Hs; destruct o; naive_solver].
  destruct b; [injection Hr as <- <-; by left|]. rewrite <-Hs. clear Hm Hs w.
  apply M_bind_split in Hr as [(h & w2 & [[_ Hs] Ht]%login_spec & Hr)|(o1 & Hl & Hn1 & Hn)].
  2:{ apply login_spec in Hl. destruct o as [|e|]; [done|left|done]. destruct o1; [done|by destruct Hl as [_ ->]..]. }
  assert (closes (target_of h) (devicePath ← wait_for_device ctx att mp st h;
    if is_raw_block cap then stage_raw_block h devicePath (GetPathForBlock (bsr_StagingTargetPath req)) else
    mnt ← lift (deref (GetMount cap)); stage_filesystem h devicePath (bsr_StagingTargetPath req) mnt)) as Hc.
  { apply closes_bind; [apply wait_for_device_closes|]. intros dev. case_match; [apply stage_raw_block_closes|].
    apply closes_bind; [destruct (GetMount cap); [apply (closes_ret _ m)|apply closes_panic]|]. intros mnt. apply stage_filesystem_closes. }
  apply Hc in Hr. rewrite Hs, Ht in Hr. fold T in Hr. destruct o as [|e|]; [by right| |done].
  destruct Hr as [->|[_ ?]]; [left; set_solver|by right].
Qed.
Lemma login_mounts h pc : frames same_mounts (login h pc).
Proof. intros w o w' Hl%login_spec. destruct o; [destruct Hl as [[Hm _] _]|destruct Hl as [Hm _]..]; exact Hm. Qed.

(** What the mount of a staged volume is asked for; and whether an error may leave it: a bind
    mount that fails halfway. *)
Definition no_remount (cap : NodeCapability) : Prop := ∀ mnt, cap = AccessMount (Some mnt) → "remount" ∉ mv_MountFlags mnt.
Definition asks_bind (cap : NodeCapability) : Prop :=
  match cap with AccessBlock => True | AccessMount (Some mnt) => "bind" ∈ mv_MountFlags mnt | _ => False end.

Lemma adds_imp p half (E E' : list string → Prop) c : (∀ e, E e → E' e) → adds p half E c → adds p half E' c.
Proof. intros HE Hc w o w' [Hq Hp]%Hc. split; [done|]. cbv zeta in *. destruct (is_ret o); naive_solver. Qed.

Lemma stage_device_adds ctx m req cap mp st h :
  let pc := bsr_PublishContext req in let att := default attachmentTypeISCSI (pc !! attachmentType) in
  staging_of m pc att mp st → multipath_enabled pc = Some mp → target_of h = target_of (st_handler st) → no_remount cap →
  adds (stage_path req cap) (asks_bind cap) (stage_entry m req cap)
    (devicePath ← wait_for_device ctx att mp st h;
     if is_raw_block cap then stage_raw_block h devicePath (GetPathForBlock (bsr_StagingTargetPath req)) else
     mnt ← lift (deref (GetMount cap)); stage_filesystem h devicePath (bsr_StagingTargetPath req) mnt).
Proof.
  intros pc att Hst Hmp Ht Hre. eapply adds_after; [apply wait_for_device_mounts|intros w a w'; by apply (wait_for_device_Ret ctx m pc mp st h)|].
  intros dev Hdev. destruct cap as [|[mnt|]|].
  - eapply adds_imp; [|apply stage_raw_block_adds]. intros e <-. by exists dev.
  - eapply adds_imp; [|apply (stage_filesystem_adds h dev (bsr_StagingTargetPath req) mnt); by apply Hre]. intros e <-. by exists dev.
  - by intros w o w' [= <- <-]; apply adds_fails.
  - by intros w o w' [= <- <-]; apply adds_fails.
Qed.

(** The staging path is a mount point already, of the device that the context names. *)
Definition already_mounted (m : NodeMetadata) (pc : gmap string string) (p : string) w w' : Prop :=
  ∃ link dev l w1 w2, names_device m pc link ∧ (dev = link ∨ EvalSymlinks link w1 = (Ret dev, w2)) ∧
    unchanged w w2 ∧ mounter_List w2 = (Ret l, w') ∧ {| mp_Device := dev; mp_Path := p |} ∈ l.

Lemma mounted_device_Ret dev p l : mounted_device dev p l = Ret true → {| mp_Device := dev; mp_Path := p |} ∈ l.
Proof.
  induction l as [|[d q] l IH]; simpl; [done|]. repeat case_decide; [|done|intros; right; by apply IH]. intros _. simplify_eq. left.
Qed.

Lemma IsMounted_Ret m pc mp st p w w' :
  staging_of m pc (default attachmentTypeISCSI (pc !! attachmentType)) mp st → multipath_enabled pc = Some mp →
  IsMounted (st_handler st) (st_devicePath st) p w = (Ret true, w') → already_mounted m pc p w w'.
Proof.
  intros Hst Hmp Hr.
  assert (∃ link dev l w1 w2, names_device m pc link ∧ (dev = link ∨ EvalSymlinks link w1 = (Ret dev, w2)) ∧ unchanged w w2 ∧
    mounter_List w2 = (Ret l, w') ∧ mounted_device dev p l = Ret true) as (link & dev & l & w1 & w2 & Hn & He & Hu & Hl & Hd%mounted_device_Ret);
    [|by exists link, dev, l, w1, w2].
  unfold IsMounted, is_mounted in Hr. apply M_bind_Ret_inv in Hr as (r & w1 & Ht & Hr).
  apply (frames_try unchanged) in Ht; [|apply disk_host_reads]. destruct r as [e|[]]; [by case_match|done|].
  apply M_bind_Ret_inv in Hr as (dev & w2 & Hres & Hr). apply M_bind_Ret_inv in Hr as (l & w3 & Hl & Hr).
  apply report_Ret in Hl as [Hl|(? & ? & _ & ?)]; [|done]. apply lift_Ret_inv in Hr as [Hr ->].
  assert (frames unchanged (match st_handler st with iSCSIMounter disk _ => iSCSI_resolve disk | iSCSIUHPMounter => mret (st_devicePath st)
    | pvMounter => pv_resolve (st_devicePath st) end)) as Hstay by (unfold iSCSI_resolve, pv_resolve; stay; apply GetIscsiDevicePath_stays).
  apply Hstay in Hres as Hu. assert (unchanged w w2) by (by trans w1).
  unfold names_device. rewrite Hmp. unfold staging_of in Hst. case_decide as Ha; [destruct mp|].
  - destruct Hst as [Hh Hp]. rewrite Hh in Hres. injection Hres as <- <-. exists (st_devicePath st), (st_devicePath st), l, w1, w1.
    split_and!; [by rewrite decide_True|by left|done..].
  - destruct Hst as (sd & Hsd & Hh & _). rewrite Hh in Hres. apply M_bind_Ret_inv in Hres as (link & w4 & Hp & Hres).
    apply report_Ret in Hp as [Hp%GetIscsiDevicePath_Ret|(? & ? & _ & Hp)]; [|by destruct (Contains _ _)].
    apply report_Ret in Hres as [Hres|(? & ? & _ & ?)]; [|done]. exists link, dev, l, w4, w2.
    split_and!; [rewrite decide_False by done; by exists sd|by right|done..].
  - destruct Hst as [Hh Hp]. rewrite Hh in Hres. apply report_Ret in Hres as [Hres|(? & ? & _ & ?)]; [|done].
    exists (st_devicePath st), dev, l, w1, w2. split_and!; [done|by right|done..].
Qed.

Lemma block_stage_mounts ctx m req cap mp st w o w' :
  let pc := bsr_PublishContext req in let att := default attachmentTypeISCSI (pc !! attachmentType) in let p := stage_path req cap in
  staging_of m pc att mp st → multipath_enabled pc = Some mp → no_remount cap → block_stage ctx req cap att mp st w = (o, w') →
  (∀ q, q ≠ p → block_mounts w' q = block_mounts w q) ∧
  let made := ∃ e, stage_entry m req cap e ∧ block_mounts w' p = e :: block_mounts w p in
  if is_ret o then (unchanged w w' ∧ is_raw_block cap = false ∧ already_mounted m pc p w w') ∨ made
  else block_mounts w' p = block_mounts w p ∨ (asks_bind cap ∧ made).
Proof.
  intros pc att p Hst Hmp Hre. unfold block_stage. set (c := if is_raw_block cap then _ else _). intros Hr.
  assert (frames unchanged c) as Hm by (unfold c; stay; apply IsMounted_stays).
  apply M_bind_split in Hr as [(b & w1 & Hb & Hr)|(o1 & [Hb _]%Hm & Ho1 & Ho)]; [|rewrite Ho; split; [by intros|by left]].
  apply Hm in Hb as Hm1. destruct b.
  - injection Hr as <- <-. split; [intros q _; apply Hm1|]. left. split; [done|]. unfold c, p, stage_path in *. destruct (is_raw_block cap); [done|].
    split; [done|]. apply internal_spec in Hb as [(? & [= <-] & Hb)|[? _]]; [|done]. by eapply IsMounted_Ret.
  - destruct Hm1 as [Hm1 _]. apply M_bind_split in Hr as [(h & w2 & Hl & Hr)|(o1 & Hl & Ho1 & Ho)].
    2:{ apply login_mounts in Hl. assert (same_mounts w w') by (by trans w1). rewrite Ho. split; [by intros|by left]. }
    apply login_mounts in Hl as Hm2. apply login_spec in Hl as [_ Ht].
    apply (stage_device_adds ctx m req cap mp st h Hst Hmp Ht Hre) in Hr as [Hq Hp]. fold p in Hq, Hp. assert (same_mounts w w2) as Hs by (by trans w1).
    split; [intros q Hn; by rewrite Hq, Hs|]. rewrite Hs in Hp. destruct (is_ret o); [by right|done].
Qed.

(** The two parts of a staging: what the context says, and the work with the lock. *)
Lemma stage_inv ctx req s o s' : Block_NodeStageVolume ctx req s = (o, s') →
  nd_volumeLocks s' = nd_volumeLocks s ∧
  ((is_ret o = false ∧ unchanged (nd_host s) (nd_host s')) ∨
   ∃ cap mp st w, bsr_VolumeCapability req = Some cap ∧ multipath_enabled (bsr_PublishContext req) = Some mp ∧
     staging_of (nd_nodeMetadata s) (bsr_PublishContext req) (default attachmentTypeISCSI (bsr_PublishContext req !! attachmentType)) mp st ∧
     unchanged (nd_host s) w ∧
     block_stage ctx req cap (default attachmentTypeISCSI (bsr_PublishContext req !! attachmentType)) mp st w = (o, nd_host s')).
Proof.
  unfold Block_NodeStageVolume. do 3 (case_decide; [by intros [= <- <-]; split; [|left]|]).
  destruct (bsr_VolumeCapability req) as [cap|]; [|by intros [= <- <-]; split; [|left]].
  destruct (multipath_enabled _) as [mp|]; [|by intros [= <- <-]; split; [|left]]. intros Hr.
  apply M_bind_split in Hr as [(m & s1 & [= <- <-] & Hr)|(? & [= <- _] & ? & _)]; [|done].
  apply M_bind_split in Hr as [(st & s1 & Hst & Hr)|(o1 & Hst & _ & ->)]; apply host_inv in Hst as (Hst & Hl1 & _).
  2:{ apply get_staging_stays in Hst. split; [done|]. by left. }
  apply get_staging_stays in Hst as Hu. apply get_staging_Ret in Hst.
  apply with_volume_lock_spec in Hr as [Hl [[-> ->]|(sa & sb & Hr & Ha & _ & Hb)]].
  - split; [congruence|]. by left.
  - split; [congruence|]. right. apply host_inv in Hr as (Hr & _). rewrite Ha, <-Hb in Hr. by exists cap, mp, st, (nd_host s1).
  - by intros s2 o2 s3 _ (_ & Hl2 & _)%host_inv.
Qed.

(** C16: Staging a block volume, with mount flags that do not ask to remount, either leaves
    the node as it is, because the staging path is a mount point of the device that the
    publish context names already, or mounts this device there, once (the device of the target of iSCSI, at its IPv6 address
    if the node prefers it; a multipath device; or the paravirtualized device), a raw block volume to the file below
    the path, with the type and the options that were asked for.  After an error there is no
    new mount, except that a bind mount (of a raw block volume, or by the mount flags) that
    fails halfway may stay.  No other path is touched, and the lock on the volume is given back. *)
Theorem Block_NodeStageVolume_mounts ctx req s o s' :
  (∀ mnt, bsr_VolumeCapability req = Some (AccessMount (Some mnt)) → "remount" ∉ mv_MountFlags mnt) →
  Block_NodeStageVolume ctx req s = (o, s') →
  let w := nd_host s in let w' := nd_host s' in
  nd_volumeLocks s' = nd_volumeLocks s ∧
  ((is_ret o = false ∧ ∀ q, block_mounts w' q = block_mounts w q) ∨
   ∃ cap, bsr_VolumeCapability req = Some cap ∧
     let p := stage_path req cap in
     let made := ∃ e, stage_entry (nd_nodeMetadata s) req cap e ∧ block_mounts w' p = e :: block_mounts w p in
     (∀ q, q ≠ p → block_mounts w' q = block_mounts w q) ∧
     if is_ret o then
       (is_raw_block cap = false ∧ block_mounts w' p = block_mounts w p ∧
        ∃ w1, unchanged w w1 ∧ already_mounted (nd_nodeMetadata s) (bsr_PublishContext req) p w1 w') ∨ made
     else asks_bind cap ∧ made).
Proof.
  intros Hre [Hl [[Ho [Hu _]]|(cap & mp & st & w1 & Hcap & Hmp & Hst & Hu & Hr)]]%stage_inv; (split; [done|]); [by left|].
  assert (no_remount cap) as Hno by (by intros mnt ->; apply Hre). destruct Hu as [Hm Hs].
  eapply block_stage_mounts in Hr as [Hq Hp]; [|done..]. cbv zeta in *. rewrite Hm in Hp.
  assert (∀ q, q ≠ stage_path req cap → block_mounts (nd_host s') q = block_mounts (nd_host s) q) as Hoth by (intros q Hn; by rewrite Hq, Hm).
  destruct (is_ret o).
  - right. exists cap. split; [done|]. split; [done|]. destruct Hp as [([Hk _] & Hraw & Ha)|?]; [left|by right].
    split; [done|]. split; [by rewrite Hk|]. exists w1. by split.
  - destruct Hp as [Hp|[Hb Hp]]; [left|right; by exists cap]. split; [done|]. intros q.
    destruct (decide (q = stage_path req cap)) as [->|Hn]; [done|by apply Hoth].
Qed.

(** C17: A staging that returns an error leaves no iSCSI session that was not there before,
    unless the error says that the logout failed; a staging that succeeds has opened at most that of the volume's
    own target. *)
Theorem failed_staging_logs_out ctx req s o s' :
  Block_NodeStageVolume ctx req s = (o, s') →
  let S := sessions (nd_host s) in let S' := sessions (nd_host s') in
  match o with
  | Ret _ => S' = S ∨ ∃ sd, is_target (nd_nodeMetadata s) (bsr_PublishContext req) sd ∧ S' = {[portal sd]} ∪ S
  | Err e => S' ⊆ S ∨ says_logout_failed e
  | Panic => True
  end.
Proof.
  intros [_ [[Ho [_ ->]]|(cap & mp & st & w1 & Hcap & Hmp & Hst & [_ <-] & Hr)]]%stage_inv; [by destruct o; [|left|]|].
  apply block_stage_sessions in Hr. destruct o; [|done..]. destruct Hr as [->| ->]; [by left|].
  unfold staging_of in Hst. case_decide; [destruct mp; [destruct Hst as [-> _]|destruct Hst as (sd & Hsd & -> & _)]|destruct Hst as [-> _]]; simpl.
  - left. set_solver.
  - right. eauto.
  - left. set_solver.
Qed.
(** ** Unmounting *)

Lemma WaitForDirectoryDeletion_stays p : frames unchanged (WaitForDirectoryDeletion p).
Proof. unfold WaitForDirectoryDeletion. generalize 3. induction n; simpl; stay. Qed.

Definition pops p w w' : Prop := mounts_at p tail w w'.

(** One mount is taken away, if there was one. *)
Lemma UnmountPath_spec p w o w' : UnmountPath p w = (o, w') →
  (unchanged w w' ∨ pops p w w') ∧ (is_ret o = true → pops p w w').
Proof.
  assert (∀ w1 w2, unchanged w1 w2 → block_mounts w1 p = [] → pops p w1 w2) as Hnone.
  { intros w1 w2 [Hm Hs] Hp. split_and!; [by rewrite Hm, Hp|by intros|done]. }
  unfold UnmountPath. intros Hr. destruct disk_host_reads as (Hlik & _ & Hex & _ & _ & _ & Hrem & _).
  apply M_bind_split in Hr as [(b & w1 & Hb & Hr)|(o1 & Hb & _ & ->)].
  2:{ split; [left|done]. eapply (frames_report unchanged); [apply Hex|intros; apply (frames_fail unchanged)|done]. }
  apply report_Ret in Hb as [Hb|(e & w2 & _ & ?)]; [|done]. apply Hex in Hb as Hu1.
  destruct b; simpl in Hr; [|injection Hr as <- <-; split; [by left|intros _; by eapply Hnone, block_exists_law]].
  apply M_bind_split in Hr as [(notMnt & w2 & Hu2%Hlik & Hr)|(o1 & Hu2%Hlik & _ & ->)]; [|split; [left; by trans w1|done]].
  assert (unchanged w w2) as Hu by (by trans w1). destruct notMnt.
  { apply Hrem in Hr as Hu3. split; [left; by trans w2|]. destruct o as [[]| |]; try done. intros _. apply block_remove_law in Hr.
    eapply Hnone; [by trans w2|]. destruct Hu as [Hm _]. by rewrite <-Hm. }
  apply M_bind_split in Hr as [([] & w3 & Hun & Hr)|(o1 & Hun & Ho1 & ->)]; apply block_unmount_law in Hun; [|rewrite Ho1 in Hun; split; [left; by trans w2|done]].
  assert (unchanged w3 w') as Hu3.
  { revert Hr. apply (frames_bind unchanged); [apply (frames_try unchanged), Hlik|]. intros [e|[]]; [stay|apply WaitForDirectoryDeletion_stays|stay]. }
  assert (pops p w w') as Hp; [|by split; [right|]].
  apply (unchanged_mounts_at p tail w w2 w3 Hu) in Hun as (Hp & Hq & Hs). destruct Hu3 as [Hm Hs3].
  split_and!; [by rewrite Hm|intros q Hn; by rewrite Hm, Hq|congruence].
Qed.

Lemma find_mount_point_None p l : find_mount_point p l = None → p ∉ mp_Path <$> l.
Proof.
  induction l as [|mp l IH]; simpl; [by intros _ ?%elem_of_nil|]. case_decide; [done|]. intros Hn [->|Hi]%elem_of_cons; [done|by apply IH].
Qed.

Lemma isISCSISessionActive_Ret path w : ∃ b w', isISCSISessionActive path w = (Ret b, w').
Proof.
  unfold isISCSISessionActive, mbind, M_bind, run_command.
  destruct (FindFromDevicePath path) as [[|? [|ip [|port [|iqn [|]]]]]| |]; try by eexists _, _.
  destruct (exec_Command _ _ w) as [[out [err|]] w1]; by eexists _, _.
Qed.
Lemma collect_path_foreign skip d acc path w w' : collect_path skip d acc path w ≠ (Err ErrMountPointNotFound, w').
Proof.
  unfold collect_path, mbind, M_bind, try. destruct (EvalSymlinks path w) as [[t|e|] w1] eqn:E; try done.
  - case_decide; [done|]. case_match; [|done]. by destruct (isISCSISessionActive_Ret path w1) as (b & w2 & ->).
  - destruct (foreign_errors w w1 path) as (_ & Hf & _). case_match; [done|]. intros [= -> <-]. by rewrite E in Hf.
Qed.

Lemma disk_by_paths_foreign mp cfg w w' : diskByPathsForMountPoint mp cfg w ≠ (Err ErrMountPointNotFound, w').
Proof.
  unfold diskByPathsForMountPoint, mbind, M_bind.
  destruct (Walk_paths _ w) as [[ps|e|] w1] eqn:Ew; [|destruct (foreign_errors w w1 "/dev/disk/by-path/") as (_ & _ & Hf); congruence|done].
  destruct (foldM _ _ _ _) as [[qs|e|] w2] eqn:Ec; [by case_decide| |done]. intros [= -> <-].
  revert Ec. generalize (@nil string). clear Ew. revert w1. induction ps as [|q ps IH]; intros w1 acc; simpl; [done|].
  unfold mbind, M_bind. destruct (collect_path _ _ _ _ _) as [[acc'|e|] w5] eqn:Eq; [apply IH| |done]. intros [= -> <-].
  by apply collect_path_foreign in Eq.
Qed.

(** Nothing is mounted where no mount point is found. *)
Lemma getMountPoint_missing p w w' : getMountPointForPath p w = (Err ErrMountPointNotFound, w') → block_mounts w p = [].
Proof.
  unfold getMountPointForPath, mbind, M_bind. destruct (mounter_List w) as [[l|e|] w2] eqn:El; [| |done].
  - destruct (find_mount_point p l) as [mp|] eqn:Ef; [done|]. intros _. destruct (block_mounts w p) eqn:Em; [done|].
    exfalso. apply (find_mount_point_None p l Ef). eapply block_list_law; [done|]. by rewrite Em.
  - destruct (foreign_errors w w2 p) as (Hf & _). congruence.
Qed.
Lemma disk_paths_None cfg raw p w w' : disk_paths cfg raw p w = (Ret None, w') → raw = false ∧ block_mounts w p = [].
Proof.
  unfold disk_paths. destruct raw; [by intros (? & ? & _ & ?)%M_bind_Ret_inv|].
  intros (r & w1 & Ht & Hr)%M_bind_Ret_inv. destruct r as [e|]; [|done]. case_decide as He; [|done]. subst e. split; [done|].
  apply try_spec in Ht as [(? & ? & _)|[(e & [= <-] & Ht)|[_ ?]]]; [done| |done].
  unfold GetDiskPathFromMountPath in Ht. apply M_bind_Err in Ht as [Ht|(mp & w2 & _ & Ht)]; [by eapply getMountPoint_missing|].
  case_match; [done|]. by apply disk_by_paths_foreign in Ht.
Qed.

Definition unstaged_targets (diskPath : list string) : targets :=
  match getDevicePathAndAttachmentType diskPath with
  | Ret (att, dev) =>
      if decide (att = attachmentTypeISCSI ∧ HasPrefix dev "/dev/mapper" = false) then
        match ExtractISCSIInformationFromMountPath diskPath with Ret sd => {[portal sd]} | _ => ∅ end
      else ∅
  | _ => ∅
  end.

Lemma unstage_handler_Ret att dev dp w h w' : getDevicePathAndAttachmentType dp = Ret (att, dev) →
  unstage_handler att dev dp w = (Ret h, w') → w' = w ∧ target_of h = unstaged_targets dp.
Proof.
  intros Hd. unfold unstage_handler, unstaged_targets. rewrite Hd. case_decide as Ha.
  - destruct (HasPrefix dev "/dev/mapper") eqn:Hp; [intros [= <- <-]; split; [done|]; by rewrite decide_False by naive_solver|].
    rewrite decide_True by done. intros (sd & w1 & Hi & Hr)%M_bind_Ret_inv.
    apply internal_spec in Hi as [(a & [= <-] & [-> ->]%lift_Ret_inv)|[? _]]; [|done]. by injection Hr as <- <-.
  - case_decide; [|done]. intros [= <- <-]. split; [done|]. by rewrite decide_False by naive_solver.
Qed.

Lemma unmount_and_logout_spec h p w o w' : unmount_and_logout h p w = (o, w') →
  (∀ q, q ≠ p → block_mounts w' q = block_mounts w q) ∧
  (block_mounts w' p = block_mounts w p ∨ block_mounts w' p = tail (block_mounts w p)) ∧
  (sessions w' = sessions w ∨ sessions w' = sessions w ∖ target_of h) ∧
  (is_ret o = true → block_mounts w' p = tail (block_mounts w p) ∧ sessions w' = sessions w ∖ target_of h).
Proof.
  unfold unmount_and_logout. intros Hr.
  apply M_bind_split in Hr as [([] & w1 & Hi & Hr)|(o1 & Hi & Ho1 & ->)]; apply internal_spec in Hi as [([] & Ha & Hi)|(Ha & o2 & Hi & _)];
    try (by subst); apply UnmountPath_spec in Hi as [Hun Hp].
  2:{ destruct Hun as [[Hm Hs]|(Hm & Hq & Hs)]; split_and!; auto; done. }
  destruct (Hp eq_refl) as (Hm & Hq & Hs). clear Hun Hp Ha.
  apply M_bind_split in Hr as [(h1 & w2 & Hi & Hr)|(o1 & Hi & Ho1 & ->)]; apply internal_spec in Hi as [(h2 & Ha & Hi)|(Ha & o2 & Hi & Ho2)];
    try (by subst); apply Logout_spec in Hi.
  2:{ assert (unchanged w1 w') as [Hm' Hs'] by (by destruct o2). split_and!; [intros q Hn; by rewrite Hm', Hq|right; by rewrite Hm'|left; congruence|done]. }
  destruct Hi as [[Hm2 Hs2] _]. assert (unchanged w2 w') as [Hm3 Hs3].
  { apply M_bind_split in Hr as [(h3 & w3 & Hi & [= _ <-])|(o1 & Hi & _)]; apply internal_spec in Hi as [(? & _ & Hi)|(_ & ? & Hi & _)];
      by apply RemoveFromDB_spec in Hi as [? _]. }
  assert (block_mounts w' p = tail (block_mounts w p)) by (by rewrite Hm3, Hm2).
  assert (sessions w' = sessions w ∖ target_of h) by congruence.
  split_and!; [intros q Hn; by rewrite Hm3, Hm2, Hq|by right|by right|done].
Qed.

(** What an unstaging at [p] achieves from [w], when [w1] is the host after the check for a
    raw block volume. *)
Definition unstages cfg (raw : bool) p w w1 (o : outcome ()) w' : Prop :=
  (∀ q, q ≠ p → block_mounts w' q = block_mounts w q) ∧
  (block_mounts w' p = block_mounts w p ∨ block_mounts w' p = tail (block_mounts w p)) ∧
  sessions w' ⊆ sessions w ∧
  (is_ret o = true → ∃ found w2, disk_paths cfg raw p w1 = (Ret found, w2) ∧
    match found with
    | None => raw = false ∧ block_mounts w p = [] ∧ unchanged w w'
    | Some diskPath =>
        (block_mounts w' p = tail (block_mounts w p) ∧ sessions w' = sessions w ∖ unstaged_targets diskPath) ∨
        (raw = false ∧ unchanged w w' ∧ ∃ att dev h, getDevicePathAndAttachmentType diskPath = Ret (att, dev) ∧
           unstage_handler att dev diskPath w2 = (Ret h, w2) ∧ DeviceOpened h dev w2 = (Ret false, w'))
    end).

Lemma unchanged_fails cfg raw p w w1 (o : outcome ()) w' : is_ret o = false → unchanged w w' → unstages cfg raw p w w1 o w'.
Proof. intros Ho [Hm Hs]. split_and!; [intros q _; apply Hm|left; apply Hm|by rewrite Hs|]. by rewrite Ho. Qed.

(** The part that comes after the check. *)
Definition unstage_at (cfg : CSIConfig) (raw : bool) (p : string) : M W () :=
  found ← disk_paths cfg raw p;
  match found with
  | None => mret ()
  | Some diskPath =>
      '(attachment, devicePath) ← internal (lift (getDevicePathAndAttachmentType diskPath));
      h ← unstage_handler attachment devicePath diskPath;
      opened ← (if raw then mret true else internal (DeviceOpened h devicePath));
      if opened : bool then unmount_and_logout h p else mret ()
  end.

Lemma unstage_at_spec cfg raw p w w1 o w' : unchanged w w1 → unstage_at cfg raw p w1 = (o, w') → unstages cfg raw p w w1 o w'.
Proof.
  intros Hu1 Hr. unfold unstage_at in Hr.
  apply M_bind_split in Hr as [(found & w2 & Hf & Hr)|(o1 & Hf & _ & Ho)]; apply disk_paths_stays in Hf as Hu2;
    [|by apply unchanged_fails; [|trans w1]]. assert (unchanged w w2) as Hu by (by trans w1).
  destruct found as [diskPath|].
  2:{ injection Hr as <- <-. destruct Hu as [Hm Hs]. split_and!; [intros q _; apply Hm|left; apply Hm|by rewrite Hs|]. intros _. exists None, w2.
      split; [done|]. apply disk_paths_None in Hf as [-> Hn]. destruct Hu1 as [Hm1 _]. by rewrite <-Hm1. }
  apply M_bind_split in Hr as [([att dev] & w3 & Hd & Hr)|(o1 & Hd & _ & Ho)].
  2:{ apply unchanged_fails; [done|]. trans w2; [done|]. revert Hd. unfold internal. apply (frames_report unchanged); [apply (frames_lift unchanged)|]. intros; apply (frames_fail unchanged). }
  apply internal_spec in Hd as [(? & [= <-] & [Hd ->]%lift_Ret_inv)|[? _]]; [|done].
  apply M_bind_split in Hr as [(h & w4 & Hh & Hr)|(o1 & Hh & _ & Ho)].
  2:{ apply unchanged_fails; [done|]. stays_in Hh; [unfold unstage_handler, unknown_attachment; stay|by trans w2]. }
  apply (unstage_handler_Ret att dev diskPath) in Hh as Hht; [|done]. destruct Hht as [-> Ht].
  apply M_bind_split in Hr as [(opened & w5 & Hop & Hr)|(o1 & Hop & _ & Ho)].
  2:{ apply unchanged_fails; [done|]. stays_in Hop; [stay; apply DeviceOpened_stays|by trans w2]. }
  assert (unchanged w w5) as Hu5 by (stays_in Hop; [stay; apply DeviceOpened_stays|by trans w2]).
  destruct opened.
  - apply unmount_and_logout_spec in Hr as (Hq & Hp & Hses & Hret). destruct Hu5 as [Hm5 Hs5].
    split_and!; [intros q Hn; by rewrite Hq, Hm5|by rewrite <-Hm5|rewrite <-Hs5; destruct Hses as [->| ->]; set_solver|].
    intros Ho. exists (Some diskPath), w2. split; [done|]. left. destruct (Hret Ho) as [Hpt Hst]. split; [by rewrite Hpt, Hm5|by rewrite Hst, Hs5, Ht].
  - injection Hr as <- <-. destruct Hu5 as [Hm5 Hs5]. split_and!; [intros q _; apply Hm5|left; apply Hm5|by rewrite Hs5|].
    intros _. exists (Some diskPath), w2. split; [done|]. right. destruct raw; [done|]. split; [done|]. split; [done|].
    apply internal_spec in Hop as [(? & [= <-] & Hop)|[? _]]; [|done]. by exists att, dev, h.
Qed.

(** Whether the volume is a raw block volume, where an unstaging looks, and what it achieves. *)
Definition is_device (p : string) w : bool := match (hostutil_PathIsDevice p w).1 with Ret b => b | _ => false end.

Lemma block_unstage_spec cfg sp w0 w o w' : unchanged w0 w → block_unstage cfg sp w = (o, w') →
  let raw := is_device (GetPathForBlock sp) w in
  unstages cfg raw (if raw then GetPathForBlock sp else sp) w0 (hostutil_PathIsDevice (GetPathForBlock sp) w).2 o w'.
Proof.
  intros Hu Hr. cbv zeta. unfold block_unstage in Hr. cbv zeta in Hr. unfold is_device.
  destruct (hostutil_PathIsDevice (GetPathForBlock sp) w) as [r w1] eqn:E. assert (unchanged w0 w1) as Hu1.
  { trans w; [done|]. revert E. apply disk_reads. }
  unfold mbind, M_bind at 1, try in Hr. rewrite E in Hr. destruct r as [raw|e|]; simpl.
  - by apply (unstage_at_spec cfg raw _ w0 w1) in Hr.
  - by apply (unstage_at_spec cfg false sp w0 w1) in Hr.
  - injection Hr as <- <-. by apply unchanged_fails.
Qed.
(** ** The handlers *)

Lemma loadCSIConfig_unchanged s o s' : loadCSIConfig s = (o, s') → nd_volumeLocks s' = nd_volumeLocks s ∧ unchanged (nd_host s) (nd_host s').
Proof.
  unfold loadCSIConfig. intros Hr. apply M_bind_split in Hr as [(cfg & s1 & [= <- <-] & Hr)|(? & [= <- _] & ? & _)]; [|done].
  case_match; [by injection Hr as <- <-|].
  assert (frames unchanged (LoadCSIConfigFromConfigMap (nd_csiConfig s))) as Hc by (unfold LoadCSIConfigFromConfigMap; stay).
  apply M_bind_split in Hr as [(cfg & s1 & Hh & [= _ <-])|(o1 & Hh & _)]; apply host_inv in Hh as (Hh%Hc & Hl & _); done.
Qed.

Lemma locked_host {A} v (c : CSIConfig → M W A) s o s' :
  with_volume_lock v (cfg ← get nd_csiConfig; host (c cfg)) s = (o, s') →
  nd_volumeLocks s' = nd_volumeLocks s ∧ ((is_ret o = false ∧ s' = s) ∨ c (nd_csiConfig s) (nd_host s) = (o, nd_host s')).
Proof.
  assert (∀ s o s', (cfg ← get nd_csiConfig; host (c cfg)) s = (o, s') → c (nd_csiConfig s) (nd_host s) = (o, nd_host s') ∧ nd_volumeLocks s' = nd_volumeLocks s) as Hin.
  { clear. intros s o s' (Hr & Hl & _)%(host_inv (c (nd_csiConfig s))). done. }
  intros [Hl [[Ho ->]|(sa & sb & Hr & Ha & Hcfg & Hb)]]%with_volume_lock_spec; [by split; [|left]|..|by intros s1 o1 s2 _ [_ ?]%Hin].
  split; [done|]. right. apply Hin in Hr as [Hr _]. by rewrite Ha, <-Hb, Hcfg in Hr.
Qed.

(** The driver with its configuration, as a handler works with it. *)
Definition loaded s : D := (loadCSIConfig s).2.

Lemma loaded_unchanged s : unchanged (nd_host s) (nd_host (loaded s)).
Proof. unfold loaded. destruct (loadCSIConfig s) as [o s1] eqn:E. by apply loadCSIConfig_unchanged in E as [_ ?]. Qed.

(** A handler that reads the configuration and works with the lock. *)
Lemma configured {A} v (c : CSIConfig → M W A) s o s' :
  (_ ← loadCSIConfig; with_volume_lock v (cfg ← get nd_csiConfig; host (c cfg))) s = (o, s') →
  nd_volumeLocks s' = nd_volumeLocks s ∧
  ((is_ret o = false ∧ unchanged (nd_host s) (nd_host s')) ∨ c (nd_csiConfig (loaded s)) (nd_host (loaded s)) = (o, nd_host s')).
Proof.
  unfold loaded. intros [([] & s1 & Hld & Hr)|(o1 & [Hl1 Hu1]%loadCSIConfig_unchanged & _ & Ho)]%M_bind_split; [|by split; [|left]].
  rewrite Hld. apply loadCSIConfig_unchanged in Hld as [Hl1 Hu1].
  apply locked_host in Hr as [Hl [[Ho ->]|Hc]]; (split; [congruence|]); [by left|by right].
Qed.

(** C18: Unstaging works at the staging path, or, if the file below it is a device (a raw
    block volume), at that file.  If it succeeds, it has looked up the paths of the device
    that is mounted there: nothing was mounted; or the last mount there is taken away and
    the target that these paths name is logged out; or, for a file system, nothing has the
    device open, and the node is as it was.  Whatever the outcome, at most this one mount is taken away, no other
    path is touched, no session is opened, and the lock is given back. *)
Theorem Block_NodeUnstageVolume_frees volumeId stagingTargetPath s o s' :
  Block_NodeUnstageVolume volumeId stagingTargetPath s = (o, s') →
  let w := nd_host s in let w1 := nd_host (loaded s) in let file := GetPathForBlock stagingTargetPath in
  let raw := is_device file w1 in
  nd_volumeLocks s' = nd_volumeLocks s ∧
  unstages (nd_csiConfig (loaded s)) raw (if raw then file else stagingTargetPath) w (hostutil_PathIsDevice file w1).2 o (nd_host s').
Proof.
  cbv zeta. unfold Block_NodeUnstageVolume.
  do 2 (case_decide; [by intros [= <- <-]; split; [|apply unchanged_fails]|]).
  intros [Hl [[Ho Hu]|Hr]]%configured; (split; [done|]); [by apply unchanged_fails|].
  apply (block_unstage_spec _ _ (nd_host s)) in Hr; [done|apply loaded_unchanged].
Qed.
(** ** Publication *)

Definition publish_entry (req : BlockPublishRequest) (cap : NodeCapability) (e : list string) : Prop :=
  match cap with
  | AccessBlock => e = MakeMountArgs (GetPathForBlock (bpr_StagingTargetPath req)) (bpr_TargetPath req) ""
                         ("bind" :: readonly_option (bpr_Readonly req))
  | AccessMount (Some mnt) =>
      let fsType := ValidateFsType (mv_FsType mnt) in
      e = MakeMountArgs (bpr_StagingTargetPath req) (bpr_TargetPath req) fsType
            (xfs_options fsType (mv_MountFlags mnt ++ ["bind"] ++ readonly_option (bpr_Readonly req)))
  | _ => False
  end.

(** A volume is bound at [p]; a part that comes after may fail. *)
Definition binds p (E : list string → Prop) w (o : outcome ()) w' : Prop :=
  sessions w' = sessions w ∧ (∀ q, q ≠ p → block_mounts w' q = block_mounts w q) ∧
  ((∃ e, E e ∧ block_mounts w' p = e :: block_mounts w p) ∨ (is_ret o = false ∧ block_mounts w' p = block_mounts w p)).

Lemma unchanged_binds p E w (o : outcome ()) w' : is_ret o = false → unchanged w w' → binds p E w o w'.
Proof. intros Ho [Hm Hs]. split_and!; [done|intros q _; apply Hm|right; by split]. Qed.
Lemma binds_after p E w1 w2 o w' : unchanged w1 w2 → binds p E w2 o w' → binds p E w1 o w'.
Proof. intros [Hm Hs] (Hs2 & Hq & Hp). split_and!; [congruence|intros q Hn; by rewrite Hq, Hm|by rewrite <-Hm]. Qed.
Lemma binds_before p E w1 o1 w2 o w' : binds p E w1 o1 w2 → is_ret o1 = true → unchanged w2 w' → binds p E w1 o w'.
Proof.
  intros (Hs & Hq & [(e & He & Hp)|[? _]]) Ho [Hm2 Hs2]; [|congruence].
  split_and!; [congruence|intros q Hn; by rewrite Hm2, Hq|left; exists e; by rewrite Hm2].
Qed.

Lemma bind_mount_binds h src p t os (E : list string → Prop) w o w' : "bind" ∈ os →
  E (MakeMountArgs src p t os) → internal (handler_Mount h src p t os) w = (o, w') → binds p E w o w'.
Proof.
  intros Hb HE [(a & -> & Hm)|(Ho & o1 & Hm & Ho1)]%internal_spec; apply block_mount_law in Hm as (Hq & Hs & Hp).
  - split_and!; [done|done|left]. eexists. split; [done|]. by apply mount_step_bind in Hp.
  - split_and!; [done|done|]. apply mount_step_may in Hp as [[Hp|Hp] _]; [by right|left; eauto].
Qed.

Lemma expand_device_stays h v d p raw g m : frames unchanged (expand_device h v d p raw g m).
Proof. unfold expand_device, GetBlockSizeBytes, Resize. stay. apply Rescan_stays. Qed.
Lemma plain_handler_stays att mp : frames unchanged (plain_handler att mp).
Proof. unfold plain_handler, unknown_attachment. stay. Qed.
Lemma resize_published_stays cfg req raw mp : frames unchanged (resize_published cfg req raw mp).
Proof. unfold resize_published. stay; first [apply disk_paths_stays|apply plain_handler_stays|apply expand_device_stays]. Qed.

Lemma block_publish_binds cfg req cap w o w' :
  block_publish cfg req cap w = (o, w') → binds (bpr_TargetPath req) (publish_entry req cap) w o w'.
Proof.
  unfold block_publish. intros [([] & w1 & Hd & Hr)|(o1 & Hd & _ & Ho)]%M_bind_split; (stays_in Hd; [stay|]);
    [|by apply unchanged_binds]. destruct (multipath_enabled _) as [mp|]; [|injection Hr as <- <-; by apply unchanged_binds].
  eapply binds_after; [done|]. clear Hd w H.
  apply M_bind_split in Hr as [(h & w2 & Hh & Hr)|(o1 & Hh & _ & Ho)]; (stays_in Hh; [unfold publish_handler, unknown_attachment; stay|]);
    [|by apply unchanged_binds]. eapply binds_after; [done|]. clear Hh w1 H.
  set (c := if is_raw_block cap then _ else _) in Hr.
  assert (∀ w o w', c w = (o, w') → binds (bpr_TargetPath req) (publish_entry req cap) w o w') as Hc.
  { unfold c. clear c Hr. intros wa oa wb. destruct cap as [|[mnt|]|]; simpl.
    - intros [([] & wc & Hf & Hr)|(o1 & Hf & _ & Ho)]%M_bind_split; (stays_in Hf; [unfold internal; stay; apply CreateFilePath_stays|]).
      + eapply binds_after; [done|]. eapply (bind_mount_binds h); [| |exact Hr]; [left|reflexivity].
      + by apply unchanged_binds.
    - intros Hr. eapply (bind_mount_binds h); [| |exact Hr]; [|reflexivity]. unfold xfs_options. case_decide; [case_match|]; set_solver.
    - intros [= <- <-]. by apply unchanged_binds.
    - intros [= <- <-]. by apply unchanged_binds. }
  apply M_bind_split in Hr as [([] & w3 & Hb%Hc & Hr)|(o1 & Hb%Hc & Ho1 & Ho)].
  - eapply binds_before; [done|done|]. by eapply resize_published_stays.
  - destruct Hb as (Hs & Hq & Hp). split_and!; [done|done|]. destruct Hp as [?|[_ ?]]; auto.
Qed.

Lemma block_unpublish_spec cfg p raw w o w' : block_unpublish cfg p raw w = (o, w') →
  (unchanged w w' ∨ pops p w w') ∧ (is_ret o = true → pops p w w').
Proof.
  unfold block_unpublish. intros Hr. apply M_bind_split in Hr as [(found & w1 & Hf & Hr)|(o1 & Hf & _ & ->)]; apply disk_paths_stays in Hf as Hu1; [|by split; [left|]].
  destruct found as [dp|].
  2:{ injection Hr as <- <-. apply disk_paths_None in Hf as [_ Hn]. split; [by left|]. intros _. destruct Hu1 as [Hm Hs].
      split_and!; [by rewrite Hm, Hn|intros q _; apply Hm|done]. }
  apply M_bind_split in Hr as [([att dev] & w2 & Hd & Hr)|(o1 & Hd & _ & ->)]; (stays_in Hd; [unfold internal; stay|]); [|split; [left; by trans w1|done]].
  apply M_bind_split in Hr as [(h & w3 & Hh & Hr)|(o1 & Hh & _ & ->)]; apply plain_handler_stays in Hh; [|split; [left; trans w1; [done|by trans w2]|done]].
  assert (unchanged w w3) as Hu by (trans w1; [done|by trans w2]).
  assert (∀ wa, pops p w3 wa → pops p w wa) as Hpop by (intros wa; by apply unchanged_mounts_at).
  apply internal_spec in Hr as [([] & -> & Hr)|(-> & o1 & Hr & _)]; apply UnmountPath_spec in Hr as [Hc Hret].
  - split; [right|intros _]; by apply Hpop, Hret.
  - split; [|done]. destruct Hc; [left; by trans w3|right; by apply Hpop].
Qed.

(** C19: A successful publication of a block volume puts exactly one bind mount of the
    staged volume on the target path, on top of what is mounted there (a repeated publication binds it again),
    read-only if that is asked for; one that fails may leave it.  A successful unpublication takes exactly one mount of the target path away, if
    there is one, or finds that the path does not exist and changes nothing; one that fails takes away at most this mount.
    Neither touches other paths or iSCSI sessions, and both give the lock back. *)
Theorem publish_binds_unpublish_unbinds :
  (∀ req s o s', Block_NodePublishVolume req s = (o, s') →
     let w := nd_host s in let w' := nd_host s' in
     nd_volumeLocks s' = nd_volumeLocks s ∧
     ((is_ret o = false ∧ unchanged w w') ∨
      ∃ cap, bpr_VolumeCapability req = Some cap ∧ binds (bpr_TargetPath req) (publish_entry req cap) w o w')) ∧
  (∀ volumeId targetPath s o s', Block_NodeUnpublishVolume volumeId targetPath s = (o, s') →
     let w := nd_host s in let w' := nd_host s' in
     nd_volumeLocks s' = nd_volumeLocks s ∧
     (unchanged w w' ∨ pops targetPath w w') ∧
     (is_ret o = true → match (hostutil_PathIsDevice targetPath (nd_host (loaded s))).1 with
      | Ret _ => pops targetPath w w'
      | Err e => alreadyDeletedPathCheck e = true ∧ unchanged w w'
      | Panic => False
      end)).
Proof.
  cbv zeta. split.
  - intros req s o s'. unfold Block_NodePublishVolume. do 4 (case_decide; [by intros [= <- <-]; split; [|left]|]).
    destruct (bpr_VolumeCapability req) as [cap|]; [|by intros [= <- <-]; split; [|left]].
    intros [Hl [[Ho Hu]|Hr]]%configured; (split; [done|]); [by left|right].
    exists cap. split; [done|]. apply block_publish_binds in Hr. eapply binds_after; [apply loaded_unchanged|done].
  - intros volumeId targetPath s o s'. unfold Block_NodeUnpublishVolume, loaded. do 2 (case_decide; [by intros [= <- <-]; split_and!; [|left|]|]). intros Hr.
    apply M_bind_split in Hr as [([] & s1 & Hld & Hr)|(o1 & [Hl1 Hu1]%loadCSIConfig_unchanged & _ & ->)]; [|by split_and!; [|left|]].
    rewrite Hld. apply loadCSIConfig_unchanged in Hld as [Hl1 Hu1]. simpl.
    apply M_bind_split in Hr as [(r & s2 & Ht & Hr)|(o1 & Ht & _ & ->)]; apply try_spec in Ht.
    2:{ assert (∃ o2, host (hostutil_PathIsDevice targetPath) s1 = (o2, s')) as (o2 & (Hh & Hl & _)%host_inv) by naive_solver.
        apply disk_reads in Hh. split_and!; [congruence|left; by trans (nd_host s1)|done]. }
    destruct Ht as [(raw & [= ->] & (Hh & Hl & _)%host_inv)|[(e & [= ->] & (Hh & Hl & _)%host_inv)|[_ ?]]]; [..|done]; rewrite Hh;
      apply disk_reads in Hh as Hu2; assert (unchanged (nd_host s) (nd_host s2)) as Hu by (by trans (nd_host s1)); simpl.
    + apply locked_host in Hr as [Hl2 [[-> ->]|Hr]]; [split_and!; [congruence|by left|done]|].
      apply block_unpublish_spec in Hr as [Hc Hret].
      assert (∀ wa, pops targetPath (nd_host s2) wa → pops targetPath (nd_host s) wa) as Hpop by (intros wa; by apply unchanged_mounts_at).
      split_and!; [congruence|destruct Hc; [left; by trans (nd_host s2)|right; by apply Hpop]|]. intros Ho. by apply Hpop, Hret.
    + destruct (alreadyDeletedPathCheck e) eqn:Ha; injection Hr as <- <-; (split_and!; [congruence|by left|done]).
Qed.
(** ** Expansion *)

(** The size [n] is read after the rescan of the device, and, of a file system, after it was
    resized. *)
Definition measures h (dev p : string) (raw : bool) (w : W) (n : Z) w' : Prop :=
  ∃ w1 w2, handler_Rescan h dev w = (Ret (), w1) ∧
    (if raw then w2 = w1 else ∃ b, Resize h dev p w1 = (Ret b, w2)) ∧ GetBlockSizeBytes dev w2 = (Ret n, w').

Lemma expand_device_Ret h v d p raw g m w n w' : expand_device h v d p raw g m w = (Ret n, w') →
  (g ≤ RoundUpSize n (1 * GiB))%Z ∧ measures h d p raw w n w'.
Proof.
  unfold expand_device. intros ([] & w1 & Hrescan & Hr)%M_bind_Ret_inv. apply report_Ret in Hrescan as [Hrescan|(? & ? & _ & ?)]; [|done].
  apply M_bind_Ret_inv in Hr as (b & w2 & Hresize & Hr).
  apply M_bind_Ret_inv in Hr as (size & w3 & Hs & Hr). apply report_Ret in Hs as [Hs|(? & ? & _ & ?)]; [|done].
  case_decide; [done|]. injection Hr as -> ->. split; [lia|]. exists w1, w2. split_and!; [done| |done].
  destruct raw; [by injection Hresize as _ ->|]. apply report_Ret in Hresize as [Hresize|(? & ? & _ & ?)]; [by exists b|done].
Qed.

(** An expansion that answers: the device is the one that is mounted at the path. *)
Definition expands cfg (capacity : option CapacityRange) (p : string) w (answer : option Z) w' : Prop :=
  ∃ requested raw w1 found w2, ExtractStorage capacity = Ret requested ∧ hostutil_PathIsDevice p w = (Ret raw, w1) ∧
    disk_paths cfg raw p w1 = (Ret found, w2) ∧
    match found, answer with
    | None, None => raw = false ∧ block_mounts w p = []
    | Some diskPath, Some n => ∃ att dev h, getDevicePathAndAttachmentType diskPath = Ret (att, dev) ∧
        plain_handler att (HasPrefix dev "/dev/mapper") w2 = (Ret h, w2) ∧ measures h dev p raw w2 n w' ∧
        (RoundUpSize requested (1 * GiB) ≤ RoundUpSize n (1 * GiB))%Z
    | _, _ => False
    end.

Lemma block_expand_Ret cfg v p capacity w answer w' : block_expand cfg v p capacity w = (Ret answer, w') → expands cfg capacity p w answer w'.
Proof.
  unfold block_expand, expands.
  intros (requested & w0 & He & Hr)%M_bind_Ret_inv. apply report_Ret in He as [[He ->]%lift_Ret_inv|(? & ? & _ & ?)]; [|done].
  apply M_bind_Ret_inv in Hr as (raw & w1 & Hraw & Hr). apply report_Ret in Hraw as [Hraw|(? & ? & _ & ?)]; [|done].
  apply M_bind_Ret_inv in Hr as (found & w2 & Hf & Hr). exists requested, raw, w1, found, w2. split_and!; [done..|].
  destruct found as [dp|].
  2:{ injection Hr as <- _. apply disk_paths_None in Hf as [-> Hn]. split; [done|]. apply disk_reads in Hraw as [Hm _]. by rewrite <-Hm. }
  apply M_bind_Ret_inv in Hr as ([att dev] & w3 & Hd & Hr). apply report_Ret in Hd as [[Hd ->]%lift_Ret_inv|(? & ? & _ & ?)]; [|done].
  apply M_bind_Ret_inv in Hr as (h & w4 & Hh & Hr). apply M_bind_Ret_inv in Hr as (size & w5 & Hs & Hr). injection Hr as <- <-.
  apply expand_device_Ret in Hs as [Hg Hm]. assert (w4 = w2) as ->; [|by exists att, dev, h].
  revert Hh. unfold plain_handler. by repeat case_decide; intros [= _ <-].
Qed.

Lemma block_expand_stays cfg v p cap : frames unchanged (block_expand cfg v p cap).
Proof. unfold block_expand. stay; first [apply disk_paths_stays|apply plain_handler_stays|apply expand_device_stays]. Qed.

(** C20: An expansion that answers a size has read it from the device that is mounted at the
    volume path (or that the path is, for a raw block volume), after this device was rescanned and, for a file system, resized; in whole gibibytes
    it is at least what the capacity range asks for.  It answers no size only if nothing is mounted at the path.  Expansion
    mounts and unmounts nothing, does not touch sessions and gives the lock back. *)
Theorem Block_NodeExpandVolume_grows volumeID volumePath capacity s o s' :
  Block_NodeExpandVolume volumeID volumePath capacity s = (o, s') →
  nd_volumeLocks s' = nd_volumeLocks s ∧ unchanged (nd_host s) (nd_host s') ∧
  ∀ answer, o = Ret answer →
    expands (nd_csiConfig (loaded s)) capacity volumePath (nd_host (loaded s)) answer (nd_host s').
Proof.
  unfold Block_NodeExpandVolume. do 2 (case_decide; [by intros [= <- <-]|]).
  intros [Hl [[Ho Hu]|Hr]]%configured; (split; [done|]); [split; [done|]; by intros n ->|].
  apply block_expand_stays in Hr as Hu2. split; [trans (nd_host (loaded s)); [apply loaded_unchanged|done]|]. intros answer ->.
  by apply block_expand_Ret in Hr.
Qed.
End facts.
