(* ===== verification/BlockNodeMemory.v ===== *)
(** * A node with block devices in memory

    An instance of the hosts and of their laws: mount points and iSCSI sessions are kept in
    memory; every session has one device, which has no file system yet.  Runs of the node
    service on it. *)
From stdpp Require Import base tactics list gmap sets strings.
From Stdlib Require Import Ascii.
From S2P Require Import Prelude GoStrings GoNet Types ClientErrors ClientCalls CsiUtil CsiUtilFacts BlockVolume Host NodeServices NodeServicesFacts NodeMemory Disk DiskFacts BlockNode BlockNodeFacts.

Record disk_world := {
  dw_mounts : gmap string (list (list string));
  dw_sessions : targets;
}.
Definition dw_mounts_at (w : disk_world) (p : string) : list (list string) := default [] (dw_mounts w !! p).
Definition dw_mount (p : string) (f : list (list string) → list (list string)) (w : disk_world) : disk_world :=
  {| dw_mounts := <[p := f (dw_mounts_at w p)]> (dw_mounts w); dw_sessions := dw_sessions w |}.
Definition dw_session (f : targets → targets) (w : disk_world) : disk_world :=
  {| dw_mounts := dw_mounts w; dw_sessions := f (dw_sessions w) |}.

(** The devices of the sessions. *)
Definition session_path (t : string * string) : string := "/dev/disk/by-path/ip-" +:+ t.2 +:+ "-iscsi-" +:+ t.1 +:+ "-lun-1".
Definition session_paths (w : disk_world) : list string := session_path <$> elements (dw_sessions w).

Definition exit_2 : exec_error := {| xe_Error := "exit status 2"; xe_ProcessState := None; xe_ExitStatus := Some 2%Z |}.
Definition disk_command (name : string) (args : list string) (w : disk_world) : (string * option exec_error) * disk_world :=
  if decide (name = "bash") then
    match session_paths w with
    | [] => ("No such file or directory", Some exit_2, w)
    | paths => (join (String "010"%char "") paths, None, w)
    end
  else if decide (name = "blkid") then ("", Some exit_2, w)
  else if decide (name = FindMountCommand) then ("devtmpfs[/sdb]", None, w)
  else if decide (name = "blockdev") then ("107374182400", None, w)
  else ("", None, w).

(** Logging in and out; records are not kept. *)
Definition disk_iscsiadm (args : list string) (w : disk_world) : disk_world :=
  match args with
  | [_; _; _; iqn; _; t; flag] =>
      if decide (flag = "-l") then dw_session (union {[(iqn, t)]}) w
      else if decide (flag = "-u") then dw_session (.∖ {[(iqn, t)]}) w else w
  | _ => w
  end.

(** Mounting fails at one path: a mount that binds fails halfway. *)
Definition broken : string := "/broken".
Definition disk_mount (src p t : string) (os : list string) (w : disk_world) : outcome () * disk_world :=
  let e := MakeMountArgs src p t os in
  if decide (p ∈ [broken; broken +:+ "/mountfile"]) then (Err missing_file, if decide ("bind" ∈ os) then dw_mount p (cons e) w else w)
  else match mount_on os e (dw_mounts_at w p) with Some l => (Ret (), dw_mount p (λ _, l) w) | None => (Err missing_file, w) end.

Definition disk_mount_points (w : disk_world) : list MountPoint :=
  (λ p, {| mp_Device := "/dev/sdb"; mp_Path := p |}) <$> (filter (λ kv, kv.2 ≠ []) (map_to_list (dw_mounts w))).*1.

Definition disk_host_base : Host disk_world := {|
  exec_Command := disk_command;
  IsLikelyNotMountPoint p w := (Ret (bool_decide (dw_mounts_at w p = [])), w);
  mount_IsNotMountPoint p w := (Ret (bool_decide (dw_mounts_at w p = [])), w);
  mounter_IsMountPoint p w := (Ret (negb (bool_decide (dw_mounts_at w p = []))), w);
  mounter_List w := (Ret (disk_mount_points w), w);
  mounter_Mount m src p t os w := disk_mount src p t os w;
  mounter_Unmount p w := match dw_mounts_at w p with [] => (Err missing_file, w) | _ => (Ret (), dw_mount p tail w) end;
  mount_PathExists p w := (Ret true, w);
  hostutil_PathExists p w := (Ret true, w);
  hostutil_DeviceOpened p w := (Ret true, w);
  os_MkdirAll p w := (Ret (), w);
  os_Remove p w := if decide (dw_mounts_at w p = []) then (Ret (), w) else (Err missing_file, w);
  os_RemoveAll p w := (Ret (), w);
  os_IsNotExist e := bool_decide (e = missing_file);
  Semaphore_Acquire sem w := (Ret (), w);
  Semaphore_Release sem w := w;
|}.

Definition disk_host : DiskHost disk_world := {|
  exec_LookPath name w := (Ret "/usr/sbin/iscsiadm", w);
  exec_Output adm args w := (Ret "", disk_iscsiadm args w);
  SafeFormatAndMount m src p t os w := disk_mount src p t (os ++ ["defaults"]) w;
  ResizeFs_Resize d p w := (Ret true, w);
  EvalSymlinks p w := (Ret "/dev/sdb", w);
  Walk_paths p w := (Ret (session_paths w), w);
  filepath_Glob p w := (Ret [p], w);
  os_Readlink p w := (Ret "/dev/mapper/mpatha", w);
  os_ReadDir p w := (Ret [], w);
  os_Stat p w := (Ret (), w);
  os_OpenFile p w := (Ret (), w);
  File_Close p w := (Ret (), w);
  hostutil_PathIsDevice p w := (Ret (HasSuffix p "/mountfile" && negb (bool_decide (dw_mounts_at w p = []))), w);
|}.

Definition disk_nodes : KubeNodes disk_world := {| Nodes_Get name w := (Ret a_node, w) |}.
Definition disk_config : KubeConfigMaps disk_world := {| ConfigMaps_Get name w := (Ret ∅, w); yaml_DriverConfig s c := c |}.
Definition disk_limits : Limits disk_world := {| Reader_TryAccept w := (true, w); Writer_TryAccept w := (true, w); poll_ticks w := 3 |}.

Lemma dw_mount_same p f w : dw_mounts_at (dw_mount p f w) p = f (dw_mounts_at w p).
Proof. unfold dw_mounts_at at 1. simpl. by rewrite lookup_insert_eq. Qed.
Lemma dw_mount_other p q f w : q ≠ p → dw_mounts_at (dw_mount p f w) q = dw_mounts_at w q.
Proof. intros Hq. unfold dw_mounts_at at 1. simpl. by rewrite lookup_insert_ne. Qed.
Lemma disk_command_world name args w : (disk_command name args w).2 = w.
Proof. unfold disk_command. repeat case_decide; try done. by destruct (session_paths w). Qed.

Lemma disk_mount_spec src p t os w o w' : disk_mount src p t os w = (o, w') →
  (∀ q, q ≠ p → dw_mounts_at w' q = dw_mounts_at w q) ∧ dw_sessions w' = dw_sessions w ∧
  mount_step os (MakeMountArgs src p t os) (is_ret o) (dw_mounts_at w p) (dw_mounts_at w' p).
Proof.
  unfold disk_mount. case_decide as Hp.
  - case_decide as Hb; intros [= <- <-]; simpl; unfold mount_step.
    + split_and!; [intros q; apply dw_mount_other|done|]. rewrite decide_True by done. right. apply dw_mount_same.
    + split_and!; [done..|]. rewrite decide_False by done. by case_decide.
  - pose proof (mount_on_step os (MakeMountArgs src p t os) (dw_mounts_at w p)) as Hs.
    destruct (mount_on _ _ _) as [l|] eqn:E; intros [= <- <-]; [|done].
    split_and!; [intros q; apply dw_mount_other|done|]. by rewrite dw_mount_same.
Qed.

Definition memory_disk_laws :
  let _ := disk_host_base in let _ := disk_host in let _ := disk_nodes in let _ := disk_config in DiskLaws disk_world.
Proof.
  intros H L N C. refine {| block_mounts := dw_mounts_at; sessions := dw_sessions |}.
  - intros name args w _. simpl. by rewrite disk_command_world.
  - split_and!; by intros ? ? ? ? [= _ <-] || by intros ? ? ? ? ? [= _ <-].
  - split_and!; try (by intros ? ? ? ? [= _ <-]); [by intros ? ? ? [= _ <-]|]. intros p w o w'. simpl. by case_decide; intros [= _ <-].
  - intros p w w'. simpl. by case_decide.
  - done.
  - intros w l w' [= <- _] p Hp. unfold disk_mount_points. rewrite <-list_fmap_compose. simpl.
    assert (dw_mounts w !! p = Some (dw_mounts_at w p)) as Hl by (unfold dw_mounts_at in *; by destruct (dw_mounts w !! p)).
    apply list_elem_of_fmap. exists p. split; [done|]. apply list_elem_of_fmap. exists (p, dw_mounts_at w p). split; [done|].
    apply list_elem_of_filter. split; [done|]. by apply elem_of_map_to_list.
  - by intros w w' p.
  - intros m src p t os w o w'. apply disk_mount_spec.
  - intros m src p t os w o w'. apply disk_mount_spec.
  - intros p w o w'. simpl. destruct (dw_mounts_at w p) eqn:E; intros [= <- <-]; simpl; [done|].
    split_and!; [by rewrite dw_mount_same, E|intros q; apply dw_mount_other|done].
  - intros adm args sd w o w' [= _ <-] [->|[->|[->| ->]]]; done.
  - by intros adm sd w o w' [= <- <-].
  - by intros adm sd w o w' [= <- <-].
Defined.

(** ** Runs *)

#[local] Existing Instances disk_host_base disk_host disk_nodes disk_config disk_limits memory_disk_laws plain_text.
Definition no_multipath : MultipathJson := {| json_MultipathDevices s := inr [] |}.
#[local] Existing Instance no_multipath.

Definition an_iqn : string := "iqn.2015-12.com.oracleiaas:5638bae3".
Definition disk_driver : NodeDriver disk_world := {|
  nd_volumeLocks := NewVolumeLocks; nd_nodeMetadata := unknown_node;
  nd_csiConfig := {| cfg_Lustre := None; cfg_Bv := None; cfg_IsLoaded := false |};
  nd_host := {| dw_mounts := ∅; dw_sessions := ∅ |} |}.
Definition block_context : gmap string string :=
  {[attachmentType := attachmentTypeISCSI; ISCSIIQN := an_iqn; ISCSIIP := "169.254.2.2"; ISCSIPORT := "3260"; VpusPerGB := "20"]}.
Definition block_request (path : string) : BlockStageRequest := {|
  bsr_VolumeId := "ocid1.volume.a"; bsr_PublishContext := block_context; bsr_StagingTargetPath := path;
  bsr_VolumeCapability := Some (AccessMount (Some {| mv_FsType := "xfs"; mv_MountFlags := ["noatime"] |})) |}.
Definition block_staged := Block_NodeStageVolume None (block_request "/staging") disk_driver.
Definition block_not_staged := Block_NodeStageVolume None (block_request broken) disk_driver.

Definition a_device : string := "/dev/disk/by-path/ip-169.254.2.2:3260-iscsi-iqn.2015-12.com.oracleiaas:5638bae3-lun-1".

Lemma block_staged_eq : Block_NodeStageVolume None (block_request "/staging") disk_driver = (Ret (), block_staged.2).
Proof. vm_compute. reflexivity. Qed.

(** A raw block volume, whose bind mount fails halfway. *)
Definition raw_request (path : string) : BlockStageRequest := {|
  bsr_VolumeId := "ocid1.volume.a"; bsr_PublishContext := block_context; bsr_StagingTargetPath := path;
  bsr_VolumeCapability := Some AccessBlock |}.
Definition raw_staged := Block_NodeStageVolume None (raw_request "/staging") disk_driver.
Example raw_not_staged : let r := Block_NodeStageVolume None (raw_request broken) disk_driver in
  is_ret r.1 = false ∧ dw_mounts_at (nd_host r.2) "/broken/mountfile" = [["-o"; "bind"; a_device; "/broken/mountfile"]] ∧
  dw_sessions (nd_host r.2) = ∅.
Proof. vm_compute. done. Qed.

Lemma Block_NodeStageVolume_mounts_witness :
  dw_mounts (nd_host block_staged.2) = {["/staging" := [["-t"; "xfs"; "-o"; "noatime,nouuid,defaults"; a_device; "/staging"]]]} ∧
  nd_volumeLocks block_staged.2 = nd_volumeLocks disk_driver ∧
  ∃ cap, bsr_VolumeCapability (block_request "/staging") = Some cap ∧
    let p := stage_path (block_request "/staging") cap in
    ((is_raw_block cap = false ∧ block_mounts (nd_host block_staged.2) p = [] ∧
      ∃ w1, unchanged (nd_host disk_driver) w1 ∧ already_mounted unknown_node block_context p w1 (nd_host block_staged.2)) ∨
     ∃ e, stage_entry unknown_node (block_request "/staging") cap e ∧ block_mounts (nd_host block_staged.2) p = [e]).
Proof.
  split; [vm_compute; reflexivity|].
  destruct (Block_NodeStageVolume_mounts None (block_request "/staging") disk_driver (Ret ()) block_staged.2) as [Hl [[? _]|(cap & Hc & _ & Hp)]];
    [intros mnt [= <-]; simpl; by intros ?%list_elem_of_singleton|exact block_staged_eq|done|].
  split; [exact Hl|]. exists cap. split; [exact Hc|exact Hp].
Defined.

Lemma block_not_staged_eq :
  Block_NodeStageVolume None (block_request broken) disk_driver = (Err (StatusError Internal "%s" [Error missing_file]), block_not_staged.2).
Proof. vm_compute. reflexivity. Qed.

Lemma failed_staging_logs_out_witness :
  elements (dw_sessions (nd_host block_staged.2)) = [(an_iqn, "169.254.2.2:3260")] ∧
  (sessions (nd_host block_not_staged.2) ⊆ ∅ ∨ says_logout_failed (StatusError Internal "%s" [Error missing_file])).
Proof.
  split; [vm_compute; reflexivity|].
  exact (failed_staging_logs_out None (block_request broken) disk_driver _ block_not_staged.2 block_not_staged_eq).
Defined.

Definition block_unstaged := Block_NodeUnstageVolume "ocid1.volume.a" "/staging" block_staged.2.
Definition raw_unstaged := Block_NodeUnstageVolume "ocid1.volume.a" "/staging" raw_staged.2.

(** A file system and a raw block volume are unstaged. *)
Lemma Block_NodeUnstageVolume_frees_witness :
  (block_unstaged.1 = Ret () ∧ dw_mounts_at (nd_host block_unstaged.2) "/staging" = [] ∧ dw_sessions (nd_host block_unstaged.2) = ∅) ∧
  (dw_mounts_at (nd_host raw_staged.2) "/staging/mountfile" = [["-o"; "bind"; a_device; "/staging/mountfile"]] ∧
   raw_unstaged.1 = Ret () ∧ dw_mounts_at (nd_host raw_unstaged.2) "/staging/mountfile" = [] ∧ dw_sessions (nd_host raw_unstaged.2) = ∅) ∧
  nd_volumeLocks block_unstaged.2 = nd_volumeLocks block_staged.2 ∧
  unstages (nd_csiConfig (loaded block_staged.2)) false "/staging" (nd_host block_staged.2) (nd_host (loaded block_staged.2))
    block_unstaged.1 (nd_host block_unstaged.2) ∧
  unstages (nd_csiConfig (loaded raw_staged.2)) true "/staging/mountfile" (nd_host raw_staged.2) (nd_host (loaded raw_staged.2))
    raw_unstaged.1 (nd_host raw_unstaged.2).
Proof.
  split; [split_and!; vm_compute; reflexivity|]. split; [split_and!; vm_compute; reflexivity|].
  destruct (Block_NodeUnstageVolume_frees "ocid1.volume.a" "/staging" block_staged.2 block_unstaged.1 block_unstaged.2 (surjective_pairing _)) as [Hl Hf].
  split; [exact Hl|]. split; [by vm_compute is_device in Hf|].
  by destruct (Block_NodeUnstageVolume_frees "ocid1.volume.a" "/staging" raw_staged.2 raw_unstaged.1 raw_unstaged.2 (surjective_pairing _)) as [_ Hr].
Defined.

Definition block_publish_request : BlockPublishRequest := {|
  bpr_VolumeId := "ocid1.volume.a"; bpr_PublishContext := block_context; bpr_StagingTargetPath := "/staging"; bpr_TargetPath := "/target";
  bpr_VolumeCapability := Some (AccessMount (Some {| mv_FsType := "xfs"; mv_MountFlags := [] |})); bpr_Readonly := true |}.
Definition block_published := Block_NodePublishVolume block_publish_request block_staged.2.
Definition block_published_twice := Block_NodePublishVolume block_publish_request block_published.2.
Definition block_unpublished := Block_NodeUnpublishVolume "ocid1.volume.a" "/target" block_published.2.

(** A volume that was bound twice: one mount is taken away, and the other one is an error. *)
Example twice_unpublished : let r := Block_NodeUnpublishVolume "ocid1.volume.a" "/target" block_published_twice.2 in
  is_ret r.1 = false ∧ dw_mounts_at (nd_host r.2) "/target" = dw_mounts_at (nd_host block_published.2) "/target".
Proof. split; vm_compute; reflexivity. Qed.

Lemma block_unpublished_eq : Block_NodeUnpublishVolume "ocid1.volume.a" "/target" block_published.2 = (Ret (), block_unpublished.2).
Proof. vm_compute. reflexivity. Qed.

(** A second publication binds the volume a second time; the first one is undone. *)
Lemma publish_binds_unpublish_unbinds_witness :
  dw_mounts_at (nd_host block_published.2) "/target" = [["-t"; "xfs"; "-o"; "bind,ro,nouuid"; "/staging"; "/target"]] ∧
  length (dw_mounts_at (nd_host block_published_twice.2) "/target") = 2 ∧
  dw_mounts_at (nd_host block_unpublished.2) "/target" = [] ∧
  nd_volumeLocks block_published.2 = nd_volumeLocks block_staged.2 ∧
  pops "/target" (nd_host block_published.2) (nd_host block_unpublished.2).
Proof.
  do 3 (split; [vm_compute; reflexivity|]). destruct publish_binds_unpublish_unbinds as [Hp Hu].
  split; [apply (Hp block_publish_request _ block_published.1); apply surjective_pairing|].
  destruct (Hu _ _ _ _ _ block_unpublished_eq) as (_ & _ & Hr). exact (Hr eq_refl).
Defined.

Definition block_expanded :=
  Block_NodeExpandVolume "ocid1.volume.a" "/staging" (Some {| RequiredBytes := 64424509440; LimitBytes := 0 |}) block_staged.2.

Lemma block_expanded_eq :
  Block_NodeExpandVolume "ocid1.volume.a" "/staging" (Some {| RequiredBytes := 64424509440; LimitBytes := 0 |}) block_staged.2 =
  (Ret (Some 107374182400%Z), block_expanded.2).
Proof. vm_compute. reflexivity. Qed.

Lemma Block_NodeExpandVolume_grows_witness :
  expands (nd_csiConfig (loaded block_staged.2)) (Some {| RequiredBytes := 64424509440; LimitBytes := 0 |}) "/staging"
    (nd_host (loaded block_staged.2)) (Some 107374182400%Z) (nd_host block_expanded.2).
Proof.
  exact (proj2 (proj2 (Block_NodeExpandVolume_grows _ _ _ block_staged.2 _ block_expanded.2 block_expanded_eq)) _ eq_refl).
Defined.
