(* ===== verification/Config.v ===== *)
(** * The configuration of the cloud provider (config.go, config_validate.go, instance_metadata.go)

    The data of the configuration file, its completion with defaults and with the
    metadata of the instance, its validation, the provider of credentials made from it,
    and the rate limiters.  The file system, YAML and HTTP are the class
    [ConfigEnvironment]. *)
From Stdlib Require Import Qcanon.
From stdpp Require Import base tactics list gmap sets strings numbers.
From S2P Require Import Prelude GoStrings Types ClientErrors Annotations.

(** ** Data *)

Record AuthConfig := {
  auth_Region : string;
  auth_TenancyID : string;
  auth_UserID : string;
  auth_PrivateKey : string;
  auth_Fingerprint : string;
  auth_Passphrase : string;
  auth_RegionKey : string;
  auth_UseInstancePrincipals : bool;
  auth_CompartmentID : string;
  auth_PrivateKeyPassphrase : string;
}.

Record LoadBalancerConfig := {
  lbc_Disabled : bool;
  lbc_DisableSecurityListManagement : bool;
  lbc_SecurityListManagementMode : string;
  lbc_Subnet1 : string;
  lbc_Subnet2 : string;
  lbc_SecurityLists : option (gmap string string);
}.

(** The rates are [float32] in the source; a finite one is the rational it stands for. *)
Record RateLimiterConfig := {
  rl_RateLimitQPSRead : Qc;
  rl_RateLimitBucketRead : Z;
  rl_RateLimitQPSWrite : Qc;
  rl_RateLimitBucketWrite : Z;
  rl_DisableRateLimiter : bool;
}.

Record MetricsConfig := {
  mc_CompartmentID : string;
  mc_Namespace : string;
  mc_ResourceGroup : string;
  mc_Prefix : string;
}.

(** [InitialTags], with all its parts. *)
Record ConfigTags := {
  ct_LoadBalancer : option TagConfig;
  ct_BlockVolume : option TagConfig;
  ct_FSS : option TagConfig;
  ct_Lustre : option TagConfig;
  ct_Common : option TagConfig;
}.

Record Config := {
  pc_Auth : AuthConfig;
  pc_LoadBalancer : option LoadBalancerConfig;
  pc_RateLimiter : option RateLimiterConfig;
  pc_Metrics : option MetricsConfig;
  pc_Tags : option ConfigTags;
  pc_RegionKey : string;
  pc_UseInstancePrincipals : bool;
  pc_CompartmentID : string;
  pc_VCNID : string;
}.

Record InstanceMetadata := {
  meta_CompartmentID : string;
  meta_Region : string;
  meta_CanonicalRegionName : string;
}.

(** [http_Do url] sends a GET request with the given headers and answers the status and
    the body; a document of YAML that is null decodes to a nil pointer. *)
Class ConfigEnvironment (W : Type) := {
  http_Do : string → list (string * string) → M W (Z * string);
  json_InstanceMetadata : string → error + InstanceMetadata;
  os_Open : string → M W string;
  yaml_Config : string → error + option Config;
  InstancePrincipalConfigurationProvider : M W ();
}.

Definition baseURL : string := "http://169.254.169.254".
Definition metadataEndpoint : string := "/opc/v2/instance/".
Definition rateLimitQPSDefault : Qc := Qc_of_Z 20.
Definition rateLimitBucketDefault : Z := 5.

(** [common.ConfigurationProvider]. *)
Inductive ConfigurationProvider :=
| RawConfigurationProvider (tenancy user region fingerprint privateKey : string) (passphrase : option string)
| InstancePrincipal
| DefaultConfigProvider
| WorkloadIdentity (token : string)
| ResourcePrincipal (parent : ConfigurationProvider) (rptURL : string).

(** ** Setters *)

Definition set_mode (mode : string) (c : LoadBalancerConfig) : LoadBalancerConfig := {|
  lbc_Disabled := lbc_Disabled c; lbc_DisableSecurityListManagement := lbc_DisableSecurityListManagement c;
  lbc_SecurityListManagementMode := mode; lbc_Subnet1 := lbc_Subnet1 c; lbc_Subnet2 := lbc_Subnet2 c;
  lbc_SecurityLists := lbc_SecurityLists c |}.

Definition set_auth (region compartment passphrase : string) (c : AuthConfig) : AuthConfig := {|
  auth_Region := region; auth_TenancyID := auth_TenancyID c; auth_UserID := auth_UserID c;
  auth_PrivateKey := auth_PrivateKey c; auth_Fingerprint := auth_Fingerprint c; auth_Passphrase := passphrase;
  auth_RegionKey := auth_RegionKey c; auth_UseInstancePrincipals := auth_UseInstancePrincipals c;
  auth_CompartmentID := compartment; auth_PrivateKeyPassphrase := auth_PrivateKeyPassphrase c |}.

Definition set_config (auth : AuthConfig) (lb : option LoadBalancerConfig) (rl : option RateLimiterConfig)
    (regionKey : string) (instancePrincipals : bool) (compartment vcn : string) (c : Config) : Config := {|
  pc_Auth := auth; pc_LoadBalancer := lb; pc_RateLimiter := rl; pc_Metrics := pc_Metrics c; pc_Tags := pc_Tags c;
  pc_RegionKey := regionKey; pc_UseInstancePrincipals := instancePrincipals; pc_CompartmentID := compartment;
  pc_VCNID := vcn |}.

(** ** The rate limiters (client/utils.go) *)

(** [flowcontrol.RateLimiter]. *)
Inductive flow_limiter :=
| FakeAlwaysRateLimiter
| TokenBucketRateLimiter (qps : Qc) (burst : Z).

Record RateLimiter := { Reader : flow_limiter; Writer : flow_limiter }.

Definition rate_limiter_zero : RateLimiterConfig := {|
  rl_RateLimitQPSRead := 0%Qc; rl_RateLimitBucketRead := 0; rl_RateLimitQPSWrite := 0%Qc; rl_RateLimitBucketWrite := 0;
  rl_DisableRateLimiter := false |}.

Definition rate_limiter_defaults (c : RateLimiterConfig) : RateLimiterConfig :=
  let qps (q : Qc) := if decide (q = 0%Qc) then rateLimitQPSDefault else q in
  let bucket (b : Z) := if decide (b = 0%Z) then rateLimitBucketDefault else b in
  {| rl_RateLimitQPSRead := qps (rl_RateLimitQPSRead c); rl_RateLimitBucketRead := bucket (rl_RateLimitBucketRead c);
     rl_RateLimitQPSWrite := qps (rl_RateLimitQPSWrite c); rl_RateLimitBucketWrite := bucket (rl_RateLimitBucketWrite c);
     rl_DisableRateLimiter := rl_DisableRateLimiter c |}.

(** The limiters, and what the shared configuration holds afterwards: the defaults are
    written into it when there is one. *)
Definition NewRateLimiter (config : option RateLimiterConfig) : RateLimiter * option RateLimiterConfig :=
  let c := default rate_limiter_zero config in
  if rl_DisableRateLimiter c then ({| Reader := FakeAlwaysRateLimiter; Writer := FakeAlwaysRateLimiter |}, config)
  else let c' := rate_limiter_defaults c in
       ({| Reader := TokenBucketRateLimiter (rl_RateLimitQPSRead c') (rl_RateLimitBucketRead c');
           Writer := TokenBucketRateLimiter (rl_RateLimitQPSWrite c') (rl_RateLimitBucketWrite c') |},
        (λ _, c') <$> config).

(** ** Validation *)

(** [field.Error] of the Kubernetes library: its type, the path of the field and the detail. *)
Inductive FieldError :=
| field_Required (path detail : string)
| field_InternalError (path detail : string)
| field_Invalid (path value detail : string).

Definition discovered : string :=
  "This value is normally discovered automatically if omitted. Continue checking the logs to see if something else is wrong".

Definition FieldError_Error (e : FieldError) : string :=
  match e with
  | field_Required path detail => path +:+ ": Required value" +:+ (if decide (detail = "") then "" else ": " +:+ detail)
  | field_InternalError path detail => path +:+ ": Internal error: " +:+ detail
  | field_Invalid path value detail => path +:+ ": Invalid value: " +:+ value +:+ ": " +:+ detail
  end.

(** [field.ErrorList.ToAggregate]: no error for an empty list, else the messages, each
    once in the order of their first occurrence. *)
Fixpoint messages_once (seen : list string) (l : list string) : list string :=
  match l with
  | [] => []
  | m :: l => if decide (m ∈ seen) then messages_once seen l else m :: messages_once (m :: seen) l
  end.

Definition ToAggregate (l : list FieldError) : option error :=
  match l with
  | [] => None
  | _ => Some (Errorf "%v" (messages_once [] (FieldError_Error <$> l)))
  end.

Definition SecurityListManagementModeChoices : list string :=
  [ManagementModeAll; ManagementModeFrontend; ManagementModeNone].

Definition IsValidSecurityListManagementMode (mode : string) : bool :=
  bool_decide (mode ∈ SecurityListManagementModeChoices).

Section validation.
Context `{!MapRange}.

(** The fields that are looked at, by their names. *)
Definition auth_fields (c : AuthConfig) : gmap string string :=
  list_to_map [("region", auth_Region c); ("tenancy", auth_TenancyID c); ("user", auth_UserID c);
               ("key", auth_PrivateKey c); ("fingerprint", auth_Fingerprint c)].

Definition auth_field_error (fldPath : string) (entry : string * string) : list FieldError :=
  let '(fieldName, fieldValue) := entry in
  let path := fldPath +:+ "." +:+ fieldName in
  if decide (fieldValue = "") then
    if decide (fieldName = "region") then [field_InternalError path discovered] else [field_Required path ""]
  else [].

(** The argument is never nil: it is the address of a field. *)
Definition validateAuthConfig (c : AuthConfig) (fldPath : string) : list FieldError :=
  range 2 (auth_fields c) ≫= auth_field_error fldPath.

Definition validateLoadBalancerConfig (c : Config) (lbConfig : LoadBalancerConfig) (fldPath : string) : list FieldError :=
  (if decide (lbc_Subnet1 lbConfig = "" ∧ pc_VCNID c = "")
   then [field_Required "vcn" "VCNID configuration must be provided if configuration for subnet1 is not provided"] else []) ++
  (if IsValidSecurityListManagementMode (lbc_SecurityListManagementMode lbConfig) then []
   else [field_Invalid (fldPath +:+ ".securityListManagementMode") (lbc_SecurityListManagementMode lbConfig)
           "invalid security list management mode"]).

Definition validate_metrics (m : MetricsConfig) : list FieldError :=
  (if decide (mc_CompartmentID m = "")
   then [field_Required "metrics.compartment" "Compartment is required for pushing custom metrics"] else []) ++
  (if decide (mc_Namespace m = "")
   then [field_Required "metrics.namespace" "Metric namespace is required for pushing custom metrics"] else []) ++
  (if decide (mc_ResourceGroup m = "")
   then [field_Required "metrics.resourceGroup" "Metric resource group is required for pushing custom metrics"] else []).

Definition ValidateConfig (c : Config) : list FieldError :=
  (if decide (pc_CompartmentID c = "") then [field_InternalError "compartment" discovered] else []) ++
  (if pc_UseInstancePrincipals c then [] else validateAuthConfig (pc_Auth c) "auth") ++
  match pc_LoadBalancer c with
  | Some lb => if lbc_Disabled lb then [] else validateLoadBalancerConfig c lb "loadBalancer"
  | None => []
  end ++
  match pc_Metrics c with Some m => validate_metrics m | None => [] end.

Definition Validate (c : Config) : option error := ToAggregate (ValidateConfig c).
End validation.

(** ** Completion *)

Definition LoadBalancerConfig_Complete (c : LoadBalancerConfig) : LoadBalancerConfig :=
  if lbc_Disabled c then c
  else if decide (lbc_SecurityListManagementMode c = "")
  then set_mode (if lbc_DisableSecurityListManagement c then ManagementModeNone else ManagementModeAll) c
  else c.

Section config.
Context {W : Type} `{!ConfigEnvironment W}.

(** [metadataGetter.executeRequest]. *)
Definition executeRequest (url : string) : M W InstanceMetadata :=
  '(statusCode, body) ← wrapM (http_Do url [("Authorization", "Bearer Oracle")])
                          "Failed to get instance metadata with v2 endpoint" [];
  if decide (statusCode ≠ 200%Z)
  then fail (Errorf "metadata endpoint v2 returned status %d; expected 200 OK" [Itoa statusCode])
  else lift (wrap_err (of_sum (json_InstanceMetadata body)) "decoding instance metadata response" []).

(** [metadataGetter.Get] of the getter [metadata.New()] makes. *)
Definition metadata_Get : M W InstanceMetadata := executeRequest (baseURL +:+ metadataEndpoint).

Definition AuthConfig_Complete (c : AuthConfig) : M W AuthConfig :=
  let passphrase := if decide (auth_Passphrase c = "" ∧ auth_PrivateKeyPassphrase c ≠ "")
                    then auth_PrivateKeyPassphrase c else auth_Passphrase c in
  let c := set_auth (auth_Region c) (auth_CompartmentID c) passphrase c in
  if decide (auth_Region c = "" ∨ auth_CompartmentID c = "") then
    r ← try metadata_Get;
    mret match r with
         | inl _ => c
         | inr meta =>
             set_auth (if decide (auth_Region c = "") then meta_CanonicalRegionName meta else auth_Region c)
               (if decide (auth_CompartmentID c = "") then meta_CompartmentID meta else auth_CompartmentID c)
               (auth_Passphrase c) c
         end
  else mret c.

(** The key of the region: the new field, the deprecated one, or the instance's. *)
Definition complete_region_key (regionKey : string) (auth : AuthConfig) : M W string :=
  if decide (regionKey = "") then
    if decide (auth_RegionKey auth ≠ "") then mret (auth_RegionKey auth)
    else r ← try metadata_Get; mret match r with inl _ => regionKey | inr meta => meta_Region meta end
  else mret regionKey.

Definition Config_Complete (c : Config) : M W Config :=
  let lb := LoadBalancerConfig_Complete <$> pc_LoadBalancer c in
  auth ← AuthConfig_Complete (pc_Auth c);
  let compartment := if decide (pc_CompartmentID c = "" ∧ auth_CompartmentID auth ≠ "")
                     then auth_CompartmentID auth else pc_CompartmentID c in
  let principals := if auth_UseInstancePrincipals auth then true else pc_UseInstancePrincipals c in
  regionKey ← complete_region_key (pc_RegionKey c) auth;
  mret (set_config auth lb (pc_RateLimiter c) regionKey principals compartment (pc_VCNID c) c).

(** The reader is nil or has a content; a nil configuration panics. *)
Definition ReadConfig (r : option string) : M W Config :=
  match r with
  | None => fail (Errorf "no cloud-provider config file given" [])
  | Some content =>
      cfg ← lift (wrap_err (of_sum (yaml_Config content)) "unmarshalling cloud-provider config" []);
      cfg ← lift (deref cfg);
      Config_Complete cfg
  end.

Definition FromFile (path : string) : M W Config := f ← os_Open path; ReadConfig (Some f).

(** ** The provider of credentials *)

Context `{!MapRange}.

Definition NewConfigurationProvider (cfg : option Config) : M W ConfigurationProvider :=
  match cfg with
  | None => mret DefaultConfigProvider
  | Some cfg =>
      match Validate cfg with
      | Some err => fail (Wrap err "invalid client config" [])
      | None =>
          if pc_UseInstancePrincipals cfg then
            _ ← wrapM InstancePrincipalConfigurationProvider
                  "failed to instantiate InstancePrincipalConfigurationProvider" [];
            mret InstancePrincipal
          else
            let auth := pc_Auth cfg in
            mret (RawConfigurationProvider (auth_TenancyID auth) (auth_UserID auth) (auth_Region auth)
                    (auth_Fingerprint auth) (auth_PrivateKey auth) (Some (auth_PrivateKeyPassphrase auth)))
      end
  end.
End config.
