(* ===== verification/Startup.v ===== *)
(** * Clients and the start of the cloud provider (client.go, client_factory.go, ccm.go)

    The construction of the clients of the services with their credentials, the start of
    the cloud provider from its configuration, and what [Initialize] decides.  What the
    SDK does to make a client is the class [SdkClients]. *)
From stdpp Require Import base tactics list gmap sets strings.
From Stdlib Require Import Ascii.
From S2P Require Import Prelude GoStrings Types ClientErrors Locks SecurityLists SecurityListManager NetworkSecurityGroups Annotations Handlers ClientCalls NetworkingClient Config.

(** ** The clients of the SDK *)

Inductive SdkService :=
| ComputeService
| VirtualNetworkService
| LoadBalancerService
| NetworkLoadBalancerService
| IdentityService
| BlockstorageService
| FileStorageService
| LustreFileStorageService.
Global Instance SdkService_eq_dec : EqDecision SdkService.
Proof. solve_decision. Defined.

(** [NewSdkClient service provider] is [New<service>ClientWithConfigurationProvider]; its
    argument may be nil.  [OkeWorkloadIdentityConfigurationProvider token] and
    [ResourcePrincipalV3 parent url] are the constructors of package auth. *)
Class SdkClients (W : Type) := {
  NewSdkClient : SdkService → option ConfigurationProvider → M W ();
  OkeWorkloadIdentityConfigurationProvider : string → M W ();
  ResourcePrincipalV3 : ConfigurationProvider → string → M W ();
}.

(** A client of the SDK: its service and the credentials it was made with. *)
Record sdk_client := {
  sdk_service : SdkService;
  sdk_provider : option ConfigurationProvider;
}.

(** [loadbalancerClientStruct] or [networkLoadbalancer], by the SDK client it holds. *)
Record lb_client := {
  lbcl_sdk : sdk_client;
  lbcl_rateLimiter : RateLimiter;
}.

(** [client]; a field that is not set is [None]. *)
Record client := {
  cl_compute : option sdk_client;
  cl_network : option sdk_client;
  cl_loadbalancer : option lb_client;
  cl_networkloadbalancer : option lb_client;
  cl_filestorage : option sdk_client;
  cl_bs : option sdk_client;
  cl_identity : option sdk_client;
  cl_lustre : option sdk_client;
  cl_rateLimiter : RateLimiter;
}.

Record OCIClientConfig := {
  oc_SaToken : option string;
  oc_ParentRptURL : string;
  oc_TenancyId : string;
}.

Definition NewLBClient (lb : sdk_client) (lim : RateLimiter) : lb_client := {| lbcl_sdk := lb; lbcl_rateLimiter := lim |}.
Definition NewNLBClient (nlb : sdk_client) (lim : RateLimiter) : lb_client := {| lbcl_sdk := nlb; lbcl_rateLimiter := lim |}.

(** The client that holds one SDK client; the others are nil. *)
Definition single_client (sdk : sdk_client) (lim : RateLimiter) : client :=
  let only s := if decide (sdk_service sdk = s) then Some sdk else None in
  {| cl_compute := None; cl_network := only VirtualNetworkService; cl_loadbalancer := None;
     cl_networkloadbalancer := None; cl_filestorage := only FileStorageService; cl_bs := None;
     cl_identity := only IdentityService; cl_lustre := None; cl_rateLimiter := lim |}.

Section clients.
Context {W : Type} `{!SdkClients W}.

(** There is no custom transport in this build. *)
Definition configureCustomTransport : M W () := mret ().

(** One client of the SDK, made with credentials that may be nil. *)
Definition new_sdk_client (service : SdkService) (provider : option ConfigurationProvider) : M W sdk_client :=
  _ ← NewSdkClient service provider;
  mret {| sdk_service := service; sdk_provider := provider |}.

(** The same with its transport, and the errors of [New]. *)
Definition configured_client (service : SdkService) (cp : ConfigurationProvider) (constructor transport : string) : M W sdk_client :=
  sdk ← wrapM (new_sdk_client service (Some cp)) constructor [];
  _ ← wrapM configureCustomTransport transport [];
  mret sdk.

Definition New (cp : ConfigurationProvider) (opRateLimiter : RateLimiter) : M W client :=
  compute ← configured_client ComputeService cp "NewComputeClientWithConfigurationProvider"
    "configuring load balancer client custom transport";
  network ← configured_client VirtualNetworkService cp "NewVirtualNetworkClientWithConfigurationProvider"
    "configuring load balancer client custom transport";
  lb ← configured_client LoadBalancerService cp "NewLoadBalancerClientWithConfigurationProvider"
    "configuring loadbalancer client custom transport";
  nlb ← configured_client NetworkLoadBalancerService cp "NewNetworkLoadBalancerClientWithConfigurationProvider"
    "configuring networkloadbalancer client custom transport";
  identity ← configured_client IdentityService cp "NewIdentityClientWithConfigurationProvider"
    "configuring identity service client custom transport";
  bs ← configured_client BlockstorageService cp "NewBlockstorageClientWithConfigurationProvider"
    "configuring block storage service client custom transport";
  fss ← configured_client FileStorageService cp "NewFileStorageClientWithConfigurationProvider"
    "configuring file storage service client custom transport";
  lustreClient ← configured_client LustreFileStorageService cp "NewLustreFileStorageClientWithConfigurationProvider"
    "configuring lustre file storage client custom transport";
  mret {| cl_compute := Some compute; cl_network := Some network;
          cl_loadbalancer := Some (NewLBClient lb opRateLimiter);
          cl_networkloadbalancer := Some (NewNLBClient nlb opRateLimiter);
          cl_filestorage := Some fss; cl_bs := Some bs; cl_identity := Some identity;
          cl_lustre := Some lustreClient; cl_rateLimiter := opRateLimiter |}.

(** The client of a service account for one type of load balancer; a failure is nil. *)
Definition workload_lb_client (lim : RateLimiter) (service : SdkService) (provider : ConfigurationProvider)
    : M W (option lb_client) :=
  r ← try (new_sdk_client service (Some provider));
  match r with
  | inl _ => mret None
  | inr sdk =>
      r ← try configureCustomTransport;
      mret match r with inl _ => None | inr _ => Some {| lbcl_sdk := sdk; lbcl_rateLimiter := lim |} end
  end.

Definition client_for_load_balancer (c : client) (lbType : string) (tokenRequest : option string) : M W (option lb_client) :=
  match tokenRequest with
  | None =>
      mret (if decide (lbType = "nlb") then cl_networkloadbalancer c
            else if decide (lbType = "lb") then cl_loadbalancer c else None)
  | Some token =>
      r ← try (OkeWorkloadIdentityConfigurationProvider token);
      match r with
      | inl _ => mret None
      | inr _ =>
          if decide (lbType = "lb") then workload_lb_client (cl_rateLimiter c) LoadBalancerService (WorkloadIdentity token)
          else if decide (lbType = "nlb")
          then workload_lb_client (cl_rateLimiter c) NetworkLoadBalancerService (WorkloadIdentity token)
          else mret None
      end
  end.

(** The credentials of a service account, or of the resource behind it. *)
Definition getConfigurationProvider (token rptURL : string) : M W ConfigurationProvider :=
  _ ← OkeWorkloadIdentityConfigurationProvider token;
  if decide (rptURL ≠ "") then
    _ ← ResourcePrincipalV3 (WorkloadIdentity token) rptURL;
    mret (ResourcePrincipal (WorkloadIdentity token) rptURL)
  else mret (WorkloadIdentity token).

(** The common body of [Networking], [Identity] and [FSS].  The error of
    [getConfigurationProvider] is overwritten by the next call, which is given the nil
    provider. *)
Definition client_for (service : SdkService) (c : client) (ociClientConfig : option OCIClientConfig) : M W (option client) :=
  match ociClientConfig with
  | None => mret (Some c)
  | Some cfg =>
      match oc_SaToken cfg with
      | None => mret (Some c)
      | Some token =>
          r ← try (getConfigurationProvider token (oc_ParentRptURL cfg));
          let configProvider := match r with inl _ => None | inr provider => Some provider end in
          r ← try (new_sdk_client service configProvider);
          match r with
          | inl _ => mret None
          | inr sdk =>
              r ← try configureCustomTransport;
              mret match r with inl _ => None | inr _ => Some (single_client sdk (cl_rateLimiter c)) end
          end
      end
  end.

Definition client_Networking : client → option OCIClientConfig → M W (option client) := client_for VirtualNetworkService.
Definition client_Identity : client → option OCIClientConfig → M W (option client) := client_for IdentityService.
Definition client_FSS : client → option OCIClientConfig → M W (option client) := client_for FileStorageService.

Context `{!ConfigEnvironment W, !MapRange}.

(** client_factory.go: [logger.Fatal] ends the process, so an invalid configuration does
    not return. *)
Definition GetClient (cfg : Config) : M W client :=
  cp ← report (NewConfigurationProvider (Some cfg)) (λ _, lift Panic);
  New cp (NewRateLimiter (pc_RateLimiter cfg)).1.
End clients.

(** ** The cloud provider (ccm.go) *)

Definition providerName : string := "oci".
Definition disableInstanceTaggingController : string := "DISABLE_INSTANCE_TAGGING_CONTROLLER".
Definition openshiftNodeLabelId : string := "OPENSHIFT_NODE_LABEL_ID".
Definition openshiftOSLabelKey : string := "node.openshift.io/os_id".
Definition openshiftOSLabelRHEL : string := "rhel".
Definition lbNamePrefixEnvVar : string := "LOAD_BALANCER_PREFIX".

(** What [NewCloudProvider] answers; the pusher of metrics is left out and the cache of
    instances is new. *)
Record NewProvider := {
  np_client : client;
  np_config : Config;
  np_lbLocks : loadBalancerLocks;
}.

Definition ProviderName : string := providerName.

Section provider.
Context {W : Type} `{!SdkClients W, !ConfigEnvironment W, !MapRange}.
Context `{!NetworkSdk W, !Limits W, !Store W CoreSubnet}.

(** The compartment of the configuration or of the instance. *)
Definition infer_compartment (config : Config) : M W string :=
  if decide (pc_CompartmentID config = "") then metadata ← metadata_Get; mret (meta_CompartmentID metadata)
  else mret (pc_CompartmentID config).

(** The network of the configuration or of the first subnet of load balancers; a nil
    section of load balancers panics. *)
Definition infer_vcn (config : Config) : M W string :=
  lb ← lift (deref (pc_LoadBalancer config));
  if decide (lbc_Disabled lb = false ∧ pc_VCNID config = "") then
    subnet ← wrapM (NetworkingClient.GetSubnet (lbc_Subnet1 lb)) "get subnet for loadBalancer.subnet1" [];
    lift (deref (cs_VcnId subnet))
  else mret (pc_VCNID config).

Definition NewCloudProvider (config : option Config) : M W NewProvider :=
  cp ← NewConfigurationProvider config;
  config ← lift (deref config);
  let '(rateLimiter, limits) := NewRateLimiter (pc_RateLimiter config) in
  c ← New cp rateLimiter;
  compartment ← infer_compartment config;
  let config := set_config (pc_Auth config) (pc_LoadBalancer config) limits (pc_RegionKey config)
                  (pc_UseInstancePrincipals config) compartment (pc_VCNID config) config in
  vcn ← infer_vcn config;
  let config := set_config (pc_Auth config) (pc_LoadBalancer config) (pc_RateLimiter config) (pc_RegionKey config)
                  (pc_UseInstancePrincipals config) (pc_CompartmentID config) vcn config in
  mret {| np_client := c; np_config := config; np_lbLocks := NewLoadBalancerLocks |}.

(** The function that [init] registers under the name of the provider. *)
Definition register (config : option string) : M W NewProvider :=
  cfg ← ReadConfig config;
  match Validate cfg with
  | Some err => fail err
  | None => NewCloudProvider (Some cfg)
  end.
End provider.

(** ** OpenShift clusters *)

(** [labels.NewRequirement]: whether a key with values is accepted. *)
Class LabelRequirements := { NewRequirement_error : string → list string → option error }.

(** [labels.Selector] of one requirement. *)
Inductive Selector :=
| SelectEquals (key val : string)
| SelectExists (key : string).

Definition Selector_Matches (s : Selector) (labels : gmap string string) : bool :=
  match s with
  | SelectEquals key val => bool_decide (labels !! key = Some val)
  | SelectExists key => bool_decide (is_Some (labels !! key))
  end.

(** [strings.SplitN(s, "=", 2)] of a string that has the separator. *)
Definition cut_equals (s : string) : string * string :=
  match Index s "="%char with
  | Some i => (truncate i s, String.substring (S i) (String.length s - S i) s)
  | None => (s, "")
  end.

Section openshift.
Context `{!LabelRequirements}.

Definition parseOpenShiftLabelSelector (labelIdentifier : string) : error + Selector :=
  let labelIdentifier := TrimSpace labelIdentifier in
  if Contains labelIdentifier "=" then
    let '(key, val) := cut_equals labelIdentifier in
    let key := TrimSpace key in
    let val := TrimSpace val in
    if decide (key = "" ∨ val = "") then inl (Errorf "invalid label identifier %q" [labelIdentifier])
    else match NewRequirement_error key [val] with
         | Some err => inl err
         | None => inr (SelectEquals key val)
         end
  else match NewRequirement_error labelIdentifier [] with
       | Some err => inl err
       | None => inr (SelectExists labelIdentifier)
       end.

(** [env] is the value of the environment variable, empty when it is not set; [nodes] is
    what the lister of the informer holds. *)
Definition isOpenShiftCluster (env : string) (nodes : error + list Node) : bool :=
  let labelIdentifier := TrimSpace env in
  match nodes with
  | inl _ => false
  | inr nodes =>
      if decide (labelIdentifier = "")
      then existsb (λ n, bool_decide (node_Labels n !! openshiftOSLabelKey = Some openshiftOSLabelRHEL)) nodes
      else match parseOpenShiftLabelSelector labelIdentifier with
           | inl _ => false
           | inr selector => bool_decide (0 < length (filter (λ n, Selector_Matches selector (node_Labels n)) nodes))
           end
  end.

(** The state of the process at [Initialize]: its environment, the nodes in the cache when
    the cluster is looked at and after the caches are synchronised, the services and the
    secrets. *)
Record Process := {
  proc_env : string → option string;
  proc_nodes_before : error + list Node;
  proc_nodes : error + list Node;
  proc_services : lister;
  proc_Secrets : string → string → error + gmap string string;
}.

Definition GetIsFeatureEnabledFromEnv (env : option string) (defaultValue : bool) : bool :=
  match env with Some v => default defaultValue (ParseBool v) | None => defaultValue end.

(** The factory of security list managers; a nil section of load balancers panics. *)
Definition manager_for (lb : LoadBalancerConfig) (services : lister) (mode : string) : securityListManager :=
  if lbc_Disabled lb then securityListManagerNOOP
  else newSecurityListManager services (lbc_SecurityLists lb)
         (if decide (mode = "") then lbc_SecurityListManagementMode lb else mode).

Definition securityListManagerFactory (config : Config) (services : lister) (mode : string) : outcome securityListManager :=
  lb ← deref (pc_LoadBalancer config);
  mret (manager_for lb services mode).

(** Whether the controller of tags is started. *)
Definition starts_tagging_controller (p : Process) : bool :=
  isOpenShiftCluster (default "" (proc_env p openshiftNodeLabelId)) (proc_nodes_before p) &&
  negb (GetIsFeatureEnabledFromEnv (proc_env p disableInstanceTaggingController) false).

(** Whether load balancers are supported. *)
Definition LoadBalancer_supported (config : Config) : outcome bool :=
  lb ← deref (pc_LoadBalancer config); mret (negb (lbc_Disabled lb)).

(** What the handlers of services see of a provider that was initialized; a nil section of
    load balancers panics. *)
Definition handlers_view (config : Config) (p : Process) (systemTags : bool) : outcome CloudProvider :=
  lb ← deref (pc_LoadBalancer config);
  mret {| cp_CompartmentID := pc_CompartmentID config;
          cp_VCNID := pc_VCNID config;
          cp_Subnet1 := lbc_Subnet1 lb;
          cp_Subnet2 := lbc_Subnet2 lb;
          cp_Tags := (λ t, {| it_LoadBalancer := ct_LoadBalancer t; it_Common := ct_Common t |}) <$> pc_Tags config;
          cp_prefixEnv := default "" (proc_env p lbNamePrefixEnvVar);
          cp_enableOkeSystemTags := systemTags;
          cp_NodeLister := proc_nodes p;
          cp_Secrets := proc_Secrets p;
          cp_securityListManagerFactory := manager_for lb (proc_services p) |}.
End openshift.
