(* ===== verification/ConfigFacts.v ===== *)
(** * What the configuration and the start of the cloud provider guarantee

    Completion fills what is empty and keeps what is given; a provider that was started
    has what its handlers read; a client for a service account holds no other
    credentials. *)
From stdpp Require Import base tactics list gmap sets strings.
From S2P Require Import Prelude GoStrings Types ClientErrors Locks SecurityLists SecurityListManager NetworkSecurityGroups Annotations Handlers ClientCalls NetworkingClient Config Startup.




Section completion.
Context {W : Type} `{!ConfigEnvironment W}.












End completion.

(** ** Validation *)

Section validation.
Context `{!MapRange}.

(** What the source asks of the credentials, of the section of load balancers and of the
    section of metrics. *)
Definition auth_given (a : AuthConfig) : Prop :=
  auth_Region a ≠ "" ∧ auth_TenancyID a ≠ "" ∧ auth_UserID a ≠ "" ∧ auth_PrivateKey a ≠ "" ∧ auth_Fingerprint a ≠ "".
Definition lb_valid (c : Config) (lb : LoadBalancerConfig) : Prop :=
  lbc_Disabled lb = false →
  (lbc_Subnet1 lb ≠ "" ∨ pc_VCNID c ≠ "") ∧ lbc_SecurityListManagementMode lb ∈ SecurityListManagementModeChoices.
Definition metrics_given (m : MetricsConfig) : Prop :=
  mc_CompartmentID m ≠ "" ∧ mc_Namespace m ≠ "" ∧ mc_ResourceGroup m ≠ "".
Definition valid_config (c : Config) : Prop :=
  pc_CompartmentID c ≠ "" ∧ (pc_UseInstancePrincipals c = false → auth_given (pc_Auth c)) ∧
  (∀ lb, pc_LoadBalancer c = Some lb → lb_valid c lb) ∧ (∀ m, pc_Metrics c = Some m → metrics_given m).

Lemma auth_field_error_nil path k v : auth_field_error path (k, v) = [] ↔ v ≠ "".
Proof. unfold auth_field_error. repeat case_decide; naive_solver. Qed.

Lemma bind_nil {A B} (f : A → list B) (l : list A) : l ≫= f = [] ↔ ∀ x, x ∈ l → f x = [].
Proof.
  induction l as [|x l IH]; simpl; [set_solver|]. rewrite app_nil, IH. setoid_rewrite elem_of_cons. naive_solver.
Qed.

Lemma validateAuthConfig_nil a path : validateAuthConfig a path = [] ↔ auth_given a.
Proof.
  unfold validateAuthConfig. rewrite bind_nil. transitivity (∀ k v, auth_fields a !! k = Some v → v ≠ "").
  - split.
    + intros Hall k v Hkv. apply (auth_field_error_nil path k v), Hall. by apply elem_of_range.
    + intros Hall [k v] Hkv%elem_of_range. apply auth_field_error_nil. by eapply Hall.
  - unfold auth_given, auth_fields. split.
    + intros Hall. split_and!;
        [apply (Hall "region")|apply (Hall "tenancy")|apply (Hall "user")|apply (Hall "key")|apply (Hall "fingerprint")]; reflexivity.
    + intros (? & ? & ? & ? & ?) k v Hkv%elem_of_list_to_map_2. set_solver.
Qed.

Lemma choice_nil {A} (P : Prop) `{!Decision P} (x : A) : (if decide P then [x] else []) = [] ↔ ¬ P.
Proof. case_decide; naive_solver. Qed.

Lemma validateLoadBalancerConfig_nil c lb path :
  validateLoadBalancerConfig c lb path = [] ↔
  (lbc_Subnet1 lb ≠ "" ∨ pc_VCNID c ≠ "") ∧ lbc_SecurityListManagementMode lb ∈ SecurityListManagementModeChoices.
Proof.
  unfold validateLoadBalancerConfig, IsValidSecurityListManagementMode. rewrite app_nil, choice_nil, not_and_l.
  case_bool_decide; naive_solver.
Qed.

Lemma ValidateConfig_nil c : ValidateConfig c = [] ↔ valid_config c.
Proof.
  unfold ValidateConfig, valid_config. rewrite !app_nil, choice_nil.
  assert ((if pc_UseInstancePrincipals c then [] else validateAuthConfig (pc_Auth c) "auth") = [] ↔
          (pc_UseInstancePrincipals c = false → auth_given (pc_Auth c))) as ->.
  { destruct (pc_UseInstancePrincipals c); [naive_solver|]. rewrite validateAuthConfig_nil. naive_solver. }
  assert (match pc_LoadBalancer c with
          | Some lb => if lbc_Disabled lb then [] else validateLoadBalancerConfig c lb "loadBalancer"
          | None => [] end = [] ↔ ∀ lb, pc_LoadBalancer c = Some lb → lb_valid c lb) as ->.
  { unfold lb_valid. destruct (pc_LoadBalancer c) as [lb|]; [|naive_solver].
    destruct (lbc_Disabled lb) eqn:Ed; [naive_solver congruence|]. rewrite validateLoadBalancerConfig_nil. naive_solver. }
  assert (match pc_Metrics c with Some m => validate_metrics m | None => [] end = [] ↔
          ∀ m, pc_Metrics c = Some m → metrics_given m) as ->; [|done].
  unfold metrics_given, validate_metrics. destruct (pc_Metrics c) as [m|]; [|naive_solver].
  rewrite !app_nil, !choice_nil. split; [by intros Hm ? [= <-]|by intros Hm; apply Hm].
Qed.

Lemma Validate_None c : Validate c = None ↔ valid_config c.
Proof. rewrite <-ValidateConfig_nil. unfold Validate, ToAggregate. destruct (ValidateConfig c); naive_solver. Qed.
End validation.

(** ** Starting *)

(** Every client of the SDK is there, and signs with [cred]. *)
Definition signs_with (cred : ConfigurationProvider) (c : client) : Prop :=
  let sdk s := {| sdk_service := s; sdk_provider := Some cred |} in
  cl_compute c = Some (sdk ComputeService) ∧ cl_network c = Some (sdk VirtualNetworkService) ∧
  lbcl_sdk <$> cl_loadbalancer c = Some (sdk LoadBalancerService) ∧
  lbcl_sdk <$> cl_networkloadbalancer c = Some (sdk NetworkLoadBalancerService) ∧
  cl_filestorage c = Some (sdk FileStorageService) ∧ cl_bs c = Some (sdk BlockstorageService) ∧
  cl_identity c = Some (sdk IdentityService) ∧ cl_lustre c = Some (sdk LustreFileStorageService).

(** The credentials that a configuration describes.  The passphrase of the key is settled if
    the deprecated setting has it, or if there is none: what the new setting has alone is
    not read, see [passphrase_ignored]. *)
Definition describes (c : Config) (cred : ConfigurationProvider) : Prop :=
  if pc_UseInstancePrincipals c then cred = InstancePrincipal
  else let a := pc_Auth c in ∃ passphrase,
    cred = RawConfigurationProvider (auth_TenancyID a) (auth_UserID a) (auth_Region a) (auth_Fingerprint a) (auth_PrivateKey a) passphrase ∧
    (auth_Passphrase a = auth_PrivateKeyPassphrase a → passphrase = Some (auth_Passphrase a)).

Section starting.
Context {W : Type} `{!SdkClients W, !ConfigEnvironment W, !MapRange}.
Context `{!NetworkSdk W, !Limits W, !Store W CoreSubnet}.

Lemma configured_client_Ret service cp c t (w : W) sdk w' :
  configured_client service cp c t w = (Ret sdk, w') → sdk = {| sdk_service := service; sdk_provider := Some cp |}.
Proof.
  unfold configured_client, new_sdk_client. intros (sdk' & w1 & (? & w2 & _ & [= <- _])%wrapM_Ret_inv%M_bind_Ret_inv & Hr)%M_bind_Ret_inv.
  apply M_bind_Ret_inv in Hr as (? & ? & _ & Hr). by injection Hr as <- _.
Qed.

Lemma New_Ret cp lim (w : W) c w' : New cp lim w = (Ret c, w') → signs_with cp c ∧ cl_rateLimiter c = lim.
Proof.
  unfold New. intros Hr.
  repeat match type of Hr with
  | (_ ≫= _) _ = _ => apply M_bind_Ret_inv in Hr as (? & ? & ->%configured_client_Ret & Hr)
  end.
  injection Hr as <- _. done.
Qed.

Lemma NewConfigurationProvider_Ret cfg (w : W) cp w' :
  NewConfigurationProvider (Some cfg) w = (Ret cp, w') → valid_config cfg ∧ describes cfg cp.
Proof.
  unfold NewConfigurationProvider, describes. destruct (Validate cfg) eqn:Hv; [done|]. apply Validate_None in Hv.
  intros Hr. split; [done|]. destruct (pc_UseInstancePrincipals cfg).
  2:{ injection Hr as <- _. eexists. split; [done|]. by intros ->. }
  apply M_bind_Ret_inv in Hr as (? & ? & _ & Hr). by injection Hr as <- _.
Qed.

Lemma rate_limiter_defaults_idem c : rate_limiter_defaults (rate_limiter_defaults c) = rate_limiter_defaults c.
Proof. unfold rate_limiter_defaults. simpl. f_equal; repeat case_decide; done. Qed.

Lemma NewRateLimiter_stable config : NewRateLimiter (NewRateLimiter config).2 = NewRateLimiter config.
Proof.
  destruct config as [c|]; [|done]. unfold NewRateLimiter.
  cbn [default from_option id]. destruct (rl_DisableRateLimiter c) eqn:E; cbn [snd]; cbn [default from_option id fmap option_fmap option_map].
  - by rewrite E.
  - change (rl_DisableRateLimiter (rate_limiter_defaults c)) with (rl_DisableRateLimiter c). by rewrite E, rate_limiter_defaults_idem.
Qed.

(** Where the network of a provider comes from. *)
Definition vcn_found (lb : LoadBalancerConfig) (given found : string) : Prop :=
  (found = given ∧ (given ≠ "" ∨ lbc_Disabled lb = true)) ∨
  ∃ (subnet : CoreSubnet) (w w' : W), NetworkingClient.GetSubnet (lbc_Subnet1 lb) w = (Ret subnet, w') ∧ cs_VcnId subnet = Some found.

Lemma infer_vcn_Ret c (w : W) vcn w' :
  infer_vcn c w = (Ret vcn, w') →
  ∃ lb, pc_LoadBalancer c = Some lb ∧ vcn_found lb (pc_VCNID c) vcn.
Proof.
  unfold infer_vcn. intros (lb & w1 & [Hlb ->]%lift_Ret_inv & Hr)%M_bind_Ret_inv.
  exists lb. destruct (pc_LoadBalancer c) as [lb'|]; [|done]. injection Hlb as ->. split; [done|].
  case_decide as Hd.
  - apply M_bind_Ret_inv in Hr as (subnet & w2 & Hs%wrapM_Ret_inv & [Hv ->]%lift_Ret_inv).
    destruct (cs_VcnId subnet) as [v|] eqn:Ev; [|done]. injection Hv as ->. right. eauto.
  - injection Hr as <- _. left. split; [done|]. destruct (lbc_Disabled lb); naive_solver.
Qed.

Lemma NewCloudProvider_Ret cfg (w : W) p w' :
  NewCloudProvider (Some cfg) w = (Ret p, w') →
  ∃ lb, pc_LoadBalancer cfg = Some lb ∧ pc_LoadBalancer (np_config p) = Some lb ∧ valid_config cfg ∧
    (∃ cred, describes cfg cred ∧ signs_with cred (np_client p)) ∧ pc_Tags (np_config p) = pc_Tags cfg ∧
    pc_CompartmentID (np_config p) = pc_CompartmentID cfg ∧ vcn_found lb (pc_VCNID cfg) (pc_VCNID (np_config p)) ∧
    cl_rateLimiter (np_client p) = (NewRateLimiter (pc_RateLimiter (np_config p))).1 ∧
    pc_RateLimiter (np_config p) = (NewRateLimiter (pc_RateLimiter cfg)).2 ∧ np_lbLocks p = NewLoadBalancerLocks.
Proof.
  unfold NewCloudProvider. intros (cp & w1 & [Hv Hcred]%NewConfigurationProvider_Ret & Hr)%M_bind_Ret_inv.
  apply M_bind_Ret_inv in Hr as (? & ? & [[= <-] ->]%lift_Ret_inv & Hr).
  destruct (NewRateLimiter (pc_RateLimiter cfg)) as [lim limits] eqn:El.
  apply M_bind_Ret_inv in Hr as (c & w2 & [Hs Hl]%New_Ret & Hr).
  apply M_bind_Ret_inv in Hr as (comp & w3 & Hc & Hr).
  apply M_bind_Ret_inv in Hr as (vcn & w4 & (lb & Hlb & Hvcn)%infer_vcn_Ret & Hr). simpl in *. injection Hr as <- _. simpl.
  assert (comp = pc_CompartmentID cfg) as ->.
  { unfold infer_compartment in Hc. rewrite decide_False in Hc by apply Hv. by injection Hc as <- _. }
  exists lb. split_and!; try done; [by exists cp|]. pose proof (NewRateLimiter_stable (pc_RateLimiter cfg)) as Hst.
  rewrite El in Hst. simpl in Hst. by rewrite Hst, Hl.
Qed.

(** C25: When the cloud provider starts from a configuration file, the
    configuration was valid and has a section of load balancers; the provider has a
    compartment, all of its eight clients sign with the same credentials, those of the
    configuration (instance principals, or the tenancy, user, region, fingerprint and key
    that are given; with the passphrase of the key, if the deprecated setting has it too, or there is none), the rate
    limiters are those the configuration it keeps describes, no service is locked, and
    unless load balancers are disabled the mode of security lists is one of the three and
    the network is the configured one or the one of the first load balancer subnet; so
    neither the handlers of services nor the factory of security list managers meet a
    missing section. *)
Theorem register_ready reader (w : W) p w' :
  register reader w = (Ret p, w') →
  ∃ content cfg (w1 w2 : W), reader = Some content ∧ ReadConfig (Some content) w1 = (Ret cfg, w2) ∧
    valid_config cfg ∧ pc_CompartmentID (np_config p) ≠ "" ∧ (∃ cred, describes cfg cred ∧ signs_with cred (np_client p)) ∧
    cl_rateLimiter (np_client p) = (NewRateLimiter (pc_RateLimiter (np_config p))).1 ∧ np_lbLocks p = ∅ ∧
    ∃ lb, pc_LoadBalancer cfg = Some lb ∧ pc_LoadBalancer (np_config p) = Some lb ∧
      vcn_found lb (pc_VCNID cfg) (pc_VCNID (np_config p)) ∧
      (lbc_Disabled lb = false → lbc_SecurityListManagementMode lb ∈ SecurityListManagementModeChoices) ∧
      (∀ process tags, is_ret (handlers_view (np_config p) process tags) = true) ∧
      (∀ services mode, is_ret (securityListManagerFactory (np_config p) services mode) = true).
Proof.
  unfold register. intros (cfg & w1 & Hread & Hr)%M_bind_Ret_inv. destruct (Validate cfg); [done|].
  destruct reader as [content|]; [|done].
  apply NewCloudProvider_Ret in Hr as (lb & Hlb & Hlb' & Hv & Hs & _ & Hc & Hvcn & Hl & _ & Hlocks).
  exists content, cfg, w, w1. split_and!; [done..|by rewrite Hc; apply Hv|done|done|by rewrite Hlocks|].
  exists lb. split_and!; [done..| | |].
  - intros Hd. destruct Hv as (_ & _ & Hlbs & _). by apply (Hlbs lb Hlb Hd).
  - intros. unfold handlers_view. by rewrite Hlb'.
  - intros. unfold securityListManagerFactory. by rewrite Hlb'.
Qed.

(** A configuration without a section of load balancers, which validation accepts, makes
    the start panic. *)
Theorem missing_section_panics cfg (w : W) cp w1 c w2 :
  pc_LoadBalancer cfg = None →
  NewConfigurationProvider (Some cfg) w = (Ret cp, w1) →
  New cp (NewRateLimiter (pc_RateLimiter cfg)).1 w1 = (Ret c, w2) →
  NewCloudProvider (Some cfg) w = (Panic, w2).
Proof.
  intros Hlb Hcp Hnew. pose proof Hcp as [[Hcomp _] _]%NewConfigurationProvider_Ret.
  unfold NewCloudProvider. unfold mbind at 1, M_bind at 1. rewrite Hcp. unfold mbind at 1, M_bind at 1, lift at 1, deref at 1.
  destruct (NewRateLimiter (pc_RateLimiter cfg)) as [lim limits]. simpl in Hnew.
  unfold mbind at 1, M_bind at 1. rewrite Hnew. unfold mbind at 1, M_bind at 1, infer_compartment.
  rewrite decide_False by done. unfold mbind at 1, M_bind at 1, infer_vcn. simpl. by rewrite Hlb.
Qed.

(** A passphrase that is given under its new name does not reach the credentials. *)
Theorem passphrase_ignored cfg (w : W) :
  valid_config cfg → pc_UseInstancePrincipals cfg = false → auth_PrivateKeyPassphrase (pc_Auth cfg) = "" →
  NewConfigurationProvider (Some cfg) w =
  (Ret (RawConfigurationProvider (auth_TenancyID (pc_Auth cfg)) (auth_UserID (pc_Auth cfg)) (auth_Region (pc_Auth cfg))
          (auth_Fingerprint (pc_Auth cfg)) (auth_PrivateKey (pc_Auth cfg)) (Some "")), w).
Proof.
  intros Hv Hp Hk. apply Validate_None in Hv. unfold NewConfigurationProvider. by rewrite Hv, Hp, Hk.
Qed.
End starting.

(** ** Clients of service accounts *)

(** The credentials that come from a token. *)
Definition from_token (token : string) (cred : ConfigurationProvider) : Prop :=
  cred = WorkloadIdentity token ∨ ∃ url, cred = ResourcePrincipal (WorkloadIdentity token) url.

(** Every client of the SDK that [c] holds is of the service and signs with credentials
    from the token. *)
Definition only_from_token (token : string) (service : SdkService) (c : client) : Prop :=
  ∃ cred, from_token token cred ∧
    c = single_client {| sdk_service := service; sdk_provider := Some cred |} (cl_rateLimiter c).

Section workload.
Context {W : Type} `{!SdkClients W}.

(** The constructors of the SDK call a method of the provider they are given. *)
Hypothesis nil_provider_panics : ∀ service (w : W), (NewSdkClient service None w).1 = Panic.

Lemma getConfigurationProvider_Ret token url (w : W) cred w' :
  getConfigurationProvider token url w = (Ret cred, w') → from_token token cred.
Proof.
  unfold getConfigurationProvider. intros (? & w1 & _ & Hr)%M_bind_Ret_inv. case_decide.
  - apply M_bind_Ret_inv in Hr as (? & ? & _ & Hr). injection Hr as <- _. right. eauto.
  - injection Hr as <- _. by left.
Qed.

Lemma new_sdk_client_Ret service provider (w : W) sdk w' :
  new_sdk_client service provider w = (Ret sdk, w') →
  sdk = {| sdk_service := service; sdk_provider := provider |} ∧ is_Some provider.
Proof.
  intros (? & w1 & Hn & [= <- _])%M_bind_Ret_inv. split; [done|]. destruct provider; [done|].
  pose proof (nil_provider_panics service w) as Hp. by rewrite Hn in Hp.
Qed.

Lemma workload_lb_client_Ret lim service cred (w : W) c w' :
  workload_lb_client lim service cred w = (Ret (Some c), w') →
  c = {| lbcl_sdk := {| sdk_service := service; sdk_provider := Some cred |}; lbcl_rateLimiter := lim |}.
Proof.
  unfold workload_lb_client. intros (r & w1 & Ht & Hr)%M_bind_Ret_inv. unfold try in Ht.
  destruct (new_sdk_client service (Some cred) w) as [[sdk|e|] w2] eqn:E; [..|done]; injection Ht as <- <-; [|by injection Hr].
  apply new_sdk_client_Ret in E as [-> _]. apply M_bind_Ret_inv in Hr as ([] & ? & [= ] & Hr); by injection Hr as <- _.
Qed.

(** C26: Whatever client a service account token is given, for
    networking, identity, file storage or either type of load balancer, it holds exactly
    one client of the SDK, of the service that was asked for, and that one signs with
    credentials made from this token, never with those of the cluster; without a token the
    answer is the client of the cluster itself. *)
Theorem workload_identity_isolated (c : client) token rptURL tenancy :
  (∀ service, service ∈ [VirtualNetworkService; IdentityService; FileStorageService] → ∀ (w w' : W) c',
     client_for service c (Some {| oc_SaToken := Some token; oc_ParentRptURL := rptURL; oc_TenancyId := tenancy |}) w =
       (Ret (Some c'), w') →
     only_from_token token service c' ∧ cl_rateLimiter c' = cl_rateLimiter c) ∧
  (∀ lbType (w w' : W) c', client_for_load_balancer c lbType (Some token) w = (Ret (Some c'), w') →
     c' = {| lbcl_sdk := {| sdk_service := if decide (lbType = "lb") then LoadBalancerService else NetworkLoadBalancerService;
                            sdk_provider := Some (WorkloadIdentity token) |};
             lbcl_rateLimiter := cl_rateLimiter c |} ∧ (lbType = "lb" ∨ lbType = "nlb")) ∧
  (∀ service config (w : W), config ≫= oc_SaToken = None → client_for service c config w = (Ret (Some c), w)) ∧
  (∀ lbType (w : W), client_for_load_balancer c lbType None w =
     (Ret (if decide (lbType = "nlb") then cl_networkloadbalancer c
           else if decide (lbType = "lb") then cl_loadbalancer c else None), w)).
Proof.
  split_and!.
  - intros service _ w w' c' Hr. unfold client_for in Hr. simpl in Hr.
    apply M_bind_Ret_inv in Hr as (r & w1 & Ht & Hr).
    assert (∀ cred, r = inr cred → from_token token cred) as Hfrom.
    { intros cred ->. unfold try in Ht. destruct (getConfigurationProvider token rptURL w) as [[]] eqn:E; simplify_eq.
      by apply getConfigurationProvider_Ret in E. }
    apply M_bind_Ret_inv in Hr as (r2 & w2 & Ht2 & Hr). unfold try in Ht2.
    destruct (new_sdk_client _ _ w1) as [[sdk|e|] w3] eqn:E; [..|done]; injection Ht2 as <- <-; [|by injection Hr].
    apply new_sdk_client_Ret in E as [-> [cred Hcred]]. destruct r as [|cred']; [done|]. injection Hcred as ->.
    apply M_bind_Ret_inv in Hr as (r3 & w4 & [= <- <-] & Hr). injection Hr as <- _. split; [|done].
    exists cred. split; [by apply Hfrom|done].
  - intros lbType w w' c' Hr. unfold client_for_load_balancer in Hr.
    apply M_bind_Ret_inv in Hr as ([e|?] & w1 & _ & Hr); [by injection Hr|].
    case_decide; [apply workload_lb_client_Ret in Hr as ->; auto|].
    case_decide; [apply workload_lb_client_Ret in Hr as ->; auto|by injection Hr].
  - intros service [cfg|] w Hc; [|done]. simpl in Hc. unfold client_for. by rewrite Hc.
  - done.
Qed.

(** A token the credentials cannot be made from makes the accessors of services panic,
    while the load balancer client is nil. *)
Theorem bad_token_panics (c : client) service token tenancy (w : W) e w1 :
  OkeWorkloadIdentityConfigurationProvider token w = (Err e, w1) →
  (client_for service c (Some {| oc_SaToken := Some token; oc_ParentRptURL := ""; oc_TenancyId := tenancy |}) w).1 = Panic ∧
  ∀ lbType, (client_for_load_balancer c lbType (Some token) w).1 = Ret None.
Proof.
  intros E. split.
  - unfold client_for. simpl. unfold mbind at 1, M_bind at 1, try at 1, getConfigurationProvider, mbind at 1, M_bind at 1.
    rewrite E. unfold mbind at 1, M_bind at 1, try at 1, new_sdk_client, mbind at 1, M_bind at 1.
    pose proof (nil_provider_panics service w1) as Hp. by destruct (NewSdkClient service None w1) as [[] ?].
  - intros lbType. unfold client_for_load_balancer, mbind, M_bind, try. by rewrite E.
Qed.
End workload.

(** ** OpenShift clusters *)

Section openshift.
Context `{!LabelRequirements}.

(** The label that marks a node of OpenShift. *)
Definition openshift_selector (env : string) : error + Selector :=
  if decide (TrimSpace env = "") then inr (SelectEquals openshiftOSLabelKey openshiftOSLabelRHEL)
  else parseOpenShiftLabelSelector (TrimSpace env).

(** A cluster is taken for OpenShift when a node in the cache has the label. *)
Theorem isOpenShiftCluster_correct env nodes :
  isOpenShiftCluster env nodes = true ↔
  ∃ l selector n, nodes = inr l ∧ openshift_selector env = inr selector ∧ n ∈ l ∧ Selector_Matches selector (node_Labels n) = true.
Proof.
  unfold isOpenShiftCluster, openshift_selector. destruct nodes as [e|l]; [naive_solver|]. case_decide.
  - rewrite existsb_exists. setoid_rewrite <-list_elem_of_In. naive_solver.
  - destruct (parseOpenShiftLabelSelector (TrimSpace env)) as [e|sel]; [naive_solver|].
    rewrite bool_decide_eq_true. transitivity (∃ n, n ∈ filter (λ n, Selector_Matches sel (node_Labels n)) l).
    + split; [|by intros [n Hn]; destruct (filter _ l); [set_solver|simpl; lia]].
      destruct (filter _ l) as [|n l']; simpl; [lia|]. intros _. exists n. by left.
    + setoid_rewrite list_elem_of_filter. setoid_rewrite Is_true_true. naive_solver.
Qed.
End openshift.
