(* ===== verification/StartupMemory.v ===== *)
(** * Starting the cloud provider on a cloud in memory

    A metadata service, a configuration file and constructors of clients for the cloud of
    [CloudMemory], with which the theorems of [ConfigFacts] are applied. *)
From stdpp Require Import base tactics list gmap sets strings.
From S2P Require Import Prelude GoStrings Types ClientErrors Locks SecurityLists SecurityListManager NetworkSecurityGroups Annotations Handlers ClientCalls FileStorageMemory NetworkingClient CloudMemory Config Startup ConfigFacts.

(** An instance whose metadata has the body "{}" of a response. *)
Definition start_metadata : InstanceMetadata := {|
  meta_CompartmentID := "ocid1.compartment"; meta_Region := "phx"; meta_CanonicalRegionName := "us-phoenix-1" |}.

Definition start_auth : AuthConfig := {|
  auth_Region := ""; auth_TenancyID := "ocid1.tenancy"; auth_UserID := "ocid1.user"; auth_PrivateKey := "key";
  auth_Fingerprint := "aa:bb"; auth_Passphrase := ""; auth_RegionKey := ""; auth_UseInstancePrincipals := false;
  auth_CompartmentID := ""; auth_PrivateKeyPassphrase := "secret" |}.
Definition start_lb : LoadBalancerConfig := {|
  lbc_Disabled := false; lbc_DisableSecurityListManagement := false; lbc_SecurityListManagementMode := "";
  lbc_Subnet1 := "subnet"; lbc_Subnet2 := ""; lbc_SecurityLists := None |}.
Definition start_config : Config := {|
  pc_Auth := start_auth; pc_LoadBalancer := Some start_lb; pc_RateLimiter := None; pc_Metrics := None; pc_Tags := None;
  pc_RegionKey := ""; pc_UseInstancePrincipals := false; pc_CompartmentID := ""; pc_VCNID := "" |}.

Definition start_environment {S} : ConfigEnvironment S := {|
  http_Do url headers w := (Ret (200%Z, "{}"), w);
  json_InstanceMetadata body := inr start_metadata;
  os_Open path w := (if decide (path = "/etc/oci/config.yaml") then Ret "config" else Err (Errorf "open %s" [path]), w);
  yaml_Config content := if decide (content = "config") then inr (Some start_config) else inl (Errorf "yaml" []);
  InstancePrincipalConfigurationProvider w := (Ret (), w);
|}.

Definition start_clients {S} : SdkClients S := {|
  NewSdkClient service provider w := (match provider with Some _ => Ret () | None => Panic end, w);
  OkeWorkloadIdentityConfigurationProvider token w := (if decide (token = "") then Err (Errorf "token" []) else Ret (), w);
  ResourcePrincipalV3 parent url w := (Ret (), w);
|}.
#[local] Existing Instances start_environment start_clients cloud_network cloud_subnet_cache fss_limits_open list_range.



(** The provider that starts, and what it keeps. *)
Lemma register_ready_witness :
  ∃ p w', register (Some "config") cloud_start = (Ret p, w') ∧ pc_VCNID (np_config p) = "vcn" ∧
    pc_CompartmentID (np_config p) ≠ "" ∧
    signs_with (RawConfigurationProvider "ocid1.tenancy" "ocid1.user" "us-phoenix-1" "aa:bb" "key" (Some "secret")) (np_client p) ∧
    ∀ services mode, is_ret (securityListManagerFactory (np_config p) services mode) = true.
Proof.
  destruct (register (Some "config") cloud_start) as [o w'] eqn:E.
  assert (∃ p, o = Ret p ∧ pc_VCNID (np_config p) = "vcn") as (p & -> & Hvcn).
  { vm_compute in E. injection E as <- _. eexists. split; reflexivity. }
  pose proof (register_ready _ _ _ _ E) as (content & cfg & w1 & w2 & [= <-] & Hread & _ & Hc & (cred & Hd & Hs) & _ & _ & lb & _ & _ & _ & _ & _ & Hf).
  exists p, w'. split_and!; [done|exact Hvcn|exact Hc| |exact Hf].
  vm_compute in Hread. injection Hread as <- _. destruct Hd as (pass & -> & Hpass). by rewrite (Hpass eq_refl) in Hs.
Defined.

Definition start_client : client :=
  let sdk s := {| sdk_service := s; sdk_provider := Some InstancePrincipal |} in
  let lim := {| Reader := FakeAlwaysRateLimiter; Writer := FakeAlwaysRateLimiter |} in
  {| cl_compute := Some (sdk ComputeService); cl_network := Some (sdk VirtualNetworkService);
     cl_loadbalancer := Some (NewLBClient (sdk LoadBalancerService) lim);
     cl_networkloadbalancer := Some (NewNLBClient (sdk NetworkLoadBalancerService) lim);
     cl_filestorage := Some (sdk FileStorageService); cl_bs := Some (sdk BlockstorageService);
     cl_identity := Some (sdk IdentityService); cl_lustre := Some (sdk LustreFileStorageService); cl_rateLimiter := lim |}.

Definition account_config : OCIClientConfig :=
  {| oc_SaToken := Some "token"; oc_ParentRptURL := "https://rpt"; oc_TenancyId := "tenancy" |}.

Lemma workload_identity_isolated_witness :
  ∃ c', client_FSS start_client (Some account_config) cloud_start = (Ret (Some c'), cloud_start) ∧
    only_from_token "token" FileStorageService c'.
Proof.
  eexists. split; [lazy -[single_client cloud_start]; reflexivity|].
  refine (proj1 (proj1 (workload_identity_isolated (W := cloud) (λ _ _, eq_refl) start_client "token" "https://rpt" "tenancy")
                   FileStorageService _ cloud_start cloud_start _ _)); [set_solver|]. reflexivity.
Defined.
