(* ===== verification/Flexvolume.v ===== *)
(** * The Flexvolume driver (src/pkg/flexvolume)

    The call-outs of the kubelet (flexvolume.go), the decoding of secrets (kube.go) and the
    driver of OCI block volumes (block/driver.go): attaching and detaching at the control
    plane, and mounting on the node.  What is made of JSON and of a kubeconfig file is the
    class [FlexEnvironment]. *)
From stdpp Require Import base tactics list gmap sets strings.
From Stdlib Require Import Ascii.
From S2P Require Import Prelude GoStrings GoRegexp Types ClientErrors Spec ClientCalls CsiUtil StorageClient NetworkingClient ComputeClient Host NodeServices Disk Config Startup.

Definition StatusSuccess : string := "Success".
Definition StatusFailure : string := "Failure".
Definition StatusNotSupported : string := "Not supported".
Definition OptionFSType : string := "kubernetes.io/fsType".
Definition OptionReadWrite : string := "kubernetes.io/readwrite".
Definition OptionKeySecret : string := "kubernetes.io/secret".
Definition volumeNameKey : string := "kubernetes.io/pvOrVolumeName".
Definition ocidPrefix : string := "ocid1.".
Definition iscsiError : string := "Only ISCSI volume attachments are currently supported".

Record DriverStatus := {
  ds_Status : string;
  ds_Message : string;
  ds_Device : string;
  ds_Attached : bool;
}.

Abbreviation Options := (gmap string string).

Definition Fail_status (message : string) : DriverStatus :=
  {| ds_Status := StatusFailure; ds_Message := message; ds_Device := ""; ds_Attached := false |}.
Definition Succeed (message : string) : DriverStatus :=
  {| ds_Status := StatusSuccess; ds_Message := message; ds_Device := ""; ds_Attached := false |}.
Definition NotSupported (message : string) : DriverStatus :=
  {| ds_Status := StatusNotSupported; ds_Message := message; ds_Device := ""; ds_Attached := false |}.
Definition with_device (device : string) : DriverStatus :=
  {| ds_Status := StatusSuccess; ds_Message := ""; ds_Device := device; ds_Attached := false |}.

(** ** Base64 *)

(** The value of a character of the standard alphabet, in six bits, the highest first. *)
Definition sextet : Type := bool * bool * bool * bool * bool * bool.

Definition bits6 (n : nat) : sextet :=
  (Nat.testbit n 5, Nat.testbit n 4, Nat.testbit n 3, Nat.testbit n 2, Nat.testbit n 1, Nat.testbit n 0).

Definition base64_value (c : ascii) : option nat :=
  let n := nat_of_ascii c in
  if decide (65 ≤ n ≤ 90) then Some (n - 65)
  else if decide (97 ≤ n ≤ 122) then Some (n - 71)
  else if decide (48 ≤ n ≤ 57) then Some (n + 4)
  else if decide (n = 43) then Some 62
  else if decide (n = 47) then Some 63
  else None.
Definition base64_sextet (c : ascii) : option sextet := bits6 <$> base64_value c.

(** The bytes of four characters, of three before a padding, and of two before two. *)
Definition byte1 (a b : sextet) : ascii :=
  let '(a5, a4, a3, a2, a1, a0) := a in let '(b5, b4, _, _, _, _) := b in Ascii b4 b5 a0 a1 a2 a3 a4 a5.
Definition byte2 (b c : sextet) : ascii :=
  let '(_, _, b3, b2, b1, b0) := b in let '(c5, c4, c3, c2, _, _) := c in Ascii c2 c3 c4 c5 b0 b1 b2 b3.
Definition byte3 (c d : sextet) : ascii :=
  let '(_, _, _, _, c1, c0) := c in let '(d5, d4, d3, d2, d1, d0) := d in Ascii d0 d1 d2 d3 d4 d5 c0 c1.

Definition is_padding (c : ascii) : bool := bool_decide (c = "="%char).

(** What [base64.StdEncoding.DecodeString] makes of a text without line ends. *)
Fixpoint decode_quads (s : string) : option string :=
  match s with
  | EmptyString => Some ""
  | String a (String b (String c (String d rest))) =>
      x ← base64_sextet a;
      y ← base64_sextet b;
      if is_padding c then
        if is_padding d && bool_decide (rest = "") then Some (String (byte1 x y) "") else None
      else
        z ← base64_sextet c;
        if is_padding d then
          if bool_decide (rest = "") then Some (String (byte1 x y) (String (byte2 y z) "")) else None
        else
          u ← base64_sextet d;
          bytes ← decode_quads rest;
          Some (String (byte1 x y) (String (byte2 y z) (String (byte3 z u) bytes)))
  | _ => None
  end.

(** Line ends are skipped. *)
Definition base64_Decode (s : string) : option string :=
  decode_quads (filter_string (λ c, negb (bool_decide (c = "010"%char ∨ c = "013"%char))) s).

(** ** Options (kube.go) *)

(** A text between double quotes. *)
Definition quoted (s : string) : string := String "034" s +:+ String "034" "".

(** What a [Sprint] of a slice of strings shows. *)
Definition show_args (args : list string) : string := "[" +:+ join " " args +:+ "]".

Class FlexEnvironment (W : Type) := {
  json_Options : string → error + Options;
  json_DriverStatus : DriverStatus → error + string;
  os_Getenv : string → string;
  BuildKubeClient : string → M W ();
}.

Section options.
Context `{!MapRange}.

(** An entry that is a secret is replaced by what it encodes, in the map that is ranged
    over; the error leaves out the position of the character that is not accepted. *)
Definition decode_entry (opts : outcome Options) (entry : string * string) : outcome Options :=
  opts ← opts;
  let '(k, opt) := entry in
  if HasPrefix k OptionKeySecret then
    match base64_Decode opt with
    | None => Err (Errorf "unable to decode secret %q: %v" [k; "illegal base64 data"])
    | Some secret => mret (<[k := secret]> opts)
    end
  else mret opts.

Definition DecodeKubeSecrets (opts : Options) : outcome Options := foldl decode_entry (Ret opts) (range 3 opts).
End options.

(** ** Call-outs (flexvolume.go) *)

(** The interface [Driver]. *)
Class Driver (W : Type) := {
  driver_Init : M W DriverStatus;
  driver_Attach : Options → string → M W DriverStatus;
  driver_Detach : string → string → M W DriverStatus;
  driver_WaitForAttach : string → Options → M W DriverStatus;
  driver_IsAttached : Options → string → M W DriverStatus;
  driver_MountDevice : string → string → Options → M W DriverStatus;
  driver_UnmountDevice : string → M W DriverStatus;
  driver_Mount : string → Options → M W DriverStatus;
  driver_Unmount : string → M W DriverStatus;
}.

Definition exit_code (result : DriverStatus) : Z :=
  if decide (ds_Status result = StatusSuccess ∨ ds_Status result = StatusNotSupported) then 0 else 1.

Section exec.
Context {W : Type} `{!FlexEnvironment W, !Driver W, !MapRange, !ErrorText}.

(** What is printed, and the code the process exits with. *)
Definition ExitWithResult (result : DriverStatus) : M W (string * Z) :=
  mret (match json_DriverStatus result with
        | inl _ => "{" +:+ quoted "status" +:+ ":" +:+ quoted "Failure" +:+ "," +:+ quoted "message" +:+ ":"
                   +:+ quoted "Error marshaling result to JSON" +:+ "}"
        | inr s => s
        end, exit_code result).

Definition exit_failure (message : string) : M W (string * Z) := ExitWithResult (Fail_status message).

Definition processOpts (optsStr : string) : outcome Options :=
  match json_Options optsStr with
  | inl err => Err (Errorf "failed to unmarshal options %q: %v" [optsStr; Error err])
  | inr opts => DecodeKubeSecrets opts
  end.

(** A call-out with options: bad ones end the process. *)
Definition with_options (optsStr : string) (body : Options → M W (string * Z)) : M W (string * Z) :=
  match processOpts optsStr with
  | Ret opts => body opts
  | Err err => exit_failure (Error err)
  | Panic => lift Panic
  end.

Definition exit_with (call : M W DriverStatus) : M W (string * Z) := result ← call; ExitWithResult result.

Definition wrong_arguments (message : string) (args : list string) : M W (string * Z) :=
  exit_failure (message +:+ show_args args).

(** The call-out that the arguments name; [os.Exit] ends each of them. *)
Definition ExecDriver (args : list string) : M W (string * Z) :=
  match args with
  | binary :: command :: params =>
      if decide (command = "init") then exit_with driver_Init
      else if decide (command = "getvolumename")
      then ExitWithResult (NotSupported "getvolumename is broken as of kube 1.6.4")
      else if decide (command = "attach") then
        match params with
        | [opts; nodeName] => with_options opts (λ opts, exit_with (driver_Attach opts nodeName))
        | _ => wrong_arguments "attach expected exactly 4 arguments; got " args
        end
      else if decide (command = "detach") then
        match params with
        | [mountDevice; nodeName] => exit_with (driver_Detach mountDevice nodeName)
        | _ => wrong_arguments "detach expected exactly 4 arguments; got " args
        end
      else if decide (command = "waitforattach") then
        match params with
        | [mountDevice; opts] => with_options opts (λ opts, exit_with (driver_WaitForAttach mountDevice opts))
        | _ => wrong_arguments "waitforattach expected exactly 4 arguments; got " args
        end
      else if decide (command = "isattached") then
        match params with
        | [opts; nodeName] => with_options opts (λ opts, exit_with (driver_IsAttached opts nodeName))
        | _ => wrong_arguments "isattached expected exactly 4 arguments; got " args
        end
      else if decide (command = "mountdevice") then
        match params with
        | [mountDir; mountDevice; opts] => with_options opts (λ opts, exit_with (driver_MountDevice mountDir mountDevice opts))
        | _ => wrong_arguments "mountdevice expected exactly 5 arguments; got " args
        end
      else if decide (command = "unmountdevice") then
        match params with
        | [mountDir] => exit_with (driver_UnmountDevice mountDir)
        | _ => wrong_arguments "unmountdevice expected exactly 3 arguments; got " args
        end
      else if decide (command = "mount") then
        match params with
        | [mountDir; opts] => with_options opts (λ opts, exit_with (driver_Mount mountDir opts))
        | _ => wrong_arguments "mount expected exactly 4 arguments; got " args
        end
      else if decide (command = "unmount") then
        match params with
        | [mountDir] => exit_with (driver_Unmount mountDir)
        | _ => wrong_arguments "mount expected exactly 3 arguments; got " args
        end
      else exit_failure ("Invalid command; got " +:+ show_args args)
  | _ => exit_failure "Expected at least one argument."
  end.
End exec.

(** ** The driver of block volumes (block/driver.go) *)

(** [strings.TrimRight(s, "/")]. *)
Fixpoint trim_right_slashes (s : string) : string :=
  match s with
  | EmptyString => ""
  | String c s' =>
      let t := trim_right_slashes s' in
      if decide (t = "" ∧ c = "/"%char) then "" else String c t
  end.

Definition deriveVolumeOCID (regionKey volumeName : string) : string :=
  if HasPrefix volumeName ocidPrefix then volumeName
  else "ocid1.volume.oc1." +:+ regionKey +:+ "." +:+ volumeName.

(** [diskIDByPathTemplate]: the unit is always 1. *)
Definition disk_by_path (ipv4 : string) (port : Z) (iqn : string) : string :=
  "/dev/disk/by-path/ip-" +:+ ipv4 +:+ ":" +:+ Itoa port +:+ "-iscsi-" +:+ iqn +:+ "-lun-1".

(** The device of an attachment; nil fields panic. *)
Definition iscsi_device (iscsi : IScsiDetails) : outcome DriverStatus :=
  ip ← deref (iscsi_Ipv4 iscsi);
  port ← deref (iscsi_Port iscsi);
  iqn ← deref (iscsi_Iqn iscsi);
  mret (with_device (disk_by_path ip port iqn)).

Definition getISCSIAttachment (attachment : VolumeAttachment) : outcome IScsiDetails :=
  match va_iscsi attachment with Some iscsi => mret iscsi | None => Err (Errorf iscsiError []) end.

Section driver.
Context {W : Type} `{!FlexEnvironment W, !ConfigEnvironment W, !SdkClients W, !MapRange, !ErrorText}.
Context `{!Limits W, !KubeNodes W, !StorageSdk W, !ComputeSdk W, !Host W, !DiskHost W}.

(** ** Paths *)

Definition GetDriverDirectory : string :=
  let path := os_Getenv "OCI_FLEXD_DRIVER_DIRECTORY" in
  if decide (path = "") then "/usr/libexec/kubernetes/kubelet-plugins/volume/exec/oracle~oci" else path.
Definition GetConfigDirectory : string :=
  let path := os_Getenv "OCI_FLEXD_CONFIG_DIRECTORY" in
  if decide (path ≠ "") then path else GetDriverDirectory.
Definition GetConfigPath : string := Join [GetConfigDirectory; "config.yaml"].
Definition GetKubeconfigPath : string :=
  let kcp := os_Getenv "OCI_FLEXD_KUBECONFIG_PATH" in
  if decide (kcp = "") then trim_right_slashes GetConfigDirectory +:+ "/" +:+ "kubeconfig" else kcp.

Definition constructKubeClient : M W () := BuildKubeClient GetKubeconfigPath.

(** Whether the driver runs on a master; a panic is turned into an error.  A state of the
    file that is not known counts as a master. *)
Definition NewOCIFlexvolumeDriver : M W bool := λ w,
  match (r ← try (os_Stat GetConfigPath);
         match r with
         | inl err => if os_IsNotExist err then mret false else _ ← constructKubeClient; mret true
         | inr _ => _ ← constructKubeClient; mret true
         end) w with
  | (Panic, w') => (Err (Errorf "%+v" []), w')
  | r => r
  end.

(** A step whose error is the message of the status; the continuation answers a status. *)
Definition or_fail {A} (prefix : string) (c : M W A) (k : A → M W DriverStatus) : M W DriverStatus :=
  r ← try c;
  match r with inl err => mret (Fail_status (prefix +:+ Error err)) | inr a => k a end.

Definition flex_Init (master : bool) : M W DriverStatus :=
  if master then
    or_fail "" (FromFile GetConfigPath) (λ cfg,
    or_fail "" (GetClient cfg) (λ _,
    or_fail "" constructKubeClient (λ _, mret (Succeed ""))))
  else mret (Succeed "").

Definition lookupNodeID (nodeName : string) : M W string :=
  n ← Nodes_Get nodeName;
  if decide (node_ProviderID n = "") then fail (Errorf "node is missing provider id" []) else mret (node_ProviderID n).

(** ** Attaching *)

(** The status of an attachment that is there. *)
Definition attached_status (attachment : VolumeAttachment) : M W DriverStatus :=
  r ← try (lift (getISCSIAttachment attachment));
  match r with
  | inl _ => mret (Fail_status iscsiError)
  | inr iscsi => lift (iscsi_device iscsi)
  end.

(** A new attachment is made and awaited, without a deadline. *)
Definition attach_volume (instanceId volumeOCID : string) : M W DriverStatus :=
  or_fail "Failed to attach volume: " (AttachVolume instanceId volumeOCID false) (λ attachment,
  id ← lift (deref (va_Id attachment));
  or_fail "" (WaitForVolumeAttached None id) (λ attachment,
  _ ← lift (deref (va_Id attachment));
  attached_status attachment)).

Definition attach_instance (fuel : nat) (volumeOCID : string) (instance : CoreInstance) : M W DriverStatus :=
  compartmentID ← lift (deref (ci_CompartmentId instance));
  '(attachment, err) ← FindVolumeAttachment fuel compartmentID volumeOCID None;
  match err with
  | None =>
      attachment ← lift (deref attachment);
      attachedTo ← lift (deref (va_InstanceId attachment));
      instanceId ← lift (deref (ci_Id instance));
      if decide (attachedTo ≠ instanceId) then mret (Fail_status ("Already attached to another instance: " +:+ attachedTo))
      else attached_status attachment
  | Some err =>
      if IsNotFound (Some err) then instanceId ← lift (deref (ci_Id instance)); attach_volume instanceId volumeOCID
      else mret (Fail_status ("Got error in finding volume attachment" +:+ Error err))
  end.

Definition flex_Attach (fuel : nat) (opts : Options) (nodeName : string) : M W DriverStatus :=
  or_fail "" (FromFile GetConfigPath) (λ cfg,
  let volumeOCID := deriveVolumeOCID (pc_RegionKey cfg) (default "" (opts !! volumeNameKey)) in
  or_fail "" (GetClient cfg) (λ _,
  or_fail "Failed to look up node id: " (lookupNodeID nodeName) (λ id,
  or_fail "Failed to map nodes provider id to instance id: " (lift (MapProviderIDToResourceID id)) (λ id,
  or_fail "Failed to get instance: " (ComputeClient.GetInstance id) (λ instance,
  attach_instance fuel volumeOCID instance))))).

(** ** Detaching *)

Definition detach_attachment (attachment : VolumeAttachment) : M W DriverStatus :=
  id ← lift (deref (va_Id attachment));
  or_fail "" (DetachVolume id) (λ _,
  or_fail "" (WaitForVolumeDetached None id) (λ _,
  mret (Succeed "Volume detachment completed."))).

Definition flex_Detach (fuel : nat) (pvOrVolumeName nodeName : string) : M W DriverStatus :=
  or_fail "" (FromFile GetConfigPath) (λ cfg,
  or_fail "" (GetClient cfg) (λ _,
  let volumeOCID := deriveVolumeOCID (pc_RegionKey cfg) pvOrVolumeName in
  r ← try (LookupNodeCompartment nodeName);
  match r with
  | inl err =>
      if k8sapierrors_IsNotFound (Some err) then mret (Succeed "Volume detachment completed.")
      else mret (Fail_status ("failed to get compartmentID from node annotation: " +:+ Error err))
  | inr compartmentID =>
      '(attachment, err) ← FindVolumeAttachment fuel compartmentID volumeOCID None;
      match err with
      | Some err => mret (Fail_status ("Failed to find volume attachment: " +:+ Error err))
      | None => attachment ← lift (deref attachment); detach_attachment attachment
      end
  end)).

Definition flex_WaitForAttach (mountDevice : string) : M W DriverStatus := mret (with_device mountDevice).

Definition flex_IsAttached (fuel : nat) (opts : Options) (nodeName : string) : M W DriverStatus :=
  or_fail "" (FromFile GetConfigPath) (λ cfg,
  or_fail "" (GetClient cfg) (λ _,
  let volumeOCID := deriveVolumeOCID (pc_RegionKey cfg) (default "" (opts !! volumeNameKey)) in
  or_fail "Failed to look up node compartment id: " (LookupNodeCompartment nodeName) (λ compartmentID,
  '(attachment, err) ← FindVolumeAttachment fuel compartmentID volumeOCID None;
  match err with
  | Some err => mret {| ds_Status := StatusSuccess; ds_Message := Error err; ds_Device := ""; ds_Attached := false |}
  | None =>
      attachment ← lift (deref attachment);
      _ ← lift (deref (va_Id attachment));
      mret {| ds_Status := StatusSuccess; ds_Message := ""; ds_Device := ""; ds_Attached := true |}
  end))).

(** ** On the node *)

(** After the login: the device is awaited, formatted if need be, and mounted. *)
Definition mount_logged_in (h : handler) (mountDir mountDevice : string) (opts : Options) : M W DriverStatus :=
  or_fail "" (lift (GetScsiInfo mountDevice)) (λ scsiInfo,
  r ← try (WaitForDevicePathToExist None h (Some scsiInfo));
  match r with
  | inl _ => mret (Fail_status (Error (StatusError InvalidArgument "Failed to get device path for iscsi volume" [])))
  | inr devicePath =>
      let options := if decide (default "" (opts !! OptionReadWrite) = "ro") then ["ro"] else [] in
      or_fail "" (FormatAndMount h devicePath mountDir (default "" (opts !! OptionFSType)) options) (λ _, mret (Succeed ""))
  end).

Definition flex_MountDevice (mountDir mountDevice : string) (opts : Options) : M W DriverStatus :=
  or_fail "" (lift (NewFromDevicePath mountDevice)) (λ h,
  or_fail "" (DeviceOpened h mountDevice) (λ isMounted,
  if isMounted : bool then mret (Succeed "Device already mounted. Nothing to do.") else
  or_fail "" (AddToDB h) (λ h,
  or_fail "" (SetAutomaticLogin h) (λ h,
  or_fail "" (Login h) (λ h, mount_logged_in h mountDir mountDevice opts))))).

Definition flex_UnmountDevice (mountPath : string) : M W DriverStatus :=
  r ← try (NewFromMountPointPath mountPath);
  match r with
  | inl err =>
      if decide (err = ErrMountPointNotFound) then mret (Succeed "Mount point not found. Nothing to do.")
      else mret (Fail_status (Error err))
  | inr h =>
      or_fail "" (handler_UnmountPath h mountPath) (λ _,
      or_fail "" (Logout h) (λ h,
      or_fail "" (RemoveFromDB h) (λ _, mret (Succeed ""))))
  end.

Definition flex_Mount : M W DriverStatus := mret (NotSupported "").
Definition flex_Unmount : M W DriverStatus := mret (NotSupported "").

(** The driver as the call-outs use it; [fuel] bounds the pages of a listing. *)
Definition OCIFlexvolumeDriver (fuel : nat) (master : bool) : Driver W := {|
  driver_Init := flex_Init master;
  driver_Attach := flex_Attach fuel;
  driver_Detach := flex_Detach fuel;
  driver_WaitForAttach mountDevice _ := flex_WaitForAttach mountDevice;
  driver_IsAttached := flex_IsAttached fuel;
  driver_MountDevice := flex_MountDevice;
  driver_UnmountDevice := flex_UnmountDevice;
  driver_Mount _ _ := flex_Mount;
  driver_Unmount _ := flex_Unmount;
|}.
End driver.
