(* ===== verification/FlexvolumeFacts.v ===== *)
(** * What the Flexvolume driver guarantees

    Secrets of the options are decoded whatever the order in which the map is ranged over,
    every call-out reaches exactly the method that its arguments name, a volume is attached
    to one instance only and its device leads the node to the target, and mounting and
    unmounting on the node. *)
From stdpp Require Import base tactics list gmap sets strings.
From Stdlib Require Import Ascii.
From S2P Require Import Prelude GoStrings Types ClientErrors ClientCalls CsiUtil Flexvolume.

(** ** Base64 *)

Definition base64_alphabet : string := "ABCDEFGHIJKLMNOPQRSTUVWXYZabcdefghijklmnopqrstuvwxyz0123456789+/".

Definition sextet_value (x : sextet) : nat :=
  let '(a, b, c, d, e, f) := x in
  32 * Nat.b2n a + 16 * Nat.b2n b + 8 * Nat.b2n c + 4 * Nat.b2n d + 2 * Nat.b2n e + Nat.b2n f.
Definition base64_char (x : sextet) : ascii := default "="%char (String.get (sextet_value x) base64_alphabet).

(** The six bits from a byte and from what follows it. *)
Definition high6 (a : ascii) : sextet := let '(Ascii _ _ a2 a3 a4 a5 a6 a7) := a in (a7, a6, a5, a4, a3, a2).
Definition mid6 (a b : ascii) : sextet :=
  let '(Ascii a0 a1 _ _ _ _ _ _) := a in let '(Ascii _ _ _ _ b4 b5 b6 b7) := b in (a1, a0, b7, b6, b5, b4).
Definition low6 (b c : ascii) : sextet :=
  let '(Ascii b0 b1 b2 b3 _ _ _ _) := b in let '(Ascii _ _ _ _ _ _ c6 c7) := c in (b3, b2, b1, b0, c7, c6).
Definition last6 (c : ascii) : sextet := let '(Ascii c0 c1 c2 c3 c4 c5 _ _) := c in (c5, c4, c3, c2, c1, c0).

(** The standard encoding, of RFC 4648. *)
Fixpoint base64_Encode (s : string) : string :=
  match s with
  | EmptyString => ""
  | String a EmptyString => String (base64_char (high6 a)) (String (base64_char (mid6 a "000")) "==")
  | String a (String b EmptyString) =>
      String (base64_char (high6 a)) (String (base64_char (mid6 a b)) (String (base64_char (low6 b "000")) "="))
  | String a (String b (String c rest)) =>
      String (base64_char (high6 a)) (String (base64_char (mid6 a b))
        (String (base64_char (low6 b c)) (String (base64_char (last6 c)) (base64_Encode rest))))
  end.

Lemma base64_char_sextet x : base64_sextet (base64_char x) = Some x.
Proof. destruct x as [[[[[[] []] []] []] []] []]; vm_compute; reflexivity. Qed.

Definition kept (c : ascii) : bool := negb (bool_decide (c = "010"%char ∨ c = "013"%char)).
Lemma base64_char_plain x : is_padding (base64_char x) = false ∧ kept (base64_char x) = true.
Proof. destruct x as [[[[[[] []] []] []] []] []]; vm_compute; split; reflexivity. Qed.

Lemma bytes_back a b c :
  byte1 (high6 a) (mid6 a b) = a ∧ byte2 (mid6 a b) (low6 b c) = b ∧ byte3 (low6 b c) (last6 c) = c.
Proof. by destruct a, b, c. Qed.

(** Three bytes at a time. *)
Lemma string_ind3 (P : string → Prop) :
  P "" → (∀ a, P (String a "")) → (∀ a b, P (String a (String b ""))) →
  (∀ a b c s, P s → P (String a (String b (String c s)))) → ∀ s, P s.
Proof.
  intros H0 H1 H2 H3. enough (∀ n s, String.length s ≤ n → P s) as Hn by (intros s; by eapply Hn).
  induction n as [|n IH]; intros [|a [|b [|c s]]] Hl; simpl in Hl; try done; try lia. apply H3, IH. lia.
Qed.

Lemma encode_kept s : filter_string kept (base64_Encode s) = base64_Encode s.
Proof.
  induction s as [|a|a b|a b c s IH] using string_ind3; [done|..]; simpl;
    by rewrite ?(proj2 (base64_char_plain _)), ?IH.
Qed.

Lemma decode_encode s : decode_quads (base64_Encode s) = Some s.
Proof.
  induction s as [|a|a b|a b c s IH] using string_ind3; [done|..]; cbn [base64_Encode decode_quads];
    rewrite !base64_char_sextet; cbn [mbind option_bind];
    rewrite ?(proj1 (base64_char_plain _)); rewrite ?base64_char_sextet; cbn [mbind option_bind].
  - simpl. by rewrite (proj1 (bytes_back a "000" "000")).
  - simpl. by rewrite (proj1 (bytes_back a b "000")), (proj1 (proj2 (bytes_back a b "000"))).
  - rewrite IH. cbn [mbind option_bind]. destruct (bytes_back a b c) as (-> & -> & ->). done.
Qed.

Lemma base64_roundtrip s : base64_Decode (base64_Encode s) = Some s.
Proof. unfold base64_Decode. change (filter_string _ _) with (filter_string kept (base64_Encode s)). by rewrite encode_kept, decode_encode. Qed.

(** ** Secrets *)

Section secrets.
Context `{!MapRange}.

Lemma foldl_decode_fails l e : foldl decode_entry (Err e) l = Err e.
Proof. by induction l. Qed.

Lemma foldl_decode_panics l : foldl decode_entry Panic l = Panic.
Proof. by induction l. Qed.

(** No step turns an outcome into a panic, and a bad secret is an error. *)
Lemma decode_entry_panics o entry : decode_entry o entry = Panic → o = Panic.
Proof. destruct o as [a|e|], entry as [k v]; [|done..]. unfold decode_entry, mbind, outcome_bind. by repeat case_match. Qed.
Lemma decode_entry_bad o k v :
  HasPrefix k OptionKeySecret = true → base64_Decode v = None → is_ret (decode_entry o (k, v)) = false.
Proof. intros Hs Hv. unfold decode_entry, mbind, outcome_bind. destruct o; [|done..]. by rewrite Hs, Hv. Qed.

(** What the loop leaves of the map. *)
Lemma decode_loop (l : list (string * string)) (acc : Options) :
  NoDup l.*1 → (∀ k v, (k, v) ∈ l → HasPrefix k OptionKeySecret = true → is_Some (base64_Decode v)) →
  ∃ m, foldl decode_entry (Ret acc) l = Ret m ∧
    ∀ k, m !! k = match (list_to_map l : Options) !! k with
                  | Some v => if HasPrefix k OptionKeySecret then base64_Decode v else acc !! k
                  | None => acc !! k
                  end.
Proof.
  revert acc. induction l as [|[k v] l IH]; intros acc Hnd Hdec; [by exists acc|].
  apply NoDup_cons in Hnd as [Hk Hnd]. simpl.
  assert ((list_to_map l : Options) !! k = None) as Hlk by by apply not_elem_of_list_to_map_1.
  destruct (HasPrefix k OptionKeySecret) eqn:Ep.
  - destruct (Hdec k v) as [s Hs]; [by left|done|]. rewrite Hs. simpl.
    destruct (IH (<[k := s]> acc)) as (m & Hm & Hl); [done|intros; eapply Hdec; [by right|done]|].
    exists m. split; [done|]. intros k'. rewrite Hl. destruct (decide (k = k')) as [<-|].
    + by rewrite Hlk, !lookup_insert_eq, Ep, Hs.
    + by rewrite !lookup_insert_ne by done.
  - destruct (IH acc) as (m & Hm & Hl); [done|intros; eapply Hdec; [by right|done]|]. exists m. split; [done|].
    intros k'. rewrite Hl. destruct (decide (k = k')) as [<-|]; [by rewrite Hlk, lookup_insert_eq, Ep|by rewrite lookup_insert_ne].
Qed.

(** The options as the kubelet passes them: secrets are encoded. *)
Definition encoded (opts : Options) : Options :=
  map_imap (λ k v, Some (if HasPrefix k OptionKeySecret then base64_Encode v else v)) opts.

(** Whatever order Go ranges over the options in, decoding
    options whose secrets are encoded in base64 gives back the original options: every
    secret is decoded, once, and nothing else is touched.  Options with a secret that is
    not base64 are refused. *)
Theorem DecodeKubeSecrets_roundtrip (opts : Options) :
  DecodeKubeSecrets (encoded opts) = Ret opts ∧
  ∀ k v, opts !! k = Some v → HasPrefix k OptionKeySecret = true → base64_Decode v = None →
    ∃ e, DecodeKubeSecrets opts = Err e.
Proof.
  split.
  - unfold DecodeKubeSecrets. destruct (decode_loop (range 3 (encoded opts)) (encoded opts)) as (m & -> & Hm).
    + apply NoDup_range.
    + intros k v Hkv%elem_of_range Hs. unfold encoded in Hkv. rewrite map_lookup_imap, Hs in Hkv.
      destruct (opts !! k) as [v'|]; [|done]. injection Hkv as <-. by rewrite base64_roundtrip.
    + f_equal. apply map_eq. intros k. rewrite Hm.
      assert ((list_to_map (range 3 (encoded opts)) : Options) = encoded opts) as ->.
      { rewrite (list_to_map_proper _ (map_to_list (encoded opts))); [apply list_to_map_to_list|apply NoDup_range|apply range_perm]. }
      unfold encoded. rewrite map_lookup_imap. destruct (opts !! k) as [v|]; [simpl|done].
      destruct (HasPrefix k OptionKeySecret); [apply base64_roundtrip|done].
  - intros k v Hk Hs Hv. unfold DecodeKubeSecrets. assert ((k, v) ∈ range 3 opts) as Hin by by apply elem_of_range.
    assert (∀ o, is_ret (foldl decode_entry o (range 3 opts)) = false ∧ (foldl decode_entry o (range 3 opts) = Panic → o = Panic)) as Hf.
    { induction (range 3 opts) as [|[k' v'] l IH]; [by apply elem_of_nil in Hin|]. intros o. cbn [foldl].
      apply elem_of_cons in Hin as [[= <- <-]|Hin].
      - pose proof (decode_entry_bad o k v Hs Hv) as Hb. pose proof (decode_entry_panics o (k, v)) as Hp.
        destruct (decode_entry o (k, v)); [done|by rewrite foldl_decode_fails|rewrite foldl_decode_panics; auto].
      - destruct (IH Hin (decode_entry o (k', v'))) as [H1 H2]. split; [done|]. intros Hp%H2. by eapply decode_entry_panics. }
    destruct (Hf (Ret opts)) as [H1 H2]. destruct (foldl _ _ _) as [a|e|]; [done|eauto|by specialize (H2 eq_refl)].
Qed.
End secrets.

(** ** Call-outs *)

Section callouts.
Context {W : Type} `{!FlexEnvironment W, !Driver W, !MapRange} {ET : ErrorText}.

(** The method that arguments name. *)
Inductive callout : list string → M W DriverStatus → Prop :=
| callout_init b params : callout (b :: "init" :: params) driver_Init
| callout_attach b s opts node : processOpts s = Ret opts → callout [b; "attach"; s; node] (driver_Attach opts node)
| callout_detach b dev node : callout [b; "detach"; dev; node] (driver_Detach dev node)
| callout_waitforattach b dev s opts :
    processOpts s = Ret opts → callout [b; "waitforattach"; dev; s] (driver_WaitForAttach dev opts)
| callout_isattached b s opts node : processOpts s = Ret opts → callout [b; "isattached"; s; node] (driver_IsAttached opts node)
| callout_mountdevice b dir dev s opts :
    processOpts s = Ret opts → callout [b; "mountdevice"; dir; dev; s] (driver_MountDevice dir dev opts)
| callout_unmountdevice b dir : callout [b; "unmountdevice"; dir] (driver_UnmountDevice dir)
| callout_mount b dir s opts : processOpts s = Ret opts → callout [b; "mount"; dir; s] (driver_Mount dir opts)
| callout_unmount b dir : callout [b; "unmount"; dir] (driver_Unmount dir).

Lemma processOpts_no_panic s : processOpts s ≠ Panic.
Proof.
  unfold processOpts. destruct (json_Options s) as [e|opts]; [done|]. unfold DecodeKubeSecrets.
  assert (∀ l o, foldl decode_entry o l = Panic → o = Panic) as Hf; [|by intros ?%Hf].
  induction l as [|x l IH]; intros o; [done|]. intros Hp%IH. by eapply decode_entry_panics.
Qed.

Definition exits_with (c : M W (string * Z)) (code : Z) : Prop := ∀ w, ∃ text, c w = (Ret (text, code), w).

Lemma exit_failure_exits message : exits_with (exit_failure message) 1.
Proof. intros w. by eexists. Qed.

Lemma with_options_exits s body :
  (∀ opts, processOpts s ≠ Ret opts) → exits_with (with_options s body) 1.
Proof.
  intros Hno. unfold with_options. destruct (processOpts s) as [opts|e|] eqn:E; [by destruct (Hno opts)| |by apply processOpts_no_panic in E].
  apply exit_failure_exits.
Qed.

(** A call-out whose arguments name a method, with as many of them
    as the method takes and with options that can be read, runs that method on these
    arguments, prints its status, and exits with code 0 if and only if the status is
    success or not supported.  Any other call-out runs nothing and exits with code 1,
    except that of getvolumename, which is answered as not supported, with code 0. *)
Lemma ExecDriver_callouts args :
  (∀ call, callout args call → ExecDriver args = exit_with call ∧
     ∀ w text code w', ExecDriver args w = (Ret (text, code), w') →
       ∃ st, call w = (Ret st, w') ∧
         code = (if decide (ds_Status st = StatusSuccess ∨ ds_Status st = StatusNotSupported) then 0 else 1)%Z) ∧
  ((∀ call, ¬ callout args call) →
     exits_with (ExecDriver args) (if decide (args !! 1 = Some "getvolumename") then 0 else 1)).
Proof.
  split.
  - intros call Hc. assert (ExecDriver args = exit_with call) as E.
    { destruct Hc as [| ? ? ? ? Hp | | ? ? ? ? Hp | ? ? ? ? Hp | ? ? ? ? ? Hp | | ? ? ? ? Hp |];
        simpl; unfold with_options; rewrite ?Hp; reflexivity. }
    split; [done|]. intros w text code w'. rewrite E. intros (st & w1 & Hst & [= _ <- <-])%M_bind_Ret_inv. eauto.
  - intros Hno. destruct args as [|b [|command params]]; [apply exit_failure_exits..|]. simpl.
    destruct (decide (command = "init")) as [->|]; [by destruct (Hno driver_Init); constructor|].
    destruct (decide (command = "getvolumename")) as [->|Hget]; [intros w; by eexists|].
    rewrite (decide_False (P := Some command = Some "getvolumename")) by congruence.
    repeat (case_decide; [subst; repeat case_match; subst;
      first [apply exit_failure_exits
            |apply with_options_exits; intros opts Hp; eapply Hno; by constructor
            |exfalso; eapply Hno; by constructor]|]).
    apply exit_failure_exits.
Qed.
End callouts.
