(* ===== verification/FlexDriverFacts.v ===== *)
(** * What the Flexvolume driver of block volumes achieves

    Over the laws of the storage service ([StorageLaws]) and of the host ([DiskLaws]): a
    volume is attached to the instance of the node, or to none by a request that fails; the
    device that is answered leads the node to the target of the attachment; mounting logs
    in to it, and unmounting logs out. *)
From stdpp Require Import base tactics list gmap sets strings.
From S2P Require Import Prelude GoStrings GoRegexp Types ClientErrors Spec ClientCalls Annotations CsiUtil StorageClient BlockVolume BlockVolumeFacts AttachmentFacts NetworkingClient ComputeClient Host NodeServices NodeServicesFacts Disk BlockNode DiskFacts BlockNodeFacts Config Startup Flexvolume.

Definition succeeded (o : outcome DriverStatus) : Prop := ∃ st, o = Ret st ∧ ds_Status st = StatusSuccess.

Section or_fail.
Context {W : Type} {ET : ErrorText}.

Lemma or_fail_inv {A} prefix (c : M W A) k w o w' :
  or_fail prefix c k w = (o, w') →
  (∃ a w1, c w = (Ret a, w1) ∧ k a w1 = (o, w')) ∨ ((∃ o1, c w = (o1, w') ∧ is_ret o1 = false) ∧ ¬ succeeded o).
Proof.
  unfold or_fail, mbind, M_bind, try. destruct (c w) as [[a|e|] w1]; [eauto|..]; intros [= <- <-]; right; (split; [eauto|]);
    by intros (st & [= <-] & ?).
Qed.

Lemma or_fail_frames {A} (R : W → W → Prop) `{!PreOrder R} prefix (c : M W A) k :
  frames R c → (∀ a, frames R (k a)) → frames R (or_fail prefix c k).
Proof.
  intros Hc Hk. unfold or_fail. apply (frames_bind R); [by apply (frames_try R)|]. intros [e|a]; [apply (frames_lift R (Ret _))|apply Hk].
Qed.
End or_fail.

(** ** The control plane *)

(** Reading the configuration, making clients and reading an instance change neither
    volumes nor attachments. *)
Class FlexLaws (W : Type) `{!ConfigEnvironment W, !SdkClients W, !Limits W, !KubeNodes W, !StorageSdk W, !ComputeSdk W, !StorageLaws W} := {
  flex_config_still : (∀ p, frames still (os_Open p)) ∧ (∀ url hs, frames still (http_Do url hs)) ∧
    frames still InstancePrincipalConfigurationProvider;
  flex_client_still : ∀ s p, frames still (NewSdkClient s p);
  flex_instance_still : ∀ id, frames still (csdk_GetInstance id);
}.

Section control.
Context {W : Type} `{!FlexEnvironment W, !ConfigEnvironment W, !SdkClients W, !Limits W, !KubeNodes W, !StorageSdk W, !ComputeSdk W}.
Context `{!StorageLaws W, !FlexLaws W} {TJ : TagJson} {MR : MapRange} {ET : ErrorText}.
Implicit Types (w : W).

Ltac keep :=
  repeat first
    [ assumption | apply (frames_fail still) | apply (frames_lift still)
    | match goal with
      | |- frames _ (report _ _) => apply (frames_report still); [|intros ?]
      | |- frames _ (wrapM _ _ _) => apply (frames_wrapM still)
      | |- frames _ (try _) => apply (frames_try still)
      | |- frames _ (mbind _ _) => apply (frames_bind still); [|intros ?]
      | |- frames _ (mret ?a) => apply (frames_lift still (Ret a))
      end
    | solve [apply flex_config_still | apply flex_client_still]
    | case_match ].

Lemma metadata_Get_still : frames still metadata_Get.
Proof. unfold metadata_Get, executeRequest. keep. Qed.
Lemma FromFile_still p : frames still (FromFile p).
Proof.
  unfold FromFile, ReadConfig, Config_Complete, AuthConfig_Complete, complete_region_key. keep; apply metadata_Get_still.
Qed.
Lemma GetClient_still cfg : frames still (GetClient cfg).
Proof. unfold GetClient, NewConfigurationProvider, New, configured_client, new_sdk_client, configureCustomTransport. keep. Qed.
Lemma lookupNodeID_still n : frames still (lookupNodeID n).
Proof. unfold lookupNodeID. keep. apply Nodes_still. Qed.
Lemma GetInstance_still id : frames still (ComputeClient.GetInstance id).
Proof. apply (limited_frames still); [done|apply flex_instance_still]. Qed.

(** An attachment of the volume to the instance, under way or done, and its device. *)
Definition held (vol i : string) (a : VolumeAttachment) : Prop :=
  va_VolumeId a = Some vol ∧ va_InstanceId a = Some i ∧ (va_LifecycleState a = Attaching ∨ va_LifecycleState a = Attached).
Definition target_named (a : VolumeAttachment) (sd : Disk) : Prop :=
  ∃ iscsi, va_iscsi a = Some iscsi ∧ iscsi_Ipv4 iscsi = Some (disk_IscsiIp sd) ∧ iscsi_Port iscsi = Some (disk_Port sd) ∧
    iscsi_Iqn iscsi = Some (disk_IQN sd).

Definition attach_answer (vol i : string) (o : outcome DriverStatus) (w' : W) : Prop :=
  ∀ st, o = Ret st → ds_Status st = StatusSuccess →
  ∃ id a sd, atts w' !! id = Some a ∧ held vol i a ∧ target_named a sd ∧ ds_Device st = device_path sd 1.

Lemma disk_by_path_device sd : disk_by_path (disk_IscsiIp sd) (disk_Port sd) (disk_IQN sd) = device_path sd 1.
Proof. rewrite device_path_text. done. Qed.

Lemma attached_status_spec a w o w' :
  attached_status a w = (o, w') →
  w' = w ∧ ∀ st, o = Ret st → ds_Status st = StatusSuccess → ∃ sd, target_named a sd ∧ ds_Device st = device_path sd 1.
Proof.
  unfold attached_status, getISCSIAttachment, mbind, M_bind, try, lift. destruct (va_iscsi a) as [iscsi|] eqn:E.
  - intros [= <- <-]. split; [done|]. unfold iscsi_device.
    intros st (ip & Hip & (port & Hport & (iqn & Hiqn & [= <-])%bind_Ret_inv)%bind_Ret_inv)%bind_Ret_inv _.
    exists {| disk_IQN := iqn; disk_IscsiIp := ip; disk_Port := port |}. rewrite <-disk_by_path_device. split; [|done]. exists iscsi.
    destruct (iscsi_Ipv4 iscsi), (iscsi_Port iscsi), (iscsi_Iqn iscsi); simplify_eq/=; done.
  - intros [= <- <-]. split; [done|]. by intros st [= <-].
Qed.

(** A new attachment. *)
Lemma attach_volume_spec i vol w o w' :
  attach_volume i vol w = (o, w') →
  (still w w' ∨ ∃ w1, attaches vol i w w1 ∧ aged w1 w') ∧ attach_answer vol i o w'.
Proof.
  unfold attach_volume. intros [(a & w1 & Ha & Hr)|[(o1 & Ha & Ho1) Hf]]%or_fail_inv; apply AttachVolume_attempt in Ha.
  2:{ split; [destruct Ha as [[Hs _]|[Hat _]]; [by left|right; by exists w']|]. intros st -> Hst. destruct Hf. by exists st. }
  destruct Ha as [[_ ?]|[Hat Hid]]; [done|]. destruct (Hid a eq_refl) as (id & Hin & Hv & Hi).
  unfold mbind at 1, M_bind at 1, lift at 1 in Hr. rewrite (atts_id _ _ _ Hin) in Hr. simpl in Hr.
  apply or_fail_inv in Hr as [(b & w2 & Hb & Hr)|[(o1 & Hb & Ho1) Hf]]; apply WaitForVolumeAttached_aged in Hb as Haged.
  2:{ split; [right; by exists w1|]. intros st -> Hst. destruct Hf. by exists st. }
  apply (WaitForVolumeAttached_Ret _ vol i id a) in Hb as (Hin' & Hv' & Hi' & Hs'); [|done..].
  unfold mbind at 1, M_bind at 1, lift at 1 in Hr. rewrite (atts_id _ _ _ Hin') in Hr. simpl in Hr.
  apply attached_status_spec in Hr as [-> Hst]. split; [right; by exists w1|]. intros st Ho Hok.
  destruct (Hst st Ho Hok) as (sd & Hsd & Hdev). exists id, b, sd. split_and!; [done|unfold held; auto|done|done].
Qed.

(** No attachment of the volume is being detached. *)
Definition settled (vol c : string) w : Prop :=
  ∀ id a, atts w !! id = Some a → attached_in vol c a → va_LifecycleState a ≠ Detaching.
(** The volume is attached to another instance. *)
Definition elsewhere (vol c i : string) w : Prop :=
  ∃ id a, atts w !! id = Some a ∧ attached_in vol c a ∧ va_InstanceId a ≠ Some i.

Definition attach_outcome (vol c i : string) w (o : outcome DriverStatus) w' : Prop :=
  exclusive vol c w' ∧ attach_answer vol i o w' ∧ (elsewhere vol c i w → still w w' ∧ ¬ succeeded o).

Lemma attach_outcome_fails vol c i w o w' :
  exclusive vol c w → still w w' → ¬ succeeded o → attach_outcome vol c i w o w'.
Proof.
  intros He Hs Hf. split_and!; [by eapply exclusive_aged; [apply still_aged|]| |done].
  intros st -> Hst. destruct Hf. by exists st.
Qed.
Lemma attach_outcome_still vol c i w w1 o w' : still w w1 → attach_outcome vol c i w1 o w' → attach_outcome vol c i w o w'.
Proof.
  intros Hs (He & Ha & Hel). split_and!; [done..|]. intros (id & a & Hid & Hr). destruct Hel as [Hs' Hn].
  - exists id, a. destruct Hs as [_ Hs]. by rewrite Hs.
  - split; [by trans w1|done].
Qed.

Lemma attach_instance_spec fuel vol inst i c w o w' :
  ci_Id inst = Some i → ci_CompartmentId inst = Some c → exclusive vol c w → settled vol c w →
  attach_instance fuel vol inst w = (o, w') → attach_outcome vol c i w o w'.
Proof.
  intros Hi Hc He Hset Hr. unfold attach_instance in Hr. rewrite Hi, Hc in Hr.
  change (('(attachment, err) ← FindVolumeAttachment fuel c vol None;
    match err with
    | None => attachment ← lift (deref attachment); attachedTo ← lift (deref (va_InstanceId attachment));
        instanceId ← lift (deref (Some i));
        if decide (attachedTo ≠ instanceId) then mret (Fail_status ("Already attached to another instance: " +:+ attachedTo))
        else attached_status attachment
    | Some err => if IsNotFound (Some err) then instanceId ← lift (deref (Some i)); attach_volume instanceId vol
        else mret (Fail_status ("Got error in finding volume attachment" +:+ Error err))
    end) w = (o, w')) in Hr.
  apply M_bind_cases in Hr as [([found err] & w1 & Hf & Hr)|(o1 & Hf & Ho)]; apply FindVolumeAttachment_still in Hf as Hs.
  2:{ apply attach_outcome_fails; [done..|]. by intros (st & -> & _). }
  apply FindVolumeAttachment_found in Hf as [(a & id & -> & Hid & Ha & _ & Herr)|(e & -> & -> & Hnone)].
  - destruct Herr as [[-> Hstate]|[-> Hdet]]; [|by destruct (Hset id a)].
    assert (∀ o, ¬ succeeded o → attach_outcome vol c i w o w1) as Hfails by (intros; by apply attach_outcome_fails).
    unfold mbind, M_bind, lift in Hr. simpl in Hr. destruct (va_InstanceId a) as [i'|] eqn:Ei; simpl in Hr.
    2:{ injection Hr as <- <-. apply Hfails. by intros (st & ? & _). }
    case_decide as Hne; [injection Hr as <- <-; apply Hfails; by intros (st & [= <-] & ?)|]. subst i'.
    apply attached_status_spec in Hr as [-> Hst]. split_and!.
    + by eapply exclusive_aged; [apply still_aged|].
    + intros st Ho Hok. destruct (Hst st Ho Hok) as (sd & Hsd & Hdev). exists id, a, sd.
      destruct Hs as [_ Hs], Ha as (_ & Hv & _). split_and!; [by rewrite Hs|unfold held; auto|done|done].
    + intros (id2 & a2 & Hid2 & Ha2 & Hne). destruct Hne. rewrite <-Ei. f_equal. assert (id2 = id) as -> by by eapply He. congruence.
  - destruct (IsNotFound (Some e)) eqn:En.
    2:{ injection Hr as <- <-. apply attach_outcome_fails; [done..|]. by intros (st & [= <-] & ?). }
    assert (∀ id a, atts w !! id = Some a → ¬ attached_in vol c a) as Hno.
    { intros id a Hid Ha. by destruct (Hnone eq_refl id a Hid Ha) as (? & ? & _). }
    apply attach_volume_spec in Hr as [Hw Hst]. split_and!; [|done|].
    + destruct Hw as [Hs'|(w2 & Hat & Haged)]; [eapply exclusive_aged; [apply still_aged|]; [by trans w1|done]|].
      eapply exclusive_aged; [done|]. eapply exclusive_attaches; [|done]. destruct Hs as [_ Hs]. by rewrite Hs.
    + intros (id & a & Hid & Ha & _). by destruct (Hno id a).
Qed.

(** C23: A volume named by its full id, no attachment of which is
    being detached, keeps at most one attachment in the compartment of the instance
    whatever the outcome of a request to attach it to a node is.  If the request succeeds,
    the volume has an attachment to the instance of the node, being attached or attached,
    over iSCSI, and the device that is answered is the path under which the node finds its
    target: a handler made of the device has the address, port and name of the attachment.
    If the volume is attached to another instance, the request fails and changes nothing. *)
Theorem flex_Attach_exclusive fuel opts name vol node i c w o w' :
  opts !! volumeNameKey = Some vol → HasPrefix vol ocidPrefix = true →
  node_stable name node → MapProviderIDToResourceID (node_ProviderID node) = Ret i →
  (∀ w inst w', csdk_GetInstance i w = (Ret inst, w') → ci_Id inst = Some i ∧ ci_CompartmentId inst = Some c) →
  exclusive vol c w → settled vol c w →
  flex_Attach fuel opts name w = (o, w') →
  exclusive vol c w' ∧
  (∀ st, o = Ret st → ds_Status st = StatusSuccess →
     ∃ id a sd, atts w' !! id = Some a ∧ held vol i a ∧ target_named a sd ∧ ds_Device st = device_path sd 1 ∧
       (device_disk sd → NewFromDevicePath (ds_Device st) = Ret (iSCSIMounter (Some sd) ""))) ∧
  (elsewhere vol c i w → still w w' ∧ ¬ succeeded o).
Proof.
  intros Hvol Hpre Hnode Hid Hinst He Hset Hr. cut (attach_outcome vol c i w o w').
  { intros (H1 & H2 & H3). split_and!; [done| |done]. intros st Ho Hok. destruct (H2 st Ho Hok) as (id & a & sd & Ha & Hh & Ht & Hd).
    exists id, a, sd. split_and!; [done..|]. intros Hsd. rewrite Hd. by apply NewFromDevicePath_target. }
  unfold flex_Attach in Hr.
  apply or_fail_inv in Hr as [(cfg & w1 & Hs1%FromFile_still & Hr)|[(o1 & Hs%FromFile_still & _) Hf]]; [|by apply attach_outcome_fails].
  cbv zeta in Hr. rewrite Hvol in Hr. cbn [default from_option id] in Hr. unfold deriveVolumeOCID in Hr. rewrite Hpre in Hr.
  apply or_fail_inv in Hr as [(cl & w2 & Hs2%GetClient_still & Hr)|[(o1 & Hs%GetClient_still & _) Hf]];
    [|apply attach_outcome_fails; [done|by trans w1|done]].
  assert (still w w2) as Hs by by trans w1. clear Hs1 Hs2 w1.
  apply or_fail_inv in Hr as [(p & w3 & Hp & Hr)|[(o1 & Hs'%lookupNodeID_still & _) Hf]];
    [|apply attach_outcome_fails; [done|by trans w2|done]].
  pose proof Hp as Hs3%lookupNodeID_still. apply M_bind_Ret_inv in Hp as (n & w3' & ->%Hnode & Hp).
  case_decide; [done|]. injection Hp as <- _.
  apply or_fail_inv in Hr as [(i' & w4 & [Hi' ->]%lift_Ret_inv & Hr)|[(o1 & [= _ <-] & _) Hf]];
    [|apply attach_outcome_fails; [done|by trans w2|done]].
  rewrite Hid in Hi'. injection Hi' as <-.
  apply or_fail_inv in Hr as [(inst & w5 & Hg & Hr)|[(o1 & Hs'%GetInstance_still & _) Hf]];
    [|apply attach_outcome_fails; [done|trans w2; [done|by trans w3]|done]].
  pose proof Hg as Hs5%GetInstance_still. unfold ComputeClient.GetInstance in Hg. apply limited_Ret in Hg as (w6 & _ & [Hci Hcc]%Hinst).
  assert (still w w5) as Hs' by (trans w2; [done|by trans w3]).
  apply (attach_outcome_still _ _ _ _ w5); [done|]. eapply attach_instance_spec; [done|done| | |exact Hr].
  - by eapply exclusive_aged; [apply still_aged|].
  - destruct Hs' as [_ Hs']. intros id a. rewrite Hs'. apply Hset.
Qed.

(** ** Detaching *)

Lemma flex_LookupCompartment name node c w :
  (∀ w, ∃ w', Nodes_Get name w = (Ret node, w')) → node_Annotations node !! CompartmentIDAnnotation = Some c → c ≠ "" →
  ∃ w', LookupNodeCompartment name w = (Ret c, w') ∧ still w w'.
Proof.
  intros Hnode Hc Hne. destruct (Hnode w) as [w1 Hw1]. exists w1. split; [|by eapply Nodes_still].
  unfold LookupNodeCompartment, mbind, M_bind. by rewrite Hw1, Hc, decide_True.
Qed.

Lemma detach_attachment_spec a id w o w' :
  atts w !! id = Some a → detach_attachment a w = (o, w') →
  aged w w' ∧ (succeeded o → ∃ b, atts w' !! id = Some b ∧ va_LifecycleState b = Detached).
Proof.
  intros Hid Hr. unfold detach_attachment, mbind at 1, M_bind at 1, lift at 1 in Hr. rewrite (atts_id _ _ _ Hid) in Hr. simpl in Hr.
  assert (frames aged (DetachVolume id)) as Hd by (apply (writer_limited_frames aged); [apply still_aged|apply DetachVolume_law]).
  apply or_fail_inv in Hr as [([] & w1 & H1%Hd & Hr)|[(o1 & H1%Hd & _) Hf]]; [|by split].
  apply or_fail_inv in Hr as [([] & w2 & H2 & Hr)|[(o1 & H2%WaitForVolumeDetached_aged & _) Hf]]; [|split; [by trans w1|done]].
  injection Hr as <- <-. apply WaitForVolumeDetached_aged in H2 as H2'. split; [by trans w1|]. intros _.
  by eapply WaitForVolumeDetached_Ret.
Qed.

(** A request to detach a volume, named by its full id, from a node that the Kubernetes API
    knows adds and removes nothing, and if it succeeds no attachment of the volume is left
    in the compartment of the node: neither one to this node nor, as the instance of the
    node has no part in the search, the one to another node. *)
Theorem flex_Detach_detaches fuel vol name node c w o w' :
  HasPrefix vol ocidPrefix = true → (∀ w, ∃ w', Nodes_Get name w = (Ret node, w')) →
  node_Annotations node !! CompartmentIDAnnotation = Some c → c ≠ "" → exclusive vol c w →
  flex_Detach fuel vol name w = (o, w') →
  aged w w' ∧ (succeeded o → ∀ id a, atts w' !! id = Some a → ¬ attached_in vol c a).
Proof.
  intros Hpre Hnode Hc Hne He Hr. unfold flex_Detach in Hr.
  apply or_fail_inv in Hr as [(cfg & w1 & Hs1%FromFile_still & Hr)|[(o1 & Hs%FromFile_still & _) Hf]]; [|by split; [apply still_aged|]].
  apply or_fail_inv in Hr as [(cl & w2 & Hs2%GetClient_still & Hr)|[(o1 & Hs%GetClient_still & _) Hf]];
    [|split; [apply still_aged; by trans w1|done]].
  cbv zeta in Hr. unfold deriveVolumeOCID in Hr. rewrite Hpre in Hr. unfold mbind at 1, M_bind at 1, try in Hr.
  destruct (flex_LookupCompartment name node c w2 Hnode Hc Hne) as (w3 & Hlook & Hs3). rewrite Hlook in Hr. clear Hlook.
  assert (still w w3) as Hs by (trans w1; [done|by trans w2]). clear Hs1 Hs2 Hs3.
  apply M_bind_cases in Hr as [([found err] & w4 & Hf & Hr)|(o1 & Hf & Ho)]; apply FindVolumeAttachment_still in Hf as Hs4.
  2:{ split; [apply still_aged; by trans w3|]. by intros (st & -> & _). }
  assert (still w w4) as Hs' by by trans w3.
  apply FindVolumeAttachment_found in Hf as [(a & id & -> & Hid & Ha & _ & Herr)|(e & -> & -> & Hnone)].
  2:{ injection Hr as <- <-. split; [by apply still_aged|]. by intros (st & [= <-] & ?). }
  destruct Herr as [[-> Hstate]|[-> _]].
  2:{ injection Hr as <- <-. split; [by apply still_aged|]. by intros (st & [= <-] & ?). }
  unfold mbind at 1, M_bind at 1, lift at 1 in Hr. simpl in Hr.
  apply (detach_attachment_spec _ id) in Hr as [Haged Hd]; [|destruct Hs4 as [_ Hs4]; by rewrite Hs4].
  assert (aged w w') as Haged' by (trans w4; [by apply still_aged|done]). split; [done|].
  intros (b & Hb & Hbs)%Hd id2 a2 Hid2 Ha2. destruct (attached_in_aged _ _ _ _ _ _ Haged' Hid2 Ha2) as (a0 & Ha0 & Hin0).
  assert (id2 = id) as -> by (eapply He; [exact Ha0| |exact Hin0|exact Ha]; destruct Hs as [_ Hs]; by rewrite <-Hs).
  rewrite Hb in Hid2. injection Hid2 as <-. destruct Ha2 as ([Hx|[Hx|Hx]] & _); by rewrite Hx in Hbs.
Qed.
End control.

(** ** The node *)

Section node.
Context {W : Type} `{!FlexEnvironment W, !Host W, !DiskHost W, !Limits W, !KubeNodes W, !KubeConfigMaps W} {DL : DiskLaws W}.
Context {ET : ErrorText}.
Implicit Types (w : W) (h : handler).

Lemma GetScsiInfo_of dev sd : NewFromDevicePath dev = Ret (iSCSIMounter (Some sd) "") → GetScsiInfo dev = Ret sd.
Proof. unfold NewFromDevicePath. intros (sd' & E & Hn)%bind_Ret_inv. destruct sd, sd'. by injection Hn as -> -> ->. Qed.

(** The entry of a volume that is mounted from the device path [dp]. *)
Definition flex_entry (dp dir : string) (opts : Options) : list string :=
  MakeMountArgs dp dir (default "" (opts !! OptionFSType))
    ((if decide (default "" (opts !! OptionReadWrite) = "ro") then ["ro"] else []) ++ ["defaults"]).

Definition mounts_from (sd : Disk) (dir : string) (opts : Options) w w' : Prop :=
  ∃ dp, device_of sd dp ∧ mounts_at dir (cons (flex_entry dp dir opts)) w w'.

Lemma flex_option (opts : Options) o :
  o ∈ (if decide (default "" (opts !! OptionReadWrite) = "ro") then ["ro"] else []) ++ ["defaults"] → o = "ro" ∨ o = "defaults".
Proof. case_decide; cbn; rewrite ?elem_of_cons, elem_of_nil; tauto. Qed.

Lemma mount_logged_in_spec d adm sd dir dev opts w o w' :
  GetScsiInfo dev = Ret sd → mount_logged_in (iSCSIMounter d adm) dir dev opts w = (o, w') →
  (succeeded o ∧ mounts_from sd dir opts w w') ∨ (¬ succeeded o ∧ unchanged w w').
Proof.
  intros Hsd Hr. unfold mount_logged_in in Hr. rewrite Hsd in Hr.
  apply or_fail_inv in Hr as [(sd' & w1 & [[= <-] ->]%lift_Ret_inv & Hr)|[(o1 & [= <- <-] & ?) _]]; [|done].
  apply M_bind_cases in Hr as [(r & w1 & Ht & Hr)|(o1 & Ht & Ho)].
  2:{ right. split; [by intros (st & -> & _)|]. revert Ht. apply (frames_try unchanged), WaitForDevicePath_stays. }
  apply try_spec in Ht as [(dp & [= ->] & Ht)|[(e & [= ->] & Ht)|[_ ?]]]; [..|done]; apply WaitForDevicePath_stays in Ht as Hu.
  2:{ injection Hr as <- <-. right. split; [by intros (st & [= <-] & ?)|done]. }
  apply WaitForDevicePath_Ret in Ht as Hdp.
  apply or_fail_inv in Hr as [([] & w2 & Hm & Hr)|[(o1 & Hm & Ho1) Hf]]; apply format_mount_law, mounting_plain in Hm; try (by intros [?|?]%flex_option).
  - injection Hr as <- <-. left. split; [by eexists|]. exists dp. split; [done|]. by eapply unchanged_mounts_at.
  - rewrite Ho1 in Hm. right. split; [done|by trans w1].
Qed.

(** What mounting the device of the target [sd] does. *)
Definition flex_mounts (sd : Disk) (dir dev : string) (opts : Options) w (o : outcome DriverStatus) w' : Prop :=
  (succeeded o → unchanged w w' ∧ DeviceOpened (iSCSIMounter (Some sd) "") dev w = (Ret true, w') ∨
     ∃ dp, device_of sd dp ∧ block_mounts w' dir = flex_entry dp dir opts :: block_mounts w dir ∧
       (∀ q, q ≠ dir → block_mounts w' q = block_mounts w q) ∧ sessions w' = {[portal sd]} ∪ sessions w) ∧
  (¬ succeeded o → (∀ q, block_mounts w' q = block_mounts w q) ∧
     (sessions w' = sessions w ∨ sessions w' = {[portal sd]} ∪ sessions w)).

Lemma flex_mounts_fails sd dir dev opts w o w' : ¬ succeeded o → unchanged w w' → flex_mounts sd dir dev opts w o w'.
Proof. intros Hf [Hm Hs]. split; [done|auto]. Qed.

(** A step of iscsiadm that has no part in the sessions. *)
Lemma record_or_fail (op : handler → M W handler) h k w o w' :
  (∀ w o w', op h w = (o, w') → unchanged w w' ∧ ∀ h', o = Ret h' → target_of h' = target_of h) →
  or_fail "" (op h) k w = (o, w') →
  (¬ succeeded o ∧ unchanged w w') ∨ ∃ h' w1, unchanged w w1 ∧ target_of h' = target_of h ∧ k h' w1 = (o, w').
Proof.
  intros Hop [(h' & w1 & [Hu Ht]%Hop & Hr)|[(o1 & [Hu _]%Hop & _) ?]]%or_fail_inv; [right; eauto 10|by left].
Qed.

Lemma target_inv h sd : target_of h = {[portal sd]} → ∃ d adm, h = iSCSIMounter d adm.
Proof. destruct h; [eauto|simpl; intros E; exfalso; set_solver..]. Qed.

Lemma flex_MountDevice_spec sd dir dev opts w o w' :
  NewFromDevicePath dev = Ret (iSCSIMounter (Some sd) "") → flex_MountDevice dir dev opts w = (o, w') → flex_mounts sd dir dev opts w o w'.
Proof.
  intros Hh Hr. pose proof (GetScsiInfo_of _ _ Hh) as Hsd. unfold flex_MountDevice in Hr. rewrite Hh in Hr.
  apply or_fail_inv in Hr as [(h & w0 & [[= <-] ->]%lift_Ret_inv & Hr)|[(o1 & [= <- <-] & ?) _]]; [|done].
  apply or_fail_inv in Hr as [(opened & w1 & Hop & Hr)|[(o1 & Hu1%DeviceOpened_stays & _) ?]]; [|by apply flex_mounts_fails].
  apply DeviceOpened_stays in Hop as Hu1. destruct opened; [injection Hr as <- <-; split; [by left|intros []; by eexists]|]. clear Hop.
  apply record_or_fail in Hr as [[? Hu2]|(h2 & w2 & Hu2 & Ht2 & Hr)];
    [apply flex_mounts_fails; [done|by trans w1]| |by intros; apply AddToDB_spec].
  apply record_or_fail in Hr as [[? Hu3]|(h3 & w3 & Hu3 & Ht3 & Hr)];
    [apply flex_mounts_fails; [done|trans w1; [done|by trans w2]]| |by intros; apply SetAutomaticLogin_spec].
  assert (unchanged w w3) as Hu by (trans w1; [done|by trans w2]). clear Hu1 Hu2 Hu3.
  apply or_fail_inv in Hr as [(h4 & w4 & Hl & Hr)|[(o1 & Hl & Ho1) Hf]]; apply Login_spec in Hl.
  2:{ apply flex_mounts_fails; [done|]. trans w3; [done|]. by destruct o1. }
  destruct Hl as [Hs4 Ht4]. rewrite Ht3, Ht2 in Ht4. rewrite Ht3, Ht2 in Hs4. destruct (target_inv h4 sd Ht4) as (d & adm & ->).
  apply (unchanged_sessions_by _ w w3 w4 Hu) in Hs4 as [Hm4 Hs4]. simpl in Hs4.
  apply (mount_logged_in_spec _ _ sd) in Hr as [[Hok (dp & Hdp & Hm & Hq & Hs)]|[Hf [Hm Hs]]]; [..|done].
  - split; [|done]. intros _. right. exists dp. split_and!; [done|by rewrite Hm, Hm4|intros q Hn; by rewrite Hq, Hm4|by rewrite Hs, Hs4].
  - split; [done|]. intros _. split; [intros q; by rewrite Hm, Hm4|right; by rewrite Hs, Hs4].
Qed.

Lemma NewFromMountPointPath_stays p : frames unchanged (NewFromMountPointPath p).
Proof.
  unfold NewFromMountPointPath. apply (frames_bind unchanged); [apply getMountPoint_stays|]. intros mp.
  apply (frames_bind unchanged); [apply disk_by_paths_stays|]. intros l. apply (frames_lift unchanged).
Qed.

Lemma first_handler_foreign l : first_handler l ≠ Err ErrMountPointNotFound.
Proof.
  induction l as [|x l IH]; simpl; [done|]. by destruct (NewFromDevicePath x).
Qed.

(** Nothing is mounted where no mount point is found. *)
Lemma NewFromMountPointPath_missing p w w' :
  NewFromMountPointPath p w = (Err ErrMountPointNotFound, w') → block_mounts w p = [].
Proof.
  unfold NewFromMountPointPath. intros [Hr|(mp & w1 & _ & Hr)]%M_bind_Err; [by eapply getMountPoint_missing|].
  apply M_bind_Err in Hr as [Hr|(l & w2 & _ & Hr)]; [by apply disk_by_paths_foreign in Hr|].
  injection Hr as Hr _. by apply first_handler_foreign in Hr.
Qed.

(** What unmounting the path [p] does. *)
Definition flex_unmounts p w (o : outcome DriverStatus) w' : Prop :=
  (∀ q, q ≠ p → block_mounts w' q = block_mounts w q) ∧
  (succeeded o → unchanged w w' ∧ block_mounts w p = [] ∨
     ∃ h w1, NewFromMountPointPath p w = (Ret h, w1) ∧ block_mounts w' p = tail (block_mounts w p) ∧
       sessions w' = sessions w ∖ target_of h).

Lemma flex_unmounts_fails p w o w' : (unchanged w w' ∨ pops p w w') → ¬ succeeded o → flex_unmounts p w o w'.
Proof. intros Hw Hf. split; [|done]. intros q Hq. destruct Hw as [[Hm _]|(_ & Hm & _)]; auto. Qed.

Lemma flex_UnmountDevice_spec p w o w' : flex_UnmountDevice p w = (o, w') → flex_unmounts p w o w'.
Proof.
  unfold flex_UnmountDevice. intros [(r & w1 & Ht & Hr)|(o1 & Ht & Ho)]%M_bind_cases.
  2:{ apply flex_unmounts_fails; [left|by intros (st & -> & _)]. revert Ht. apply (frames_try unchanged), NewFromMountPointPath_stays. }
  apply try_spec in Ht as [(h & [= ->] & Ht)|[(e & [= ->] & Ht)|[_ ?]]]; [..|done]; apply NewFromMountPointPath_stays in Ht as Hu.
  2:{ case_decide as He; injection Hr as <- <-; [|apply flex_unmounts_fails; [by left|by intros (st & [= <-] & ?)]].
      subst e. apply NewFromMountPointPath_missing in Ht. split; [intros q _; apply Hu|auto]. }
  apply or_fail_inv in Hr as [([] & w2 & Hun & Hr)|[(o1 & Hun & Ho1) Hf]]; apply UnmountPath_spec in Hun as [Hun Hp].
  2:{ apply flex_unmounts_fails; [|done]. destruct Hun as [Hu2|Hpop]; [left; by trans w1|right; by eapply unchanged_mounts_at]. }
  pose proof (unchanged_mounts_at p tail w w1 w2 Hu (Hp eq_refl)) as (Hm & Hq & Hs). clear Hun Hp.
  apply or_fail_inv in Hr as [(h2 & w3 & Hl & Hr)|[(o1 & Hl & Ho1) Hf]]; apply Logout_spec in Hl.
  2:{ assert (unchanged w2 w') as [Hm2 Hs2] by by destruct o1. split; [intros q Hn; by rewrite Hm2, Hq|done]. }
  destruct Hl as [[Hm3 Hs3] _]. assert (unchanged w3 w') as [Hm4 Hs4].
  { apply or_fail_inv in Hr as [(h3 & w4 & [Hu4 _]%RemoveFromDB_spec & [= _ <-])|[(o1 & [Hu4 _]%RemoveFromDB_spec & _) _]]; done. }
  split; [intros q Hn; by rewrite Hm4, Hm3, Hq|]. intros _. right. exists h, w1.
  split_and!; [done|by rewrite Hm4, Hm3|by rewrite Hs4, Hs3, Hs].
Qed.

(** C24: Mounting a device whose path names an iSCSI target either finds
    the device in use and changes nothing, or logs in to that target and adds one mount, of
    a device path of the target, at the directory; if it fails nothing is mounted, but the
    session may stay.  Unmounting a directory touches no other one; if it succeeds, either
    nothing was mounted there and nothing changes, or one mount is gone and the session
    with the target of the mounted device is closed. *)
Theorem flex_mount_unmount sd dir dev opts w o w' :
  (NewFromDevicePath dev = Ret (iSCSIMounter (Some sd) "") → flex_MountDevice dir dev opts w = (o, w') → flex_mounts sd dir dev opts w o w') ∧
  (flex_UnmountDevice dir w = (o, w') → flex_unmounts dir w o w').
Proof. split; [apply flex_MountDevice_spec|apply flex_UnmountDevice_spec]. Qed.
End node.
