(* ===== verification/FlexMemory.v ===== *)
(** * Runs of the Flexvolume driver

    The storage of [StorageMemory] and the host of [BlockNodeMemory], with a configuration
    file: the theorems about the driver are applied to runs of it. *)
From stdpp Require Import base tactics list gmap sets strings.
From S2P Require Import Prelude GoStrings GoRegexp Types ClientErrors Spec ClientCalls Annotations CsiUtil CsiUtilFacts StorageClient BlockVolume BlockVolumeFacts AttachmentFacts StorageMemory NetworkingClient ComputeClient Host NodeServices NodeServicesFacts NodeMemory Disk BlockNode DiskFacts BlockNodeFacts BlockNodeMemory Config Startup ConfigFacts StartupMemory Flexvolume FlexvolumeFacts FlexDriverFacts.

Definition flex_instance (id : string) : CoreInstance := {|
  ci_Id := Some id; ci_CompartmentId := Some "compartment"; ci_DisplayName := None; ci_AvailabilityDomain := None;
  ci_FaultDomain := None; ci_Region := None; ci_Shape := None; ci_LifecycleState := "RUNNING"; ci_FreeformTags := None;
  ci_DefinedTags := None |}.

Definition flex_compute : ComputeSdk storage_world := {|
  csdk_GetInstance id w := (Ret (flex_instance id), w);
  csdk_ListInstances c ad n page w := (Err missing_resource, w);
  csdk_ListVnicAttachments c i page w := (Err missing_resource, w);
  csdk_UpdateInstance id d w := (Err missing_resource, w);
|}.

(** The options of a call-out are given by name. *)
Definition flex_environment {S} : FlexEnvironment S := {|
  json_Options s := if decide (s = "options") then inr {[volumeNameKey := "ocid1.volume.a"; OptionFSType := "ext4"]}
                    else inl (Errorf "invalid character" []);
  json_DriverStatus st := inr (ds_Status st +:+ " " +:+ ds_Device st);
  os_Getenv name := if decide (name = "OCI_FLEXD_CONFIG_DIRECTORY") then "/etc/oci" else "";
  BuildKubeClient path w := (Ret (), w);
|}.

#[local] Existing Instances memory_storage storage_limits memory_nodes memory_storage_laws flex_compute flex_environment.
#[local] Existing Instances start_environment start_clients list_range plain_text.

Definition memory_flex_laws : FlexLaws storage_world.
Proof.
  constructor.
  - split_and!; by intros; intros w o w' [= _ <-].
  - by intros s p w o w' [= _ <-].
  - by intros id w o w' [= _ <-].
Qed.
#[local] Existing Instance memory_flex_laws.

Definition flex_start : storage_world := {| sw_vols := ∅; sw_atts := ∅ |}.
Definition flex_options : Options := {[volumeNameKey := "ocid1.volume.a"; OptionFSType := "ext4"]}.
Definition flex_attached := flex_Attach 1 flex_options "node" flex_start.
Definition flex_device : string := "/dev/disk/by-path/ip-169.254.2.2:3260-iscsi-iqn.2015-12.com.oracleiaas:1-lun-1".

Lemma flex_attached_eq : flex_Attach 1 flex_options "node" flex_start = (Ret (with_device flex_device), flex_attached.2).
Proof. vm_compute. reflexivity. Qed.

Lemma flex_Attach_exclusive_witness :
  exclusive "ocid1.volume.a" "compartment" flex_attached.2 ∧
  ∃ id a sd, atts flex_attached.2 !! id = Some a ∧ held "ocid1.volume.a" "instance" a ∧ target_named a sd ∧
    flex_device = device_path sd 1 ∧ (device_disk sd → NewFromDevicePath flex_device = Ret (iSCSIMounter (Some sd) "")).
Proof.
  destruct (flex_Attach_exclusive 1 flex_options "node" "ocid1.volume.a" memory_node "instance" "compartment" flex_start
              (Ret (with_device flex_device)) flex_attached.2) as (He & Ha & _).
  - reflexivity.
  - reflexivity.
  - intros w n w' [= <- _]. reflexivity.
  - reflexivity.
  - by intros w inst w' [= <- _].
  - intros id1 id2 a1 a2 H1. by vm_compute in H1.
  - intros id a H1. by vm_compute in H1.
  - exact flex_attached_eq.
  - split; [exact He|]. exact (Ha _ eq_refl eq_refl).
Defined.

(** A secret with the encoding of "password". *)
Definition secret_options : Options := {[OptionKeySecret +:+ "/pass" := "password"; OptionFSType := "ext4"]}.

(** One that is not in base64. *)
Definition bad_options : Options := {[OptionKeySecret +:+ "/pass" := "pass-word"]}.

Lemma DecodeKubeSecrets_roundtrip_witness :
  encoded secret_options = {[OptionKeySecret +:+ "/pass" := "cGFzc3dvcmQ="; OptionFSType := "ext4"]} ∧
  DecodeKubeSecrets (encoded secret_options) = Ret secret_options ∧ ∃ e, DecodeKubeSecrets bad_options = Err e.
Proof.
  split; [vm_compute; reflexivity|]. split; [exact (proj1 (DecodeKubeSecrets_roundtrip secret_options))|].
  refine (proj2 (DecodeKubeSecrets_roundtrip bad_options) (OptionKeySecret +:+ "/pass") "pass-word" _ _ _); vm_compute; reflexivity.
Defined.

(** ** Call-outs *)

#[local] Instance memory_driver : Driver storage_world := {|
  driver_Init := mret (Succeed "");
  driver_Attach := flex_Attach 1;
  driver_Detach dev name := mret (NotSupported "");
  driver_WaitForAttach dev opts := mret (with_device dev);
  driver_IsAttached := flex_IsAttached 1;
  driver_MountDevice dir dev opts := mret (NotSupported "");
  driver_UnmountDevice dir := mret (NotSupported "");
  driver_Mount dir opts := mret (NotSupported "");
  driver_Unmount dir := mret (NotSupported "");
|}.

Definition attach_args : list string := ["oci"; "attach"; "options"; "node"].

Lemma ExecDriver_callouts_witness :
  ExecDriver attach_args flex_start = (Ret ("Success " +:+ flex_device, 0%Z), flex_attached.2) ∧
  ExecDriver (W := storage_world) attach_args = exit_with (driver_Attach flex_options "node") ∧
  exits_with (W := storage_world) (ExecDriver ["oci"; "attach"; "options"]) 1.
Proof.
  split; [vm_compute; reflexivity|]. split.
  - refine (proj1 (proj1 (ExecDriver_callouts attach_args) _ _)). exact (callout_attach "oci" "options" flex_options "node" eq_refl).
  - refine (proj2 (ExecDriver_callouts ["oci"; "attach"; "options"]) _). intros call Hc. inversion Hc.
Defined.

(** ** The node *)

(** A text that has the arguments of the error, with the output of commands. *)
Definition full_text : ErrorText := {|
  Error e := match e with Errorf format args => format +:+ join " " args | _ => "" end;
  TargetService _ := "";
  OperationName _ := "" |}.
#[local] Existing Instance full_text.
#[local] Existing Instances disk_host_base disk_host disk_nodes disk_config disk_limits memory_disk_laws.

Definition flex_disk : Disk := {| disk_IQN := an_iqn; disk_IscsiIp := "169.254.2.2"; disk_Port := 3260 |}.
Definition flex_host : disk_world := {| dw_mounts := ∅; dw_sessions := ∅ |}.
Definition flex_mounted := flex_MountDevice "/mnt" a_device flex_options flex_host.
Definition flex_unmounted := flex_UnmountDevice "/mnt" flex_mounted.2.

Lemma flex_mount_unmount_witness :
  dw_mounts_at flex_mounted.2 "/mnt" = [["-t"; "ext4"; "-o"; "defaults"; a_device; "/mnt"]] ∧
  elements (dw_sessions flex_mounted.2) = [(an_iqn, "169.254.2.2:3260")] ∧ elements (dw_sessions flex_unmounted.2) = [] ∧
  flex_mounts flex_disk "/mnt" a_device flex_options flex_host flex_mounted.1 flex_mounted.2 ∧
  flex_unmounts "/mnt" flex_mounted.2 flex_unmounted.1 flex_unmounted.2.
Proof.
  split; [vm_compute; reflexivity|]. split; [vm_compute; reflexivity|]. split; [vm_compute; reflexivity|]. split.
  - refine (proj1 (flex_mount_unmount flex_disk "/mnt" a_device flex_options flex_host flex_mounted.1 flex_mounted.2) _ (surjective_pairing _)).
    vm_compute; reflexivity.
  - exact (proj2 (flex_mount_unmount flex_disk "/mnt" a_device flex_options flex_mounted.2 flex_unmounted.1 flex_unmounted.2) (surjective_pairing _)).
Defined.
