(* ===== verification/Provisioner.v ===== *)
(** * The provisioner of persistent volumes (src/pkg/volume/provisioner)

    core/provisioner.go and core/utils.go ask a plugin for volumes: block/block.go makes
    block volumes for the Flexvolume driver, fss/fss.go file systems that are mounted over
    NFS.  The plugins are instances of the class [ProvisionerPlugin]. *)
From stdpp Require Import base tactics list gmap sets strings.
From Stdlib Require Import Ascii.
From S2P Require Import Prelude GoStrings GoRegexp Types ClientErrors ClientCalls Annotations CsiUtil StorageClient FileStorageClient FileStorage Config Startup.

(** ** What Kubernetes asks for and is given *)

(** [resource.Quantity]: the value in bytes, rounded up, and the comparison.  A quantity
    that is larger has at least the value. *)
Class Quantities := {
  Quantity : Type;
  q_Value : Quantity → Z;
  q_Cmp : Quantity → Quantity → Z;
  q_Value_bounds : ∀ q, (0 ≤ q_Value q < 2 ^ 63)%Z;
  q_Cmp_Value : ∀ a b, q_Cmp a b = 1%Z → (q_Value b ≤ q_Value a)%Z;
}.

(** [helpers.ChooseZonesForVolume]: some of the zones, by the name of the claim. *)
Class ZoneChoice := {
  ChooseZonesForVolume : gset string → string → nat → gset string;
  chosen_zones : ∀ zones name n, ChooseZonesForVolume zones name n ⊆ zones;
}.

Section types.
Context `{!Quantities}.

Record StorageClass := {
  sc_Parameters : gmap string string;
  sc_ReclaimPolicy : option string;
  sc_MountOptions : list string;
}.

Record PersistentVolumeClaim := {
  pvc_Name : string;
  pvc_UID : string;
  pvc_Annotations : gmap string string;
  pvc_AccessModes : list string;
  pvc_Requests : gmap string Quantity;
  pvc_Selector : option (gmap string string);
}.

(** [controller.ProvisionOptions]. *)
Record ProvisionOptions := {
  po_StorageClass : StorageClass;
  po_PVName : string;
  po_PVC : PersistentVolumeClaim;
}.

Inductive PersistentVolumeSource :=
| FlexVolume (driver fsType : string)
| NFS (server path : string) (readOnly : bool).

Record PersistentVolume := {
  pv_Name : string;
  pv_Annotations : gmap string string;
  pv_Labels : gmap string string;
  pv_ReclaimPolicy : string;
  pv_AccessModes : list string;
  pv_Capacity : option Quantity;
  pv_Source : PersistentVolumeSource;
  pv_MountOptions : list string;
}.
End types.

Definition ReadWriteOnce : string := "ReadWriteOnce".
Definition ReadWriteMany : string := "ReadWriteMany".
Definition ResourceStorage : string := "storage".

Definition OCIProvisionerName : string := "oracle/oci".
Definition LabelZoneFailureDomain : string := "failure-domain.beta.kubernetes.io/zone".
Definition LabelZoneRegion : string := "failure-domain.beta.kubernetes.io/region".

(** plugin/plugin.go. *)
Class ProvisionerPlugin `{!Quantities} (W : Type) := {
  plugin_Provision : ProvisionOptions → string → M W PersistentVolume;
  plugin_Delete : PersistentVolume → M W ();
}.

(** ** Block volumes *)

Definition OCIVolumeID : string := "ociVolumeID".
Definition OCIVolumeBackupID : string := "volume.beta.kubernetes.io/oci-volume-source".
Definition FSType : string := "fsType".
Definition volumeRoundingUpEnabled : string := "volumeRoundingUpEnabled".
Definition volumeBackupOCIDPrefixExp : string := "^ocid[v]?[\d+]?[\.:]volumebackup[\.:]".
Definition timeout : Z := 180.

Record blockProvisioner `{!Quantities} := {
  bp_volumeRoundingEnabled : bool;
  bp_minVolumeSize : Quantity;
  bp_region : string;
  bp_compartmentID : string;
}.

Definition resolveFSType (parameters : gmap string string) : string :=
  let fsType := default "" (parameters !! FSType) in
  if decide (fsType = "ext4" ∨ fsType = "ext3") then fsType else "ext4".

(** Of 64-bit integers; the same function is in core/provisioner.go. *)
Definition roundUpSize (volumeSizeBytes allocationUnitBytes : Z) : Z :=
  Z.quot (int64 (int64 (volumeSizeBytes + allocationUnitBytes) - 1)) allocationUnitBytes.

Definition volumeRoundingEnabled (param : gmap string string) : bool :=
  match param !! volumeRoundingUpEnabled with
  | Some volumeRoundingUpParam => match ParseBool volumeRoundingUpParam with Some enabled => enabled | None => true end
  | None => true
  end.

(** [regexp.MatchString] for a pattern that begins with [^]. *)
Definition anchored_match (pattern s : string) : bool :=
  match strip_prefix "^" pattern ≫= Compile with
  | Some r => bool_decide (is_Some (match_here r s))
  | None => false
  end.
Definition isVolumeBackupOcid (ocid : string) : bool := anchored_match volumeBackupOCIDPrefixExp ocid.

Example backup_ocids :
  isVolumeBackupOcid "ocid1.volumebackup.oc1.phx.a" = true ∧ isVolumeBackupOcid "ocidv1:volumebackup:oc1" = true ∧
  isVolumeBackupOcid "ocid1.volume.oc1.phx.a" = false ∧ isVolumeBackupOcid "an ocid1.volumebackup." = false.
Proof. by vm_compute. Qed.

Definition volume_source_details (annotations : gmap string string) : option VolumeSource :=
  (λ value, if isVolumeBackupOcid value then FromVolumeBackup value else FromVolume value) <$> annotations !! OCIVolumeBackupID.

Fixpoint check_access_modes (modes : list string) : outcome () :=
  match modes with
  | [] => mret ()
  | accessMode :: modes =>
      if decide (accessMode ≠ ReadWriteOnce)
      then Err (Errorf "invalid access mode %v specified. Only %v is supported" [accessMode; ReadWriteOnce])
      else check_access_modes modes
  end.

Section block.
Context {W : Type} `{!Quantities, !StorageSdk W, !Limits W, !ErrorText}.

(** The capacity of the volume: that of the claim or, if it is less, the least one. *)
Definition block_capacity (p : blockProvisioner) (options : ProvisionOptions) (capacity : Quantity) : Quantity :=
  if volumeRoundingEnabled (sc_Parameters (po_StorageClass options)) && bp_volumeRoundingEnabled p &&
     bool_decide (q_Cmp (bp_minVolumeSize p) capacity = 1%Z)
  then bp_minVolumeSize p else capacity.

Definition block_details (p : blockProvisioner) (options : ProvisionOptions) (ad : string) (capacity : Quantity) : CreateVolumeDetails := {|
  cvd_AvailabilityDomain := ad; cvd_CompartmentId := bp_compartmentID p; cvd_DisplayName := pvc_UID (po_PVC options);
  cvd_SizeInGBs := None; cvd_SizeInMBs := Some (roundUpSize (q_Value capacity) (1024 * 1024)); cvd_VpusPerGB := None;
  cvd_SourceDetails := volume_source_details (pvc_Annotations (po_PVC options));
  cvd_KmsKeyId := None; cvd_FreeformTags := ∅; cvd_DefinedTags := ∅ |}.

(** The volume with the name of the claim, created if there is none. *)
Definition block_find_or_create (p : blockProvisioner) (fuel : nat) (details : CreateVolumeDetails) : M W Volume :=
  let n := cvd_DisplayName details in
  volumes ← report (GetVolumesByName fuel n (bp_compartmentID p))
              (λ err, fail (Errorf "failed to check existence of volume %v" [Error err]));
  match volumes with
  | [] => wrapM (CreateVolume details) "Failed to create volume" []
  | [volume] => mret volume
  | _ => fail (Errorf "duplicate volume %q exists" [n])
  end.

(** When the wait fails there is no volume, whose id is then read: the deletion of the
    volume that follows is not reached.  The time of the calls before the wait is not
    taken from its three minutes. *)
Definition block_await (volume : Volume) : M W Volume :=
  id ← lift (deref (vol_Id volume));
  r ← try (AwaitVolumeAvailableORTimeout (Some timeout) id);
  match r with
  | inr volume => mret volume
  | inl err => lift Panic
  end.

Definition block_Provision (p : blockProvisioner) (fuel : nat) (options : ProvisionOptions) (ad : string) : M W PersistentVolume :=
  let pvc := po_PVC options in let class := po_StorageClass options in
  _ ← lift (check_access_modes (pvc_AccessModes pvc));
  match pvc_Requests pvc !! ResourceStorage with
  | None => fail (Errorf "could not determine volume size for PVC" [])
  | Some capacity =>
      let capacity := block_capacity p options capacity in
      volume ← block_find_or_create p fuel (block_details p options ad capacity);
      volume ← block_await volume;
      id ← lift (deref (vol_Id volume));
      reclaimPolicy ← lift (deref (sc_ReclaimPolicy class));
      mret {| pv_Name := id; pv_Annotations := {[OCIVolumeID := id]};
              pv_Labels := <[LabelZoneRegion := bp_region p]> {[LabelZoneFailureDomain := ad]};
              pv_ReclaimPolicy := reclaimPolicy; pv_AccessModes := pvc_AccessModes pvc; pv_Capacity := Some capacity;
              pv_Source := FlexVolume OCIProvisionerName (resolveFSType (sc_Parameters class));
              pv_MountOptions := sc_MountOptions class |}
  end.

Definition block_Delete (volume : PersistentVolume) : M W () :=
  match pv_Annotations volume !! OCIVolumeID with
  | None => fail (Errorf "volumeid annotation not found on PV" [])
  | Some id =>
      r ← try (DeleteVolume id);
      match r with
      | inr _ => mret ()
      | inl err => if IsNotFound (Some err) then mret () else wrapM (fail err) "failed to delete volume from OCI" []
      end
  end.

Definition NewBlockProvisioner (fuel : nat) (region compartmentID : string) (volumeRoundingEnabled : bool) (minVolumeSize : Quantity)
    : ProvisionerPlugin W := {|
  plugin_Provision := block_Provision {| bp_volumeRoundingEnabled := volumeRoundingEnabled; bp_minVolumeSize := minVolumeSize;
                                         bp_region := region; bp_compartmentID := compartmentID |} fuel;
  plugin_Delete := block_Delete |}.
End block.

(** ** File systems *)

Definition ociVolumeID : string := "volume.beta.kubernetes.io/oci-volume-id".
Definition ociExportID : string := "volume.beta.kubernetes.io/oci-export-id".
Definition AnnotationMountTargetID : string := "volume.beta.kubernetes.io/oci-mount-target-id".
Definition MntTargetID : string := "mntTargetId".

Record filesystemProvisioner := {
  fsp_region : string;
  fsp_compartmentID : string;
}.

(** utils.go: the prefix that the environment gives names of volumes. *)
Definition GetPrefix (env : string → option string) : string :=
  let prefix := TrimSpace (default "" (env "OCI_VOLUME_NAME_PREFIX")) in
  if decide (prefix ≠ "" ∧ HasSuffix prefix "-" = false) then prefix +:+ "-" else prefix.

Section fss.
Context `{!Quantities}.

Definition getMountTargetID (opts : ProvisionOptions) : string :=
  let mtID := default "" (pvc_Annotations (po_PVC opts) !! AnnotationMountTargetID) in
  if decide (mtID ≠ "") then mtID else default "" (sc_Parameters (po_StorageClass opts) !! MntTargetID).

Fixpoint isReadOnly (modes : list string) : bool :=
  match modes with
  | [] => true
  | mode :: modes => if decide (mode = ReadWriteMany ∨ mode = ReadWriteOnce) then false else isReadOnly modes
  end.

Context {W CO : Type} `{!FssSdk W CO, !Limits W, !SliceRoom, !StorageSdk W, !FssEnvironment W}.

(** An error other than of something missing ends a function. *)
Definition unless_not_found (err : option error) : M W () :=
  match err with
  | Some e => if IsNotFound (Some e) then mret () else fail e
  | None => mret ()
  end.

Definition fsp_getOrCreateFileSystem (p : filesystemProvisioner) (fuel : nat) (ad displayName : string) : M W FileSystem :=
  '(_, summary, err) ← GetFileSystemSummaryByDisplayName fuel (fsp_compartmentID p) ad displayName;
  _ ← unless_not_found err;
  match summary with
  | [] =>
      fs ← CreateFileSystem {| cfd_AvailabilityDomain := ad; cfd_CompartmentId := fsp_compartmentID p; cfd_DisplayName := displayName;
                               cfd_FreeformTags := None; cfd_DefinedTags := None; cfd_KmsKeyId := None |};
      id ← lift (deref (fs_Id fs));
      AwaitFileSystemActive None id
  | [filesystem] => id ← lift (deref (sum_Id filesystem)); AwaitFileSystemActive None id
  | _ => fail (Errorf "duplicate volume %q exists" [displayName])
  end.

Definition fsp_getOrCreateExport (fuel : nat) (fsID exportSetID : string) : M W Export :=
  let path := "/" +:+ fsID in
  '(summary, err) ← FindExport fuel fsID path exportSetID;
  _ ← unless_not_found err;
  match summary with
  | Some summary => id ← lift (deref (es_Id summary)); AwaitExportActive None id
  | None =>
      export ← CreateExport {| ced_ExportSetId := exportSetID; ced_FileSystemId := fsID; ced_Path := path; ced_ExportOptions := None |};
      id ← lift (deref (ex_Id export));
      AwaitExportActive None id
  end.

(** The mount target's export set and one of its addresses, at random. *)
Definition fsp_mount_target (mtID : string) : M W (string * string) :=
  target ← AwaitMountTargetActive None mtID;
  if decide (length (mt_PrivateIpIds target) = 0) then fail (Errorf "mount target has no associated private IPs" []) else
  match mt_ExportSetId target with
  | None => fail (Errorf "mount target has no export set associated with it" [])
  | Some exportSetId =>
      id ← (λ w, (index (mt_PrivateIpIds target) (rand_Intn (length (mt_PrivateIpIds target)) w), w));
      privateIP ← fss_GetPrivateIp id;
      match privateIP with
      | None => fail (Errorf "PrivateIp %q associated with MountTarget %q has no IpAddress" [id; mtID])
      | Some ip => mret (exportSetId, ip)
      end
  end.

Definition filesystem_Provision (p : filesystemProvisioner) (env : string → option string) (fuel : nat) (options : ProvisionOptions)
    (ad : string) : M W PersistentVolume :=
  let pvc := po_PVC options in let class := po_StorageClass options in
  let fsDisplayName := GetPrefix env +:+ pvc_UID pvc in
  let mtID := getMountTargetID options in
  if decide (mtID = "") then fail (Errorf "no mount target ID provided (via PVC annotation nor StorageClass option)" []) else
  '(exportSetId, ip) ← fsp_mount_target mtID;
  fs ← fsp_getOrCreateFileSystem p fuel ad fsDisplayName;
  fsId ← lift (deref (fs_Id fs));
  export ← fsp_getOrCreateExport fuel fsId exportSetId;
  exportId ← lift (deref (ex_Id export));
  reclaimPolicy ← lift (deref (sc_ReclaimPolicy class));
  path ← lift (deref (ex_Path export));
  mret {| pv_Name := po_PVName options; pv_Annotations := <[ociVolumeID := fsId]> {[ociExportID := exportId]};
          pv_Labels := {[LabelZoneRegion := fsp_region p]};
          pv_ReclaimPolicy := reclaimPolicy; pv_AccessModes := pvc_AccessModes pvc;
          pv_Capacity := pvc_Requests pvc !! ResourceStorage;
          pv_Source := NFS ip path (isReadOnly (pvc_AccessModes pvc)); pv_MountOptions := sc_MountOptions class |}.

(** A resource that is missing is taken for deleted. *)
Definition delete_if_found (c : M W ()) : M W () :=
  report c (λ err, if IsNotFound (Some err) then mret () else fail err).

Definition filesystem_Delete (volume : PersistentVolume) : M W () :=
  let exportID := default "" (pv_Annotations volume !! ociExportID) in
  if decide (exportID = "") then fail (Errorf "%q annotation not found on PV" [ociExportID]) else
  let filesystemID := default "" (pv_Annotations volume !! ociVolumeID) in
  if decide (filesystemID = "") then fail (Errorf "%q annotation not found on PV" [ociVolumeID]) else
  _ ← delete_if_found (DeleteExport exportID);
  delete_if_found (DeleteFileSystem filesystemID).

Definition NewFilesystemProvisioner (env : string → option string) (fuel : nat) (region compartmentID : string) : ProvisionerPlugin W := {|
  plugin_Provision := filesystem_Provision {| fsp_region := region; fsp_compartmentID := compartmentID |} env fuel;
  plugin_Delete := filesystem_Delete |}.
End fss.

(** ** The provisioner *)

Definition ProvisionerNameDefault : string := "oracle.com/oci".
Definition ProvisionerNameBlock : string := "oracle.com/oci-block".
Definition ProvisionerNameFss : string := "oracle.com/oci-fss".
Definition ociProvisionerIdentity : string := "ociProvisionerIdentity".
Definition ociAvailabilityDomain : string := "ociAvailabilityDomain".
Definition ociCompartment : string := "ociCompartment".
Definition configFilePath : string := "/etc/oci/config.yaml".

(** [strings.SplitN(AD, ":", 2)], of which the last part is taken. *)
Definition mapAvailabilityDomainToFailureDomain (AD : string) : string :=
  match Index AD ":" with
  | Some i => String.substring (S i) (String.length AD - S i) AD
  | None => AD
  end.

Record OCIProvisioner `{!Quantities} (W : Type) := {
  op_nodeLister : error + list Node;
  op_provisioner : ProvisionerPlugin W;
  op_compartmentID : string;
}.
Arguments op_nodeLister {_ W}. Arguments op_provisioner {_ W}. Arguments op_compartmentID {_ W}.

(** The zones of the nodes. *)
Definition node_zones (nodes : list Node) : gset string :=
  list_to_set (omap (λ n, node_Labels n !! LabelZoneFailureDomain) nodes).

Section core.
Context {W : Type} `{!Quantities, !ZoneChoice, !StorageSdk W, !Limits W, !ErrorText}.

(** The zone that the claim selects, by the label of Kubernetes or the old one. *)
Definition selected_zone (pvc : PersistentVolumeClaim) : option string :=
  labels ← pvc_Selector pvc;
  match labels !! LabelZoneFailureDomain with
  | Some zone => Some zone
  | None => labels !! "oci-availability-domain"
  end.

(** A zone among those of the nodes. *)
Definition choose_zone (nodeLister : error + list Node) (pvc : PersistentVolumeClaim) : outcome string :=
  match nodeLister with
  | inl err => Err (Errorf "failed to list nodes when choosing availability domain: %v" [Error err])
  | inr nodes =>
      let validADs := node_zones nodes in
      if decide (size validADs = 0)
      then Err (Errorf "failed to choose availability domain; no zone labels (%q) on nodes" [LabelZoneFailureDomain]) else
      let availabilityDomainNames := ChooseZonesForVolume validADs (pvc_Name pvc) 1 in
      if decide (size availabilityDomainNames = 0)
      then Err (Errorf "failed to select a name from an empty list of availability domains" [])
      else index (sets_List availabilityDomainNames) 0
  end.

(** The zone and the full name of its availability domain. *)
Definition chooseAvailabilityDomain (p : OCIProvisioner W) (pvc : PersistentVolumeClaim) : M W (string * string) :=
  availabilityDomainName ← (match selected_zone pvc with
                            | Some zone => mret zone
                            | None => lift (choose_zone (op_nodeLister p) pvc)
                            end);
  availabilityDomain ← GetAvailabilityDomainByName (op_compartmentID p) availabilityDomainName;
  mret (availabilityDomainName, availabilityDomain).

(** What the provisioner notes on a volume. *)
Definition annotated (compartmentID zone ad : string) (pv : PersistentVolume) : PersistentVolume := {|
  pv_Name := pv_Name pv;
  pv_Annotations := <[ociCompartment := compartmentID]> (<[ociAvailabilityDomain := zone]>
                      (<[ociProvisionerIdentity := ociProvisionerIdentity]> (pv_Annotations pv)));
  pv_Labels := <[LabelZoneFailureDomain := mapAvailabilityDomainToFailureDomain ad]> (pv_Labels pv);
  pv_ReclaimPolicy := pv_ReclaimPolicy pv; pv_AccessModes := pv_AccessModes pv; pv_Capacity := pv_Capacity pv;
  pv_Source := pv_Source pv; pv_MountOptions := pv_MountOptions pv |}.

Definition oci_Provision (p : OCIProvisioner W) (options : ProvisionOptions) : M W PersistentVolume :=
  '(zone, ad) ← chooseAvailabilityDomain p (po_PVC options);
  persistentVolume ← @plugin_Provision _ _ (op_provisioner p) options ad;
  mret (annotated (op_compartmentID p) zone ad persistentVolume).

(** [controller.IgnoredError] is an error that the controller does not retry. *)
Definition oci_Delete (p : OCIProvisioner W) (volume : PersistentVolume) : M W () :=
  match pv_Annotations volume !! ociProvisionerIdentity with
  | None => fail (Errorf "identity annotation not found on PV" [])
  | Some identity =>
      if decide (identity ≠ ociProvisionerIdentity)
      then fail (Errorf "ignored because %s" ["identity annotation on PV does not match ours"])
      else @plugin_Delete _ _ (op_provisioner p) volume
  end.
End core.

(** The tenancy that credentials belong to. *)
Class Tenancies (W : Type) := { TenancyOCID : ConfigurationProvider → M W string }.

Section start.
Context {W CO : Type} `{!Quantities, !FssSdk W CO, !Limits W, !SliceRoom, !StorageSdk W, !FssEnvironment W}.
Context `{!ConfigEnvironment W, !SdkClients W, !MapRange, !Tenancies W, !ErrorText}.

(** The region of the environment or of the instance.  Without either, the error that is
    wrapped is nil, so that the answer is neither a provisioner nor an error: [None]. *)
Definition provisioner_region (env : string → option string) (metadata : error + InstanceMetadata) : option string :=
  match env "OCI_SHORT_REGION", metadata with
  | Some region, _ => Some region
  | None, inl _ => None
  | None, inr metadata => Some (meta_Region metadata)
  end.

Definition provisioner_compartment (cfg : Config) (metadata : error + InstanceMetadata) : M W string :=
  if decide (pc_CompartmentID cfg = "") then
    match metadata with
    | inl mdErr => wrapM (fail mdErr) "unable to get compartment OCID" []
    | inr metadata => mret (meta_CompartmentID metadata)
    end
  else mret (pc_CompartmentID cfg).

Definition plugin_for (env : string → option string) (fuel : nat) (provisionerType region compartmentID : string)
    (volumeRoundingEnabled : bool) (minVolumeSize : Quantity) : outcome (ProvisionerPlugin W) :=
  if decide (provisionerType = ProvisionerNameDefault ∨ provisionerType = ProvisionerNameBlock)
  then mret (NewBlockProvisioner fuel region compartmentID volumeRoundingEnabled minVolumeSize)
  else if decide (provisionerType = ProvisionerNameFss) then mret (NewFilesystemProvisioner (CO := CO) env fuel region compartmentID)
  else Err (Errorf "invalid provisioner type %q" [provisionerType]).

Definition NewOCIProvisioner (env : string → option string) (fuel : nat) (nodes : error + list Node) (provisionerType : string)
    (volumeRoundingEnabled : bool) (minVolumeSize : Quantity) : M W (option (OCIProvisioner W)) :=
  let configPath := default configFilePath (env "CONFIG_YAML_FILENAME") in
  cfg ← wrapM (FromFile configPath) "failed to load configuration file at path %s" [configPath];
  match Validate cfg with
  | Some err => wrapM (fail err) "invalid configuration" []
  | None =>
      metadata ← try metadata_Get;
      compartmentID ← provisioner_compartment cfg metadata;
      let cfg := set_config (pc_Auth cfg) (pc_LoadBalancer cfg) (pc_RateLimiter cfg) (pc_RegionKey cfg)
                   (pc_UseInstancePrincipals cfg) compartmentID (pc_VCNID cfg) cfg in
      cp ← wrapM (NewConfigurationProvider (Some cfg)) "unable to create volume provisioner client." [];
      _ ← wrapM (TenancyOCID cp) "unable to detrimine tenancy" [];
      let '(rateLimiter, _) := NewRateLimiter (pc_RateLimiter cfg) in
      _ ← wrapM (New cp rateLimiter) "unable to construct OCI client" [];
      match provisioner_region env metadata with
      | None => mret None
      | Some region =>
          plugin ← lift (plugin_for env fuel provisionerType region compartmentID volumeRoundingEnabled minVolumeSize);
          mret (Some {| op_nodeLister := nodes; op_provisioner := plugin; op_compartmentID := compartmentID |})
      end
  end.
End start.
