(* ===== verification/ProvisionerFacts.v ===== *)
(** * What the provisioner achieves

    The plugins promise [PluginLaws]: a volume that is provisioned is in service, and a
    deletion ends the service of that volume and of no other.  The provisioner is proved
    against this interface; the block storage and the file storage plugin implement it.
    Provisioning a claim twice makes one volume. *)
From stdpp Require Import base tactics list gmap sets strings.
From S2P Require Import Prelude GoStrings Types ClientErrors ClientCalls Annotations CsiUtil CsiUtilFacts StorageClient BlockVolume BlockVolumeFacts FileStorageClient FileStorage FileStorageFacts Config Startup ConfigFacts Provisioner.

(** ** The interface of plugins *)

(** The annotations that the provisioner adds. *)
Definition own_annotations : list string := [ociProvisionerIdentity; ociAvailabilityDomain; ociCompartment].

(** [asset] reads from the annotations of a volume the resource behind it, and [held] says
    that a resource is in service. *)
Class PluginLaws `{!Quantities} {W : Type} (P : ProvisionerPlugin W) := {
  asset : gmap string string → option string;
  held : string → W → Prop;
  asset_kept : ∀ k v m, k ∈ own_annotations → asset (<[k := v]> m) = asset m;
  Provision_holds : ∀ options ad w pv w', plugin_Provision options ad w = (Ret pv, w') →
    ∃ id, asset (pv_Annotations pv) = Some id ∧ held id w';
  Delete_frees : ∀ pv w w', plugin_Delete pv w = (Ret (), w') →
    ∃ id, asset (pv_Annotations pv) = Some id ∧ ¬ held id w';
  Delete_only : ∀ pv w o w' id, plugin_Delete pv w = (o, w') → asset (pv_Annotations pv) ≠ Some id →
    held id w ↔ held id w';
}.

Arguments asset {_ _} P {_}.
Arguments held {_ _} P {_}.

Lemma asset_annotated `{!Quantities} {W : Type} (P : ProvisionerPlugin W) `{!PluginLaws P} c zone ad pv :
  asset P (pv_Annotations (annotated c zone ad pv)) = asset P (pv_Annotations pv).
Proof. simpl. rewrite !asset_kept; [done|unfold own_annotations; set_solver..]. Qed.

Section core.
Context {W : Type} `{!Quantities, !ZoneChoice, !StorageSdk W, !Limits W} {ET : ErrorText}.

Lemma find_domain_suffix zone ads ad : find_domain zone ads = Ret (Some ad) → HasSuffix (ToLower ad) (ToLower zone) = true.
Proof.
  induction ads as [|[full|] ads IH]; simpl; [done| |done].
  destruct (HasSuffix (ToLower full) (ToLower zone)) eqn:E; [by intros [= <-]|done].
Qed.

Lemma GetAvailabilityDomainByName_suffix c zone (w : W) ad w' :
  GetAvailabilityDomainByName c zone w = (Ret ad, w') → HasSuffix (ToLower ad) (ToLower zone) = true.
Proof.
  unfold GetAvailabilityDomainByName, limited. destruct (Reader_TryAccept w) as [[] w1]; [|done].
  intros Hr. apply M_bind_Ret_inv in Hr as (ads & w2 & _ & Hr).
  apply M_bind_Ret_inv in Hr as (found & w3 & [Hf ->]%lift_Ret_inv & Hr). destruct found as [ad'|]; [|done].
  injection Hr as <- _. by eapply find_domain_suffix.
Qed.

(** The zone that the claim selects, or that of some node. *)
Definition zone_for (p : OCIProvisioner W) (pvc : PersistentVolumeClaim) (zone : string) : Prop :=
  match selected_zone pvc with
  | Some z => zone = z
  | None => ∃ nodes n, op_nodeLister p = inr nodes ∧ n ∈ nodes ∧ node_Labels n !! LabelZoneFailureDomain = Some zone
  end.

Lemma choose_zone_Ret lister pvc zone :
  choose_zone lister pvc = Ret zone →
  ∃ nodes n, lister = inr nodes ∧ n ∈ nodes ∧ node_Labels n !! LabelZoneFailureDomain = Some zone.
Proof.
  destruct lister as [e|nodes]; [done|]. simpl. case_decide; [done|]. case_decide; [done|].
  unfold index. destruct (sets_List _ !! 0) as [z|] eqn:E; [|done]. intros [= ->].
  apply list_elem_of_lookup_2, elem_of_sets_List, chosen_zones in E. unfold node_zones in E.
  apply elem_of_list_to_set, list_elem_of_omap in E as (n & Hn & Hz). eauto.
Qed.

Lemma chooseAvailabilityDomain_Ret p pvc w zone ad w' :
  chooseAvailabilityDomain p pvc w = (Ret (zone, ad), w') →
  zone_for p pvc zone ∧ HasSuffix (ToLower ad) (ToLower zone) = true.
Proof.
  intros Hr. apply M_bind_Ret_inv in Hr as (z & w1 & Hz & Hr). apply M_bind_Ret_inv in Hr as (a & w2 & Ha & Hr).
  injection Hr as <- <- _. split; [|by eapply GetAvailabilityDomainByName_suffix].
  unfold zone_for. destruct (selected_zone pvc); [by injection Hz|]. apply lift_Ret_inv in Hz as [Hz _]. by eapply choose_zone_Ret.
Qed.

Lemma oci_Delete_annotated (p : OCIProvisioner W) c zone ad pv : oci_Delete p (annotated c zone ad pv) = @plugin_Delete _ _ (op_provisioner p) (annotated c zone ad pv).
Proof.
  unfold oci_Delete. assert (pv_Annotations (annotated c zone ad pv) !! ociProvisionerIdentity = Some ociProvisionerIdentity) as ->; [|done].
  simpl. by rewrite !lookup_insert_ne, lookup_insert_eq by done.
Qed.

(** A plugin that keeps its promises is asked to provision in the availability domain of the
    zone; the volume is in service and can be recognised, so that a deletion reaches the
    plugin. *)
Lemma provisioned_by_plugin (p : OCIProvisioner W) `{!PluginLaws (op_provisioner p)} options w pv w' :
  oci_Provision p options w = (Ret pv, w') →
  ∃ id zone ad w1 pv0, chooseAvailabilityDomain p (po_PVC options) w = (Ret (zone, ad), w1) ∧
    @plugin_Provision _ _ (op_provisioner p) options ad w1 = (Ret pv0, w') ∧ pv = annotated (op_compartmentID p) zone ad pv0 ∧
    asset (op_provisioner p) (pv_Annotations pv) = Some id ∧ held (op_provisioner p) id w' ∧
    ∀ w1 w2, oci_Delete p pv w1 = (Ret (), w2) → ¬ held (op_provisioner p) id w2.
Proof.
  intros Hr. apply M_bind_Ret_inv in Hr as ([zone ad] & w1 & Hz & Hr).
  apply M_bind_Ret_inv in Hr as (pv0 & w2 & Hp & Hr). injection Hr as <- <-.
  apply Provision_holds in Hp as Hasset. destruct Hasset as (id & Hid & Hh).
  exists id, zone, ad, w1, pv0. split_and!; try done; [by rewrite asset_annotated|].
  intros w3 w4. rewrite oci_Delete_annotated. intros (id' & Hid' & Hfree)%Delete_frees.
  rewrite asset_annotated, Hid in Hid'. by injection Hid' as <-.
Qed.

Lemma deleted_only (p : OCIProvisioner W) `{!PluginLaws (op_provisioner p)} pv w o w' : oci_Delete p pv w = (o, w') →
  (∀ id, asset (op_provisioner p) (pv_Annotations pv) ≠ Some id → held (op_provisioner p) id w ↔ held (op_provisioner p) id w') ∧
  (pv_Annotations pv !! ociProvisionerIdentity ≠ Some ociProvisionerIdentity → is_ret o = false ∧ w' = w).
Proof.
  unfold oci_Delete. destruct (pv_Annotations pv !! ociProvisionerIdentity) as [i|] eqn:Ei; [|by intros [= <- <-]].
  case_decide as Hi; intros Hr; [by injection Hr as <- <-|]. subst i. split; [|done]. intros id Hid. by eapply Delete_only.
Qed.
End core.

(** ** Block volumes *)

Section block.
Context {W : Type} `{!Quantities, !StorageSdk W, !Limits W, !KubeNodes W, !StorageLaws W} {ET : ErrorText}.

(** A volume with this name and size is added. *)
Definition makes (n c : string) (mb : Z) (w w' : W) : Prop := ∃ id v,
  vols w !! id = None ∧ vols w' = <[id := v]> (vols w) ∧ atts w' = atts w ∧ volume_named n c v ∧ vol_SizeInMBs v = Some mb.

Definition none_named (n c : string) (w : W) : Prop := ∀ id v, vols w !! id = Some v → ¬ (live_volume v ∧ volume_named n c v).

Lemma makes_still n c mb w w1 w' : still w w1 → makes n c mb w1 w' → makes n c mb w w'.
Proof. intros [H1 H2] (id & v & Hm). exists id, v. by rewrite <-H1, <-H2. Qed.

Lemma CreateVolume_makes d mb w o w' :
  cvd_SizeInMBs d = Some mb → CreateVolume d w = (o, w') →
  (still w w' ∧ is_ret o = false) ∨
  makes (cvd_DisplayName d) (cvd_CompartmentId d) mb w w' ∧
  (∀ v, o = Ret v → volume_named (cvd_DisplayName d) (cvd_CompartmentId d) v ∧ ∃ id, vols w' !! id = Some v).
Proof.
  intros Hmb Hr. unfold CreateVolume, limited in Hr. destruct (limits_still w) as [_ Hl].
  destruct (Writer_TryAccept w) as [[] w1]; simpl in Hl; [|injection Hr as <- <-; by left].
  apply CreateVolume_law in Hr as [[Hr Ho]|(id & v & Hnew & Hins & Ha & Hn & Hc & _ & Hsize & Hv & _)].
  - left. split; [by trans w1|done].
  - right. split.
    + apply (makes_still _ _ _ _ w1); [done|]. exists id, v. by split_and!; auto.
    + intros v' ->%Hv. split; [done|]. exists id. by rewrite Hins, lookup_insert_eq.
Qed.

Lemma roundUpSize_enough size :
  (0 ≤ size)%Z → (size + 1024 * 1024 < 2 ^ 63)%Z → (size ≤ roundUpSize size (1024 * 1024) * (1024 * 1024))%Z.
Proof.
  intros H1 H2. change (roundUpSize size (1024 * 1024)) with (RoundUpSize size (1024 * 1024)).
  rewrite RoundUpSize_exact by lia. pose proof (Z.div_mod (size + 1024 * 1024 - 1) (1024 * 1024) ltac:(lia)).
  pose proof (Z.mod_pos_bound (size + 1024 * 1024 - 1) (1024 * 1024) ltac:(lia)). lia.
Qed.

Lemma block_capacity_enough p options q : (q_Value q ≤ q_Value (block_capacity p options q))%Z.
Proof.
  unfold block_capacity. destruct (_ && bool_decide _) eqn:E; [|done].
  apply andb_true_iff in E as [_ E%bool_decide_eq_true]. by apply q_Cmp_Value.
Qed.

(** At most one volume is made, and only if there is none. *)
Lemma block_find_or_create_spec p fuel d mb w o w' :
  cvd_SizeInMBs d = Some mb → cvd_CompartmentId d = bp_compartmentID p →
  block_find_or_create p fuel d w = (o, w') →
  let n := cvd_DisplayName d in let c := bp_compartmentID p in
  (still w w' ∨ ∃ w1, still w w1 ∧ none_named n c w1 ∧ makes n c mb w1 w') ∧
  (∀ v, o = Ret v → volume_named n c v ∧ ∃ id, vols w' !! id = Some v).
Proof.
  intros Hmb Hc Hr n c. apply M_bind_cases in Hr as [(l & w1 & Hl & Hr)|(o1 & Hl & Ho)].
  - apply report_fails_Ret in Hl; [|done]. pose proof (GetVolumesByName_Ret _ _ _ _ _ _ Hl) as Hin.
    apply GetVolumesByName_still in Hl as Hst. destruct l as [|v [|v2 l]].
    + unfold wrapM in Hr. destruct (CreateVolume d w1) as [o2 w2] eqn:E. injection Hr as <- <-.
      apply (CreateVolume_makes _ _ _ _ _ Hmb) in E. rewrite Hc in E. destruct E as [[E Ho2]|[E Hv]].
      * split; [left; by trans w1|]. intros v. by destruct o2.
      * split; [right; exists w1; split_and!; [done| |done]|intros v; destruct o2; [|done..]; intros [= <-]; by apply Hv].
        intros id v Hv' [Hlv Hn]. assert (v ∈ @nil Volume) as Hv0; [|by apply elem_of_nil in Hv0].
        apply Hin. rewrite <-(proj1 Hst). eauto.
    + injection Hr as <- <-. split; [by left|]. intros v' [= <-].
      destruct (proj1 (Hin v) ltac:(by left)) as (_ & Hn & id & Hid). split; [done|]. exists id. by rewrite (proj1 Hst).
    + injection Hr as <- <-. by split; [left|].
  - split; [left|by intros v ->]. eapply (frames_report still); [apply GetVolumesByName_still| |done].
    intros e. apply (frames_lift still (Err _)).
Qed.

Lemma AwaitVolumeAvailable_aged ctx id : frames aged (AwaitVolumeAvailableORTimeout (W := W) ctx id).
Proof. apply (PollImmediateUntil_frames aged), (poll_state_frames aged), GetVolume_aged. Qed.

Lemma block_await_spec v w o w' :
  block_await v w = (o, w') →
  aged w w' ∧ ∀ v', o = Ret v' → ∃ id, vol_Id v = Some id ∧ vols w' !! id = Some v' ∧ vol_LifecycleState v' = VolumeAvailable.
Proof.
  unfold block_await. destruct (vol_Id v) as [id|]; [|by intros [= <- <-]]. intros Hr. split.
  - eapply (frames_bind aged); [apply (frames_lift aged)|intros id'|exact Hr].
    apply (frames_bind aged); [apply (frames_try aged), AwaitVolumeAvailable_aged|].
    intros []; [apply (frames_lift aged Panic)|apply (frames_lift aged (Ret _))].
  - intros v' ->. apply M_bind_Ret_inv in Hr as (id' & w1 & [[= <-] ->]%lift_Ret_inv & Hr).
    apply M_bind_Ret_inv in Hr as ([e|v0] & w2 & Ht & Hr); [done|]. injection Hr as -> ->.
    unfold try in Ht. destruct (AwaitVolumeAvailableORTimeout (Some timeout) id w) as [[v1|e|] w1] eqn:E; simplify_eq.
    apply AwaitVolume_Ret in E as (_ & Hv & Ha%volume_available_true). eauto.
Qed.

Lemma check_access_modes_Ret modes : check_access_modes modes = Ret () → Forall (λ mode, mode = ReadWriteOnce) modes.
Proof. induction modes as [|m modes IH]; simpl; [done|]. case_decide; [done|]. auto using Forall_cons. Qed.

(** When the wait for a volume fails, provisioning panics: the volume that was made is not
    deleted. *)
Theorem failed_wait_panics v id w e w' :
  vol_Id v = Some id → AwaitVolumeAvailableORTimeout (Some timeout) id w = (Err e, w') → block_await v w = (Panic, w').
Proof. intros Hid Hw. unfold block_await, mbind, M_bind, try, lift. rewrite Hid. simpl. by rewrite Hw. Qed.

(** What a persistent volume says of the volume behind it. *)
Definition backed (p : blockProvisioner) (options : ProvisionOptions) (pv : PersistentVolume) (w : W) : Prop := ∃ v q cap,
  pv_Annotations pv = {[OCIVolumeID := pv_Name pv]} ∧ vols w !! pv_Name pv = Some v ∧
  volume_named (pvc_UID (po_PVC options)) (bp_compartmentID p) v ∧ vol_LifecycleState v = VolumeAvailable ∧
  pvc_Requests (po_PVC options) !! ResourceStorage = Some q ∧ pv_Capacity pv = Some cap ∧ (q_Value q ≤ q_Value cap)%Z ∧
  Forall (λ mode, mode = ReadWriteOnce) (pv_AccessModes pv).

Lemma block_Provision_Ret p fuel options ad w pv w' :
  block_Provision p fuel options ad w = (Ret pv, w') → backed p options pv w'.
Proof.
  intros Hr. apply M_bind_Ret_inv in Hr as ([] & w0 & [Em ->]%lift_Ret_inv & Hr).
  destruct (pvc_Requests (po_PVC options) !! ResourceStorage) as [q|] eqn:Eq; [|done].
  apply M_bind_Ret_inv in Hr as (v & w1 & Hf & Hr). apply M_bind_Ret_inv in Hr as (v' & w2 & Hw & Hr).
  apply (block_find_or_create_spec p fuel (block_details p options ad (block_capacity p options q)) _ _ _ _ eq_refl eq_refl) in Hf as [_ Hv].
  destruct (Hv v eq_refl) as [Hn [id Hid]]. pose proof (vols_id _ _ _ Hid) as Hvid.
  apply block_await_spec in Hw as [Ha Hv']. destruct (Hv' v' eq_refl) as (id' & Hid' & Hin & Hav).
  rewrite Hvid in Hid'. injection Hid' as <-. rewrite (vols_id _ _ _ Hin) in Hr.
  apply M_bind_Ret_inv in Hr as (i & w3 & [[= <-] ->]%lift_Ret_inv & Hr).
  apply M_bind_Ret_inv in Hr as (policy & w4 & [_ ->]%lift_Ret_inv & Hr). injection Hr as <- <-.
  exists v', q, (block_capacity p options q). split_and!; try done.
  - destruct (aged_volume _ _ _ _ Ha Hid) as (v2 & Hv2 & Hsame). simpl in Hin. rewrite Hin in Hv2. injection Hv2 as <-. by eapply volume_named_same.
  - apply block_capacity_enough.
  - by apply check_access_modes_Ret.
Qed.

(** The volume that is answered was there, or the service was asked to create it, in the
    given availability domain. *)
Definition created_in (ad : string) (id : string) : Prop := ∃ d (w1 w2 : W) v,
  ssdk_CreateVolume d w1 = (Ret v, w2) ∧ vol_Id v = Some id ∧ cvd_AvailabilityDomain d = ad.

Lemma block_find_or_create_made p fuel d w v w' id : block_find_or_create p fuel d w = (Ret v, w') → vol_Id v = Some id →
  is_Some (vols w !! id) ∨ created_in (cvd_AvailabilityDomain d) id.
Proof.
  intros Hr Hid. apply M_bind_Ret_inv in Hr as (l & w1 & Hl & Hr). apply report_fails_Ret in Hl; [|done].
  pose proof (GetVolumesByName_Ret _ _ _ _ _ _ Hl) as Hin. destruct l as [|v1 [|v2 l]]; [| |done].
  - right. unfold wrapM in Hr. destruct (CreateVolume d w1) as [[v1|e|] w2] eqn:E; injection Hr as Hv <-; [subst v1|discriminate..].
    unfold CreateVolume in E. apply limited_Ret_of in E as (w3 & _ & E). by exists d, w3, w2, v.
  - injection Hr as -> _. destruct (proj1 (Hin v) ltac:(by left)) as (_ & _ & i & Hi). left.
    rewrite (vols_id _ _ _ Hi) in Hid. injection Hid as ->. eauto.
Qed.

Lemma block_Provision_made p fuel options ad w pv w' : block_Provision p fuel options ad w = (Ret pv, w') →
  is_Some (vols w !! pv_Name pv) ∨ created_in ad (pv_Name pv).
Proof.
  intros Hr. apply M_bind_Ret_inv in Hr as ([] & w0 & [_ ->]%lift_Ret_inv & Hr).
  destruct (pvc_Requests (po_PVC options) !! ResourceStorage) as [q|]; [|done].
  apply M_bind_Ret_inv in Hr as (v & w1 & Hf & Hr). apply M_bind_Ret_inv in Hr as (v' & w2 & Hw & Hr).
  apply (block_find_or_create_spec p fuel (block_details p options ad (block_capacity p options q)) _ _ _ _ eq_refl eq_refl) in Hf as Hv.
  destruct Hv as [_ Hv]. destruct (Hv v eq_refl) as [_ [id Hid]]. apply vols_id in Hid.
  apply (block_find_or_create_made _ _ _ _ _ _ _ Hf) in Hid as Hmade. apply block_await_spec in Hw as [_ Hv'].
  destruct (Hv' v' eq_refl) as (id' & Hid' & Hin & _). rewrite Hid in Hid'. injection Hid' as <-. rewrite (vols_id _ _ _ Hin) in Hr.
  apply M_bind_Ret_inv in Hr as (i & w3 & [[= <-] ->]%lift_Ret_inv & Hr).
  apply M_bind_Ret_inv in Hr as (policy & w4 & [_ ->]%lift_Ret_inv & Hr). by injection Hr as <- <-.
Qed.

(** C22: Whatever its outcome, a request to provision a block volume for a
    claim makes at most one volume, and only at a moment when there is no available or
    provisioning volume with the id of the claim for a name; the new volume has the size of
    the claim, or the least size if that is more, in whole mebibytes, rounded up unless the
    size in bytes overflows.  A persistent volume that is answered is named and annotated
    with the id of an available volume of that name, and has at least the capacity of the
    claim, which was for a single writer. *)
Theorem block_Provision_once p fuel options ad w o w' :
  block_Provision p fuel options ad w = (o, w') →
  let n := pvc_UID (po_PVC options) in let c := bp_compartmentID p in
  (aged w w' ∨
   ∃ q w1 w2, pvc_Requests (po_PVC options) !! ResourceStorage = Some q ∧ still w w1 ∧ none_named n c w1 ∧
     let size := q_Value (block_capacity p options q) in
     let mb := roundUpSize size (1024 * 1024) in
     (q_Value q ≤ size)%Z ∧ (size + 1024 * 1024 < 2 ^ 63 → size ≤ mb * (1024 * 1024))%Z ∧
     makes n c mb w1 w2 ∧ aged w2 w') ∧
  (∀ pv, o = Ret pv → backed p options pv w').
Proof.
  intros Hr n c. split; [|intros pv ->; by eapply block_Provision_Ret].
  unfold block_Provision in Hr. destruct (check_access_modes _) as [[]|e|]; [|by injection Hr as <- <-; left..].
  destruct (pvc_Requests (po_PVC options) !! ResourceStorage) as [q|]; [|by injection Hr as <- <-; left].
  pose proof (block_capacity_enough p options q) as Hcap. pose proof (q_Value_bounds (block_capacity p options q)) as [Hpos _].
  match type of Hr with (_ ≫= ?f) w = _ => change (f () w = (o, w')) in Hr; cbv beta in Hr end.
  assert (∃ w1, (still w w1 ∨ ∃ w0, still w w0 ∧ none_named n c w0 ∧
    makes n c (roundUpSize (q_Value (block_capacity p options q)) (1024 * 1024)) w0 w1) ∧ aged w1 w') as (w1 & Hm & Ha).
  { apply M_bind_cases in Hr as [(v & w1 & Hf & Hr)|(o1 & Hf & _)];
      apply (block_find_or_create_spec p fuel (block_details p options ad _) _ _ _ _ eq_refl eq_refl) in Hf as [Hf _]; [exists w1|by exists w'].
    split; [done|]. apply M_bind_cases in Hr as [(v' & w2 & [Ha _]%block_await_spec & Hr)|(o1 & [Ha _]%block_await_spec & _)]; [|done].
    trans w2; [done|]. clear -Hr. unfold mbind, M_bind, lift, deref in Hr. destruct (vol_Id v'); [|by injection Hr as _ <-].
    by destruct (sc_ReclaimPolicy _); injection Hr as _ <-. }
  destruct Hm as [Hs|(w0 & Hs & Hn & Hm)]; [left; trans w1; [by apply still_aged|done]|right].
  exists q, w0, w1. cbv zeta. split_and!; try done. intros. by apply roundUpSize_enough.
Qed.

Definition in_service (id : string) (w : W) : Prop := ∃ v, vols w !! id = Some v ∧ live_volume v.

Lemma still_in_service id w w' : still w w' → in_service id w ↔ in_service id w'.
Proof. intros [Hv _]. unfold in_service. by rewrite Hv. Qed.

Lemma block_Delete_spec pv w o w' :
  block_Delete pv w = (o, w') →
  (∀ id, pv_Annotations pv !! OCIVolumeID ≠ Some id → in_service id w ↔ in_service id w') ∧
  (o = Ret () → ∃ id, pv_Annotations pv !! OCIVolumeID = Some id ∧ ¬ in_service id w').
Proof.
  unfold block_Delete. destruct (pv_Annotations pv !! OCIVolumeID) as [i|]; [|by intros [= <- <-]]. intros Hr.
  assert (∃ o1, DeleteVolume i w = (o1, w') ∧ (o = Ret () → o1 = Ret () ∨ ∃ e, o1 = Err e ∧ IsNotFound (Some e) = true)) as (o1 & Hd & Ho).
  { unfold mbind, M_bind, try in Hr. destruct (DeleteVolume i w) as [[[]|e|] w1]; [by injection Hr as <- <-; eauto| |by injection Hr as <- <-; eauto].
    destruct (IsNotFound (Some e)) eqn:E; injection Hr as <- <-; eexists; (split; [done|]); [eauto|done]. }
  unfold DeleteVolume, limited in Hd. destruct (limits_still w) as [_ Hl]. destruct (Writer_TryAccept w) as [[] w1]; simpl in Hl.
  - apply DeleteVolume_law in Hd as (_ & Hother & _ & Hgone). split.
    + intros id Hid. rewrite (still_in_service id _ _ Hl). unfold in_service. by rewrite Hother by congruence.
    + intros Hret%Ho. exists i. split; [done|]. intros (v & Hv & Hlive). by apply (Hgone Hret v).
  - injection Hd as <- <-. split; [intros id _; by apply still_in_service|]. intros Hret%Ho. by destruct Hret as [?|(e & [= <-] & ?)].
Qed.

#[global] Instance block_plugin_laws fuel region compartmentID rounding minSize :
  PluginLaws (NewBlockProvisioner (W := W) fuel region compartmentID rounding minSize).
Proof.
  refine {| asset m := m !! OCIVolumeID; held := in_service |}.
  - intros k v m Hk. apply lookup_insert_ne. intros ->. unfold own_annotations in Hk. set_solver.
  - intros options ad w pv w' (v & q & cap & Ha & Hv & _ & Hs & _)%block_Provision_Ret.
    exists (pv_Name pv). rewrite Ha, lookup_singleton_eq. split; [done|]. exists v. split; [done|]. by left.
  - intros pv w w' [_ Hr]%block_Delete_spec. by apply Hr.
  - intros pv w o w' id [Hr _]%block_Delete_spec. apply Hr.
Defined.

Context `{!ZoneChoice}.

Lemma chooseAvailabilityDomain_still (p : OCIProvisioner W) pvc : frames still (chooseAvailabilityDomain p pvc).
Proof.
  apply (frames_bind still); [case_match; [apply (frames_lift still (Ret _))|apply (frames_lift still)]|]. intros zone.
  apply (frames_bind still); [apply find_domain_still|]. intros ad. apply (frames_lift still (Ret _)).
Qed.

(** C21: A block volume that is provisioned for a claim is available, and has the id of the
    claim for its name and the compartment of the provisioner.  If it was not there before,
    the service was asked to create it in the availability domain whose name ends with the
    zone that the claim selects, or else with the zone of some node; the persistent volume is labelled with this domain and
    annotated with the zone.  It also carries the annotations by
    which the provisioner recognises it, so that a later request to delete it that succeeds
    ends the service of this volume.  No request to delete a persistent volume touches
    another volume, and for one without the annotation, or with that of another
    provisioner, it fails and changes nothing. *)
Theorem provisioned_then_deleted fuel nodes region compartmentID rounding minSize :
  let p := {| op_nodeLister := nodes; op_provisioner := NewBlockProvisioner (W := W) fuel region compartmentID rounding minSize;
              op_compartmentID := compartmentID |} in
  (∀ options w pv w', oci_Provision p options w = (Ret pv, w') →
     let id := pv_Name pv in
     ∃ zone ad v, zone_for p (po_PVC options) zone ∧ HasSuffix (ToLower ad) (ToLower zone) = true ∧
       vols w' !! id = Some v ∧ volume_named (pvc_UID (po_PVC options)) compartmentID v ∧ vol_LifecycleState v = VolumeAvailable ∧
       (is_Some (vols w !! id) ∨ created_in ad id) ∧
       pv_Annotations pv !! ociAvailabilityDomain = Some zone ∧ pv_Annotations pv !! ociCompartment = Some compartmentID ∧
       pv_Labels pv !! LabelZoneFailureDomain = Some (mapAvailabilityDomainToFailureDomain ad) ∧
       ∀ w1 w2, oci_Delete p pv w1 = (Ret (), w2) → ¬ in_service id w2) ∧
  (∀ pv w o w', oci_Delete p pv w = (o, w') →
     (∀ id, pv_Annotations pv !! OCIVolumeID ≠ Some id → in_service id w ↔ in_service id w') ∧
     (pv_Annotations pv !! ociProvisionerIdentity ≠ Some ociProvisionerIdentity → is_ret o = false ∧ w' = w)).
Proof.
  intros p. pose (L := block_plugin_laws fuel region compartmentID rounding minSize : PluginLaws (op_provisioner p)). split.
  - intros options w pv w' Hr. cbv zeta. apply (provisioned_by_plugin p) in Hr as (id & zone & ad & w1 & pv0 & Hz & Hp & -> & Hid & _ & Hdel).
    apply chooseAvailabilityDomain_still in Hz as Hst. apply chooseAvailabilityDomain_Ret in Hz as [Hz Had].
    apply block_Provision_made in Hp as Hmade. apply block_Provision_Ret in Hp as (v & q & cap & Hann & Hv & Hn & Hs & _).
    rewrite (proj1 Hst) in Hmade. assert (id = pv_Name pv0) as ->.
    { change (pv_Annotations (annotated compartmentID zone ad pv0) !! OCIVolumeID = Some id) in Hid.
      simpl in Hid. rewrite !lookup_insert_ne, Hann, lookup_singleton_eq in Hid by done. by injection Hid. }
    exists zone, ad, v. split_and!; try done; simpl.
    + by rewrite lookup_insert_ne, lookup_insert_eq by done.
    + by rewrite lookup_insert_eq.
    + by rewrite lookup_insert_eq.
  - intros pv w o w' Hr. exact (deleted_only p pv w o w' Hr).
Qed.
End block.

(** ** File systems *)

Section fss.
Context {W CO : Type} `{!Quantities, !FssSdk W CO, !Limits W, !StorageSdk W, !FssEnvironment W, !FssLaws W CO} {SR : SliceRoom} {ET : ErrorText}.

Lemma AwaitFileSystemActive_Ret ctx id w fs w' :
  AwaitFileSystemActive (CO := CO) ctx id w = (Ret fs, w') →
  fss_still w w' ∧ fs_Id fs = Some id ∧ is_Some (file_systems w' !! id).
Proof.
  intros Hr. apply (proj1 fss_awaits) in Hr as Hs. split; [done|]. destruct fss_reads as (Hread & _).
  apply (PollImmediateUntil_Ret fss_still) in Hr as (w1 & _ & Hr); [|apply poll_active_still, fss_limited, Hread].
  apply M_bind_Ret_inv in Hr as (fs' & w2 & Hg & Hr). apply M_bind_Ret_inv in Hr as (b & w3 & [_ ->]%lift_Ret_inv & Hr).
  destruct b; [|done]. injection Hr as -> ->.
  unfold GetFileSystem in Hg. apply limited_Ret_of in Hg as (w4 & _ & Hg). apply Hread in Hg as Hs2.
  apply GetFileSystem_law in Hg as (r & Hr & _ & Hid). split; [done|]. destruct Hs2 as [-> _]. eauto.
Qed.

(** A file system is added, if there is none with the name. *)
Definition file_system_added (c ad n : string) (w w' : W) : Prop :=
  mount_targets w' = mount_targets w ∧ (file_systems w' = file_systems w ∨ adds file_systems c ad n w w').

Lemma file_system_added_after c ad n w w1 w' : fss_still w w1 → file_system_added c ad n w1 w' → file_system_added c ad n w w'.
Proof. intros [H1 H2]. unfold file_system_added, adds. by rewrite <-H1, <-H2. Qed.
Lemma file_system_added_then c ad n w w1 w' : file_system_added c ad n w w1 → fss_still w1 w' → file_system_added c ad n w w'.
Proof. intros Ha [H3 H4]. unfold file_system_added, adds in *. by rewrite H3, H4. Qed.

Lemma still_file_system_added c ad n w w' : fss_still w w' → file_system_added c ad n w w'.
Proof. intros [H1 H2]. split; auto. Qed.

Lemma CreateFileSystem_adds d w o w' :
  unnamed (cfd_CompartmentId d) (cfd_AvailabilityDomain d) (cfd_DisplayName d) (file_systems w) →
  CreateFileSystem (CO := CO) d w = (o, w') →
  file_system_added (cfd_CompartmentId d) (cfd_AvailabilityDomain d) (cfd_DisplayName d) w w' ∧
  ∀ fs, o = Ret fs → ∃ id r, fs_Id fs = Some id ∧ file_systems w' !! id = Some r ∧
    res_named (cfd_CompartmentId d) (cfd_AvailabilityDomain d) (cfd_DisplayName d) r.
Proof.
  intros Hno Hr. unfold CreateFileSystem, writer_limited in Hr. destruct (fss_limits w) as [_ Hs].
  destruct (Writer_TryAccept w) as [[] w1]; simpl in Hs; [|injection Hr as <- <-; split; [by apply still_file_system_added|done]].
  destruct Hs as [Hs1 Hs2]. apply CreateFileSystem_law in Hr as [[[H1 H2] Ho]|(id & r & H1 & H2 & H3 & H4 & _ & H5)].
  - split; [split; [congruence|left; congruence]|by intros fs ->].
  - rewrite Hs1 in H1, H2. split; [split; [congruence|right; split; [done|by exists id, r]]|].
    intros fs Hfs. exists id, r. rewrite H2, lookup_insert_eq. auto.
Qed.

Lemma fsp_getOrCreateFileSystem_spec p fuel ad n w o w' :
  fsp_getOrCreateFileSystem (CO := CO) p fuel ad n w = (o, w') →
  let c := fsp_compartmentID p in file_system_added c ad n w w' ∧
  ∀ fs, o = Ret fs → ∃ id r, fs_Id fs = Some id ∧ file_systems w' !! id = Some r ∧ res_named c ad n r.
Proof.
  intros Hr c. destruct fss_reads as (_ & _ & _ & _ & _ & _ & Hlist & _).
  assert (∀ w w', fss_still w w' → file_systems w' = file_systems w) as Hres by (by intros ?? [? _]).
  apply M_bind_cases in Hr as [([[cf l] err] & w1 & Hf & Hr)|(o1 & Hf & Ho)].
  2: { split; [apply still_file_system_added|by intros fs ->]. eapply (frames_bind fss_still); [| |exact Hf].
       - apply by_name_still, Hlist.
       - intros r. apply (frames_lift fss_still (Ret _)). }
  apply (search_answer file_systems c ad n _ _ Hres file_system_step_keeps (Hlist _ _ _ _)
    (ListFileSystems_answer _ _ _) (ListFileSystems_missing _ _ _)) in Hf as [Hs Hl].
  apply M_bind_cases in Hr as [([] & w2 & He & Hr)|(o1 & He & Ho)].
  2: { assert (w' = w1) as -> by (destruct err as [e|]; simpl in He; [destruct (IsNotFound (Some e))|]; by injection He).
       split; [by apply still_file_system_added|by intros fs ->]. }
  assert (w2 = w1 ∧ (err = None ∨ IsNotFound err = true)) as [-> Herr].
  { destruct err as [e|]; simpl in He; [destruct (IsNotFound (Some e)) eqn:E; [|done]|]; injection He as <-; auto. }
  destruct (Hl Herr) as [Hin Hno]. clear Hl He.
  assert (∀ id w2, file_system_added c ad n w w2 →
    (∃ r, file_systems w2 !! id = Some r ∧ res_named c ad n r) → AwaitFileSystemActive (CO := CO) None id w2 = (o, w') →
    file_system_added c ad n w w' ∧ ∀ fs, o = Ret fs → ∃ id r, fs_Id fs = Some id ∧ file_systems w' !! id = Some r ∧ res_named c ad n r) as Hwait.
  { intros id w2 Ha (r & Hid & Hn) Hw. apply (proj1 fss_awaits) in Hw as Hsw. split; [by eapply file_system_added_then|].
    intros fs ->. apply AwaitFileSystemActive_Ret in Hw as (_ & Hfs & _). exists id, r. destruct Hsw as [-> _]. done. }
  apply still_file_system_added with (c := c) (ad := ad) (n := n) in Hs as Ha. destruct l as [|s [|s2 l]].
  - rewrite <-(Hres _ _ Hs) in Hno. apply M_bind_cases in Hr as [(fs & w2 & Hc & Hr)|(o1 & Hc & Ho)];
      apply CreateFileSystem_adds in Hc as [Hadd Hfs]; try by apply Hno.
    2: { split; [by eapply file_system_added_after|by intros fs ->]. }
    destruct (Hfs fs eq_refl) as (id & r & Hid & Hin' & Hn). rewrite Hid in Hr.
    eapply (Hwait id w2); [by eapply file_system_added_after|eauto|exact Hr].
  - destruct (Hin s ltac:(by left)) as (id & r & Hid & Hin' & Hn). rewrite Hid in Hr.
    eapply (Hwait id w1); [done| |exact Hr]. exists r. by rewrite (Hres _ _ Hs).
  - injection Hr as <- <-. by split.
Qed.

Lemma fsp_mount_target_still mtID : frames fss_still (fsp_mount_target (CO := CO) mtID).
Proof.
  destruct fss_reads as (_ & _ & _ & _ & _ & _ & _ & _ & _ & _ & _ & _ & Hip).
  apply (frames_bind fss_still); [apply fss_awaits|]. intros mt. case_decide; [apply (frames_fail fss_still)|].
  destruct (mt_ExportSetId mt); [|apply (frames_fail fss_still)].
  apply (frames_bind fss_still); [by intros w o w' [= _ <-]|]. intros id.
  apply (frames_bind fss_still); [apply Hip|]. intros []; [apply (frames_lift fss_still (Ret _))|apply (frames_fail fss_still)].
Qed.

Lemma fsp_getOrCreateExport_still fuel fsID set : frames fss_still (fsp_getOrCreateExport (CO := CO) fuel fsID set).
Proof.
  destruct fss_reads as (_ & _ & _ & _ & Hc & _). apply (frames_bind fss_still); [apply FindExport_still|]. intros [sum err].
  apply (frames_bind fss_still).
  { destruct err as [e|]; simpl; [destruct (IsNotFound (Some e))|]; try apply (frames_lift fss_still (Ret _)). apply (frames_fail fss_still). }
  intros _. destruct sum as [sum|].
  - apply (frames_bind fss_still); [apply (frames_lift fss_still)|]. intros id. apply fss_awaits.
  - apply (frames_bind fss_still); [apply fss_writer_limited, Hc|]. intros x.
    apply (frames_bind fss_still); [apply (frames_lift fss_still)|]. intros id. apply fss_awaits.
Qed.

(** The same of file systems: at most one is made, with the prefix and the id of the claim
    for a name, and only if there is none; the persistent volume is annotated with the id of
    a file system of that name.  Mount targets are not touched. *)
Theorem filesystem_Provision_once p env fuel options ad w o w' :
  filesystem_Provision (CO := CO) p env fuel options ad w = (o, w') →
  let n := GetPrefix env +:+ pvc_UID (po_PVC options) in let c := fsp_compartmentID p in
  mount_targets w' = mount_targets w ∧ (file_systems w' = file_systems w ∨ adds file_systems c ad n w w') ∧
  (∀ pv, o = Ret pv → ∃ id r, pv_Annotations pv !! ociVolumeID = Some id ∧ file_systems w' !! id = Some r ∧ res_named c ad n r).
Proof.
  intros Hr n c. rewrite (assoc (∧)). change (file_system_added c ad n w w' ∧
    ∀ pv, o = Ret pv → ∃ id r, pv_Annotations pv !! ociVolumeID = Some id ∧ file_systems w' !! id = Some r ∧ res_named c ad n r).
  unfold filesystem_Provision in Hr. case_decide; [by injection Hr as <- <-; split; [apply still_file_system_added|]|].
  apply M_bind_cases in Hr as [([set ip] & w1 & Hs%fsp_mount_target_still & Hr)|(o1 & Hs%fsp_mount_target_still & Ho)];
    [|by split; [apply still_file_system_added|intros pv ->]].
  apply M_bind_cases in Hr as [(fs & w2 & Hf & Hr)|(o1 & Hf & Ho)]; apply fsp_getOrCreateFileSystem_spec in Hf as [Ha Hfs].
  2: { split; [by eapply file_system_added_after|by intros pv ->]. }
  apply (file_system_added_after _ _ _ w) in Ha; [|done]. destruct (Hfs fs eq_refl) as (id & r & Hid & Hin & Hn). rewrite Hid in Hr.
  match type of Hr with (_ ≫= ?f) w2 = _ => change (f id w2 = (o, w')) in Hr; cbv beta in Hr end.
  apply M_bind_cases in Hr as [(x & w3 & He%fsp_getOrCreateExport_still & Hr)|(o1 & He%fsp_getOrCreateExport_still & Ho)];
    apply (file_system_added_then _ _ _ _ _ _ Ha) in He as Ha3; [|by split; [|intros pv ->]].
  apply M_bind_cases in Hr as [(xid & w4 & [_ ->]%lift_Ret_inv & Hr)|(o1 & [= _ <-] & Ho)]; [|by split; [|intros pv ->]].
  apply M_bind_cases in Hr as [(policy & w4 & [_ ->]%lift_Ret_inv & Hr)|(o1 & [= _ <-] & Ho)]; [|by split; [|intros pv ->]].
  apply M_bind_cases in Hr as [(path & w4 & [_ ->]%lift_Ret_inv & Hr)|(o1 & [= _ <-] & Ho)]; [|by split; [|intros pv ->]].
  injection Hr as <- <-. split; [done|]. intros pv [= <-]. exists id, r. simpl. rewrite lookup_insert_eq. by destruct He as [-> _].
Qed.

Lemma delete_if_found_spec (c : M W ()) w o w' :
  delete_if_found c w = (o, w') →
  ∃ o1, c w = (o1, w') ∧ (o = Ret () → o1 = Ret () ∨ ∃ e, o1 = Err e ∧ IsNotFound (Some e) = true).
Proof. exact (delete_tolerant c id w o w'). Qed.

Lemma filesystem_Delete_spec pv w o w' :
  filesystem_Delete (CO := CO) pv w = (o, w') →
  let id := default "" (pv_Annotations pv !! ociVolumeID) in
  only_at id (file_systems w) (file_systems w') ∧ mount_targets w' = mount_targets w ∧
  (is_ret o = false ∧ fss_still w w' ∨ pv_Annotations pv !! ociVolumeID = Some id) ∧
  (o = Ret () → pv_Annotations pv !! ociVolumeID = Some id ∧ file_systems w' !! id = None).
Proof.
  intros Hr id. unfold filesystem_Delete in Hr. case_decide; [by injection Hr as <- <-; split_and!; [left| |left|]|].
  case_decide as Hid; [by injection Hr as <- <-; split_and!; [left| |left|]|].
  assert (pv_Annotations pv !! ociVolumeID = Some id) as Hann.
  { subst id. by destruct (pv_Annotations pv !! ociVolumeID). }
  fold id in Hr, Hid. clearbody id.
  destruct fss_reads as (_ & _ & _ & _ & _ & Hdel & _).
  apply M_bind_cases in Hr as [([] & w1 & (o1 & Hx & _)%delete_if_found_spec & Hr)|(o1 & (o2 & Hx & _)%delete_if_found_spec & Ho)];
    apply (fss_limited true "DeleteExport" _ (Hdel _)) in Hx as [Hs1 Hs2].
  - apply (delete_file_system_spec id Datatypes.id) in Hr as (H1 & H2 & H3). rewrite Hs1 in H2. rewrite Hs2 in H1. split_and!; auto.
  - split_and!; [by left|done|by right|by intros ->].
Qed.

#[global] Instance filesystem_plugin_laws env fuel region compartmentID :
  PluginLaws (NewFilesystemProvisioner (W := W) (CO := CO) env fuel region compartmentID).
Proof.
  refine {| asset m := m !! ociVolumeID; held id w := is_Some (file_systems w !! id) |}.
  - intros k v m Hk. apply lookup_insert_ne. intros ->. unfold own_annotations in Hk. set_solver.
  - intros options ad w pv w' (_ & _ & Hr)%filesystem_Provision_once. destruct (Hr pv eq_refl) as (id & r & Ha & Hin & _). eauto.
  - intros pv w w' (_ & _ & _ & Hr)%filesystem_Delete_spec. destruct (Hr eq_refl) as [Ha Hn]. eexists. split; [done|].
    rewrite Hn. by intros [].
  - intros pv w o w' id (Hr & _ & Ho & _)%filesystem_Delete_spec Hid. destruct Ho as [[_ [-> _]]|Ha]; [done|].
    rewrite (only_at_lookup _ _ _ _ Hr); [done|]. by intros ->.
Defined.
End fss.

(** ** Starting *)

Section start.
Context {W CO : Type} `{!Quantities, !FssSdk W CO, !Limits W, !SliceRoom, !StorageSdk W, !FssEnvironment W}.
Context `{!ConfigEnvironment W, !SdkClients W, !MapRange, !Tenancies W} {ET : ErrorText}.

Lemma provisioner_compartment_Ret cfg metadata (w : W) c w' :
  pc_CompartmentID cfg ≠ "" → provisioner_compartment cfg metadata w = (Ret c, w') → c = pc_CompartmentID cfg.
Proof. intros Hc. unfold provisioner_compartment. rewrite decide_False by done. by intros [= <- _]. Qed.

Lemma plugin_for_Ret env fuel t region c rounding minSize (P : ProvisionerPlugin W) :
  plugin_for (CO := CO) env fuel t region c rounding minSize = Ret P →
  (t ∈ [ProvisionerNameDefault; ProvisionerNameBlock] ∧ P = NewBlockProvisioner fuel region c rounding minSize) ∨
  (t = ProvisionerNameFss ∧ P = NewFilesystemProvisioner (CO := CO) env fuel region c).
Proof.
  unfold plugin_for. case_decide as Hb; [intros [= <-]; left; split; [set_solver|done]|].
  case_decide; [intros [= <-]; by right|done].
Qed.

(** A provisioner that starts has the plugin of its type, with the compartment of a valid
    configuration and the region of the environment or of the instance.  Without a region
    the start answers neither a provisioner nor an error. *)
Theorem NewOCIProvisioner_starts env fuel nodes t rounding minSize (w : W) r w' :
  NewOCIProvisioner (CO := CO) env fuel nodes t rounding minSize w = (Ret r, w') →
  match r with
  | None => env "OCI_SHORT_REGION" = None
  | Some p => op_nodeLister p = nodes ∧ ∃ region, op_compartmentID p ≠ "" ∧
      (env "OCI_SHORT_REGION" = Some region ∨
       env "OCI_SHORT_REGION" = None ∧ ∃ m (w1 w2 : W), metadata_Get w1 = (Ret m, w2) ∧ region = meta_Region m) ∧
      ((t ∈ [ProvisionerNameDefault; ProvisionerNameBlock] ∧
        op_provisioner p = NewBlockProvisioner fuel region (op_compartmentID p) rounding minSize) ∨
       (t = ProvisionerNameFss ∧ op_provisioner p = NewFilesystemProvisioner (CO := CO) env fuel region (op_compartmentID p)))
  end.
Proof.
  intros Hr. apply M_bind_Ret_inv in Hr as (cfg & w1 & _ & Hr). destruct (Validate cfg) eqn:Hv; [done|].
  apply Validate_None in Hv as [Hc _]. apply M_bind_Ret_inv in Hr as (md & w2 & Hmd & Hr).
  apply M_bind_Ret_inv in Hr as (c & w3 & ->%provisioner_compartment_Ret & Hr); [|done].
  apply M_bind_Ret_inv in Hr as (cp & w4 & _ & Hr). apply M_bind_Ret_inv in Hr as (ten & w5 & _ & Hr).
  destruct (NewRateLimiter _) as [rl lims]. apply M_bind_Ret_inv in Hr as (cl & w6 & _ & Hr).
  destruct (provisioner_region env md) as [region|] eqn:Hreg.
  - apply M_bind_Ret_inv in Hr as (P & w7 & [HP%plugin_for_Ret _]%lift_Ret_inv & Hr). injection Hr as <- _. split; [done|].
    exists region. split_and!; [done| |done]. unfold provisioner_region in Hreg. destruct (env _); [left; congruence|right].
    destruct md as [e|m]; [done|]. injection Hreg as <-. split; [done|]. exists m, w1, w2. split; [|done].
    unfold try in Hmd. by destruct (metadata_Get w1) as [[]]; simplify_eq.
  - injection Hr as <- _. unfold provisioner_region in Hreg. by destruct (env "OCI_SHORT_REGION").
Qed.
End start.
