(* ===== verification/ProvisionerMemory.v ===== *)
(** * The provisioner over block storage in memory

    Runs of the provisioner with the block storage plugin, over the services of
    [StorageMemory]. *)
From stdpp Require Import base tactics list gmap sets strings.
From S2P Require Import Prelude GoStrings Types ClientErrors ClientCalls Annotations CsiUtil CsiUtilFacts StorageClient BlockVolume BlockVolumeFacts StorageMemory FileStorageClient FileStorage FileStorageFacts Config Startup Provisioner ProvisionerFacts.

(** Quantities of bytes. *)
Definition bytes_value (n : N) : Z := Z.of_N n `mod` 2 ^ 63.
Definition bytes_cmp (a b : N) : Z :=
  match Z.compare (bytes_value a) (bytes_value b) with Gt => 1 | Eq => 0 | Lt => -1 end%Z.
Lemma bytes_value_bounds q : (0 ≤ bytes_value q < 2 ^ 63)%Z.
Proof. by apply Z.mod_pos_bound. Qed.
Lemma bytes_cmp_value a b : bytes_cmp a b = 1%Z → (bytes_value b ≤ bytes_value a)%Z.
Proof. unfold bytes_cmp. destruct (Z.compare_spec (bytes_value a) (bytes_value b)); [done..|lia]. Qed.
Definition bytes_quantities : Quantities := {|
  Quantity := N; q_Value := bytes_value; q_Cmp := bytes_cmp; q_Value_bounds := bytes_value_bounds; q_Cmp_Value := bytes_cmp_value |}.

(** All the zones. *)
Lemma all_zones (zones : gset string) (name : string) (n : nat) : zones ⊆ zones.
Proof. done. Qed.
Definition any_zone : ZoneChoice := {| ChooseZonesForVolume zones _ _ := zones; chosen_zones := all_zones |}.

#[local] Existing Instances bytes_quantities any_zone memory_storage storage_limits memory_nodes memory_storage_laws plain_text.

Definition zone_node : Node := {|
  node_Name := "node"; node_Labels := {[LabelZoneFailureDomain := "PHX-AD-1"]}; node_Annotations := ∅;
  node_ProviderID := "oci://instance"; node_Addresses := []; node_Conditions := [] |}.

Definition block_plugin : ProvisionerPlugin storage_world := NewBlockProvisioner 3 "phx" "compartment" true (50 * 1024 * 1024 * 1024)%N.
Definition a_provisioner : OCIProvisioner storage_world := {|
  op_nodeLister := inr [zone_node]; op_provisioner := block_plugin; op_compartmentID := "compartment" |}.

Definition a_claim : PersistentVolumeClaim := {|
  pvc_Name := "claim"; pvc_UID := "7e2b"; pvc_Annotations := ∅; pvc_AccessModes := [ReadWriteOnce];
  pvc_Requests := {[ResourceStorage := 1000%N]}; pvc_Selector := None |}.
Definition claim_options : ProvisionOptions := {|
  po_StorageClass := {| sc_Parameters := ∅; sc_ReclaimPolicy := Some "Delete"; sc_MountOptions := [] |};
  po_PVName := "pvc-7e2b"; po_PVC := a_claim |}.

(** A claim is provisioned twice, then its volume is deleted. *)
Definition provisioned := oci_Provision a_provisioner claim_options empty_storage.
Definition provisioned_again := oci_Provision a_provisioner claim_options provisioned.2.
Definition deleted := match provisioned.1 with Ret pv => oci_Delete a_provisioner pv provisioned_again.2 | _ => (Panic, provisioned.2) end.

Lemma provisioned_then_deleted_witness :
  is_ret deleted.1 = true ∧
  ∃ pv zone ad v, provisioned.1 = Ret pv ∧ zone_for a_provisioner a_claim zone ∧ HasSuffix (ToLower ad) (ToLower zone) = true ∧
    vols provisioned.2 !! pv_Name pv = Some v ∧ vol_LifecycleState v = VolumeAvailable ∧ created_in ad (pv_Name pv) ∧
    ¬ in_service (pv_Name pv) deleted.2.
Proof.
  assert (is_ret deleted.1 = true) as Hdel by (vm_compute; reflexivity).
  assert (is_ret provisioned.1 = true) as Hok by (vm_compute; reflexivity). split; [done|].
  destruct provisioned.1 as [pv| |] eqn:Hpv; [|discriminate Hok..].
  assert (oci_Provision a_provisioner claim_options empty_storage = (Ret pv, provisioned.2)) as Hr.
  { rewrite <-Hpv. apply surjective_pairing. }
  destruct (provisioned_then_deleted 3 (inr [zone_node]) "phx" "compartment" true ((50 * 1024 * 1024 * 1024)%N : @Quantity bytes_quantities)) as [H _].
  destruct (H _ _ _ _ Hr) as (zone & ad & v & Hz & Hs & Hv & _ & Hav & Hmade & _ & _ & _ & Hd). exists pv, zone, ad, v.
  do 5 (split; [done|]). split; [destruct Hmade as [[? Hold]|?]; [discriminate Hold|done]|].
  assert (oci_Delete a_provisioner pv provisioned_again.2 = deleted) as E by (unfold deleted; by rewrite Hpv).
  apply (Hd provisioned_again.2). change (oci_Delete a_provisioner pv provisioned_again.2 = (Ret (), deleted.2)). rewrite E. destruct deleted as [[[]| |] w]; [done|discriminate Hdel..].
Defined.

(** What the plugin is asked for, and asked again. *)
Definition block_parameters : blockProvisioner := {|
  bp_volumeRoundingEnabled := true; bp_minVolumeSize := (50 * 1024 * 1024 * 1024)%N; bp_region := "phx"; bp_compartmentID := "compartment" |}.
Definition made := block_Provision block_parameters 3 claim_options "zkJl:PHX-AD-1" empty_storage.
Definition made_again := block_Provision block_parameters 3 claim_options "zkJl:PHX-AD-1" made.2.

Lemma block_Provision_once_witness :
  (pv_Capacity <$> match made.1 with Ret pv => Some pv | _ => None end) = Some (Some (50 * 1024 * 1024 * 1024)%N) ∧
  vols made_again.2 = vols made.2 ∧
  ∃ pv, made_again.1 = Ret pv ∧ backed block_parameters claim_options pv made_again.2.
Proof.
  assert (is_ret made_again.1 = true) as Hok by (vm_compute; reflexivity).
  split; [vm_compute; reflexivity|]. split; [vm_compute; reflexivity|].
  destruct made_again.1 as [pv| |] eqn:Hpv; [|discriminate Hok..]. exists pv. split; [done|].
  apply (block_Provision_once block_parameters 3 claim_options "zkJl:PHX-AD-1" made.2 (Ret pv) made_again.2); [|done].
  rewrite <-Hpv. apply surjective_pairing.
Defined.
