(* ===== verification/CsiDriver.v ===== *)
(** * The servers of the CSI drivers (src/pkg/csi/driver/driver.go, identity.go)

    A process serves the controller or the node requests of one of the three drivers; the
    driver is chosen by its name.  Parsing of addresses, sockets and the gRPC server are the
    class [CsiServerHost]. *)
From stdpp Require Import base tactics list gmap sets strings.
From S2P Require Import Prelude GoStrings GoRegexp Types ClientErrors ClientCalls CsiUtil Host NodeServices Config Startup.

Record DriverNames := {
  BlockVolumeDriverName : string;
  FSSDriverName : string;
  LustreDriverName : string;
}.

Definition getEnv (env : string → string) (key fallback : string) : string :=
  if decide (env key ≠ "") then env key else fallback.

(** [init]. *)
Definition driver_names (env : string → string) : DriverNames := {|
  BlockVolumeDriverName := getEnv env "BLOCK_VOLUME_DRIVER_NAME" "blockvolume.csi.oraclecloud.com";
  FSSDriverName := getEnv env "FSS_VOLUME_DRIVER_NAME" "fss.csi.oraclecloud.com";
  LustreDriverName := getEnv env "LUSTRE_VOLUME_DRIVER_NAME" "lustre.csi.oraclecloud.com" |}.

(** What the controllers share; the pusher of metrics is left out. *)
Record ControllerDriver := {
  cd_config : Config;
  cd_client : client;
  cd_clusterIpFamily : string;
}.

(** [csi.ControllerServer] and [csi.NodeServer]. *)
Inductive ControllerServer :=
| BlockVolumeController (d : ControllerDriver)
| FSSController (d : ControllerDriver)
| LustreController (d : ControllerDriver).
Inductive NodeServer (W : Type) :=
| BlockVolumeNode (nodeID : string) (d : NodeDriver W)
| FSSNode (nodeID : string) (d : NodeDriver W)
| LustreNode (nodeID : string) (d : NodeDriver W).
Arguments BlockVolumeNode {W}. Arguments FSSNode {W}. Arguments LustreNode {W}.

Record ControllerDriverConfig := {
  cdc_CsiEndpoint : string;
  cdc_CsiKubeConfig : string;
  cdc_CsiMaster : string;
  cdc_EnableControllerServer : bool;
  cdc_DriverName : string;
  cdc_DriverVersion : string;
  cdc_ClusterIpFamily : string;
}.

(** src/cmd/oci-csi-node-driver/nodedriveroptions. *)
Record NodeOptions := {
  no_Name : string;
  no_Endpoint : string;
  no_NodeID : string;
  no_Kubeconfig : string;
  no_Master : string;
  no_EnableControllerServer : bool;
  no_DriverName : string;
  no_DriverVersion : string;
}.

Record Driver (W : Type) := {
  dr_controllerDriver : option ControllerServer;
  dr_nodeDriver : option (NodeServer W);
  dr_name : string;
  dr_version : string;
  dr_endpoint : string;
  dr_ready : bool;
  dr_enableControllerServer : bool;
}.
Arguments dr_controllerDriver {W}. Arguments dr_nodeDriver {W}. Arguments dr_name {W}. Arguments dr_version {W}.
Arguments dr_endpoint {W}. Arguments dr_ready {W}. Arguments dr_enableControllerServer {W}.

Definition set_ready {W} (d : Driver W) : Driver W := {|
  dr_controllerDriver := dr_controllerDriver d; dr_nodeDriver := dr_nodeDriver d; dr_name := dr_name d;
  dr_version := dr_version d; dr_endpoint := dr_endpoint d; dr_ready := true;
  dr_enableControllerServer := dr_enableControllerServer d |}.

(** What a server answers besides the identity of the driver. *)
Inductive service (W : Type) :=
| ServesController (s : option ControllerServer)
| ServesNode (s : option (NodeServer W)).
Arguments ServesController {W}. Arguments ServesNode {W}.

(** [url.Parse] (the scheme, the host and the path), the configuration and the client of
    Kubernetes, removal of a file, and a listener. *)
Class CsiServerHost (W : Type) := {
  url_Parse : string → error + (string * string * string);
  RestConfig : Type;
  BuildConfigFromFlags : string → string → M W RestConfig;
  InClusterConfig : M W RestConfig;
  NewForConfig : option RestConfig → M W ();
  os_RemoveFile : string → M W ();
  file_missing : error → bool;
  net_Listen : string → string → M W ();
}.

Section driver.
Context {W : Type} `{!ConfigEnvironment W, !SdkClients W, !MapRange, !CsiServerHost W}.
Context (env : string → option string) (names : DriverNames).

Definition newControllerDriver (config : Config) (c : client) (clusterIpFamily : string) : ControllerDriver := {|
  cd_config := config; cd_client := c; cd_clusterIpFamily := clusterIpFamily |}.

Definition newNodeDriver (nodeMetadata : NodeMetadata) (csiConfig : CSIConfig) (w : W) : NodeDriver W := {|
  nd_volumeLocks := NewVolumeLocks; nd_nodeMetadata := nodeMetadata; nd_csiConfig := csiConfig; nd_host := w |}.

Definition GetControllerDriver (name : string) (config : Config) (c : client) (clusterIpFamily : string) : option ControllerServer :=
  let d := newControllerDriver config c clusterIpFamily in
  if decide (name = BlockVolumeDriverName names) then Some (BlockVolumeController d)
  else if decide (name = FSSDriverName names) then Some (FSSController d)
  else if decide (name = LustreDriverName names) then Some (LustreController d)
  else None.

Definition GetNodeDriver (name nodeID : string) (nodeMetadata : NodeMetadata) (csiConfig : CSIConfig) (w : W) : option (NodeServer W) :=
  let d := newNodeDriver nodeMetadata csiConfig w in
  if decide (name = BlockVolumeDriverName names) then Some (BlockVolumeNode nodeID d)
  else if decide (name = FSSDriverName names) then Some (FSSNode nodeID d)
  else if decide (name = LustreDriverName names) then Some (LustreNode nodeID d)
  else None.

(** [logger.Fatal] ends the process.  The error of [BuildConfigFromFlags] is overwritten, and
    the client is made from nil. *)
Definition GetKubeClient (master kubeconfig : string) : M W () :=
  config ← (if decide (master ≠ "" ∨ kubeconfig ≠ "") then
              report (c ← BuildConfigFromFlags master kubeconfig; mret (Some c)) (λ _, mret None)
            else report (c ← InClusterConfig; mret (Some c)) (λ _, lift Panic));
  report (NewForConfig config) (λ _, lift Panic).

Definition getConfig : M W Config :=
  let configPath := default "/etc/oci/config.yaml" (env "CONFIG_YAML_FILENAME") in
  cfg ← report (FromFile configPath) (λ _, lift Panic);
  match Validate cfg with
  | Some _ => lift Panic
  | None =>
      if decide (pc_CompartmentID cfg = "") then
        metadata ← report metadata_Get (λ _, lift Panic);
        mret (set_config (pc_Auth cfg) (pc_LoadBalancer cfg) (pc_RateLimiter cfg) (pc_RegionKey cfg)
                (pc_UseInstancePrincipals cfg) (meta_CompartmentID metadata) (pc_VCNID cfg) cfg)
      else mret cfg
  end.

Definition getClient : M W client :=
  cfg ← getConfig;
  report (GetClient cfg) (λ _, lift Panic).

Definition no_metadata : NodeMetadata := {|
  PreferredNodeIpFamily := ""; Ipv4Enabled := false; Ipv6Enabled := false; AvailabilityDomain := "";
  FullAvailabilityDomain := ""; nm_NodeInternalIP := ""; IsNodeMetadataLoaded := false |}.
Definition no_csi_config : CSIConfig := {| cfg_Lustre := None; cfg_Bv := None; cfg_IsLoaded := false |}.

Definition NewNodeDriver (o : NodeOptions) : M W (Driver W) :=
  _ ← GetKubeClient (no_Master o) (no_Kubeconfig o);
  host ← (λ w, (Ret w, w)) : M W W;
  mret {| dr_controllerDriver := None;
          dr_nodeDriver := GetNodeDriver (no_DriverName o) (no_NodeID o) no_metadata no_csi_config host;
          dr_name := no_DriverName o; dr_version := no_DriverVersion o; dr_endpoint := no_Endpoint o; dr_ready := false;
          dr_enableControllerServer := no_EnableControllerServer o |}.

Definition NewControllerDriver (c : ControllerDriverConfig) : M W (Driver W) :=
  _ ← GetKubeClient (cdc_CsiMaster c) (cdc_CsiKubeConfig c);
  cfg ← getConfig;
  cl ← getClient;
  mret {| dr_controllerDriver := GetControllerDriver (cdc_DriverName c) cfg cl (cdc_ClusterIpFamily c);
          dr_nodeDriver := None; dr_name := cdc_DriverName c; dr_version := cdc_DriverVersion c;
          dr_endpoint := cdc_CsiEndpoint c; dr_ready := false; dr_enableControllerServer := cdc_EnableControllerServer c |}.

(** Type assertions: a nil server, or one of another driver, panics. *)
Definition Driver_GetControllerDriver (d : Driver W) : outcome (option ControllerServer) :=
  if decide (dr_name d = BlockVolumeDriverName names) then
    match dr_controllerDriver d with Some (BlockVolumeController _ as s) => Ret (Some s) | _ => Panic end
  else if decide (dr_name d = FSSDriverName names) then
    match dr_controllerDriver d with Some (FSSController _ as s) => Ret (Some s) | _ => Panic end
  else if decide (dr_name d = LustreDriverName names) then
    match dr_controllerDriver d with Some (LustreController _ as s) => Ret (Some s) | _ => Panic end
  else Ret None.

Definition Driver_GetNodeDriver (d : Driver W) : outcome (option (NodeServer W)) :=
  if decide (dr_name d = BlockVolumeDriverName names) then
    match dr_nodeDriver d with Some (BlockVolumeNode _ _ as s) => Ret (Some s) | _ => Panic end
  else if decide (dr_name d = FSSDriverName names) then
    match dr_nodeDriver d with Some (FSSNode _ _ as s) => Ret (Some s) | _ => Panic end
  else if decide (dr_name d = LustreDriverName names) then
    match dr_nodeDriver d with Some (LustreNode _ _ as s) => Ret (Some s) | _ => Panic end
  else Ret None.

(** The path of the socket. *)
Definition socket_address (host path : string) : string := if decide (host = "") then path else Join [host; path].

(** Until requests are served: the driver, which is ready, and its service. *)
Definition Run (d : Driver W) : M W (Driver W * service W) :=
  match url_Parse (dr_endpoint d) with
  | inl _ => fail (Errorf "failed to parse the address: %s" [dr_endpoint d])
  | inr (scheme, host, path) =>
      let addr := socket_address host path in
      if decide (scheme ≠ "unix") then fail (Errorf "currently only unix domain sockets are supported, have: %s" [scheme]) else
      _ ← report (os_RemoveFile addr)
            (λ err, if file_missing err then mret () else fail (Errorf "failed to remove unix domain socket file %s" [addr]));
      _ ← report (net_Listen scheme addr) (λ _, fail (Errorf "failed to listen" []));
      let d := set_ready d in
      if dr_enableControllerServer d then s ← lift (Driver_GetControllerDriver d); mret (d, ServesController s)
      else s ← lift (Driver_GetNodeDriver d); mret (d, ServesNode s)
  end.

(** ** Identity *)

Definition GetPluginInfo (d : Driver W) : string * string := (dr_name d, dr_version d).
Definition GetPluginCapabilities (d : Driver W) : list string :=
  if decide (dr_name d = BlockVolumeDriverName names) then ["CONTROLLER_SERVICE"; "VOLUME_ACCESSIBILITY_CONSTRAINTS"]
  else ["CONTROLLER_SERVICE"].
Definition Probe (d : Driver W) : bool := dr_ready d.

(** ** What is served *)

Definition known (name : string) : Prop :=
  name = BlockVolumeDriverName names ∨ name = FSSDriverName names ∨ name = LustreDriverName names.

Lemma Run_Ret d w d' s w' : Run d w = (Ret (d', s), w') →
  d' = set_ready d ∧
  (if dr_enableControllerServer d then ∃ c, Driver_GetControllerDriver (set_ready d) = Ret c ∧ s = ServesController c
   else ∃ n, Driver_GetNodeDriver (set_ready d) = Ret n ∧ s = ServesNode n).
Proof.
  unfold Run. destruct (url_Parse _) as [e|[[scheme host] path]]; [done|]. case_decide; [done|].
  intros (? & w1 & _ & Hr)%M_bind_Ret_inv. apply M_bind_Ret_inv in Hr as (? & w2 & _ & Hr). simpl in Hr.
  destruct (dr_enableControllerServer d); apply M_bind_Ret_inv in Hr as (r & w3 & Hl & Hr); injection Hl as Hl <-; injection Hr as <- <- <-; eauto.
Qed.

(** Type assertions on the server that the name selects. *)
Lemma own_controller name c cfg cl ip : known name → dr_name c = name → dr_controllerDriver c = GetControllerDriver name cfg cl ip →
  Driver_GetControllerDriver c = Ret (GetControllerDriver name cfg cl ip).
Proof. unfold known, Driver_GetControllerDriver, GetControllerDriver. intros Hk -> ->. repeat case_decide; naive_solver. Qed.
Lemma own_node name c id m cc w : known name → dr_name c = name → dr_nodeDriver c = GetNodeDriver name id m cc w →
  Driver_GetNodeDriver c = Ret (GetNodeDriver name id m cc w).
Proof. unfold known, Driver_GetNodeDriver, GetNodeDriver. intros Hk -> ->. repeat case_decide; naive_solver. Qed.
Lemma no_controller d : known (dr_name d) → dr_controllerDriver d = None → Driver_GetControllerDriver d = Panic.
Proof. unfold known, Driver_GetControllerDriver. intros Hk ->. repeat case_decide; naive_solver. Qed.
Lemma no_node d : known (dr_name d) → dr_nodeDriver d = None → Driver_GetNodeDriver d = Panic.
Proof. unfold known, Driver_GetNodeDriver. intros Hk ->. repeat case_decide; naive_solver. Qed.

(** A controller that was made for a known driver serves, ready, the requests of that
    driver with a configuration and a client of the process, if its flag says that it is a
    controller; otherwise it never serves. *)
Theorem controller_serves_own_driver c w d w1 w2 d' s w3 :
  NewControllerDriver c w = (Ret d, w1) → known (cdc_DriverName c) → Run d w2 = (Ret (d', s), w3) →
  cdc_EnableControllerServer c = true ∧ Probe d' = true ∧ GetPluginInfo d' = (cdc_DriverName c, cdc_DriverVersion c) ∧
  ∃ cfg cl, s = ServesController (GetControllerDriver (cdc_DriverName c) cfg cl (cdc_ClusterIpFamily c)) ∧
    (∃ wa wb, getConfig wa = (Ret cfg, wb)) ∧ ∃ wa wb, getClient wa = (Ret cl, wb).
Proof.
  intros (? & wa & _ & Hd)%M_bind_Ret_inv Hk [-> Hs]%Run_Ret. apply M_bind_Ret_inv in Hd as (cfg & wb & Hcfg & Hd).
  apply M_bind_Ret_inv in Hd as (cl & wc & Hcl & Hd). injection Hd as <- <-. simpl in Hs.
  destruct (cdc_EnableControllerServer c).
  - erewrite own_controller in Hs by done. destruct Hs as (? & [= <-] & ->). split_and!; [done..|]. exists cfg, cl. split_and!; [done|by exists wa, wb|by exists wb, wc].
  - rewrite no_node in Hs by done. by destruct Hs as (? & ? & _).
Qed.

(** The same of a node, whose locks are free when it starts. *)
Theorem node_serves_own_driver o w d w1 w2 d' s w3 :
  NewNodeDriver o w = (Ret d, w1) → known (no_DriverName o) → Run d w2 = (Ret (d', s), w3) →
  no_EnableControllerServer o = false ∧ Probe d' = true ∧ GetPluginInfo d' = (no_DriverName o, no_DriverVersion o) ∧
  s = ServesNode (GetNodeDriver (no_DriverName o) (no_NodeID o) no_metadata no_csi_config w1).
Proof.
  intros (? & wa & _ & Hd)%M_bind_Ret_inv Hk [-> Hs]%Run_Ret. apply M_bind_Ret_inv in Hd as (h & wb & Hh & Hd).
  injection Hh as <- <-. injection Hd as <- <-. simpl in Hs. destruct (no_EnableControllerServer o).
  - rewrite no_controller in Hs by done. by destruct Hs as (? & ? & _).
  - erewrite own_node in Hs by done. by destruct Hs as (? & [= <-] & ->).
Qed.
End driver.
